(* ===== verification/_CoqProject ===== *)
-Q . S2P
Prelude.v
JsString.v
JsValues.v
NestedSet.v
Repo.v
DbErrors.v
TreeService.v
PermissionResolver.v
SessionStore.v
SessionSync.v
Guards.v
AccessControl.v
RunningNumber.v
QueryBuilder.v
QueryMeaning.v
QueryLaws.v
BaseService.v
Listing.v
AuthService.v
AuthFlow.v
PermissionScan.v
PermissionSync.v
AccessKeys.v
RpcErrors.v
MicroserviceClient.v
JsonApi.v
Policies.v
Storage.v
TemplateRender.v
Paginator.v
PrintTemplates.v
Catalogue.v
UserAdmin.v
PermissionAdmin.v
CookieAuth.v
HttpLogging.v
Shutdown.v
Routes.v
QueryParams.v
Messaging.v
Bootstrap.v
DocumentTypes.v
AdminSession.v
AdminPages.v
