(* ===== verification/Prelude.v ===== *)
(** * The erp-api backend: access control, sessions, generic CRUD and tree tables

    This library models the core logic of the NestJS monorepo under src/ and
    proves what makes it correct.  Definitions are translated from the
    TypeScript sources, function by function, under the sources' names;
    everything that is not in the repository (TypeORM and Postgres, Redis,
    bcrypt, SHA-256, the JWT library, the clock, random numbers, JSON and date
    parsing) is a parameter of the definitions, or a class of operations whose
    laws state the documented behaviour.  Each such class has an instance on
    lists or finite maps, which shows the laws can hold and on which the
    witnesses run.

    ** The program

    The system is a set of services that share one library.  [libs/common]
    holds the generic service and query builder every CRUD module extends, the
    four global guards, the session store on Redis, the error mapping and the
    RPC client.  [apps/iam] owns users, roles, policies, permissions and access
    keys, and answers the RPCs "what may this user do" and "is this signature
    valid".  [apps/auth] owns credentials, tokens and sessions.  The business
    services (inventory, report, supplier) are CRUD services on top of the
    common library, with trees (warehouses, item groups), variants, running
    numbers and print templates as their own logic; files are objects of the
    storage service.  The admin pages call all of this from a browser.  A
    request passes the guards (Guards.v), which read the session that auth stored
    (SessionStore.v, AuthService.v) and that iam keeps in step with the policies
    (SessionSync.v, PermissionResolver.v), then a controller calls a service
    (BaseService.v, TreeService.v, ...), whose driver errors are turned into
    HTTP errors (DbErrors.v), or a list query (QueryBuilder.v, Listing.v).

    ** Files

    - Prelude.v: exceptions and the error monad [result] with its notations
      [let! x := m in k] and [throw_unless!] (scope [js]), the JavaScript list
      operations, the hint database [js].
    - JsString.v, JsValues.v: the string operations the sources use (split,
      replace, trim, padStart, localeCompare-free comparison), numbers and dates
      as JavaScript parses them.
    - NestedSet.v: libs/common/src/utils/nested-set/rebuild-nested-set.util.ts.
      The recursive walk is a Fixpoint with fuel; the fuel is the number of rows
      and [rebuild_outcome] proves it is never exhausted on a table with
      distinct ids, so the model computes what the unbounded recursion does.
    - Repo.v: the classes [Database] (SQL statements on a table, up to the
      order of rows) and [Entity] (primary key and soft-delete column), and the
      repository operations derived from them.
    - DbErrors.v: both copies of the driver-error mapping:
      [executeDbOperation] and postgres-error-mapper.util.ts.
    - TreeService.v: warehouses.service.ts and item-groups.service.ts, the same
      operations at two instances; the table after any sequence of requests.
    - PermissionResolver.v: permission-resolver.service.ts, the resolution of
      roles, policies, statements into permission lists, and the evaluation of
      one permission in a request context.
    - SessionStore.v: session-store.service.ts over the class [Redis].
    - SessionSync.v: session-sync.service.ts, the policy assignment of
      roles.service.ts and the role assignment of users.service.ts.
    - Guards.v: auth, access-key, csrf and permission guards and their order.
    - AccessControl.v: guards, session store, sync and resolver composed.
    - RunningNumber.v: running-number-format.util.ts and the issuing of numbers
      in document-types.service.ts, with what the counter row can hold.
    - QueryBuilder.v: typeorm-query-builder.util.ts, the whole class;
      QueryMeaning.v: what the produced conditions select, against a reference
      semantics of the query language; QueryLaws.v: the other laws.
    - BaseService.v and Listing.v: base-service-operations.util.ts, writes and
      reads.
    - AuthService.v: auth.service.ts and sessions.service.ts; AuthFlow.v: the
      auth service and the guards composed.
    - PermissionScan.v: permission-sync-scan.util.ts, the search of the source
      tree for permission declarations; PermissionSync.v:
      sync-permissions.script.ts and permissions-sync.service.ts, the two
      programs that bring the permission catalog in line with the scan;
      PermissionAdmin.v: permissions.service.ts, the rows added by hand.
    - AccessKeys.v: access-keys.service.ts and key-generator.util.ts, and the
      signature check composed with the guards.
    - RpcErrors.v: the HTTP and RPC exception filters and the translation of a
      rejected call (utils/http-exception); MicroserviceClient.v:
      microservice-client.service.ts, and exceptions that cross services;
      JsonApi.v: the success responses (utils/http-success).
    - Policies.v: policies.service.ts, and the guarded deletions of roles and
      policies.  UserAdmin.v: the rest of users.service.ts with the handlers of
      auth-bc it calls (credential-events.controller.ts).
    - Storage.v: storage.service.ts over the class [ObjectStore].
      TemplateRender.v: the parameters and the document of a banded template;
      Paginator.v: assets/paginator.inline.js, the script that lays it out;
      PrintTemplates.v: print-templates.service.ts, table and objects together.
    - Catalogue.v: the services of inventory-bc and supplier-bc: products and
      variants, conversion factors, listings that belong to a parent.
    - DocumentTypes.v: the rest of document-types.service.ts, the writes and the
      numbers of a table of types.
    - CookieAuth.v: auth.controller.ts and auth-cookie.util.ts over the class
      [CookieJar], composed with the guards.  Routes.v: every HTTP handler with
      the metadata the guards read.
    - AdminSession.v: login.service.js and auth-guard.service.js, the browser's
      side of every authenticated call, as a step relation composed with the
      cookies and the CSRF guard; AdminPages.v: the parts the admin pages share
      (json-api-client.js, paginated-list.js, utils.js, shell.service.js, ...).
    - QueryParams.v: ValidatedQuery, QueryParamsDTO and dto-transforms.util.ts.
    - Messaging.v: microservice-transport.util.ts, rmq-ack-interceptor.util.ts.
    - HttpLogging.v: pino-http.config.ts, the access log.
    - Shutdown.v: graceful-shutdown.service.ts and the health routes, as a step
      relation on the process; Bootstrap.v: the other decisions of
      bootstrap.util.ts.

    ** What the theorems show

    Access control: a user's permission lists are exactly those the statements
    of live roles and policies allow and do not deny ([resolveForUser_net]);
    the evaluation of a single permission is its specification
    ([evaluate_spec]); the guard chain lets nothing through that is not public,
    skipped, or holds the permission ([guards_complete_mediation]); the guards'
    decision is the resolver's ([guard_decision_is_evaluate]); a change of a
    role's policies holds from the next request of every session the push
    reached, and commits even when no push does ([policy_change_is_immediate]).

    Authentication: the outcome of a login on every branch ([login_outcome]),
    lockout after five wrong passwords, refresh tokens used once when requests
    do not overlap and twice when they do ([refresh_single_use],
    [refresh_race]), logins and revocations seen by the guards ([login_admits],
    [admin_revoke_refuses]), the invariant of the session index.

    Data: trees stay forests whose bounds are a nested set
    ([tree_reachable_ok]); the rebuild's outcome and its bounds; list queries
    with distinct fields select exactly the rows the reference semantics selects
    ([where_meaning], [listing_selects]), pages cover them when the sort decides
    the order ([pages_cover]), filters touch known columns only and values reach
    SQL as parameters ([only_known_fields], [jsonb_sql_fixed]); bulk updates
    reconcile a set of rows ([updateBulk_reconciles]) and updates their children
    and links; driver errors surface with the promised status; running numbers
    count up and start again after the capacity of their sequence, as long as the
    counter row has room for them ([running_numbers_issued]).

    The catalog and the keys: a scan finds exactly the declarations printed
    into a file ([scan_finds_declarations]); a sync is a function of each key
    of the catalog ([sync_refines]), repeating it changes nothing
    ([sync_idempotent]), and the in-process twin agrees with the script unless
    a deleted permission comes back ([twin_agrees_unless_reviving]); rows added
    by hand and rows written by the sync do not disturb each other
    ([synced_rows_kept]).  A signed request is accepted exactly for a live,
    active, unexpired key whose secret signs it ([signature_accepted_iff],
    [issue_then_verify]), a revoked key is refused ([revoked_key_refused]), and
    a request that passes the guards by a key runs with exactly the permissions
    of that key ([key_request_authentic]).

    Users and browsers: a created user can log in with the temporary password,
    once the account exists on both sides, and must change it ([onboarding]); a
    reset ends the old password ([reset_gives_password]).  A browser that logged
    in passes the guards with the cookies it was given until they run out
    ([browser_admitted]), and
    is anonymous after logging out ([browser_signed_out]); scripts read only the
    CSRF cookie ([scripts_read_csrf_only]).  A page refreshes its tokens once at
    a time and settles every call ([one_refresh_at_a_time],
    [every_call_settles]); a second page of the browser is then refused for its
    old CSRF token ([other_page_refused]).  The pages read back the
    rows the controllers return, localised as the global interceptor does
    ([client_reads_rows]) and settle after one redirect
    ([boot_settles]).  Every endpoint of every service is mediated
    ([endpoints_guarded]), the public ones are the listed few
    ([public_surface]), and a permission to read opens only endpoints that read
    ([reading_permissions_read]).

    Documents and catalogue: replacing the statements of a policy stores exactly
    them ([set_then_get], [set_grants]); a print template reads back as it was
    written and every table row has its objects ([update_read_back],
    [templates_reachable_ok]), except after overlapping updates
    ([overlapping_updates_lose_html]); the paginator puts every row on some page
    in order ([paginate_rows]) and no page overflows unless its first row does
    ([paginate_fits]); generated variants are exactly the combinations of the
    attributes ([combinations_exact], [variants_generated]); a document type that
    is to have numbers always has a format to issue them by ([types_can_issue]),
    except after overlapping updates ([overlapping_updates_stop_issuing]).

    Calls between services: an HTTP exception keeps its text and its status
    below 500 across any number of services ([remote_error]), other failures
    become a 500 that shows their text ([remote_failure]); a cached response
    answers every equivalent call ([cached_call], over the equivalence of
    payloads that the cache key respects); trace ids are carried along a chain
    of calls ([trace_chain]); localising and wrapping a response commute
    ([localize_wrap_commute]).  On RabbitMQ a message is acknowledged exactly
    once, whatever its handler does ([acknowledged_once], [queue_consumed]);
    over the TCP fallback the same interceptor throws, the caller gets no user and
    every login fails ([tcp_refuses_logins]).  A query that is accepted is well typed for the
    query builder ([accepted_query_typed]).

    Operation: the access log hides every key it calls sensitive
    ([redaction_hides]), and still shows a secret under another name or in text
    it cannot parse ([response_secret_logged], [request_secret_logged]).  A
    shutdown can always finish by its own steps and the responses in flight
    ([shutdown_drains]) and, with the adapter's setting and unless its timer
    fires, cuts no request off ([no_request_cut]).

    Where the code does not do what it means to, the theorem states what it
    does: a revoked session can be written back by a concurrent permission
    refresh, the sequence of a running number restarts after an overflow, a
    client can overwrite the context that conditions read, a bare condition on
    a JSON column inside [or] matches every row, pages without a deciding sort
    may overlap, a sequence of more than 255 digits is accepted and never issues
    ([long_sequence_never_issues]), overlapping updates of a print
    template lose its HTML, a second page of a browser is refused for its old
    CSRF token, a user's name is run as code by the page of the sessions
    ([label_becomes_code]).

    ** Bounds and fuel

    Integers of the sources are JavaScript numbers used as counters, times and
    page numbers; they are [Z] (or [nat] where they are lengths), and the code
    relies on no wrap-around.  The columns and strings that bound a running number
    ([integer], [varchar(255)], V8's longest string) have their limits in
    RunningNumber.v.  Recursion that is not structural has fuel computed from its
    input (the number of rows in NestedSet.v, the length of the string in the
    scanners and in [split] and [replace]); the theorems are stated for
    that fuel and prove results, not only partial correctness.

    ** Modelling choices

    A statement on the database or on Redis is atomic; a service call is a
    sequence of statements.  Theorems about one call take the calls as not
    overlapping; the races are theorems about explicit interleavings of the
    statements.  Logging, tracing and metrics are left out everywhere.
    Creation and update times that TypeORM maintains are left out of rows.

    ** Not modelled

    Tracing, the Winston logger and the pino transports: no effect on results.
    Swagger decorators, and the DTO classes that are only rules for
    class-validator.  The bodies of controllers and of message handlers that
    forward to a service modelled here.  The configuration schema and the
    wiring of modules: declarations for the framework.  Migrations and seeds:
    SQL run once; the constraints the services rely on are hypotheses of the
    theorems.  The invoice sample and the call of Gotenberg: EJS and Chromium do
    the work.  The forms and lists of the admin pages: code on the DOM. *)

From stdpp Require Export base gmap strings list fin_maps.
From Stdlib Require Export ZArith Lia.

Declare Scope js_scope.
Delimit Scope js_scope with js.

(** ** Exceptions and the error monad

    The services signal errors by throwing NestJS exceptions (or plain
    [Error]s, or driver errors raised by TypeORM).  A computation that may
    throw is a value of [result]. *)

(** The fields of a Postgres driver error the code reads. *)
Record driver_error := DriverError {
  de_code : option string;
  de_message : option string;
  de_detail : option string;
  de_hint : option string;
  de_column : option string;
  de_constraint : option string;
  de_table : option string;
}.

(** What a [throw] can carry.  [HttpException status code message] is a NestJS
    HTTP exception with its status, the [code] field of its response object
    (if the response is an object), its message and the response's [detail]. *)
Inductive exn :=
  | HttpException (status : Z) (code : option string) (message : string) (detail : option string)
  | InvalidParameterException (errors : list (string * string))
  | QueryFailedError (err : driver_error)
  | EntityPropertyNotFoundError (message : string)
  | OptimisticLockVersionMismatchError
  | PlainError (message : string).

#[global] Instance driver_error_eq_dec : EqDecision driver_error.
Proof. solve_decision. Defined.
#[global] Instance exn_eq_dec : EqDecision exn.
Proof. solve_decision. Defined.

Definition BadRequestException (m : string) : exn := HttpException 400 None m None.
Definition UnauthorizedException (m : string) : exn := HttpException 401 None m None.
Definition ForbiddenException (m : string) : exn := HttpException 403 None m None.
Definition NotFoundException (m : string) : exn := HttpException 404 None m None.
Definition ConflictException (m : string) : exn := HttpException 409 None m None.
Definition InternalServerErrorException (m : string) : exn := HttpException 500 None m None.
Definition ServiceUnavailableException (m : string) : exn := HttpException 503 None m None.

Inductive result (A : Type) :=
  | Ok (a : A)
  | Throw (e : exn).
Arguments Ok {A} _.
Arguments Throw {A} _.

#[global] Instance result_eq_dec {A} `{EqDecision A} : EqDecision (result A).
Proof. solve_decision. Defined.

Definition res_bind {A B} (m : result A) (k : A → result B) : result B :=
  match m with Ok a => k a | Throw e => Throw e end.

Notation "'let!' x ':=' m 'in' k" := (res_bind m (fun x => k))
  (at level 10, x pattern, m at level 100, k at level 200) : js_scope.
Notation "'throw_unless!' c 'with' e 'in' k" := (if c then k else Throw e)
  (at level 10, c at level 100, e at level 100, k at level 200) : js_scope.
Open Scope js_scope.

(** [result] folded and mapped over a list, first error first. *)
Fixpoint res_fold {A B} (f : B → A → result B) (b : B) (l : list A) : result B :=
  match l with
  | [] => Ok b
  | a :: l' => res_bind (f b a) (fun b' => res_fold f b' l')
  end.

Fixpoint res_map {A B} (f : A → result B) (l : list A) : result (list B) :=
  match l with
  | [] => Ok []
  | a :: l' => res_bind (f a) (fun b => res_bind (res_map f l') (fun bs => Ok (b :: bs)))
  end.

Definition res_ok {A} (r : result A) : bool :=
  match r with Ok _ => true | Throw _ => false end.

Lemma res_bind_Ok {A B} (m : result A) (k : A → result B) b :
  res_bind m k = Ok b ↔ ∃ a, m = Ok a ∧ k a = Ok b.
Proof. destruct m; naive_solver. Qed.

Lemma res_map_Ok {A B} (f : A → result B) l l' :
  res_map f l = Ok l' ↔ Forall2 (λ a b, f a = Ok b) l l'.
Proof.
  revert l'. induction l as [|a l IH]; intros l'; simpl.
  - split; [intros [= <-]; constructor | inversion 1; done].
  - rewrite res_bind_Ok. split.
    + intros (b & Hb & (bs & Hbs & [= <-])%res_bind_Ok). constructor; [done|]. by apply IH.
    + inversion 1 as [|? b ? bs Hb Hbs]; subst. exists b. split; [done|].
      apply res_bind_Ok. exists bs. split; [by apply IH | done].
Qed.

(** Case analysis of a bound computation in a hypothesis. *)
Ltac res_inv H :=
  repeat match type of H with
  | res_bind _ _ = Ok _ =>
      let a := fresh "a" in let Ha := fresh "Ha" in
      apply res_bind_Ok in H as (a & Ha & H)
  end.

(** Split every [if]/[match] in the goal whose scrutinee is a variable-free
    test, keeping the equation. *)
Ltac case_all := repeat (case_match; simplify_eq/=; try done).

(** ** Lists *)

(** [Array.from(new Set(l))]: the distinct elements in first-occurrence order. *)
Section js_set.
Context {A : Type} `{EqDecision A}.

Fixpoint js_set_from (seen l : list A) : list A :=
  match l with
  | [] => []
  | x :: l' => if decide (x ∈ seen) then js_set_from seen l'
               else x :: js_set_from (x :: seen) l'
  end.
Definition js_set (l : list A) : list A := js_set_from [] l.

Lemma elem_of_js_set_from seen l x :
  x ∈ js_set_from seen l ↔ x ∈ l ∧ x ∉ seen.
Proof.
  revert seen. induction l as [|y l IH]; intros seen; simpl; [set_solver|].
  case_decide; [|rewrite elem_of_cons]; rewrite IH; [set_solver|].
  destruct (decide (x = y)); set_solver.
Qed.
Lemma elem_of_js_set l x : x ∈ js_set l ↔ x ∈ l.
Proof. unfold js_set. rewrite elem_of_js_set_from. set_solver. Qed.

Lemma NoDup_js_set_from seen l : NoDup (js_set_from seen l).
Proof.
  revert seen. induction l as [|y l IH]; intros seen; simpl; [constructor|].
  case_decide; [done|]. constructor; [|done]. rewrite elem_of_js_set_from. set_solver.
Qed.
Lemma NoDup_js_set l : NoDup (js_set l).
Proof. apply NoDup_js_set_from. Qed.

Lemma js_set_nil_iff l : js_set l = [] ↔ l = [].
Proof.
  split; [|by intros ->]. intros H. destruct l as [|x l]; [done|].
  assert (x ∈ js_set (x :: l)) as Hx by (apply elem_of_js_set; set_solver).
  rewrite H in Hx. set_solver.
Qed.
End js_set.

(** Boolean membership, [Array.prototype.includes]. *)
Definition includes {A} `{EqDecision A} (l : list A) (x : A) : bool := bool_decide (x ∈ l).

Lemma includes_true {A} `{EqDecision A} (l : list A) x : includes l x = true ↔ x ∈ l.
Proof. apply bool_decide_eq_true. Qed.
Lemma includes_false {A} `{EqDecision A} (l : list A) x : includes l x = false ↔ x ∉ l.
Proof. apply bool_decide_eq_false. Qed.

(** [Array.prototype.some] and [every] are [existsb] and [forallb]. *)
Lemma existsb_true {A} (f : A → bool) l : existsb f l = true ↔ ∃ x, x ∈ l ∧ f x = true.
Proof. rewrite existsb_exists. by setoid_rewrite <- list_elem_of_In. Qed.
Lemma existsb_false {A} (f : A → bool) l : existsb f l = false ↔ ∀ x, x ∈ l → f x = false.
Proof.
  rewrite <- not_true_iff_false, existsb_true. split.
  - intros H x Hx. apply not_true_iff_false. naive_solver.
  - intros H (x & Hx & Hf). by rewrite H in Hf.
Qed.
Lemma forallb_true {A} (f : A → bool) l : forallb f l = true ↔ ∀ x, x ∈ l → f x = true.
Proof. rewrite forallb_forall. by setoid_rewrite <- list_elem_of_In. Qed.

Lemma elem_of_List_filter {A} (f : A → bool) l x : x ∈ List.filter f l ↔ x ∈ l ∧ f x = true.
Proof. rewrite !list_elem_of_In. apply filter_In. Qed.
Lemma elem_of_List_map {A B} (f : A → B) l y : y ∈ List.map f l ↔ ∃ x, x ∈ l ∧ y = f x.
Proof.
  rewrite list_elem_of_In, in_map_iff. setoid_rewrite list_elem_of_In. naive_solver.
Qed.
Lemma elem_of_flat_map {A B} (f : A → list B) l y :
  y ∈ List.flat_map f l ↔ ∃ x, x ∈ l ∧ y ∈ f x.
Proof. rewrite list_elem_of_In, in_flat_map. by setoid_rewrite list_elem_of_In. Qed.

Lemma Permutation_List_filter {A} (p : A → bool) l l' : l ≡ₚ l' → List.filter p l ≡ₚ List.filter p l'.
Proof.
  induction 1 as [|r l l' _ IH|r q l|l1 l2 l3 _ IH1 _ IH2]; cbn; [done| | |by rewrite IH1].
  - destruct (p r); [by constructor|done].
  - destruct (p r), (p q); try reflexivity. constructor.
Qed.
#[export] Instance List_filter_Proper {A} (p : A → bool) :
  Proper (Permutation ==> Permutation) (List.filter p).
Proof. intros l l'. apply Permutation_List_filter. Qed.

(** Elements of a list with distinct keys are equal if their keys are. *)
Lemma NoDup_fmap_elem_inj {A B} (f : A → B) l x y :
  NoDup (f <$> l) → x ∈ l → y ∈ l → f x = f y → x = y.
Proof.
  intros Hnd (i & Hi)%list_elem_of_lookup (j & Hj)%list_elem_of_lookup Hf.
  assert (i = j) as ->; [|congruence].
  apply (NoDup_lookup (f <$> l) i j (f x)); [done|by rewrite list_lookup_fmap, Hi|].
  by rewrite list_lookup_fmap, Hj, Hf.
Qed.

(** ** Automation

    [js] gathers the characterisations of the JavaScript list operations, for
    [autorewrite with js] and [auto with js]. *)

Create HintDb js.
Create Rewrite HintDb js.
#[export] Hint Rewrite @res_bind_Ok @includes_true @includes_false @existsb_true @existsb_false
  @forallb_true @elem_of_List_filter @elem_of_List_map @elem_of_flat_map @elem_of_js_set
  @andb_true_iff @orb_true_iff @negb_true_iff @bool_decide_eq_true @bool_decide_eq_false
  using solve [auto] : js.
#[export] Hint Resolve NoDup_js_set Permutation_List_filter : js.

(** Turn the boolean tests of a goal into propositions and finish by search. *)
Ltac js_simpl := autorewrite with js in *.
Ltac js_done := js_simpl; naive_solver auto with js.

Lemma List_filter_all {A} (p : A → bool) l : (∀ x, x ∈ l → p x = true) → List.filter p l = l.
Proof.
  induction l as [|a l IH]; intros Hp; [done|]. cbn. rewrite (Hp a) by (by left). f_equal.
  apply IH. intros x Hx. apply Hp. by right.
Qed.
Lemma List_filter_none {A} (p : A → bool) l : (∀ x, x ∈ l → p x = false) → List.filter p l = [].
Proof.
  induction l as [|a l IH]; intros Hp; [done|]. cbn. rewrite (Hp a) by (by left).
  apply IH. intros x Hx. apply Hp. by right.
Qed.

Lemma flat_map_flat_map {A B C} (g : B → list C) (f : A → list B) l :
  flat_map g (flat_map f l) = flat_map (λ a, flat_map g (f a)) l.
Proof. induction l as [|a l IH]; [done|]. cbn. by rewrite flat_map_app, IH. Qed.
Lemma flat_map_map {A B C} (f : B → list C) (g : A → B) l : flat_map f (List.map g l) = flat_map (λ a, f (g a)) l.
Proof. induction l as [|a l IH]; [done|]. cbn. by rewrite IH. Qed.
