(* ===== verification/JsString.v ===== *)
(** * JavaScript strings

    The string and number primitives of the language that the sources use, on
    [string] (one character per byte: the inputs the properties speak of are
    ASCII, for which a byte is a UTF-16 code unit): [split], [trim],
    [includes], [startsWith], [replace], [padStart], [String(n)], ... *)

From S2P Require Import Prelude.
From Stdlib Require Export Ascii.

#[local] Open Scope string_scope.

(** ** Characters *)

Definition code (c : ascii) : nat := nat_of_ascii c.
Definition between (lo hi : nat) (c : ascii) : bool := (lo <=? code c)%nat && (code c <=? hi)%nat.
Definition is_digit (c : ascii) : bool := between 48 57 c.
Definition is_upper (c : ascii) : bool := between 65 90 c.
Definition is_lower (c : ascii) : bool := between 97 122 c.
(** [\w] *)
Definition is_word (c : ascii) : bool :=
  is_digit c || is_upper c || is_lower c || Ascii.eqb c "_".
(** ASCII white space, as [trim] and [\s] have it *)
Definition is_space (c : ascii) : bool := between 9 13 c || Ascii.eqb c " ".
Definition to_lower_char (c : ascii) : ascii :=
  if is_upper c then ascii_of_nat (code c + 32) else c.
Definition to_upper_char (c : ascii) : ascii :=
  if is_lower c then ascii_of_nat (code c - 32) else c.

Fixpoint str_map (f : ascii → ascii) (s : string) : string :=
  match s with "" => "" | String c s' => String (f c) (str_map f s') end.
Definition toLowerCase : string → string := str_map to_lower_char.
Definition toUpperCase : string → string := str_map to_upper_char.

Fixpoint str_forall (f : ascii → bool) (s : string) : bool :=
  match s with "" => true | String c s' => f c && str_forall f s' end.

(** ** Prefixes, search *)

(** [drop_prefix p s = Some t] iff [s = p ++ t]. *)
Fixpoint drop_prefix (p s : string) : option string :=
  match p, s with
  | "", _ => Some s
  | String a p', String b s' => if Ascii.eqb a b then drop_prefix p' s' else None
  | String _ _, "" => None
  end.
Definition startsWith (s p : string) : bool :=
  match drop_prefix p s with Some _ => true | None => false end.

(** First occurrence of [p] in [s]: what precedes and what follows it. *)
Fixpoint find_sub (p s : string) : option (string * string) :=
  match drop_prefix p s with
  | Some rest => Some ("", rest)
  | None =>
      match s with
      | "" => None
      | String c s' =>
          match find_sub p s' with
          | Some (pre, rest) => Some (String c pre, rest)
          | None => None
          end
      end
  end.
Definition str_includes (s p : string) : bool :=
  match find_sub p s with Some _ => true | None => false end.

(** The longest prefix whose characters satisfy [f], and the rest. *)
Fixpoint span (f : ascii → bool) (s : string) : string * string :=
  match s with
  | "" => ("", "")
  | String c s' => if f c then let '(a, b) := span f s' in (String c a, b) else ("", s)
  end.

(** ** Trimming *)

Definition trimStart (s : string) : string := (span is_space s).2.
Fixpoint trimEnd (s : string) : string :=
  match s with
  | "" => ""
  | String c s' =>
      match trimEnd s' with
      | "" => if is_space c then "" else String c ""
      | t => String c t
      end
  end.
Definition trim (s : string) : string := trimEnd (trimStart s).

(** ** Splitting and joining *)

Fixpoint split_go (sep : string) (skip : nat) (s : string) : list string :=
  match s with
  | "" => [""]
  | String c s' =>
      match skip with
      | S k => split_go sep k s'
      | O =>
          if startsWith s sep then "" :: split_go sep (String.length sep - 1) s'
          else match split_go sep 0 s' with
               | [] => [String c ""]
               | w :: ws => String c w :: ws
               end
      end
  end.
(** [s.split(sep)] for a non-empty separator. *)
Definition split (sep s : string) : list string := split_go sep 0 s.
Definition join (sep : string) (l : list string) : string := String.concat sep l.

(** [s.replace(/c/g, r)] for a one-character pattern. *)
Fixpoint replace_char (c : ascii) (r : string) (s : string) : string :=
  match s with
  | "" => ""
  | String d s' => (if Ascii.eqb c d then r else String d "") +:+ replace_char c r s'
  end.
(** [s.replace(p, r)] with a string pattern, the first occurrence only, and a
    replacement without dollars. *)
Definition replace_first (p r s : string) : string :=
  match find_sub p s with
  | Some (pre, rest) => pre +:+ r +:+ rest
  | None => s
  end.

(** A replacement text: [$$], [$&], [$`] and [$'] stand for a dollar, the match,
    what precedes and what follows it; there are no groups to refer to. *)
Fixpoint expand_replacement (matched before after r : string) : string :=
  match r with
  | "" => ""
  | String c r1 =>
      if Ascii.eqb c "$" then
        match r1 with
        | "" => r
        | String d r2 =>
            let rest := expand_replacement matched before after r2 in
            if Ascii.eqb d "$" then String "$" rest
            else if Ascii.eqb d "&" then matched +:+ rest
            else if Ascii.eqb d "`" then before +:+ rest
            else if Ascii.eqb d "'" then after +:+ rest
            else String c (expand_replacement matched before after r1)
        end
      else String c (expand_replacement matched before after r1)
  end.
(** [s.replace(p, r)] with a string pattern and any replacement text. *)
Definition replace_text (p r s : string) : string :=
  match find_sub p s with
  | Some (before, after) => before +:+ expand_replacement p before after r +:+ after
  | None => s
  end.

(** ** Numbers *)

Definition digit_ascii (d : nat) : ascii := ascii_of_nat (48 + d).
Definition digit_value (c : ascii) : nat := code c - 48.

(** [String(n)] for a natural number. The quotient by ten loses at least one
    bit, so [S (N.size n)] steps are enough fuel. *)
Fixpoint N_digits (fuel : nat) (n : N) (acc : string) : string :=
  match fuel with
  | O => acc
  | S fuel' =>
      let acc' := String (digit_ascii (N.to_nat (n mod 10))) acc in
      if (n <? 10)%N then acc' else N_digits fuel' (n / 10) acc'
  end.
Definition string_of_N (n : N) : string := N_digits (S (N.to_nat (N.size n))) n "".
Definition string_of_nat (n : nat) : string := string_of_N (N.of_nat n).
Definition string_of_Z (z : Z) : string :=
  if (z <? 0)%Z then "-" +:+ string_of_N (Z.to_N (- z)) else string_of_N (Z.to_N z).

(** [Number(s)] on a string of digits. *)
Fixpoint N_of_digits (acc : N) (s : string) : N :=
  match s with
  | "" => acc
  | String c s' => N_of_digits (10 * acc + N.of_nat (digit_value c)) s'
  end.

Fixpoint str_repeat (n : nat) (c : ascii) : string :=
  match n with O => "" | S n' => String c (str_repeat n' c) end.
(** [s.padStart(n, c)] *)
Definition padStart (n : nat) (c : ascii) (s : string) : string :=
  str_repeat (n - String.length s) c +:+ s.
(** [s.slice(-n)] *)
Definition slice_last (n : nat) (s : string) : string :=
  String.substring (String.length s - n) n s.

(** [s.endsWith(p)] *)
Definition endsWith (s p : string) : bool := String.eqb (slice_last (String.length p) s) p.
(** [s.slice(n)] *)
Definition slice_from (n : nat) (s : string) : string := String.substring n (String.length s - n) s.

Example split_ex : split "||" "a||$eq||b||c" = ["a"; "$eq"; "b"; "c"].
Proof. reflexivity. Qed.
Example split_empty : split "," "" = [""].
Proof. reflexivity. Qed.
Example trim_ex : trim "  a b " = "a b".
Proof. reflexivity. Qed.
Example digits_ex : string_of_N 1204 = "1204" ∧ N_of_digits 0 "0012" = 12%N.
Proof. by vm_compute. Qed.
Example pad_ex : padStart 5 "0" "42" = "00042" ∧ padStart 2 "0" "123" = "123".
Proof. by vm_compute. Qed.

(** A text that is neither [null] nor empty, as [if (o)] tests it. *)
Definition truthy (o : option string) : option string :=
  match o with Some "" => None | _ => o end.

(** ** Lemmas *)

Lemma append_cons c s1 s2 : String c s1 +:+ s2 = String c (s1 +:+ s2).
Proof. done. Qed.
Lemma append_nil_l s : "" +:+ s = s.
Proof. done. Qed.
Lemma append_nil_r s : s +:+ "" = s.
Proof. induction s as [|c s IH]; [done|]. by rewrite ?append_cons, IH. Qed.
Lemma append_assoc s1 s2 s3 : (s1 +:+ s2) +:+ s3 = s1 +:+ (s2 +:+ s3).
Proof. induction s1 as [|c s1 IH]; [done|]. by rewrite !append_cons, IH. Qed.
Lemma append_length s1 s2 : String.length (s1 +:+ s2) = String.length s1 + String.length s2.
Proof. induction s1 as [|c s1 IH]; [done|]. rewrite ?append_cons. simpl. by rewrite IH. Qed.

Lemma drop_prefix_app p s : drop_prefix p (p +:+ s) = Some s.
Proof. induction p as [|a p IH]; [done|]. rewrite ?append_cons. simpl. by rewrite Ascii.eqb_refl. Qed.
Lemma drop_prefix_Some p s t : drop_prefix p s = Some t ↔ s = p +:+ t.
Proof.
  split; [|intros ->; apply drop_prefix_app].
  revert s. induction p as [|a p IH]; intros [|b s]; simpl; try naive_solver.
  destruct (Ascii.eqb_spec a b) as [->|]; [|done]. intros ->%IH. done.
Qed.
Lemma startsWith_true s p : startsWith s p = true ↔ ∃ t, s = p +:+ t.
Proof.
  unfold startsWith. destruct (drop_prefix p s) as [t|] eqn:E.
  - apply drop_prefix_Some in E as ->. split; eauto.
  - split; [done|]. intros [t ->]. by rewrite drop_prefix_app in E.
Qed.

Lemma str_forall_app f s1 s2 : str_forall f (s1 +:+ s2) = str_forall f s1 && str_forall f s2.
Proof. induction s1; simpl; [done|]. rewrite ?append_cons. simpl. by rewrite IHs1, andb_assoc. Qed.

Lemma span_eq f s : s = (span f s).1 +:+ (span f s).2.
Proof.
  induction s as [|c s IH]; simpl; [done|]. destruct (f c); [|done].
  destruct (span f s) as [a b]; simpl in *. by rewrite IH at 1.
Qed.
Lemma span_app f s c t :
  str_forall f s = true → f c = false → span f (s +:+ String c t) = (s, String c t).
Proof.
  intros Hs Hc. induction s as [|d s IH]; simpl in *.
  - by rewrite Hc.
  - apply andb_true_iff in Hs as [Hd Hs]. rewrite ?append_cons. simpl. by rewrite Hd, IH.
Qed.
Lemma span_all f s : str_forall f s = true → span f s = (s, "").
Proof.
  induction s as [|d s IH]; simpl; [done|].
  intros [Hd Hs]%andb_true_iff. by rewrite Hd, IH.
Qed.
Lemma span_forall f s : str_forall f (span f s).1 = true.
Proof.
  induction s as [|c s IH]; simpl; [done|]. destruct (f c) eqn:Hc; [|done].
  destruct (span f s); simpl in *. by rewrite Hc.
Qed.

Lemma find_sub_Some p s pre rest : find_sub p s = Some (pre, rest) → s = pre +:+ p +:+ rest.
Proof.
  revert pre rest. induction s as [|c s IH]; intros pre rest; simpl.
  - destruct (drop_prefix p "") as [t|] eqn:E; [|done]. intros [= <- <-].
    by apply drop_prefix_Some in E.
  - destruct (drop_prefix p (String c s)) as [t|] eqn:E.
    + intros [= <- <-]. by apply drop_prefix_Some in E.
    + destruct (find_sub p s) as [[pre' rest']|]; [|done]. intros [= <- <-].
      rewrite ?append_cons. f_equal. by apply IH.
Qed.
Lemma find_sub_exists p pre rest : is_Some (find_sub p (pre +:+ p +:+ rest)).
Proof.
  induction pre as [|c pre IH]; simpl.
  - change ("" +:+ p +:+ rest) with (p +:+ rest).
    destruct (p +:+ rest) eqn:E; simpl; rewrite <- E, drop_prefix_app; eauto.
  - rewrite ?append_cons. simpl. destruct (drop_prefix p _) as [t|]; [eauto|].
    destruct IH as [[a b] ->]. eauto.
Qed.
Lemma str_includes_true s p : str_includes s p = true ↔ ∃ pre rest, s = pre +:+ p +:+ rest.
Proof.
  unfold str_includes. split.
  - destruct (find_sub p s) as [[pre rest]|] eqn:E; [|done]. apply find_sub_Some in E. eauto.
  - intros (pre & rest & ->). by destruct (find_sub_exists p pre rest) as [[??] ->].
Qed.

Lemma append_eq_app a b c d : a +:+ b = c +:+ d →
  (∃ w, c = a +:+ w ∧ b = w +:+ d) ∨ (∃ w, a = c +:+ w ∧ d = w +:+ b).
Proof.
  revert c. induction a as [|x a IH]; intros [|y c]; rewrite ?append_cons, ?append_nil_l.
  - intros ->. left. by exists "".
  - intros ->. left. by exists (String y c).
  - intros <-. right. by exists (String x a).
  - intros [= -> H]. destruct (IH c H) as [(w & -> & ->)|(w & -> & ->)]; [left|right]; by exists w.
Qed.
(** The first occurrence, for a pattern whose first character is not repeated
    in it: it cannot overlap the text before it. *)
Lemma find_sub_first c p text rest :
  str_forall (λ d, negb (Ascii.eqb d c)) p = true → str_includes text (String c p) = false →
  find_sub (String c p) (text +:+ String c p +:+ rest) = Some (text, rest).
Proof.
  intros Hp. induction text as [|d text IH]; intros Htext.
  { rewrite append_nil_l, append_cons. cbn [find_sub]. rewrite <- (append_cons c p rest).
    by rewrite drop_prefix_app. }
  rewrite append_cons. cbn [find_sub].
  destruct (drop_prefix (String c p) (String d (text +:+ String c p +:+ rest))) as [u|] eqn:E.
  - exfalso. apply drop_prefix_Some in E. rewrite <- append_cons in E.
    apply append_eq_app in E as [(w & Hw & Hr)|(w & Hw & _)].
    + destruct w as [|c' w]; rewrite ?append_nil_r in *.
      * rewrite <- Hw in Htext. unfold str_includes in Htext. cbn [find_sub] in Htext.
        rewrite <- (append_nil_r (String c p)) in Htext at 2. by rewrite drop_prefix_app in Htext.
      * rewrite append_cons in Hr. injection Hr as <- _. rewrite append_cons in Hw. injection Hw as -> ->.
        rewrite str_forall_app in Hp. apply andb_true_iff in Hp as [_ Hp]. cbn in Hp.
        by rewrite Ascii.eqb_refl in Hp.
    + rewrite (proj2 (str_includes_true (String d text) (String c p))) in Htext; [done|].
      exists "", w. by rewrite append_nil_l.
  - rewrite IH; [done|]. unfold str_includes in *. cbn [find_sub] in Htext.
    destruct (drop_prefix (String c p) (String d text)); [done|].
    by destruct (find_sub (String c p) text) as [[]|].
Qed.

Lemma expand_plain matched before after r :
  str_forall (λ c, negb (Ascii.eqb c "$")) r = true → expand_replacement matched before after r = r.
Proof.
  induction r as [|c r IH]; [done|]. cbn. destruct (Ascii.eqb c "$"); cbn; [done|]. intros Hr. by rewrite IH.
Qed.
Lemma replace_text_plain p r s :
  str_forall (λ c, negb (Ascii.eqb c "$")) r = true → replace_text p r s = replace_first p r s.
Proof. intros Hr. unfold replace_text, replace_first. destruct (find_sub p s) as [[??]|]; [by rewrite expand_plain|done]. Qed.

Lemma substring_app a b n : String.substring (String.length a) n (a +:+ b) = String.substring 0 n b.
Proof. induction a as [|c a IH]; [by destruct b|]. exact IH. Qed.
Lemma substring_all s n : (String.length s ≤ n)%nat → String.substring 0 n s = s.
Proof.
  revert n. induction s as [|c s IH]; intros [|n] Hn; cbn in *; try done; try lia.
  f_equal. apply IH. lia.
Qed.
Lemma slice_from_app a b : slice_from (String.length a) (a +:+ b) = b.
Proof. unfold slice_from. rewrite substring_app, append_length. apply substring_all. lia. Qed.
Lemma slice_from_length n s : (String.length (slice_from n s) ≤ String.length s)%nat.
Proof.
  unfold slice_from. set (m := (String.length s - n)%nat). clearbody m. revert n m.
  induction s as [|c s IH]; intros [|n] [|m]; cbn; try lia.
  - specialize (IH 0 m). lia.
  - specialize (IH n 0). lia.
  - specialize (IH n (S m)). lia.
Qed.

(** Splitting at a one-character separator. *)
Lemma split_char_none c s :
  str_forall (λ d, negb (Ascii.eqb d c)) s = true → split (String c "") s = [s].
Proof.
  unfold split. induction s as [|d s IH]; [done|]. simpl.
  intros [Hd Hs]%andb_true_iff. rewrite (IH Hs). unfold startsWith. simpl.
  apply negb_true_iff in Hd. rewrite Ascii.eqb_sym in Hd. by rewrite Hd.
Qed.

Lemma str_includes_char c s :
  str_includes s (String c "") = false ↔ str_forall (λ d, negb (Ascii.eqb d c)) s = true.
Proof.
  induction s as [|d s IH]; [done|]. cbn [str_forall]. rewrite andb_true_iff, <- IH, negb_true_iff.
  unfold str_includes. cbn [find_sub drop_prefix]. rewrite (Ascii.eqb_sym d c).
  destruct (Ascii.eqb c d); [split; [done|by intros [? _]]|].
  destruct (find_sub (String c "") s) as [[? ?]|]; tauto.
Qed.

Lemma split_char_app c s t :
  str_forall (λ d, negb (Ascii.eqb d c)) s = true →
  split (String c "") (s +:+ String c t) = s :: split (String c "") t.
Proof.
  unfold split. induction s as [|d s IH].
  - intros _. change ("" +:+ String c t) with (String c t). simpl. unfold startsWith. simpl.
    by rewrite Ascii.eqb_refl.
  - rewrite ?append_cons. simpl. intros [Hd Hs]%andb_true_iff. rewrite (IH Hs).
    unfold startsWith. simpl. apply negb_true_iff in Hd. rewrite Ascii.eqb_sym in Hd.
    by rewrite Hd.
Qed.

(** Joining what was split gives the text back. *)
Lemma split_go_skip sep k s :
  (k <= String.length s)%nat → ∃ t, String.length t = (String.length s - k)%nat ∧
  split_go sep k s = split_go sep 0 t ∧ ∃ u, s = u +:+ t ∧ String.length u = k.
Proof.
  revert k. induction s as [|c s IH]; intros [|k] Hk; cbn [String.length] in *; try lia.
  - exists "". split_and!; [done|done|]. by exists "".
  - exists (String c s). split_and!; [cbn; lia|done|]. by exists "".
  - destruct (IH k) as (t & Hl & Ht & u & -> & Hu); [lia|]. exists t. split_and!; [lia|done|].
    exists (String c u). cbn [String.length]. by rewrite Hu.
Qed.
Lemma split_not_nil sep k s : split_go sep k s ≠ [].
Proof.
  revert k. induction s as [|c s IH]; intros k; cbn [split_go]; [done|]. destruct k; [|apply IH].
  destruct (startsWith (String c s) sep); [done|]. by destruct (split_go sep 0 s).
Qed.
Lemma join_cons sep w ws : ws ≠ [] → join sep (w :: ws) = w +:+ sep +:+ join sep ws.
Proof. by destruct ws. Qed.

Lemma join_split_go sep n s :
  sep ≠ "" → (String.length s <= n)%nat → join sep (split_go sep 0 s) = s.
Proof.
  intros Hsep. revert s. induction n as [|n IH]; intros s Hn; destruct s as [|c s]; try done;
    cbn [String.length] in Hn; [lia|]. cbn [split_go].
  destruct (startsWith (String c s) sep) eqn:Hst.
  - destruct (proj1 (startsWith_true _ _) Hst) as [t Ht]. rewrite join_cons by apply split_not_nil.
    destruct sep as [|d sep]; [done|]. rewrite append_cons in Ht. injection Ht as -> ->.
    cbn [String.length]. replace (S (String.length sep) - 1)%nat with (String.length sep) by lia.
    rewrite append_length in Hn.
    destruct (split_go_skip (String d sep) (String.length sep) (sep +:+ t)) as (t' & Hl & -> & u & Hu & Hlu).
    { rewrite append_length. lia. }
    assert (t' = t) as ->.
    { clear -Hu Hlu. revert u Hu Hlu. induction sep as [|c sep IH]; intros [|e u]; try done.
      rewrite !append_cons. cbn. intros [= -> Hu] [= Hl]. by apply (IH u). }
    rewrite IH by lia. by rewrite append_nil_l.
  - pose proof (IH s ltac:(lia)) as Hs. destruct (split_go sep 0 s) as [|w [|w' ws]] eqn:E.
    + by destruct (split_not_nil sep 0 s).
    + cbn in Hs |- *. by rewrite Hs.
    + rewrite join_cons in Hs |- * by done. by rewrite append_cons, Hs.
Qed.
Lemma join_split sep s : sep ≠ "" → join sep (split sep s) = s.
Proof. intros H. by apply (join_split_go sep (String.length s)). Qed.
Lemma split_inj sep s t : sep ≠ "" → split sep s = split sep t → s = t.
Proof. intros H He. by rewrite <- (join_split sep s H), He, join_split. Qed.

(** *** Decimal digits *)

Lemma N_of_digits_app a s t : N_of_digits a (s +:+ t) = N_of_digits (N_of_digits a s) t.
Proof. revert a. induction s as [|c s IH]; intros a; [done|]. rewrite ?append_cons. simpl. apply IH. Qed.

Lemma digit_ascii_spec n : (n < 10)%nat → is_digit (digit_ascii n) = true ∧ digit_value (digit_ascii n) = n.
Proof. intros Hn. do 10 (destruct n as [|n]; [done|]). lia. Qed.

(** What [N_digits] puts in front of the accumulator. *)
(** One digit, as [N_digits] emits it. *)
Definition last_digit (n : N) : ascii := digit_ascii (N.to_nat (n mod 10)).
Lemma last_digit_spec n :
  is_digit (last_digit n) = true ∧ N.of_nat (digit_value (last_digit n)) = (n mod 10)%N.
Proof.
  unfold last_digit. pose proof (N.mod_lt n 10 ltac:(lia)) as Hmod.
  destruct (digit_ascii_spec (N.to_nat (n mod 10))) as [Hd ->]; [lia|]. split; [done|lia].
Qed.
Lemma N_digits_S f n acc :
  N_digits (S f) n acc =
    if (n <? 10)%N then String (last_digit n) acc
    else N_digits f (n / 10) (String (last_digit n) acc).
Proof. done. Qed.

Definition digits_of (n : N) (d : string) : Prop :=
  str_forall is_digit d = true ∧
  (∀ a, N_of_digits a d = a * 10 ^ N.of_nat (String.length d) + n)%N ∧
  (0 < String.length d)%nat ∧ (n < 10 ^ N.of_nat (String.length d))%N ∧
  ((1 < String.length d)%nat → 10 ^ N.of_nat (String.length d - 1) <= n)%N.

Lemma digits_of_small n : (n < 10)%N → digits_of n (String (last_digit n) "").
Proof.
  intros Hn. destruct (last_digit_spec n) as [Hd Hv]. rewrite N.mod_small in Hv by done.
  generalize dependent (last_digit n). intros c Hd Hv.
  split_and!; cbn [str_forall String.length N_of_digits].
  - by rewrite Hd.
  - intros a. rewrite Hv. change (10 ^ N.of_nat 1)%N with 10%N. lia.
  - lia.
  - change (10 ^ N.of_nat 1)%N with 10%N. lia.
  - lia.
Qed.

Lemma digits_of_step n d :
  (10 <= n)%N → digits_of (n / 10) d → digits_of n (d +:+ String (last_digit n) "").
Proof.
  intros Hn (Hd & Hval & Hpos & Hup & Hlow). destruct (last_digit_spec n) as [Hd1 Hv1].
  pose proof (N.mod_lt n 10 ltac:(lia)) as Hmod. pose proof (N.div_mod n 10 ltac:(lia)) as Hdm.
  generalize dependent (last_digit n). intros c Hd1 Hv1.
  assert (String.length (d +:+ String c "") = S (String.length d)) as Hlen
    by (rewrite append_length; cbn [String.length]; lia).
  unfold digits_of. rewrite Hlen, Nat2N.inj_succ, N.pow_succ_r'.
  set (P := (10 ^ N.of_nat (String.length d))%N) in *. split_and!.
  - rewrite str_forall_app, Hd. cbn [str_forall]. by rewrite Hd1.
  - intros a. rewrite N_of_digits_app, Hval. cbn [N_of_digits]. rewrite Hv1. lia.
  - lia.
  - lia.
  - intros _. replace (S (String.length d) - 1)%nat with (String.length d) by lia.
    change (P <= n)%N. destruct (decide (1 < String.length d)%nat) as [H1|H1].
    + specialize (Hlow H1). unfold P.
      replace (String.length d) with (S (String.length d - 1)) by lia.
      rewrite Nat2N.inj_succ, N.pow_succ_r'. lia.
    + unfold P. replace (String.length d) with 1%nat by lia. change (10 ^ N.of_nat 1)%N with 10%N. lia.
Qed.

Lemma N_digits_spec f n acc :
  (n < 10 ^ N.of_nat (S f))%N → ∃ d, N_digits (S f) n acc = d +:+ acc ∧ digits_of n d.
Proof.
  revert n acc. induction f as [|f IH]; intros n acc Hn; rewrite N_digits_S;
    destruct (N.ltb_spec n 10) as [Hlt|Hge].
  - exists (String (last_digit n) ""). split; [done|by apply digits_of_small].
  - change (10 ^ N.of_nat 1)%N with 10%N in Hn. lia.
  - exists (String (last_digit n) ""). split; [done|by apply digits_of_small].
  - assert (n / 10 < 10 ^ N.of_nat (S f))%N as Hdiv.
    { apply N.Div0.div_lt_upper_bound. rewrite Nat2N.inj_succ, N.pow_succ_r' in Hn. lia. }
    destruct (IH (n / 10)%N (String (last_digit n) acc) Hdiv) as (d & -> & Hd).
    exists (d +:+ String (last_digit n) ""). split; [by rewrite append_assoc|].
    by apply digits_of_step.
Qed.

Lemma N_size_bound n : (n < 10 ^ N.of_nat (S (N.to_nat (N.size n))))%N.
Proof.
  pose proof (N.size_gt n) as Hs.
  rewrite Nat2N.inj_succ, N2Nat.id, N.pow_succ_r'.
  pose proof (N.pow_le_mono_l 2 10 (N.size n) ltac:(lia)). lia.
Qed.

Lemma string_of_N_spec n :
  str_forall is_digit (string_of_N n) = true ∧ N_of_digits 0 (string_of_N n) = n ∧
  (∀ k, (0 < k)%nat → (n < 10 ^ N.of_nat k)%N → (String.length (string_of_N n) <= k)%nat) ∧
  (∀ k, (0 < k)%nat → (10 ^ N.of_nat k <= n)%N → (k < String.length (string_of_N n))%nat).
Proof.
  destruct (N_digits_spec (N.to_nat (N.size n)) n "" (N_size_bound n))
    as (d & Hd & Hdig & Hval & Hpos & Hup & Hlow).
  assert (string_of_N n = d) as -> by (unfold string_of_N; by rewrite Hd, append_nil_r).
  split_and!; [done|rewrite Hval; lia| |].
  - intros k Hk Hn. destruct (decide (String.length d <= k)%nat) as [?|Hgt]; [done|exfalso].
    specialize (Hlow ltac:(lia)).
    pose proof (N.pow_le_mono_r 10 (N.of_nat k) (N.of_nat (String.length d - 1)) ltac:(lia) ltac:(lia)). lia.
  - intros k Hk Hn. destruct (decide (k < String.length d)%nat) as [?|Hle]; [done|exfalso].
    pose proof (N.pow_le_mono_r 10 (N.of_nat (String.length d)) (N.of_nat k) ltac:(lia) ltac:(lia)). lia.
Qed.

Lemma str_repeat_zero n :
  str_forall is_digit (str_repeat n "0") = true ∧ N_of_digits 0 (str_repeat n "0") = 0%N ∧
  String.length (str_repeat n "0") = n.
Proof. induction n as [|n (IH1 & IH2 & IH3)]; [done|]. simpl. split_and!; [done|done|lia]. Qed.

(** Padding a number keeps its value and makes it exactly as long as asked, or
    longer when it does not fit. *)
Lemma padStart_number k n :
  (0 < k)%nat →
  let s := padStart k "0" (string_of_N n) in
  str_forall is_digit s = true ∧ N_of_digits 0 s = n ∧
  ((n < 10 ^ N.of_nat k)%N → String.length s = k) ∧
  ((10 ^ N.of_nat k <= n)%N → (k < String.length s)%nat).
Proof.
  intros Hk s. destruct (string_of_N_spec n) as (Hd & Hv & Hup & Hlow).
  destruct (str_repeat_zero (k - String.length (string_of_N n))) as (Zd & Zv & Zl).
  unfold s, padStart. rewrite str_forall_app, N_of_digits_app, append_length, Zd, Zv, Zl, Hd, Hv.
  split_and!; [done|done| |].
  - intros Hn. specialize (Hup k Hk Hn). lia.
  - intros Hn. specialize (Hlow k Hk Hn). lia.
Qed.
