(* ===== verification/JsValues.v ===== *)
(** * JavaScript numbers, dates and simple regular expressions

    The conversions of the language that the services apply to untrusted
    strings: [Number(s)] as an IEEE binary64 value (the Standard Library's
    [spec_float], rounding to nearest even), [Date.parse(s)] on the ISO forms
    the language standard fixes, and [new RegExp(p).test(s)] for the patterns
    without special characters other than [.] and [.*].  Outside these forms
    the result depends on the engine (or its time zone) and is an argument of
    the definitions. *)

From S2P Require Import Prelude JsString.
From Stdlib Require Import SpecFloat.
#[local] Open Scope string_scope.

(** ** Numbers *)

Abbreviation number := spec_float.
Definition prec : Z := 53.
Definition emax : Z := 1024.

(** The binary64 value nearest to [± m × 10^e], [digits] the number of decimal
    digits [m] was written with. A value of at least 10^309 is beyond the
    largest finite number and one below 10^-400 rounds to zero. *)
Definition decimal (neg : bool) (m : N) (digits : nat) (e : Z) : number :=
  match m with
  | N0 => S754_zero neg
  | Npos p =>
      if (309 <=? e)%Z then S754_infinity neg
      else if (Z.of_nat digits + e <=? -400)%Z then S754_zero neg
      else if (0 <=? e)%Z then binary_round prec emax neg (p * Z.to_pos (10 ^ e))%positive 0
      else
        let '(q, ex, loc) := SFdiv_core_binary prec emax (Zpos p) 0 (10 ^ (- e)) 0 in
        binary_round_aux prec emax neg q ex loc
  end.

Definition take_sign (s : string) : bool * string :=
  match s with
  | String c s' =>
      if Ascii.eqb c "-" then (true, s') else if Ascii.eqb c "+" then (false, s') else (false, s)
  | "" => (false, s)
  end.

(** The exponent part, [None] if malformed. *)
Definition take_exponent (s : string) : option Z :=
  match s with
  | "" => Some 0%Z
  | String c s' =>
      if Ascii.eqb (to_lower_char c) "e" then
        let '(neg, t) := take_sign s' in
        if negb (String.eqb t "") && str_forall is_digit t
        then Some (if neg then - Z.of_N (N_of_digits 0 t) else Z.of_N (N_of_digits 0 t))%Z
        else None
      else None
  end.

Definition decimal_literal (s : string) : number :=
  let '(neg, t) := take_sign s in
  if String.eqb t "Infinity" then S754_infinity neg
  else
    let '(int, t1) := span is_digit t in
    let '(frac, t2) := match t1 with
                       | String "." t' => span is_digit t'
                       | _ => ("", t1)
                       end in
    if String.eqb (int +:+ frac) "" then S754_nan
    else match take_exponent t2 with
         | None => S754_nan
         | Some e => decimal neg (N_of_digits 0 (int +:+ frac))
                       (String.length int + String.length frac) (e - Z.of_nat (String.length frac))
         end.

Definition hex_value (c : ascii) : option N :=
  if is_digit c then Some (N.of_nat (code c - 48))
  else let l := to_lower_char c in
       if between 97 102 l then Some (N.of_nat (code l - 87)) else None.
Fixpoint radix_digits (radix acc : N) (s : string) : option N :=
  match s with
  | "" => Some acc
  | String c s' =>
      match hex_value c with
      | Some d => if (d <? radix)%N then radix_digits radix (radix * acc + d) s' else None
      | None => None
      end
  end.
Definition radix_literal (radix : N) (s : string) : number :=
  match s with
  | "" => S754_nan
  | _ => match radix_digits radix 0 s with
         | Some n => decimal false n 0 0
         | None => S754_nan
         end
  end.

(** [Number(s)] *)
Definition Number (s : string) : number :=
  match trim s with
  | "" => S754_zero false
  | String "0" (String c rest) as t =>
      if Ascii.eqb (to_lower_char c) "x" then radix_literal 16 rest
      else if Ascii.eqb (to_lower_char c) "o" then radix_literal 8 rest
      else if Ascii.eqb (to_lower_char c) "b" then radix_literal 2 rest
      else decimal_literal t
  | t => decimal_literal t
  end.

(** [===], [>] and [<] on numbers: false when an operand is NaN. *)
Definition num_eq (a b : number) : bool := SFeqb a b.
Definition num_lt (a b : number) : bool := SFltb a b.
Definition num_gt (a b : number) : bool := SFltb b a.
Definition isNaN (a : number) : bool := match a with S754_nan => true | _ => false end.

Example number_ex1 : num_eq (Number " 1.50e1 ") (Number "15") = true ∧ isNaN (Number "1x") = true.
Proof. by vm_compute. Qed.
Example number_ex2 :
  num_eq (Number "") (Number "0x0") = true ∧ num_lt (Number "-0.1") (Number ".05") = true ∧
  num_eq (Number "9007199254740993") (Number "9007199254740992") = true ∧
  num_eq (Number "0.1") (Number "0.10000000000000001") = true.
Proof. by vm_compute. Qed.

(** ** Dates *)

(** Days from 1970-01-01 to a date of the proleptic Gregorian calendar. *)
Definition days_from_civil (y m d : Z) : Z :=
  let y' := if (m <=? 2)%Z then (y - 1)%Z else y in
  let era := (y' / 400)%Z in
  let yoe := (y' - era * 400)%Z in
  let doy := ((153 * (if (2 <? m)%Z then m - 3 else m + 9) + 2) / 5 + d - 1)%Z in
  let doe := (yoe * 365 + yoe / 4 - yoe / 100 + doy)%Z in
  (era * 146097 + doe - 719468)%Z.

Definition days_in_month (y m : Z) : Z :=
  if (m =? 2)%Z then
    if ((y mod 4 =? 0) && (negb (y mod 100 =? 0) || (y mod 400 =? 0)))%Z then 29 else 28
  else if existsb (Z.eqb m) [4; 6; 9; 11]%Z then 30 else 31.

(** Exactly [n] digits at the front of [s]. *)
Fixpoint take_digits (n : nat) (acc : N) (s : string) : option (Z * string) :=
  match n, s with
  | O, _ => Some (Z.of_N acc, s)
  | S n', String c s' =>
      if is_digit c then take_digits n' (10 * acc + N.of_nat (digit_value c)) s' else None
  | S _, "" => None
  end.
Definition take_char (c : ascii) (s : string) : option string := drop_prefix (String c "") s.

(** [YYYY-MM-DD] *)
Definition iso_date (s : string) : option (Z * string) :=
  y ← take_digits 4 0 s; s1 ← take_char "-" y.2;
  m ← take_digits 2 0 s1; s2 ← take_char "-" m.2;
  d ← take_digits 2 0 s2;
  if ((1 <=? m.1) && (m.1 <=? 12) && (1 <=? d.1) && (d.1 <=? days_in_month y.1 m.1))%Z
  then Some (days_from_civil y.1 m.1 d.1, d.2) else None.

(** [HH:mm], [HH:mm:ss] or [HH:mm:ss.sss], in milliseconds. *)
Definition iso_time (s : string) : option (Z * string) :=
  h ← take_digits 2 0 s; s1 ← take_char ":" h.2; m ← take_digits 2 0 s1;
  if negb ((h.1 <=? 23) && (m.1 <=? 59))%Z then None else
  let hm := ((h.1 * 60 + m.1) * 60000)%Z in
  match take_char ":" m.2 with
  | None => Some (hm, m.2)
  | Some s2 =>
      sec ← take_digits 2 0 s2;
      if (59 <? sec.1)%Z then None else
      match take_char "." sec.2 with
      | None => Some (hm + sec.1 * 1000, sec.2)%Z
      | Some s3 => ms ← take_digits 3 0 s3; Some (hm + sec.1 * 1000 + ms.1, ms.2)%Z
      end
  end.

(** [Z] or [±HH:mm], the offset in milliseconds. *)
Definition iso_offset (s : string) : option Z :=
  if String.eqb s "Z" then Some 0%Z
  else match s with
       | String c s' =>
           if Ascii.eqb c "+" || Ascii.eqb c "-" then
             h ← take_digits 2 0 s'; s1 ← take_char ":" h.2; m ← take_digits 2 0 s1;
             if ((h.1 <=? 23) && (m.1 <=? 59))%Z && String.eqb m.2 "" then
               let o := ((h.1 * 60 + m.1) * 60000)%Z in
               Some (if Ascii.eqb c "-" then - o else o)%Z
             else None
           else None
       | "" => None
       end.

Definition day_ms : Z := 86400000.

(** The time value (milliseconds since the epoch) of the ISO forms that do not
    depend on the local time zone. *)
Definition iso_parse (s : string) : option Z :=
  d ← iso_date s;
  if String.eqb d.2 "" then Some (d.1 * day_ms)%Z
  else
    s1 ← take_char "T" d.2; t ← iso_time s1; o ← iso_offset t.2;
    Some (d.1 * day_ms + t.1 - o)%Z.

(** [Date.parse(s)], [None] for NaN; [other] is what the engine makes of the
    remaining strings. *)
Definition Date_parse (other : string → option Z) (s : string) : option Z :=
  match iso_parse s with Some t => Some t | None => other s end.

Example iso_ex :
  iso_parse "1970-01-02" = Some 86400000%Z ∧
  iso_parse "2024-02-29T12:30:00.250+07:00" = Some 1709184600250%Z ∧
  iso_parse "2023-02-29" = None.
Proof. by vm_compute. Qed.

(** Comparison of time values: false when one is NaN. *)
Definition time_gt (a b : option Z) : bool :=
  match a, b with Some x, Some y => (y <? x)%Z | _, _ => false end.

(** [a < b] on strings: code unit order. *)
Definition str_lt (a b : string) : bool :=
  match String.compare a b with Lt => true | _ => false end.

(** ** Regular expressions

    A pattern of literal characters and [.], each possibly followed by [*],
    without the other special characters. *)
Inductive re_item :=
  | ReChar (c : ascii)   (* the character itself *)
  | ReDot                (* [.]: any character but a line terminator *)
  | ReDotStar.           (* [.*] *)

Definition is_meta (c : ascii) : bool := includes (String.list_ascii_of_string "^$\+?()[]{}|*") c.

(** [None]: the pattern has another special character. *)
Fixpoint parse_simple (p : string) : option (list re_item) :=
  match p with
  | "" => Some []
  | String c p' =>
      if Ascii.eqb c "." then
        match p' with
        | String "*" p'' => cons ReDotStar <$> parse_simple p''
        | _ => cons ReDot <$> parse_simple p'
        end
      else if is_meta c then None
      else cons (ReChar c) <$> parse_simple p'
  end.

Definition is_line_end (c : ascii) : bool := Nat.eqb (code c) 10 || Nat.eqb (code c) 13.

(** [new RegExp('^' + p + '$').test(s)] for a simple [p]. *)
Fixpoint re_match (p : list re_item) (s : string) : bool :=
  match p with
  | [] => String.eqb s ""
  | ReChar c :: p' => match s with String d s' => Ascii.eqb c d && re_match p' s' | "" => false end
  | ReDot :: p' => match s with String d s' => negb (is_line_end d) && re_match p' s' | "" => false end
  | ReDotStar :: p' =>
      (fix star (s : string) : bool :=
         re_match p' s ||
         match s with String d s' => negb (is_line_end d) && star s' | "" => false end) s
  end.

(** [new RegExp('^' + p + '$').test(s)]; [other] is the engine on the patterns
    that are not simple, which may also throw a [SyntaxError]. *)
Definition anchored_test (other : string → string → result bool) (p s : string) : result bool :=
  match parse_simple p with
  | Some items => Ok (re_match items s)
  | None => other p s
  end.

(** ** Parsed values *)

(** What [JSON.parse] and the query parser produce; a number is given by its
    [String()], an object by its own enumerable properties in order. *)
Inductive jsv :=
  | JUndefined | JNull | JBool (b : bool) | JNum (repr : string) | JStr (s : string)
  | JArr (l : list jsv) | JObj (fields : list (string * jsv)).

(** [String(v)] *)
Fixpoint js_String (v : jsv) : string :=
  match v with
  | JUndefined => "undefined" | JNull => "null"
  | JBool b => if b then "true" else "false"
  | JNum r => r | JStr s => s
  | JArr l => join "," (List.map (λ x, match x with JUndefined | JNull => "" | _ => js_String x end) l)
  | JObj _ => "[object Object]"
  end.

(** [Number(v)] *)
Definition js_Number (v : jsv) : number :=
  match v with
  | JUndefined | JObj _ => Number "NaN"
  | JNull => Number "0"
  | JBool b => Number (if b then "1" else "0")
  | JNum r => Number r
  | JStr s => Number s
  | JArr _ => Number (js_String v)
  end.

(** Properties of an object. *)
Fixpoint obj_get {A} (k : string) (o : list (string * A)) : option A :=
  match o with
  | [] => None
  | (k', a) :: o' => if String.eqb k k' then Some a else obj_get k o'
  end.
Fixpoint obj_set {A} (k : string) (a : A) (o : list (string * A)) : list (string * A) :=
  match o with
  | [] => [(k, a)]
  | (k', a') :: o' => if String.eqb k k' then (k', a) :: o' else (k', a') :: obj_set k a o'
  end.
Definition obj_keys {A} (o : list (string * A)) : list string := o.*1.
(** [value.k] of a parsed object, [undefined] without the property. *)
Definition property (k : string) (fields : list (string * jsv)) : jsv := default JUndefined (obj_get k fields).

#[local] Open Scope list_scope.
(** ** Objects as maps *)

Lemma obj_get_set {A} k k' (a : A) o :
  obj_get k' (obj_set k a o) = if String.eqb k' k then Some a else obj_get k' o.
Proof.
  induction o as [|[k0 a0] o IH]; cbn [obj_set obj_get]; [done|].
  destruct (String.eqb_spec k k0) as [->|Hk]; cbn [obj_get].
  - by destruct (String.eqb k' k0).
  - rewrite IH. destruct (String.eqb_spec k' k0) as [->|]; [|done].
    destruct (String.eqb_spec k0 k) as [->|]; [done|done].
Qed.
Lemma obj_get_Some {A} k (a : A) o : obj_get k o = Some a → (k, a) ∈ o.
Proof.
  induction o as [|[k0 a0] o IH]; [done|]. cbn [obj_get].
  destruct (String.eqb_spec k k0) as [->|]; [intros [= ->]; by left|right; by apply IH].
Qed.
Lemma obj_get_elem {A} k (a : A) o : NoDup (obj_keys o) → (k, a) ∈ o → obj_get k o = Some a.
Proof.
  induction o as [|[k0 a0] o IH]; [by intros _ ?%elem_of_nil|]. cbn [obj_get].
  intros Hnd [[= -> ->]|Hin]%elem_of_cons; [by rewrite String.eqb_refl|].
  inversion Hnd as [|? ? Hk Ho]; subst. destruct (String.eqb_spec k k0) as [->|]; [|by apply IH].
  destruct Hk. by apply (list_elem_of_fmap_2 fst o (k0, a)).
Qed.
Lemma obj_get_None {A} k (o : list (string * A)) : obj_get k o = None ↔ k ∉ obj_keys o.
Proof.
  induction o as [|[k0 a0] o IH]; cbn [obj_get obj_keys fmap list_fmap];
    [split; [intros _ ?%elem_of_nil|]; done|].
  rewrite elem_of_cons. destruct (String.eqb_spec k k0) as [->|Hk]; [split; [done|]; intros []; by left|].
  rewrite IH. unfold obj_keys. cbn. split; [intros H []; done|]. intros H Hin. apply H. by right.
Qed.
Lemma obj_keys_set {A} k (a : A) o k' : k' ∈ obj_keys (obj_set k a o) ↔ k' = k ∨ k' ∈ obj_keys o.
Proof.
  induction o as [|[k0 a0] o IH]; cbn [obj_set]; unfold obj_keys in *; cbn.
  - rewrite list_elem_of_singleton, elem_of_nil. tauto.
  - destruct (String.eqb_spec k k0) as [->|Hk]; cbn; rewrite !elem_of_cons; [tauto|].
    unfold obj_keys in *. rewrite IH. tauto.
Qed.
Lemma NoDup_obj_set {A} k (a : A) o : NoDup (obj_keys o) → NoDup (obj_keys (obj_set k a o)).
Proof.
  induction o as [|[k0 a0] o IH]; intros Hnd; [by repeat constructor; intros ?%elem_of_nil|].
  cbn [obj_set]. destruct (String.eqb_spec k k0) as [->|Hk]; [done|].
  inversion Hnd as [|? ? Hk0 Ho]; subst. cbn. constructor; [|by apply IH].
  intros [?|?]%obj_keys_set; [done|by destruct Hk0].
Qed.
