(* ===== verification/NestedSet.v ===== *)
(** * Nested-set rebuild

    Model of [src/libs/common/src/utils/nested-set/rebuild-nested-set.util.ts]:
    the recomputation of the [lft]/[rgt] columns of a whole tree by a pre-order
    walk, and the proof that it numbers the tree as a nested set.

    The objects of the array [nodes] are mutated in place; an object is
    identified here by its position in the array, so [byParent] maps a parent
    id to positions and the walk updates the array at a position.  The
    recursive closure [visit] takes fuel; [visit_terminates] shows that one
    more than the number of nodes is always enough when the ids (primary keys)
    are distinct, so the JavaScript recursion ends on every table, cyclic parent
    links included. *)

From S2P Require Import Prelude JsString.

Record node := Node {
  id : string;
  parentId : option string;
  lft : Z;
  rgt : Z;
}.

#[global] Instance node_eq_dec : EqDecision node.
Proof. solve_decision. Defined.

Definition set_lft (v : Z) (n : node) : node := Node (id n) (parentId n) v (rgt n).
Definition set_rgt (v : Z) (n : node) : node := Node (id n) (parentId n) (lft n) v.

Abbreviation parent_index := (gmap (option string) (list nat)).

(** The siblings registered under a parent, [byParent.get(p) ?? []]. *)
Definition children_of (byParent : parent_index) (p : option string) : list nat :=
  default [] (byParent !! p).

(** First loop: index the nodes by parent, in array order. *)
Definition index_step (byParent : parent_index) (x : nat * node) : parent_index :=
  <[parentId x.2 := children_of byParent (parentId x.2) ++ [x.1]]> byParent.
Definition index_by_parent (nodes : list node) : parent_index :=
  foldl index_step ∅ (imap pair nodes).

(** The mutable state of the walk: the counter, the visited ids, the array. *)
Record walk := Walk {
  counter : Z;
  visited : gset string;
  nodes_of : list node;
}.

(** [visited.add(child.id); child.lft = counter++] *)
Definition enter (i : nat) (w : walk) : walk :=
  match nodes_of w !! i with
  | None => w
  | Some n => Walk (counter w + 1) ({[id n]} ∪ visited w)
                   (<[i := set_lft (counter w) n]> (nodes_of w))
  end.
(** [child.rgt = counter++] *)
Definition leave (i : nat) (w : walk) : walk :=
  match nodes_of w !! i with
  | None => w
  | Some n => Walk (counter w + 1) (visited w)
                   (<[i := set_rgt (counter w) n]> (nodes_of w))
  end.

(** The closure [visit]; [None] is a call stack deeper than the fuel. *)
Fixpoint visit (byParent : parent_index) (fuel : nat) (p : option string) (w : walk)
    : option walk :=
  match fuel with
  | O => None
  | S fuel' =>
      (fix loop (cs : list nat) (w : walk) : option walk :=
         match cs with
         | [] => Some w
         | c :: cs' =>
             match nodes_of w !! c with
             | None => None
             | Some n =>
                 match visit byParent fuel' (Some (id n)) (enter c w) with
                 | None => None
                 | Some w' => loop cs' (leave c w')
                 end
             end
         end) (children_of byParent p) w
  end.

Inductive outcome :=
  | Rebuilt (nodes : list node)
  | Orphans (ids : list string)   (* the thrown [Error], with the ids it lists *)
  | StackOverflow.

Definition visit_fuel (nodes : list node) : nat := S (length nodes).

Definition rebuildNestedSet (nodes : list node) : outcome :=
  let byParent := index_by_parent nodes in
  match visit byParent (visit_fuel nodes) None (Walk 1 ∅ nodes) with
  | None => StackOverflow
  | Some w =>
      let orphans := List.filter (λ n, negb (bool_decide (id n ∈ visited w))) (nodes_of w) in
      match orphans with
      | [] => Rebuilt (nodes_of w)
      | _ => Orphans (List.map id orphans)
      end
  end.

(** ** Entities of a tree table

    The wrapper [rebuildNestedSetFor] works on any entity type with an id, a
    parent column and the two bounds; the two tree tables of inventory-bc
    (warehouses, item groups) are instances.  [ent_put] is the pair of
    assignments [entity.lft = ...; entity.rgt = ...]. *)
Class TreeEntity (E : Type) := {
  ent_id : E → string;
  ent_parent : E → option string;
  ent_lft : E → Z;
  ent_rgt : E → Z;
  ent_put : Z → Z → E → E;
}.
Class TreeEntityLaws (E : Type) `{TreeEntity E} := {
  put_id l r e : ent_id (ent_put l r e) = ent_id e;
  put_parent l r e : ent_parent (ent_put l r e) = ent_parent e;
  put_lft l r e : ent_lft (ent_put l r e) = l;
  put_rgt l r e : ent_rgt (ent_put l r e) = r;
}.

Definition mirror `{TreeEntity E} (e : E) : node :=
  Node (ent_id e) (ent_parent e) (ent_lft e) (ent_rgt e).

(** [new Map(mirrors.map((m) => [m.id, m]))]: a later entry replaces an earlier one. *)
Definition mirrors_by_id (mirrors : list node) : gmap string node :=
  foldl (λ byId m, <[id m := m]> byId) ∅ mirrors.

Definition write_back `{TreeEntity E} (byId : gmap string node) (e : E) : E :=
  match byId !! ent_id e with
  | Some m => ent_put (lft m) (rgt m) e
  | None => e
  end.

Definition orphan_message (ids : list string) : string :=
  "rebuildNestedSet: detected " +:+ string_of_nat (length ids) +:+
  " orphan/cyclic node(s) not reachable from a root: " +:+ String.concat ", " ids.

Definition rebuildNestedSetFor `{TreeEntity E} (entities : list E) : result (list E) :=
  match rebuildNestedSet (List.map mirror entities) with
  | Rebuilt mirrors => Ok (List.map (write_back (mirrors_by_id mirrors)) entities)
  | Orphans ids => Throw (PlainError (orphan_message ids))
  | StackOverflow => Throw (PlainError "Maximum call stack size exceeded")
  end.

Example rebuild_example :
  rebuildNestedSet [Node "b" (Some "a") 0 0; Node "a" None 0 0; Node "c" (Some "a") 0 0]
  = Rebuilt [Node "b" (Some "a") 2 3; Node "a" None 1 6; Node "c" (Some "a") 4 5].
Proof. reflexivity. Qed.
Example rebuild_cycle :
  rebuildNestedSet [Node "a" (Some "b") 0 0; Node "b" (Some "a") 0 0; Node "r" None 0 0]
  = Orphans ["a"; "b"].
Proof. reflexivity. Qed.

(** ** Specification of a tree table *)

(** [ancestor nodes a x]: following parent links from the row with id [x] one
    meets the row with id [a]. *)
Inductive ancestor (nodes : list node) (a : string) : string → Prop :=
  | anc_parent x m : x ∈ nodes → m ∈ nodes → id m = a → parentId x = Some a →
      ancestor nodes a (id x)
  | anc_up x m : x ∈ nodes → m ∈ nodes → parentId x = Some (id m) →
      ancestor nodes a (id m) → ancestor nodes a (id x).

(** [rooted nodes x]: the parent links of [x] end in a row without parent. *)
Inductive rooted (nodes : list node) : string → Prop :=
  | rooted_root x : x ∈ nodes → parentId x = None → rooted nodes (id x)
  | rooted_child x m : x ∈ nodes → m ∈ nodes → parentId x = Some (id m) →
      rooted nodes (id m) → rooted nodes (id x).

Definition shape (nodes : list node) : list (string * option string) :=
  (λ n, (id n, parentId n)) <$> nodes.

(** Both relations only read ids and parents. *)
Definition covers (l l' : list node) : Prop :=
  ∀ n, n ∈ l → ∃ n', n' ∈ l' ∧ id n' = id n ∧ parentId n' = parentId n.

Lemma rooted_mono l l' s : covers l l' → rooted l s → rooted l' s.
Proof.
  intros Hc. induction 1 as [x Hx Hp|x m Hx Hm Hp _ IH].
  - destruct (Hc x Hx) as (x' & Hx' & <- & Hp'). apply rooted_root; congruence.
  - destruct (Hc x Hx) as (x' & Hx' & <- & Hp'), (Hc m Hm) as (m' & Hm' & Hid & _).
    apply (rooted_child _ x' m'); congruence.
Qed.

Lemma ancestor_mono l l' a s : covers l l' → ancestor l a s → ancestor l' a s.
Proof.
  intros Hc. induction 1 as [x m Hx Hm Hid Hp|x m Hx Hm Hp _ IH];
    destruct (Hc x Hx) as (x' & Hx' & <- & Hp'), (Hc m Hm) as (m' & Hm' & Hid' & _).
  - apply (anc_parent _ _ x' m'); congruence.
  - apply (anc_up _ _ x' m'); congruence.
Qed.

(** ** The parent index *)

Lemma index_snoc nodes n :
  index_by_parent (nodes ++ [n])
  = index_step (index_by_parent nodes) (length nodes, n).
Proof.
  unfold index_by_parent. rewrite imap_app, foldl_app. simpl. by rewrite Nat.add_0_r.
Qed.

Lemma elem_of_children nodes p c :
  c ∈ children_of (index_by_parent nodes) p ↔ ∃ n, nodes !! c = Some n ∧ parentId n = p.
Proof.
  induction nodes as [|n nodes IH] using rev_ind.
  - unfold index_by_parent, children_of. simpl. rewrite lookup_empty. simpl. set_solver.
  - rewrite index_snoc. unfold index_step, children_of at 1. simpl.
    rewrite lookup_insert. case_decide as Hp; simpl.
    + rewrite elem_of_app, list_elem_of_singleton. subst p. rewrite IH. split.
      * intros [(m & Hm & Hp)| ->].
        -- exists m. split; [by apply lookup_app_l_Some | done].
        -- exists n. by rewrite list_lookup_middle.
      * intros (m & [Hm|[? Hm]]%lookup_app_Some & Hp); [naive_solver|].
        right. apply list_lookup_singleton_Some in Hm. lia.
    + change (default [] (index_by_parent nodes !! p)) with (children_of (index_by_parent nodes) p).
      rewrite IH. split.
      * intros (m & Hm & Hm'). exists m. split; [by apply lookup_app_l_Some | done].
      * intros (m & [Hm|[? Hm]]%lookup_app_Some & Hm'); [naive_solver|].
        apply list_lookup_singleton_Some in Hm as [_ ->]. done.
Qed.

Lemma NoDup_children nodes p : NoDup (children_of (index_by_parent nodes) p).
Proof.
  induction nodes as [|n nodes IH] using rev_ind.
  - unfold children_of, index_by_parent. simpl. rewrite lookup_empty. constructor.
  - rewrite index_snoc. unfold index_step, children_of at 1. simpl.
    rewrite lookup_insert. case_decide; simpl; [|done]. subst.
    apply NoDup_app. split_and!; [done| |apply NoDup_singleton].
    intros c (m & Hm & _)%elem_of_children ->%list_elem_of_singleton.
    apply lookup_lt_Some in Hm. lia.
Qed.

(** ** Ancestor chains

    [chain p l]: [l] lists the positions met from the node with id [p] up to a
    root, nearest first. *)
Section tour.
Context (nodes : list node) (Huniq : NoDup (id <$> nodes)).

Inductive chain : option string → list nat → Prop :=
  | chain_root : chain None []
  | chain_up c n l : nodes !! c = Some n → chain (parentId n) l →
      chain (Some (id n)) (c :: l).

Lemma id_inj c c' n n' :
  nodes !! c = Some n → nodes !! c' = Some n' → id n = id n' → c = c'.
Proof.
  intros Hc Hc' Hid. eapply (NoDup_lookup (id <$> nodes) c c' (id n)); [done|..].
  - by rewrite list_lookup_fmap, Hc.
  - by rewrite list_lookup_fmap, Hc', Hid.
Qed.

Lemma chain_child p c n l :
  nodes !! c = Some n → parentId n = p → chain p l → chain (Some (id n)) (c :: l).
Proof. intros Hn <- Hl. by constructor. Qed.

Lemma chain_det p l l' : chain p l → chain p l' → l = l'.
Proof.
  intros H. revert l'. induction H as [|c n l Hc Hl IH]; intros l'; inversion 1 as [|c' n']; subst; [done|].
  assert (c = c') as <- by (eapply id_inj; eauto). simplify_eq. f_equal. eauto.
Qed.

Lemma chain_inj p p' l : chain p l → chain p' l → p = p'.
Proof. intros H. inversion H; subst; inversion 1; subst; simplify_eq; done. Qed.

Lemma chain_suffix p l1 c l2 :
  chain p (l1 ++ c :: l2) → ∃ n, nodes !! c = Some n ∧ chain (Some (id n)) (c :: l2)
                                 ∧ chain (parentId n) l2.
Proof.
  revert p. induction l1 as [|c1 l1 IH]; intros p; simpl; inversion 1; subst; [|eauto].
  exists n. split_and!; [done| |done]. by constructor.
Qed.

Lemma chain_NoDup p l : chain p l → NoDup l.
Proof.
  induction 1 as [|c n l Hc Hl IH]; constructor; [|done].
  intros (l1 & l2 & ->)%list_elem_of_split.
  destruct (chain_suffix _ _ _ _ Hl) as (n' & Hn' & Hch & _). simplify_eq.
  assert (c :: l1 ++ c :: l2 = c :: l2) as Heq.
  { eapply chain_det; [|done]. by constructor. }
  apply (f_equal length) in Heq. simpl in Heq. rewrite length_app in Heq. simpl in Heq. lia.
Qed.

Lemma chain_length p l : chain p l → length l ≤ length nodes.
Proof.
  intros H. rewrite <- (length_seq (length nodes) 0).
  apply submseteq_length, NoDup_submseteq; [by eapply chain_NoDup|].
  intros c (l1 & l2 & ->)%list_elem_of_split.
  destruct (chain_suffix _ _ _ _ H) as (n & Hn & _).
  apply elem_of_seq. apply lookup_lt_Some in Hn. lia.
Qed.

(** ** The tour: the sequence of [enter] ([true]) and [leave] ([false]) events *)
Abbreviation idx := (index_by_parent nodes).

Definition block (sub : option string → list (bool * nat)) (c : nat) : list (bool * nat) :=
  match nodes !! c with
  | None => []
  | Some n => (true, c) :: sub (Some (id n)) ++ [(false, c)]
  end.
Fixpoint tour (fuel : nat) (p : option string) : list (bool * nat) :=
  match fuel with
  | O => []
  | S fuel' => children_of idx p ≫= block (tour fuel')
  end.

Definition event (e : bool * nat) (w : walk) : walk :=
  if e.1 then enter e.2 w else leave e.2 w.
Definition play (es : list (bool * nat)) (w : walk) : walk := foldl (flip event) w es.

Lemma play_app es es' w : play (es ++ es') w = play es' (play es w).
Proof. apply foldl_app. Qed.

Lemma shape_insert l i n n' :
  l !! i = Some n → id n' = id n → parentId n' = parentId n →
  shape (<[i:=n']> l) = shape l.
Proof.
  intros Hi H1 H2. unfold shape. rewrite list_fmap_insert, H1, H2.
  apply list_insert_id. by rewrite list_lookup_fmap, Hi.
Qed.
Lemma event_shape e w : shape (nodes_of (event e w)) = shape (nodes_of w).
Proof.
  destruct e as [[] i]; unfold event, enter, leave; simpl;
    (destruct (nodes_of w !! i) as [n|] eqn:Hi; [|done]); simpl; by eapply shape_insert.
Qed.
Lemma enter_shape i w : shape (nodes_of (enter i w)) = shape (nodes_of w).
Proof. apply (event_shape (true, i)). Qed.
Lemma leave_shape i w : shape (nodes_of (leave i w)) = shape (nodes_of w).
Proof. apply (event_shape (false, i)). Qed.
Lemma play_shape es w : shape (nodes_of (play es w)) = shape (nodes_of w).
Proof.
  revert w. induction es as [|e es IH]; intros w; simpl; [done|]. by rewrite IH, event_shape.
Qed.
Lemma shape_lookup l l' i n :
  shape l = shape l' → l !! i = Some n →
  ∃ n', l' !! i = Some n' ∧ id n' = id n ∧ parentId n' = parentId n.
Proof.
  intros Hs Hi. assert (shape l !! i = Some (id n, parentId n)) as H.
  { unfold shape. by rewrite list_lookup_fmap, Hi. }
  rewrite Hs in H. unfold shape in H. rewrite list_lookup_fmap in H.
  destruct (l' !! i) as [n'|]; simplify_eq/=. eauto.
Qed.

(** The recursion ends, and performs exactly the events of the tour. *)
Lemma visit_tour fuel p l w :
  chain p l → length nodes < fuel + length l → shape (nodes_of w) = shape nodes →
  visit idx fuel p w = Some (play (tour fuel p) w).
Proof.
  revert p l w. induction fuel as [|fuel IH]; intros p l w Hch Hlen Hw.
  { apply chain_length in Hch. lia. }
  simpl. assert (∀ c, c ∈ children_of idx p → ∃ n, nodes !! c = Some n ∧ parentId n = p) as Hcs
    by (intros c; apply elem_of_children).
  revert w Hw Hcs. induction (children_of idx p) as [|c cs IHcs]; intros w Hw Hcs; [done|].
  destruct (Hcs c) as (n & Hn & Hp); [set_solver|].
  destruct (shape_lookup nodes (nodes_of w) c n) as (n' & Hn' & Hid & _); [done..|].
  rewrite Hn'. rewrite Hid. rewrite (IH _ (c :: l)).
  - rewrite IHcs; [|by rewrite leave_shape, play_shape, enter_shape|set_solver].
    simpl. unfold block at 2. rewrite Hn. simpl. rewrite !play_app. done.
  - by eapply chain_child.
  - simpl. lia.
  - by rewrite enter_shape.
Qed.

(** Which nodes the tour below [p] meets: those whose chain goes through [p]. *)
Lemma elem_of_block fuel c b x :
  (b, x) ∈ block (tour fuel) c ↔
    ∃ n, nodes !! c = Some n ∧ (x = c ∨ (b, x) ∈ tour fuel (Some (id n))).
Proof.
  unfold block. destruct (nodes !! c) as [n|]; [|set_solver].
  rewrite elem_of_cons, elem_of_app, list_elem_of_singleton. split.
  - intros [[= -> ->]|[H|[= -> ->]]]; eauto.
  - intros (m & [= <-] & [->|H]); [destruct b; auto | auto].
Qed.

Lemma elem_of_tour fuel p l b x :
  chain p l → length nodes < fuel + length l →
  (b, x) ∈ tour fuel p ↔
    ∃ n l1, nodes !! x = Some n ∧ chain (Some (id n)) (x :: l1 ++ l).
Proof.
  revert p l. induction fuel as [|fuel IH]; intros p l Hch Hlen.
  { apply chain_length in Hch. lia. }
  simpl. rewrite list_elem_of_bind. setoid_rewrite elem_of_block.
  setoid_rewrite elem_of_children. split.
  - intros (c & (n & Hn & Hx) & (n' & Hn' & Hp)). simplify_eq.
    assert (chain (Some (id n)) (c :: l)) as Hchc by (by eapply chain_child).
    destruct Hx as [->|Hx]; [by exists n, []|].
    apply (IH _ (c :: l)) in Hx as (m & l1 & Hm & Hchx); [|done|simpl; lia].
    exists m, (l1 ++ [c]). by rewrite <- app_assoc.
  - intros (n & l1 & Hn & Hchx). destruct l1 as [|c l1 _] using rev_ind.
    + exists x. inversion Hchx as [|? n' ? Hn' Hch']; simplify_eq/=.
      assert (parentId n = p) by (by eapply chain_inj). eauto 10.
    + rewrite <- app_assoc in Hchx. simpl in Hchx.
      destruct (chain_suffix _ (x :: l1) c l Hchx) as (m & Hm & Hchm & Hchp).
      assert (parentId m = p) as Hp by (by eapply chain_inj).
      exists c. split; [|eauto]. exists m. split; [done|]. right.
      apply (IH _ (c :: l)); [done|simpl; lia|]. eauto.
Qed.

Lemma NoDup_tour fuel p l :
  chain p l → length nodes < fuel + length l → NoDup (tour fuel p).
Proof.
  revert p l. induction fuel as [|fuel IH]; intros p l Hch Hlen; [constructor|].
  simpl. apply NoDup_bind; [| |apply NoDup_children].
  - intros c c' [b x] Hc Hc' Hx Hx'.
    apply elem_of_children in Hc as (n & Hn & Hp), Hc' as (n' & Hn' & Hp').
    assert (∀ d m, nodes !! d = Some m → parentId m = p → (b, x) ∈ block (tour fuel) d →
      ∃ q l1, nodes !! x = Some q ∧ chain (Some (id q)) (l1 ++ d :: l)) as Hgo.
    { intros d m Hd Hpd (m' & Hm' & Hin)%elem_of_block. simplify_eq.
      assert (chain (Some (id m)) (d :: l)) by (by eapply chain_child).
      destruct Hin as [->|Hin]; [by exists m, []|].
      apply (elem_of_tour _ _ (d :: l)) in Hin as (q & l1 & ? & ?); [|done|simpl; lia].
      by exists q, (x :: l1). }
    destruct (Hgo c n) as (q & l1 & Hq & Hl1); [done..|].
    destruct (Hgo c' n') as (q' & l2 & Hq' & Hl2); [done..|]. simplify_eq.
    assert (l1 ++ c :: l = l2 ++ c' :: l) as Heq by (by eapply chain_det).
    rewrite (cons_middle c), (cons_middle c'), !app_assoc in Heq.
    apply app_inj_2 in Heq as [Heq _]; [|done]. by apply app_inj_tail in Heq as [_ ->].
  - intros c (n & Hn & Hp)%elem_of_children. unfold block. rewrite Hn.
    assert (chain (Some (id n)) (c :: l)) as Hchc by (by eapply chain_child).
    assert (∀ b, (b, c) ∉ tour fuel (Some (id n))) as Hnot.
    { intros b (m & l1 & Hm & Hchm)%(elem_of_tour _ _ (c :: l)); [|done|simpl; lia].
      apply chain_NoDup in Hchm. inversion Hchm; set_solver. }
    constructor; [set_solver|]. apply NoDup_app. split_and!; [eapply IH; [done|simpl; lia]| |].
    + intros e He ->%list_elem_of_singleton. by eapply Hnot.
    + apply NoDup_singleton.
Qed.

(** The tour is well bracketed: the events strictly between [enter a] and
    [leave a] are those of the tour below [a]. *)
Lemma tour_bracket fuel p l b a :
  chain p l → length nodes < fuel + length l → (b, a) ∈ tour fuel p →
  ∃ n l' fuel' pre post, nodes !! a = Some n ∧ chain (Some (id n)) (a :: l') ∧
    length nodes < fuel' + length (a :: l') ∧
    tour fuel p = pre ++ (true, a) :: tour fuel' (Some (id n)) ++ (false, a) :: post.
Proof.
  revert p l. induction fuel as [|fuel IH]; intros p l Hch Hlen; [set_solver|].
  simpl. intros (c & Hx & Hc)%list_elem_of_bind.
  apply elem_of_children in Hc as Hc'. destruct Hc' as (n & Hn & Hp).
  apply list_elem_of_split in Hc as (cs1 & cs2 & ->).
  rewrite bind_app, bind_cons.
  apply elem_of_block in Hx as (n' & Hn' & Hx). simplify_eq.
  assert (chain (Some (id n')) (c :: l)) as Hchc by (by eapply chain_child).
  unfold block at 2. rewrite Hn'. destruct Hx as [->|Hx].
  - exists n', l, fuel. eexists _, _. split_and!; [done|done|simpl; lia|].
    simpl. by rewrite <- app_assoc.
  - destruct (IH (Some (id n')) (c :: l)) as (m & l' & fuel' & pre & post & ? & ? & ? & ->);
      [by eapply chain_child|simpl; lia|done|].
    exists m, l', fuel', ((cs1 ≫= block (tour fuel)) ++ (true, c) :: pre).
    eexists. split_and!; [done..|]. rewrite <- !app_assoc. simpl.
    rewrite <- !app_assoc. simpl. by rewrite <- !app_assoc.
Qed.
End tour.

(** ** The numbering a sequence of events writes *)

Definition bound (b : bool) (n : node) : Z := if b then lft n else rgt n.
Definition in_range (w : walk) (es : list (bool * nat)) : Prop :=
  ∀ b x, (b, x) ∈ es → x < length (nodes_of w).

Lemma event_length e w : length (nodes_of (event e w)) = length (nodes_of w).
Proof.
  pose proof (event_shape e w) as H. apply (f_equal length) in H.
  unfold shape in H. by rewrite !length_fmap in H.
Qed.

Lemma event_counter b x w :
  x < length (nodes_of w) → counter (event (b, x) w) = (counter w + 1)%Z.
Proof.
  intros [n Hn]%lookup_lt_is_Some.
  destruct b; unfold event, enter, leave; simpl; by rewrite Hn.
Qed.

Lemma event_bound b x b' x' w :
  bound b' <$> (nodes_of (event (b, x) w) !! x') =
  if decide ((b, x) = (b', x')) then (λ _, counter w) <$> (nodes_of w !! x')
  else bound b' <$> (nodes_of w !! x').
Proof.
  unfold event, enter, leave. simpl.
  destruct b; destruct (nodes_of w !! x) as [n|] eqn:Hx; simpl;
    (destruct (decide (x = x')) as [<-|Hne]; [|rewrite ?list_lookup_insert_ne by done]);
    rewrite ?list_lookup_insert_eq by (by eapply lookup_lt_Some);
    rewrite ?Hx; case_decide; destruct b'; simplify_eq/=; done.
Qed.

Lemma play_bound_other es w b x :
  (b, x) ∉ es → bound b <$> (nodes_of (play es w) !! x) = bound b <$> (nodes_of w !! x).
Proof.
  revert w. induction es as [|[b' x'] es IH]; intros w Hnot; simpl; [done|].
  rewrite IH by set_solver. rewrite event_bound, decide_False; [done|set_solver].
Qed.

Lemma play_bound es w b x (i : nat) :
  NoDup es → in_range w es → es !! i = Some (b, x) →
  bound b <$> (nodes_of (play es w) !! x) = Some (counter w + Z.of_nat i)%Z.
Proof.
  revert w i. induction es as [|[b' x'] es IH]; intros w i Hnd Hr; [done|].
  apply NoDup_cons in Hnd as [Hnot Hnd].
  assert (x' < length (nodes_of w)) as Hx' by (eapply Hr, list_elem_of_here).
  destruct i as [|i]; simpl; intros Hi.
  - simplify_eq. rewrite play_bound_other by done. rewrite event_bound, decide_True by done.
    apply lookup_lt_is_Some in Hx' as [n ->]. simpl. f_equal. lia.
  - rewrite (IH _ i); [|done| |done].
    + rewrite event_counter by done. f_equal. lia.
    + intros b'' y Hy. rewrite event_length. by eapply Hr, list_elem_of_further.
Qed.

Lemma play_visited nodes es w s :
  shape (nodes_of w) = shape nodes →
  s ∈ visited (play es w) ↔
    s ∈ visited w ∨ ∃ x n, (true, x) ∈ es ∧ nodes !! x = Some n ∧ id n = s.
Proof.
  revert w. induction es as [|[b x] es IH]; intros w Hw; simpl.
  { split; [auto|]. intros [?|(?&?&?&_)]; set_solver. }
  rewrite IH by (by rewrite event_shape).
  assert (s ∈ visited (event (b, x) w) ↔
          s ∈ visited w ∨ b = true ∧ ∃ n, nodes !! x = Some n ∧ id n = s) as ->.
  { unfold event, enter, leave. simpl.
    destruct (nodes_of w !! x) as [n|] eqn:Hx.
    - destruct (shape_lookup (nodes_of w) nodes x n) as (n' & Hn' & Hid & _); [done..|].
      destruct b; simpl; [|naive_solver]. rewrite elem_of_union, elem_of_singleton. naive_solver.
    - destruct b; simpl; [|naive_solver]. split; [auto|]. intros [?|(_ & n & Hn & _)]; [done|].
      symmetry in Hw. destruct (shape_lookup nodes (nodes_of w) x n) as (? & ? & _); congruence. }
  setoid_rewrite elem_of_cons. naive_solver.
Qed.

(** ** The whole-table walk *)
Section rebuild.
Context (nodes : list node) (Huniq : NoDup (id <$> nodes)).

Let idx := index_by_parent nodes.
Definition full_tour : list (bool * nat) := tour nodes (visit_fuel nodes) None.
Definition final : walk := play full_tour (Walk 1 ∅ nodes).

Lemma visit_final : visit idx (visit_fuel nodes) None (Walk 1 ∅ nodes) = Some final.
Proof.
  apply (visit_tour nodes Huniq _ _ []); [constructor|unfold visit_fuel; simpl; lia|done].
Qed.

Lemma elem_of_full_tour b x :
  (b, x) ∈ full_tour ↔ ∃ n l, nodes !! x = Some n ∧ chain nodes (Some (id n)) (x :: l).
Proof.
  unfold full_tour. rewrite (elem_of_tour _ Huniq _ _ []);
    [|constructor|unfold visit_fuel; simpl; lia].
  by setoid_rewrite app_nil_r.
Qed.
Lemma full_tour_NoDup : NoDup full_tour.
Proof. apply (NoDup_tour _ Huniq _ _ []); [constructor|unfold visit_fuel; simpl; lia]. Qed.
Lemma full_tour_range : in_range (Walk 1 ∅ nodes) full_tour.
Proof. intros b x (n & l & Hn & _)%elem_of_full_tour. by eapply lookup_lt_Some. Qed.

Lemma final_bound b x (i : nat) : full_tour !! i = Some (b, x) →
  bound b <$> (nodes_of final !! x) = Some (1 + Z.of_nat i)%Z.
Proof. apply (play_bound full_tour (Walk 1 ∅ nodes)); auto using full_tour_NoDup, full_tour_range. Qed.

Lemma final_shape : shape (nodes_of final) = shape nodes.
Proof. apply play_shape. Qed.

Lemma rooted_chain x n :
  nodes !! x = Some n → rooted nodes (id n) ↔ ∃ l, chain nodes (Some (id n)) (x :: l).
Proof.
  intros Hx. split.
  - intros H. remember (id n) as s eqn:Hs. revert x n Hx Hs.
    induction H as [m Hm Hp|m q Hm Hq Hp _ IH]; intros x n Hx Hs;
      apply list_elem_of_lookup in Hm as [y Hy];
      assert (y = x) as -> by (by eapply id_inj); simplify_eq.
    + exists []. constructor; [done|]. rewrite Hp. constructor.
    + apply list_elem_of_lookup in Hq as [z Hz]. destruct (IH z q) as [l Hl]; [done..|].
      exists (z :: l). constructor; [done|]. by rewrite Hp.
  - intros [l Hl]. remember (Some (id n)) as p eqn:Hp. remember (x :: l) as xl eqn:Hxl.
    revert x n l Hx Hp Hxl. induction Hl as [|c m l' Hc Hl' IH]; intros x n l Hx Hp Hxl; [done|].
    simplify_eq. inversion Hl' as [|z q l'' Hz Hl'' Hpar]; subst.
    + apply rooted_root; [by eapply list_elem_of_lookup_2|done].
    + eapply rooted_child; [by eapply list_elem_of_lookup_2..|by symmetry|]. eapply IH; eauto.
Qed.

Lemma ancestor_chain x n l a m :
  nodes !! x = Some n → chain nodes (Some (id n)) (x :: l) → nodes !! a = Some m →
  ancestor nodes (id m) (id n) ↔ a ∈ l.
Proof.
  intros Hx Hl Ha. split.
  - intros H. remember (id n) as s eqn:Hs. revert x n l Hx Hs Hl.
    induction H as [y q Hy Hq Hid Hp|y q Hy Hq Hp _ IH]; intros x n l Hx Hs Hl;
      apply list_elem_of_lookup in Hy as [y' Hy], Hq as [q' Hq];
      assert (y' = x) as -> by (by eapply id_inj);
      inversion Hl as [|? n' ? Hn' Hl' Hid']; simplify_eq.
    + rewrite Hp in Hl'. inversion Hl' as [|z q0 l0 Hz Hl0 Hid0]; subst.
      assert (z = a) as -> by (by eapply id_inj). set_solver.
    + rewrite Hp in Hl'. inversion Hl' as [|z q0 l0 Hz Hl0 Hid0]; subst.
      assert (z = q') as -> by (by eapply id_inj). simplify_eq.
      apply list_elem_of_further. eapply (IH q' q); eauto.
  - revert x n Hx Hl. induction l as [|z l IH]; intros x n Hx Hl; [set_solver|].
    inversion Hl as [|? n' ? Hn' Hl' Hid']; simplify_eq.
    inversion Hl' as [|? q l0 Hz Hl0 Hid0]; subst.
    intros [<-|Hin]%elem_of_cons; simplify_eq.
    + apply (anc_parent _ _ n m); [by eapply list_elem_of_lookup_2..|done|done].
    + apply (anc_up _ _ n q); [by eapply list_elem_of_lookup_2..|done|].
      eapply IH; [done| |done]. by constructor.
Qed.

Lemma visited_rooted x n :
  nodes !! x = Some n → id n ∈ visited final ↔ rooted nodes (id n).
Proof.
  intros Hx. unfold final. rewrite (play_visited nodes) by done.
  rewrite (rooted_chain x n Hx). split.
  - intros [?|(y & m & Hin & Hy & Hid)]; [set_solver|].
    assert (y = x) as -> by (by eapply id_inj). simplify_eq.
    apply elem_of_full_tour in Hin as (n' & l & Hn' & Hl). simplify_eq. eauto.
  - intros [l Hl]. right. exists x, n. split_and!; [|done..].
    apply elem_of_full_tour. eauto.
Qed.

Definition orphans : list node :=
  List.filter (λ n, negb (bool_decide (id n ∈ visited final))) (nodes_of final).

Lemma elem_of_orphans s : s ∈ id <$> orphans ↔ s ∈ id <$> nodes ∧ ¬ rooted nodes s.
Proof.
  rewrite !list_elem_of_fmap. unfold orphans. setoid_rewrite elem_of_List_filter.
  setoid_rewrite negb_true_iff. setoid_rewrite bool_decide_eq_false. split.
  - intros (n & -> & [x Hx]%list_elem_of_lookup & Hn).
    destruct (shape_lookup _ _ _ _ final_shape Hx) as (n' & Hn' & Hid & _).
    split; [exists n'; split; [done|by eapply list_elem_of_lookup_2]|].
    rewrite <- Hid, <- (visited_rooted x n') by done. by rewrite Hid.
  - intros ((n & -> & [x Hx]%list_elem_of_lookup) & Hr).
    destruct (shape_lookup _ _ _ _ (eq_sym final_shape) Hx) as (n' & Hn' & Hid & _).
    exists n'. split_and!; [done|by eapply list_elem_of_lookup_2|].
    by rewrite Hid, (visited_rooted x n).
Qed.

Lemma rebuild_unfold :
  rebuildNestedSet nodes =
    match orphans with [] => Rebuilt (nodes_of final) | os => Orphans (List.map id os) end.
Proof.
  unfold rebuildNestedSet. pose proof visit_final as H. unfold idx in H. rewrite H.
  fold orphans. by destruct orphans.
Qed.

Lemma rebuilt_final nodes' :
  rebuildNestedSet nodes = Rebuilt nodes' →
  nodes' = nodes_of final ∧ ∀ n, n ∈ nodes → rooted nodes (id n).
Proof.
  rewrite rebuild_unfold. destruct orphans as [|o os] eqn:Ho; intros [= <-].
  split; [done|]. intros n Hn. destruct (list_elem_of_lookup_1 _ _ Hn) as [x Hx].
  apply (visited_rooted x n Hx). apply dec_stable. intros Hv.
  assert (id n ∈ id <$> orphans) as Hin; [|by rewrite Ho in Hin; set_solver].
  apply elem_of_orphans. rewrite (visited_rooted x n Hx) in Hv.
  split; [|done]. by apply list_elem_of_fmap_2.
Qed.

(** The tour below a rooted node meets exactly its descendants. *)
Lemma elem_of_subtour f x n l b y :
  nodes !! x = Some n → chain nodes (Some (id n)) (x :: l) →
  length nodes < f + length (x :: l) → (b, y) ∈ full_tour →
  (b, y) ∈ tour nodes f (Some (id n)) ↔
    ∃ m, nodes !! y = Some m ∧ ancestor nodes (id n) (id m).
Proof.
  intros Hx Hl Hlen (m & l2 & Hm & Hl2)%elem_of_full_tour.
  rewrite (elem_of_tour _ Huniq _ _ (x :: l)) by done. split.
  - intros (m' & l1 & Hm' & Hc). exists m'. split; [done|].
    eapply ancestor_chain; [done|done|done|set_solver].
  - intros (m' & Hm' & Hanc). exists m. simplify_eq.
    apply (ancestor_chain y m l2 x n) in Hanc; [|done..].
    apply list_elem_of_split in Hanc as (l3 & l4 & ->).
    destruct (chain_suffix _ _ (y :: l3) x l4 Hl2) as (q' & Hq' & Hc & _). simplify_eq.
    assert (x :: l4 = x :: l) as [= ->] by (by eapply chain_det). eauto.
Qed.

(** Where the two events of a rooted node are, and what lies between them. *)
Lemma final_interval x n :
  nodes !! x = Some n → rooted nodes (id n) →
  ∃ n' (i k : nat), nodes_of final !! x = Some n' ∧
    full_tour !! i = Some (true, x) ∧ full_tour !! k = Some (false, x) ∧
    lft n' = (1 + Z.of_nat i)%Z ∧ rgt n' = (1 + Z.of_nat k)%Z ∧ i < k ∧
    (∀ b y (j : nat), full_tour !! j = Some (b, y) →
       i < j ∧ j < k ↔ ∃ m, nodes !! y = Some m ∧ ancestor nodes (id n) (id m)).
Proof.
  intros Hx Hr. apply (rooted_chain x n Hx) in Hr as [l Hl].
  assert ((true, x) ∈ full_tour) as Hin by (apply elem_of_full_tour; eauto).
  destruct (tour_bracket _ Huniq (visit_fuel nodes) None [] true x (chain_root _)
              ltac:(unfold visit_fuel; simpl; lia) Hin)
    as (n' & l' & f & pre & post & Hn' & Hl' & Hlen & Heq). simplify_eq.
  fold full_tour in Heq. set (sub := tour nodes f (Some (id n))) in *.
  assert (full_tour !! length pre = Some (true, x)) as Hi.
  { rewrite Heq. by apply list_lookup_middle. }
  assert (full_tour !! (length pre + 1 + length sub) = Some (false, x)) as Hk.
  { rewrite Heq, lookup_app_r by lia.
    replace (length pre + 1 + length sub - length pre) with (S (length sub)) by lia.
    simpl. by apply list_lookup_middle. }
  apply final_bound in Hi as Hlft. apply final_bound in Hk as Hrgt.
  destruct (nodes_of final !! x) as [q|] eqn:Hq; simplify_eq/=.
  exists q, (length pre), (length pre + 1 + length sub). split_and!; [done..|lia|].
  intros b y j Hj.
  assert ((b, y) ∈ full_tour) as Hy by (by eapply list_elem_of_lookup_2).
  rewrite <- (elem_of_subtour f x n l' b y) by done. fold sub.
  split.
  - intros [Hj1 Hj2]. rewrite Heq, lookup_app_r in Hj by lia.
    destruct (j - length pre) as [|j'] eqn:Hj'; [lia|]. simpl in Hj.
    rewrite lookup_app_l in Hj by lia. by eapply list_elem_of_lookup_2.
  - intros [j' Hj']%list_elem_of_lookup.
    assert (full_tour !! (length pre + 1 + j') = Some (b, y)) as Hj2.
    { rewrite Heq, lookup_app_r by lia.
      replace (length pre + 1 + j' - length pre) with (S j') by lia. simpl.
      by apply lookup_app_l_Some. }
    assert (j = length pre + 1 + j') as ->
      by (eapply NoDup_lookup; [apply full_tour_NoDup|done..]).
    apply lookup_lt_Some in Hj'. lia.
Qed.
End rebuild.

(** ** Numbering helpers *)

Lemma fmap_seq_lookup {A B} (f : A → B) (d : B) (l : list A) :
  (λ x, default d (f <$> l !! x)) <$> seq 0 (length l) = f <$> l.
Proof.
  apply list_eq. intros i. rewrite !list_lookup_fmap.
  destruct (l !! i) as [a|] eqn:Hi; simpl.
  - rewrite lookup_seq_lt by (by eapply lookup_lt_Some). simpl. by rewrite Hi.
  - rewrite lookup_seq_ge; [done|]. by apply lookup_ge_None.
Qed.

Lemma full_tour_perm (nodes : list node) :
  NoDup (id <$> nodes) → (∀ n, n ∈ nodes → rooted nodes (id n)) →
  full_tour nodes ≡ₚ (pair true <$> seq 0 (length nodes)) ++ (pair false <$> seq 0 (length nodes)).
Proof.
  intros Huniq Hall. apply NoDup_Permutation; [by apply full_tour_NoDup| |].
  - apply NoDup_app. split_and!; [apply NoDup_fmap; [apply _|apply NoDup_seq]| |
      apply NoDup_fmap; [apply _|apply NoDup_seq]].
    intros e (x & -> & _)%list_elem_of_fmap (y & ? & _)%list_elem_of_fmap. done.
  - intros [b x]. rewrite (elem_of_full_tour nodes Huniq), elem_of_app, !list_elem_of_fmap.
    setoid_rewrite elem_of_seq. split.
    + intros (n & l & Hn%lookup_lt_Some & _). destruct b; [left|right]; exists x; split; [done|lia|done|lia].
    + intros H. assert (x < length nodes) as [n Hn]%lookup_lt_is_Some by (destruct H as [(?&?&?)|(?&?&?)]; simplify_eq; lia).
      exists n. destruct (proj1 (rooted_chain nodes Huniq x n Hn)) as [l Hl];
        [by eapply Hall, list_elem_of_lookup_2|eauto].
Qed.

Lemma mirrors_by_id_lookup (ms : list node) (m : node) :
  NoDup (id <$> ms) → m ∈ ms → mirrors_by_id ms !! id m = Some m.
Proof.
  unfold mirrors_by_id. induction ms as [|q ms IH] using rev_ind; [set_solver|].
  rewrite fmap_app, foldl_app, elem_of_app, list_elem_of_singleton. simpl.
  intros (Hnd & Hdis & _)%NoDup_app [Hm| ->]; [|by rewrite lookup_insert_eq].
  rewrite lookup_insert_ne; [by apply IH|]. intros Heq.
  eapply (Hdis (id m)); [by apply list_elem_of_fmap_2|]. rewrite <- Heq. set_solver.
Qed.

Lemma rebuild_total (nodes : list node) :
  NoDup (id <$> nodes) → rebuildNestedSet nodes ≠ StackOverflow.
Proof. intros Hnd. rewrite rebuild_unfold by done. by destruct (orphans nodes). Qed.

Lemma rebuild_reports (nodes : list node) (ids : list string) :
  NoDup (id <$> nodes) → rebuildNestedSet nodes = Orphans ids →
  ids ≠ [] ∧ ∀ s, s ∈ ids ↔ s ∈ id <$> nodes ∧ ¬ rooted nodes s.
Proof.
  intros Huniq Hr. rewrite rebuild_unfold in Hr by done.
  destruct (orphans nodes) as [|o os] eqn:Ho; simplify_eq.
  split; [done|]. intros s. rewrite <- elem_of_orphans, Ho by done. done.
Qed.

(** ** Properties *)

(** C31: on a table with distinct ids the walk always ends (no fuel or stack is
    exhausted), whatever the parent links; it succeeds exactly when every row is
    reachable from a root, and otherwise throws an error that lists exactly the
    rows on or below a cycle or a missing parent. *)
Theorem rebuild_outcome (nodes : list node) (Huniq : NoDup (id <$> nodes)) :
  match rebuildNestedSet nodes with
  | Rebuilt nodes' => ∀ n, n ∈ nodes → rooted nodes (id n)
  | Orphans ids => ids ≠ [] ∧
      ∀ s, s ∈ ids ↔ s ∈ id <$> nodes ∧ ¬ rooted nodes s
  | StackOverflow => False
  end.
Proof.
  destruct (rebuildNestedSet nodes) as [nodes'|ids|] eqn:Hr.
  - by apply rebuilt_final in Hr as [_ ?].
  - by apply rebuild_reports.
  - by apply rebuild_total in Hr.
Qed.

Lemma rebuild_nested_spec (nodes nodes' : list node) (Huniq : NoDup (id <$> nodes))
    (Hok : rebuildNestedSet nodes = Rebuilt nodes') :
  shape nodes' = shape nodes ∧
  (∀ n, n ∈ nodes' → (lft n < rgt n)%Z) ∧
  (∀ a x, a ∈ nodes' → x ∈ nodes' →
     ancestor nodes (id a) (id x) ↔ (lft a < lft x)%Z ∧ (rgt x < rgt a)%Z).
Proof.
  apply rebuilt_final in Hok as [-> Hall]; [|done].
  assert (∀ q, q ∈ nodes_of (final nodes) → ∃ x n, nodes_of (final nodes) !! x = Some q ∧
    nodes !! x = Some n ∧ id n = id q ∧ rooted nodes (id n)) as Hget.
  { intros q [x Hx]%list_elem_of_lookup.
    destruct (shape_lookup _ _ _ _ (final_shape nodes) Hx) as (n & Hn & Hid & _).
    exists x, n. split_and!; [done..|]. by eapply Hall, list_elem_of_lookup_2. }
  split_and!; [apply final_shape| |].
  - intros q (x & n & Hq & Hn & _ & Hr)%Hget.
    destruct (final_interval nodes Huniq x n Hn Hr)
      as (q' & i & k & Hq' & _ & _ & Hl & Hr' & ? & _).
    simplify_eq. lia.
  - intros a x (ap & an & Ha & Han & <- & Har)%Hget (xp & xn & Hx & Hxn & <- & Hxr)%Hget.
    destruct (final_interval nodes Huniq ap an Han Har) 
      as (a' & i & k & Ha' & _ & _ & Hl & Hr & Hik & Hin).
    destruct (final_interval nodes Huniq xp xn Hxn Hxr)
      as (x' & i' & k' & Hx' & Hi' & Hk' & Hl' & Hr' & Hik' & _). simplify_eq.
    specialize (Hin true xp i' Hi') as Hin1. specialize (Hin false xp k' Hk') as Hin2.
    rewrite Hl, Hr, Hl', Hr'. split.
    + intros Hanc. destruct (proj2 Hin1), (proj2 Hin2); eauto; lia.
    + intros [? ?]. destruct (proj1 Hin1) as (m & Hm & ?); [lia|]. by simplify_eq.
Qed.

(** C30: A successful rebuild keeps every row, its id and its parent, and writes
    bounds with which "is a descendant of" is interval containment, the property
    nested-set queries rely on. *)
Theorem rebuild_nested (nodes nodes' : list node) (Huniq : NoDup (id <$> nodes))
    (Hok : rebuildNestedSet nodes = Rebuilt nodes') :
  shape nodes' = shape nodes ∧
  (∀ n, n ∈ nodes' → (lft n < rgt n)%Z) ∧
  (∀ a x, a ∈ nodes' → x ∈ nodes' →
     ancestor nodes (id a) (id x) ↔ (lft a < lft x)%Z ∧ (rgt x < rgt a)%Z).
Proof. by apply rebuild_nested_spec. Qed.

(** The bounds written by a successful rebuild are exactly the numbers
    1, ..., 2n, each used once (n the number of rows). *)
Theorem rebuild_numbering (nodes nodes' : list node) (Huniq : NoDup (id <$> nodes))
    (Hok : rebuildNestedSet nodes = Rebuilt nodes') :
  (lft <$> nodes') ++ (rgt <$> nodes') ≡ₚ seqZ 1 (2 * Z.of_nat (length nodes)).
Proof.
  apply rebuilt_final in Hok as [-> Hall]; [|done].
  assert (length (nodes_of (final nodes)) = length nodes) as Hlen.
  { pose proof (final_shape nodes) as Hs. apply (f_equal length) in Hs.
    unfold shape in Hs. by rewrite !length_fmap in Hs. }
  set (val := λ e : bool * nat, default 0%Z (bound e.1 <$> nodes_of (final nodes) !! e.2)).
  assert (full_tour nodes ≡ₚ (pair true <$> seq 0 (length nodes)) ++ (pair false <$> seq 0 (length nodes)))
    as Hperm by by apply full_tour_perm.
  assert (length (full_tour nodes) = 2 * length nodes) as Hlt.
  { rewrite Hperm, length_app, !length_fmap, length_seq. lia. }
  trans (val <$> full_tour nodes).
  - rewrite Hperm, fmap_app, <- !list_fmap_compose, <- Hlen. f_equiv.
    + by rewrite <- (fmap_seq_lookup lft 0%Z).
    + by rewrite <- (fmap_seq_lookup rgt 0%Z).
  - enough (val <$> full_tour nodes = seqZ 1 (2 * Z.of_nat (length nodes))) as -> by done.
    apply list_eq. intros i. rewrite list_lookup_fmap.
    destruct (full_tour nodes !! i) as [[b x]|] eqn:Hi; simpl.
    + assert (i < length (full_tour nodes)) by (by eapply lookup_lt_Some).
      rewrite lookup_seqZ_lt by lia. unfold val. simpl.
      by rewrite (final_bound nodes Huniq b x i Hi).
    + apply lookup_ge_None in Hi. by rewrite lookup_seqZ_ge by lia.
Qed.

Section wrapper.
Context {E : Type} `{TreeEntityLaws E}.
Implicit Types (es : list E).

Lemma mirror_id es : id <$> (mirror <$> es) = ent_id <$> es.
Proof. by rewrite <- list_fmap_compose. Qed.

Lemma mirror_write_back (ms : list node) e m :
  NoDup (id <$> ms) → m ∈ ms → id m = ent_id e → parentId m = ent_parent e →
  mirror (write_back (mirrors_by_id ms) e) = m ∧
  write_back (mirrors_by_id ms) e = ent_put (lft m) (rgt m) e.
Proof.
  intros Hnd Hm Hid Hp. unfold write_back. rewrite <- Hid, mirrors_by_id_lookup by done.
  split; [|done]. unfold mirror. rewrite put_id, put_parent, put_lft, put_rgt, <- Hid, <- Hp.
  by destruct m.
Qed.

Lemma rebuildFor_spec es (Huniq : NoDup (ent_id <$> es)) :
  match rebuildNestedSetFor es with
  | Ok es' => rebuildNestedSet (mirror <$> es) = Rebuilt (mirror <$> es') ∧
      es' = (λ e', ent_put (ent_lft e'.2) (ent_rgt e'.2) e'.1) <$> zip es es'
  | Throw e => ∃ ids, rebuildNestedSet (mirror <$> es) = Orphans ids ∧
      e = PlainError (orphan_message ids)
  end.
Proof.
  assert (NoDup (id <$> (mirror <$> es))) as Hnd by by rewrite mirror_id.
  unfold rebuildNestedSetFor.
  change (List.map mirror es) with (mirror <$> es).
  destruct (rebuildNestedSet (mirror <$> es)) as [ms|ids|] eqn:Hr; [|by eauto|].
  2: { by apply rebuild_total in Hr. }
  apply rebuilt_final in Hr as [-> _]; [|done].
  pose proof (final_shape (mirror <$> es)) as Hs.
  set (ms := nodes_of (final (mirror <$> es))) in *.
  change (List.map (write_back (mirrors_by_id ms)) es)
    with (write_back (mirrors_by_id ms) <$> es).
  assert (NoDup (id <$> ms)) as Hndm.
  { apply (f_equal (fmap fst)) in Hs. unfold shape in Hs.
    rewrite <- !list_fmap_compose in Hs. change (fst ∘ _) with id in Hs.
    by rewrite Hs. }
  assert (∀ i e, es !! i = Some e → ∃ m, ms !! i = Some m ∧
    mirror (write_back (mirrors_by_id ms) e) = m ∧
    write_back (mirrors_by_id ms) e = ent_put (lft m) (rgt m) e) as Hrow.
  { intros i e Hi. destruct (shape_lookup (mirror <$> es) ms i (mirror e)) as (m & Hm & Hid & Hp);
      [done|by rewrite list_lookup_fmap, Hi|].
    exists m. split; [done|]. apply mirror_write_back; [done| |done..].
    by eapply list_elem_of_lookup_2. }
  split.
  - f_equal. apply list_eq. intros i. rewrite <- list_fmap_compose, list_lookup_fmap.
    destruct (es !! i) as [e|] eqn:Hi; simpl.
    + destruct (Hrow i e Hi) as (m & -> & Hm & _). by rewrite Hm.
    + apply (f_equal length) in Hs. unfold shape in Hs. rewrite !length_fmap in Hs.
      apply lookup_ge_None. rewrite Hs. by apply lookup_ge_None.
  - apply list_eq. intros i. rewrite !list_lookup_fmap, lookup_zip_with, !list_lookup_fmap.
    destruct (es !! i) as [e|] eqn:Hi; simpl; [|done].
    destruct (Hrow i e Hi) as (m & _ & Hm & Hput). f_equal.
    rewrite Hput at 1. by rewrite <- Hm.
Qed.

(** The wrapper for arbitrary entities computes the same bounds as the
    walk over plain nodes, changes nothing but the two columns of each row,
    and throws exactly when the plain rebuild reports orphans. *)
Theorem rebuildFor_refines es (Huniq : NoDup (ent_id <$> es)) :
  match rebuildNestedSetFor es with
  | Ok es' => rebuildNestedSet (mirror <$> es) = Rebuilt (mirror <$> es') ∧
      es' = (λ e', ent_put (ent_lft e'.2) (ent_rgt e'.2) e'.1) <$> zip es es'
  | Throw e => ∃ ids, rebuildNestedSet (mirror <$> es) = Orphans ids ∧
      e = PlainError (orphan_message ids)
  end.
Proof. exact (rebuildFor_spec es Huniq). Qed.
End wrapper.

(** ** Witnesses *)

#[export] Instance node_entity : TreeEntity node := {
  ent_id := id; ent_parent := parentId; ent_lft := lft; ent_rgt := rgt;
  ent_put l r n := set_rgt r (set_lft l n);
}.
#[export] Instance node_entity_laws : TreeEntityLaws node.
Proof. by split. Qed.

Definition sample_tree : list node :=
  [Node "b" (Some "a") 0 0; Node "a" None 0 0; Node "c" (Some "a") 0 0; Node "d" (Some "b") 0 0].

Lemma rebuild_outcome_witness :
  NoDup (id <$> sample_tree) ∧
  match rebuildNestedSet sample_tree with
  | Rebuilt nodes' => ∀ n, n ∈ sample_tree → rooted sample_tree (id n)
  | Orphans ids => ids ≠ [] ∧
      ∀ s, s ∈ ids ↔ s ∈ id <$> sample_tree ∧ ¬ rooted sample_tree s
  | StackOverflow => False
  end.
Proof.
  assert (NoDup (id <$> sample_tree)) as Hnd by (apply (bool_decide_unpack _); vm_compute; exact I).
  split; [exact Hnd|]. exact (rebuild_outcome sample_tree Hnd).
Defined.

Lemma rebuild_nested_witness :
  ∃ nodes', rebuildNestedSet sample_tree = Rebuilt nodes' ∧ shape nodes' = shape sample_tree.
Proof.
  assert (NoDup (id <$> sample_tree)) as Hnd by (apply (bool_decide_unpack _); vm_compute; exact I).
  eexists. split; [vm_compute; reflexivity|].
  exact (proj1 (rebuild_nested sample_tree _ Hnd ltac:(vm_compute; reflexivity))).
Defined.

Lemma rebuild_numbering_witness :
  ∃ nodes', rebuildNestedSet sample_tree = Rebuilt nodes' ∧
    (lft <$> nodes') ++ (rgt <$> nodes') ≡ₚ seqZ 1 8.
Proof.
  assert (NoDup (id <$> sample_tree)) as Hnd by (apply (bool_decide_unpack _); vm_compute; exact I).
  eexists. split; [vm_compute; reflexivity|].
  exact (rebuild_numbering sample_tree _ Hnd ltac:(vm_compute; reflexivity)).
Defined.

Lemma rebuildFor_refines_witness :
  NoDup (ent_id <$> sample_tree) ∧
  match rebuildNestedSetFor sample_tree with
  | Ok es' => rebuildNestedSet (mirror <$> sample_tree) = Rebuilt (mirror <$> es') ∧
      es' = (λ e', ent_put (ent_lft e'.2) (ent_rgt e'.2) e'.1) <$> zip sample_tree es'
  | Throw e => ∃ ids, rebuildNestedSet (mirror <$> sample_tree) = Orphans ids ∧
      e = PlainError (orphan_message ids)
  end.
Proof.
  assert (NoDup (ent_id <$> sample_tree)) as Hnd
    by (apply (bool_decide_unpack _); vm_compute; exact I).
  split; [exact Hnd|]. exact (rebuildFor_refines sample_tree Hnd).
Defined.
