(* ===== verification/Repo.v ===== *)
(** * The database interface

    What the services rely on of TypeORM and Postgres, which are not part of
    this repository: a table is a value of an abstract type [T R] holding rows
    of type [R], and the statements the services issue are the operations of
    [Database], with the documented behaviour of SQL as [DatabaseLaws].  A
    query without [ORDER BY] may return its rows in any order, so every law is
    up to permutation.  The instance for lists shows the laws can hold and
    lets the witnesses run.

    TypeORM adds [deleted_at IS NULL] to every [find]/[findOne]/[count]/
    [preload] of an entity with a [@DeleteDateColumn] (every entity extending
    [BaseEntity], src/libs/common/src/abstracts/base-entity.abstract.ts), but
    not to [update] and [delete]: [repo_find] is the former. *)

From S2P Require Import Prelude JsString.

Class Database (T : Type → Type) := {
  rows : ∀ {R}, T R → list R;
  (** [SELECT * FROM t WHERE p] *)
  db_select : ∀ {R}, (R → bool) → T R → list R;
  (** [INSERT INTO t VALUES r] *)
  db_insert : ∀ {R}, R → T R → T R;
  (** [UPDATE t SET f WHERE p], with the number of rows affected *)
  db_update : ∀ {R}, (R → bool) → (R → R) → T R → T R * nat;
  (** [DELETE FROM t WHERE p], with the number of rows affected *)
  db_delete : ∀ {R}, (R → bool) → T R → T R * nat;
}.

Class DatabaseLaws (T : Type → Type) `{Database T} := {
  select_rows {R} (p : R → bool) (t : T R) : db_select p t ≡ₚ List.filter p (rows t);
  insert_rows {R} (r : R) (t : T R) : rows (db_insert r t) ≡ₚ r :: rows t;
  update_rows {R} (p : R → bool) (f : R → R) (t : T R) :
    rows (db_update p f t).1 ≡ₚ List.map (λ r, if p r then f r else r) (rows t);
  update_affected {R} (p : R → bool) (f : R → R) (t : T R) :
    (db_update p f t).2 = length (List.filter p (rows t));
  delete_rows {R} (p : R → bool) (t : T R) :
    rows (db_delete p t).1 ≡ₚ List.filter (λ r, negb (p r)) (rows t);
  delete_affected {R} (p : R → bool) (t : T R) :
    (db_delete p t).2 = length (List.filter p (rows t));
}.

#[export] Instance list_database : Database list := {
  rows _ t := t;
  db_select _ p t := List.filter p t;
  db_insert _ r t := t ++ [r];
  db_update _ p f t := (List.map (λ r, if p r then f r else r) t, length (List.filter p t));
  db_delete _ p t := (List.filter (λ r, negb (p r)) t, length (List.filter p t));
}.
#[export] Instance list_database_laws : DatabaseLaws list.
Proof. split; intros; simpl; try done. by rewrite Permutation_app_comm. Qed.

(** ** Callers

    [IUserSession | string]: the session's id may be null. *)
Inductive current_user :=
  | UserId (u : string)
  | UserSession (session_id : option string).
Definition user_id (u : current_user) : option string :=
  match u with UserId u => Some u | UserSession i => i end.

(** ** Entities: primary key and soft-delete column *)

Class Entity (R : Type) := {
  pk : R → string;
  deleted_at : R → option Z;   (* the [@DeleteDateColumn], a time *)
}.

Definition not_deleted {R} `{Entity R} (r : R) : bool :=
  match deleted_at r with None => true | Some _ => false end.

Section repository.
Context {T : Type → Type} `{Database T} {R : Type} `{Entity R}.

Definition repo_find (p : R → bool) (t : T R) : list R :=
  db_select (λ r, p r && not_deleted r) t.
Definition repo_findOne (p : R → bool) (t : T R) : option R := head (repo_find p t).
Definition repo_count (p : R → bool) (t : T R) : nat := length (repo_find p t).
Definition has_pk (k : string) (r : R) : bool := String.eqb (pk r) k.
Definition repo_findById (k : string) (t : T R) : option R := repo_findOne (has_pk k) t.
(** [repo.save(e)] of an entity loaded from the table: its row is rewritten. *)
Definition repo_save (e : R) (t : T R) : T R := (db_update (has_pk (pk e)) (λ _, e) t).1.
Definition repo_saveAll (es : list R) (t : T R) : T R := foldl (λ t e, repo_save e t) t es.
End repository.

Lemma NoDup_pk_filter {R} `{Entity R} (f : R → bool) (l : list R) :
  NoDup (pk <$> l) → NoDup (pk <$> List.filter f l).
Proof.
  induction l as [|r l IH]; [done|]. rewrite fmap_cons. intros [Hnot Hnd]%NoDup_cons. simpl.
  destruct (f r); [|auto]. rewrite fmap_cons. apply NoDup_cons. split; [|auto].
  intros (q & Hq & [Hin _]%elem_of_List_filter)%list_elem_of_fmap.
  apply Hnot. rewrite Hq. by apply list_elem_of_fmap_2.
Qed.

Section laws.
Context {T : Type → Type} `{DatabaseLaws T} {R : Type} `{Entity R}.
Implicit Types (t : T R).

Lemma elem_of_repo_find p t r :
  r ∈ repo_find p t ↔ r ∈ rows t ∧ p r = true ∧ deleted_at r = None.
Proof.
  unfold repo_find, not_deleted. rewrite select_rows, elem_of_List_filter, andb_true_iff.
  destruct (deleted_at r); naive_solver.
Qed.

Lemma repo_findOne_Some p t r :
  repo_findOne p t = Some r → r ∈ rows t ∧ p r = true ∧ deleted_at r = None.
Proof. intros Hh%head_Some_elem_of. by apply elem_of_repo_find. Qed.

Lemma repo_findOne_None p t :
  repo_findOne p t = None → ∀ r, r ∈ rows t → p r = true → deleted_at r ≠ None.
Proof.
  intros Hh r Hr Hp Hd. assert (r ∈ repo_find p t) as Hin by by apply elem_of_repo_find.
  unfold repo_findOne in Hh. destruct (repo_find p t); [set_solver|done].
Qed.

Lemma has_pk_true k (r : R) : has_pk k r = true ↔ pk r = k.
Proof. apply String.eqb_eq. Qed.

Lemma repo_save_pks e t : pk <$> rows (repo_save e t) ≡ₚ pk <$> rows t.
Proof.
  unfold repo_save. rewrite update_rows.
  change (List.map ?f ?l) with (f <$> l). rewrite <- list_fmap_compose.
  enough ((pk ∘ (λ r, if has_pk (pk e) r then e else r)) <$> rows t = pk <$> rows t) as -> by done.
  apply list_fmap_ext. intros i r _. simpl. destruct (has_pk (pk e) r) eqn:Hk; [|done].
  symmetry. by apply has_pk_true.
Qed.
Lemma repo_saveAll_pks es t : pk <$> rows (repo_saveAll es t) ≡ₚ pk <$> rows t.
Proof.
  revert t. induction es as [|e es IH]; intros t; simpl; [done|]. by rewrite IH, repo_save_pks.
Qed.

Lemma elem_of_repo_save e t r :
  r ∈ rows (repo_save e t) ↔ (r ∈ rows t ∧ pk r ≠ pk e) ∨ (r = e ∧ pk e ∈ pk <$> rows t).
Proof.
  unfold repo_save. rewrite update_rows, elem_of_List_map, list_elem_of_fmap. split.
  - intros (q & Hq & ->). destruct (has_pk (pk e) q) eqn:Hk.
    + apply has_pk_true in Hk. right. eauto.
    + left. split; [done|]. intros Heq%has_pk_true. congruence.
  - intros [[Hr Hne]|[-> (q & Hq & Hin)]].
    + exists r. split; [done|]. destruct (has_pk (pk e) r) eqn:Hk; [|done].
      by apply has_pk_true in Hk.
    + exists q. split; [done|]. destruct (has_pk (pk e) q) eqn:Hk; [done|].
      symmetry in Hq. apply has_pk_true in Hq. congruence.
Qed.

(** Saving a batch of entities with distinct keys: a row with one of the keys
    becomes the saved entity, the others are kept. *)
Lemma elem_of_repo_saveAll es t r :
  NoDup (pk <$> es) →
  r ∈ rows (repo_saveAll es t) ↔
    (r ∈ rows t ∧ pk r ∉ pk <$> es) ∨ (r ∈ es ∧ pk r ∈ pk <$> rows t).
Proof.
  revert t. induction es as [|e es IH]; intros t; simpl; [set_solver|].
  intros [Hnot Hnd]%NoDup_cons. rewrite IH by done. rewrite elem_of_repo_save.
  assert (pk r ∈ pk <$> rows (repo_save e t) ↔ pk r ∈ pk <$> rows t) as ->
    by by rewrite repo_save_pks.
  rewrite !elem_of_cons. split.
  - intros [[[[??]|[-> ?]] ?]|[? ?]]; [left; set_solver|right; set_solver|right; set_solver].
  - intros [[??]|[[->|?] ?]]; [left; set_solver|left; set_solver|right; set_solver].
Qed.
End laws.
