(* ===== verification/DbErrors.v ===== *)
(** * Database errors

    How a driver error becomes an HTTP exception: the central wrapper
    [BaseServiceOperations.executeDbOperation]
    (src/libs/common/src/utils/base-operations/base-service-operations.util.ts)
    and its stand-alone twin [PostgresErrorMapper]
    (src/libs/common/src/utils/http-exception/postgres-error-mapper.util.ts).
    Logging is not modelled. *)

From S2P Require Import Prelude JsString.
#[local] Open Scope string_scope.

(** ** The regular expressions of the module *)

(** [/Key \(([^)]+)\)=/]: group 1 of the leftmost match. *)
Definition key_columns_here (s : string) : option string :=
  match drop_prefix "Key (" s with
  | None => None
  | Some rest =>
      let '(cols, rest') := span (λ c, negb (Ascii.eqb c ")")) rest in
      match cols, drop_prefix ")=" rest' with
      | String _ _, Some _ => Some cols
      | _, _ => None
      end
  end.
Fixpoint match_key_columns (s : string) : option string :=
  match key_columns_here s with
  | Some cols => Some cols
  | None => match s with "" => None | String _ s' => match_key_columns s' end
  end.

(** [/is still referenced from table "(\w+)"/] *)
Definition quote : string := String (ascii_of_nat 34) "".
Definition referenced_table_here (s : string) : option string :=
  match drop_prefix ("is still referenced from table " +:+ quote) s with
  | None => None
  | Some rest =>
      let '(tbl, rest') := span is_word rest in
      match tbl, drop_prefix quote rest' with
      | String _ _, Some _ => Some tbl
      | _, _ => None
      end
  end.
Fixpoint match_referenced_table (s : string) : option string :=
  match referenced_table_here s with
  | Some tbl => Some tbl
  | None => match s with "" => None | String _ s' => match_referenced_table s' end
  end.

(** [s.replace(/^fk_.*?_/, '')]: [.] does not match a line break. *)
Definition strip_fk_prefix (s : string) : string :=
  match drop_prefix "fk_" s with
  | None => s
  | Some rest =>
      let stop c := Ascii.eqb c "_" || Nat.eqb (code c) 10 || Nat.eqb (code c) 13 in
      match (span (λ c, negb (stop c)) rest).2 with
      | String "_" rest' => rest'
      | _ => s
      end
  end.

Definition underscores_to_spaces : string → string := replace_char "_" " ".

(** ** The messages *)

(** The columns of a unique violation, ["a, b_c"] → ["a and b c"]. *)
Definition column_list (cols : string) : string :=
  join " and " (List.map (λ c, underscores_to_spaces (trim c)) (split "," cols)).

Definition with_code (status : Z) (code message : string) : exn :=
  HttpException status (Some code) message None.

(** [switch (driverError?.code)] *)
Definition code_is (err : driver_error) (c : string) : bool :=
  match de_code err with Some c' => String.eqb c' c | None => false end.

(** ** [executeDbOperation] *)
Module ExecuteDb.
Definition unique_violation (err : driver_error) : exn :=
  let columnMatch :=
    match de_detail err with Some d => match_key_columns d | None => None end in
  let errorMessage :=
    match columnMatch with
    | Some cols => "A record with this " +:+ column_list cols +:+ " already exists."
    | None => "A record with the provided details already exists."
    end in
  with_code 409 "23505" errorMessage.

Definition foreign_key_violation (tableName : string) (err : driver_error) : exn :=
  let fkDetail := default "" (de_detail err) in
  let fkTable := default tableName (de_table err) in
  if str_includes fkDetail "is still referenced from table" then
    let friendlyTable :=
      match match_referenced_table fkDetail with
      | Some tbl => underscores_to_spaces tbl
      | None => "another record"
      end in
    with_code 409 "23503"
      ("Cannot delete this " +:+ underscores_to_spaces fkTable
       +:+ " because it is still referenced by " +:+ friendlyTable +:+ ".")
  else
    with_code 400 "23503"
      match de_constraint err with
      | Some c => "Invalid reference for '" +:+ underscores_to_spaces (strip_fk_prefix c)
                  +:+ "'. The referenced record does not exist."
      | None => "Invalid reference to another record. Please check your input."
      end.

Definition not_null_violation (err : driver_error) : exn :=
  with_code 400 "23502"
    match de_column err with
    | Some c => "Required field '" +:+ c +:+ "' cannot be empty."
    | None => "A required field was left empty. Please check your input."
    end.

Definition invalid_text : exn :=
  with_code 400 "22P02" "Invalid format for a field. Please check your input.".
Definition string_too_long : exn :=
  with_code 400 "22001"
    "The value provided for a field is too long. Please shorten the input.".

Definition unknown_error (tableName : string) (err : driver_error) : exn :=
  HttpException 500 (Some (default "DATABASE_ERROR" (de_code err)))
    ("Database error (" +:+ default "UNKNOWN" (de_code err) +:+ ") on table "
     +:+ tableName +:+ ": " +:+ default "Unknown error" (de_message err))
    (de_detail err).

Definition map_query_error (tableName : string) (err : driver_error) : exn :=
  if code_is err "23505" then unique_violation err
  else if code_is err "23503" then foreign_key_violation tableName err
  else if code_is err "23502" then not_null_violation err
  else if code_is err "22P02" then invalid_text
  else if code_is err "22001" then string_too_long
  else unknown_error tableName err.

(** The [catch] block. *)
Definition map_error (tableName : string) (e : exn) : exn :=
  match e with
  | EntityPropertyNotFoundError m => with_code 400 "INVALID_PROPERTY" m
  | OptimisticLockVersionMismatchError =>
      with_code 409 "OPTIMISTIC_LOCK_CONFLICT"
        ("The record was modified by another user. Please refresh and try again. "
         +:+ "Conflicting table: " +:+ tableName)
  | QueryFailedError err => map_query_error tableName err
  | _ => e
  end.

Definition executeDbOperation {A} (tableName : string) (operation : result A) : result A :=
  match operation with
  | Ok a => Ok a
  | Throw e => Throw (map_error tableName e)
  end.
End ExecuteDb.

(** ** [PostgresErrorMapper] *)
Module PostgresErrorMapper.
Definition handleUniqueViolation (err : driver_error) : exn :=
  let columnMatch := de_detail err ≫= match_key_columns in
  let message :=
    match columnMatch with
    | Some cols =>
        "A record with this "
        +:+ join " and " (List.map (λ c, replace_char "_" " " (trim c)) (split "," cols))
        +:+ " already exists."
    | None => "A record with the provided details already exists."
    end in
  HttpException 409 (Some "23505") message None.

Definition handleForeignKeyViolation (tableName : string) (err : driver_error) : exn :=
  let fkTable := match de_table err with Some t => t | None => tableName end in
  let fkDetail := match de_detail err with Some d => d | None => "" end in
  if str_includes fkDetail "is still referenced from table" then
    let referencedTable :=
      default "another record" (replace_char "_" " " <$> match_referenced_table fkDetail) in
    HttpException 409 (Some "23503")
      ("Cannot delete this " +:+ replace_char "_" " " fkTable
       +:+ " because it is still referenced by " +:+ referencedTable +:+ ".") None
  else
    let message :=
      match de_constraint err with
      | Some c => "Invalid reference for '" +:+ replace_char "_" " " (strip_fk_prefix c)
                  +:+ "'. The referenced record does not exist."
      | None => "Invalid reference to another record. Please check your input."
      end in
    HttpException 400 (Some "23503") message None.

Definition handleNotNullViolation (err : driver_error) : exn :=
  let message :=
    match de_column err with
    | Some c => "Required field '" +:+ c +:+ "' cannot be empty."
    | None => "A required field was left empty. Please check your input."
    end in
  HttpException 400 (Some "23502") message None.

Definition handleInvalidTextRepresentation : exn :=
  HttpException 400 (Some "22P02")
    "Invalid format for a field. Please check your input." None.
Definition handleStringTooLong : exn :=
  HttpException 400 (Some "22001")
    "The value provided for a field is too long. Please shorten the input." None.
Definition handleUnknown (tableName : string) (err : driver_error) : exn :=
  HttpException 500
    (Some match de_code err with Some c => c | None => "DATABASE_ERROR" end)
    ("Database error (" +:+ match de_code err with Some c => c | None => "UNKNOWN" end
     +:+ ") on table " +:+ tableName +:+ ": "
     +:+ match de_message err with Some m => m | None => "Unknown error" end)
    (de_detail err).

Definition map (tableName : string) (err : driver_error) : exn :=
  if code_is err "23505" then handleUniqueViolation err
  else if code_is err "23503" then handleForeignKeyViolation tableName err
  else if code_is err "23502" then handleNotNullViolation err
  else if code_is err "22P02" then handleInvalidTextRepresentation
  else if code_is err "22001" then handleStringTooLong
  else handleUnknown tableName err.
End PostgresErrorMapper.

(** ** Properties *)

(** The HTTP status of an exception. *)
Definition status_of (e : exn) : option Z :=
  match e with
  | HttpException s _ _ _ => Some s
  | InvalidParameterException _ => Some 400%Z
  | _ => None
  end.

Definition client_fault_codes : list string := ["23503"; "23502"; "22P02"; "22001"].

Lemma executeDb_passes_http {A} tbl s c m d :
  ExecuteDb.executeDbOperation (A := A) tbl (Throw (HttpException s c m d))
  = Throw (HttpException s c m d).
Proof. done. Qed.

Lemma executeDb_Ok {A} tbl (m : result A) a :
  ExecuteDb.executeDbOperation tbl m = Ok a ↔ m = Ok a.
Proof. by destruct m. Qed.

(** The mapper class that was extracted from the wrapper still agrees with
    it on every driver error. *)
Theorem mapper_agrees_with_wrapper (tableName : string) (err : driver_error) :
  PostgresErrorMapper.map tableName err = ExecuteDb.map_query_error tableName err.
Proof.
  unfold PostgresErrorMapper.map, ExecuteDb.map_query_error.
  assert (PostgresErrorMapper.handleUnknown tableName err = ExecuteDb.unknown_error tableName err)
    as Hunk by (unfold PostgresErrorMapper.handleUnknown, ExecuteDb.unknown_error; by destruct (de_code err)).
  assert (PostgresErrorMapper.handleForeignKeyViolation tableName err
          = ExecuteDb.foreign_key_violation tableName err) as Hfk.
  { unfold PostgresErrorMapper.handleForeignKeyViolation, ExecuteDb.foreign_key_violation.
    unfold from_option, id, with_code, underscores_to_spaces.
    by destruct (match_referenced_table _), (de_constraint err). }
  rewrite Hunk, Hfk. destruct (de_code err); reflexivity.
Qed.

(** The status the API promises for each Postgres error code. *)
Definition expected_status (err : driver_error) : Z :=
  if code_is err "23505" then 409
  else if code_is err "23503" && str_includes (default "" (de_detail err))
                                   "is still referenced from table" then 409
  else if existsb (code_is err) client_fault_codes then 400 else 500.

(** C39: no driver-level exception leaves the wrapper: a failed query surfaces as
    an HTTP exception with status 409 for a unique violation or a blocked
    delete, 400 for the other client faults and 500 otherwise; a stale version
    is a 409, an unknown property a 400, and an exception the operation itself
    threw is passed on unchanged. *)
Theorem executeDb_status {A} (tableName : string) (e : exn) :
  ∃ e', ExecuteDb.executeDbOperation (A := A) tableName (Throw e) = Throw e' ∧
    match e with
    | QueryFailedError err => status_of e' = Some (expected_status err)
    | EntityPropertyNotFoundError _ => status_of e' = Some 400%Z
    | OptimisticLockVersionMismatchError => status_of e' = Some 409%Z
    | _ => e' = e
    end.
Proof.
  eexists. split; [reflexivity|]. destruct e as [| |err| | |]; try done.
  simpl. unfold ExecuteDb.map_query_error, expected_status, client_fault_codes,
    ExecuteDb.foreign_key_violation. simpl.
  destruct (code_is err "23505"), (code_is err "23503"), (code_is err "23502"),
    (code_is err "22P02"), (code_is err "22001"),
    (str_includes (default "" (de_detail err)) "is still referenced from table"); reflexivity.
Qed.

(** The message of a unique violation names exactly the columns Postgres
    reports in its detail text, with underscores as spaces, joined by "and". *)
Theorem unique_message_columns (tableName cols rest : string) (err : driver_error)
    (Hcode : de_code err = Some "23505")
    (Hdetail : de_detail err = Some ("Key (" +:+ cols +:+ ")=" +:+ rest))
    (Hne : cols ≠ "") (Hparen : str_forall (λ c, negb (Ascii.eqb c ")")) cols = true) :
  ExecuteDb.map_query_error tableName err =
    HttpException 409 (Some "23505")
      ("A record with this "
       +:+ join " and " (List.map (λ c, underscores_to_spaces (trim c)) (split "," cols))
       +:+ " already exists.") None.
Proof.
  unfold ExecuteDb.map_query_error, ExecuteDb.unique_violation, code_is.
  rewrite Hcode, Hdetail, String.eqb_refl.
  enough (match_key_columns ("Key (" +:+ cols +:+ ")=" +:+ rest) = Some cols) as -> by done.
  enough (key_columns_here ("Key (" +:+ cols +:+ ")=" +:+ rest) = Some cols) as H.
  { set (d := "Key (" +:+ cols +:+ ")=" +:+ rest) in *. clearbody d.
    destruct d; cbn [match_key_columns]; by rewrite H. }
  unfold key_columns_here. rewrite drop_prefix_app.
  change (")=" +:+ rest) with (String ")" ("=" +:+ rest)).
  rewrite (span_app _ cols ")" ("=" +:+ rest)) by done.
  change (String ")" ("=" +:+ rest)) with (")=" +:+ rest). rewrite drop_prefix_app.
  by destruct cols.
Qed.

Lemma unique_message_columns_witness :
  ∃ err, de_code err = Some "23505" ∧
    ExecuteDb.map_query_error "roles" err =
      HttpException 409 (Some "23505") "A record with this code already exists." None.
Proof.
  exists (DriverError (Some "23505") None (Some "Key (code)=(ADMIN) already exists.")
            None None (Some "uq_roles_code") None).
  split; [reflexivity|].
  exact (unique_message_columns "roles" "code" "(ADMIN) already exists."
           (DriverError (Some "23505") None (Some "Key (code)=(ADMIN) already exists.")
              None None (Some "uq_roles_code") None)
           eq_refl eq_refl ltac:(discriminate) eq_refl).
Defined.
