(* ===== verification/TreeService.v ===== *)
(** * Tree tables: warehouses and item groups

    Model of [WarehousesService] and [ItemGroupsService]
    (src/apps/inventory-bc/src/modules/{warehouse,item-group}/services): the
    create, update and delete operations of a nested-set tree table.  The two
    services are the same code up to the entity and the wording of the errors,
    so the operations are written once over [tree_messages] and instantiated in
    the modules [Warehouses] and [ItemGroups].

    A transaction is a computation on the table that may throw; when it throws,
    the database rolls back, so the caller keeps the old table. *)

From S2P Require Import Prelude JsString NestedSet Repo DbErrors.
#[local] Open Scope string_scope.

(** ** Rows

    [extra] is the part of the row only one of the tables has (the warehouse
    type). *)
Record tree_row (X : Type) := TreeRow {
  tr_id : string;
  name_th : string;
  name_en : string;
  extra : X;
  is_group : bool;
  parent : option string;
  tr_lft : Z;
  tr_rgt : Z;
  created_by : option string;
  updated_by : option string;
  is_deleted : bool;
  tr_deleted_at : option Z;
  deleted_by : option string;
}.
Arguments TreeRow {X}. Arguments tr_id {X}. Arguments name_th {X}. Arguments name_en {X}.
Arguments extra {X}. Arguments is_group {X}. Arguments parent {X}. Arguments tr_lft {X}.
Arguments tr_rgt {X}. Arguments created_by {X}. Arguments updated_by {X}.
Arguments is_deleted {X}. Arguments tr_deleted_at {X}. Arguments deleted_by {X}.

#[export] Instance tree_row_entity X : Entity (tree_row X) :=
  { pk := tr_id; deleted_at := tr_deleted_at }.

Definition put_bounds {X} (l r : Z) (e : tree_row X) : tree_row X :=
  TreeRow (tr_id e) (name_th e) (name_en e) (extra e) (is_group e) (parent e) l r
    (created_by e) (updated_by e) (is_deleted e) (tr_deleted_at e) (deleted_by e).

#[export] Instance tree_row_tree X : TreeEntity (tree_row X) :=
  { ent_id := tr_id; ent_parent := parent; ent_lft := tr_lft; ent_rgt := tr_rgt;
    ent_put := put_bounds }.
#[export] Instance tree_row_tree_laws X : TreeEntityLaws (tree_row X).
Proof. by split. Qed.

(** [CreateWarehouseDTO] / [CreateItemGroupDTO] *)
Record create_dto (X : Type) := CreateDTO {
  c_name_th : string; c_name_en : string; c_extra : X; c_is_group : bool;
  c_parent : option string;
}.
Arguments CreateDTO {X}. Arguments c_name_th {X}. Arguments c_name_en {X}.
Arguments c_extra {X}. Arguments c_is_group {X}. Arguments c_parent {X}.

(** The partial DTO of an update: [None] is an absent ([undefined]) field; the
    parent may be present and null. *)
Record update_dto (X : Type) := UpdateDTO {
  u_name_th : option string; u_name_en : option string; u_extra : option X;
  u_is_group : option bool; u_parent : option (option string);
}.
Arguments UpdateDTO {X}. Arguments u_name_th {X}. Arguments u_name_en {X}.
Arguments u_extra {X}. Arguments u_is_group {X}. Arguments u_parent {X}.

(** The wording that differs between the two services. *)
Record tree_messages := TreeMessages {
  table_name : string;
  m_parent_missing : string → string;
  m_leaf_parent : string;
  m_own_parent : string;
  m_not_found : string → string;
  m_has_children : string;
}.

Section operations.
Context {T : Type → Type} `{Database T} {X : Type} (M : tree_messages).
Abbreviation row := (tree_row X).

Definition live_id (k : string) (r : row) : bool := has_pk k r && negb (is_deleted r).

Definition assertValidParent (t : T row) (parentId : string) : result unit :=
  match repo_findOne (live_id parentId) t with
  | None => Throw (BadRequestException (m_parent_missing M parentId))
  | Some p => if is_group p then Ok tt else Throw (BadRequestException (m_leaf_parent M))
  end.

Definition rebuildTree (t : T row) : result (T row) :=
  let nodes := repo_find (λ r, negb (is_deleted r)) t in
  let! nodes' := rebuildNestedSetFor nodes in
  Ok (repo_saveAll nodes' t).

(** [repo.findOneOrFail] *)
Definition findOneOrFail (k : string) (t : T row) : result row :=
  match repo_findById k t with
  | Some r => Ok r
  | None => Throw (PlainError "EntityNotFoundError")
  end.

(** [repo.create({ ...data, lft: 0, rgt: 0 })] with the id the database
    generates and the audit columns. *)
Definition new_row (fresh : string) (data : create_dto X) (u : option current_user) : row :=
  let by_ := match u with Some u => user_id u | None => None end in
  TreeRow fresh (c_name_th data) (c_name_en data) (c_extra data) (c_is_group data)
    (c_parent data) 0 0 by_ by_ false None None.

Definition create_tx (fresh : string) (data : create_dto X) (u : option current_user)
    (t : T row) : result (row * T row) :=
  let! _ := match c_parent data with
            | Some p => if String.eqb p "" then Ok tt else assertValidParent t p
            | None => Ok tt
            end in
  let saved := new_row fresh data u in
  let! t' := rebuildTree (db_insert saved t) in
  let! r := findOneOrFail (tr_id saved) t' in
  Ok (r, t').

(** [repo.preload({ id, ...data, updated_by })]: the loaded row with the
    present fields replaced. *)
Definition merge (data : update_dto X) (u : option current_user) (r : row) : row :=
  TreeRow (tr_id r)
    (default (name_th r) (u_name_th data)) (default (name_en r) (u_name_en data))
    (default (extra r) (u_extra data)) (default (is_group r) (u_is_group data))
    (default (parent r) (u_parent data)) (tr_lft r) (tr_rgt r) (created_by r)
    (match u with Some u => user_id u | None => updated_by r end)
    (is_deleted r) (tr_deleted_at r) (deleted_by r).

Definition update_tx (k : string) (data : update_dto X) (u : option current_user)
    (t : T row) : result (row * T row) :=
  let! _ := match u_parent data with
            | Some (Some p) =>
                if String.eqb p k then Throw (BadRequestException (m_own_parent M))
                else assertValidParent t p
            | _ => Ok tt
            end in
  match repo_findById k t with
  | None => Throw (NotFoundException (m_not_found M k))
  | Some e =>
      let! t' := rebuildTree (repo_save (merge data u e) t) in
      let! r := findOneOrFail k t' in
      Ok (r, t')
  end.

Definition mark_deleted (now : Z) (u : option current_user) (r : row) : row :=
  TreeRow (tr_id r) (name_th r) (name_en r) (extra r) (is_group r) (parent r)
    (tr_lft r) (tr_rgt r) (created_by r) (updated_by r) true (Some now)
    (match u with Some u => user_id u | None => deleted_by r end).

Definition child_of (k : string) (r : row) : bool :=
  bool_decide (parent r = Some k) && negb (is_deleted r).

Definition delete_tx (now : Z) (k : string) (softDelete : bool) (u : option current_user)
    (t : T row) : result (T row) :=
  if (0 <? repo_count (child_of k) t)%nat
  then Throw (BadRequestException (m_has_children M))
  else
    let '(t', affected) :=
      if softDelete then db_update (has_pk k) (mark_deleted now u) t
      else db_delete (has_pk k) t in
    if (affected =? 0)%nat then Throw (NotFoundException (m_not_found M k))
    else rebuildTree t'.

Definition tree_create fresh data u t :=
  ExecuteDb.executeDbOperation (table_name M) (create_tx fresh data u t).
Definition tree_update k data u t :=
  ExecuteDb.executeDbOperation (table_name M) (update_tx k data u t).
Definition tree_delete now k softDelete u t :=
  ExecuteDb.executeDbOperation (table_name M) (delete_tx now k softDelete u t).
End operations.

(** ** The two services *)

Inductive WarehouseType := STOCK | TRANSIT | REJECT.

Definition quoted (s : string) : string := "'" +:+ s +:+ "'".

Module Warehouses.
Definition messages : tree_messages := {|
  table_name := "warehouses";
  m_parent_missing p := "Parent warehouse " +:+ quoted p +:+ " not found.";
  m_leaf_parent := "Cannot attach a child warehouse to a leaf (is_group=false) parent.";
  m_own_parent := "A warehouse cannot be its own parent.";
  m_not_found k := "Warehouse with ID " +:+ quoted k +:+ " not found.";
  m_has_children := "Cannot delete a warehouse that still has child warehouses.";
|}.
Definition create {T} `{Database T} := tree_create (T := T) (X := WarehouseType) messages.
Definition update {T} `{Database T} := tree_update (T := T) (X := WarehouseType) messages.
Definition delete {T} `{Database T} := tree_delete (T := T) (X := WarehouseType) messages.
End Warehouses.

Module ItemGroups.
Definition messages : tree_messages := {|
  table_name := "item_groups";
  m_parent_missing p := "Parent item group " +:+ quoted p +:+ " not found.";
  m_leaf_parent := "Cannot attach a child item group to a leaf (is_group=false) parent.";
  m_own_parent := "An item group cannot be its own parent.";
  m_not_found k := "ItemGroup with ID " +:+ quoted k +:+ " not found.";
  m_has_children := "Cannot delete an item group that still has child item groups.";
|}.
Definition create {T} `{Database T} := tree_create (T := T) (X := unit) messages.
Definition update {T} `{Database T} := tree_update (T := T) (X := unit) messages.
Definition delete {T} `{Database T} := tree_delete (T := T) (X := unit) messages.
End ItemGroups.

(** ** The table invariant *)
Section invariant.
Context {T : Type → Type} `{DatabaseLaws T} {X : Type}.
Abbreviation row := (tree_row X).
Implicit Types (t : T row) (r : row).

Definition live_rows t : list row := List.filter (λ r, negb (is_deleted r)) (rows t).

(** The ids are distinct and the two soft-delete columns agree. *)
Record table_wf t : Prop := {
  wf_uniq : NoDup (pk <$> rows t);
  wf_deleted r : r ∈ rows t → is_deleted r = false ↔ deleted_at r = None;
}.

(** The live rows form a forest, and their bounds are a nested set of it. *)
Record tree_ok t : Prop := {
  ok_wf : table_wf t;
  ok_rooted r : r ∈ live_rows t → rooted (mirror <$> live_rows t) (pk r);
  ok_bounds r : r ∈ live_rows t → (tr_lft r < tr_rgt r)%Z;
  ok_nested a x : a ∈ live_rows t → x ∈ live_rows t →
    ancestor (mirror <$> live_rows t) (pk a) (pk x) ↔
      (tr_lft a < tr_lft x)%Z ∧ (tr_rgt x < tr_rgt a)%Z;
}.

(** The part of a row a rebuild does not touch. *)
Definition unbounded r : row := put_bounds 0 0 r.

Lemma elem_of_live t r : r ∈ live_rows t ↔ r ∈ rows t ∧ is_deleted r = false.
Proof. unfold live_rows. rewrite elem_of_List_filter, negb_true_iff. done. Qed.

Lemma live_found t r :
  table_wf t → r ∈ repo_find (λ r, negb (is_deleted r)) t ↔ r ∈ live_rows t.
Proof.
  intros Hwf. rewrite elem_of_repo_find, elem_of_live, negb_true_iff.
  split; [naive_solver|]. intros [Hr Hd]. by rewrite <- (wf_deleted t Hwf r Hr).
Qed.

Lemma row_unique t r q : table_wf t → r ∈ rows t → q ∈ rows t → pk r = pk q → r = q.
Proof.
  intros Hwf [i Hi]%list_elem_of_lookup [j Hj]%list_elem_of_lookup Heq.
  assert (i = j) as <-; [|congruence].
  apply (NoDup_lookup (pk <$> rows t) i j (pk r)); [by apply wf_uniq| |].
  - by rewrite list_lookup_fmap, Hi.
  - by rewrite list_lookup_fmap, Hj, Heq.
Qed.

Lemma NoDup_found (p : row → bool) t : NoDup (pk <$> rows t) → NoDup (pk <$> repo_find p t).
Proof.
  intros Hnd. unfold repo_find. rewrite select_rows.
  induction (rows t) as [|r l IH]; [constructor|]. rewrite fmap_cons in Hnd.
  apply NoDup_cons in Hnd as [Hnot Hnd]. simpl. destruct (p r && not_deleted r); [|auto].
  rewrite fmap_cons. apply NoDup_cons. split; [|auto]. intros (q & Hq & Hin)%list_elem_of_fmap.
  apply Hnot. apply list_elem_of_fmap. exists q. split; [done|].
  by apply elem_of_List_filter in Hin as [? _].
Qed.

Lemma unbounded_eq r q : unbounded r = unbounded q →
  pk r = pk q ∧ parent r = parent q ∧ is_deleted r = is_deleted q ∧
  deleted_at r = deleted_at q ∧ is_group r = is_group q.
Proof. unfold unbounded, put_bounds. intros [=]. done. Qed.

(** The wrapper keeps every row up to its bounds. *)
Lemma rebuilt_unbounded (es es' : list row) :
  rebuildNestedSet (mirror <$> es) = Rebuilt (mirror <$> es') →
  es' = (λ e', ent_put (ent_lft e'.2) (ent_rgt e'.2) e'.1) <$> zip es es' →
  NoDup (pk <$> es) → unbounded <$> es' = unbounded <$> es.
Proof.
  intros Hreb Hzip Hnd. apply rebuild_nested_spec in Hreb as (Hs & _); [|by rewrite mirror_id].
  apply (f_equal length) in Hs. unfold shape in Hs. rewrite !length_fmap in Hs.
  rewrite Hzip, <- list_fmap_compose.
  trans (unbounded <$> (fst <$> zip es es')).
  - rewrite <- list_fmap_compose. by apply list_fmap_ext.
  - rewrite fst_zip by lia. done.
Qed.

Lemma unbounded_covers (l l' : list row) :
  (∀ q, q ∈ unbounded <$> l → q ∈ unbounded <$> l') → covers (mirror <$> l) (mirror <$> l').
Proof.
  intros Hl n (r & -> & Hr)%list_elem_of_fmap.
  destruct (proj1 (list_elem_of_fmap _ _ _) (Hl (unbounded r) (list_elem_of_fmap_2 _ _ _ Hr)))
    as (q & Hq & Hin).
  exists (mirror q). split; [by apply list_elem_of_fmap_2|].
  apply unbounded_eq in Hq as (Hid & Hp & _). done.
Qed.

(** A committed rebuild establishes the invariant and changes bounds only. *)
Lemma rebuildTree_spec t t' :
  table_wf t → rebuildTree t = Ok t' →
  ∃ nodes', unbounded <$> nodes' = unbounded <$> repo_find (λ r, negb (is_deleted r)) t ∧
    rebuildNestedSet (mirror <$> repo_find (λ r, negb (is_deleted r)) t) = Rebuilt (mirror <$> nodes') ∧
    t' = repo_saveAll nodes' t ∧ NoDup (pk <$> nodes').
Proof.
  intros Hwf. unfold rebuildTree.
  set (nodes := repo_find (λ r, negb (is_deleted r)) t).
  assert (NoDup (ent_id <$> nodes)) as Hnd by apply NoDup_found, (wf_uniq t Hwf).
  pose proof (rebuildFor_spec nodes Hnd) as Href.
  destruct (rebuildNestedSetFor nodes) as [nodes'|e]; [|done].
  intros [= <-]. destruct Href as [Hreb Hzip]. exists nodes'.
  assert (unbounded <$> nodes' = unbounded <$> nodes) as Hun by by apply rebuilt_unbounded.
  split_and!; [done..|].
  assert (pk <$> nodes' = pk <$> nodes) as ->; [|done].
  apply (f_equal (fmap pk)) in Hun. by rewrite <- !list_fmap_compose in Hun.
Qed.

Lemma rebuilt_rows t nodes' :
  table_wf t → NoDup (pk <$> nodes') →
  unbounded <$> nodes' = unbounded <$> repo_find (λ r, negb (is_deleted r)) t →
  (∀ q, q ∈ unbounded <$> rows (repo_saveAll nodes' t) ↔ q ∈ unbounded <$> rows t) ∧
  (∀ r, r ∈ live_rows (repo_saveAll nodes' t) ↔ r ∈ nodes').
Proof.
  intros Hwf Hnd Hun.
  assert (∀ r', r' ∈ nodes' → ∃ r, r ∈ live_rows t ∧ unbounded r = unbounded r') as Hto.
  { intros r' Hr'. apply (list_elem_of_fmap_2 unbounded) in Hr'. rewrite Hun in Hr'.
    apply list_elem_of_fmap in Hr' as (r & ? & Hr). exists r. by rewrite live_found in Hr. }
  assert (∀ r, r ∈ live_rows t → ∃ r', r' ∈ nodes' ∧ unbounded r' = unbounded r) as Hfrom.
  { intros r Hr. rewrite <- live_found in Hr by done.
    apply (list_elem_of_fmap_2 unbounded) in Hr. rewrite <- Hun in Hr.
    apply list_elem_of_fmap in Hr as (r' & ? & ?). eauto. }
  assert (∀ r', r' ∈ nodes' → pk r' ∈ pk <$> rows t) as Hpk.
  { intros r' (r & [Hr _]%elem_of_live & (Hid & _)%unbounded_eq)%Hto.
    rewrite <- Hid. by apply list_elem_of_fmap_2. }
  split.
  - intros q. split.
    + intros (r & -> & [[Hr _]|[Hr _]]%elem_of_repo_saveAll)%list_elem_of_fmap; [| |done].
      * by apply list_elem_of_fmap_2.
      * destruct (Hto r Hr) as (r0 & [Hr0 _]%elem_of_live & <-). by apply list_elem_of_fmap_2.
    + intros (r & -> & Hr)%list_elem_of_fmap.
      destruct (decide (pk r ∈ pk <$> nodes')) as [(r' & Hid & Hr')%list_elem_of_fmap|Hnot].
      * apply list_elem_of_fmap. exists r'. split; [|by apply elem_of_repo_saveAll; auto].
        destruct (Hto r' Hr') as (r0 & [Hr0 _]%elem_of_live & Heq). rewrite <- Heq. f_equal.
        apply unbounded_eq in Heq as (Hid0 & _).
        apply (row_unique t); [done..|]. congruence.
      * apply list_elem_of_fmap_2. apply elem_of_repo_saveAll; auto.
  - intros r. rewrite elem_of_live, elem_of_repo_saveAll by done. split.
    + intros [[[Hr Hnot]|[Hr _]] Hd]; [|done]. destruct Hnot.
      destruct (Hfrom r) as (r' & Hr' & (Hid & _)%unbounded_eq); [by apply elem_of_live|].
      rewrite <- Hid. by apply list_elem_of_fmap_2.
    + intros Hr. split; [auto|].
      destruct (Hto r Hr) as (r0 & [_ Hd]%elem_of_live & (_ & _ & <- & _)%unbounded_eq). done.
Qed.

Lemma rebuildTree_ok t t' :
  table_wf t → rebuildTree t = Ok t' →
  tree_ok t' ∧ (∀ q, q ∈ unbounded <$> rows t' ↔ q ∈ unbounded <$> rows t).
Proof.
  intros Hwf (nodes' & Hun & Hreb & -> & Hnd)%rebuildTree_spec; [|done].
  destruct (rebuilt_rows t nodes' Hwf Hnd Hun) as [Hrows Hlive]. split; [|done].
  set (nodes := repo_find (λ r, negb (is_deleted r)) t) in *.
  assert (NoDup (id <$> (mirror <$> nodes))) as Hndm
    by by rewrite mirror_id; apply NoDup_found, (wf_uniq t Hwf).
  pose proof (rebuild_nested_spec _ _ Hndm Hreb) as (_ & Hb & Hn).
  apply rebuilt_final in Hreb as [_ Hroot]; [|done].
  set (t' := repo_saveAll nodes' t) in *.
  assert (covers (mirror <$> nodes) (mirror <$> live_rows t')) as Hc1.
  { apply unbounded_covers. intros q. rewrite <- Hun, !list_elem_of_fmap. naive_solver. }
  assert (covers (mirror <$> live_rows t') (mirror <$> nodes)) as Hc2.
  { apply unbounded_covers. intros q. rewrite <- Hun, !list_elem_of_fmap. naive_solver. }
  split.
  - split.
    + unfold t'. rewrite repo_saveAll_pks. by apply wf_uniq.
    + intros r Hr. apply (list_elem_of_fmap_2 unbounded) in Hr. apply Hrows in Hr.
      apply list_elem_of_fmap in Hr as (q & (_ & _ & -> & -> & _)%unbounded_eq & Hq).
      by apply (wf_deleted t).
  - intros r Hr%Hlive. apply (list_elem_of_fmap_2 unbounded) in Hr. rewrite Hun in Hr.
    apply list_elem_of_fmap in Hr as (q & (Hid & _)%unbounded_eq & Hq).
    apply (rooted_mono _ _ _ Hc1). rewrite Hid.
    exact (Hroot (mirror q) (list_elem_of_fmap_2 mirror nodes q Hq)).
  - intros r Hr%Hlive. exact (Hb (mirror r) (list_elem_of_fmap_2 mirror nodes' r Hr)).
  - intros a x Ha%Hlive Hx%Hlive.
    assert (ancestor (mirror <$> live_rows t') (pk a) (pk x) ↔
            ancestor (mirror <$> nodes) (pk a) (pk x)) as ->
      by (split; by apply ancestor_mono).
    exact (Hn (mirror a) (mirror x) (list_elem_of_fmap_2 mirror nodes' a Ha)
             (list_elem_of_fmap_2 mirror nodes' x Hx)).
Qed.
End invariant.

(** ** The operations *)
Section service.
Context {T : Type → Type} `{DatabaseLaws T} {X : Type} (M : tree_messages).
Abbreviation row := (tree_row X).
Implicit Types (t : T row) (r : row).

(** A live row that may take children. *)
Definition group_row t (k : string) : Prop :=
  ∃ q, q ∈ live_rows t ∧ pk q = k ∧ is_group q = true.

Lemma elem_of_unbounded t r :
  r ∈ rows t → unbounded r ∈ unbounded <$> rows t.
Proof. apply list_elem_of_fmap_2. Qed.

Lemma assertValidParent_spec t p :
  table_wf t →
  match assertValidParent M t p with
  | Ok _ => group_row t p
  | Throw e => ¬ group_row t p ∧ (e = BadRequestException (m_parent_missing M p) ∨
                                 e = BadRequestException (m_leaf_parent M))
  end.
Proof.
  intros Hwf. unfold assertValidParent.
  destruct (repo_findOne (live_id p) t) as [q|] eqn:Hq.
  - apply repo_findOne_Some in Hq as (Hq & [Hk Hd%negb_true_iff]%andb_true_iff & _).
    apply has_pk_true in Hk. destruct (is_group q) eqn:Hg.
    + exists q. by rewrite elem_of_live.
    + split; [|auto]. intros (q' & [Hq' _]%elem_of_live & Hk' & Hg').
      assert (q' = q) as -> by (apply (row_unique t); [done..|congruence]). congruence.
  - split; [|auto]. intros (q' & [Hq' Hd']%elem_of_live & Hk' & _).
    apply (repo_findOne_None _ _ Hq q' Hq'); [|by apply (wf_deleted t)].
    unfold live_id. apply andb_true_iff. rewrite has_pk_true, negb_true_iff. done.
Qed.

Lemma found_by_id t k r :
  table_wf t → repo_findById k t = Some r ↔ r ∈ live_rows t ∧ pk r = k.
Proof.
  intros Hwf. rewrite elem_of_live. split.
  - intros (Hr & Hk%has_pk_true & Hd)%repo_findOne_Some.
    rewrite (wf_deleted t Hwf r Hr). done.
  - intros [[Hr Hd] Hk]. destruct (repo_findById k t) as [q|] eqn:Hq.
    + apply repo_findOne_Some in Hq as (Hq & Hkq%has_pk_true & _). f_equal.
      apply (row_unique t); [done..|congruence].
    + exfalso. apply (repo_findOne_None _ _ Hq r Hr); [by apply has_pk_true|].
      by apply (wf_deleted t).
Qed.

Lemma insert_wf t fresh data u :
  table_wf t → fresh ∉ pk <$> rows t → table_wf (db_insert (new_row fresh data u) t).
Proof.
  intros Hwf Hf. split.
  - rewrite insert_rows. rewrite fmap_cons. constructor; [done|]. by apply wf_uniq.
  - intros r. rewrite insert_rows, elem_of_cons. intros [->|Hr]; [done|]. by apply (wf_deleted t).
Qed.

Lemma save_wf t e :
  table_wf t → (is_deleted e = false ↔ deleted_at e = None) → table_wf (repo_save e t).
Proof.
  intros Hwf He. split.
  - rewrite repo_save_pks. by apply wf_uniq.
  - intros r [[Hr _]|[-> _]]%elem_of_repo_save; [|done]. by apply (wf_deleted t).
Qed.

Lemma mark_wf t now k u : table_wf t → table_wf (db_update (has_pk k) (mark_deleted now u) t).1.
Proof.
  intros Hwf. split.
  - rewrite update_rows. change (List.map ?f ?l) with (f <$> l).
    rewrite <- list_fmap_compose.
    assert ((pk ∘ (λ r, if has_pk k r then mark_deleted now u r else r)) <$> rows t = pk <$> rows t)
      as -> by (apply list_fmap_ext; intros i r _; simpl; by destruct (has_pk k r)).
    by apply wf_uniq.
  - intros r. rewrite update_rows, elem_of_List_map. intros (q & Hq & ->).
    destruct (has_pk k q); [done|]. by apply (wf_deleted t).
Qed.

Lemma remove_wf t k : table_wf t → table_wf (db_delete (has_pk k) t).1.
Proof.
  intros Hwf. split.
  - rewrite delete_rows. apply wf_uniq in Hwf.
    induction (rows t) as [|r l IH]; [done|]. rewrite fmap_cons in Hwf.
    apply NoDup_cons in Hwf as [Hnot Hnd]. simpl. destruct (negb (has_pk k r)); [|auto].
    rewrite fmap_cons. apply NoDup_cons. split; [|auto].
    intros (q & Hq & [Hin _]%elem_of_List_filter)%list_elem_of_fmap.
    apply Hnot. apply list_elem_of_fmap. by exists q.
  - intros r. rewrite delete_rows, elem_of_List_filter. intros [Hr _]. by apply (wf_deleted t).
Qed.

(** A rebuild succeeds when every live row is rooted. *)
Lemma rebuildTree_succeeds t :
  table_wf t → (∀ r, r ∈ live_rows t → rooted (mirror <$> live_rows t) (pk r)) →
  ∃ t', rebuildTree t = Ok t'.
Proof.
  intros Hwf Hroot. unfold rebuildTree.
  set (nodes := repo_find (λ r, negb (is_deleted r)) t).
  assert (NoDup (ent_id <$> nodes)) as Hnd by apply NoDup_found, (wf_uniq t Hwf).
  pose proof (rebuildFor_spec nodes Hnd) as Href.
  destruct (rebuildNestedSetFor nodes) as [nodes'|e]; [by eexists|].
  destruct Href as (ids & Hids & _). exfalso.
  apply rebuild_reports in Hids as [Hne Hids]; [|by rewrite mirror_id].
  destruct ids as [|i ids]; [done|].
  destruct (proj1 (Hids i)) as [Hi Hnot]; [set_solver|]. apply Hnot.
  rewrite mirror_id in Hi. apply list_elem_of_fmap in Hi as (r & -> & Hr).
  apply (rooted_mono (mirror <$> live_rows t)); [|by apply Hroot, live_found].
  apply unbounded_covers. intros q (r' & -> & Hr')%list_elem_of_fmap.
  apply list_elem_of_fmap_2. by apply live_found.
Qed.

(** What a rebuild shows of the live rows: they are the ones it found. *)
Lemma rebuilt_live t t' r :
  table_wf t → rebuildTree t = Ok t' →
  r ∈ live_rows t → ∃ r', r' ∈ live_rows t' ∧ unbounded r' = unbounded r.
Proof.
  intros Hwf Hreb [Hr Hd]%elem_of_live. apply rebuildTree_ok in Hreb as [_ Hrows]; [|done].
  apply elem_of_unbounded, Hrows, list_elem_of_fmap in Hr as (r' & Heq & Hr').
  exists r'. split; [|done]. apply elem_of_live. split; [done|].
  apply unbounded_eq in Heq as (_ & _ & <- & _). done.
Qed.

Lemma findOneOrFail_Ok k t r :
  table_wf t → findOneOrFail k t = Ok r ↔ r ∈ live_rows t ∧ pk r = k.
Proof.
  intros Hwf. rewrite <- found_by_id by done. unfold findOneOrFail.
  destruct (repo_findById k t); naive_solver.
Qed.

Lemma create_Ok fresh data u t r t' :
  table_wf t → fresh ∉ pk <$> rows t → tree_create M fresh data u t = Ok (r, t') →
  (∀ p, c_parent data = Some p → p ≠ "" → group_row t p) ∧
  rebuildTree (db_insert (new_row fresh data u) t) = Ok t' ∧
  r ∈ live_rows t' ∧ pk r = fresh.
Proof.
  intros Hwf Hf Hc. apply executeDb_Ok in Hc. unfold create_tx in Hc.
  apply res_bind_Ok in Hc as ([] & Hp & (t'' & Hreb & (r' & Hfound & [= -> ->])%res_bind_Ok)%res_bind_Ok).
  split_and!; [|done|..].
  - intros p Hcp Hne. rewrite Hcp in Hp. apply String.eqb_neq in Hne as Hne'. rewrite Hne' in Hp.
    pose proof (assertValidParent_spec t p Hwf) as Hv. by rewrite Hp in Hv.
  - apply rebuildTree_ok in Hreb as [Hok _]; [|by apply insert_wf].
    apply findOneOrFail_Ok in Hfound; [|by apply ok_wf]. apply Hfound.
  - apply rebuildTree_ok in Hreb as [Hok _]; [|by apply insert_wf].
    apply findOneOrFail_Ok in Hfound; [|by apply ok_wf]. apply Hfound.
Qed.

Lemma update_Ok k data u t r t' :
  table_wf t → tree_update M k data u t = Ok (r, t') →
  (∀ p, u_parent data = Some (Some p) → p ≠ k ∧ group_row t p) ∧
  ∃ e, e ∈ live_rows t ∧ pk e = k ∧ table_wf (repo_save (merge data u e) t) ∧
    rebuildTree (repo_save (merge data u e) t) = Ok t'.
Proof.
  intros Hwf Hu. apply executeDb_Ok in Hu. unfold update_tx in Hu.
  apply res_bind_Ok in Hu as ([] & Hp & Hu). split.
  - intros p Hup. rewrite Hup in Hp. destruct (String.eqb p k) eqn:Hpk; [done|].
    apply String.eqb_neq in Hpk. split; [done|].
    pose proof (assertValidParent_spec t p Hwf) as Hv. by rewrite Hp in Hv.
  - destruct (repo_findById k t) as [e|] eqn:He; [|done].
    apply found_by_id in He as [He Hk]; [|done]. exists e. split_and!; [done..| |].
    + apply save_wf; [done|]. apply elem_of_live in He as [He _]. exact (wf_deleted t Hwf e He).
    + apply res_bind_Ok in Hu as (t'' & Hreb & Hu).
      apply res_bind_Ok in Hu as (r' & _ & [= -> ->]). done.
Qed.

Lemma delete_Ok now k soft u t t' :
  table_wf t → tree_delete M now k soft u t = Ok t' →
  ∃ t1, table_wf t1 ∧ rebuildTree t1 = Ok t'.
Proof.
  intros Hwf Hd. apply executeDb_Ok in Hd. unfold delete_tx in Hd.
  destruct (0 <? _)%nat; [done|]. destruct soft.
  - pose proof (mark_wf t now k u Hwf). destruct (db_update _ _ t) as [t1 n].
    destruct (n =? 0)%nat; [done|]. by exists t1.
  - pose proof (remove_wf t k Hwf). destruct (db_delete _ t) as [t1 n].
    destruct (n =? 0)%nat; [done|]. by exists t1.
Qed.

(** *** Requests

    A request that throws leaves the table as it was: its transaction is
    rolled back.  The id of a new row is generated and does not occur yet. *)
Inductive tree_step : T row → T row → Prop :=
  | step_create fresh data u t r t' :
      fresh ∉ pk <$> rows t → tree_create M fresh data u t = Ok (r, t') → tree_step t t'
  | step_update k data u t r t' : tree_update M k data u t = Ok (r, t') → tree_step t t'
  | step_delete now k soft u t t' : tree_delete M now k soft u t = Ok t' → tree_step t t'.

Lemma tree_step_ok t t' : table_wf t → tree_step t t' → tree_ok t'.
Proof.
  intros Hwf Hs. destruct Hs as [fresh data u t r t' Hf Hc|k data u t r t' Hu|now k soft u t t' Hd].
  - apply create_Ok in Hc as (_ & Hreb & _); [|done..].
    by apply rebuildTree_ok in Hreb as [? _]; [|by apply insert_wf].
  - apply update_Ok in Hu as (_ & e & _ & _ & He & Hreb); [|done].
    by apply rebuildTree_ok in Hreb as [? _].
  - apply delete_Ok in Hd as (t1 & H1 & Hreb); [|done].
    by apply rebuildTree_ok in Hreb as [? _].
Qed.

Lemma tree_ok_empty t : rows t = [] → tree_ok t.
Proof.
  intros He. assert (∀ r, r ∉ live_rows t) as Hl
    by (intros r [Hr _]%elem_of_live; rewrite He in Hr; set_solver).
  split; [split|..]; try (intros; exfalso; by eapply Hl).
  - rewrite He. constructor.
  - rewrite He. set_solver.
Qed.

(** C28: whatever create, update and delete requests are served, starting from
    an empty table, the live rows are a forest (no cycle, no dangling parent)
    and a row is below another exactly when its interval lies inside. *)
Theorem tree_reachable_ok t0 t (Hempty : rows t0 = []) (Hsteps : rtc tree_step t0 t) : tree_ok t.
Proof.
  apply tree_ok_empty in Hempty. induction Hsteps as [|t1 t2 t3 Hs _ IH]; [done|].
  apply IH. eapply tree_step_ok; [|done]. by apply ok_wf.
Qed.

Lemma covers_incl (l l' : list row) : l ⊆ l' → covers (mirror <$> l) (mirror <$> l').
Proof.
  intros Hl. apply unbounded_covers. intros q (r & -> & Hr)%list_elem_of_fmap.
  apply list_elem_of_fmap_2. auto.
Qed.

(** The relations on the mirrored rows, in terms of the rows. *)
Lemma anc_row (l : list row) r q :
  r ∈ l → q ∈ l → parent r = Some (pk q) → ancestor (mirror <$> l) (pk q) (pk r).
Proof.
  intros Hr Hq Hp.
  exact (anc_parent _ (pk q) (mirror r) (mirror q) (list_elem_of_fmap_2 mirror l r Hr)
           (list_elem_of_fmap_2 mirror l q Hq) eq_refl Hp).
Qed.
Lemma anc_row_up (l : list row) a r q :
  r ∈ l → q ∈ l → parent r = Some (pk q) → ancestor (mirror <$> l) a (pk q) →
  ancestor (mirror <$> l) a (pk r).
Proof.
  intros Hr Hq Hp Ha.
  exact (anc_up _ a (mirror r) (mirror q) (list_elem_of_fmap_2 mirror l r Hr)
           (list_elem_of_fmap_2 mirror l q Hq) Hp Ha).
Qed.
Lemma rooted_row_root (l : list row) r :
  r ∈ l → parent r = None → rooted (mirror <$> l) (pk r).
Proof.
  intros Hr Hp. exact (rooted_root _ (mirror r) (list_elem_of_fmap_2 mirror l r Hr) Hp).
Qed.
Lemma rooted_row_child (l : list row) r q :
  r ∈ l → q ∈ l → parent r = Some (pk q) → rooted (mirror <$> l) (pk q) →
  rooted (mirror <$> l) (pk r).
Proof.
  intros Hr Hq Hp Ha.
  exact (rooted_child _ (mirror r) (mirror q) (list_elem_of_fmap_2 mirror l r Hr)
           (list_elem_of_fmap_2 mirror l q Hq) Hp Ha).
Qed.

Lemma child_inside t r p :
  tree_ok t → r ∈ live_rows t → parent r = Some p →
  ∃ q, q ∈ live_rows t ∧ pk q = p ∧ (tr_lft q < tr_lft r)%Z ∧ (tr_rgt r < tr_rgt q)%Z.
Proof.
  intros Hok Hr Hp. pose proof (ok_rooted t Hok r Hr) as Hroot.
  assert (∃ q, q ∈ live_rows t ∧ pk q = p) as (q & Hq & Hid).
  { inversion Hroot as [x Hx Hnone Hid|x m Hx Hm Hpar _ Hid].
    - apply list_elem_of_fmap in Hx as (r' & -> & Hr').
      assert (r' = r) as ->; [|simpl in Hnone; congruence].
      apply elem_of_live in Hr as [Hr _], Hr' as [Hr' _].
      apply (row_unique t); [by apply ok_wf|done..].
    - apply list_elem_of_fmap in Hx as (r' & -> & Hr'), Hm as (q & -> & Hq).
      assert (r' = r) as ->; [|exists q; simpl in Hpar; split; [done|simpl; congruence]].
      apply elem_of_live in Hr as [Hr _], Hr' as [Hr' _].
      apply (row_unique t); [by apply ok_wf|done..]. }
  rewrite <- Hid in Hp. pose proof (anc_row _ r q Hr Hq Hp) as Hanc.
  apply (ok_nested t Hok q r Hq Hr) in Hanc. by exists q.
Qed.

Lemma create_succeeds fresh data u t :
  tree_ok t → fresh ∉ pk <$> rows t → (∀ p, c_parent data = Some p → group_row t p) →
  ∃ r t', tree_create M fresh data u t = Ok (r, t').
Proof.
  intros Hok Hf Hp. pose proof (ok_wf t Hok) as Hwf.
  pose proof (insert_wf t fresh data u Hwf Hf) as Hwf1.
  set (n := new_row fresh data u) in *.
  assert (∀ r, r ∈ live_rows (db_insert n t) ↔ r = n ∨ r ∈ live_rows t) as Hlive.
  { intros r. rewrite !elem_of_live, insert_rows, elem_of_cons. unfold n. naive_solver. }
  assert (covers (mirror <$> live_rows t) (mirror <$> live_rows (db_insert n t))) as Hcov
    by (apply covers_incl; intros r Hr; apply Hlive; auto).
  destruct (rebuildTree_succeeds (db_insert n t) Hwf1) as [t' Ht'].
  { intros r [->|Hr]%Hlive.
    - destruct (c_parent data) as [p|] eqn:Hcp.
      + destruct (Hp p eq_refl) as (q & Hq & Hid & _).
        apply (rooted_row_child _ n q); [by apply Hlive; auto..| |].
        * change (c_parent data = Some (pk q)). congruence.
        * eapply rooted_mono; [done|]. by apply ok_rooted.
      + apply rooted_row_root; [by apply Hlive; auto|done].
    - eapply rooted_mono; [done|]. by apply ok_rooted. }
  destruct (rebuilt_live _ _ n Hwf1 Ht') as (r & Hr & (Hid & _)%unbounded_eq);
    [by apply Hlive; auto|].
  exists r, t'. apply executeDb_Ok. unfold create_tx.
  apply res_bind_Ok. exists (). split.
  - destruct (c_parent data) as [p|]; [|done]. destruct (String.eqb p ""); [done|].
    pose proof (assertValidParent_spec t p Hwf) as Hv.
    destruct (assertValidParent M t p) as [[]|]; [done|]. by destruct Hv as [[] _]; auto.
  - apply res_bind_Ok. exists t'. split; [done|]. apply res_bind_Ok. exists r. split; [|done].
    apply findOneOrFail_Ok; [|done]. by apply rebuildTree_ok in Ht' as [? _]; [apply ok_wf|].
Qed.

(** Creating a row succeeds exactly when no parent is named or the parent
    is a live group; the row is stored with the given fields inside its
    parent's interval, and no other row changes except in its bounds. *)
Theorem tree_create_spec fresh data u t (Hok : tree_ok t) (Hf : fresh ∉ pk <$> rows t) :
  match tree_create M fresh data u t with
  | Ok (r, t') =>
      tree_ok t' ∧ r ∈ live_rows t' ∧ unbounded r = new_row fresh data u ∧
      (∀ q, q ∈ unbounded <$> rows t' ↔ q = new_row fresh data u ∨ q ∈ unbounded <$> rows t) ∧
      (∀ p, c_parent data = Some p → (p ≠ "" → group_row t p) ∧
         ∃ q, q ∈ live_rows t' ∧ pk q = p ∧ (tr_lft q < tr_lft r)%Z ∧ (tr_rgt r < tr_rgt q)%Z)
  | Throw _ => ∃ p, c_parent data = Some p ∧ ¬ group_row t p
  end.
Proof.
  pose proof (ok_wf t Hok) as Hwf. pose proof (insert_wf t fresh data u Hwf Hf) as Hwf1.
  destruct (tree_create M fresh data u t) as [[r t']|e] eqn:Hc.
  - apply create_Ok in Hc as (Hp & Hreb & Hr & Hid); [|done..].
    apply rebuildTree_ok in Hreb as [Hok' Hrows]; [|done].
    assert (∀ q, q ∈ unbounded <$> rows t' ↔ q = new_row fresh data u ∨ q ∈ unbounded <$> rows t)
      as Hrows'.
    { intros q. rewrite Hrows, !list_elem_of_fmap. setoid_rewrite insert_rows.
      split.
      - intros (q' & -> & [->|Hq']%elem_of_cons); [by left|right; eauto].
      - intros [->|(q' & -> & Hq')]; [exists (new_row fresh data u)|exists q'];
          (split; [done|set_solver]). }
    assert (unbounded r = new_row fresh data u) as Hun.
    { apply elem_of_live in Hr as Hr'. destruct Hr' as [Hr' _].
      apply elem_of_unbounded, Hrows' in Hr' as [?|(q & (Hq & _)%unbounded_eq & Hin)%list_elem_of_fmap]; [done|].
      destruct Hf. rewrite <- Hid, Hq. by apply list_elem_of_fmap_2. }
    split_and!; [done..|]. intros p Hcp. split; [auto|].
    apply child_inside; [done..|]. change (parent (unbounded r) = Some p). by rewrite Hun.
  - destruct (c_parent data) as [p|] eqn:Hcp;
      [exists p; split; [done|]; intros Hg|exfalso];
      destruct (create_succeeds fresh data u t Hok Hf) as (r & t' & Hs); congruence || naive_solver.
Qed.

Lemma rooted_row_ind (l : list row) (P : string → Prop) :
  (∀ r, r ∈ l → parent r = None → P (pk r)) →
  (∀ r q, r ∈ l → q ∈ l → parent r = Some (pk q) → P (pk q) → P (pk r)) →
  ∀ s, rooted (mirror <$> l) s → P s.
Proof.
  intros Hroot Hchild. induction 1 as [x Hx Hp|x m Hx Hm Hp _ IH].
  - apply list_elem_of_fmap in Hx as (r & -> & Hr). exact (Hroot r Hr Hp).
  - apply list_elem_of_fmap in Hx as (r & -> & Hr), Hm as (q & -> & Hq).
    exact (Hchild r q Hr Hq Hp IH).
Qed.

Lemma ancestor_row_ind (l : list row) a (P : string → Prop) :
  (∀ r q, r ∈ l → q ∈ l → pk q = a → parent r = Some a → P (pk r)) →
  (∀ r q, r ∈ l → q ∈ l → parent r = Some (pk q) → ancestor (mirror <$> l) a (pk q) →
    P (pk q) → P (pk r)) →
  ∀ s, ancestor (mirror <$> l) a s → P s.
Proof.
  intros Hbase Hup. induction 1 as [x m Hx Hm Hid Hp|x m Hx Hm Hp Ha IH];
    apply list_elem_of_fmap in Hx as (r & -> & Hr), Hm as (q & -> & Hq).
  - exact (Hbase r q Hr Hq Hid Hp).
  - exact (Hup r q Hr Hq Hp Ha IH).
Qed.

Lemma live_inj t r q :
  table_wf t → r ∈ live_rows t → q ∈ live_rows t → pk r = pk q → r = q.
Proof. intros Hwf [Hr _]%elem_of_live [Hq _]%elem_of_live. by apply (row_unique t). Qed.

Lemma ancestor_irrefl t r :
  tree_ok t → r ∈ live_rows t → ¬ ancestor (mirror <$> live_rows t) (pk r) (pk r).
Proof. intros Hok Hr [? _]%(ok_nested t Hok r r Hr Hr). lia. Qed.

Lemma live_save t e e' :
  table_wf t → e ∈ live_rows t → pk e' = pk e → is_deleted e' = false →
  ∀ r, r ∈ live_rows (repo_save e' t) ↔ r = e' ∨ (r ∈ live_rows t ∧ pk r ≠ pk e).
Proof.
  intros Hwf He Hid Hd r. rewrite !elem_of_live, elem_of_repo_save, Hid.
  apply elem_of_live in He as [He _]. apply (list_elem_of_fmap_2 pk) in He. naive_solver.
Qed.

(** Replacing a live row by one with another parent, not below it. *)
Section reparent.
Context (t : T row) (e e' : row).
Context (Hok : tree_ok t) (He : e ∈ live_rows t) (Hid : pk e' = pk e) (Hd : is_deleted e' = false).
Abbreviation t1 := (repo_save e' t).

Lemma reparent_keeps r : r ∈ live_rows t → ∃ r', r' ∈ live_rows t1 ∧ pk r' = pk r ∧
  (pk r ≠ pk e → r' = r).
Proof.
  pose proof (ok_wf t Hok) as Hwf.
  intros Hr. destruct (decide (pk r = pk e)) as [Heq|Hne].
  - exists e'. split; [apply (live_save t e e'); auto|]. by rewrite Heq.
  - exists r. split; [apply (live_save t e e'); auto|]. done.
Qed.

Lemma reparent_rooted :
  (parent e' = None ∨ ∃ q, q ∈ live_rows t ∧ parent e' = Some (pk q) ∧ pk q ≠ pk e ∧
     ¬ ancestor (mirror <$> live_rows t) (pk e) (pk q)) →
  ∀ r, r ∈ live_rows t1 → rooted (mirror <$> live_rows t1) (pk r).
Proof.
  pose proof (ok_wf t Hok) as Hwf. pose proof (live_save t e e' Hwf He Hid Hd) as Hlive.
  intros Hp. assert (rooted (mirror <$> live_rows t1) (pk e)) as Hroot_e.
  { rewrite <- Hid. destruct Hp as [Hp|(q & Hq & Hp & Hne & Hanc)].
    { apply rooted_row_root; [by apply Hlive; left|done]. }
    apply (rooted_row_child _ e' q); [apply Hlive; auto..|done|].
    revert Hne Hanc. generalize (ok_rooted t Hok q Hq). generalize (pk q). clear q Hq Hp.
    refine (rooted_row_ind (live_rows t) (λ s, s ≠ pk e →
        ¬ ancestor (mirror <$> live_rows t) (pk e) s → rooted (mirror <$> live_rows t1) s) _ _);
      [intros r Hr Hp Hne Hanc|intros r q Hr Hq Hp IH Hne Hanc].
    - apply rooted_row_root; [apply Hlive; auto|done].
    - assert (pk q ≠ pk e).
      { intros Heq. apply Hanc. rewrite Heq in Hp. by apply anc_row. }
      apply (rooted_row_child _ r q); [apply Hlive; auto..|done|]. apply IH; [done|].
      intros Ha. apply Hanc. by apply (anc_row_up _ _ r q). }
  intros r [->|[Hr Hne]]%Hlive; [by rewrite Hid|].
  generalize (ok_rooted t Hok r Hr). generalize (pk r). clear r Hr Hne.
  refine (rooted_row_ind (live_rows t) (rooted (mirror <$> live_rows t1)) _ _);
    [intros r Hr Hpr|intros r q Hr Hq Hpr IH];
    (destruct (decide (pk r = pk e)) as [->|Hne]; [done|]).
  - apply rooted_row_root; [apply Hlive; auto|done].
  - destruct (reparent_keeps q Hq) as (q' & Hq' & Hidq & _).
    apply (rooted_row_child _ r q'); [apply Hlive; auto|done|congruence|congruence].
Qed.

Lemma reparent_below :
  ∀ s, ancestor (mirror <$> live_rows t) (pk e) s → ancestor (mirror <$> live_rows t1) (pk e) s.
Proof.
  pose proof (ok_wf t Hok) as Hwf. pose proof (live_save t e e' Hwf He Hid Hd) as Hlive.
  refine (ancestor_row_ind (live_rows t) (pk e) (ancestor (mirror <$> live_rows t1) (pk e)) _ _);
    [intros r q Hr Hq Hidq Hp|intros r q Hr Hq Hp Ha IH].
  - assert (pk r ≠ pk e) as Hne.
    { intros Heq. apply (ancestor_irrefl t e Hok He). rewrite <- Heq at 2.
      rewrite <- Hidq in *. by apply anc_row. }
    rewrite <- Hid in *. apply anc_row; [apply Hlive; auto..|done].
  - assert (pk r ≠ pk e) as Hne.
    { intros Heq. apply (ancestor_irrefl t e Hok He). rewrite <- Heq at 2.
      by apply (anc_row_up _ _ r q). }
    destruct (reparent_keeps q Hq) as (q' & Hq' & Hidq & _).
    apply (anc_row_up _ _ r q'); [apply Hlive; auto|done|congruence|congruence].
Qed.
End reparent.

(** An acceptable new parent: a live group that is neither the row itself nor
    below it. *)
Definition valid_target t (k : string) (data : update_dto X) : Prop :=
  match u_parent data with
  | Some (Some p) => group_row t p ∧ p ≠ k ∧ ¬ ancestor (mirror <$> live_rows t) k p
  | _ => True
  end.

Lemma merge_parent (data : update_dto X) u (e : row) :
  parent (merge data u e) = default (parent e) (u_parent data).
Proof. done. Qed.

(** The parent a merged row ends up with is one the rebuild accepts. *)
Lemma merge_target t (e : row) (data : update_dto X) u :
  tree_ok t → e ∈ live_rows t → valid_target t (pk e) data →
  parent (merge data u e) = None ∨
  ∃ q, q ∈ live_rows t ∧ parent (merge data u e) = Some (pk q) ∧ pk q ≠ pk e ∧
    ¬ ancestor (mirror <$> live_rows t) (pk e) (pk q).
Proof.
  intros Hok He Hv. rewrite merge_parent. unfold valid_target in Hv.
  destruct (u_parent data) as [[p|]|]; simpl; [|by left|].
  - right. destruct Hv as ((q & Hq & <- & _) & Hne & Hanc). eauto.
  - destruct (parent e) as [p|] eqn:Hp; [right|by left].
    destruct (child_inside t e p Hok He Hp) as (q & Hq & <- & Hl & Hr).
    exists q. split_and!; [done..| |].
    + intros Heq. assert (q = e) as ->; [|lia].
      apply (live_inj t); [by apply ok_wf|done..].
    + intros [Hl' _]%(ok_nested t Hok e q He Hq). lia.
Qed.

(** A committed update cannot have moved the row below itself. *)
Lemma update_acyclic t (e : row) p (data : update_dto X) u t' :
  tree_ok t → e ∈ live_rows t → u_parent data = Some (Some p) → group_row t p → p ≠ pk e →
  table_wf (repo_save (merge data u e) t) →
  rebuildTree (repo_save (merge data u e) t) = Ok t' →
  ¬ ancestor (mirror <$> live_rows t) (pk e) p.
Proof.
  intros Hok He Hup (q & Hq & <- & _) Hne Hwf1 Hreb Hanc.
  assert (is_deleted (merge data u e) = false) as Hd by by apply elem_of_live in He as [_ ?].
  pose proof (live_save t e (merge data u e) (ok_wf t Hok) He eq_refl Hd) as Hlive.
  apply (reparent_below t e (merge data u e) Hok He eq_refl Hd) in Hanc.
  assert (merge data u e ∈ live_rows (repo_save (merge data u e) t)) as Hin by (apply Hlive; auto).
  assert (ancestor (mirror <$> live_rows (repo_save (merge data u e) t)) (pk e) (pk e)) as Hself.
  { apply (anc_row_up _ _ (merge data u e) q); [done|by apply Hlive; auto| |done].
    rewrite merge_parent, Hup. done. }
  apply (ancestor_mono _ (mirror <$> live_rows t')) in Hself.
  - destruct (rebuilt_live _ _ _ Hwf1 Hreb Hin) as (r & Hr & (Hid & _)%unbounded_eq).
    apply (ancestor_irrefl t' r); [by apply rebuildTree_ok in Hreb as [? _]|done|].
    rewrite Hid. exact Hself.
  - apply unbounded_covers. intros x (r & -> & Hr)%list_elem_of_fmap.
    destruct (rebuilt_live _ _ _ Hwf1 Hreb Hr) as (r' & Hr' & <-). by apply list_elem_of_fmap_2.
Qed.

Lemma update_succeeds k data u t :
  tree_ok t → valid_target t k data → (∃ e, e ∈ live_rows t ∧ pk e = k) →
  ∃ r t', tree_update M k data u t = Ok (r, t').
Proof.
  intros Hok Hv (e & He & <-). pose proof (ok_wf t Hok) as Hwf.
  assert (is_deleted (merge data u e) = false) as Hd by by apply elem_of_live in He as [_ ?].
  pose proof (live_save t e (merge data u e) Hwf He eq_refl Hd) as Hlive.
  assert (table_wf (repo_save (merge data u e) t)) as Hwf1.
  { apply save_wf; [done|]. apply elem_of_live in He as [He _]. exact (wf_deleted t Hwf e He). }
  destruct (rebuildTree_succeeds _ Hwf1) as [t' Ht'].
  { apply (reparent_rooted t e (merge data u e) Hok He eq_refl Hd). by apply merge_target. }
  destruct (rebuilt_live _ _ (merge data u e) Hwf1 Ht') as (r & Hr & (Hid & _)%unbounded_eq);
    [apply Hlive; auto|].
  exists r, t'. apply executeDb_Ok. unfold update_tx. apply res_bind_Ok. exists (). split.
  - unfold valid_target in Hv. destruct (u_parent data) as [[p|]|]; [|done..].
    destruct Hv as (Hg & Hne%String.eqb_neq & _). rewrite Hne.
    pose proof (assertValidParent_spec t p Hwf) as Hp.
    destruct (assertValidParent M t p) as [[]|]; [done|]. by destruct Hp as [[] _].
  - rewrite (proj2 (found_by_id t (pk e) e Hwf)) by done.
    apply res_bind_Ok. exists t'. split; [done|]. apply res_bind_Ok. exists r. split; [|done].
    apply findOneOrFail_Ok; [|by rewrite Hid]. by apply rebuildTree_ok in Ht' as [? _]; [apply ok_wf|].
Qed.

(** Updating a row succeeds exactly when the row is live and the new
    parent (if one is named) is a live group that is not the row itself nor
    below it; the fields given are merged into the row and the other rows
    change only in their bounds. *)
Theorem tree_update_spec k data u t (Hok : tree_ok t) :
  match tree_update M k data u t with
  | Ok (r, t') =>
      tree_ok t' ∧ valid_target t k data ∧ ∃ e, e ∈ live_rows t ∧ pk e = k ∧
      r ∈ live_rows t' ∧ unbounded r = unbounded (merge data u e) ∧
      ∀ q, pk q ≠ k → q ∈ unbounded <$> rows t' ↔ q ∈ unbounded <$> rows t
  | Throw _ => ¬ (valid_target t k data ∧ ∃ e, e ∈ live_rows t ∧ pk e = k)
  end.
Proof.
  destruct (tree_update M k data u t) as [[r t']|x] eqn:Hu.
  2: { intros [Hv He]. destruct (update_succeeds k data u t Hok Hv He) as (?&?&?). congruence. }
  pose proof (ok_wf t Hok) as Hwf.
  pose proof Hu as Hr. apply executeDb_Ok in Hr. unfold update_tx in Hr.
  apply res_bind_Ok in Hr as (_ & _ & Hr).
  apply update_Ok in Hu as (Hp & e & He & Hk & Hwf1 & Hreb); [|done].
  rewrite (proj2 (found_by_id t k e Hwf)), Hreb in Hr by done. simpl in Hr.
  apply res_bind_Ok in Hr as (r' & Hr & [= ->]).
  pose proof Hreb as Hreb1. apply rebuildTree_ok in Hreb1 as [Hok' Hrows]; [|done].
  apply findOneOrFail_Ok in Hr as [Hr Hidr]; [|by apply ok_wf].
  split; [done|]. split.
  { unfold valid_target. destruct (u_parent data) as [[p|]|] eqn:Hup; [|done..].
    destruct (Hp p eq_refl) as [Hne Hg]. split_and!; [done..|].
    subst k. by apply (update_acyclic t e p data u t'). }
  exists e. split_and!; [done..| |].
  - apply elem_of_live in Hr as [Hr _].
    apply elem_of_unbounded, Hrows, list_elem_of_fmap in Hr as (q & Heq & Hq). rewrite Heq.
    apply unbounded_eq in Heq as (Hid & _).
    apply elem_of_repo_save in Hq as [[_ Hne]|[-> _]]; [|done]. destruct Hne. rewrite <- Hid, Hidr. symmetry. exact Hk.
  - intros q Hq. rewrite Hrows, !list_elem_of_fmap. split.
    + intros (q' & -> & [[Hq' _]|[-> _]]%elem_of_repo_save); [by exists q'|].
      destruct Hq. exact Hk.
    + intros (q' & -> & Hq'). exists q'. split; [done|]. apply elem_of_repo_save. left.
      split; [done|]. intros Heq. apply Hq. change (pk q' = k). rewrite Heq. exact Hk.
Qed.

Lemma child_count t k :
  table_wf t → (0 <? repo_count (child_of k) t)%nat = true ↔
  ∃ c, c ∈ live_rows t ∧ parent c = Some k.
Proof.
  intros Hwf. assert (∀ c, c ∈ repo_find (child_of k) t ↔ c ∈ live_rows t ∧ parent c = Some k) as Hc.
  { intros c. rewrite elem_of_repo_find, elem_of_live. unfold child_of.
    rewrite andb_true_iff, bool_decide_eq_true, negb_true_iff.
    split; [naive_solver|]. intros [[Hr Hd] Hp]. by rewrite <- (wf_deleted t Hwf c Hr). }
  unfold repo_count. setoid_rewrite <- Hc. rewrite Nat.ltb_lt.
  destruct (repo_find (child_of k) t) as [|c l]; simpl; split; [lia| |intros _|lia].
  - intros (c & Hin). by apply not_elem_of_nil in Hin.
  - exists c. left.
Qed.

(** Removing a row without children keeps the others rooted. *)
Lemma prune_rooted (l l' : list row) k :
  (∀ r, r ∈ l' ↔ r ∈ l ∧ pk r ≠ k) → (∀ r, r ∈ l → parent r ≠ Some k) →
  ∀ s, rooted (mirror <$> l) s → s ≠ k → rooted (mirror <$> l') s.
Proof.
  intros Hl Hleaf. refine (rooted_row_ind l (λ s, s ≠ k → rooted (mirror <$> l') s) _ _).
  - intros r Hr Hp Hne. apply rooted_row_root; [by apply Hl|done].
  - intros r q Hr Hq Hp IH Hne. assert (pk q ≠ k) as Hqk by (intros <-; exact (Hleaf r Hr Hp)).
    apply (rooted_row_child _ r q); [by apply Hl..|done|by apply IH].
Qed.

(** The table after the removing statement, soft or hard, and the number of
    rows it affected. *)
Definition removal now k (soft : bool) u t : T row * nat :=
  if soft then db_update (has_pk k) (mark_deleted now u) t else db_delete (has_pk k) t.

Lemma removal_affected now k soft u t :
  ((removal now k soft u t).2 =? 0)%nat = false ↔ k ∈ pk <$> rows t.
Proof.
  rewrite Nat.eqb_neq, list_elem_of_fmap.
  assert ((removal now k soft u t).2 = length (List.filter (has_pk k) (rows t))) as ->
    by (destruct soft; [apply update_affected|apply delete_affected]).
  split.
  - intros Hn. destruct (List.filter (has_pk k) (rows t)) as [|r l] eqn:Hf; [done|].
    assert (r ∈ List.filter (has_pk k) (rows t)) as Hr by (rewrite Hf; left).
    apply elem_of_List_filter in Hr as [Hr Hk%has_pk_true]. eauto.
  - intros (r & -> & Hr) Hn%nil_length_inv.
    assert (r ∈ List.filter (has_pk (pk r)) (rows t)) as Hin
      by (apply elem_of_List_filter; by rewrite has_pk_true).
    rewrite Hn in Hin. by apply not_elem_of_nil in Hin.
Qed.

Lemma removal_rows now k soft u t q :
  q ∈ rows (removal now k soft u t).1 ↔
    (q ∈ rows t ∧ pk q ≠ k) ∨
    (soft = true ∧ ∃ r, r ∈ rows t ∧ pk r = k ∧ q = mark_deleted now u r).
Proof.
  assert (∀ r, has_pk k r = false ↔ pk r ≠ k) as Hf
    by (intros r; by rewrite <- not_true_iff_false, has_pk_true).
  unfold removal. destruct soft.
  - rewrite update_rows, elem_of_List_map. split.
    + intros (r & Hr & ->). destruct (has_pk k r) eqn:Hk.
      * right. apply has_pk_true in Hk. eauto.
      * left. split; [done|by apply Hf].
    + intros [[Hr Hne%Hf]|(_ & r & Hr & Hk%has_pk_true & ->)].
      * exists q. by rewrite Hne.
      * exists r. by rewrite Hk.
  - rewrite delete_rows, elem_of_List_filter, negb_true_iff, Hf. naive_solver.
Qed.

Lemma removal_wf now k soft u t : table_wf t → table_wf (removal now k soft u t).1.
Proof. destruct soft; [apply mark_wf|apply remove_wf]. Qed.

Lemma removal_live now k soft u t r :
  r ∈ live_rows (removal now k soft u t).1 ↔ r ∈ live_rows t ∧ pk r ≠ k.
Proof. rewrite !elem_of_live, removal_rows. naive_solver. Qed.

Lemma delete_unfold now k soft u t :
  delete_tx M now k soft u t =
  if (0 <? repo_count (child_of k) t)%nat then Throw (BadRequestException (m_has_children M))
  else if ((removal now k soft u t).2 =? 0)%nat then Throw (NotFoundException (m_not_found M k))
  else rebuildTree (removal now k soft u t).1.
Proof.
  unfold delete_tx, removal. destruct (0 <? _)%nat; [done|].
  destruct soft; [by destruct (db_update _ _ t)|by destruct (db_delete _ t)].
Qed.

(** Deleting a row is refused with 400 while it has live children and with
    404 when it does not exist, and succeeds otherwise; it then marks (soft)
    or removes (hard) exactly that row and the table stays a nested set. *)
Theorem tree_delete_spec now k soft u t (Hok : tree_ok t) :
  match tree_delete M now k soft u t with
  | Ok t' =>
      tree_ok t' ∧ k ∈ pk <$> rows t ∧ (∀ c, c ∈ live_rows t → parent c ≠ Some k) ∧
      ∀ q, q ∈ unbounded <$> rows t' ↔
        (q ∈ unbounded <$> rows t ∧ pk q ≠ k) ∨
        (soft = true ∧ ∃ r, r ∈ rows t ∧ pk r = k ∧ q = unbounded (mark_deleted now u r))
  | Throw x =>
      (x = BadRequestException (m_has_children M) ∧ ∃ c, c ∈ live_rows t ∧ parent c = Some k) ∨
      (x = NotFoundException (m_not_found M k) ∧ k ∉ pk <$> rows t)
  end.
Proof.
  pose proof (ok_wf t Hok) as Hwf. pose proof (child_count t k Hwf) as Hcount.
  unfold tree_delete. rewrite delete_unfold.
  destruct (0 <? repo_count (child_of k) t)%nat; [left; split; [done|by apply Hcount]|].
  assert (∀ c, c ∈ live_rows t → parent c ≠ Some k) as Hleaf
    by (intros c Hc Hp; assert (false = true) by (apply Hcount; eauto); done).
  pose proof (removal_affected now k soft u t) as Haff.
  destruct ((removal now k soft u t).2 =? 0)%nat;
    [right; split; [done|intros Hk%Haff; done]|].
  pose proof (removal_wf now k soft u t Hwf) as Hwf1.
  destruct (rebuildTree_succeeds _ Hwf1) as [t' Hreb].
  { intros r [Hr Hne]%removal_live. apply (prune_rooted (live_rows t) _ k); [|done| |done].
    - intros q. by rewrite removal_live.
    - by apply ok_rooted. }
  rewrite Hreb. simpl. apply rebuildTree_ok in Hreb as [Hok' Hrows]; [|done].
  split_and!; [done|by apply Haff|done|]. intros q. rewrite Hrows, !list_elem_of_fmap. split.
  - intros (r & -> & [[Hr Hne]|(-> & r0 & Hr0 & Hk & ->)]%removal_rows); [left|right].
    + split; [by exists r|]. exact Hne.
    + split; [done|]. by exists r0.
  - intros [[(r & -> & Hr) Hne]|(-> & r0 & Hr0 & Hk & ->)].
    + exists r. split; [done|]. apply removal_rows. left. split; [done|exact Hne].
    + exists (mark_deleted now u r0). split; [done|]. apply removal_rows. right. eauto.
Qed.
End service.

(** ** The leaf rule is not kept by an update

    [assertValidParent] refuses to attach a child to a leaf, but nothing stops
    an update from turning a group that has children into a leaf. *)

Definition w_create (name : string) (g : bool) (p : option string) : create_dto WarehouseType :=
  CreateDTO name name STOCK g p.
Definition w_set_group (g : bool) : update_dto WarehouseType :=
  UpdateDTO None None None (Some g) None.

(** Table after a successful request, for running scenarios. *)
Definition created {T} {A} (r : result (A * T)) (t : T) : T :=
  match r with Ok (_, t') => t' | Throw _ => t end.

Definition scenario_root : list (tree_row WarehouseType) :=
  created (Warehouses.create "root" (w_create "Main" true None) None []) [].
Definition scenario_child : list (tree_row WarehouseType) :=
  created (Warehouses.create "bin" (w_create "Bin" false (Some "root")) None scenario_root) scenario_root.
Definition scenario_leaf : list (tree_row WarehouseType) :=
  created (Warehouses.update "root" (w_set_group false) None scenario_child) scenario_child.

Example scenario_bounds :
  (λ r, (tr_id r, tr_lft r, tr_rgt r)) <$> scenario_child = [("root", 1%Z, 4%Z); ("bin", 2%Z, 3%Z)].
Proof. vm_compute. reflexivity. Qed.

(** Three successful requests from an empty table reach a state in which a
    leaf (is_group = false) has a live child. *)
Theorem leaf_with_child_reachable :
  ∃ t : list (tree_row WarehouseType), rtc (tree_step Warehouses.messages) [] t ∧
    ∃ p c, p ∈ live_rows t ∧ c ∈ live_rows t ∧ parent c = Some (pk p) ∧ is_group p = false.
Proof.
  exists scenario_leaf. split.
  - apply (rtc_l _ _ scenario_root).
    { eapply (step_create _ "root" (w_create "Main" true None) None);
        [set_solver|vm_compute; reflexivity]. }
    apply (rtc_l _ _ scenario_child).
    { eapply (step_create _ "bin" (w_create "Bin" false (Some "root")) None);
        [apply (bool_decide_unpack _); vm_compute; exact I|vm_compute; reflexivity]. }
    apply (rtc_l _ _ scenario_leaf); [|apply rtc_refl].
    eapply (step_update _ "root" (w_set_group false) None). vm_compute. reflexivity.
  - eexists _, _. split_and!.
    + vm_compute. apply list_elem_of_here.
    + vm_compute. apply list_elem_of_further, list_elem_of_here.
    + reflexivity.
    + reflexivity.
Qed.

(** ** Witnesses *)

Lemma scenario_child_ok : tree_ok scenario_child.
Proof.
  assert (tree_ok scenario_root) as Hroot.
  { apply (tree_step_ok Warehouses.messages []); [by apply ok_wf, tree_ok_empty|].
    eapply (step_create _ "root" (w_create "Main" true None) None);
      [set_solver|vm_compute; reflexivity]. }
  apply (tree_step_ok Warehouses.messages scenario_root); [by apply ok_wf|].
  eapply (step_create _ "bin" (w_create "Bin" false (Some "root")) None);
    [apply (bool_decide_unpack _); vm_compute; exact I|vm_compute; reflexivity].
Qed.

Lemma tree_reachable_ok_witness :
  rtc (tree_step Warehouses.messages) [] scenario_root ∧ tree_ok scenario_root.
Proof.
  assert (rtc (tree_step Warehouses.messages) [] scenario_root) as Hs.
  { apply rtc_once. eapply (step_create _ "root" (w_create "Main" true None) None);
      [set_solver|vm_compute; reflexivity]. }
  split; [exact Hs|]. exact (tree_reachable_ok Warehouses.messages [] scenario_root eq_refl Hs).
Defined.

Lemma tree_create_spec_witness :
  ∃ r t', tree_create Warehouses.messages "aisle" (w_create "Aisle" false (Some "root")) None
            scenario_child = Ok (r, t') ∧ tree_ok t'.
Proof.
  assert ("aisle" ∉ pk <$> scenario_child) as Hf
    by (apply (bool_decide_unpack _); vm_compute; exact I).
  pose proof (tree_create_spec Warehouses.messages "aisle" (w_create "Aisle" false (Some "root"))
                None scenario_child scenario_child_ok Hf) as H.
  destruct (tree_create _ _ _ _ _) as [[r t']|e] eqn:E; [|vm_compute in E; discriminate E].
  exists r, t'. split; [reflexivity|exact (proj1 H)].
Defined.

Lemma tree_update_spec_witness :
  ∃ r t', tree_update Warehouses.messages "bin"
            (UpdateDTO (Some "Shelf") None None None (Some None)) None scenario_child = Ok (r, t')
          ∧ tree_ok t'.
Proof.
  pose proof (tree_update_spec Warehouses.messages "bin"
                (UpdateDTO (Some "Shelf") None None None (Some None)) None
                scenario_child scenario_child_ok) as H.
  destruct (tree_update _ _ _ _ _) as [[r t']|e] eqn:E; [|vm_compute in E; discriminate E].
  exists r, t'. split; [reflexivity|exact (proj1 H)].
Defined.

Lemma tree_delete_spec_witness :
  ∃ t', tree_delete Warehouses.messages 7 "bin" true None scenario_child = Ok t' ∧ tree_ok t'.
Proof.
  pose proof (tree_delete_spec Warehouses.messages 7 "bin" true None scenario_child
                scenario_child_ok) as H.
  destruct (tree_delete _ _ _ _ _ _) as [t'|e] eqn:E; [|vm_compute in E; discriminate E].
  exists t'. split; [reflexivity|exact (proj1 H)].
Defined.
