(* ===== verification/PermissionResolver.v ===== *)
(** * Permission resolution

    Model of [PermissionResolverService]
    (src/apps/iam/src/modules/access/services/permission-resolver.service.ts):
    from a user through roles, policies and statements to the net permission
    set ([resolveForUser], [resolveForPolicyIds]) and the request-time
    evaluation of conditions ([evaluate]).

    The tables are read through the [Database] interface; loading a relation
    ([relations: ['roles']]) is a join on the link table that, like every find,
    skips soft-deleted rows.  The date of today and the parts of [Date.parse]
    and [RegExp] that depend on the engine are arguments. *)

From S2P Require Import Prelude JsString JsValues Repo.
#[local] Open Scope string_scope.

(** ** Tables *)

Inductive effect := allow | deny.
#[export] Instance effect_eq_dec : EqDecision effect.
Proof. solve_decision. Defined.

Record user := User { user_pk : string; user_deleted : option Z }.
Record role := Role { role_pk : string; role_code : string; role_deleted : option Z }.
(** [valid_from]/[valid_until]: what [toDateOnly] makes of the column. *)
Record policy := Policy {
  policy_pk : string; is_active : bool; valid_from : option string; valid_until : option string;
  policy_deleted : option Z;
}.
Record statement := Statement {
  statement_pk : string; policy_id : string; statement_effect : effect; statement_plane : string;
  statement_deleted : option Z;
}.
Record target := Target {
  target_pk : string; target_statement : string; target_service : string;
  target_resource : string; target_deleted : option Z;
}.
Record action := Action {
  action_pk : string; action_statement : string; permission_id : string;
  action_deleted : option Z;
}.
Record condition := Condition {
  condition_pk : string; condition_statement : string; operator : string;
  condition_key : string; condition_value : string; condition_deleted : option Z;
}.
Record permission := Permission {
  permission_pk : string; permission_string : string; permission_deleted : option Z;
}.

#[export] Instance user_entity : Entity user := { pk := user_pk; deleted_at := user_deleted }.
#[export] Instance role_entity : Entity role := { pk := role_pk; deleted_at := role_deleted }.
#[export] Instance policy_entity : Entity policy := { pk := policy_pk; deleted_at := policy_deleted }.
#[export] Instance statement_entity : Entity statement :=
  { pk := statement_pk; deleted_at := statement_deleted }.
#[export] Instance target_entity : Entity target := { pk := target_pk; deleted_at := target_deleted }.
#[export] Instance action_entity : Entity action := { pk := action_pk; deleted_at := action_deleted }.
#[export] Instance condition_entity : Entity condition :=
  { pk := condition_pk; deleted_at := condition_deleted }.
#[export] Instance permission_entity : Entity permission :=
  { pk := permission_pk; deleted_at := permission_deleted }.

Record iam_db (T : Type → Type) := IamDb {
  users : T user;
  roles : T role;
  users_roles : list (string * string);      (* (user_id, role_id) *)
  roles_policies : list (string * string);   (* (role_id, policy_id) *)
  policies : T policy;
  statements : T statement;
  targets : T target;
  actions : T action;
  conditions : T condition;
  permissions : T permission;
}.
Arguments IamDb {T}. Arguments users {T}. Arguments roles {T}. Arguments users_roles {T}.
Arguments roles_policies {T}. Arguments policies {T}. Arguments statements {T}.
Arguments targets {T}. Arguments actions {T}. Arguments conditions {T}. Arguments permissions {T}.

(** ** Resolved statements *)

Record resolved := Resolved {
  r_effect : effect;
  r_permissions : list string;
  r_hasConditions : bool;
  r_targets : list (string * string);
  r_conditions : list condition;
}.

Record resolution := Resolution {
  res_roles : list string;
  res_permissions : list string;
  res_conditional : list string;
}.

(** *** [computeAllowDenyConditional]: three sets, kept in insertion order. *)
Record net := Net { net_allow : list string; net_deny : list string; net_conditional : list string }.

Definition set_add (x : string) (l : list string) : list string :=
  if includes l x then l else l ++ [x].

Definition classify (s : resolved) (n : net) (p : string) : net :=
  if r_hasConditions s then Net (net_allow n) (net_deny n) (set_add p (net_conditional n))
  else match r_effect s with
       | allow => Net (set_add p (net_allow n)) (net_deny n) (net_conditional n)
       | deny => Net (net_allow n) (set_add p (net_deny n)) (net_conditional n)
       end.

Definition computeAllowDenyConditional (l : list resolved) : list string * list string :=
  let n := foldl (λ n s, foldl (classify s) n (r_permissions s)) (Net [] [] []) l in
  (List.filter (λ p, negb (includes (net_deny n) p) && negb (includes (net_conditional n) p))
     (net_allow n),
   net_conditional n).

Section resolver.
Context {T : Type → Type} `{Database T}.
Implicit Types (db : iam_db T).

(** [!bound || today >= bound], as the early returns have it; [''] is falsy. *)
Definition isPolicyValidNow (today : string) (p : policy) : bool :=
  match valid_from p with
  | Some f => negb (negb (String.eqb f "") && str_lt today f)
  | None => true
  end &&
  match valid_until p with
  | Some u => negb (negb (String.eqb u "") && str_lt u today)
  | None => true
  end.

(** The rows [relations: ['roles']] attaches to a user, and
    [relations: ['policies']] to a role. *)
Definition user_roles db (u : user) : list role :=
  repo_find (λ r, includes (users_roles db) (pk u, pk r)) (roles db).
Definition role_policies db (r : role) : list policy :=
  repo_find (λ p, includes (roles_policies db) (pk r, pk p)) (policies db).

Definition role_ids db (userId : string) : list string :=
  match repo_findById userId (users db) with
  | Some u => js_set (List.map pk (user_roles db u))
  | None => []
  end.

Definition find_in {R} `{Entity R} (ids : list string) (t : T R) : list R :=
  repo_find (λ r, includes ids (pk r)) t.

Definition active_policies db (today : string) (policyIds : list string) : list policy :=
  List.filter (isPolicyValidNow today)
    (repo_find (λ p, includes policyIds (pk p) && is_active p) (policies db)).

(** [new Map(permissions.map((p) => [p.id, p.permission]))] *)
Definition permission_map (ps : list permission) : gmap string string :=
  foldl (λ m p, <[pk p := permission_string p]> m) ∅ ps.

Definition resolve_one (tgs : list target) (acts : list action) (conds : list condition)
    (permissionById : gmap string string) (s : statement) : resolved :=
  let mine := List.filter (λ c, String.eqb (condition_statement c) (pk s)) conds in
  Resolved (statement_effect s)
    (omap (λ a, permissionById !! permission_id a)
       (List.filter (λ a, String.eqb (action_statement a) (pk s)) acts))
    (existsb (λ c, String.eqb (condition_statement c) (pk s)) conds)
    (List.map (λ t, (target_service t, target_resource t))
       (List.filter (λ t, String.eqb (target_statement t) (pk s)) tgs))
    mine.

Definition resolveStatements db (policyIds : list string) (filter : option string)
    : list resolved :=
  match policyIds with
  | [] => []
  | _ =>
      match repo_find (λ s, includes policyIds (policy_id s)) (statements db) with
      | [] => []
      | stmts =>
          let ids := List.map pk stmts in
          let tgs := repo_find (λ t, includes ids (target_statement t)) (targets db) in
          let acts := repo_find (λ a, includes ids (action_statement a)) (actions db) in
          let conds := repo_find (λ c, includes ids (condition_statement c)) (conditions db) in
          let perms :=
            match js_set (List.map permission_id acts) with
            | [] => []
            | permissionIds => find_in permissionIds (permissions db)
            end in
          List.filter
            (λ s, match filter with None => true | Some p => includes (r_permissions s) p end)
            (List.map (resolve_one tgs acts conds (permission_map perms)) stmts)
      end
  end.

Definition resolveForUser db (today userId : string) : resolution :=
  match role_ids db userId with
  | [] => Resolution [] [] []
  | roleIds =>
      let rs := find_in roleIds (roles db) in
      match js_set (flat_map (λ r, List.map pk (role_policies db r)) rs) with
      | [] => Resolution (List.map role_code rs) [] []
      | policyIds =>
          let stmts := resolveStatements db (List.map pk (active_policies db today policyIds)) None in
          let '(permissions, conditional) := computeAllowDenyConditional stmts in
          Resolution (List.map role_code rs) permissions conditional
      end
  end.

Definition resolveForPolicyIds db (today : string) (policyIds : list string)
    : list string * list string :=
  match policyIds with
  | [] => ([], [])
  | _ =>
      match active_policies db today policyIds with
      | [] => ([], [])
      | active => computeAllowDenyConditional (resolveStatements db (List.map pk active) None)
      end
  end.

(** *** Conditions *)
Context (engine_date : string → option Z) (engine_regexp : string → string → result bool).
Abbreviation context := (gmap string string).

(** [s.replace(/\*/g, '.*')] *)
Definition like_pattern (expected : string) : string := replace_char "*" ".*" expected.

Definition evaluateCondition (c : condition) (userId : string) (ctx : context) : result bool :=
  let expected := replace_text "${user.id}" userId (condition_value c) in
  match ctx !! condition_key c with
  | None => Ok false
  | Some actual =>
      let op_is := String.eqb (operator c) in
      if op_is "StringEquals" then Ok (String.eqb actual expected)
      else if op_is "StringLike" then anchored_test engine_regexp (like_pattern expected) actual
      else if op_is "NumericEquals" then Ok (num_eq (Number actual) (Number expected))
      else if op_is "NumericGreaterThan" then Ok (num_gt (Number actual) (Number expected))
      else if op_is "NumericLessThan" then Ok (num_lt (Number actual) (Number expected))
      else if op_is "DateGreaterThan" then
        Ok (time_gt (Date_parse engine_date actual) (Date_parse engine_date expected)
            || str_lt expected actual)
      else if op_is "DateLessThan" then
        Ok (time_gt (Date_parse engine_date expected) (Date_parse engine_date actual)
            || str_lt actual expected)
      else if op_is "IpAddress" then Ok (String.eqb actual expected)
      else Ok false
  end.

(** [every] and [some] with a callback that may throw. *)
Fixpoint every {A} (f : A → result bool) (l : list A) : result bool :=
  match l with
  | [] => Ok true
  | a :: l' => let! b := f a in if b then every f l' else Ok false
  end.
Fixpoint some {A} (f : A → result bool) (l : list A) : result bool :=
  match l with
  | [] => Ok false
  | a :: l' => let! b := f a in if b then Ok true else some f l'
  end.

Definition conditionsHold (cs : list condition) (userId : string) (ctx : context) : result bool :=
  match cs with
  | [] => Ok true
  | _ => every (λ c, evaluateCondition c userId ctx) cs
  end.

Definition evaluate db (today userId service perm : string) (ctx : context) : result bool :=
  match role_ids db userId with
  | [] => Ok false
  | roleIds =>
      let rs := find_in roleIds (roles db) in
      match js_set (flat_map (λ r, List.map pk (role_policies db r)) rs) with
      | [] => Ok false
      | policyIds =>
          let stmts := resolveStatements db (List.map pk (active_policies db today policyIds))
                         (Some perm) in
          let matches l := List.filter (λ s, includes (r_permissions s) perm) l in
          let holds s := conditionsHold (r_conditions s) userId ctx in
          let denyStatements := matches (List.filter (λ s, bool_decide (r_effect s = deny)) stmts) in
          let! denied := some holds denyStatements in
          if denied then Ok false
          else some holds (matches (List.filter (λ s, bool_decide (r_effect s = allow)) stmts))
      end
  end.
End resolver.

(** ** Specification: what a user holds, as relations on the tables *)
Section specification.
Context {T : Type → Type} `{Database T} (db : iam_db T).

Definition live {R} `{Entity R} (t : T R) (r : R) : Prop := r ∈ rows t ∧ deleted_at r = None.

(** A policy id whose policy is active and within its dates today. *)
Definition in_force (today pid : string) : Prop :=
  ∃ p, live (policies db) p ∧ pk p = pid ∧ is_active p = true ∧ isPolicyValidNow today p = true.

Definition has_role (userId rid : string) : Prop :=
  (∃ u, live (users db) u ∧ pk u = userId) ∧ (∃ r, live (roles db) r ∧ pk r = rid) ∧
  (userId, rid) ∈ users_roles db.

Definition holds_policy (today userId pid : string) : Prop :=
  ∃ rid, has_role userId rid ∧ (rid, pid) ∈ roles_policies db ∧ in_force today pid.

(** The statements of a set of policies. *)
Definition stated (P : string → Prop) (s : statement) : Prop :=
  live (statements db) s ∧ P (policy_id s).

Definition mentions (s : statement) (perm : string) : Prop :=
  ∃ a p, live (actions db) a ∧ action_statement a = pk s ∧
         live (permissions db) p ∧ pk p = permission_id a ∧ permission_string p = perm.

Definition condition_of (s : statement) (c : condition) : Prop :=
  live (conditions db) c ∧ condition_statement c = pk s.
Definition conditional (s : statement) : Prop := ∃ c, condition_of s c.

(** Some statement of [P] with the effect mentions the permission without
    conditions, respectively with conditions. *)
Definition unconditionally (P : string → Prop) (e : effect) (perm : string) : Prop :=
  ∃ s, stated P s ∧ statement_effect s = e ∧ mentions s perm ∧ ¬ conditional s.
Definition conditionally (P : string → Prop) (perm : string) : Prop :=
  ∃ s, stated P s ∧ mentions s perm ∧ conditional s.

(** [r] is the resolved form of [s]. *)
Record describes (s : statement) (r : resolved) : Prop := {
  d_effect : r_effect r = statement_effect s;
  d_permissions perm : perm ∈ r_permissions r ↔ mentions s perm;
  d_hasConditions : r_hasConditions r = true ↔ conditional s;
  d_conditions c : c ∈ r_conditions r ↔ condition_of s c;
}.
End specification.

(** ** The sets of [computeAllowDenyConditional] *)

Lemma elem_of_set_add x y l : y ∈ set_add x l ↔ y = x ∨ y ∈ l.
Proof.
  unfold set_add. destruct (includes l x) eqn:Hx; [apply includes_true in Hx; naive_solver|].
  rewrite elem_of_app, list_elem_of_singleton. naive_solver.
Qed.

(** Which of the three sets a statement's permissions go to. *)
Definition set_of (k : bool * effect) (n : net) : list string :=
  match k with
  | (true, _) => net_conditional n
  | (false, allow) => net_allow n
  | (false, deny) => net_deny n
  end.
Definition goes_to (k : bool * effect) (r : resolved) : Prop :=
  match k with
  | (true, _) => r_hasConditions r = true
  | (false, e) => r_hasConditions r = false ∧ r_effect r = e
  end.

Lemma classify_set k r n p x :
  x ∈ set_of k (classify r n p) ↔ (goes_to k r ∧ x = p) ∨ x ∈ set_of k n.
Proof.
  unfold classify, goes_to. destruct k as [[] []], (r_hasConditions r) eqn:?, (r_effect r) eqn:?; simpl;
    rewrite ?elem_of_set_add; naive_solver.
Qed.

Lemma classify_all k r n ps x :
  x ∈ set_of k (foldl (classify r) n ps) ↔ (goes_to k r ∧ x ∈ ps) ∨ x ∈ set_of k n.
Proof.
  revert n. induction ps as [|p ps IH]; intros n; simpl; [set_solver|].
  rewrite IH, classify_set, elem_of_cons. naive_solver.
Qed.

Lemma net_sets k (l : list resolved) n x :
  x ∈ set_of k (foldl (λ n s, foldl (classify s) n (r_permissions s)) n l) ↔
    (∃ r, r ∈ l ∧ goes_to k r ∧ x ∈ r_permissions r) ∨ x ∈ set_of k n.
Proof.
  revert n. induction l as [|r l IH]; intros n; simpl.
  - split; [auto|]. by intros [(r & Hr%not_elem_of_nil & _)|?].
  - rewrite IH, classify_all. setoid_rewrite elem_of_cons. naive_solver.
Qed.

Lemma compute_sets (l : list resolved) x :
  (x ∈ (computeAllowDenyConditional l).1 ↔
     (∃ r, r ∈ l ∧ goes_to (false, allow) r ∧ x ∈ r_permissions r) ∧
     ¬ (∃ r, r ∈ l ∧ goes_to (false, deny) r ∧ x ∈ r_permissions r) ∧
     ¬ (∃ r, r ∈ l ∧ goes_to (true, allow) r ∧ x ∈ r_permissions r)) ∧
  (x ∈ (computeAllowDenyConditional l).2 ↔
     ∃ r, r ∈ l ∧ goes_to (true, allow) r ∧ x ∈ r_permissions r).
Proof.
  unfold computeAllowDenyConditional.
  set (n := foldl _ _ l). simpl.
  assert (∀ k, x ∈ set_of k n ↔ ∃ r, r ∈ l ∧ goes_to k r ∧ x ∈ r_permissions r) as Hn.
  { intros k. unfold n. rewrite net_sets. destruct k as [[] []]; simpl; set_solver. }
  rewrite elem_of_List_filter, andb_true_iff, !negb_true_iff, !includes_false.
  rewrite <- (Hn (false, allow)), <- (Hn (false, deny)), <- (Hn (true, allow)). simpl. naive_solver.
Qed.

(** ** What the resolver reads *)
Section resolution.
Context {T : Type → Type} `{DatabaseLaws T} (db : iam_db T).
Context (Huniq : NoDup (pk <$> rows (permissions db))).

Lemma elem_of_find {R} `{Entity R} (p : R → bool) (t : T R) r :
  r ∈ repo_find p t ↔ live t r ∧ p r = true.
Proof. rewrite elem_of_repo_find. unfold live. naive_solver. Qed.

Lemma permission_map_lookup (ps : list permission) k v :
  NoDup (pk <$> ps) →
  permission_map ps !! k = Some v ↔ ∃ p, p ∈ ps ∧ pk p = k ∧ permission_string p = v.
Proof.
  unfold permission_map. induction ps as [|q ps IH] using rev_ind; intros Hnd.
  - simpl. rewrite lookup_empty. set_solver.
  - rewrite fmap_app in Hnd. apply NoDup_app in Hnd as (Hnd & Hdis & _).
    rewrite foldl_app. simpl. rewrite lookup_insert. setoid_rewrite elem_of_app.
    setoid_rewrite list_elem_of_singleton. case_decide as Hk.
    + split; [intros [= <-]; exists q; split_and!; [by right|exact Hk|done]|].
      intros (p & [Hp| ->] & Hpk & <-); [|done]. exfalso.
      apply (Hdis k); [rewrite <- Hpk; by apply list_elem_of_fmap_2|].
      apply list_elem_of_fmap. exists q. split; [by symmetry|left].
    + rewrite IH by done. split; [naive_solver|]. intros (p & [Hp| ->] & Hpk & Hv); [eauto|].
      by destruct Hk.
Qed.

Lemma NoDup_pk_find {R} `{Entity R} (f : R → bool) (t : T R) :
  NoDup (pk <$> rows t) → NoDup (pk <$> repo_find f t).
Proof. intros Hnd. unfold repo_find. rewrite select_rows. by apply NoDup_pk_filter. Qed.

Section one.
Context (stmts : list statement) (s : statement) (Hs : s ∈ stmts).
Abbreviation ids := (List.map pk stmts).
Abbreviation acts := (repo_find (λ a, includes ids (action_statement a)) (actions db)).
Abbreviation perms :=
  (match js_set (List.map permission_id acts) with
   | [] => []
   | permissionIds => find_in permissionIds (permissions db)
   end).

Lemma mine_ids : includes ids (pk s) = true.
Proof. apply includes_true, elem_of_List_map. eauto. Qed.

Lemma perms_find p : p ∈ perms ↔
  live (permissions db) p ∧ pk p ∈ List.map permission_id acts.
Proof.
  rewrite <- (elem_of_js_set (List.map permission_id acts)).
  destruct (js_set _) as [|i l]; [set_solver|].
  unfold find_in. by rewrite elem_of_find, includes_true.
Qed.

Lemma perms_NoDup : NoDup (pk <$> perms).
Proof. destruct (js_set _) as [|i l]; [constructor|]. by apply NoDup_pk_find. Qed.

Lemma resolve_one_describes tgs :
  describes db s
    (resolve_one tgs acts (repo_find (λ c, includes ids (condition_statement c)) (conditions db))
       (permission_map perms) s).
Proof.
  assert (∀ c, c ∈ List.filter (λ c, String.eqb (condition_statement c) (pk s))
    (repo_find (λ c, includes ids (condition_statement c)) (conditions db)) ↔ condition_of db s c)
    as Hconds.
  { intros c. rewrite elem_of_List_filter, elem_of_find, String.eqb_eq. unfold condition_of.
    split; [naive_solver|]. intros [Hl Hc]. split_and!; [done| |done].
    rewrite Hc. apply mine_ids. }
  split; [done| | |exact Hconds].
  - intros perm. simpl. rewrite list_elem_of_omap. split.
    + intros (a & [[Ha _]%elem_of_find Hsa%String.eqb_eq]%elem_of_List_filter & Hp).
      apply permission_map_lookup in Hp as (p & [Hp _]%perms_find & Hpk & <-); [|apply perms_NoDup].
      by exists a, p.
    + intros (a & p & Ha & Hsa & Hp & Hpk & <-). exists a.
      assert (a ∈ acts) as Hin by (apply elem_of_find; split; [done|]; rewrite Hsa; apply mine_ids).
      split; [apply elem_of_List_filter; split; [done|by apply String.eqb_eq]|].
      apply permission_map_lookup; [apply perms_NoDup|]. exists p. split_and!; [|done..].
      apply perms_find. split; [done|]. rewrite Hpk. apply elem_of_List_map. eauto.
  - simpl. rewrite existsb_true. unfold conditional. setoid_rewrite <- Hconds.
    setoid_rewrite elem_of_List_filter. done.
Qed.
End one.

(** Every resolved statement is one of the given policies', and conversely. *)
Lemma resolveStatements_spec pids filter r :
  r ∈ resolveStatements db pids filter →
  (∃ s, stated db (.∈ pids) s ∧ describes db s r) ∧
  (∀ perm, filter = Some perm → perm ∈ r_permissions r).
Proof.
  unfold resolveStatements. destruct pids as [|i pids]; [set_solver|].
  destruct (repo_find _ (statements db)) as [|s0 stmts] eqn:Hst; [set_solver|].
  cbv zeta. intros [(s & Hs & ->)%elem_of_List_map Hf]%elem_of_List_filter. split.
  - exists s. split; [|by apply resolve_one_describes].
    rewrite <- Hst in Hs. apply elem_of_find in Hs as [Hl Hi%includes_true]. done.
  - intros perm ->. by apply includes_true in Hf.
Qed.

Lemma resolveStatements_complete pids filter s :
  stated db (.∈ pids) s → (∀ perm, filter = Some perm → mentions db s perm) →
  ∃ r, r ∈ resolveStatements db pids filter ∧ describes db s r.
Proof.
  intros [Hl Hi] Hf. unfold resolveStatements. destruct pids as [|i pids]; [set_solver|].
  assert (s ∈ repo_find (λ s, includes (i :: pids) (policy_id s)) (statements db)) as Hs
    by (apply elem_of_find; split; [done|by apply includes_true]).
  destruct (repo_find _ (statements db)) as [|s0 stmts] eqn:Hst; [set_solver|]. cbv zeta.
  pose proof (resolve_one_describes (s0 :: stmts) s Hs
    (repo_find (λ t, includes (List.map pk (s0 :: stmts)) (target_statement t)) (targets db))) as Hd.
  eexists. split; [|exact Hd]. apply elem_of_List_filter. split.
  - apply elem_of_List_map. by exists s.
  - destruct filter as [perm|]; [|done]. apply includes_true.
    apply (d_permissions _ _ _ Hd). by apply Hf.
Qed.
End resolution.

(** ** From a user to the statements in force *)
Section user.
Context {T : Type → Type} `{DatabaseLaws T} (db : iam_db T).
Context (Huniq : NoDup (pk <$> rows (permissions db))).

Lemma elem_of_active today pids i :
  i ∈ List.map pk (active_policies db today pids) ↔ i ∈ pids ∧ in_force db today i.
Proof.
  rewrite elem_of_List_map. unfold active_policies, in_force.
  setoid_rewrite elem_of_List_filter. setoid_rewrite elem_of_find.
  setoid_rewrite andb_true_iff. setoid_rewrite includes_true. split.
  - intros (p & ((Hl & Hi & Ha) & Hv) & ->). naive_solver.
  - intros (Hi & p & Hl & <- & Ha & Hv). naive_solver.
Qed.

Lemma elem_of_role_ids userId rid : rid ∈ role_ids db userId ↔ has_role db userId rid.
Proof.
  unfold role_ids, has_role. destruct (repo_findById userId (users db)) as [u|] eqn:Hu.
  - apply repo_findOne_Some in Hu as (Hu & Hk%has_pk_true & Hd).
    rewrite elem_of_js_set, elem_of_List_map. unfold user_roles.
    setoid_rewrite elem_of_find. setoid_rewrite includes_true. rewrite Hk. split.
    + intros (r & [Hl Hin] & ->). split_and!; [by exists u|by exists r|done].
    + intros (_ & (r & Hl & <-) & Hin). by exists r.
  - split; [set_solver|]. intros ((u & [Hu' Hd] & Hk) & _). exfalso.
    apply (repo_findOne_None _ _ Hu u Hu'); [by apply has_pk_true|done].
Qed.

(** The ids collected from the roles' policies. *)
Abbreviation policy_ids userId :=
  (js_set (flat_map (λ r, List.map pk (role_policies db r))
     (find_in (role_ids db userId) (roles db)))).

Lemma elem_of_policy_ids today userId pid :
  in_force db today pid →
  pid ∈ policy_ids userId ↔ holds_policy db today userId pid.
Proof.
  intros Hf. rewrite elem_of_js_set, elem_of_flat_map. unfold find_in, role_policies, holds_policy.
  setoid_rewrite elem_of_List_map. setoid_rewrite elem_of_find. setoid_rewrite includes_true.
  setoid_rewrite elem_of_role_ids. split.
  - intros (r & [_ Hr] & p & [_ Hp] & ->). eauto.
  - intros (rid & Hr & Hp & _). destruct Hr as (Hu & (r & Hl & <-) & Hin).
    destruct Hf as (p & Hlp & <- & _). exists r. split; [split; [done|]|eauto].
    split_and!; [done|by exists r|done].
Qed.

(** The statements both operations work on. *)
Definition user_statements (today userId : string) (filter : option string) : list resolved :=
  resolveStatements db (List.map pk (active_policies db today (policy_ids userId))) filter.

Lemma user_statements_nil today userId filter :
  policy_ids userId = [] → user_statements today userId filter = [].
Proof.
  intros Hn. unfold user_statements.
  destruct (List.map pk (active_policies db today (policy_ids userId))) as [|i l] eqn:Hl; [done|].
  assert (i ∈ List.map pk (active_policies db today (policy_ids userId))) as Hi by (rewrite Hl; left).
  apply elem_of_active in Hi as [Hi _]. rewrite Hn in Hi. by apply not_elem_of_nil in Hi.
Qed.

Lemma policy_ids_no_roles userId : role_ids db userId = [] → policy_ids userId = [].
Proof.
  intros Hr. apply js_set_nil_iff. rewrite Hr.
  destruct (find_in [] (roles db)) as [|r l] eqn:Hf; [done|].
  assert (r ∈ find_in [] (roles db)) as Hin by (rewrite Hf; left).
  apply elem_of_find in Hin as [_ Hin%includes_true]. by apply not_elem_of_nil in Hin.
Qed.

(** Early returns aside, [resolveForUser] nets the user's statements. *)
Lemma resolveForUser_statements today userId :
  let r := resolveForUser db today userId in
  (res_permissions r, res_conditional r)
  = computeAllowDenyConditional (user_statements today userId None).
Proof.
  simpl. unfold resolveForUser.
  pose proof (user_statements_nil today userId None) as Hn.
  pose proof (policy_ids_no_roles userId) as Hr. unfold user_statements in *.
  destruct (role_ids db userId) as [|i l] eqn:Hroles.
  - rewrite (Hn (Hr eq_refl)). done.
  - destruct (js_set _) as [|j l'] eqn:Hp; [by rewrite Hn|].
    by destruct (computeAllowDenyConditional _).
Qed.

Lemma evaluate_statements engine_date engine_regexp today userId service perm ctx :
  evaluate engine_date engine_regexp db today userId service perm ctx =
  let holds s := conditionsHold engine_date engine_regexp (r_conditions s) userId ctx in
  let matching e := List.filter (λ s, includes (r_permissions s) perm)
    (List.filter (λ s, bool_decide (r_effect s = e)) (user_statements today userId (Some perm))) in
  let! denied := some holds (matching deny) in
  if denied then Ok false else some holds (matching allow).
Proof.
  unfold evaluate.
  pose proof (user_statements_nil today userId (Some perm)) as Hn.
  pose proof (policy_ids_no_roles userId) as Hr. unfold user_statements in *.
  destruct (role_ids db userId) as [|i l] eqn:Hroles.
  - rewrite (Hn (Hr eq_refl)). done.
  - destruct (js_set _) as [|j l'] eqn:Hp; [by rewrite Hn|]. done.
Qed.

Lemma user_statements_spec today userId filter r :
  r ∈ user_statements today userId filter →
  (∃ s, stated db (holds_policy db today userId) s ∧ describes db s r) ∧
  (∀ perm, filter = Some perm → perm ∈ r_permissions r).
Proof.
  intros [(s & [Hl Hi] & Hd) Hf]%resolveStatements_spec; [|done].
  split; [|done]. exists s. split; [|done]. split; [done|].
  apply elem_of_active in Hi as [Hi Hforce]. by apply elem_of_policy_ids.
Qed.

Lemma user_statements_complete today userId filter s :
  stated db (holds_policy db today userId) s →
  (∀ perm, filter = Some perm → mentions db s perm) →
  ∃ r, r ∈ user_statements today userId filter ∧ describes db s r.
Proof.
  intros [Hl Hp] Hf. apply resolveStatements_complete; [done| |done]. split; [done|].
  assert (in_force db today (policy_id s)) as Hforce by by destruct Hp as (_ & _ & _ & ?).
  apply elem_of_active. split; [|done]. by eapply elem_of_policy_ids.
Qed.

(** A resolved statement of a kind, in terms of the tables. *)
Lemma goes_to_unconditional s r e :
  describes db s r → goes_to (false, e) r ↔ statement_effect s = e ∧ ¬ conditional db s.
Proof.
  intros Hd. simpl. rewrite (d_effect _ _ _ Hd), <- (d_hasConditions _ _ _ Hd), not_true_iff_false.
  naive_solver.
Qed.

Lemma net_of_statements (P : string → Prop) (l : list resolved) x :
  (∀ r, r ∈ l → ∃ s, stated db P s ∧ describes db s r) →
  (∀ s, stated db P s → ∃ r, r ∈ l ∧ describes db s r) →
  (x ∈ (computeAllowDenyConditional l).1 ↔
     unconditionally db P allow x ∧ ¬ unconditionally db P deny x ∧ ¬ conditionally db P x) ∧
  (x ∈ (computeAllowDenyConditional l).2 ↔ conditionally db P x).
Proof.
  intros Hsound Hcomplete.
  assert (∀ e, (∃ r, r ∈ l ∧ goes_to (false, e) r ∧ x ∈ r_permissions r) ↔ unconditionally db P e x)
    as Hu.
  { intros e. split.
    - intros (r & Hr & Hg & Hx). destruct (Hsound r Hr) as (s & Hs & Hd).
      apply (goes_to_unconditional s r e Hd) in Hg as [He Hc].
      exists s. split_and!; [done..|by apply (d_permissions _ _ _ Hd)|done].
    - intros (s & Hs & He & Hm & Hc). destruct (Hcomplete s Hs) as (r & Hr & Hd).
      exists r. split_and!; [done|by apply (goes_to_unconditional s r e Hd)|].
      by apply (d_permissions _ _ _ Hd). }
  assert ((∃ r, r ∈ l ∧ goes_to (true, allow) r ∧ x ∈ r_permissions r) ↔ conditionally db P x) as Hc.
  { split.
    - intros (r & Hr & Hg & Hx). destruct (Hsound r Hr) as (s & Hs & Hd).
      exists s. split_and!; [done|by apply (d_permissions _ _ _ Hd)|].
      by apply (d_hasConditions _ _ _ Hd).
    - intros (s & Hs & Hm & Hcs). destruct (Hcomplete s Hs) as (r & Hr & Hd).
      exists r. split_and!; [done|by apply (d_hasConditions _ _ _ Hd)|].
      by apply (d_permissions _ _ _ Hd). }
  pose proof (compute_sets l x) as [H1 H2]. rewrite H1, H2, !Hu, Hc. done.
Qed.

(** The codes of the roles: those of the live roles the user has. *)
Lemma user_role_codes today userId c :
  c ∈ res_roles (resolveForUser db today userId) ↔
  ∃ q, live (roles db) q ∧ has_role db userId (pk q) ∧ role_code q = c.
Proof.
  assert (c ∈ List.map role_code (find_in (role_ids db userId) (roles db)) ↔
    ∃ q, live (roles db) q ∧ has_role db userId (pk q) ∧ role_code q = c) as <-.
  { rewrite elem_of_List_map. unfold find_in. setoid_rewrite elem_of_find. setoid_rewrite includes_true.
    setoid_rewrite elem_of_role_ids. naive_solver. }
  unfold resolveForUser. destruct (role_ids db userId) as [|i l] eqn:Hr.
  - rewrite elem_of_List_map. unfold find_in. setoid_rewrite elem_of_find. setoid_rewrite includes_true.
    split; [by intros ?%elem_of_nil|]. by intros (q & [_ ?%elem_of_nil] & _).
  - destruct (js_set _); [done|]. by destruct (computeAllowDenyConditional _).
Qed.

Lemma user_net today userId x :
  let r := resolveForUser db today userId in
  (x ∈ res_permissions r ↔
     unconditionally db (holds_policy db today userId) allow x ∧
     ¬ unconditionally db (holds_policy db today userId) deny x ∧
     ¬ conditionally db (holds_policy db today userId) x) ∧
  (x ∈ res_conditional r ↔ conditionally db (holds_policy db today userId) x).
Proof.
  simpl. pose proof (resolveForUser_statements today userId) as Hr. simpl in Hr.
  destruct (computeAllowDenyConditional _) as [ps cs] eqn:Hc. injection Hr as -> ->.
  pose proof (net_of_statements (holds_policy db today userId) (user_statements today userId None) x)
    as Hnet.
  rewrite Hc in Hnet. apply Hnet.
  - intros r Hr. by apply user_statements_spec in Hr as [? _].
  - intros s Hs. by apply user_statements_complete.
Qed.

(** C1: the permission set of a user is exactly what the policies in force,
    reached through live roles, allow without conditions and no such policy
    denies; a permission that any of them makes conditional is listed apart; and
    the roles are the codes of the live roles the user has. *)
Theorem resolveForUser_net today userId x :
  let r := resolveForUser db today userId in
  (x ∈ res_permissions r ↔
     unconditionally db (holds_policy db today userId) allow x ∧
     ¬ unconditionally db (holds_policy db today userId) deny x ∧
     ¬ conditionally db (holds_policy db today userId) x) ∧
  (x ∈ res_conditional r ↔ conditionally db (holds_policy db today userId) x) ∧
  (x ∈ res_roles r ↔ ∃ q, live (roles db) q ∧ has_role db userId (pk q) ∧ role_code q = x).
Proof.
  intros r. destruct (user_net today userId x) as [Hp Hc]. split; [exact Hp|]. split; [exact Hc|].
  apply user_role_codes.
Qed.

(** An access key's permissions are the net of the attached policies that
    are in force, with the same deny-override. *)
Theorem resolveForPolicyIds_net today pids x :
  let P := λ pid, pid ∈ pids ∧ in_force db today pid in
  (x ∈ (resolveForPolicyIds db today pids).1 ↔
     unconditionally db P allow x ∧ ¬ unconditionally db P deny x ∧ ¬ conditionally db P x) ∧
  (x ∈ (resolveForPolicyIds db today pids).2 ↔ conditionally db P x).
Proof.
  intros P.
  assert (resolveForPolicyIds db today pids
    = computeAllowDenyConditional
        (resolveStatements db (List.map pk (active_policies db today pids)) None)) as ->.
  { unfold resolveForPolicyIds. destruct pids as [|i pids].
    - destruct (active_policies db today []) as [|p l] eqn:Ha; [done|].
      assert (pk p ∈ List.map pk (active_policies db today [])) as Hp by (rewrite Ha; left).
      apply elem_of_active in Hp as [Hp _]. by apply not_elem_of_nil in Hp.
    - by destruct (active_policies db today (i :: pids)). }
  apply net_of_statements.
  - intros r [(s & [Hl Hi] & Hd) _]%resolveStatements_spec; [|done].
    exists s. split; [|done]. split; [done|]. by apply elem_of_active in Hi.
  - intros s [Hl Hi]. apply resolveStatements_complete; [done| |done].
    split; [done|]. by apply elem_of_active.
Qed.
End user.

(** ** Request-time evaluation *)

Lemma every_spec {A} (f : A → result bool) l :
  match every f l with
  | Ok true => ∀ a, a ∈ l → f a = Ok true
  | Ok false => ∃ a, a ∈ l ∧ f a = Ok false
  | Throw e => ∃ a, a ∈ l ∧ f a = Throw e
  end.
Proof.
  induction l as [|a l IH]; simpl; [set_solver|].
  destruct (f a) as [[]|e] eqn:Hf; simpl; [|exists a; split; [left|done]..].
  destruct (every f l) as [[]|e]; simpl; set_solver.
Qed.

Lemma some_spec {A} (f : A → result bool) l :
  match some f l with
  | Ok true => ∃ a, a ∈ l ∧ f a = Ok true
  | Ok false => ∀ a, a ∈ l → f a = Ok false
  | Throw e => ∃ a, a ∈ l ∧ f a = Throw e
  end.
Proof.
  induction l as [|a l IH]; simpl; [set_solver|].
  destruct (f a) as [[]|e] eqn:Hf; simpl; [exists a; split; [left|done]| |exists a; split; [left|done]].
  destruct (some f l) as [[]|e]; simpl; set_solver.
Qed.

Section evaluation.
Context {T : Type → Type} `{DatabaseLaws T} (db : iam_db T).
Context (Huniq : NoDup (pk <$> rows (permissions db))).
Context (engine_date : string → option Z) (engine_regexp : string → string → result bool).
Context (today userId service perm : string) (ctx : gmap string string).

Abbreviation eval_condition c := (evaluateCondition engine_date engine_regexp c userId ctx).
Abbreviation P := (holds_policy db today userId).

Definition satisfied (s : statement) : Prop :=
  ∀ c, condition_of db s c → eval_condition c = Ok true.
Definition unsatisfied (s : statement) : Prop :=
  ∃ c, condition_of db s c ∧ eval_condition c = Ok false.

Lemma conditionsHold_spec s r :
  describes db s r →
  match conditionsHold engine_date engine_regexp (r_conditions r) userId ctx with
  | Ok true => satisfied s
  | Ok false => unsatisfied s
  | Throw e => ∃ c, condition_of db s c ∧ eval_condition c = Throw e
  end.
Proof.
  intros Hd. assert (conditionsHold engine_date engine_regexp (r_conditions r) userId ctx
    = every (λ c, eval_condition c) (r_conditions r)) as -> by by destruct (r_conditions r).
  pose proof (every_spec (λ c, eval_condition c) (r_conditions r)) as Hev.
  destruct (every _ _) as [[]|e]; [intros c Hc|..].
  - apply Hev. by apply (d_conditions _ _ _ Hd).
  - destruct Hev as (c & Hc & He). exists c. by rewrite <- (d_conditions _ _ _ Hd).
  - destruct Hev as (c & Hc & He). exists c. by rewrite <- (d_conditions _ _ _ Hd).
Qed.

Abbreviation matching e := (List.filter (λ s, includes (r_permissions s) perm)
  (List.filter (λ s, bool_decide (r_effect s = e)) (user_statements db today userId (Some perm)))).
Abbreviation holds_now s := (conditionsHold engine_date engine_regexp (r_conditions s) userId ctx).

Lemma matching_sound e r : r ∈ matching e →
  ∃ s, stated db P s ∧ describes db s r ∧ statement_effect s = e ∧ mentions db s perm.
Proof.
  intros [[Hr He%bool_decide_eq_true]%elem_of_List_filter Hp%includes_true]%elem_of_List_filter.
  apply user_statements_spec in Hr as [(s & Hs & Hd) _]; [|done]. exists s.
  split_and!; [done..| |].
  - by rewrite <- (d_effect _ _ _ Hd).
  - by apply (d_permissions _ _ _ Hd).
Qed.

Lemma matching_complete e s :
  stated db P s → statement_effect s = e → mentions db s perm → ∃ r, r ∈ matching e ∧ describes db s r.
Proof.
  intros Hs He Hm. destruct (user_statements_complete db Huniq today userId (Some perm) s)
    as (r & Hr & Hd); [done|naive_solver|].
  exists r. split; [|done]. apply elem_of_List_filter. split; [apply elem_of_List_filter; split|].
  - done.
  - apply bool_decide_eq_true. by rewrite (d_effect _ _ _ Hd).
  - apply includes_true. by apply (d_permissions _ _ _ Hd).
Qed.

Definition decides (out : result bool) : Prop :=
  match out with
  | Ok true =>
      (∃ s, stated db P s ∧ statement_effect s = allow ∧ mentions db s perm ∧ satisfied s) ∧
      (∀ s, stated db P s → statement_effect s = deny → mentions db s perm → unsatisfied s)
  | Ok false =>
      (∃ s, stated db P s ∧ statement_effect s = deny ∧ mentions db s perm ∧ satisfied s) ∨
      (∀ s, stated db P s → statement_effect s = allow → mentions db s perm → unsatisfied s)
  | Throw e => ∃ s c, stated db P s ∧ mentions db s perm ∧ condition_of db s c ∧
      eval_condition c = Throw e
  end.

(** The outcome of one side of the evaluation. *)
Lemma side_spec e :
  match some (λ s, holds_now s) (matching e) with
  | Ok true => ∃ s, stated db P s ∧ statement_effect s = e ∧ mentions db s perm ∧ satisfied s
  | Ok false => ∀ s, stated db P s → statement_effect s = e → mentions db s perm → unsatisfied s
  | Throw x => ∃ s c, stated db P s ∧ mentions db s perm ∧ condition_of db s c ∧
      eval_condition c = Throw x
  end.
Proof.
  pose proof (some_spec (λ s, holds_now s) (matching e)) as Hsome.
  destruct (some _ _) as [[]|x].
  - destruct Hsome as (r & (s & Hs & Hd & He & Hm)%matching_sound & Hh).
    pose proof (conditionsHold_spec s r Hd) as Hc. rewrite Hh in Hc. by exists s.
  - intros s Hs He Hm. destruct (matching_complete e s Hs He Hm) as (r & Hr & Hd).
    pose proof (conditionsHold_spec s r Hd) as Hc. by rewrite (Hsome r Hr) in Hc.
  - destruct Hsome as (r & (s & Hs & Hd & He & Hm)%matching_sound & Hh).
    pose proof (conditionsHold_spec s r Hd) as Hc. rewrite Hh in Hc.
    destruct Hc as (c & Hc & Hx). by exists s, c.
Qed.

Lemma evaluate_decides :
  decides (evaluate engine_date engine_regexp db today userId service perm ctx).
Proof.
  rewrite evaluate_statements.
  change (decides (let! denied := some (λ s, holds_now s) (matching deny) in
                   if denied then Ok false else some (λ s, holds_now s) (matching allow))).
  pose proof (side_spec deny) as Hdeny. pose proof (side_spec allow) as Hallow.
  destruct (some _ (matching deny)) as [[]|x]; [by left| |done].
  change (decides (some (λ s, holds_now s) (matching allow))).
  destruct (some _ (matching allow)) as [[]|x]; [by split|by right|done].
Qed.

(** C2: request-time evaluation grants a permission exactly when some allow
    statement in force has all its conditions met and every deny statement in
    force has one that fails; it throws only if a condition itself does. *)
Theorem evaluate_spec :
  decides (evaluate engine_date engine_regexp db today userId service perm ctx).
Proof. exact evaluate_decides. Qed.

Lemma evaluate_agrees :
  let r := resolveForUser db today userId in
  let now := evaluate engine_date engine_regexp db today userId service perm ctx in
  (perm ∈ res_permissions r → now = Ok true) ∧
  (perm ∉ res_permissions r → perm ∉ res_conditional r → now = Ok false).
Proof.
  intros r now. pose proof evaluate_decides as Hdec. fold now in Hdec. unfold decides in Hdec.
  destruct (user_net db Huniq today userId perm) as [Hperm Hcond]. fold r in Hperm, Hcond.
  assert (∀ s, stated db P s → mentions db s perm → ¬ conditionally db P perm → ¬ conditional db s)
    as Hnot by (intros s Hs Hm Hno Hc; apply Hno; by exists s).
  assert (∀ s, ¬ conditional db s → ¬ unsatisfied s) as Huns
    by (intros s Hc (c & Hcs & _); apply Hc; by exists c).
  assert (∀ s, ¬ conditional db s → satisfied s) as Hsat
    by (intros s Hc c Hcs; destruct Hc; by exists c).
  split.
  - intros (Ha & Hd & Hc)%Hperm. destruct now as [[]|x]; [done|exfalso..].
    + destruct Hdec as [(s & Hs & He & Hm & _)|Hall].
      * apply Hd. exists s. split_and!; [done..|]. by apply Hnot.
      * destruct Ha as (s & Hs & He & Hm & Hcs). by apply (Huns s Hcs), Hall.
    + destruct Hdec as (s & c & Hs & Hm & Hcs & _). apply (Hnot s Hs Hm Hc). by exists c.
  - rewrite Hperm, Hcond. intros Hno Hc. destruct now as [[]|x]; [exfalso|done|exfalso].
    + destruct Hdec as [(s & Hs & He & Hm & _) Hall]. apply Hno. split_and!; [| |done].
      * exists s. split_and!; [done..|]. by apply Hnot.
      * intros (s' & Hs' & He' & Hm' & Hc'). by apply (Huns s' Hc'), Hall.
    + destruct Hdec as (s & c & Hs & Hm & Hcs & _). apply (Hnot s Hs Hm Hc). by exists c.
Qed.
(** The two levels of the permission check agree: a permission resolved at
    login evaluates to true under every request context, and one in neither
    list to false, so asking again at request time can only matter for the
    conditional ones. *)
Theorem resolution_agrees_with_evaluate :
  let r := resolveForUser db today userId in
  let now := evaluate engine_date engine_regexp db today userId service perm ctx in
  (perm ∈ res_permissions r → now = Ok true) ∧
  (perm ∉ res_permissions r → perm ∉ res_conditional r → now = Ok false).
Proof. exact evaluate_agrees. Qed.
End evaluation.

(** ** Dates with different offsets

    [evaluateCondition] falls back on comparing the two strings even when both
    parse, so a condition on dates can hold in both directions. *)

Definition date_condition (op : string) : condition :=
  Condition "c" "s" op "shipped_at" "2024-05-31T20:00:00Z" None.
(** 2024-05-31T15:30Z, before the bound above. *)
Definition earlier_ctx : gmap string string := {["shipped_at" := "2024-06-01T00:30:00+09:00"]}.

(** Whatever the engine, a time before the bound satisfies both
    DateLessThan and DateGreaterThan. *)
Theorem date_conditions_overlap (engine_date : string → option Z)
    (engine_regexp : string → string → result bool) (userId : string) :
  iso_parse "2024-06-01T00:30:00+09:00" = Some 1717169400000%Z ∧
  iso_parse "2024-05-31T20:00:00Z" = Some 1717185600000%Z ∧
  evaluateCondition engine_date engine_regexp (date_condition "DateLessThan") userId earlier_ctx
    = Ok true ∧
  evaluateCondition engine_date engine_regexp (date_condition "DateGreaterThan") userId earlier_ctx
    = Ok true.
Proof. by split_and!. Qed.

(** ** Witnesses *)

Definition sample_db : iam_db list := {|
  users := [User "u1" None];
  roles := [Role "r1" "SALES" None; Role "r2" "OLD" (Some 5%Z)];
  users_roles := [("u1", "r1"); ("u1", "r2")];
  roles_policies := [("r1", "p1"); ("r2", "p2")];
  policies := [Policy "p1" true (Some "2024-01-01") (Some "2024-12-31") None;
               Policy "p2" true None None None];
  statements := [Statement "s1" "p1" allow "api" None; Statement "s2" "p1" deny "api" None;
                 Statement "s3" "p1" allow "api" None; Statement "s4" "p2" allow "api" None];
  targets := [Target "t1" "s1" "sales-bc" "*" None];
  actions := [Action "a1" "s1" "m1" None; Action "a2" "s1" "m2" None; Action "a3" "s2" "m2" None;
              Action "a4" "s3" "m3" None; Action "a5" "s4" "m4" None];
  conditions := [Condition "c1" "s3" "StringEquals" "owner_id" "${user.id}" None];
  permissions := [Permission "m1" "sales:read" None; Permission "m2" "sales:write" None;
                  Permission "m3" "sales:approve" None; Permission "m4" "sales:admin" None];
|}.

Definition no_date : string → option Z := λ _, None.
Definition no_regexp : string → string → result bool := λ _ _, Throw (PlainError "SyntaxError").

Example sample_resolution :
  resolveForUser sample_db "2024-12-31" "u1"
  = Resolution ["SALES"] ["sales:read"] ["sales:approve"] ∧
  resolveForUser sample_db "2025-01-01" "u1" = Resolution ["SALES"] [] [].
Proof. by vm_compute. Qed.
Example sample_evaluation :
  evaluate no_date no_regexp sample_db "2024-06-01" "u1" "*" "sales:approve" {["owner_id" := "u1"]}
  = Ok true ∧
  evaluate no_date no_regexp sample_db "2024-06-01" "u1" "*" "sales:approve" {["owner_id" := "u2"]}
  = Ok false.
Proof. by vm_compute. Qed.

Lemma sample_uniq : NoDup (pk <$> rows (permissions sample_db)).
Proof. apply (bool_decide_unpack _); vm_compute; exact I. Qed.

Lemma resolveForUser_net_witness :
  NoDup (pk <$> rows (permissions sample_db)) ∧
  unconditionally sample_db (holds_policy sample_db "2024-06-01" "u1") allow "sales:read".
Proof.
  split; [exact sample_uniq|].
  apply (proj1 (resolveForUser_net sample_db sample_uniq "2024-06-01" "u1" "sales:read")).
  vm_compute. apply list_elem_of_here.
Defined.

Lemma resolveForPolicyIds_net_witness :
  NoDup (pk <$> rows (permissions sample_db)) ∧
  conditionally sample_db (λ pid, pid ∈ ["p1"] ∧ in_force sample_db "2024-06-01" pid) "sales:approve".
Proof.
  split; [exact sample_uniq|].
  apply (proj2 (resolveForPolicyIds_net sample_db sample_uniq "2024-06-01" ["p1"] "sales:approve")).
  vm_compute. apply list_elem_of_here.
Defined.

Lemma evaluate_spec_witness :
  NoDup (pk <$> rows (permissions sample_db)) ∧
  decides sample_db no_date no_regexp "2024-06-01" "u1" "sales:approve" {["owner_id" := "u1"]}
    (evaluate no_date no_regexp sample_db "2024-06-01" "u1" "*" "sales:approve" {["owner_id" := "u1"]}).
Proof.
  split; [exact sample_uniq|].
  exact (evaluate_spec sample_db sample_uniq no_date no_regexp "2024-06-01" "u1" "*" "sales:approve" _).
Defined.

Lemma resolution_agrees_with_evaluate_witness :
  "sales:read" ∈ res_permissions (resolveForUser sample_db "2024-06-01" "u1") ∧
  evaluate no_date no_regexp sample_db "2024-06-01" "u1" "*" "sales:read" ∅ = Ok true.
Proof.
  assert ("sales:read" ∈ res_permissions (resolveForUser sample_db "2024-06-01" "u1")) as Hin
    by (vm_compute; apply list_elem_of_here).
  split; [exact Hin|].
  exact (proj1 (resolution_agrees_with_evaluate sample_db sample_uniq no_date no_regexp
    "2024-06-01" "u1" "*" "sales:read" ∅) Hin).
Defined.
