(* ===== verification/SessionStore.v ===== *)
(** * Redis and the session store

    Redis is not part of this repository: the class [Redis] has the commands
    the services send, and [RedisLaws] their documented effect.  The store is
    [SessionStoreService] (src/libs/common/src/services/session-store.service.ts):
    the keys [session:<jti>] with the session blob and the sets
    [user_sessions:<user_id>] that index them.

    A stored string is a value of [V]; [JSON.stringify] and [JSON.parse] are
    the class [Json].  Commands of a pipeline run in order; between two awaits
    of one operation another client's commands may run and keys may expire,
    which the interleaving theorem uses. *)

From S2P Require Import Prelude JsString.
#[local] Open Scope string_scope.
#[local] Open Scope Z_scope.

(** ** The commands *)

Class Redis (S V : Type) := {
  get : string → S → option V;
  ttl : string → S → Z;              (* -2 without key, -1 without expiry *)
  smembers : string → S → list string;
  setex : string → Z → V → S → S;
  del : string → S → S;
  sadd : string → string → S → S;
  srem : string → list string → S → S;
  (** [later s s']: only time has passed from [s] to [s']. *)
  later : S → S → Prop;
}.

(** The laws for keys of strings and keys of sets; a key is used as one or the
    other.  A [ttl] is rounded, so it may be 0 on a key that still answers. *)
Class RedisLaws (S V : Type) `{Redis S V} := {
  get_setex k n (v : V) (s : S) k' : 0 < n →
    get k' (setex k n v s) = if decide (k' = k) then Some v else get k' s;
  ttl_setex k n (v : V) (s : S) k' : 0 < n →
    ttl (V := V) k' (setex k n v s) = if decide (k' = k) then n else ttl (V := V) k' s;
  members_setex k n (v : V) (s : S) k' x : k' ≠ k →
    x ∈ smembers (V := V) k' (setex k n v s) ↔ x ∈ smembers (V := V) k' s;
  get_del k (s : S) k' :
    get (V := V) k' (del (V := V) k s) = if decide (k' = k) then None else get k' s;
  ttl_del k (s : S) k' :
    ttl (V := V) k' (del (V := V) k s) = if decide (k' = k) then -2 else ttl (V := V) k' s;
  members_del k (s : S) k' x :
    x ∈ smembers (V := V) k' (del (V := V) k s) ↔ k' ≠ k ∧ x ∈ smembers (V := V) k' s;
  get_sadd k y (s : S) k' : k' ≠ k → get (V := V) k' (sadd (V := V) k y s) = get k' s;
  ttl_sadd k y (s : S) k' : k' ≠ k →
    ttl (V := V) k' (sadd (V := V) k y s) = ttl (V := V) k' s;
  members_sadd k y (s : S) k' x :
    x ∈ smembers (V := V) k' (sadd (V := V) k y s) ↔ (k' = k ∧ x = y) ∨ x ∈ smembers (V := V) k' s;
  get_srem k ys (s : S) k' : k' ≠ k → get (V := V) k' (srem (V := V) k ys s) = get k' s;
  ttl_srem k ys (s : S) k' : k' ≠ k →
    ttl (V := V) k' (srem (V := V) k ys s) = ttl (V := V) k' s;
  members_srem k ys (s : S) k' x :
    x ∈ smembers (V := V) k' (srem (V := V) k ys s) ↔
      x ∈ smembers (V := V) k' s ∧ ¬ (k' = k ∧ x ∈ ys);
  later_get (s s' : S) k : later (V := V) s s' →
    get (V := V) k s' = get k s ∨ get (V := V) k s' = None;
  later_ttl (s s' : S) k : later (V := V) s s' → ttl (V := V) k s' ≤ Z.max (-1) (ttl (V := V) k s);
  later_members (s s' : S) k x : later (V := V) s s' →
    x ∈ smembers (V := V) k s' ↔ x ∈ smembers (V := V) k s;
}.

(** The store after [n] seconds in which nobody sends a command. *)
Class RedisClock (S V : Type) `{Redis S V} := age : Z → S → S.
Class RedisClockLaws (S V : Type) `{RedisClock S V} := {
  age_later n (s : S) : 0 ≤ n → later (V := V) s (age n s);
  get_age_setex k m (v : V) (s : S) n : 0 < m → 0 ≤ n →
    get k (age n (setex k m v s)) = if n <? m then Some v else None;
  get_age_sadd k y (s : S) n k' : k' ≠ k →
    get k' (age n (sadd (V := V) k y s)) = get k' (age n s);
}.

(** [JSON.stringify] / [JSON.parse] (a parse error is [None], see [get]). *)
Class Json (A V : Type) := {
  stringify : A → V;
  parse : V → option A;
  parse_stringify a : parse (stringify a) = Some a;
}.

(** ** Sessions *)

Record ISessionData := SessionData {
  s_user_id : string;
  s_username : string;
  s_fullname : option string;
  s_email : option string;
  s_roles : list string;
  s_permissions : list string;
  s_conditional : list string;
  s_expired_at : option string;
  s_must_change_password : bool;
}.

Record IActiveSession := ActiveSession {
  a_jti : string;
  a_session : ISessionData;
  a_ttl : Z;
}.

Definition SESSION_KEY_PREFIX : string := "session:".
Definition USER_SESSIONS_KEY_PREFIX : string := "user_sessions:".

Definition buildKey (jti : string) : string := SESSION_KEY_PREFIX +:+ jti.
Definition buildUserIndexKey (userId : string) : string := USER_SESSIONS_KEY_PREFIX +:+ userId.

(** [key.slice(SESSION_KEY_PREFIX.length)] *)
Definition jtiFromKey (key : string) : string :=
  String.substring (String.length SESSION_KEY_PREFIX)
    (String.length key - String.length SESSION_KEY_PREFIX) key.

Section store.
Context {S V : Type} `{Redis S V} `{!Json ISessionData V}.
Implicit Types (s : S) (d : ISessionData).

Definition create_session (jti : string) (data : ISessionData) (ttlSeconds : Z) s : S :=
  sadd (V := V) (buildUserIndexKey (s_user_id data)) jti
    (setex (buildKey jti) ttlSeconds (stringify data) s).

Definition get_session (jti : string) s : option ISessionData :=
  get (buildKey jti) s ≫= parse.

Definition session_ttl (jti : string) s : Z := ttl (V := V) (buildKey jti) s.

(** The pipeline sent by [revoke] once it has read the session. *)
Definition revoke_with (jti : string) (session : option ISessionData) s : S :=
  let s1 := del (V := V) (buildKey jti) s in
  match session with
  | Some d => srem (V := V) (buildUserIndexKey (s_user_id d)) [jti] s1
  | None => s1
  end.
Definition revoke (jti : string) s : S := revoke_with jti (get_session jti s) s.

Definition entries (userId : string) s : list (string * option ISessionData * Z) :=
  List.map (λ jti, (jti, get_session jti s, session_ttl jti s))
    (smembers (V := V) (buildUserIndexKey userId) s).

Definition is_stale (e : string * option ISessionData * Z) : bool :=
  match e.1.2 with None => true | Some _ => e.2 <=? 0 end.

Definition to_active (e : string * option ISessionData * Z) : option IActiveSession :=
  match e with
  | (jti, Some d, t) => if 0 <? t then Some (ActiveSession jti d t) else None
  | _ => None
  end.

Definition listActiveSessions (userId : string) s : list IActiveSession * S :=
  match entries userId s with
  | [] => ([], s)
  | es =>
      let stale := List.filter is_stale es in
      let s' := match stale with
                | [] => s
                | _ => srem (V := V) (buildUserIndexKey userId) (List.map (λ e, e.1.1) stale) s
                end in
      (omap to_active es, s')
  end.

Definition countActiveSessions (userId : string) s : nat * S :=
  let '(active, s') := listActiveSessions userId s in (length active, s').

Definition invalidateAllForUser (userId : string) s : nat * S :=
  let '(active, s1) := listActiveSessions userId s in
  match active with
  | [] => (0%nat, s1)
  | _ =>
      let s2 := foldl (λ s a, del (V := V) (buildKey (a_jti a)) s) s1 active in
      (length active, del (V := V) (buildUserIndexKey userId) s2)
  end.

(** The writing pipeline of [refreshPermissionsForUser] and
    [setMustChangePasswordForUser]: every listed session is rewritten. *)
Definition write_back (f : ISessionData → ISessionData) (active : list IActiveSession) s : S :=
  foldl (λ s a, setex (buildKey (a_jti a)) (a_ttl a) (stringify (f (a_session a))) s) s active.

Definition update_sessions (f : ISessionData → ISessionData) (userId : string) s : nat * S :=
  let '(active, s1) := listActiveSessions userId s in
  match active with
  | [] => (0%nat, s1)
  | _ => (length active, write_back f active s1)
  end.

(** The same when Redis carries out only the writes [w] selects: an [exec] that
    loses its connection rejects, but the commands that arrived have run. *)
Definition update_some (w : string → bool) (f : ISessionData → ISessionData) (userId : string) s : S :=
  let '(active, s1) := listActiveSessions userId s in
  write_back f (List.filter (λ a, w (a_jti a)) active) s1.

(** [{ ...session, ...perms }] *)
Definition put_permissions (roles permissions conditional : list string) (d : ISessionData)
    : ISessionData :=
  SessionData (s_user_id d) (s_username d) (s_fullname d) (s_email d) roles permissions conditional
    (s_expired_at d) (s_must_change_password d).
Definition refreshPermissionsForUser (userId : string) (roles permissions conditional : list string)
    : S → nat * S :=
  update_sessions (put_permissions roles permissions conditional) userId.

Definition put_must_change (b : bool) (d : ISessionData) : ISessionData :=
  SessionData (s_user_id d) (s_username d) (s_fullname d) (s_email d) (s_roles d) (s_permissions d)
    (s_conditional d) (s_expired_at d) b.
Definition setMustChangePasswordForUser (userId : string) (mustChangePassword : bool)
    : S → nat * S :=
  update_sessions (put_must_change mustChangePassword) userId.
End store.

(** ** Keys *)

Lemma buildKey_inj j j' : buildKey j = buildKey j' → j = j'.
Proof. unfold buildKey, SESSION_KEY_PREFIX. rewrite ?append_cons. by intros [=]. Qed.
Lemma buildUserIndexKey_inj u u' : buildUserIndexKey u = buildUserIndexKey u' → u = u'.
Proof. unfold buildUserIndexKey, USER_SESSIONS_KEY_PREFIX. rewrite ?append_cons. by intros [=]. Qed.
Lemma keys_disjoint j u : buildKey j ≠ buildUserIndexKey u.
Proof. done. Qed.
Lemma index_key_disjoint j u : buildUserIndexKey u ≠ buildKey j.
Proof. done. Qed.

Create HintDb sessions.
#[export] Hint Resolve keys_disjoint index_key_disjoint : sessions.

Lemma decide_key {A} (j j' : string) (x y : A) :
  (if decide (buildKey j' = buildKey j) then x else y) = if decide (j' = j) then x else y.
Proof.
  destruct (decide (j' = j)) as [->|Hne]; [by rewrite decide_True|].
  rewrite decide_False; [done|]. by intros ?%buildKey_inj.
Qed.

Section facts.
Context {S V : Type} `{RedisLaws S V} `{!Json ISessionData V}.
Implicit Types (s : S) (d : ISessionData).
Abbreviation sess j s := (get_session (V := V) j s).
Abbreviation life j s := (session_ttl (V := V) j s).
Abbreviation index u s := (smembers (V := V) (buildUserIndexKey u) s).

(** *** The commands on session keys and on index keys *)

Lemma sess_setex j n d s j' : 0 < n →
  sess j' (setex (buildKey j) n (stringify d) s) = if decide (j' = j) then Some d else sess j' s.
Proof.
  intros Hn. unfold get_session. rewrite get_setex, decide_key by done.
  case_decide; [|done]. simpl. apply parse_stringify.
Qed.
Lemma life_setex j n d s j' : 0 < n →
  life j' (setex (buildKey j) n (stringify d) s) = if decide (j' = j) then n else life j' s.
Proof. intros Hn. unfold session_ttl. by rewrite ttl_setex, decide_key. Qed.
Lemma index_setex j n (v : V) s u x : x ∈ index u (setex (buildKey j) n v s) ↔ x ∈ index u s.
Proof. apply members_setex. auto with sessions. Qed.

Lemma sess_del j s j' :
  sess j' (del (V := V) (buildKey j) s) = if decide (j' = j) then None else sess j' s.
Proof. unfold get_session. rewrite get_del, decide_key. by case_decide. Qed.
Lemma life_del j s j' :
  life j' (del (V := V) (buildKey j) s) = if decide (j' = j) then -2 else life j' s.
Proof. unfold session_ttl. by rewrite ttl_del, decide_key. Qed.
Lemma index_del j s u x : x ∈ index u (del (V := V) (buildKey j) s) ↔ x ∈ index u s.
Proof. rewrite members_del. split; [naive_solver|]. auto with sessions. Qed.

Lemma sess_sadd u x s j : sess j (sadd (V := V) (buildUserIndexKey u) x s) = sess j s.
Proof. unfold get_session. rewrite get_sadd; auto with sessions. Qed.
Lemma life_sadd u x s j : life j (sadd (V := V) (buildUserIndexKey u) x s) = life j s.
Proof. unfold session_ttl. apply ttl_sadd; auto with sessions. Qed.
Lemma sess_srem u xs s j : sess j (srem (V := V) (buildUserIndexKey u) xs s) = sess j s.
Proof. unfold get_session. rewrite get_srem; auto with sessions. Qed.
Lemma life_srem u xs s j : life j (srem (V := V) (buildUserIndexKey u) xs s) = life j s.
Proof. unfold session_ttl. apply ttl_srem; auto with sessions. Qed.
Lemma index_srem u xs s u' x :
  x ∈ index u' (srem (V := V) (buildUserIndexKey u) xs s) ↔ x ∈ index u' s ∧ ¬ (u' = u ∧ x ∈ xs).
Proof.
  rewrite members_srem. split; intros [Hx Hn]; (split; [done|]); intros [Heq Hin]; apply Hn.
  - by subst.
  - by apply buildUserIndexKey_inj in Heq.
Qed.
Lemma sess_del_index u s j : sess j (del (V := V) (buildUserIndexKey u) s) = sess j s.
Proof. unfold get_session. rewrite get_del, decide_False; auto with sessions. Qed.
Lemma revoked_session j s : sess j (revoke (V := V) j s) = None.
Proof.
  unfold revoke, revoke_with. destruct (get_session j s) as [d|]; [rewrite sess_srem|]; by rewrite sess_del, decide_True.
Qed.
Lemma life_del_index u s j : life j (del (V := V) (buildUserIndexKey u) s) = life j s.
Proof. unfold session_ttl. rewrite ttl_del, decide_False; auto with sessions. Qed.
Lemma index_del_index u s u' x :
  x ∈ index u' (del (V := V) (buildUserIndexKey u) s) ↔ u' ≠ u ∧ x ∈ index u' s.
Proof.
  rewrite members_del. split; intros [Hne Hx]; (split; [|done]); intros Heq; apply Hne.
  - by subst.
  - by apply buildUserIndexKey_inj.
Qed.
Lemma index_sadd u y s u' x :
  x ∈ index u' (sadd (V := V) (buildUserIndexKey u) y s) ↔ (u' = u ∧ x = y) ∨ x ∈ index u' s.
Proof.
  rewrite members_sadd. split; (intros [[Heq Hx]|Hx]; [left|by right]).
  - by apply buildUserIndexKey_inj in Heq.
  - by subst.
Qed.

(** A session once written answers until its lifetime is over. *)
Lemma created_session_aged `{!RedisClock S V} `{!RedisClockLaws S V} j d m s n : 0 < m → 0 ≤ n →
  sess j (age n (create_session (V := V) j d m s)) = if n <? m then Some d else None.
Proof.
  intros Hm Hn. unfold get_session, create_session. rewrite get_age_sadd by auto with sessions.
  rewrite get_age_setex by done. destruct (n <? m); [|done]. simpl. apply parse_stringify.
Qed.

(** *** [listActiveSessions] *)

Definition active_in s (a : IActiveSession) : Prop :=
  sess (a_jti a) s = Some (a_session a) ∧ life (a_jti a) s = a_ttl a ∧ 0 < a_ttl a.

Lemma list_active u s a :
  a ∈ (listActiveSessions (V := V) u s).1 ↔ a_jti a ∈ index u s ∧ active_in s a.
Proof.
  assert (a ∈ omap to_active (entries (V := V) u s) ↔ a_jti a ∈ index u s ∧ active_in s a) as Hom.
  { rewrite list_elem_of_omap. unfold entries, active_in. split.
    - intros (e & (j & Hj & ->)%elem_of_List_map & He). simpl in He.
      destruct (sess j s) as [d|] eqn:Hd; [|done].
      destruct (0 <? life j s) eqn:Ht; [|done]. injection He as <-. simpl.
      apply Z.ltb_lt in Ht. done.
    - intros (Hj & Hd & Ht & Hpos). exists (a_jti a, Some (a_session a), a_ttl a). split.
      + apply elem_of_List_map. exists (a_jti a). by rewrite Hd, Ht.
      + simpl. apply Z.ltb_lt in Hpos. rewrite Hpos. by destruct a. }
  rewrite <- Hom. unfold listActiveSessions. by destruct (entries (V := V) u s).
Qed.

Lemma list_state u s :
  let s' := (listActiveSessions (V := V) u s).2 in
  (∀ j, sess j s' = sess j s) ∧ (∀ j, life j s' = life j s) ∧
  (∀ u' x, x ∈ index u' s' ↔
     x ∈ index u' s ∧ ¬ (u' = u ∧ (sess x s = None ∨ life x s ≤ 0))).
Proof.
  intros s'. set (stale := List.filter is_stale (entries (V := V) u s)).
  assert (∀ x, x ∈ List.map (λ e, e.1.1) stale ↔
            x ∈ index u s ∧ (sess x s = None ∨ life x s ≤ 0)) as Hstale.
  { intros x. unfold stale, entries. rewrite elem_of_List_map.
    setoid_rewrite elem_of_List_filter. setoid_rewrite elem_of_List_map. split.
    - intros (e & [(j & Hj & ->) He] & ->). split; [done|]. unfold is_stale in He. simpl in *.
      destruct (sess j s); [right; by apply Z.leb_le|by left].
    - intros (Hx & Hs). exists (x, sess x s, life x s). split; [|done]. split; [eauto|].
      unfold is_stale. simpl. destruct (sess x s); [|done]. apply Z.leb_le. by destruct Hs. }
  assert (s' = match stale with
               | [] => s
               | _ => srem (V := V) (buildUserIndexKey u) (List.map (λ e, e.1.1) stale) s
               end) as Hs'.
  { unfold s', listActiveSessions. unfold stale. by destruct (entries (V := V) u s). }
  clearbody s' stale. destruct stale as [|e0 es].
  - subst s'. split_and!; [done..|]. intros u' x. split; [|naive_solver]. intros Hx.
    split; [done|]. intros [-> Hs]. by apply (not_elem_of_nil x), (proj2 (Hstale x)).
  - rewrite Hs'. split_and!; [intros; apply sess_srem|intros; apply life_srem|].
    intros u' x. rewrite index_srem, Hstale. naive_solver.
Qed.
End facts.

(** ** The index invariant *)
Section invariant.
Context {S V : Type} `{RedisLaws S V} `{!Json ISessionData V}.
Implicit Types (s : S) (d : ISessionData).
Abbreviation sess j s := (get_session (V := V) j s).
Abbreviation life j s := (session_ttl (V := V) j s).
Abbreviation index u s := (smembers (V := V) (buildUserIndexKey u) s).

(** Every live session is in its owner's index, and an index lists no other
    user's session. *)
Record store_ok s : Prop := {
  so_indexed j d : sess j s = Some d → 0 < life j s → j ∈ index (s_user_id d) s;
  so_owned u j d : j ∈ index u s → sess j s = Some d → s_user_id d = u;
}.

Lemma list_ok u s : store_ok s → store_ok (listActiveSessions (V := V) u s).2.
Proof.
  intros Hok. pose proof (list_state u s) as (Hsess & Hlife & Hidx). split.
  - intros j d. rewrite Hsess, Hlife, Hidx. intros Hd Ht. split; [by eapply so_indexed|].
    intros [_ [Hn|Hle]]; [congruence|lia].
  - intros u' j d. rewrite Hsess, Hidx. intros [Hj _]. by eapply so_owned.
Qed.

(** The rewriting pipeline, given what the listing read. *)
Lemma write_back_state (f : ISessionData → ISessionData) active s
    (σ : string → option ISessionData) (τ : string → Z) :
  (∀ a, a ∈ active → σ (a_jti a) = Some (a_session a) ∧ τ (a_jti a) = a_ttl a ∧ 0 < a_ttl a) →
  let s' := write_back (V := V) f active s in
  (∀ j, sess j s' = if decide (j ∈ List.map a_jti active) then f <$> σ j else sess j s) ∧
  (∀ j, life j s' = if decide (j ∈ List.map a_jti active) then τ j else life j s) ∧
  (∀ u x, x ∈ index u s' ↔ x ∈ index u s).
Proof.
  revert s. induction active as [|a active IH]; intros s Hread.
  { split_and!; intros; try rewrite decide_False by apply not_elem_of_nil; done. }
  destruct (Hread a) as (Hσ & Hτ & Hpos); [left|].
  destruct (IH (setex (buildKey (a_jti a)) (a_ttl a) (stringify (f (a_session a))) s))
    as (Hs & Hl & Hi); [intros; apply Hread; by right|].
  cbn [List.map]. change (write_back f (a :: active) s) with
    (write_back (V := V) f active (setex (buildKey (a_jti a)) (a_ttl a) (stringify (f (a_session a))) s)).
  split_and!.
  - intros j. rewrite Hs, sess_setex by done.
    destruct (decide (j ∈ List.map a_jti active)) as [Hin|Hnot].
    + rewrite decide_True; [done|by right].
    + destruct (decide (j = a_jti a)) as [->|Hne].
      * rewrite decide_True by left. by rewrite Hσ.
      * rewrite decide_False; [done|]. by intros [?|?]%elem_of_cons.
  - intros j. rewrite Hl, life_setex by done.
    destruct (decide (j ∈ List.map a_jti active)) as [Hin|Hnot].
    + rewrite decide_True; [done|by right].
    + destruct (decide (j = a_jti a)) as [->|Hne].
      * rewrite decide_True by left. done.
      * rewrite decide_False; [done|]. by intros [?|?]%elem_of_cons.
  - intros u x. by rewrite Hi, index_setex.
Qed.

Lemma listed_jti u s j :
  j ∈ List.map a_jti (listActiveSessions (V := V) u s).1 ↔
    j ∈ index u s ∧ is_Some (sess j s) ∧ 0 < life j s.
Proof.
  rewrite elem_of_List_map. setoid_rewrite list_active. unfold active_in. split.
  - intros (a & (Hj & Hd & Ht & Hpos) & ->). rewrite Hd, Ht. eauto.
  - intros (Hj & [d Hd] & Hpos). by exists (ActiveSession j d (life j s)).
Qed.

(** What a pipeline of rewrites does, as far as it is carried out. *)
Lemma update_some_state w f u s :
  store_ok s →
  let s' := update_some (V := V) w f u s in
  (∀ j, sess j s' = match sess j s with
                    | Some d => Some (if bool_decide (s_user_id d = u) && (0 <? life j s) && w j
                                      then f d else d)
                    | None => None
                    end) ∧
  (∀ j, life j s' = life j s) ∧
  (∀ u' x, x ∈ index u' s' ↔ x ∈ index u' s ∧ ¬ (u' = u ∧ (sess x s = None ∨ life x s ≤ 0))).
Proof.
  intros Hok s'.
  pose proof (list_state u s) as (Hsess & Hlife & Hidx).
  assert (∀ j, j ∈ List.map a_jti (List.filter (λ a, w (a_jti a)) (listActiveSessions (V := V) u s).1) ↔
    (j ∈ index u s ∧ is_Some (sess j s) ∧ 0 < life j s) ∧ w j = true) as Hjti.
  { intros j. rewrite <- listed_jti, !elem_of_List_map. setoid_rewrite elem_of_List_filter. naive_solver. }
  unfold s', update_some. clear s'. destruct (listActiveSessions (V := V) u s) as [active s1] eqn:Hlist.
  simpl in *. set (chosen := List.filter _ active) in *.
  destruct (write_back_state f chosen s1 (λ j, sess j s) (λ j, life j s)) as (Hw & Hwl & Hwi).
  { intros a [Ha _]%elem_of_List_filter. pose proof (proj1 (list_active u s a)) as Hact.
    rewrite Hlist in Hact. by destruct (Hact Ha) as (_ & ? & ? & ?). }
  split_and!.
  - intros j. rewrite Hw, Hsess. destruct (sess j s) as [d|] eqn:Hd; [|by case_decide].
    destruct (decide (j ∈ List.map a_jti chosen)) as [Hin|Hnot].
    + apply Hjti in Hin as ((Hin & _ & Hpos) & Hwj). simpl. apply Z.ltb_lt in Hpos as ->.
      rewrite bool_decide_true, Hwj; [done|]. by apply (so_owned s Hok u j d).
    + f_equal. destruct (bool_decide (s_user_id d = u)) eqn:Hu; [|done].
      destruct (0 <? life j s) eqn:Ht; [|done]. destruct (w j) eqn:Hwj; [|done].
      exfalso. apply Hnot, Hjti. split; [|done].
      apply bool_decide_eq_true in Hu as <-. apply Z.ltb_lt in Ht.
      split_and!; [by apply (so_indexed s Hok)|by rewrite Hd|done].
  - intros j. rewrite Hwl, Hlife. by case_decide.
  - intros u' x. by rewrite Hwi, Hidx.
Qed.

Lemma update_all f u s :
  (update_sessions (V := V) f u s).2 = update_some (V := V) (λ _, true) f u s.
Proof.
  unfold update_sessions, update_some. destruct (listActiveSessions u s) as [[|a active] s1]; [done|].
  cbn [snd]. by rewrite List_filter_all.
Qed.

(** What [refreshPermissionsForUser] and [setMustChangePasswordForUser] do. *)
Lemma update_state f u s :
  store_ok s →
  let s' := (update_sessions (V := V) f u s).2 in
  (∀ j, sess j s' = match sess j s with
                    | Some d => Some (if bool_decide (s_user_id d = u) && (0 <? life j s)
                                      then f d else d)
                    | None => None
                    end) ∧
  (∀ j, life j s' = life j s) ∧
  (∀ u' x, x ∈ index u' s' ↔ x ∈ index u' s ∧ ¬ (u' = u ∧ (sess x s = None ∨ life x s ≤ 0))).
Proof.
  intros Hok s'. unfold s'. rewrite update_all.
  destruct (update_some_state (λ _, true) f u s Hok) as (Hs & Hl & Hi). split_and!; [|done..].
  intros j. rewrite Hs. destruct (sess j s); [|done]. by rewrite andb_true_r.
Qed.

Lemma update_some_ok w f u s :
  (∀ d, s_user_id (f d) = s_user_id d) → store_ok s → store_ok (update_some (V := V) w f u s).
Proof.
  intros Hf Hok. pose proof (update_some_state w f u s Hok) as (Hs & Hl & Hi).
  assert (∀ j d', sess j (update_some (V := V) w f u s) = Some d' →
    ∃ d, sess j s = Some d ∧ s_user_id d = s_user_id d') as Hback.
  { intros j d' Hd. rewrite Hs in Hd. destruct (sess j s) as [d|]; [|done].
    exists d. split; [done|]. injection Hd as <-. by destruct (_ && _ && _); rewrite ?Hf. }
  split.
  - intros j d' Hd. rewrite Hl, Hi. intros Hpos. destruct (Hback j d' Hd) as (d & Hd0 & <-).
    split; [by apply (so_indexed s Hok)|]. intros [_ [?|?]]; [congruence|lia].
  - intros u' j d' Hj Hd. apply Hi in Hj as [Hj _]. destruct (Hback j d' Hd) as (d & Hd0 & <-).
    by apply (so_owned s Hok u' j).
Qed.
Lemma update_ok f u s :
  (∀ d, s_user_id (f d) = s_user_id d) → store_ok s → store_ok (update_sessions (V := V) f u s).2.
Proof. rewrite update_all. apply update_some_ok. Qed.

(** [invalidateAllForUser] *)
Lemma dels_state active s :
  let s' := foldl (λ s a, del (V := V) (buildKey (a_jti a)) s) s active in
  (∀ j, sess j s' = if decide (j ∈ List.map a_jti active) then None else sess j s) ∧
  (∀ j, j ∉ List.map a_jti active → life j s' = life j s) ∧
  (∀ u x, x ∈ index u s' ↔ x ∈ index u s).
Proof.
  revert s. induction active as [|a active IH]; intros s.
  { split_and!; intros; try rewrite decide_False by apply not_elem_of_nil; done. }
  destruct (IH (del (V := V) (buildKey (a_jti a)) s)) as (Hs & Hl & Hi).
  cbn [List.map foldl]. split_and!.
  - intros j. rewrite Hs, sess_del. destruct (decide (j ∈ List.map a_jti active)) as [Hin|Hnot].
    + rewrite decide_True; [done|by right].
    + destruct (decide (j = a_jti a)) as [->|Hne]; [by rewrite decide_True by left|].
      rewrite decide_False; [done|]. by intros [?|?]%elem_of_cons.
  - intros j Hj. rewrite Hl, life_del.
    + rewrite decide_False; [done|]. intros ->. apply Hj. left.
    + intros Hin. apply Hj. by right.
  - intros u x. by rewrite Hi, index_del.
Qed.

Lemma invalidate_state u s :
  store_ok s →
  let s' := (invalidateAllForUser (V := V) u s).2 in
  (∀ j, sess j s' = match sess j s with
                    | Some d => if bool_decide (s_user_id d = u) && (0 <? life j s)
                                then None else Some d
                    | None => None
                    end) ∧
  (∀ j d, sess j s' = Some d → life j s' = life j s) ∧
  (∀ u' x, u' ≠ u → x ∈ index u' s' ↔ x ∈ index u' s) ∧
  (∀ x, x ∈ index u s' → x ∈ index u s).
Proof.
  intros Hok s'.
  pose proof (list_state u s) as (Hsess & Hlife & Hidx).
  pose proof (listed_jti u s) as Hjti.
  destruct (listActiveSessions (V := V) u s) as [active s1] eqn:Hlist. simpl in *.
  assert (∀ j d, sess j s = Some d →
    j ∈ List.map a_jti active ↔ bool_decide (s_user_id d = u) && (0 <? life j s) = true) as Hin.
  { intros j d Hd. rewrite Hjti, andb_true_iff, bool_decide_eq_true, Z.ltb_lt, Hd. split.
    - intros (Hj & _ & Hpos). split; [by apply (so_owned s Hok u j)|done].
    - intros [<- Hpos]. split_and!; [by apply (so_indexed s Hok)|done..]. }
  destruct (decide (active = [])) as [->|Hne].
  - assert (s' = s1) as Hs' by (unfold s', invalidateAllForUser; by rewrite Hlist).
    clearbody s'. subst s'. split_and!.
    + intros j. rewrite Hsess. destruct (sess j s) as [d|] eqn:Hd; [|done].
      destruct (_ && _) eqn:Hb; [|done]. apply (Hin j d Hd) in Hb. by apply not_elem_of_nil in Hb.
    + intros j d _. apply Hlife.
    + intros u' x Hu. rewrite Hidx. naive_solver.
    + intros x. rewrite Hidx. naive_solver.
  - pose proof (dels_state active s1) as (Hs & Hl & Hi).
    set (s2 := foldl _ s1 active) in *.
    assert (s' = del (V := V) (buildUserIndexKey u) s2) as Hs'
      by (unfold s', invalidateAllForUser; rewrite Hlist; by destruct active).
    clearbody s'. subst s'. split_and!.
    + intros j. rewrite sess_del_index, Hs, Hsess. destruct (sess j s) as [d|] eqn:Hd; [|by case_decide].
      specialize (Hin j d Hd). destruct (_ && _); case_decide; naive_solver.
    + intros j d. rewrite sess_del_index, Hs, life_del_index. case_decide; [done|].
      intros _. rewrite Hl by done. apply Hlife.
    + intros u' x Hu. rewrite index_del_index, Hi, Hidx. naive_solver.
    + intros x. rewrite index_del_index. naive_solver.
Qed.

Lemma invalidate_ok u s : store_ok s → store_ok (invalidateAllForUser (V := V) u s).2.
Proof.
  intros Hok. pose proof (invalidate_state u s Hok) as (Hs & Hl & Hi & Hiu).
  assert (∀ j d, sess j (invalidateAllForUser (V := V) u s).2 = Some d →
    sess j s = Some d ∧ (s_user_id d = u → life j s ≤ 0)) as Hback.
  { intros j d Hd. rewrite Hs in Hd. destruct (sess j s) as [d0|]; [|done].
    destruct (bool_decide (s_user_id d0 = u) && (0 <? life j s)) eqn:Hb; [done|].
    injection Hd as ->. split; [done|]. intros Hu. apply andb_false_iff in Hb as [Hb|Hb].
    - by apply bool_decide_eq_false in Hb.
    - by apply Z.ltb_ge in Hb. }
  split.
  - intros j d Hd Hpos. rewrite (Hl j d Hd) in Hpos. destruct (Hback j d Hd) as [Hd0 Hu].
    apply Hi; [intros Heq; specialize (Hu Heq); lia|]. by apply (so_indexed s Hok).
  - intros u' j d Hj Hd. destruct (Hback j d Hd) as [Hd0 _].
    apply (so_owned s Hok u' j d); [|done]. destruct (decide (u' = u)) as [->|Hne]; [by apply Hiu|].
    by apply Hi.
Qed.

Lemma create_ok j d n s :
  0 < n → (∀ u, j ∉ index u s) → store_ok s → store_ok (create_session (V := V) j d n s).
Proof.
  intros Hn Hfresh Hok. unfold create_session. split.
  - intros j' d'. rewrite sess_sadd, life_sadd, sess_setex, life_setex, index_sadd, index_setex by done.
    case_decide; [intros [= <-]; naive_solver|]. intros. right. by apply (so_indexed s Hok).
  - intros u j' d'. rewrite sess_sadd, sess_setex, index_sadd, index_setex by done.
    case_decide as Hj; [subst; intros [[-> _]|Hin] [= <-]; [done|by destruct (Hfresh u)]|].
    intros [[_ ?]|Hin]; [done|]. by apply (so_owned s Hok).
Qed.

Lemma revoke_ok j s : store_ok s → store_ok (revoke (V := V) j s).
Proof.
  intros Hok. unfold revoke, revoke_with. destruct (sess j s) as [d0|] eqn:Hd0; split.
  - intros j' d. rewrite sess_srem, life_srem, index_srem, sess_del, life_del, index_del.
    case_decide as Hj; [done|]. intros Hd Hpos. split; [by apply (so_indexed s Hok)|].
    intros [_ Hin%list_elem_of_singleton]. done.
  - intros u j' d. rewrite sess_srem, index_srem, sess_del, index_del. case_decide; [done|].
    intros [Hin _]. by apply (so_owned s Hok).
  - intros j' d. rewrite sess_del, life_del, index_del. case_decide; [done|]. by apply (so_indexed s Hok).
  - intros u j' d. rewrite sess_del, index_del. case_decide; [done|]. by apply (so_owned s Hok).
Qed.

Lemma later_ok s s' : later (V := V) s s' → store_ok s → store_ok s'.
Proof.
  intros Hl Hok.
  assert (∀ j d, sess j s' = Some d → sess j s = Some d) as Hback.
  { intros j d. unfold get_session. destruct (later_get s s' (buildKey j) Hl) as [-> | ->]; done. }
  split.
  - intros j d Hd Hpos. rewrite (later_members s s') by done. apply (so_indexed s Hok); [by apply Hback|].
    pose proof (later_ttl s s' (buildKey j) Hl). unfold session_ttl in *. lia.
  - intros u j d Hj Hd. rewrite (later_members s s') in Hj by done. apply (so_owned s Hok u j d Hj); by apply Hback.
Qed.

(** *** Whatever the services do to the store

    The id of a new session is a fresh UUID and its lifetime positive. *)
Inductive store_step : S → S → Prop :=
  | st_create j d n s : 0 < n → (∀ u, j ∉ index u s) → store_step s (create_session (V := V) j d n s)
  | st_revoke j s : store_step s (revoke (V := V) j s)
  | st_list u s : store_step s (listActiveSessions (V := V) u s).2
  | st_invalidate u s : store_step s (invalidateAllForUser (V := V) u s).2
  | st_refresh u r p c s : store_step s (refreshPermissionsForUser (V := V) u r p c s).2
  | st_must_change u b s : store_step s (setMustChangePasswordForUser (V := V) u b s).2
  | st_refresh_lost w u r p c s : store_step s (update_some (V := V) w (put_permissions r p c) u s)
  | st_later s s' : later (V := V) s s' → store_step s s'.

Lemma store_step_ok s s' : store_step s s' → store_ok s → store_ok s'.
Proof.
  destruct 1.
  - by apply create_ok.
  - by apply revoke_ok.
  - by apply list_ok.
  - by apply invalidate_ok.
  - by apply update_ok.
  - by apply update_ok.
  - by apply update_some_ok.
  - by apply later_ok.
Qed.

Lemma reachable_ok s0 s :
  (∀ j, sess j s0 = None) → (∀ u, index u s0 = []) → rtc store_step s0 s → store_ok s.
Proof.
  intros Hs Hi Hsteps. assert (store_ok s0) as Hok.
  { split; [intros j d; by rewrite Hs|]. intros u j d. rewrite Hi. by intros ?%not_elem_of_nil. }
  clear Hs Hi. induction Hsteps as [|s1 s2 s3 Hstep _ IH]; [done|]. by apply IH, (store_step_ok s1).
Qed.
End invariant.

(** ** Properties *)
Section properties.
Context {S V : Type} `{RedisLaws S V} `{!Json ISessionData V}.
Implicit Types (s : S) (d : ISessionData).
Abbreviation sess j s := (get_session (V := V) j s).
Abbreviation life j s := (session_ttl (V := V) j s).
Abbreviation index u s := (smembers (V := V) (buildUserIndexKey u) s).

(** C32: in every state the services can reach from an empty store, expiry
    included, each live session is listed in its owner's index and an index
    lists no other user's session. *)
Theorem session_index_invariant s0 s (Hempty : ∀ j, sess j s0 = None) (Hidx : ∀ u, index u s0 = [])
    (Hsteps : rtc (store_step (V := V)) s0 s) :
  (∀ j d, sess j s = Some d → 0 < life j s → j ∈ index (s_user_id d) s) ∧
  (∀ u j d, j ∈ index u s → sess j s = Some d → s_user_id d = u).
Proof.
  pose proof (reachable_ok s0 s Hempty Hidx Hsteps) as Hok.
  split; [apply (so_indexed s Hok)|apply (so_owned s Hok)].
Qed.

(** A session just created is read back as written and counts as active for
    its owner; revoking it makes it unreadable; neither touches another
    session. *)
Theorem create_get_revoke j d n s (Hn : 0 < n) :
  let s1 := create_session (V := V) j d n s in
  sess j s1 = Some d ∧
  ActiveSession j d n ∈ (listActiveSessions (V := V) (s_user_id d) s1).1 ∧
  sess j (revoke (V := V) j s1) = None ∧
  (∀ j', j' ≠ j → sess j' s1 = sess j' s ∧ sess j' (revoke (V := V) j s1) = sess j' s).
Proof.
  intros s1. assert (sess j s1 = Some d) as Hd
    by (unfold s1, create_session; by rewrite sess_sadd, sess_setex, decide_True).
  assert (∀ j', j' ≠ j → sess j' s1 = sess j' s) as Hother
    by (intros j' Hne; unfold s1, create_session; by rewrite sess_sadd, sess_setex, decide_False).
  split_and!; [done| | |].
  - apply list_active. split; [|split_and!]; simpl; [|done| |done].
    + unfold s1, create_session. apply index_sadd. by left.
    + unfold s1, create_session. by rewrite life_sadd, life_setex, decide_True.
  - unfold revoke, revoke_with. rewrite Hd. by rewrite sess_srem, sess_del, decide_True.
  - intros j' Hne. split; [by apply Hother|].
    unfold revoke, revoke_with. rewrite Hd. by rewrite sess_srem, sess_del, decide_False, Hother.
Qed.

(** A force-logout leaves the user no live session (at most one whose last
    second is running out) and no other user's session is touched. *)
Theorem force_logout_complete u s (Hok : store_ok (V := V) s) :
  let s' := (invalidateAllForUser (V := V) u s).2 in
  (∀ j d, sess j s' = Some d → s_user_id d = u → life j s' ≤ 0) ∧
  (∀ j d, s_user_id d ≠ u → sess j s' = Some d ↔ sess j s = Some d).
Proof.
  intros s'. pose proof (invalidate_state u s Hok) as (Hs & Hl & _). fold s' in Hs, Hl. split.
  - intros j d Hd Hu. rewrite (Hl j d Hd). rewrite Hs in Hd.
    destruct (sess j s) as [d0|]; [|done]. destruct (_ && _) eqn:Hb; [done|].
    injection Hd as ->. apply andb_false_iff in Hb as [Hb|Hb].
    + by apply bool_decide_eq_false in Hb.
    + by apply Z.ltb_ge in Hb.
  - intros j d Hu. rewrite Hs. destruct (sess j s) as [d0|]; [|done].
    destruct (_ && _) eqn:Hb; [|done]. apply andb_true_iff in Hb as [Hb%bool_decide_eq_true _].
    naive_solver.
Qed.

(** Refreshing a user's permissions rewrites exactly the three permission
    fields of each of the user's live sessions and keeps every lifetime, every
    other field and every other user's session. *)
Theorem refresh_permissions_exact u r p c s (Hok : store_ok (V := V) s) :
  let s' := (refreshPermissionsForUser (V := V) u r p c s).2 in
  (∀ j, sess j s' = match sess j s with
                    | Some d => Some (if bool_decide (s_user_id d = u) && (0 <? life j s)
                                      then put_permissions r p c d else d)
                    | None => None
                    end) ∧
  (∀ j, life j s' = life j s).
Proof. by destruct (update_state (put_permissions r p c) u s Hok) as (? & ? & _). Qed.

(** *** A logout between the two halves of a refresh *)

Lemma invalidate_unlisted j u s :
  j ∉ index u s → sess j (invalidateAllForUser (V := V) u s).2 = sess j s.
Proof.
  intros Hj. pose proof (list_state u s) as (Hsess & _).
  pose proof (listed_jti u s j) as Hjti. unfold invalidateAllForUser.
  destruct (listActiveSessions (V := V) u s) as [active s1]. simpl in *.
  pose proof (dels_state active s1) as (Hs & _).
  assert (j ∉ List.map a_jti active) as Hnot by (intros [? _]%Hjti; done).
  destruct active as [|a active]; [apply Hsess|]. simpl in *.
  by rewrite sess_del_index, Hs, decide_False, Hsess.
Qed.

(** If a session is revoked (a logout, an admin kick) after a permission
    refresh has listed it and before the refresh writes back, the refresh
    re-creates it: the token works again, and, being gone from the index, it
    survives a force-logout of the user. *)
Theorem refresh_resurrects_revoked f u j d s (Hok : store_ok (V := V) s)
    (Hd : sess j s = Some d) (Hu : s_user_id d = u) (Hlive : 0 < life j s) :
  let '(active, s1) := listActiveSessions (V := V) u s in
  let s2 := revoke (V := V) j s1 in
  let s3 := write_back (V := V) f active s2 in
  sess j s2 = None ∧ sess j s3 = Some (f d) ∧
  sess j (invalidateAllForUser (V := V) u s3).2 = Some (f d).
Proof.
  pose proof (list_state u s) as (Hsess & Hlife & Hidx).
  pose proof (listed_jti u s j) as Hjti.
  pose proof (list_active u s) as Hact.
  destruct (listActiveSessions (V := V) u s) as [active s1]. simpl in *.
  assert (j ∈ List.map a_jti active) as Hin.
  { apply Hjti. rewrite Hd. split_and!; [|done|done]. subst u. by apply (so_indexed s Hok). }
  set (s2 := revoke (V := V) j s1). set (s3 := write_back (V := V) f active s2).
  assert (s2 = srem (V := V) (buildUserIndexKey u) [j] (del (V := V) (buildKey j) s1)) as Hs2
    by (unfold s2, revoke, revoke_with; by rewrite Hsess, Hd, Hu).
  assert (sess j s2 = None) as Hgone by by rewrite Hs2, sess_srem, sess_del, decide_True.
  destruct (write_back_state f active s2 (λ j, sess j s) (λ j, life j s)) as (Hw & _ & Hwi).
  { intros a Ha. by destruct (proj1 (Hact a) Ha) as (_ & ? & ? & ?). }
  fold s3 in Hw, Hwi.
  assert (sess j s3 = Some (f d)) as Hback by by rewrite Hw, decide_True, Hd.
  split_and!; [done..|]. rewrite invalidate_unlisted; [done|].
  rewrite Hwi, Hs2, index_srem. intros [_ Hn]. apply Hn. split; [done|]. by apply list_elem_of_singleton.
Qed.
End properties.

(** ** A store in memory *)

Record mem (V : Type) := Mem {
  strings : gmap string (V * Z);      (* value, seconds to live *)
  sets : gmap string (gset string);
  numbers : gmap string Z;            (* keys used as counters *)
}.
Arguments Mem {V}. Arguments strings {V}. Arguments sets {V}. Arguments numbers {V}.

Definition mem_set {V} (k : string) (m : mem V) : gset string := default ∅ (sets m !! k).

Definition elapse_entry {V} (n : Z) (e : V * Z) : option (V * Z) :=
  if 0 <? e.2 - n then Some (e.1, e.2 - n) else None.
Definition elapse {V} (n : Z) (m : mem V) : mem V := Mem (omap (elapse_entry n) (strings m)) (sets m) (numbers m).

#[export] Instance mem_redis V : Redis (mem V) V := {
  get k m := fst <$> strings m !! k;
  ttl k m := match strings m !! k with
             | Some e => e.2
             | None => match sets m !! k with Some _ => -1 | None => -2 end
             end;
  smembers k m := elements (mem_set k m);
  setex k n v m := Mem (<[k := (v, n)]> (strings m)) (delete k (sets m)) (delete k (numbers m));
  del k m := Mem (delete k (strings m)) (delete k (sets m)) (delete k (numbers m));
  sadd k x m := Mem (strings m) (<[k := {[x]} ∪ mem_set k m]> (sets m)) (numbers m);
  srem k xs m := Mem (strings m) (<[k := mem_set k m ∖ list_to_set xs]> (sets m)) (numbers m);
  later m m' := ∃ n, 0 <= n ∧ m' = elapse n m;
}.

#[export] Instance mem_redis_laws V : RedisLaws (mem V) V.
Proof.
  split; simpl; unfold mem_set; cbn [sets strings].
  - intros k n v s k' _. rewrite lookup_insert. by repeat case_decide.
  - intros k n v s k' _. rewrite lookup_insert, lookup_delete. repeat case_decide; by subst.
  - intros. by rewrite !elem_of_elements, lookup_delete_ne.
  - intros k s k'. rewrite lookup_delete. repeat case_decide; by subst.
  - intros k s k'. rewrite !lookup_delete. repeat case_decide; by subst.
  - intros k s k' x. rewrite !elem_of_elements, lookup_delete. case_decide; simpl; set_solver.
  - done.
  - intros. by rewrite lookup_insert_ne.
  - intros k y s k' x. rewrite !elem_of_elements, lookup_insert. case_decide; simpl; set_solver.
  - done.
  - intros. by rewrite lookup_insert_ne.
  - intros k ys s k' x. rewrite !elem_of_elements, lookup_insert. case_decide; simpl; set_solver.
  - intros s s' k (n & Hn & ->). simpl. rewrite lookup_omap.
    destruct (strings s !! k) as [[v t]|]; simpl; [|by left]. unfold elapse_entry.
    destruct (_ <? _); simpl; auto.
  - intros s s' k (n & Hn & ->). simpl. rewrite lookup_omap.
    destruct (strings s !! k) as [[v t]|]; simpl; [|destruct (sets s !! k); lia].
    unfold elapse_entry. simpl. destruct (_ <? _); simpl; [lia|].
    destruct (sets s !! k); lia.
  - intros s s' k x (n & Hn & ->). done.
Qed.

#[export] Instance mem_clock V : RedisClock (mem V) V := elapse.
#[export] Instance mem_clock_laws V : RedisClockLaws (mem V) V.
Proof.
  split; unfold age, mem_clock; simpl.
  - intros n s Hn. by exists n.
  - intros k m v s n Hm Hn. rewrite lookup_omap, lookup_insert_eq. simpl. unfold elapse_entry. simpl.
    destruct (n <? m) eqn:E.
    + apply Z.ltb_lt in E. rewrite (proj2 (Z.ltb_lt 0 (m - n))) by lia. done.
    + apply Z.ltb_ge in E. rewrite (proj2 (Z.ltb_ge 0 (m - n))) by lia. done.
  - done.
Qed.

#[export] Instance identity_json A : Json A A := { stringify a := a; parse a := Some a; parse_stringify a := eq_refl }.

(** ** Witnesses *)

Definition empty_store : mem ISessionData := Mem ∅ ∅ ∅.
Definition ann : ISessionData :=
  SessionData "u1" "ann" None None ["SALES"] ["sales:read"] [] None false.
Definition one_session : mem ISessionData :=
  create_session (V := ISessionData) "j1" ann 900 empty_store.

Lemma one_session_step : rtc (store_step (V := ISessionData)) empty_store one_session.
Proof.
  apply rtc_once. apply (st_create (V := ISessionData) "j1" ann 900 empty_store); [done|].
  intros u. apply not_elem_of_nil.
Qed.

Lemma one_session_ok : store_ok (V := ISessionData) one_session.
Proof.
  apply (reachable_ok empty_store); [done| |apply one_session_step].
  done.
Qed.

Lemma session_index_invariant_witness :
  "j1" ∈ smembers (V := ISessionData) (buildUserIndexKey "u1") one_session.
Proof.
  assert (∀ u, smembers (V := ISessionData) (buildUserIndexKey u) empty_store = []) as He
    by done.
  assert (∀ j, get_session (V := ISessionData) j empty_store = None) as Hs by done.
  apply (proj1 (session_index_invariant empty_store one_session Hs He one_session_step) "j1" ann).
  - vm_compute. reflexivity.
  - vm_compute. reflexivity.
Defined.

Lemma create_get_revoke_witness :
  get_session (V := ISessionData) "j1" (revoke (V := ISessionData) "j1" one_session) = None.
Proof.
  assert (0 < 900) as Hn by lia.
  exact (proj1 (proj2 (proj2 (create_get_revoke (V := ISessionData) "j1" ann 900 empty_store Hn)))).
Defined.

Lemma force_logout_complete_witness :
  store_ok (V := ISessionData) one_session ∧
  ∀ j d, get_session (V := ISessionData) j
           (invalidateAllForUser (V := ISessionData) "u1" one_session).2 = Some d →
         s_user_id d = "u1" →
         session_ttl (V := ISessionData) j
           (invalidateAllForUser (V := ISessionData) "u1" one_session).2 ≤ 0.
Proof.
  split; [exact one_session_ok|].
  exact (proj1 (force_logout_complete "u1" one_session one_session_ok)).
Defined.

Lemma refresh_permissions_exact_witness :
  store_ok (V := ISessionData) one_session ∧
  ∀ j, session_ttl (V := ISessionData) j
         (refreshPermissionsForUser (V := ISessionData) "u1" [] [] [] one_session).2
       = session_ttl (V := ISessionData) j one_session.
Proof.
  split; [exact one_session_ok|].
  exact (proj2 (refresh_permissions_exact "u1" [] [] [] one_session one_session_ok)).
Defined.

Lemma refresh_resurrects_revoked_witness :
  let '(active, s1) := listActiveSessions (V := ISessionData) "u1" one_session in
  get_session (V := ISessionData) "j1"
    (write_back (V := ISessionData) (put_permissions [] [] []) active
       (revoke (V := ISessionData) "j1" s1)) = Some (put_permissions [] [] [] ann).
Proof.
  pose proof (refresh_resurrects_revoked (put_permissions [] [] []) "u1" "j1" ann one_session
    one_session_ok ltac:(vm_compute; reflexivity) eq_refl ltac:(vm_compute; reflexivity)) as H.
  destruct (listActiveSessions (V := ISessionData) "u1" one_session) as [active s1].
  exact (proj1 (proj2 H)).
Defined.
