(* ===== verification/SessionSync.v ===== *)
(** * Pushing permission changes into live sessions

    Model of [SessionSyncService]
    (src/apps/iam/src/modules/access/services/session-sync.service.ts) and of
    the two mutations that end in it, [RolesService.attachPolicies] and
    [UsersService.assignRoles]
    (src/apps/iam/src/modules/{roles,users}/services).  It composes the
    permission resolver with the session store: the first is run on the
    database as the mutation left it, its result is written into the second.

    [Promise.all] over users is run in list order; the users' sessions are
    disjoint.  What may go wrong with one user's push is an argument: the
    resolver or Redis may reject at any point, the commands already sent having
    run; [syncUser] catches the error, so the mutation before it stands.  As
    everywhere in the development the services' own queries, here those that
    list the users to push to, answer.  Saving a many-to-many relation is
    TypeORM's: it replaces the link rows of the saved entity. *)

From S2P Require Import Prelude JsString Repo DbErrors PermissionResolver SessionStore.
#[local] Open Scope string_scope.

Inductive audit_action := attached | detached.
(** A row of role_policy_audit_logs (resp. user_role_audit_logs). *)
Record audit := Audit {
  log_owner : string; log_related : string; log_action : audit_action; log_by : option string;
}.

(** The link rows after [entity.relation = mapRelations(ids); save(entity)]. *)
Definition replace_links (owner : string) (ids : list string) (links : list (string * string))
    : list (string * string) :=
  List.filter (λ l, negb (String.eqb l.1 owner)) links ++ List.map (pair owner) ids.

Definition audit_entries (owner : string) (by_ : option string) (previousIds ids : list string)
    : list audit :=
  List.map (λ i, Audit owner i attached by_) (List.filter (λ i, negb (includes previousIds i)) ids) ++
  List.map (λ i, Audit owner i detached by_)
    (List.filter (λ i, negb (includes ids i)) (js_set previousIds)).

Section sync.
Context {T : Type → Type} `{Database T} {S V : Type} `{Redis S V} `{!Json ISessionData V}.
Implicit Types (db : iam_db T) (s : S).

(** What happens while one user's permissions are pushed. *)
Inductive push :=
  | delivered
  | resolver_failed (e : exn)                        (* the database did not answer *)
  | listing_failed (pruned : bool) (e : exn)         (* Redis failed, before or after the [SREM] *)
  | pipeline_failed (ran : string → bool) (e : exn). (* of the writes only these were carried out *)

(** The body of the [try]. *)
Definition pushPermissions (f : push) db (today userId : string) s : result unit * S :=
  let resolved := resolveForUser db today userId in
  let put := put_permissions (res_roles resolved) (res_permissions resolved) (res_conditional resolved) in
  match f with
  | delivered =>
      (Ok (), (refreshPermissionsForUser (V := V) userId (res_roles resolved) (res_permissions resolved)
                 (res_conditional resolved) s).2)
  | resolver_failed e => (Throw e, s)
  | listing_failed pruned e =>
      (Throw e, if pruned then (listActiveSessions (V := V) userId s).2 else s)
  | pipeline_failed ran e => (Throw e, update_some (V := V) ran put userId s)
  end.

(** The errors [catch] hands to the logger. *)
Record sync_failure := SyncFailure { failed_user : string; failed_with : exn }.

Definition syncUser (f : string → push) db (today userId : string) s
    : result (list sync_failure) * S :=
  match pushPermissions (f userId) db today userId s with
  | (Ok _, s') => (Ok [], s')
  | (Throw e, s') => (Ok [SyncFailure userId e], s')
  end.

Fixpoint syncUsers (f : string → push) db (today : string) (userIds : list string) s
    : result (list sync_failure) * S :=
  match userIds with
  | [] => (Ok [], s)
  | u :: us =>
      let '(r, s1) := syncUser f db today u s in
      let '(rs, s2) := syncUsers f db today us s1 in
      (let! l := r in let! ls := rs in Ok (l ++ ls)%list, s2)
  end.

(** [find({ where: { roles: { id: In(ids) } } })] *)
Definition live_ids {R} `{Entity R} (t : T R) : list string :=
  List.map pk (repo_find (λ _, true) t).
Definition users_with_roles db (ids : list string) : list user :=
  repo_find (λ u, existsb (λ rid, includes (users_roles db) (pk u, rid)
                                  && includes (live_ids (roles db)) rid) ids) (users db).
Definition roles_with_policy db (policyId : string) : list role :=
  repo_find (λ r, includes (roles_policies db) (pk r, policyId)
                  && includes (live_ids (policies db)) policyId) (roles db).

Definition syncUsersByRole (f : string → push) db (today roleId : string) s
    : result (list sync_failure) * S :=
  syncUsers f db today (List.map pk (users_with_roles db [roleId])) s.

Definition syncUsersByPolicy (f : string → push) db (today policyId : string) s
    : result (list sync_failure) * S :=
  match roles_with_policy db policyId with
  | [] => (Ok [], s)
  | rs => syncUsers f db today (js_set (List.map pk (users_with_roles db (List.map pk rs)))) s
  end.

(** ** The mutations

    [fk_error id]: the driver error for a link to an id without row. *)
Context (fk_error : string → driver_error).

Definition check_references {R} `{Entity R} (t : T R) (ids : list string) : result unit :=
  match List.filter (λ i, negb (existsb (has_pk i) (rows t))) ids with
  | [] => Ok ()
  | i :: _ => Throw (QueryFailedError (fk_error i))
  end.

Definition with_roles_policies db (l : list (string * string)) : iam_db T :=
  IamDb (users db) (roles db) (users_roles db) l (policies db) (statements db) (targets db)
    (actions db) (conditions db) (permissions db).
Definition with_users_roles db (l : list (string * string)) : iam_db T :=
  IamDb (users db) (roles db) l (roles_policies db) (policies db) (statements db) (targets db)
    (actions db) (conditions db) (permissions db).

Definition attachPolicies db (today roleId : string) (policyIds : list string)
    (currentUserId : option string) (f : string → push) s : result (iam_db T * list audit * S) :=
  let! (db', log) := ExecuteDb.executeDbOperation "roles"
    match repo_findById roleId (roles db) with
    | None => Throw (NotFoundException ("Role " +:+ roleId +:+ " not found"))
    | Some role =>
        let previousIds := List.map pk (role_policies db role) in
        let! _ := check_references (policies db) policyIds in
        Ok (with_roles_policies db (replace_links roleId policyIds (roles_policies db)),
            audit_entries roleId currentUserId previousIds policyIds)
    end in
  let '(synced, s') := syncUsersByRole f db' today roleId s in
  let! _ := synced in
  Ok (db', log, s').

Definition assignRoles db (today userId : string) (roleIds : list string)
    (currentUserId : option string) (f : string → push) s : result (iam_db T * list audit * S) :=
  let! (db', log) := ExecuteDb.executeDbOperation "users"
    match repo_findById userId (users db) with
    | None => Throw (NotFoundException ("User " +:+ userId +:+ " not found"))
    | Some user =>
        let previousIds := List.map pk (user_roles db user) in
        let! _ := check_references (roles db) roleIds in
        Ok (with_users_roles db (replace_links userId roleIds (users_roles db)),
            audit_entries userId currentUserId previousIds roleIds)
    end in
  let '(synced, s') := syncUser f db' today userId s in
  let! _ := synced in
  Ok (db', log, s').
End sync.

(** ** A sync always answers *)
Section answers.
Context {T : Type → Type} `{Database T} {S V : Type} `{Redis S V} `{!Json ISessionData V}.
Implicit Types (db : iam_db T) (s : S).

Definition push_failure (f : push) : option exn :=
  match f with
  | delivered => None
  | resolver_failed e | listing_failed _ e | pipeline_failed _ e => Some e
  end.
Definition logged (f : string → push) (us : list string) : list sync_failure :=
  omap (λ u, SyncFailure u <$> push_failure (f u)) us.
Lemma logged_cons f u us : logged f (u :: us) = (logged f [u] ++ logged f us)%list.
Proof. unfold logged. cbn. by destruct (push_failure (f u)). Qed.

Lemma syncUser_answers f db today u s : (syncUser (V := V) f db today u s).1 = Ok (logged f [u]).
Proof. unfold syncUser, logged. cbn. by destruct (f u). Qed.
Lemma syncUsers_answers f db today us s : (syncUsers (V := V) f db today us s).1 = Ok (logged f us).
Proof.
  revert s. induction us as [|u us IH]; intros s; [done|]. cbn [syncUsers]. rewrite logged_cons.
  pose proof (syncUser_answers f db today u s). destruct (syncUser f db today u s) as [r s1].
  specialize (IH s1). destruct (syncUsers f db today us s1) as [rs s2]. cbn in *. by subst.
Qed.
Lemma syncUsersByPolicy_answers f db today policyId s :
  ∃ l, (syncUsersByPolicy (V := V) f db today policyId s).1 = Ok l.
Proof.
  unfold syncUsersByPolicy. destruct (roles_with_policy db policyId); [by eexists|].
  eexists. apply syncUsers_answers.
Qed.

(** A failed push never fails the mutation: whatever happens to the pushes, it
    commits the same tables and the same audit rows, or throws the same error. *)
Theorem attachPolicies_survives fk_error db today roleId policyIds by_ f g s :
  (let! x := attachPolicies (V := V) fk_error db today roleId policyIds by_ f s in Ok x.1)
  = (let! x := attachPolicies (V := V) fk_error db today roleId policyIds by_ g s in Ok x.1).
Proof.
  unfold attachPolicies. destruct (ExecuteDb.executeDbOperation _ _) as [[db' log]|e]; [|done].
  cbn [res_bind]. unfold syncUsersByRole. set (us := List.map pk _).
  pose proof (syncUsers_answers f db' today us s). pose proof (syncUsers_answers g db' today us s).
  destruct (syncUsers f _ _ _ _) as [r s1], (syncUsers g _ _ _ _) as [r' s2]. cbn in *. by subst.
Qed.
End answers.

(** ** The effect of a sync *)
Section effect.
Context {T : Type → Type} `{DatabaseLaws T} {S V : Type} `{RedisLaws S V} `{!Json ISessionData V}.
Implicit Types (db : iam_db T) (s : S).
Abbreviation sess j s := (get_session (V := V) j s).
Abbreviation life j s := (session_ttl (V := V) j s).

(** A session holding what the resolver says of its user now. *)
Definition resolved_session db (today : string) (d : ISessionData) : ISessionData :=
  let r := resolveForUser db today (s_user_id d) in
  put_permissions (res_roles r) (res_permissions r) (res_conditional r) d.

Lemma put_permissions_twice r p c r' p' c' d :
  put_permissions r p c (put_permissions r' p' c' d) = put_permissions r p c d.
Proof. done. Qed.

(** Does what happened to the push leave the new permissions in session [j]? *)
Definition reaches (f : push) (j : string) : bool :=
  match f with
  | delivered => true
  | pipeline_failed ran _ => ran j
  | resolver_failed _ | listing_failed _ _ => false
  end.
Lemma syncUser_state f db today u s :
  store_ok (V := V) s →
  let '(r, s') := syncUser (V := V) f db today u s in
  r = Ok (logged f [u]) ∧ store_ok (V := V) s' ∧
  (∀ j, sess j s' = match sess j s with
                    | Some d => Some (if bool_decide (s_user_id d = u) && (0 <? life j s)%Z
                                         && reaches (f (s_user_id d)) j
                                      then resolved_session db today d else d)
                    | None => None
                    end) ∧
  (∀ j, life j s' = life j s).
Proof.
  intros Hok. unfold syncUser, logged. cbn [omap list_omap]. set (put := put_permissions
    (res_roles (resolveForUser db today u)) (res_permissions (resolveForUser db today u))
    (res_conditional (resolveForUser db today u))).
  assert (∀ j (b : bool), (∀ d, sess j s = Some d → s_user_id d = u → b = reaches (f u) j) →
    match sess j s with
    | Some d => Some (if bool_decide (s_user_id d = u) && (0 <? life j s)%Z && b then put d else d)
    | None => None
    end = match sess j s with
    | Some d => Some (if bool_decide (s_user_id d = u) && (0 <? life j s)%Z
        && reaches (f (s_user_id d)) j then resolved_session db today d else d)
    | None => None
    end) as Hmatch.
  { intros j b Hb. destruct (sess j s) as [d|]; [|done]. f_equal. specialize (Hb d eq_refl).
    case_bool_decide as Hu; [|done]. rewrite (Hb Hu). unfold put. by rewrite <- Hu. }
  destruct (f u) as [|e|pruned e|ran e] eqn:Hf; cbn [pushPermissions push_failure];
    (split; [done|]); cbn in Hmatch.
  - destruct (update_state put u s Hok) as (Hs & Hl & _).
    split_and!; [by apply (update_ok put)| |done]. intros j. unfold refreshPermissionsForUser.
    rewrite <- (Hmatch j true) by done. fold put. rewrite Hs.
    destruct (sess j s); [|done]. by rewrite andb_true_r.
  - split_and!; [done| |done]. intros j. rewrite <- (Hmatch j false) by done.
    destruct (sess j s); [|done]. by rewrite andb_false_r.
  - pose proof (list_state u s) as (Hs & Hl & _).
    assert (∀ j, sess j (if pruned then (listActiveSessions (V := V) u s).2 else s) = sess j s) as Hs'
      by (intros; destruct pruned; [apply Hs|done]).
    split_and!; [destruct pruned; [by apply list_ok|done]| |intros; destruct pruned; [apply Hl|done]].
    intros j. rewrite <- (Hmatch j false) by done. rewrite Hs'.
    destruct (sess j s); [|done]. by rewrite andb_false_r.
  - destruct (update_some_state ran put u s Hok) as (Hs & Hl & _).
    split_and!; [by apply (update_some_ok ran put)| |done].
    intros j. rewrite <- (Hmatch j (ran j)) by done. apply Hs.
Qed.

Lemma syncUsers_state f db today us s :
  store_ok (V := V) s →
  let '(r, s') := syncUsers (V := V) f db today us s in
  r = Ok (logged f us) ∧ store_ok (V := V) s' ∧
  (∀ j, sess j s' = match sess j s with
                    | Some d => Some (if bool_decide (s_user_id d ∈ us) && (0 <? life j s)%Z
                                         && reaches (f (s_user_id d)) j
                                      then resolved_session db today d else d)
                    | None => None
                    end) ∧
  (∀ j, life j s' = life j s).
Proof.
  revert s. induction us as [|u us IH]; intros s Hok.
  { split_and!; [done|done| |done]. intros j. destruct (sess j s) as [d|]; [|done].
    rewrite (bool_decide_false (s_user_id d ∈ [])); [done|apply not_elem_of_nil]. }
  cbn [syncUsers]. rewrite logged_cons. pose proof (syncUser_state f db today u s Hok) as Hone.
  destruct (syncUser f db today u s) as [r s1]. destruct Hone as (-> & Hok1 & Hs & Hl).
  specialize (IH s1 Hok1). destruct (syncUsers f db today us s1) as [rs s2].
  destruct IH as (-> & Hok' & Hs' & Hl'). split_and!; [done|done| |].
  - intros j. rewrite Hs', Hs, Hl. destruct (sess j s) as [d|]; [|done]. f_equal.
    destruct (0 <? life j s)%Z; rewrite ?andb_true_r, ?andb_false_r; [|done].
    destruct (decide (s_user_id d = u)) as [<-|Hne].
    + rewrite (bool_decide_true (s_user_id d = s_user_id d)) by done.
      rewrite (bool_decide_true (s_user_id d ∈ s_user_id d :: us)) by left. simpl.
      destruct (reaches (f (s_user_id d)) j) eqn:Hr; simpl; rewrite Hr, ?andb_true_r, ?andb_false_r;
        by try case_bool_decide.
    + rewrite (bool_decide_false (s_user_id d = u)) by done. simpl.
      case_bool_decide as Hin1; case_bool_decide as Hin2; [done| | |done]; set_solver.
  - intros j. rewrite Hl'. apply Hl.
Qed.

Lemma elem_of_live_ids {R} `{Entity R} (t : T R) i :
  i ∈ live_ids t ↔ ∃ r, live t r ∧ pk r = i.
Proof.
  unfold live_ids. rewrite elem_of_List_map. setoid_rewrite elem_of_find.
  split; intros (r & Hr); exists r; naive_solver.
Qed.

Lemma elem_of_users_with_roles db ids u :
  u ∈ List.map pk (users_with_roles db ids) ↔ ∃ rid, rid ∈ ids ∧ has_role db u rid.
Proof.
  rewrite elem_of_List_map. unfold users_with_roles, has_role.
  setoid_rewrite elem_of_find. setoid_rewrite existsb_true. setoid_rewrite andb_true_iff.
  setoid_rewrite includes_true. setoid_rewrite elem_of_live_ids. split.
  - intros (x & [Hx (rid & Hin & Hl & Hr)] & ->). exists rid. split_and!; [done|by exists x|done|done].
  - intros (rid & Hin & (x & Hx & <-) & Hr & Hl). exists x. split; [|done]. split; [done|]. eauto.
Qed.

Lemma elem_of_roles_with_policy db pid rid :
  rid ∈ List.map pk (roles_with_policy db pid) ↔
    (∃ r, live (roles db) r ∧ pk r = rid) ∧ (rid, pid) ∈ roles_policies db ∧
    ∃ p, live (policies db) p ∧ pk p = pid.
Proof.
  rewrite elem_of_List_map. unfold roles_with_policy.
  setoid_rewrite elem_of_find. setoid_rewrite andb_true_iff.
  setoid_rewrite includes_true. setoid_rewrite elem_of_live_ids. split.
  - intros (r & (Hr & Hl & Hp) & ->). eauto.
  - intros ((r & Hr & <-) & Hl & Hp). eauto.
Qed.

Lemma elem_of_replace_links owner ids links o i :
  (o, i) ∈ replace_links owner ids links ↔
    (o ≠ owner ∧ (o, i) ∈ links) ∨ (o = owner ∧ i ∈ ids).
Proof.
  unfold replace_links. rewrite elem_of_app, elem_of_List_filter, elem_of_List_map, negb_true_iff.
  simpl. rewrite String.eqb_neq. split.
  - intros [[? ?]|(x & Hx & [= -> ->])]; auto.
  - intros [[? ?]|[-> ?]]; eauto.
Qed.

Lemma elem_of_audit owner by_ prev ids i a :
  Audit owner i a by_ ∈ audit_entries owner by_ prev ids ↔
    match a with attached => i ∈ ids ∧ i ∉ prev | detached => i ∈ prev ∧ i ∉ ids end.
Proof.
  unfold audit_entries. rewrite elem_of_app, !elem_of_List_map.
  setoid_rewrite elem_of_List_filter. setoid_rewrite negb_true_iff.
  setoid_rewrite includes_false. setoid_rewrite elem_of_js_set.
  destruct a; split; [intros [(x&?&[=])|(x&?&[=])]|..]; naive_solver.
Qed.

(** Attaching policies replaces exactly the role's links and logs exactly the
    ids added and removed.  A live session of a user holding the role that the
    push reached carries the permissions the resolver computes from the new
    links; every other session is as it was. *)
Theorem attachPolicies_effect fk_error db today roleId policyIds by_ f s db' log s'
    (Hok : store_ok (V := V) s)
    (Hrun : attachPolicies (V := V) fk_error db today roleId policyIds by_ f s = Ok (db', log, s')) :
  (∀ r p, (r, p) ∈ roles_policies db' ↔
     (r ≠ roleId ∧ (r, p) ∈ roles_policies db) ∨ (r = roleId ∧ p ∈ policyIds)) ∧
  (∃ role, repo_findById roleId (roles db) = Some role ∧
     ∀ p a, Audit roleId p a by_ ∈ log ↔
       match a with
       | attached => p ∈ policyIds ∧ p ∉ List.map pk (role_policies db role)
       | detached => p ∈ List.map pk (role_policies db role) ∧ p ∉ policyIds
       end) ∧
  (∀ j d, sess j s = Some d → (0 < life j s)%Z → has_role db' (s_user_id d) roleId →
     reaches (f (s_user_id d)) j = true → sess j s' = Some (resolved_session db' today d)) ∧
  (∀ j d, sess j s = Some d →
     ¬ has_role db' (s_user_id d) roleId ∨ reaches (f (s_user_id d)) j = false → sess j s' = Some d).
Proof.
  unfold attachPolicies in Hrun. apply res_bind_Ok in Hrun as ([db1 log1] & Htx & Hrun).
  apply executeDb_Ok in Htx. destruct (repo_findById roleId (roles db)) as [role|]; [|done].
  apply res_bind_Ok in Htx as (? & _ & [= <- <-]). revert Hrun. unfold syncUsersByRole.
  set (db1 := with_roles_policies _ _).
  pose proof (syncUsers_state f db1 today (List.map pk (users_with_roles db1 [roleId])) s Hok) as Hst.
  destruct (syncUsers f _ _ _ _) as [r s1]. destruct Hst as (-> & _ & Hs & _).
  cbn [res_bind]. intros [= <- <- <-].
  assert (∀ u, u ∈ List.map pk (users_with_roles db1 [roleId]) ↔ has_role db1 u roleId) as Hu.
  { intros u. rewrite elem_of_users_with_roles. setoid_rewrite list_elem_of_singleton. naive_solver. }
  split_and!.
  - intros r p. apply elem_of_replace_links.
  - exists role. split; [done|]. intros p a. apply elem_of_audit.
  - intros j d Hd Hpos Hr Hreach. rewrite Hs, Hd, Hreach. apply Hu in Hr.
    apply Z.ltb_lt in Hpos. by rewrite bool_decide_true, Hpos.
  - intros j d Hd Hr. rewrite Hs, Hd. destruct Hr as [Hr| ->]; [|by rewrite andb_false_r].
    rewrite bool_decide_false; [done|]. by rewrite Hu.
Qed.

(** Assigning roles replaces exactly the user's links and logs the changes;
    each of the user's live sessions the push reached then carries what the
    resolver computes from the new roles, and no other session changes. *)
Theorem assignRoles_effect fk_error db today userId roleIds by_ f s db' log s'
    (Hok : store_ok (V := V) s)
    (Hrun : assignRoles (V := V) fk_error db today userId roleIds by_ f s = Ok (db', log, s')) :
  (∀ u r, (u, r) ∈ users_roles db' ↔
     (u ≠ userId ∧ (u, r) ∈ users_roles db) ∨ (u = userId ∧ r ∈ roleIds)) ∧
  (∃ user, repo_findById userId (users db) = Some user ∧
     ∀ r a, Audit userId r a by_ ∈ log ↔
       match a with
       | attached => r ∈ roleIds ∧ r ∉ List.map pk (user_roles db user)
       | detached => r ∈ List.map pk (user_roles db user) ∧ r ∉ roleIds
       end) ∧
  (∀ j d, sess j s = Some d →
     sess j s' = Some (if bool_decide (s_user_id d = userId) && (0 <? life j s)%Z
                          && reaches (f (s_user_id d)) j
                       then resolved_session db' today d else d)).
Proof.
  unfold assignRoles in Hrun. apply res_bind_Ok in Hrun as ([db1 log1] & Htx & Hrun).
  apply executeDb_Ok in Htx. destruct (repo_findById userId (users db)) as [user|]; [|done].
  apply res_bind_Ok in Htx as (? & _ & [= <- <-]). revert Hrun. set (db1 := with_users_roles _ _).
  pose proof (syncUser_state f db1 today userId s Hok) as Hst.
  destruct (syncUser f _ _ _ _) as [r s1]. destruct Hst as (-> & _ & Hs & _).
  cbn [res_bind]. intros [= <- <- <-]. split_and!.
  - intros u r. apply elem_of_replace_links.
  - exists user. split; [done|]. intros r a. apply elem_of_audit.
  - intros j d Hd. by rewrite Hs, Hd.
Qed.

(** After a policy's statements changed, the sync reaches every live session
    whose user holds the policy through a live role, if that user's push does. *)
Theorem syncUsersByPolicy_effect f db today policyId s (Hok : store_ok (V := V) s) :
  let s' := (syncUsersByPolicy (V := V) f db today policyId s).2 in
  ∀ j d, sess j s = Some d → (0 < life j s)%Z → reaches (f (s_user_id d)) j = true →
    (∃ rid, has_role db (s_user_id d) rid ∧ (rid, policyId) ∈ roles_policies db ∧
            ∃ p, live (policies db) p ∧ pk p = policyId) →
    sess j s' = Some (resolved_session db today d).
Proof.
  intros s' j d Hd Hpos Hreach (rid & Hrole & Hlink & Hp).
  assert (rid ∈ List.map pk (roles_with_policy db policyId)) as Hrid
    by (apply elem_of_roles_with_policy; split_and!; [by destruct Hrole as (_ & ? & _)|done|done]).
  unfold s', syncUsersByPolicy. destruct (roles_with_policy db policyId) as [|r rs] eqn:Hrs;
    [by apply not_elem_of_nil in Hrid|]. rewrite <- Hrs in *. clear Hrs s'.
  set (us := js_set _). pose proof (syncUsers_state f db today us s Hok) as Hst.
  destruct (syncUsers f db today us s) as [res s']. destruct Hst as (_ & _ & Hs & _). cbn [snd].
  rewrite Hs, Hd, Hreach. apply Z.ltb_lt in Hpos as ->. rewrite bool_decide_true; [done|].
  apply elem_of_js_set, elem_of_users_with_roles. eauto.
Qed.
End effect.

(** ** Witnesses *)

Definition no_fk : string → driver_error := λ _, DriverError (Some "23503") None None None None None None.

(** Detaching the last policy of the only role takes effect on the live session. *)
Lemma attachPolicies_effect_witness :
  ∃ db' log s', attachPolicies (V := ISessionData) no_fk sample_db "2024-06-01" "r1" [] None (λ _, delivered) one_session
    = Ok (db', log, s') ∧
    get_session (V := ISessionData) "j1" s' = Some (put_permissions ["SALES"] [] [] ann).
Proof.
  destruct (attachPolicies (V := ISessionData) no_fk sample_db "2024-06-01" "r1" [] None (λ _, delivered) one_session)
    as [[[db' log] s']|e] eqn:E; [|vm_compute in E; discriminate E].
  exists db', log, s'. split; [reflexivity|].
  pose proof (attachPolicies_effect no_fk sample_db "2024-06-01" "r1" [] None (λ _, delivered) one_session db' log s'
                one_session_ok E) as (_ & _ & H & _).
  pose proof (H "j1" ann eq_refl eq_refl) as H'. vm_compute in E. injection E as <- _ _.
  assert (has_role (T := list) (IamDb (users sample_db) (roles sample_db) (users_roles sample_db)
    [("r2", "p2")] (policies sample_db) (statements sample_db) (targets sample_db)
    (actions sample_db) (conditions sample_db) (permissions sample_db)) "u1" "r1") as Hr.
  { unfold has_role. split_and!.
    - exists (User "u1" None). split; [split; [apply list_elem_of_here|reflexivity]|reflexivity].
    - exists (Role "r1" "SALES" None). split; [split; [apply list_elem_of_here|reflexivity]|reflexivity].
    - apply list_elem_of_here. }
  rewrite (H' Hr eq_refl). vm_compute. reflexivity.
Defined.

Lemma assignRoles_effect_witness :
  ∃ db' log s', assignRoles (V := ISessionData) no_fk sample_db "2024-06-01" "u1" [] None (λ _, delivered) one_session
    = Ok (db', log, s') ∧
    get_session (V := ISessionData) "j1" s' = Some (put_permissions [] [] [] ann).
Proof.
  destruct (assignRoles (V := ISessionData) no_fk sample_db "2024-06-01" "u1" [] None (λ _, delivered) one_session)
    as [[[db' log] s']|e] eqn:E; [|vm_compute in E; discriminate E].
  exists db', log, s'. split; [reflexivity|].
  pose proof (assignRoles_effect no_fk sample_db "2024-06-01" "u1" [] None (λ _, delivered) one_session db' log s'
                one_session_ok E) as (_ & _ & H).
  rewrite (H "j1" ann eq_refl). vm_compute in E. injection E as <- _ _. vm_compute. reflexivity.
Defined.

Lemma syncUsersByPolicy_effect_witness :
  store_ok (V := ISessionData) one_session ∧
  get_session (V := ISessionData) "j1"
    (syncUsersByPolicy (V := ISessionData) (λ _, delivered) sample_db "2024-06-01" "p1" one_session).2
  = Some (resolved_session sample_db "2024-06-01" ann).
Proof.
  split; [exact one_session_ok|].
  apply (syncUsersByPolicy_effect (λ _, delivered) sample_db "2024-06-01" "p1" one_session one_session_ok "j1" ann).
  - vm_compute. reflexivity.
  - vm_compute. reflexivity.
  - vm_compute. reflexivity.
  - exists "r1". unfold has_role. split_and!.
    + exists (User "u1" None). split; [split; [apply list_elem_of_here|reflexivity]|reflexivity].
    + exists (Role "r1" "SALES" None). split; [split; [apply list_elem_of_here|reflexivity]|reflexivity].
    + apply list_elem_of_here.
    + apply list_elem_of_here.
    + exists (Policy "p1" true (Some "2024-01-01") (Some "2024-12-31") None).
      split; [split; [apply list_elem_of_here|reflexivity]|reflexivity].
Defined.
