(* ===== verification/Guards.v ===== *)
(** * The request guards

    Model of the four global guards, in the order CommonModule registers them
    (src/libs/common/src/guards: auth, access-key, csrf, permission).  Route
    metadata ([@Public], [@RequirePermission], ...) is the record [route].

    JWT verification, SHA-256 and the two calls to iam-bc are arguments; the
    session and the attempt counters are read and written through [Redis].  A
    guard that throws may already have changed the store, so the access-key
    guard returns the store next to its result. *)

From S2P Require Import Prelude JsString JsValues SessionStore.
#[local] Open Scope string_scope.

(** ** Requests and routes *)

Inductive header := HString (s : string) | HArray.
Record http_request := HttpRequest {
  rq_method : string;
  rq_url : string;
  rq_ip : option string;
  rq_rawBody : string;
  rq_headers : gmap string header;
  rq_cookies : option (gmap string string);
  (** [params], [query], [body]: the key with [String(value)] if the value is a
      string, number or boolean. *)
  rq_params : option (list (string * option string));
  rq_query : option (list (string * option string));
  rq_body : option (list (string * option string));
}.

Record route := Route {
  is_http : bool;
  isPublic : bool;
  isAccessKeyRoute : bool;
  skipPasswordChangeCheck : bool;
  skipCsrfCheck : bool;
  skipPermissionCheck : bool;
  requiredPermission : option string;
}.

Record IUserSession := UserSession {
  us_id : string;
  us_username : string;
  us_fullname : option string;
  us_email : option string;
  us_roles : list string;
  us_permissions : list string;
  us_jti : option string;
  us_must_change_password : bool;
}.
(** [request.user] *)
Record request_user := RequestUser {
  user_session : IUserSession;
  conditional_permissions : list string;
}.

Record token_payload := TokenPayload { sub : string; jti : string }.

Definition header_string (r : http_request) (name : string) : option string :=
  match rq_headers r !! name with Some (HString s) => Some s | _ => None end.
Definition cookie (r : http_request) (name : string) : option string :=
  rq_cookies r ≫= (.!! name).

(** [if (!x)] for an optional string *)
Definition falsy (x : option string) : bool :=
  match x with None => true | Some s => String.eqb s "" end.

(** ** AuthGuard *)

Definition extractToken (r : http_request) : option string :=
  let from_cookie := cookie r "access_token" in
  match header_string r "authorization" with
  | Some h =>
      match split " " h with
      | scheme :: token :: _ =>
          if String.eqb scheme "Bearer" && negb (String.eqb token "") then Some token else from_cookie
      | _ => from_cookie
      end
  | None => from_cookie
  end.

Definition MUST_CHANGE_PASSWORD : exn :=
  HttpException 403 (Some "MUST_CHANGE_PASSWORD") "Password change is required before continuing." None.

Section auth.
Context {S V : Type} `{Redis S V} `{!Json ISessionData V}.
Context (jwt_verify : string → option token_payload).

(** [Ok None]: the guard passes without setting [request.user]. *)
Definition auth_guard (today : string) (rt : route) (r : http_request) (s : S)
    : result (option request_user) :=
  if negb (is_http rt) then Ok None
  else if isPublic rt then Ok None
  else if isAccessKeyRoute rt then Ok None
  else
    let token := extractToken r in
    if falsy token then Throw (UnauthorizedException "Missing access token.")
    else
      match token ≫= jwt_verify with
      | None => Throw (UnauthorizedException "Invalid or expired access token.")
      | Some payload =>
          match get_session (V := V) (jti payload) s with
          | None => Throw (UnauthorizedException "Session has been revoked. Please log in again.")
          | Some session =>
              if negb (falsy (s_expired_at session))
                 && str_lt (default "" (s_expired_at session)) today
              then Throw (UnauthorizedException
                     "This user account has expired. Please contact your administrator.")
              else if s_must_change_password session && negb (skipPasswordChangeCheck rt)
              then Throw MUST_CHANGE_PASSWORD
              else Ok (Some (RequestUser
                     (UserSession (sub payload) (s_username session) (s_fullname session)
                        (s_email session) (s_roles session) (s_permissions session)
                        (Some (jti payload)) (s_must_change_password session))
                     (s_conditional session)))
          end
      end.
End auth.

(** ** AccessKeyGuard *)

(** The counter commands. *)
Class RedisCounters (S V : Type) `{Redis S V} := {
  counter : string → S → Z;         (* the number stored at the key, 0 without key *)
  incr : string → S → Z * S;
  expire : string → Z → S → S;
  plain : string → V;               (* a string argument of a command *)
}.
Class RedisCounterLaws (S V : Type) `{RedisCounters S V} := {
  incr_result k (s : S) : (incr k s).1 = (counter k s + 1)%Z;
  counter_incr k (s : S) k' :
    counter k' (incr k s).2 = if decide (k' = k) then (counter k s + 1)%Z else counter k' s;
  counter_expire k n (s : S) k' : (0 < n)%Z → counter k' (expire k n s) = counter k' s;
  counter_setex k n (v : V) (s : S) k' : k' ≠ k → counter k' (setex k n v s) = counter k' s;
  counter_del k (s : S) k' :
    counter k' (del (V := V) k s) = if decide (k' = k) then 0%Z else counter k' s;
  get_incr k (s : S) k' : k' ≠ k → get (V := V) k' (incr k s).2 = get k' s;
  get_expire k n (s : S) k' : k' ≠ k → get (V := V) k' (expire k n s) = get k' s;
}.

(** [/^AKIA[A-Z0-9]{16}$/] *)
Definition valid_access_key_id (k : string) : bool :=
  match drop_prefix "AKIA" k with
  | Some rest => Nat.eqb (String.length rest) 16
                 && str_forall (λ c, is_upper c || is_digit c) rest
  | None => false
  end.
Definition TIMESTAMP_FRESHNESS_MS : Z := 5 * 60 * 1000.
Definition FAILED_ATTEMPT_LIMIT : Z := 5.
Definition FAILED_ATTEMPT_WINDOW_SECONDS : Z := 60.
Definition BLOCK_DURATION_SECONDS : Z := 15 * 60.

Record verify_payload := VerifyPayload {
  vp_access_key_id : string; vp_string_to_sign : string; vp_provided_signature : string;
  vp_source_ip : option string;
}.
Record access_key_context := AccessKeyContext {
  kc_id : string; kc_access_key_id : string; kc_name : string; kc_owner_id : string;
  kc_permissions : list string; kc_conditional : list string;
}.
Record verify_response := VerifyResponse {
  vr_valid : bool; vr_context : option access_key_context; vr_reason : option string;
}.

Definition newline : string := String (ascii_of_nat 10) "".

Section access_key.
Context {S V : Type} `{RedisCounters S V}.
Context (engine_date : string → option Z) (sha256_hex : string → string).
(** The [VerifyAccessKeySignature] call, [None] being the [null] fallback; an
    HTTP exception answered by iam-bc is rethrown. *)
Context (verify_rpc : verify_payload → result (option verify_response)).

Definition isTimestampFresh (now : Z) (timestamp : string) : bool :=
  match Date_parse engine_date timestamp with
  | None => false
  | Some t => (Z.abs (now - t) <=? TIMESTAMP_FRESHNESS_MS)%Z
  end.

Definition buildStringToSign (r : http_request) (timestamp : string) : string :=
  toUpperCase (rq_method r) +:+ newline +:+ default "" (head (split "?" (rq_url r))) +:+ newline
  +:+ timestamp +:+ newline +:+ sha256_hex (rq_rawBody r).

Definition getClientIp (r : http_request) : option string :=
  match header_string r "x-forwarded-for" with
  | Some f => Some (trim (default "" (head (split "," f))))
  | None => rq_ip r
  end.

Definition failed_key (k : string) : string := "access_key_failed:" +:+ k.
Definition blocked_key (k : string) : string := "access_key_blocked:" +:+ k.

Definition incrementFailedAttempts (k : string) (s : S) : S :=
  let '(attempts, s1) := incr (failed_key k) s in
  let s2 := expire (failed_key k) FAILED_ATTEMPT_WINDOW_SECONDS s1 in
  if (FAILED_ATTEMPT_LIMIT <=? attempts)%Z
  then setex (blocked_key k) BLOCK_DURATION_SECONDS (plain "1") s2
  else s2.

Definition access_key_guard (now : Z) (rt : route) (r : http_request) (s : S)
    : result (option request_user) * S :=
  if negb (is_http rt) then (Ok None, s)
  else if negb (isAccessKeyRoute rt) then (Ok None, s)
  else
    match header_string r "x-access-key-id", header_string r "x-timestamp",
          header_string r "x-signature" with
    | Some accessKeyId, Some timestamp, Some signature =>
        if negb (valid_access_key_id accessKeyId)
        then (Throw (UnauthorizedException "Invalid Access Key ID format"), s)
        else if negb (isTimestampFresh now timestamp)
        then (Throw (UnauthorizedException "Request timestamp is too old or in the future"), s)
        else
          match get (V := V) (blocked_key accessKeyId) s with
          | Some _ => (Throw (UnauthorizedException
                         "Access Key is temporarily blocked due to repeated failed attempts"), s)
          | None =>
              match verify_rpc (VerifyPayload accessKeyId (buildStringToSign r timestamp)
                                  signature (getClientIp r)) with
              | Throw e => (Throw e, s)
              | Ok (Some (VerifyResponse true (Some c) _)) =>
                  (Ok (Some (RequestUser
                         (UserSession (kc_owner_id c) (kc_access_key_id c) (Some (kc_name c)) None []
                            (kc_permissions c) None false) (kc_conditional c))),
                   del (V := V) (failed_key accessKeyId) s)
              | Ok result =>
                  (Throw (UnauthorizedException (default "Unauthorized" (result ≫= vr_reason))),
                   incrementFailedAttempts accessKeyId s)
              end
          end
    | _, _, _ => (Throw (UnauthorizedException
        "Missing required headers: X-Access-Key-Id, X-Timestamp, X-Signature"), s)
    end.
End access_key.

(** ** CsrfGuard *)

Definition tokensMatch (a b : string) : bool :=
  Nat.eqb (String.length a) (String.length b) && String.eqb a b.

Definition csrf_guard (rt : route) (r : http_request) : result unit :=
  if negb (is_http rt) then Ok ()
  else if includes ["GET"; "HEAD"; "OPTIONS"] (rq_method r) then Ok ()
  else if isAccessKeyRoute rt then Ok ()
  else if skipCsrfCheck rt then Ok ()
  else
    let cookieToken := cookie r "csrf_token" in
    if falsy cookieToken then Ok ()
    else match header_string r "x-csrf-token" with
         | Some h => if tokensMatch (default "" cookieToken) h then Ok ()
                     else Throw (ForbiddenException "Missing or invalid CSRF token.")
         | None => Throw (ForbiddenException "Missing or invalid CSRF token.")
         end.

(** ** PermissionGuard *)

Abbreviation context := (gmap string string).

Definition flatten (source : option (list (string * option string))) (ctx : context) : context :=
  foldl (λ ctx kv, match kv.2 with Some v => <[kv.1 := v]> ctx | None => ctx end) ctx
    (default [] source).

Definition buildEvaluationContext (hours minutes : nat) (r : http_request) : context :=
  let ctx : context :=
    <["context.ip" := default "" (rq_ip r)]>
      {["context.current_time" := string_of_nat hours +:+ ":" +:+ padStart 2 "0" (string_of_nat minutes)]} in
  flatten (rq_body r) (flatten (rq_query r) (flatten (rq_params r) ctx)).

Section permission.
(** The [EvaluateConditions] call: user, service, resource, action, context;
    [false] when it fails. An HTTP exception answered by iam-bc is rethrown. *)
Context (evaluate_rpc : string → string → string → string → context → result bool).

Definition permission_guard (hours minutes : nat) (rt : route) (r : http_request)
    (user : option request_user) : result unit :=
  if negb (is_http rt) then Ok ()
  else if isPublic rt then Ok ()
  else
    match user with
    | None => Throw (ForbiddenException "Not authenticated.")
    | Some u =>
        if String.eqb (us_id (user_session u)) "" then Throw (ForbiddenException "Not authenticated.")
        else if skipPermissionCheck rt then Ok ()
        else
          match requiredPermission rt with
          | None | Some "" => Throw (ForbiddenException
              "This endpoint is missing @RequirePermission() — default deny.")
          | Some required =>
              if includes (us_permissions (user_session u)) required then Ok ()
              else
                let! allowed :=
                  if includes (conditional_permissions u) required then
                    match split ":" required with
                    | resource :: rest =>
                        evaluate_rpc (us_id (user_session u)) "*" resource
                          (default "undefined" (head rest))
                          (buildEvaluationContext hours minutes r)
                    | [] => Ok false
                    end
                  else Ok false in
                if allowed then Ok ()
                else Throw (ForbiddenException ("Missing required permission: " +:+ required))
          end
    end.
End permission.

(** ** The chain *)
Section chain.
Context {S V : Type} `{RedisCounters S V} `{!Json ISessionData V}.
Context (jwt_verify : string → option token_payload)
        (engine_date : string → option Z) (sha256_hex : string → string)
        (verify_rpc : verify_payload → result (option verify_response))
        (evaluate_rpc : string → string → string → string → context → result bool).

Record clock := Clock { today : string; now_ms : Z; hours : nat; minutes : nat }.

(** The result for the request, and the store after it. *)
Definition guards (t : clock) (rt : route) (r : http_request) (s : S)
    : result (option request_user) * S :=
  match auth_guard (V := V) jwt_verify (today t) rt r s with
  | Throw e => (Throw e, s)
  | Ok u1 =>
      let '(res, s') := access_key_guard engine_date sha256_hex verify_rpc (now_ms t) rt r s in
      (let! u2 := res in
       let user := match u2 with Some _ => u2 | None => u1 end in
       let! _ := csrf_guard rt r in
       let! _ := permission_guard evaluate_rpc (hours t) (minutes t) rt r user in
       Ok user, s')
  end.
End chain.

(** ** Properties *)
Section properties.
Context {S V : Type} `{RedisCounters S V} `{!Json ISessionData V}.
Context (jwt_verify : string → option token_payload)
        (engine_date : string → option Z) (sha256_hex : string → string)
        (verify_rpc : verify_payload → result (option verify_response))
        (evaluate_rpc : string → string → string → string → context → result bool).
Implicit Types (s : S) (r : http_request).
Abbreviation chain_of := (guards (V := V) jwt_verify engine_date sha256_hex verify_rpc evaluate_rpc).

(** The request carries a valid token of a live session, or a valid signature. *)
Definition authenticated (t : clock) (rt : route) r s (u : request_user) : Prop :=
  if isAccessKeyRoute rt then
    ∃ p c reason, verify_rpc p = Ok (Some (VerifyResponse true (Some c) reason)) ∧
      header_string r "x-access-key-id" = Some (vp_access_key_id p) ∧
      header_string r "x-signature" = Some (vp_provided_signature p) ∧
      get (V := V) (blocked_key (vp_access_key_id p)) s = None ∧
      us_id (user_session u) = kc_owner_id c ∧
      us_permissions (user_session u) = kc_permissions c ∧
      conditional_permissions u = kc_conditional c
  else
    ∃ token p d, extractToken r = Some token ∧ jwt_verify token = Some p ∧
      get_session (V := V) (jti p) s = Some d ∧
      (∀ e, s_expired_at d = Some e → e ≠ "" → str_lt e (today t) = false) ∧
      (s_must_change_password d = true → skipPasswordChangeCheck rt = true) ∧
      us_id (user_session u) = sub p ∧
      us_permissions (user_session u) = s_permissions d ∧
      conditional_permissions u = s_conditional d.

Definition authorised (t : clock) (rt : route) r (u : request_user) : Prop :=
  skipPermissionCheck rt = true ∨
  ∃ required, requiredPermission rt = Some required ∧ required ≠ "" ∧
    (required ∈ us_permissions (user_session u) ∨
     (required ∈ conditional_permissions u ∧
      ∃ resource rest, split ":" required = resource :: rest ∧
        evaluate_rpc (us_id (user_session u)) "*" resource (default "undefined" (head rest))
          (buildEvaluationContext (hours t) (minutes t) r) = Ok true)).

Lemma auth_guard_user t rt r s u :
  auth_guard (V := V) jwt_verify (today t) rt r s = Ok (Some u) → authenticated t rt r s u.
Proof.
  unfold auth_guard, authenticated. destruct (is_http rt); [|done].
  destruct (isPublic rt); [done|]. destruct (isAccessKeyRoute rt); [done|]. simpl.
  destruct (extractToken r) as [token|]; [|done]. destruct (falsy _); [done|]. simpl.
  destruct (jwt_verify token) as [p|] eqn:Hp; [|done].
  destruct (get_session (jti p) s) as [d|] eqn:Hd; [|done].
  destruct (negb (falsy (s_expired_at d)) && _) eqn:He; [done|].
  destruct (s_must_change_password d && negb (skipPasswordChangeCheck rt)) eqn:Hm; [done|].
  intros [= <-]. exists token, p, d. split_and!; try done.
  - intros e Hexp Hne. rewrite Hexp in He. simpl in He. apply String.eqb_neq in Hne.
    by rewrite Hne in He.
  - intros Hc. rewrite Hc in Hm. by destruct (skipPasswordChangeCheck rt).
Qed.

(** What the access-key guard has checked when it sets a user. *)
Lemma access_key_guard_inv now rt r s s' u :
  access_key_guard (V := V) engine_date sha256_hex verify_rpc now rt r s = (Ok (Some u), s') →
  isAccessKeyRoute rt = true ∧
  ∃ k ts sg c reason, header_string r "x-access-key-id" = Some k ∧ header_string r "x-timestamp" = Some ts ∧
    header_string r "x-signature" = Some sg ∧ valid_access_key_id k = true ∧
    isTimestampFresh engine_date now ts = true ∧ get (V := V) (blocked_key k) s = None ∧
    verify_rpc (VerifyPayload k (buildStringToSign sha256_hex r ts) sg (getClientIp r))
      = Ok (Some (VerifyResponse true (Some c) reason)) ∧
    u = RequestUser (UserSession (kc_owner_id c) (kc_access_key_id c) (Some (kc_name c)) None []
          (kc_permissions c) None false) (kc_conditional c).
Proof.
  unfold access_key_guard. destruct (is_http rt); [|done].
  destruct (isAccessKeyRoute rt); [|done]. simpl. intros Hg. split; [done|].
  destruct (header_string r "x-access-key-id") as [k|]; [|done].
  destruct (header_string r "x-timestamp") as [ts|]; [|done].
  destruct (header_string r "x-signature") as [sg|]; [|done].
  destruct (valid_access_key_id k) eqn:Hvalid; [|done]. cbn [negb] in Hg.
  destruct (isTimestampFresh _ _ _) eqn:Hfresh; [|done]. cbn [negb] in Hg.
  destruct (get (blocked_key k) s) as [v|] eqn:Hb; [done|].
  destruct (verify_rpc _) as [[[[] [c|] reason]|]|e] eqn:Hv; try done.
  injection Hg as <- _. by exists k, ts, sg, c, reason.
Qed.
Lemma access_key_guard_user t rt r s s' u :
  access_key_guard (V := V) engine_date sha256_hex verify_rpc (now_ms t) rt r s = (Ok (Some u), s') →
  isAccessKeyRoute rt = true ∧ authenticated t rt r s u.
Proof.
  intros (Hrt & k & ts & sg & c & reason & Hk & _ & Hsg & _ & _ & Hb & Hv & ->)%access_key_guard_inv.
  split; [done|]. unfold authenticated. rewrite Hrt.
  by exists (VerifyPayload k (buildStringToSign sha256_hex r ts) sg (getClientIp r)), c, reason.
Qed.

Lemma permission_guard_passes t rt r user :
  permission_guard evaluate_rpc (hours t) (minutes t) rt r user = Ok () →
  is_http rt = true → isPublic rt = false →
  ∃ u, user = Some u ∧ us_id (user_session u) ≠ "" ∧ authorised t rt r u.
Proof.
  unfold permission_guard, authorised. intros Hg Hh Hp. rewrite Hh, Hp in Hg. simpl in Hg.
  destruct user as [u|]; [|done]. destruct (String.eqb (us_id (user_session u)) "") eqn:Hid; [done|].
  exists u. split; [done|]. split; [by apply String.eqb_neq|].
  destruct (skipPermissionCheck rt); [by left|right].
  destruct (requiredPermission rt) as [[|c req]|] eqn:Hreq; [done| |done].
  exists (String c req). split_and!; [done..|].
  destruct (includes (us_permissions (user_session u)) (String c req)) eqn:Hin;
    [left; by apply includes_true|right].
  apply res_bind_Ok in Hg as (allowed & Ha & Hg). destruct allowed; [|done].
  destruct (includes (conditional_permissions u) (String c req)) eqn:Hc; [|done].
  split; [by apply includes_true|]. destruct (split ":" (String c req)) as [|res rest]; [done|]. by exists res, rest.
Qed.

(** What a request that passes the chain on a non-public route has shown. *)
Lemma guards_mediate t rt r s s' user
    (Hpass : chain_of t rt r s = (Ok user, s'))
    (Hhttp : is_http rt = true) (Hprotected : isPublic rt = false) :
  ∃ u, user = Some u ∧ us_id (user_session u) ≠ "" ∧ authenticated t rt r s u ∧ authorised t rt r u.
Proof.
  unfold guards in Hpass. destruct (auth_guard _ _ _ _ _) as [u1|e] eqn:Hauth; [|done].
  destruct (access_key_guard _ _ _ _ _ _ _) as [res s1] eqn:Hkey. injection Hpass as Hpass <-.
  apply res_bind_Ok in Hpass as (u2 & -> & Hpass). simpl in Hpass.
  apply res_bind_Ok in Hpass as ([] & _ & Hpass). apply res_bind_Ok in Hpass as ([] & Hperm & [= <-]).
  apply permission_guard_passes in Hperm as (u & Hu & Hid & Hauthz); [|done..].
  exists u. split_and!; [done..| |done].
  destruct u2 as [u2|].
  - injection Hu as ->. by apply access_key_guard_user in Hkey as [_ ?].
  - subst u1. by apply auth_guard_user.
Qed.

(** The double submit: a changing request of a browser with a CSRF cookie
    repeats the cookie in its header. *)
Definition csrf_shown rt r : Prop :=
  ∀ token, cookie r "csrf_token" = Some token → token ≠ "" → rq_method r ∉ ["GET"; "HEAD"; "OPTIONS"] →
    isAccessKeyRoute rt = false → skipCsrfCheck rt = false → header_string r "x-csrf-token" = Some token.

Lemma csrf_guard_passes rt r : csrf_guard rt r = Ok () → is_http rt = true → csrf_shown rt r.
Proof.
  intros Hg Hh token Hc Hne Hm Hk Hs. unfold csrf_guard in Hg. rewrite Hh, Hk, Hs, Hc in Hg.
  destruct (includes _ _) eqn:Hi; [by apply includes_true in Hi|]. cbn in Hg.
  rewrite (proj2 (String.eqb_neq _ _) Hne) in Hg. destruct (header_string r "x-csrf-token") as [h|]; [|done].
  destruct (tokensMatch token h) eqn:Ht; [|done]. unfold tokensMatch in Ht.
  by apply andb_true_iff in Ht as [_ ->%String.eqb_eq].
Qed.
Lemma guards_check_csrf t rt r s s' user :
  chain_of t rt r s = (Ok user, s') → is_http rt = true → csrf_shown rt r.
Proof.
  unfold guards. destruct (auth_guard _ _ _ _ _) as [u1|e]; [|done].
  destruct (access_key_guard _ _ _ _ _ _ _) as [res s1]. intros [= Hpass _] Hh.
  apply res_bind_Ok in Hpass as (u2 & _ & Hpass). apply res_bind_Ok in Hpass as ([] & Hc & _).
  by apply csrf_guard_passes.
Qed.

(** C3: every request that gets past the guards repeats its CSRF cookie where the
    double submit applies, and on a non-public route it carries a live,
    unexpired session or a valid, unblocked access-key signature, and is
    authorised by the identity so established: the route opted out, or the
    required permission is held, or iam-bc just granted it conditionally. *)
Theorem guards_complete_mediation t rt r s s' user
    (Hpass : chain_of t rt r s = (Ok user, s')) (Hhttp : is_http rt = true) :
  csrf_shown rt r ∧
  (isPublic rt = false →
    ∃ u, user = Some u ∧ us_id (user_session u) ≠ "" ∧ authenticated t rt r s u ∧ authorised t rt r u).
Proof.
  split; [by apply (guards_check_csrf t rt r s s' user)|]. intros Hp. by apply (guards_mediate t rt r s s').
Qed.

Lemma auth_revoked t rt r s token p :
  is_http rt = true → isPublic rt = false → isAccessKeyRoute rt = false →
  extractToken r = Some token → token ≠ "" → jwt_verify token = Some p →
  get_session (V := V) (jti p) s = None →
  auth_guard (V := V) jwt_verify (today t) rt r s
  = Throw (UnauthorizedException "Session has been revoked. Please log in again.").
Proof.
  intros Hh Hp Hk Ht Hne Hv Hs. unfold auth_guard. rewrite Hh, Hp, Hk, Ht. simpl.
  apply String.eqb_neq in Hne as ->. by rewrite Hv, Hs.
Qed.

(** Once a session is revoked, its token is refused on every protected
    route, although the token itself still verifies. *)
Theorem revoked_token_refused `{!RedisLaws S V} t rt r s token p
    (Hhttp : is_http rt = true) (Hprotected : isPublic rt = false)
    (Hkey : isAccessKeyRoute rt = false)
    (Htoken : extractToken r = Some token) (Hne : token ≠ "") (Hverify : jwt_verify token = Some p) :
  chain_of t rt r (revoke (V := V) (jti p) s) =
    (Throw (UnauthorizedException "Session has been revoked. Please log in again."),
     revoke (V := V) (jti p) s).
Proof.
  unfold guards. rewrite (auth_revoked t rt r _ token p); try done. apply revoked_session.
Qed.

(** *** Repeated failures *)

(** A well-formed, fresh request under the key. *)
Definition presents (t : clock) r (k : string) : Prop :=
  header_string r "x-access-key-id" = Some k ∧ valid_access_key_id k = true ∧
  ∃ ts sg, header_string r "x-timestamp" = Some ts ∧ header_string r "x-signature" = Some sg ∧
    isTimestampFresh engine_date (now_ms t) ts = true.

(** A verification the access-key guard rejects. *)
Definition rejected (res : result (option verify_response)) : Prop :=
  match res with Ok (Some (VerifyResponse true (Some _) _)) | Throw _ => False | _ => True end.

Definition guard_after (t : clock) (rt : route) r s : S :=
  (access_key_guard (V := V) engine_date sha256_hex verify_rpc (now_ms t) rt r s).2.

Lemma guard_blocked t rt r s k :
  is_http rt = true → isAccessKeyRoute rt = true → presents t r k →
  is_Some (get (V := V) (blocked_key k) s) →
  access_key_guard (V := V) engine_date sha256_hex verify_rpc (now_ms t) rt r s =
    (Throw (UnauthorizedException
       "Access Key is temporarily blocked due to repeated failed attempts"), s).
Proof.
  intros Hh Hk (Hid & Hvalid & ts & sg & Hts & Hsg & Hfresh) [v Hv].
  unfold access_key_guard. rewrite Hh, Hk, Hid, Hts, Hsg. simpl. by rewrite Hvalid, Hfresh, Hv.
Qed.

Lemma guard_rejected t rt r s k :
  is_http rt = true → isAccessKeyRoute rt = true → presents t r k →
  (∀ p, vp_access_key_id p = k → rejected (verify_rpc p)) →
  get (V := V) (blocked_key k) s = None →
  guard_after t rt r s = incrementFailedAttempts k s.
Proof.
  intros Hh Hk (Hid & Hvalid & ts & sg & Hts & Hsg & Hfresh) Hrej Hfree.
  unfold guard_after, access_key_guard. rewrite Hh, Hk, Hid, Hts, Hsg. simpl.
  rewrite Hvalid, Hfresh, Hfree. simpl.
  specialize (Hrej (VerifyPayload k (buildStringToSign sha256_hex r ts) sg (getClientIp r)) eq_refl).
  by destruct (verify_rpc _) as [[[[] [c|] reason]|]|e].
Qed.

Context `{!RedisLaws S V} `{!RedisCounterLaws S V}.

Lemma increment_effect k s :
  counter (failed_key k) (incrementFailedAttempts k s) = (counter (failed_key k) s + 1)%Z ∧
  ((4 <= counter (failed_key k) s)%Z →
     get (V := V) (blocked_key k) (incrementFailedAttempts k s) = Some (plain "1")) ∧
  ((counter (failed_key k) s < 4)%Z →
     get (V := V) (blocked_key k) (incrementFailedAttempts k s) = get (V := V) (blocked_key k) s).
Proof.
  assert (failed_key k ≠ blocked_key k) as Hne by done.
  unfold incrementFailedAttempts. revert Hne.
  generalize (failed_key k) (blocked_key k). intros fk bk Hne.
  pose proof (incr_result fk s) as Hincr.
  pose proof (counter_incr fk s fk) as Hcount.
  pose proof (get_incr fk s bk (not_eq_sym Hne)) as Hget.
  destruct (incr fk s) as [n s1]. cbn [fst snd] in *. subst n. rewrite decide_True in Hcount by done.
  unfold FAILED_ATTEMPT_LIMIT, FAILED_ATTEMPT_WINDOW_SECONDS, BLOCK_DURATION_SECONDS.
  destruct (5 <=? counter fk s + 1)%Z eqn:Hlim; split_and!.
  - rewrite counter_setex, counter_expire by (done || lia). done.
  - intros _. rewrite get_setex, decide_True by (done || lia). done.
  - apply Z.leb_le in Hlim. lia.
  - rewrite counter_expire by lia. done.
  - apply Z.leb_gt in Hlim. lia.
  - intros _. rewrite get_expire by done. done.
Qed.

(** Five consecutive requests under one access key whose verification fails
    block the key: further requests under it are refused without being
    verified, whatever signature they carry. *)
Theorem five_failures_block t rt k (rs : list http_request) s
    (Hhttp : is_http rt = true) (Hkey : isAccessKeyRoute rt = true)
    (Hpresent : ∀ r, r ∈ rs → presents t r k)
    (Hrej : ∀ p, vp_access_key_id p = k → rejected (verify_rpc p))
    (Hstart : (0 <= counter (failed_key k) s)%Z) (Hfive : (5 <= length rs)%nat) :
  let s' := foldl (λ s r, guard_after t rt r s) s rs in
  ∀ r, presents t r k →
    access_key_guard (V := V) engine_date sha256_hex verify_rpc (now_ms t) rt r s' =
      (Throw (UnauthorizedException
         "Access Key is temporarily blocked due to repeated failed attempts"), s').
Proof.
  intros s' r Hr. apply (guard_blocked t rt r s' k); [done..|]. unfold s'. clear s' r Hr.
  assert (is_Some (get (V := V) (blocked_key k) (foldl (λ s r, guard_after t rt r s) s rs)) ∨
    counter (failed_key k) (foldl (λ s r, guard_after t rt r s) s rs)
      = (counter (failed_key k) s + Z.of_nat (length rs))%Z ∧
    (rs = [] ∨ (counter (failed_key k) (foldl (λ s r, guard_after t rt r s) s rs) <= 4)%Z)) as Hrun.
  { clear Hfive. induction rs as [|r rs IH] using rev_ind.
    { right. simpl. split; [lia|by left]. }
    rewrite foldl_app, length_app. simpl. set (s1 := foldl _ s rs) in *.
    assert (presents t r k) as Hr by (apply Hpresent, elem_of_app; right; apply list_elem_of_here).
    destruct (get (V := V) (blocked_key k) s1) as [v|] eqn:Hb.
    { left. unfold guard_after. rewrite (guard_blocked t rt r s1 k) by eauto. cbn [snd]. by rewrite Hb. }
    rewrite (guard_rejected t rt r s1 k) by done.
    destruct IH as [[? ?]|[Hc _]]; [intros r' Hr'; apply Hpresent, elem_of_app; by left|congruence|].
    destruct (increment_effect k s1) as (Hc1 & Hblock & _).
    destruct (decide (4 <= counter (failed_key k) s1)%Z) as [Hge|Hlt].
    - left. rewrite Hblock by done. eauto.
    - right. split; [lia|right; lia]. }
  destruct Hrun as [?|(Hc & [-> |Hle])]; [done|simpl in Hfive; lia|lia].
Qed.
End properties.

(** ** Witnesses *)

#[export] Instance mem_counters V `{Inhabited V} : RedisCounters (mem V) V := {
  counter k m := default 0%Z (numbers m !! k);
  incr k m := let n := (default 0%Z (numbers m !! k) + 1)%Z in
              (n, Mem (strings m) (sets m) (<[k := n]> (numbers m)));
  expire k n m := m;
  plain _ := inhabitant;
}.
#[export] Instance mem_counter_laws V `{Inhabited V} : RedisCounterLaws (mem V) V.
Proof.
  split; intros; simpl.
  - done.
  - rewrite lookup_insert. repeat case_decide; by subst.
  - done.
  - by rewrite lookup_delete_ne.
  - rewrite lookup_delete. repeat case_decide; by subst.
  - done.
  - done.
Qed.
#[export] Instance session_inhabited : Inhabited ISessionData := populate ann.

Definition sample_route : route := Route true false false false false false (Some "sales:approve").
Definition sample_request : http_request :=
  HttpRequest "GET" "/orders/1?owner_id=u1" (Some "10.0.0.1") ""
    {["authorization" := HString "Bearer t1"]} None None (Some [("owner_id", Some "u1")]) None.
Definition sample_jwt : string → option token_payload :=
  λ t, if String.eqb t "t1" then Some (TokenPayload "u1" "j1") else None.
Definition sample_clock : clock := Clock "2024-06-01" 0 9 30.

(** [None] for the signature check: iam-bc is unreachable, [false] for the
    conditions. *)
Definition no_verify : verify_payload → result (option verify_response) := λ _, Ok None.
Definition never : string → string → string → string → context → result bool :=
  λ _ _ _ _ _, Ok false.
Definition open_route : route := Route true false false false false true None.
Definition key_route : route := Route true false true false false false (Some "stock:read").
Definition key_request : http_request :=
  HttpRequest "GET" "/stock" None ""
    {["x-access-key-id" := HString "AKIA0123456789ABCDEF"; "x-timestamp" := HString "1970-01-01";
      "x-signature" := HString "00"]} None None None None.

Lemma guards_complete_mediation_witness :
  ∃ user s', guards (V := ISessionData) sample_jwt (λ _, None) (λ s, s) no_verify never sample_clock
    open_route sample_request one_session = (Ok user, s') ∧
    ∃ u, user = Some u ∧ us_id (user_session u) ≠ "".
Proof.
  destruct (guards (V := ISessionData) sample_jwt (λ _, None) (λ s, s) no_verify never sample_clock
    open_route sample_request one_session) as [[user|e] s'] eqn:E; [|vm_compute in E; discriminate E].
  exists user, s'. split; [reflexivity|].
  destruct (guards_complete_mediation sample_jwt (λ _, None) (λ s, s) no_verify never sample_clock
    open_route sample_request one_session s' user E eq_refl) as [_ Hm].
  destruct (Hm eq_refl) as (u & Hu & Hid & _).
  exists u. split; [exact Hu|exact Hid].
Defined.

Lemma revoked_token_refused_witness :
  (guards (V := ISessionData) sample_jwt (λ _, None) (λ s, s) no_verify never sample_clock
     open_route sample_request (revoke (V := ISessionData) "j1" one_session)).1
  = Throw (UnauthorizedException "Session has been revoked. Please log in again.").
Proof.
  exact (f_equal fst (revoked_token_refused sample_jwt (λ _, None) (λ s, s) no_verify never sample_clock
    open_route sample_request one_session "t1" (TokenPayload "u1" "j1") eq_refl eq_refl eq_refl
    ltac:(vm_compute; reflexivity) ltac:(discriminate) eq_refl)).
Defined.

Lemma five_failures_block_witness :
  presents (λ _, None) sample_clock key_request "AKIA0123456789ABCDEF" ∧
  (access_key_guard (V := ISessionData) (λ _, None) (λ s, s) no_verify 0 key_route key_request
     (foldl (λ s r, guard_after (V := ISessionData) (λ _, None) (λ s, s) no_verify sample_clock key_route r s)
        empty_store (replicate 5 key_request))).1
  = Throw (UnauthorizedException "Access Key is temporarily blocked due to repeated failed attempts").
Proof.
  assert (presents (λ _, None) sample_clock key_request "AKIA0123456789ABCDEF") as Hp.
  { split; [vm_compute; reflexivity|]. split; [vm_compute; reflexivity|].
    exists "1970-01-01", "00". split; [vm_compute; reflexivity|].
    split; [vm_compute; reflexivity|vm_compute; reflexivity]. }
  split; [exact Hp|].
  pose proof (five_failures_block (λ _, None) (λ s, s) no_verify sample_clock key_route
    "AKIA0123456789ABCDEF" (replicate 5 key_request) empty_store eq_refl eq_refl
    ltac:(intros r [-> _]%elem_of_replicate; exact Hp) ltac:(intros p _; exact I)
    ltac:(vm_compute; discriminate) ltac:(simpl; lia) key_request Hp) as H.
  change (now_ms sample_clock) with 0%Z in H. rewrite H. reflexivity.
Defined.
