(* ===== verification/AccessControl.v ===== *)
(** * Access control end to end

    The pieces composed as the deployed services compose them: the guards of a
    business service (Guards.v) read the session auth-bc and iam-bc maintain
    (SessionStore.v, SessionSync.v), and call back iam-bc, whose
    [AccessEventsController.evaluateConditions]
    (src/apps/iam/src/modules/access/controllers/access-events.controller.ts)
    runs the resolver (PermissionResolver.v). *)

From S2P Require Import Prelude JsString JsValues Repo DbErrors PermissionResolver SessionStore.
From S2P Require Import SessionSync Guards.
#[local] Open Scope string_scope.

(** [evaluateConditions]: the resource and the action are put together again. *)
Definition evaluateConditions {T} `{Database T} (engine_date : string → option Z)
    (engine_regexp : string → string → result bool) (db : iam_db T) (today : string)
    (user_id service resource action : string) (ctx : gmap string string) : result bool :=
  evaluate engine_date engine_regexp db today user_id service (resource +:+ ":" +:+ action) ctx.

(** A permission name [resource:action] without further colons. *)
Definition no_colon (s : string) : Prop := str_forall (λ c, negb (Ascii.eqb c ":")) s = true.
Definition permission_name (p : string) : Prop :=
  ∃ resource action, no_colon resource ∧ no_colon action ∧ p = resource +:+ ":" +:+ action.

Lemma split_permission resource action :
  no_colon resource → no_colon action →
  split ":" (resource +:+ ":" +:+ action) = [resource; action].
Proof.
  intros Hr Ha. change (":" +:+ action) with (String ":" action).
  rewrite split_char_app by done. by rewrite split_char_none.
Qed.

Section end_to_end.
Context {T : Type → Type} `{DatabaseLaws T}.
Context {S V : Type} `{RedisCounters S V} `{!RedisLaws S V} `{!Json ISessionData V}.
Context (engine_date : string → option Z) (engine_regexp : string → string → result bool).
Implicit Types (db : iam_db T) (s : S) (r : http_request).

(** A session whose user's permissions were resolved on [db] today. *)
Definition session_user (p : token_payload) (d : ISessionData) : request_user :=
  RequestUser
    (UserSession (sub p) (s_username d) (s_fullname d) (s_email d) (s_roles d) (s_permissions d)
       (Some (jti p)) (s_must_change_password d)) (s_conditional d).

Lemma guard_decides db today rt r u perm hours minutes :
  NoDup (pk <$> rows (permissions db)) →
  is_http rt = true → isPublic rt = false → skipPermissionCheck rt = false →
  requiredPermission rt = Some perm → permission_name perm →
  us_id (user_session u) ≠ "" →
  us_permissions (user_session u)
    = res_permissions (resolveForUser db today (us_id (user_session u))) →
  conditional_permissions u = res_conditional (resolveForUser db today (us_id (user_session u))) →
  permission_guard (evaluateConditions engine_date engine_regexp db today) hours minutes rt r (Some u)
    = Ok () ↔
  evaluate engine_date engine_regexp db today (us_id (user_session u)) "*" perm
    (buildEvaluationContext hours minutes r) = Ok true.
Proof.
  intros Huniq Hh Hp Hskip Hreq (res & act & Hres & Hact & ->) Hid Hperm Hcond.
  pose proof (evaluate_agrees db Huniq engine_date engine_regexp today (us_id (user_session u)) "*"
    (res +:+ ":" +:+ act) (buildEvaluationContext hours minutes r)) as [Hyes Hno].
  unfold permission_guard. rewrite Hh, Hp, Hskip, Hreq. simpl.
  apply String.eqb_neq in Hid as ->. rewrite Hperm, Hcond.
  assert (∀ x (k : result unit), match res +:+ ":" +:+ act with
    | "" => x | String _ _ => k end = k) as Hmatch by by destruct res.
  rewrite split_permission by done. cbn [head default].
  destruct (res +:+ ":" +:+ act) as [|c q] eqn:Hname; [by destruct res|]. rewrite <- Hname in *.
  clear Hmatch. destruct (includes (res_permissions _) _) eqn:Hin.
  { apply includes_true in Hin. by rewrite Hyes. }
  apply includes_false in Hin. destruct (includes (res_conditional _) _) eqn:Hc.
  - unfold evaluateConditions. cbn [from_option]. unfold id.
    destruct (evaluate _ _ _ _ _ _ _ _) as [[]|e]; simpl; naive_solver.
  - apply includes_false in Hc. rewrite Hno by done. done.
Qed.

(** C4: for a session whose permission lists were resolved on the current
    database, the permission guard lets a request through exactly when
    evaluating the required permission afresh, under the context of that
    request, yields true: the two-level check neither over- nor under-grants. *)
Theorem guard_decision_is_evaluate db today rt r u perm hours minutes
    (Huniq : NoDup (pk <$> rows (permissions db)))
    (Hhttp : is_http rt = true) (Hprotected : isPublic rt = false)
    (Hskip : skipPermissionCheck rt = false)
    (Hreq : requiredPermission rt = Some perm) (Hname : permission_name perm)
    (Hid : us_id (user_session u) ≠ "")
    (Hperm : us_permissions (user_session u)
      = res_permissions (resolveForUser db today (us_id (user_session u))))
    (Hcond : conditional_permissions u
      = res_conditional (resolveForUser db today (us_id (user_session u)))) :
  permission_guard (evaluateConditions engine_date engine_regexp db today) hours minutes rt r (Some u)
    = Ok () ↔
  evaluate engine_date engine_regexp db today (us_id (user_session u)) "*" perm
    (buildEvaluationContext hours minutes r) = Ok true.
Proof. by apply guard_decides. Qed.

(** The session's own terms: its account has not expired on [day] and any
    pending change of password is what the route serves. *)
Definition session_admits (day : string) (rt : route) (d : ISessionData) : bool :=
  negb (negb (falsy (s_expired_at d)) && str_lt (default "" (s_expired_at d)) day)
  && (negb (s_must_change_password d) || skipPasswordChangeCheck rt).

Lemma auth_guard_session jwt_verify day rt r s token p d :
  is_http rt = true → isPublic rt = false → isAccessKeyRoute rt = false →
  extractToken r = Some token → token ≠ "" → jwt_verify token = Some p →
  get_session (V := V) (jti p) s = Some d →
  (session_admits day rt d = true ∧
   auth_guard (V := V) jwt_verify day rt r s = Ok (Some (session_user p d))) ∨
  (session_admits day rt d = false ∧ ∃ e, auth_guard (V := V) jwt_verify day rt r s = Throw e).
Proof.
  intros Hh Hp Hk Ht Hne Hv Hd. unfold auth_guard, session_admits. rewrite Hh, Hp, Hk, Ht. cbn [negb falsy].
  apply String.eqb_neq in Hne as ->. simpl. rewrite Hv, Hd.
  destruct (negb (falsy _) && _); simpl; [right; eauto|].
  destruct (s_must_change_password d) eqn:Hm, (skipPasswordChangeCheck rt); simpl; eauto;
    left; unfold session_user; by rewrite Hm.
Qed.

(** The guards let a request with the token of session [d] pass exactly when
    the CSRF check does, the session's own terms hold, and the permission
    evaluates to true on [db]. *)
Definition decided_by jwt_verify sha256_hex verify_rpc db t rt r perm p d s : Prop :=
  res_ok (guards (V := V) jwt_verify engine_date sha256_hex verify_rpc
            (evaluateConditions engine_date engine_regexp db (today t)) t rt r s).1 = true ↔
  csrf_guard rt r = Ok () ∧ session_admits (today t) rt d = true ∧
  evaluate engine_date engine_regexp db (today t) (sub p) "*" perm
    (buildEvaluationContext (hours t) (minutes t) r) = Ok true.

(** The guards read the store only in the session of the token. *)
Lemma guards_same_session jwt_verify sha256_hex verify_rpc rpc t rt r s s' token p :
  is_http rt = true → isPublic rt = false → isAccessKeyRoute rt = false →
  extractToken r = Some token → jwt_verify token = Some p →
  get_session (V := V) (jti p) s' = get_session (V := V) (jti p) s →
  (guards (V := V) jwt_verify engine_date sha256_hex verify_rpc rpc t rt r s').1
  = (guards (V := V) jwt_verify engine_date sha256_hex verify_rpc rpc t rt r s).1.
Proof.
  intros Hh Hp Hk Ht Hv Hs. unfold guards.
  assert (auth_guard (V := V) jwt_verify (today t) rt r s' = auth_guard (V := V) jwt_verify (today t) rt r s) as ->.
  { unfold auth_guard. rewrite Hh, Hp, Hk, Ht. cbn [negb]. destruct (falsy _); [done|]. simpl.
    by rewrite Hv, Hs. }
  destruct (auth_guard _ _ _ _ _) as [u1|e]; [|done]. unfold access_key_guard. rewrite Hh, Hk. done.
Qed.

(** C5: A change of a role's policies commits whatever becomes of the pushes
    into the live sessions.  Once it has, a request carrying the token of a
    live session whose user holds the role is decided on the new database if
    the push reached the session: it passes exactly when its CSRF check does,
    the session's account has not expired and needs no new password, and the
    required permission evaluates to true.  If the push did not reach it, the
    answer is the one the old session gave. *)
Theorem policy_change_is_immediate jwt_verify sha256_hex verify_rpc fk_error db t roleId policyIds by_
    f s db' log s' rt r token p d perm
    (Hok : store_ok (V := V) s)
    (Hrun : attachPolicies (V := V) fk_error db (today t) roleId policyIds by_ f s = Ok (db', log, s'))
    (Huniq : NoDup (pk <$> rows (permissions db')))
    (Hsession : get_session (V := V) (jti p) s = Some d)
    (Hlive : (0 < session_ttl (V := V) (jti p) s)%Z)
    (Hsub : sub p = s_user_id d) (Hid : sub p ≠ "")
    (Hrole : has_role db' (s_user_id d) roleId)
    (Hhttp : is_http rt = true) (Hprotected : isPublic rt = false)
    (Hkey : isAccessKeyRoute rt = false) (Hskip : skipPermissionCheck rt = false)
    (Hreq : requiredPermission rt = Some perm) (Hname : permission_name perm)
    (Htoken : extractToken r = Some token) (Hne : token ≠ "") (Hverify : jwt_verify token = Some p) :
  (∀ g, ∃ s1, attachPolicies (V := V) fk_error db (today t) roleId policyIds by_ g s = Ok (db', log, s1)) ∧
  if reaches (f (s_user_id d)) (jti p)
  then decided_by jwt_verify sha256_hex verify_rpc db' t rt r perm p d s'
  else ∀ rpc,
    (guards (V := V) jwt_verify engine_date sha256_hex verify_rpc rpc t rt r s').1
    = (guards (V := V) jwt_verify engine_date sha256_hex verify_rpc rpc t rt r s).1.
Proof.
  split.
  { intros g. pose proof (attachPolicies_survives fk_error db (today t) roleId policyIds by_ f g s) as Hsame.
    rewrite Hrun in Hsame. cbn in Hsame.
    destruct (attachPolicies _ _ _ _ _ _ g s) as [[x s1]|]; [|done]. injection Hsame as <-. by exists s1. }
  destruct (attachPolicies_effect fk_error db (today t) roleId policyIds by_ f s db' log s' Hok Hrun)
    as (_ & _ & Hsync & Hkept).
  destruct (reaches (f (s_user_id d)) (jti p)) eqn:Hreach.
  2: { intros rpc. eapply guards_same_session; [done..|].
       rewrite Hsession. apply (Hkept (jti p) d Hsession). by right. }
  specialize (Hsync (jti p) d Hsession Hlive Hrole Hreach).
  set (usr := session_user p (resolved_session db' (today t) d)).
  unfold decided_by. assert (permission_guard (evaluateConditions engine_date engine_regexp db' (today t))
    (hours t) (minutes t) rt r (Some usr) = Ok () ↔
    evaluate engine_date engine_regexp db' (today t) (sub p) "*" perm
      (buildEvaluationContext (hours t) (minutes t) r) = Ok true) as <-.
  { apply (guard_decides db' (today t) rt r usr perm); try done; simpl; by rewrite Hsub. }
  unfold guards. destruct (auth_guard_session jwt_verify (today t) rt r s' token p
    (resolved_session db' (today t) d)) as [[Hadm ->]|[Hadm [e ->]]]; [done..| |];
    change (session_admits (today t) rt (resolved_session db' (today t) d))
      with (session_admits (today t) rt d) in Hadm; rewrite Hadm.
  2: { simpl. split; [done|]. by intros (_ & ? & _). }
  fold usr. clearbody usr. unfold access_key_guard. rewrite Hhttp, Hkey. cbn [negb res_bind fst].
  destruct (csrf_guard rt r) as [[]|e]; cbn [res_bind]; [|simpl; naive_solver].
  destruct (permission_guard _ _ _ _ _ _) as [[]|e]; simpl; naive_solver.
Qed.

(** *** The client decides what the conditions see

    [buildEvaluationContext] puts the trusted keys in first and then copies
    every field of the request's parameters, query and body over them. *)

(** The body of [r] carries the field "context.ip". *)
Definition spoofs_ip (r : http_request) (v : string) : Prop :=
  rq_body r = Some [("context.ip", Some v)].

(** A body field named "context.ip" replaces the address of the connection,
    so a condition restricting the address is met from anywhere. *)
Theorem client_controls_context hours minutes r user v (c : condition)
    (Hbody : spoofs_ip r v)
    (Hop : operator c = "IpAddress") (Hkey : condition_key c = "context.ip")
    (Hvalue : condition_value c = v) (Hplain : find_sub "${user.id}" v = None) :
  evaluateCondition engine_date engine_regexp c user (buildEvaluationContext hours minutes r)
    = Ok true.
Proof.
  assert (buildEvaluationContext hours minutes r !! "context.ip" = Some v) as Hctx.
  { unfold buildEvaluationContext. rewrite Hbody. unfold flatten at 1. simpl.
    apply lookup_insert_eq. }
  unfold evaluateCondition. rewrite Hkey, Hctx, Hop, Hvalue. simpl.
  unfold replace_text. rewrite Hplain. by rewrite String.eqb_refl.
Qed.
End end_to_end.

(** ** Witnesses *)

Lemma sales_approve_name : permission_name "sales:approve".
Proof. by exists "sales", "approve". Qed.

Lemma guard_decision_is_evaluate_witness :
  let u := session_user (TokenPayload "u1" "j1") (resolved_session sample_db "2024-06-01" ann) in
  permission_guard (evaluateConditions no_date no_regexp sample_db "2024-06-01") 9 30 sample_route
    sample_request (Some u) = Ok () ↔
  evaluate no_date no_regexp sample_db "2024-06-01" "u1" "*" "sales:approve"
    (buildEvaluationContext 9 30 sample_request) = Ok true.
Proof.
  apply (guard_decision_is_evaluate no_date no_regexp sample_db "2024-06-01" sample_route
    sample_request (session_user (TokenPayload "u1" "j1") (resolved_session sample_db "2024-06-01" ann))
    "sales:approve" 9 30 sample_uniq eq_refl eq_refl eq_refl eq_refl sales_approve_name).
  - discriminate.
  - reflexivity.
  - reflexivity.
Defined.

(** The push fails for nobody, or for everybody. *)
Definition redis_down : string → push := λ _, listing_failed false (PlainError "connect ECONNREFUSED").

Lemma policy_change_is_immediate_witness :
  ∃ db' log s' s1,
    attachPolicies (V := ISessionData) no_fk sample_db "2024-06-01" "r1" ["p1"] None (λ _, delivered) one_session
      = Ok (db', log, s') ∧
    attachPolicies (V := ISessionData) no_fk sample_db "2024-06-01" "r1" ["p1"] None redis_down one_session
      = Ok (db', log, s1) ∧
    decided_by (V := ISessionData) no_date no_regexp sample_jwt (λ s, s) (λ _, Ok None) db' sample_clock
      sample_route sample_request "sales:approve" (TokenPayload "u1" "j1") ann s'.
Proof.
  destruct (attachPolicies (V := ISessionData) no_fk sample_db "2024-06-01" "r1" ["p1"] None (λ _, delivered) one_session)
    as [[[db' log] s']|e] eqn:E; [|vm_compute in E; discriminate E].
  assert (db' = with_roles_policies sample_db [("r2", "p2"); ("r1", "p1")]) as Hdb
    by (vm_compute in E; injection E as <- _ _; reflexivity).
  destruct (policy_change_is_immediate no_date no_regexp sample_jwt (λ s, s) (λ _, Ok None) no_fk sample_db
    sample_clock "r1" ["p1"] None (λ _, delivered) one_session db' log s' sample_route sample_request "t1"
    (TokenPayload "u1" "j1") ann "sales:approve" one_session_ok E) as [Hany Hnow];
    try reflexivity; try discriminate; try exact sales_approve_name.
  - rewrite Hdb. exact sample_uniq.
  - rewrite Hdb. unfold has_role. split_and!.
    + exists (User "u1" None). split; [split; [apply list_elem_of_here|reflexivity]|reflexivity].
    + exists (Role "r1" "SALES" None). split; [split; [apply list_elem_of_here|reflexivity]|reflexivity].
    + apply list_elem_of_here.
  - destruct (Hany redis_down) as [s1 H1]. exists db', log, s', s1. split_and!; [reflexivity|exact H1|exact Hnow].
Defined.

Lemma client_controls_context_witness :
  evaluateCondition no_date no_regexp
    (Condition "c" "s" "IpAddress" "context.ip" "10.1.2.3" None) "u1"
    (buildEvaluationContext 9 30 (HttpRequest "POST" "/orders" (Some "203.0.113.7") "" ∅ None None None
       (Some [("context.ip", Some "10.1.2.3")]))) = Ok true.
Proof.
  apply (client_controls_context no_date no_regexp 9 30 _ "u1" "10.1.2.3"); vm_compute; reflexivity.
Defined.
