(* ===== verification/RunningNumber.v ===== *)
(** * Document running numbers

    Model of running-number-format.util.ts and of
    [DocumentTypesService.generateNextRunningNumber] /
    [validateRunningNumberFormat]
    (src/apps/report-bc/src/modules/document-type).

    The regular expression built by [parseRunningNumberFormat] has two kinds of
    pieces, escaped literal characters and one group of [n] digits; it is
    modelled by that list of pieces.  Sequence numbers are exact below 2^53 in
    the source; they are [N] here.  The counter row is locked for the whole
    transaction, so issues of one document type are sequential steps. *)

From S2P Require Import Prelude JsString Repo DbErrors.
#[local] Open Scope string_scope.
#[local] Open Scope list_scope.

(** ** Formats *)

(** Year, month (from 0) and day of [now]. *)
Record date := Date { year : N; month : N; day : N }.
Record DateParts := Parts { yyyy : string; yy : string; mm : string; dd : string }.

Definition resolveDateParts (now : date) : DateParts :=
  let y := string_of_N (year now) in
  Parts y (slice_last 2 y) (padStart 2 "0" (string_of_N (month now + 1)))
    (padStart 2 "0" (string_of_N (day now))).

(** A piece of a format: a literal character or a token. *)
Inductive item :=
  | ILit (c : ascii)
  | IYYYY | IYY | IMM | IDD
  | ISeq (digits : string).   (* the digits of [{SEQ:n}] as written *)

(** [/\{SEQ:(\d+)\}/] at the head of [s]: the digits and the length matched. *)
Definition seq_here (s : string) : option (string * nat) :=
  match drop_prefix "{SEQ:" s with
  | None => None
  | Some rest =>
      let '(ds, rest') := span is_digit rest in
      match ds, rest' with
      | String _ _, String "}" _ => Some (ds, (6 + String.length ds)%nat)
      | _, _ => None
      end
  end.

(** [TOKEN_RE] at the head of [s], with the length matched. *)
Definition token_here (s : string) : option (item * nat) :=
  if startsWith s "{YYYY}" then Some (IYYYY, 6%nat)
  else if startsWith s "{YY}" then Some (IYY, 4%nat)
  else if startsWith s "{MM}" then Some (IMM, 4%nat)
  else if startsWith s "{DD}" then Some (IDD, 4%nat)
  else match seq_here s with Some (ds, n) => Some (ISeq ds, n) | None => None end.

(** The successive matches of [TOKEN_RE] with the literal text between them. *)
Fixpoint tokens_from (skip : nat) (s : string) : list item :=
  match s with
  | "" => []
  | String c s' =>
      match skip with
      | S k => tokens_from k s'
      | O => match token_here s with
             | Some (it, n) => it :: tokens_from (n - 1) s'
             | None => ILit c :: tokens_from 0 s'
             end
      end
  end.

(** *** The match regex *)
Inductive rx := RChar (c : ascii) | RDigits (n : nat).
Record ParsedRunningNumberFormat := ParsedFormat { regex : list rx; seqDigits : nat }.

Definition literal (s : string) : list rx := List.map RChar (String.list_ascii_of_string s).

Definition exactly_one : exn :=
  BadRequestException "running_number_format must contain exactly one {SEQ:n} placeholder.".

Definition parse_step (p : DateParts) (acc : list rx * option nat) (it : item)
    : result (list rx * option nat) :=
  let '(r, n) := acc in
  match it with
  | ILit c => Ok (r ++ [RChar c], n)
  | IYYYY => Ok (r ++ literal (yyyy p), n)
  | IYY => Ok (r ++ literal (yy p), n)
  | IMM => Ok (r ++ literal (mm p), n)
  | IDD => Ok (r ++ literal (dd p), n)
  | ISeq ds =>
      match n with
      | Some _ => Throw exactly_one
      | None => let k := N.to_nat (N_of_digits 0 ds) in Ok (r ++ [RDigits k], Some k)
      end
  end.

Definition parseRunningNumberFormat (format : string) (now : date)
    : result ParsedRunningNumberFormat :=
  let! (r, n) := res_fold (parse_step (resolveDateParts now)) ([], None) (tokens_from 0 format) in
  match n with
  | None => Throw exactly_one
  | Some k => Ok (ParsedFormat r k)
  end.

(** Exactly [n] digits at the head of [s]. *)
Fixpoint digits_here (n : nat) (s : string) : option (string * string) :=
  match n, s with
  | O, _ => Some ("", s)
  | S n', String c s' =>
      if is_digit c then
        match digits_here n' s' with Some (ds, rest) => Some (String c ds, rest) | None => None end
      else None
  | S _, "" => None
  end.

(** [regex.exec(s)?.[1]] *)
Fixpoint rx_exec (r : list rx) (group : string) (s : string) : option string :=
  match r with
  | [] => if String.eqb s "" then Some group else None
  | RChar c :: r' =>
      match s with String d s' => if Ascii.eqb c d then rx_exec r' group s' else None | "" => None end
  | RDigits n :: r' =>
      match digits_here n s with Some (ds, rest) => rx_exec r' ds rest | None => None end
  end.

(** *** Formatting: five global replacements, one after the other *)

(** [s.replace(re, r)] with a global [re] matching [m]'s length at a position. *)
Fixpoint replace_matches (m : string → option nat) (r : string) (skip : nat) (s : string) : string :=
  match s with
  | "" => ""
  | String c s' =>
      match skip with
      | S k => replace_matches m r k s'
      | O => match m s with
             | Some n => r +:+ replace_matches m r (n - 1) s'
             | None => String c (replace_matches m r 0 s')
             end
      end
  end.
Definition at_token (t : string) (s : string) : option nat :=
  if startsWith s t then Some (String.length t) else None.
Definition at_seq (s : string) : option nat := snd <$> seq_here s.

(** The longest string of the engine (V8's [String::kMaxLength]): a longer one is
    a [RangeError].  A number has fewer characters than that. *)
Definition MAX_STRING_LENGTH : N := 536870888.
Definition invalid_string_length : exn := PlainError "Invalid string length".
Definition new_string (s : string) : result string :=
  if (MAX_STRING_LENGTH <? N.of_nat (String.length s))%N then Throw invalid_string_length else Ok s.
Definition padNumber (n : nat) (seq : N) : result string :=
  if (MAX_STRING_LENGTH <? N.of_nat n)%N then Throw invalid_string_length
  else Ok (padStart n "0" (string_of_N seq)).

Definition formatDates (format : string) (now : date) : string :=
  let p := resolveDateParts now in
  let s1 := replace_matches (at_token "{YYYY}") (yyyy p) 0 format in
  let s2 := replace_matches (at_token "{YY}") (yy p) 0 s1 in
  let s3 := replace_matches (at_token "{MM}") (mm p) 0 s2 in
  replace_matches (at_token "{DD}") (dd p) 0 s3.
Definition formatRunningNumber (format : string) (now : date) (seq : N) (seqDigits : nat) : result string :=
  let s4 := formatDates format now in
  let! v := padNumber seqDigits seq in
  new_string (replace_matches at_seq v 0 s4).

Example format_ex :
  formatRunningNumber "INV-{YYYY}{MM}-{SEQ:5}" (Date 2026 6 9) 42 5 = Ok "INV-202607-00042".
Proof. by vm_compute. Qed.
Example parse_ex :
  match parseRunningNumberFormat "INV-{YYYY}{MM}-{SEQ:5}" (Date 2026 6 9) with
  | Ok p => rx_exec (regex p) "" "INV-202607-00042" = Some "00042"
  | Throw _ => False
  end.
Proof. by vm_compute. Qed.

(** ** Document types and their counters *)

Record document_type := DocumentType {
  dt_id : string; has_running_number : bool; running_number_format : option string;
}.
Record running_number := RunningNumber {
  last_running_number : N; last_value : option string; last_issued_at : option date;
}.
Record issued := Issued {
  document_type_id : string; running_number_issued : N; value : string; generated_at : date;
}.

(** [validateRunningNumberFormat], called by create and update. *)
Definition validateRunningNumberFormat (hasRunningNumber : option bool) (format : option string)
    (now : date) : result unit :=
  if default false hasRunningNumber then
    match format with
    | None | Some "" =>
        Throw (BadRequestException "running_number_format is required when has_running_number is true.")
    | Some f => let! _ := parseRunningNumberFormat f now in Ok ()
    end
  else Ok ().

Definition next_seq (p : ParsedRunningNumberFormat) (counter : running_number) : N :=
  match last_value counter with
  | Some (String c v) =>
      match rx_exec (regex p) "" (String c v) with
      | Some ds => N_of_digits 0 ds + 1
      | None => 1
      end
  | _ => 1
  end.

(** *** The columns of the counter row *)

(** [last_running_number integer].  A number from [10^21 - 65535] on is rounded to
    a double that prints with an exponent, which is no integer to Postgres. *)
Definition MAX_INT4 : N := 2147483647.
Definition not_an_int4 (n : N) : driver_error :=
  DriverError (Some (if (n <? 10 ^ 21 - 65535)%N then "22003" else "22P02"))
    (Some ("value " +:+ quote +:+ string_of_N n +:+ quote +:+ " is out of range for type integer"))
    None None None None None.
Definition to_int4 (n : N) : result N :=
  if (n <=? MAX_INT4)%N then Ok n else Throw (QueryFailedError (not_an_int4 n)).

(** [last_value character varying(255)]: what goes beyond must be spaces, and is
    cut off. *)
Definition VALUE_LENGTH : nat := 255.
Fixpoint beyond (n : nat) (s : string) : string :=
  match n, s with O, _ => s | S n', String _ s' => beyond n' s' | S _, "" => "" end.
Definition blank (s : string) : bool := str_forall (Ascii.eqb " ") s.
Definition value_too_long : driver_error :=
  DriverError (Some "22001") (Some "value too long for type character varying(255)") None None None None None.
Definition to_varchar (n : nat) (s : string) : result string :=
  if blank (beyond n s) then Ok (String.substring 0 n s) else Throw (QueryFailedError value_too_long).

(** [manager.update], whose parameters are read before the row is written. *)
Definition update_counter (k : string) (nextSeq : N) (v : string) (now : date)
    (counters : gmap string running_number) : result (gmap string running_number) :=
  let! number := to_int4 nextSeq in
  let! stored := to_varchar VALUE_LENGTH v in
  Ok (<[k := RunningNumber number (Some stored) (Some now)]> counters).

(** [generateNextRunningNumber], the document type already loaded by
    [findById]; [counters] is the table of counter rows.  An exception rolls the
    transaction back. *)
Definition generateNextRunningNumber (docType : document_type) (now : date)
    (counters : gmap string running_number) : result (issued * gmap string running_number) :=
  if negb (has_running_number docType)
     || match running_number_format docType with None | Some "" => true | _ => false end
  then Throw (BadRequestException "This document type does not use running numbers.")
  else
    ExecuteDb.executeDbOperation "document_types"
      (let format := default "" (running_number_format docType) in
       let counter := default (RunningNumber 0 None None) (counters !! dt_id docType) in
       let! p := parseRunningNumberFormat format now in
       let nextSeq := next_seq p counter in
       let! v := formatRunningNumber format now nextSeq (seqDigits p) in
       let! counters' := update_counter (dt_id docType) nextSeq v now counters in
       Ok (Issued (dt_id docType) nextSeq v now, counters')).

(** Read-only status. *)
Definition getRunningNumberStatus (docType : document_type)
    (counters : gmap string running_number) : N * option string * option date :=
  match counters !! dt_id docType with
  | Some c => (last_running_number c, last_value c, last_issued_at c)
  | None => (0%N, None, None)
  end.

(** ** Well-formed formats

    The formats whose literal text has no opening brace: every brace then
    starts a token, and the five replacements cannot disturb each other. *)

Definition print_item (it : item) : string :=
  match it with
  | ILit c => String c ""
  | IYYYY => "{YYYY}" | IYY => "{YY}" | IMM => "{MM}" | IDD => "{DD}"
  | ISeq ds => "{SEQ:" +:+ ds +:+ "}"
  end.
Fixpoint print_items (l : list item) : string :=
  match l with [] => "" | it :: l' => print_item it +:+ print_items l' end.

Definition wf_item (it : item) : Prop :=
  match it with
  | ILit c => c ≠ "{"%char
  | ISeq ds => ds ≠ "" ∧ str_forall is_digit ds = true
  | _ => True
  end.

(** What a piece becomes in an issued number, and in the regex. *)
Definition render (p : DateParts) (v : string) (it : item) : string :=
  match it with
  | ILit c => String c ""
  | IYYYY => yyyy p | IYY => yy p | IMM => mm p | IDD => dd p
  | ISeq _ => v
  end.
Fixpoint render_items (p : DateParts) (v : string) (l : list item) : string :=
  match l with [] => "" | it :: l' => render p v it +:+ render_items p v l' end.
Definition pieces (p : DateParts) (it : item) : list rx :=
  match it with
  | ILit c => [RChar c]
  | IYYYY => literal (yyyy p) | IYY => literal (yy p) | IMM => literal (mm p) | IDD => literal (dd p)
  | ISeq ds => [RDigits (N.to_nat (N_of_digits 0 ds))]
  end.

Definition no_brace (s : string) : Prop := str_forall (λ c, negb (Ascii.eqb c "{")) s = true.

Lemma digits_no_brace s : str_forall is_digit s = true → no_brace s.
Proof.
  unfold no_brace. induction s as [|c s IH]; [done|]. cbn [str_forall].
  intros [Hc Hs]%andb_true_iff. rewrite (IH Hs), andb_true_r.
  destruct (Ascii.eqb_spec c "{") as [->|]; [done|done].
Qed.

Lemma no_brace_cons c s : no_brace (String c s) ↔ c ≠ "{"%char ∧ no_brace s.
Proof.
  unfold no_brace. cbn [str_forall]. rewrite andb_true_iff, negb_true_iff, Ascii.eqb_neq. done.
Qed.

(** *** Scanning *)

(** A matcher of texts that start with a brace. *)
Definition brace_matcher {A} (m : string → option A) : Prop :=
  m "" = None ∧ ∀ c s, c ≠ "{"%char → m (String c s) = None.

Lemma startsWith_brace c s t : c ≠ "{"%char → startsWith (String c s) (String "{" t) = false.
Proof.
  intros Hc. unfold startsWith. cbn [drop_prefix].
  destruct (Ascii.eqb_spec "{" c) as [<-|]; done.
Qed.
Lemma at_token_brace t : brace_matcher (at_token (String "{" t)).
Proof. split; [done|]. intros c s Hc. unfold at_token. by rewrite startsWith_brace. Qed.
Lemma seq_here_brace : brace_matcher seq_here.
Proof.
  split; [done|]. intros c s Hc. unfold seq_here. cbn [drop_prefix].
  destruct (Ascii.eqb_spec "{" c) as [<-|]; done.
Qed.
Lemma at_seq_brace : brace_matcher at_seq.
Proof.
  destruct seq_here_brace as [H1 H2]. split; [done|]. intros c s Hc. unfold at_seq. by rewrite H2.
Qed.
Lemma token_here_brace : brace_matcher token_here.
Proof.
  split; [done|]. intros c s Hc. unfold token_here. rewrite !startsWith_brace by done.
  by rewrite (proj2 seq_here_brace).
Qed.

Lemma replace_skip m r w s : replace_matches m r (String.length w) (w +:+ s) = replace_matches m r 0 s.
Proof. induction w as [|c w IH]; [done|]. exact IH. Qed.
Lemma tokens_skip w s : tokens_from (String.length w) (w +:+ s) = tokens_from 0 s.
Proof. induction w as [|c w IH]; [done|]. exact IH. Qed.

Lemma replace_no_brace m r w s :
  brace_matcher m → no_brace w → replace_matches m r 0 (w +:+ s) = w +:+ replace_matches m r 0 s.
Proof.
  intros [_ Hm]. induction w as [|c w IH]; [done|]. intros [Hc Hw]%no_brace_cons.
  rewrite !append_cons. cbn [replace_matches]. rewrite Hm by done. by rewrite IH.
Qed.

Lemma replace_hit m r c w s :
  m (String c w +:+ s) = Some (S (String.length w)) →
  replace_matches m r 0 (String c w +:+ s) = r +:+ replace_matches m r 0 s.
Proof.
  intros Hm. rewrite append_cons in *. cbn [replace_matches]. rewrite Hm.
  replace (S (String.length w) - 1)%nat with (String.length w) by lia. by rewrite replace_skip.
Qed.

Lemma replace_miss m r w s :
  brace_matcher m → no_brace w → m (String "{" w +:+ s) = None →
  replace_matches m r 0 (String "{" w +:+ s) = String "{" w +:+ replace_matches m r 0 s.
Proof.
  intros Hm Hw Hnone. rewrite !append_cons in *. cbn [replace_matches]. rewrite Hnone.
  by rewrite replace_no_brace.
Qed.

Lemma seq_here_print ds s :
  ds ≠ "" → str_forall is_digit ds = true →
  seq_here (("{SEQ:" +:+ ds +:+ "}") +:+ s) = Some (ds, (6 + String.length ds)%nat).
Proof.
  intros Hne Hds. unfold seq_here. rewrite append_assoc, drop_prefix_app, append_assoc.
  change ("}" +:+ s) with (String "}" s). rewrite span_app by done. by destruct ds.
Qed.

Lemma token_here_print it s :
  wf_item it → match it with ILit c => token_here (String c s) = None
  | _ => token_here (print_item it +:+ s) = Some (it, String.length (print_item it)) end.
Proof.
  destruct it as [c| | | | |ds]; intros Hwf; try done.
  - by apply token_here_brace.
  - destruct Hwf as [Hne Hds]. unfold token_here. cbn [print_item].
    rewrite seq_here_print by done.
    assert (String.length ("{SEQ:" +:+ ds +:+ "}") = (6 + String.length ds)%nat) as ->
      by (rewrite !append_length; cbn [String.length]; lia).
    done.
Qed.

Lemma tokens_print l : Forall wf_item l → tokens_from 0 (print_items l) = l.
Proof.
  induction 1 as [|it l Hwf _ IH]; [done|]. cbn [print_items].
  pose proof (token_here_print it (print_items l) Hwf) as Ht.
  assert (∀ w, print_item it = String "{" w → token_here (print_item it +:+ print_items l)
    = Some (it, String.length (print_item it)) →
    tokens_from 0 (print_item it +:+ print_items l) = it :: l) as Htok.
  { intros w -> Hh. rewrite append_cons in *. cbn [tokens_from]. rewrite Hh. cbn [String.length].
    replace (S (String.length w) - 1)%nat with (String.length w) by lia. by rewrite tokens_skip, IH. }
  destruct it as [c| | | | |ds]; [|by eapply Htok..].
  cbn [print_item]. rewrite append_cons, append_nil_l. cbn [tokens_from]. by rewrite Ht, IH.
Qed.

(** *** The replacements, on items *)

Definition lits (r : string) : list item := List.map ILit (String.list_ascii_of_string r).
Definition same_token (a b : item) : bool :=
  match a, b with IYYYY, IYYYY | IYY, IYY | IMM, IMM | IDD, IDD => true | _, _ => false end.
Definition subst (T : item) (r : string) (it : item) : list item :=
  if same_token T it then lits r else [it].
Definition subst_seq (r : string) (it : item) : list item :=
  match it with ISeq _ => lits r | _ => [it] end.

Lemma print_app l l' : print_items (l ++ l') = print_items l +:+ print_items l'.
Proof. induction l as [|it l IH]; [done|]. cbn [app print_items]. by rewrite IH, append_assoc. Qed.
Lemma print_lits r : print_items (lits r) = r.
Proof. induction r as [|c r IH]; [done|]. cbn. unfold lits in IH. by rewrite IH. Qed.

Definition date_token (T : item) : Prop := T = IYYYY ∨ T = IYY ∨ T = IMM ∨ T = IDD.

Lemma replace_token T r l :
  date_token T → Forall wf_item l →
  replace_matches (at_token (print_item T)) r 0 (print_items l)
  = print_items (flat_map (subst T r) l).
Proof.
  intros HT. induction 1 as [|it l Hwf _ IH]; [done|]. cbn [print_items flat_map].
  rewrite print_app, <- IH. clear IH. generalize (print_items l). intros s.
  assert (brace_matcher (at_token (print_item T))) as Hm
    by (destruct HT as [->|[->|[->| ->]]]; apply at_token_brace).
  destruct it as [c| | | | |ds].
  1: { unfold subst. replace (same_token T (ILit c)) with false by by destruct T.
       cbn [print_items print_item]. rewrite append_nil_r. apply replace_no_brace; [done|].
       apply no_brace_cons. done. }
  5: { unfold subst. replace (same_token T (ISeq ds)) with false by by destruct T.
       cbn [print_items print_item]. rewrite append_nil_r. destruct Hwf as [Hne Hds].
       apply (replace_miss _ r ("SEQ:" +:+ ds +:+ "}") s); [done| |].
       - unfold no_brace. rewrite !str_forall_app. rewrite (digits_no_brace ds Hds). done.
       - destruct HT as [->|[->|[->| ->]]]; done. }
  all: destruct HT as [->|[->|[->| ->]]]; unfold subst; cbn [same_token];
    first [ rewrite print_lits; apply replace_hit; reflexivity
          | cbn [print_items]; rewrite append_nil_r; apply replace_miss; [done|reflexivity|reflexivity] ].
Qed.

Lemma replace_seq r l :
  Forall wf_item l → replace_matches at_seq r 0 (print_items l) = print_items (flat_map (subst_seq r) l).
Proof.
  induction 1 as [|it l Hwf _ IH]; [done|]. cbn [print_items flat_map].
  rewrite print_app, <- IH. clear IH. generalize (print_items l). intros s.
  destruct it as [c| | | | |ds]; cbn [subst_seq print_items]; rewrite ?append_nil_r, ?print_lits.
  - apply replace_no_brace; [apply at_seq_brace|]. apply no_brace_cons. done.
  - apply (replace_miss at_seq r "YYYY}" s); [apply at_seq_brace|done|done].
  - apply (replace_miss at_seq r "YY}" s); [apply at_seq_brace|done|done].
  - apply (replace_miss at_seq r "MM}" s); [apply at_seq_brace|done|done].
  - apply (replace_miss at_seq r "DD}" s); [apply at_seq_brace|done|done].
  - destruct Hwf as [Hne Hds]. apply (replace_hit at_seq r "{" ("SEQ:" +:+ ds +:+ "}") s).
    unfold at_seq. change (String "{" ("SEQ:" +:+ ds +:+ "}")) with ("{SEQ:" +:+ ds +:+ "}").
    rewrite seq_here_print by done. cbn. rewrite !append_length. cbn [String.length]. do 2 f_equal. lia.
Qed.

(** *** The date parts are digits *)

Lemma str_forall_substring f a b s : str_forall f s = true → str_forall f (String.substring a b s) = true.
Proof.
  revert a b. induction s as [|c s IH]; intros a b; [by destruct a, b|].
  cbn [str_forall]. intros [Hc Hs]%andb_true_iff. destruct a as [|a]; [destruct b as [|b]|]; cbn [String.substring].
  - done.
  - cbn [str_forall]. by rewrite Hc, IH.
  - by apply IH.
Qed.

Definition digit_parts (p : DateParts) : Prop :=
  str_forall is_digit (yyyy p) = true ∧ str_forall is_digit (yy p) = true ∧
  str_forall is_digit (mm p) = true ∧ str_forall is_digit (dd p) = true.

Lemma resolveDateParts_digits now : digit_parts (resolveDateParts now).
Proof.
  unfold digit_parts, resolveDateParts. cbn [yyyy yy mm dd].
  destruct (string_of_N_spec (year now)) as [Hy _]. split_and!; [done| | |].
  - unfold slice_last. by apply str_forall_substring.
  - by apply (padStart_number 2 (month now + 1)); lia.
  - by apply (padStart_number 2 (day now)); lia.
Qed.

(** *** Formatting is rendering piece by piece *)

Lemma flat_map_lits f s : (∀ c, f (ILit c) = [ILit c]) → flat_map f (lits s) = lits s.
Proof.
  intros Hf. unfold lits. induction (String.list_ascii_of_string s) as [|c l IH]; [done|].
  cbn [List.map flat_map]. by rewrite Hf, IH.
Qed.

Lemma wf_lits s : no_brace s → Forall wf_item (lits s).
Proof.
  unfold lits. induction s as [|c s IH]; [constructor|]. intros [Hc Hs]%no_brace_cons.
  constructor; [done|by apply IH].
Qed.
Lemma wf_subst T r l : no_brace r → Forall wf_item l → Forall wf_item (flat_map (subst T r) l).
Proof.
  intros Hr. induction 1 as [|it l Hwf _ IH]; [constructor|]. cbn [flat_map]. apply Forall_app.
  split; [|done]. unfold subst. destruct (same_token T it); [by apply wf_lits|by constructor].
Qed.

Lemma render_print p v l :
  print_items (flat_map (λ it, lits (render p v it)) l) = render_items p v l.
Proof.
  induction l as [|it l IH]; [done|]. cbn [flat_map render_items]. by rewrite print_app, print_lits, IH.
Qed.

(** The text of a number, when no string on the way is too long. *)
Definition number_text (format : string) (now : date) (seq : N) (k : nat) : string :=
  replace_matches at_seq (padStart k "0" (string_of_N seq)) 0 (formatDates format now).

Lemma format_render l now seq k :
  Forall wf_item l →
  number_text (print_items l) now seq k
  = render_items (resolveDateParts now) (padStart k "0" (string_of_N seq)) l.
Proof.
  intros Hwf. unfold number_text, formatDates.
  destruct (resolveDateParts_digits now) as (H1 & H2 & H3 & H4).
  set (p := resolveDateParts now) in *. set (v := padStart k "0" (string_of_N seq)).
  assert (Forall wf_item (flat_map (subst IYYYY (yyyy p)) l)) as W1
    by by apply wf_subst; [apply digits_no_brace|].
  assert (Forall wf_item (flat_map (subst IYY (yy p)) (flat_map (subst IYYYY (yyyy p)) l))) as W2
    by by apply wf_subst; [apply digits_no_brace|].
  assert (Forall wf_item (flat_map (subst IMM (mm p))
    (flat_map (subst IYY (yy p)) (flat_map (subst IYYYY (yyyy p)) l)))) as W3
    by by apply wf_subst; [apply digits_no_brace|].
  assert (Forall wf_item (flat_map (subst IDD (dd p)) (flat_map (subst IMM (mm p))
    (flat_map (subst IYY (yy p)) (flat_map (subst IYYYY (yyyy p)) l))))) as W4
    by by apply wf_subst; [apply digits_no_brace|].
  change "{YYYY}" with (print_item IYYYY). rewrite replace_token; [|by left|done].
  change "{YY}" with (print_item IYY). rewrite replace_token; [|by right; left|done].
  change "{MM}" with (print_item IMM). rewrite replace_token; [|by right; right; left|done].
  change "{DD}" with (print_item IDD). rewrite replace_token; [|by right; right; right|done].
  rewrite replace_seq by done. rewrite !flat_map_flat_map, <- render_print. f_equal.
  apply flat_map_ext. intros it. destruct it;
    repeat first
      [ progress cbn [same_token flat_map subst_seq render app]
      | rewrite app_nil_r
      | match goal with |- context [subst ?T ?r ?it] =>
          first [ constr_eq T it; change (subst T r it) with (lits r)
                | change (subst T r it) with [it] ]
        end ];
    try done; apply flat_map_lits; intros c; reflexivity.
Qed.

(** *** The match regex of a well-formed format *)

Definition is_seq (it : item) : bool := match it with ISeq _ => true | _ => false end.
Definition seq_tokens (l : list item) : list item := List.filter is_seq l.

Lemma parse_steps p l r n :
  res_fold (parse_step p) (r, n) l
  = match n, seq_tokens l with
    | _, [] => Ok (r ++ flat_map (pieces p) l, n)
    | None, [ISeq ds] => Ok (r ++ flat_map (pieces p) l, Some (N.to_nat (N_of_digits 0 ds)))
    | _, _ => Throw exactly_one
    end.
Proof.
  revert r n. induction l as [|it l IH]; intros r n.
  { cbn. rewrite app_nil_r. by destruct n. }
  destruct it as [c| | | | |ds];
    try (cbn [res_fold parse_step res_bind seq_tokens List.filter is_seq flat_map pieces];
      rewrite IH, <- !app_assoc; fold (seq_tokens l);
      by destruct n, (seq_tokens l) as [|[] [|]]).
  cbn [res_fold parse_step seq_tokens List.filter is_seq flat_map]. fold (seq_tokens l).
  destruct n as [n|]; cbn [res_bind]; [by destruct (seq_tokens l)|].
  rewrite IH, <- app_assoc. by destruct (seq_tokens l).
Qed.

Lemma seq_tokens_shape l :
  (∃ ds, seq_tokens l = [ISeq ds]) ∨
  (length (seq_tokens l) ≠ 1%nat ∧
   ∀ {A} (f : string → A) (b : A), match seq_tokens l with [ISeq ds] => f ds | _ => b end = b).
Proof.
  destruct (seq_tokens l) as [|it [|it2 l']] eqn:E; [by right| |].
  - assert (is_seq it = true) as Hs.
    { apply (proj1 (filter_In is_seq it l)). unfold seq_tokens in E. rewrite E. by left. }
    left. destruct it; try done. by eexists.
  - right. split; [done|]. by destruct it.
Qed.

Lemma parse_exactly_one format now :
  parseRunningNumberFormat format now
  = match seq_tokens (tokens_from 0 format) with
    | [ISeq ds] => Ok (ParsedFormat (flat_map (pieces (resolveDateParts now)) (tokens_from 0 format))
                         (N.to_nat (N_of_digits 0 ds)))
    | _ => Throw exactly_one
    end.
Proof.
  unfold parseRunningNumberFormat. rewrite parse_steps.
  by destruct (seq_tokens _) as [|[] [|]].
Qed.

Lemma digits_here_app ds s :
  str_forall is_digit ds = true → digits_here (String.length ds) (ds +:+ s) = Some (ds, s).
Proof.
  induction ds as [|c ds IH]; [done|]. cbn [str_forall]. intros [Hc Hds]%andb_true_iff.
  rewrite append_cons. cbn [String.length digits_here]. by rewrite Hc, IH.
Qed.
Lemma digits_here_inv n s ds rest :
  digits_here n s = Some (ds, rest) →
  s = ds +:+ rest ∧ String.length ds = n ∧ str_forall is_digit ds = true.
Proof.
  revert s ds rest. induction n as [|n IH]; intros s ds rest; [by intros [= <- <-]|].
  destruct s as [|c s]; [done|]. cbn [digits_here]. destruct (is_digit c) eqn:Hc; [|done].
  destruct (digits_here n s) as [[d r]|] eqn:E; [|done]. intros [= <- <-].
  destruct (IH s d r E) as (-> & <- & Hd). cbn [str_forall String.length]. by rewrite Hc.
Qed.

Lemma rx_exec_literal w r g s :
  rx_exec (literal w ++ r) g s =
  match drop_prefix w s with Some s' => rx_exec r g s' | None => None end.
Proof.
  revert s. induction w as [|c w IH]; intros s; [done|].
  cbn [literal String.list_ascii_of_string List.map app rx_exec drop_prefix].
  destruct s as [|d s]; [done|]. destruct (Ascii.eqb c d); [|done]. apply IH.
Qed.

Lemma drop_prefix_inv w s s' : drop_prefix w s = Some s' → s = w +:+ s'.
Proof.
  revert s. induction w as [|c w IH]; intros s; [by intros [= ->]|].
  destruct s as [|d s]; [done|]. cbn [drop_prefix]. destruct (Ascii.eqb_spec c d) as [->|]; [|done].
  intros H. by rewrite append_cons, (IH s H).
Qed.

(** The text of a piece that is not the sequence. *)
Lemma piece_literal p v it : is_seq it = false → pieces p it = literal (render p v it).
Proof. by destruct it. Qed.
Lemma pieces_literal p v l :
  seq_tokens l = [] → flat_map (pieces p) l = literal (render_items p v l).
Proof.
  induction l as [|it l IH]; [done|]. unfold seq_tokens. cbn [List.filter].
  destruct (is_seq it) eqn:Hi; [done|]. intros Hl. cbn [flat_map render_items].
  rewrite (piece_literal p v it Hi), (IH Hl). unfold literal.
  generalize (render p v it). intros s. induction s as [|c s IHs]; [done|].
  rewrite append_cons. cbn [String.list_ascii_of_string List.map app]. by rewrite IHs.
Qed.

(** The single sequence token of an accepted format splits it. *)
Lemma one_seq_split l ds :
  seq_tokens l = [ISeq ds] →
  ∃ pre post, l = pre ++ ISeq ds :: post ∧ seq_tokens pre = [] ∧ seq_tokens post = [].
Proof.
  induction l as [|it l IH]; [done|]. unfold seq_tokens. cbn [List.filter].
  destruct (is_seq it) eqn:Hi.
  - intros [= -> Hl]. by exists [], l.
  - intros Hl. destruct (IH Hl) as (pre & post & -> & Hpre & Hpost).
    exists (it :: pre), post. split_and!; [done| |done].
    unfold seq_tokens in *. cbn [List.filter]. by rewrite Hi.
Qed.

Lemma render_app p v l l' : render_items p v (l ++ l') = render_items p v l +:+ render_items p v l'.
Proof. induction l as [|it l IH]; [done|]. cbn [app render_items]. by rewrite IH, append_assoc. Qed.
Lemma render_no_seq p v v' l : seq_tokens l = [] → render_items p v l = render_items p v' l.
Proof.
  induction l as [|it l IH]; [done|]. unfold seq_tokens. cbn [List.filter].
  destruct (is_seq it) eqn:Hi; [done|]. intros Hl. cbn [render_items].
  rewrite (IH Hl). by destruct it.
Qed.

Lemma append_same_r s t t' : s +:+ t = s +:+ t' → t = t'.
Proof. induction s as [|c s IH]; [done|]. rewrite !append_cons. intros [= H]. by apply IH. Qed.

(** The regex of a format matches exactly the texts the format renders to,
    and captures the sequence digits. *)
Lemma rx_exec_render p l ds s g :
  seq_tokens l = [ISeq ds] →
  rx_exec (flat_map (pieces p) l) "" s = Some g ↔
  s = render_items p g l ∧ str_forall is_digit g = true ∧ String.length g = N.to_nat (N_of_digits 0 ds).
Proof.
  intros Hl. destruct (one_seq_split l ds Hl) as (pre & post & -> & Hpre & Hpost).
  rewrite flat_map_app, (pieces_literal p g pre Hpre), rx_exec_literal, render_app.
  cbn [flat_map pieces app rx_exec render_items render].
  rewrite (pieces_literal p g post Hpost).
  assert (∀ h r t, rx_exec (literal t) h r = if String.eqb r t then Some h else None) as Hend.
  { intros h r t. pose proof (rx_exec_literal t [] h r) as H. rewrite app_nil_r in H. rewrite H.
    destruct (drop_prefix t r) as [r'|] eqn:E.
    - apply drop_prefix_inv in E as ->. cbn [rx_exec]. destruct (String.eqb_spec r' "") as [->|Hr].
      + rewrite append_nil_r. by rewrite String.eqb_refl.
      + destruct (String.eqb_spec (t +:+ r') t) as [He|]; [|done].
        destruct Hr. apply (append_same_r t). by rewrite append_nil_r.
    - destruct (String.eqb_spec r t) as [->|]; [|done].
      rewrite <- (append_nil_r t) in E at 2. by rewrite drop_prefix_app in E. }
  split.
  - destruct (drop_prefix _ s) as [s1|] eqn:E1; [|done]. apply drop_prefix_inv in E1 as ->.
    destruct (digits_here _ s1) as [[d s2]|] eqn:E2; [|done].
    apply digits_here_inv in E2 as (-> & Hlen & Hd). rewrite Hend.
    destruct (String.eqb_spec s2 (render_items p g post)) as [->|]; [|done]. by intros [= <-].
  - intros (-> & Hd & Hlen). rewrite drop_prefix_app, <- Hlen, digits_here_app by done.
    by rewrite Hend, String.eqb_refl.
Qed.

(** ** What can be stored *)

(** The number fits the counter row, and no string is too long for the engine. *)
Definition writable (k : nat) (n : N) (v : string) : Prop :=
  (N.of_nat k ≤ MAX_STRING_LENGTH)%N ∧ (N.of_nat (String.length v) ≤ MAX_STRING_LENGTH)%N ∧
  (n ≤ MAX_INT4)%N ∧ blank (beyond VALUE_LENGTH v) = true.
#[global] Instance writable_dec k n v : Decision (writable k n v).
Proof. unfold writable. apply _. Defined.
(** The answer when it does not. *)
Definition refusal (k : nat) (n : N) (v : string) : exn :=
  if decide (N.of_nat k ≤ MAX_STRING_LENGTH ∧ N.of_nat (String.length v) ≤ MAX_STRING_LENGTH)%N then
    if decide (n ≤ MAX_INT4)%N then ExecuteDb.string_too_long
    else ExecuteDb.map_query_error "document_types" (not_an_int4 n)
  else invalid_string_length.

Lemma beyond_short n s : (String.length s ≤ n)%nat → beyond n s = "".
Proof. revert n. induction s as [|c s IH]; intros [|n] Hn; cbn in *; [done|done|lia|]. apply IH. lia. Qed.
Lemma writable_short k n v : (k ≤ VALUE_LENGTH)%nat → (String.length v ≤ VALUE_LENGTH)%nat → (n ≤ MAX_INT4)%N →
  writable k n v ∧ String.substring 0 VALUE_LENGTH v = v.
Proof.
  unfold VALUE_LENGTH. intros Hk Hv Hn. split; [|by apply substring_all]. unfold writable, MAX_STRING_LENGTH, VALUE_LENGTH.
  split_and!; [lia|lia|done|]. by rewrite beyond_short.
Qed.

(** A call with a format that has been parsed. *)
Lemma generate_parsed dt f p now counters :
  has_running_number dt = true → running_number_format dt = Some f → f ≠ "" → parseRunningNumberFormat f now = Ok p →
  let n := next_seq p (default (RunningNumber 0 None None) (counters !! dt_id dt)) in
  let v := number_text f now n (seqDigits p) in
  generateNextRunningNumber dt now counters =
  if decide (writable (seqDigits p) n v) then
    Ok (Issued (dt_id dt) n v now,
        <[dt_id dt := RunningNumber n (Some (String.substring 0 VALUE_LENGTH v)) (Some now)]> counters)
  else Throw (refusal (seqDigits p) n v).
Proof.
  intros Hhas Hfmt Hne Hp n v. unfold generateNextRunningNumber. rewrite Hhas, Hfmt. cbn [negb orb].
  destruct f as [|c f]; [done|]. change (default "" (Some (String c f))) with (String c f). rewrite Hp. cbn [res_bind].
  fold n. unfold formatRunningNumber, padNumber, refusal.
  destruct (decide (writable (seqDigits p) n v)) as [(Hk & Hl & Hn & Hb)|Hw].
  - rewrite (proj2 (N.ltb_ge _ _) Hk). cbn [res_bind]. fold (number_text (String c f) now n (seqDigits p)). fold v.
    unfold new_string, update_counter, to_int4, to_varchar.
    rewrite (proj2 (N.ltb_ge _ _) Hl), (proj2 (N.leb_le _ _) Hn). cbn [res_bind]. by rewrite Hb.
  - destruct (N.ltb_spec MAX_STRING_LENGTH (N.of_nat (seqDigits p))) as [Hk|Hk]; cbn [res_bind].
    { by rewrite decide_False by lia. }
    fold (number_text (String c f) now n (seqDigits p)). fold v. unfold new_string.
    destruct (N.ltb_spec MAX_STRING_LENGTH (N.of_nat (String.length v))) as [Hl|Hl]; cbn [res_bind].
    { by rewrite decide_False by lia. }
    rewrite (decide_True _ _ (conj Hk Hl)). unfold update_counter, to_int4, to_varchar.
    destruct (N.leb_spec n MAX_INT4) as [Hn|Hn]; cbn [res_bind].
    + rewrite decide_True by done. destruct (blank _) eqn:Hb; [by destruct Hw|done].
    + by rewrite decide_False by lia.
Qed.

(** ** Issuing numbers *)

(** The numbers one document type is issued at the successive times [nows]. *)
Fixpoint issue_all (docType : document_type) (nows : list date) (counters : gmap string running_number)
    : result (list issued * gmap string running_number) :=
  match nows with
  | [] => Ok ([], counters)
  | now :: rest =>
      let! (i, counters1) := generateNextRunningNumber docType now counters in
      let! (is_, counters2) := issue_all docType rest counters1 in
      Ok (i :: is_, counters2)
  end.

Section issuing.
Context (dt : document_type) (l : list item) (ds : string) (p : DateParts).
Hypothesis (Hhas : has_running_number dt = true).
Hypothesis (Hfmt : running_number_format dt = Some (print_items l)).
Hypothesis (Hwf : Forall wf_item l).
Hypothesis (Hseq : seq_tokens l = [ISeq ds]).
Let k : nat := N.to_nat (N_of_digits 0 ds).
Hypothesis (Hk : (0 < k)%nat).
(** There is room for the text of 10^n. *)
Hypothesis (Hroom : (String.length (render_items p "" l) + k < VALUE_LENGTH)%nat).

Definition padded (n : N) : string := padStart (N.to_nat (N_of_digits 0 ds)) "0" (string_of_N n).
Definition value_of (n : N) : string := render_items p (padded n) l.

(** The sequence after [n]: a value of more than [k] digits no longer matches. *)
Definition after (n : N) : N := if (n <? 10 ^ N.of_nat k)%N then (n + 1)%N else 1%N.

Lemma value_length v :
  (String.length (render_items p v l) = String.length (render_items p "" l) + String.length v)%nat.
Proof.
  clear -Hseq. destruct (one_seq_split l ds Hseq) as (pre & post & -> & Hpre & Hpost).
  rewrite !render_app. cbn [render_items render]. rewrite !append_length.
  rewrite (render_no_seq p v "" pre), (render_no_seq p v "" post) by done. cbn [String.length]. lia.
Qed.

Lemma exec_value n :
  rx_exec (flat_map (pieces p) l) "" (value_of n)
  = if (n <? 10 ^ N.of_nat k)%N then Some (padded n) else None.
Proof.
  destruct (padStart_number k n Hk) as (Hd & Hv & Hfit & Hover). fold (padded n) in *.
  destruct (N.ltb_spec n (10 ^ N.of_nat k)) as [Hlt|Hge].
  - apply (rx_exec_render p l ds _ _ Hseq). split_and!; [done|done|]. by apply Hfit.
  - destruct (rx_exec _ _ _) as [g|] eqn:E; [|done]. exfalso.
    apply (rx_exec_render p l ds _ _ Hseq) in E as (He & _ & Hlen). specialize (Hover Hge).
    apply (f_equal String.length) in He. unfold value_of in He.
    rewrite (value_length (padded n)), (value_length g) in He. unfold padded, k in *. lia.
Qed.

Lemma value_not_empty n : value_of n ≠ "".
Proof.
  destruct (one_seq_split l ds Hseq) as (pre & post & Hl & _ & _). unfold value_of.
  rewrite Hl, render_app. cbn [render_items render]. intros He.
  apply (f_equal String.length) in He. rewrite !append_length in He. cbn in He.
  destruct (padStart_number k n Hk) as (_ & _ & Hfit & Hover). fold (padded n) in *.
  destruct (N.lt_ge_cases n (10 ^ N.of_nat k)) as [H|H]; [specialize (Hfit H)|specialize (Hover H)];
    unfold padded, k in *; lia.
Qed.

Lemma value_room n : (n ≤ 10 ^ N.of_nat k)%N → (String.length (value_of n) ≤ VALUE_LENGTH)%nat.
Proof.
  intros Hn. unfold value_of. rewrite value_length. unfold padded, padStart. rewrite append_length.
  destruct (str_repeat_zero (N.to_nat (N_of_digits 0 ds) - String.length (string_of_N n))) as (_ & _ & ->).
  destruct (string_of_N_spec n) as (_ & _ & Hup & _).
  assert (String.length (string_of_N n) ≤ S k)%nat; [|unfold k in *; lia].
  apply Hup; [lia|]. rewrite Nat2N.inj_succ, N.pow_succ_r'. pose proof (N.pow_nonzero 10 (N.of_nat k)). lia.
Qed.

(** One issue. *)
Lemma generate_step now counters c n :
  resolveDateParts now = p → counters !! dt_id dt = c → (n ≤ 10 ^ N.of_nat k)%N → (n ≤ MAX_INT4)%N →
  next_seq (ParsedFormat (flat_map (pieces p) l) k) (default (RunningNumber 0 None None) c) = n →
  generateNextRunningNumber dt now counters
  = Ok (Issued (dt_id dt) n (value_of n) now,
        <[dt_id dt := RunningNumber n (Some (value_of n)) (Some now)]> counters).
Proof.
  intros Hp Hc Hn Hint Hnext.
  assert (print_items l ≠ "") as Hne.
  { intros He. pose proof (tokens_print l Hwf) as Ht. rewrite He in Ht. by rewrite <- Ht in Hseq. }
  assert (parseRunningNumberFormat (print_items l) now = Ok (ParsedFormat (flat_map (pieces p) l) k)) as Hparse.
  { by rewrite parse_exactly_one, Hp, (tokens_print l Hwf), Hseq. }
  rewrite (generate_parsed dt _ _ now counters Hhas Hfmt Hne Hparse). rewrite Hc, Hnext. cbn [seqDigits].
  rewrite (format_render l now n _ Hwf), Hp. change (render_items p _ l) with (value_of n).
  destruct (writable_short k n (value_of n)) as [Hw ->]; [lia|by apply value_room|done|].
  by rewrite decide_True.
Qed.

Lemma next_seq_after n i :
  next_seq (ParsedFormat (flat_map (pieces p) l) k) (RunningNumber n (Some (value_of n)) i) = after n.
Proof.
  unfold next_seq, after. cbn [last_value regex].
  destruct (value_of n) as [|ch v] eqn:Ev; [by destruct (value_not_empty n)|].
  rewrite <- Ev, exec_value. destruct (n <? 10 ^ N.of_nat k)%N; [|done].
  destruct (padStart_number k n Hk) as (_ & Hv & _). unfold padded, k in *. by rewrite Hv.
Qed.

(** The [i]-th number issued when the sequence restarts. *)
Definition nth_number (i : nat) : N := (N.of_nat i mod 10 ^ N.of_nat k + 1)%N.

Lemma after_nth i : after (nth_number i) = nth_number (S i).
Proof.
  unfold after, nth_number. set (q := (10 ^ N.of_nat k)%N).
  assert (1 < q)%N as Hq.
  { unfold q. pose proof (N.pow_le_mono_r 10 1 (N.of_nat k) ltac:(lia) ltac:(lia)). lia. }
  pose proof (N.mod_lt (N.of_nat i) q ltac:(lia)) as Hr.
  replace (N.of_nat (S i)) with (N.of_nat i + 1)%N by lia.
  rewrite <- N.Div0.add_mod_idemp_l. generalize dependent (N.of_nat i mod q)%N. intros r Hr.
  destruct (N.ltb_spec (r + 1) q) as [Hlt|Hge].
  - by rewrite N.mod_small.
  - replace (r + 1)%N with q by lia. by rewrite N.Div0.mod_same.
Qed.

Lemma nth_number_room i : (nth_number i ≤ 10 ^ N.of_nat k)%N ∧ (nth_number i ≤ N.of_nat i + 1)%N.
Proof.
  unfold nth_number. pose proof (N.pow_nonzero 10 (N.of_nat k)) as Hq.
  pose proof (N.mod_lt (N.of_nat i) (10 ^ N.of_nat k)). pose proof (N.Div0.mod_le (N.of_nat i) (10 ^ N.of_nat k)). lia.
Qed.

Definition issued_at (i : nat) (now : date) : issued :=
  Issued (dt_id dt) (nth_number i) (value_of (nth_number i)) now.

Lemma issue_all_from nows i counters :
  Forall (λ now, resolveDateParts now = p) nows → (N.of_nat (i + length nows) ≤ MAX_INT4)%N →
  next_seq (ParsedFormat (flat_map (pieces p) l) k)
    (default (RunningNumber 0 None None) (counters !! dt_id dt)) = nth_number i →
  ∃ counters', issue_all dt nows counters = Ok (imap (λ j, issued_at (i + j)) nows, counters') ∧
    (∀ now, last nows = Some now →
       getRunningNumberStatus dt counters'
       = (nth_number (i + (length nows - 1)),
          Some (value_of (nth_number (i + (length nows - 1)))), Some now)) ∧
    (∀ id, id ≠ dt_id dt → counters' !! id = counters !! id).
Proof.
  intros Hnows. revert i counters. induction Hnows as [|now nows Hp _ IH]; intros i counters Hmax Hn.
  { exists counters. done. }
  cbn [length] in Hmax. destruct (nth_number_room i) as [Hroom1 Hroom2].
  cbn [issue_all]. rewrite (generate_step now counters _ _ Hp eq_refl Hroom1 ltac:(lia) Hn). cbn [res_bind].
  destruct (IH (S i) (<[dt_id dt := RunningNumber (nth_number i)
    (Some (value_of (nth_number i))) (Some now)]> counters)) as (counters' & Hall & Hlast & Hrest).
  { lia. }
  { rewrite lookup_insert_eq. cbn [default from_option]. unfold id.
    by rewrite next_seq_after, after_nth. }
  rewrite Hall. exists counters'. split_and!.
  - cbn [res_bind imap]. rewrite Nat.add_0_r. do 3 f_equal. apply imap_ext. intros j x _. cbn.
    f_equal. lia.
  - intros now' Hl. destruct nows as [|now2 nows].
    + injection Hl as <-. cbn in Hall. injection Hall as <-. unfold getRunningNumberStatus.
      rewrite lookup_insert_eq. cbn. by rewrite Nat.add_0_r.
    + rewrite (Hlast now') by done. cbn [length].
      by replace (S i + (S (length nows) - 1))%nat with (i + (S (S (length nows)) - 1))%nat by lia.
  - intros id Hid. rewrite Hrest by done. by rewrite lookup_insert_ne.
Qed.
End issuing.

Lemma append_cancel_r s s' t : s +:+ t = s' +:+ t → s = s'.
Proof.
  revert s'. induction s as [|c s IH]; intros [|c' s'] He; [done| | |].
  - apply (f_equal String.length) in He. rewrite !append_length in He. cbn [String.length] in He. lia.
  - apply (f_equal String.length) in He. rewrite !append_length in He. cbn [String.length] in He. lia.
  - rewrite !append_cons in He. injection He as -> He. by rewrite (IH s' He).
Qed.

Lemma value_of_inj p l ds n n' :
  seq_tokens l = [ISeq ds] → (0 < N.to_nat (N_of_digits 0 ds))%nat →
  value_of l ds p n = value_of l ds p n' → n = n'.
Proof.
  intros Hseq Hk. destruct (one_seq_split l ds Hseq) as (pre & post & Hl & Hpre & Hpost).
  unfold value_of. rewrite Hl, !render_app. cbn [render_items render].
  rewrite (render_no_seq p (padded ds n) (padded ds n') pre Hpre).
  rewrite (render_no_seq p (padded ds n) (padded ds n') post Hpost).
  intros He%append_same_r%append_cancel_r.
  destruct (padStart_number _ n Hk) as (_ & Hv & _). destruct (padStart_number _ n' Hk) as (_ & Hv' & _).
  unfold padded in He. rewrite He in Hv. congruence.
Qed.

Lemma nth_number_inj k i j :
  (N.of_nat i < 10 ^ N.of_nat k)%N → (N.of_nat j < 10 ^ N.of_nat k)%N →
  (N.of_nat i mod 10 ^ N.of_nat k + 1 = N.of_nat j mod 10 ^ N.of_nat k + 1)%N → i = j.
Proof. intros Hi Hj. rewrite !N.mod_small by done. intros He. lia. Qed.

(** The counter row has room for the numbers issued at [nows]: the text of the
    format with one digit more than its sequence, and the number. *)
Definition fits_row (l : list item) (ds : string) (p : DateParts) (nows : list date) : Prop :=
  (String.length (render_items p "" l) + N.to_nat (N_of_digits 0 ds) < VALUE_LENGTH)%nat ∧
  (N.of_nat (length nows) ≤ MAX_INT4)%N.

Lemma issue_all_spec dt l ds p nows counters :
  has_running_number dt = true → running_number_format dt = Some (print_items l) →
  Forall wf_item l → seq_tokens l = [ISeq ds] → (0 < N.to_nat (N_of_digits 0 ds))%nat →
  fits_row l ds p nows → Forall (λ now, resolveDateParts now = p) nows → counters !! dt_id dt = None →
  ∃ counters', issue_all dt nows counters = Ok (imap (issued_at dt l ds p) nows, counters') ∧
    (∀ now, last nows = Some now →
       getRunningNumberStatus dt counters'
       = (nth_number ds (length nows - 1),
          Some (value_of l ds p (nth_number ds (length nows - 1))), Some now)) ∧
    (∀ id, id ≠ dt_id dt → counters' !! id = counters !! id).
Proof.
  intros H1 H2 H3 H4 H5 [Hr Hm] H6 H7.
  apply (issue_all_from dt l ds p H1 H2 H3 H4 H5 Hr nows 0 counters H6 Hm).
  rewrite H7. unfold nth_number. cbn. by rewrite N.Div0.mod_0_l.
Qed.

(** C38: for a format whose literal text has no opening brace and that has one
    sequence token, of n > 0 digits: within one period, from a document type
    that was never issued a number, the successive calls of
    [generateNextRunningNumber] all succeed, as long as the text with n + 1
    digits fits the 255 characters of the counter row and at most 2147483647
    calls are made.  The i-th issues ((i - 1) mod 10^n) + 1 in the document
    type's format: 1, 2, 3, ... and 1 again after 10^n.  The counter row records
    the last issue and no other document type's counter is touched. *)
Theorem running_numbers_issued dt l ds p nows counters :
  has_running_number dt = true → running_number_format dt = Some (print_items l) →
  Forall wf_item l → seq_tokens l = [ISeq ds] → (0 < N_of_digits 0 ds)%N →
  fits_row l ds p nows →
  Forall (λ now, resolveDateParts now = p) nows → counters !! dt_id dt = None →
  let k := N.to_nat (N_of_digits 0 ds) in
  let number i := (N.of_nat i mod 10 ^ N.of_nat k + 1)%N in
  ∃ counters',
    issue_all dt nows counters
    = Ok (imap (λ i now, Issued (dt_id dt) (number i)
                           (number_text (print_items l) now (number i) k) now) nows, counters') ∧
    (∀ now, last nows = Some now →
       getRunningNumberStatus dt counters'
       = (number (length nows - 1)%nat,
          Some (number_text (print_items l) now (number (length nows - 1)%nat) k), Some now)) ∧
    (∀ id, id ≠ dt_id dt → counters' !! id = counters !! id).
Proof.
  intros H1 H2 H3 H4 H5 Hf H6 H7 k number.
  destruct (issue_all_spec dt l ds p nows counters H1 H2 H3 H4 ltac:(lia) Hf H6 H7)
    as (counters' & Hall & Hlast & Hrest).
  exists counters'. split_and!; [|intros now Hl|done].
  - rewrite Hall. do 2 f_equal. apply imap_ext. intros i now Hnow.
    rewrite (format_render l now _ _ H3).
    rewrite Forall_lookup in H6. by rewrite (H6 i now Hnow).
  - rewrite (Hlast now Hl), (format_render l now _ _ H3).
    rewrite last_lookup in Hl. rewrite Forall_lookup in H6. by rewrite (H6 _ now Hl).
Qed.

(** A document type numbered by month, and a one-digit format. *)
Definition invoice_items : list item :=
  [ILit "I"; ILit "N"; ILit "V"; ILit "-"; IYYYY; IMM; ILit "-"; ISeq "5"].
Definition invoices : document_type := DocumentType "inv" true (Some "INV-{YYYY}{MM}-{SEQ:5}").
Definition tickets : document_type := DocumentType "t" true (Some "{SEQ:1}").

Ltac fits_check := split; [apply (bool_decide_unpack _); vm_compute; exact I|by vm_compute].
Ltac wf_format := repeat constructor; first [done | by intros [=]].

Lemma running_numbers_issued_witness :
  ∃ counters', issue_all invoices [Date 2026 6 9; Date 2026 6 9] ∅
    = Ok ([Issued "inv" 1 "INV-202607-00001" (Date 2026 6 9);
           Issued "inv" 2 "INV-202607-00002" (Date 2026 6 9)], counters').
Proof.
  destruct (running_numbers_issued invoices invoice_items "5" (resolveDateParts (Date 2026 6 9))
    [Date 2026 6 9; Date 2026 6 9] ∅ eq_refl eq_refl ltac:(wf_format) eq_refl ltac:(by vm_compute)
    ltac:(fits_check) ltac:(repeat constructor) eq_refl) as (c & Hall & _ & _).
  exists c. rewrite Hall. by vm_compute.
Defined.

(** No document number is issued twice within a period, as long as at most
    10^n numbers of an n-digit sequence are issued in it. *)
Theorem running_numbers_unique dt l ds p nows counters is_ counters' :
  has_running_number dt = true → running_number_format dt = Some (print_items l) →
  Forall wf_item l → seq_tokens l = [ISeq ds] → (0 < N_of_digits 0 ds)%N →
  fits_row l ds p nows →
  Forall (λ now, resolveDateParts now = p) nows → counters !! dt_id dt = None →
  (N.of_nat (length nows) <= 10 ^ N_of_digits 0 ds)%N →
  issue_all dt nows counters = Ok (is_, counters') →
  length is_ = length nows ∧ NoDup (value <$> is_).
Proof.
  intros H1 H2 H3 H4 H5 Hf H6 H7 Hmax Hall.
  destruct (issue_all_spec dt l ds p nows counters H1 H2 H3 H4 ltac:(lia) Hf H6 H7)
    as (c & Hall' & _ & _).
  rewrite Hall in Hall'. injection Hall' as -> _. split; [apply length_imap|].
  apply NoDup_alt. intros i j v. rewrite !list_lookup_fmap, !list_lookup_imap.
  destruct (nows !! i) as [ni|] eqn:Ei; [|done]. destruct (nows !! j) as [nj|] eqn:Ej; [|done].
  cbn. intros [= <-] [= Hv]. apply lookup_lt_Some in Ei, Ej.
  apply (value_of_inj p l ds _ _ H4 ltac:(lia)) in Hv. unfold nth_number in Hv.
  rewrite N2Nat.id in Hv. symmetry.
  apply (nth_number_inj (N.to_nat (N_of_digits 0 ds)) j i);
    rewrite ?N2Nat.id; [lia|lia|done].
Qed.

Lemma running_numbers_unique_witness :
  ∃ is_ c, issue_all invoices [Date 2026 6 9; Date 2026 6 9] ∅ = Ok (is_, c) ∧ length is_ = 2%nat ∧
    NoDup (value <$> is_).
Proof.
  destruct (issue_all invoices [Date 2026 6 9; Date 2026 6 9] ∅) as [[is_ c]|e] eqn:E;
    [|vm_compute in E; discriminate E].
  exists is_, c. split; [done|].
  exact (running_numbers_unique invoices invoice_items "5" (resolveDateParts (Date 2026 6 9))
    [Date 2026 6 9; Date 2026 6 9] ∅ is_ c eq_refl eq_refl ltac:(wf_format) eq_refl ltac:(by vm_compute)
    ltac:(fits_check) ltac:(repeat constructor) eq_refl ltac:(by vm_compute) E).
Defined.

(** Past that bound the counter restarts inside the same period: the value
    issued after 10^n others does not match the n-digit regex, so the first
    number is issued again. *)
Theorem running_numbers_wrap dt l ds p nows counters is_ counters' :
  has_running_number dt = true → running_number_format dt = Some (print_items l) →
  Forall wf_item l → seq_tokens l = [ISeq ds] → (0 < N_of_digits 0 ds)%N →
  fits_row l ds p nows →
  Forall (λ now, resolveDateParts now = p) nows → counters !! dt_id dt = None →
  (10 ^ N_of_digits 0 ds < N.of_nat (length nows))%N →
  issue_all dt nows counters = Ok (is_, counters') →
  ∃ v, (value <$> is_) !! 0%nat = Some v ∧
       (value <$> is_) !! N.to_nat (10 ^ N_of_digits 0 ds) = Some v.
Proof.
  intros H1 H2 H3 H4 H5 Hf H6 H7 Hmax Hall.
  destruct (issue_all_spec dt l ds p nows counters H1 H2 H3 H4 ltac:(lia) Hf H6 H7)
    as (c & Hall' & _ & _).
  rewrite Hall in Hall'. injection Hall' as -> _.
  exists (value_of l ds p 1). rewrite !list_lookup_fmap, !list_lookup_imap.
  destruct (lookup_lt_is_Some_2 nows 0) as [n0 ->]; [lia|].
  destruct (lookup_lt_is_Some_2 nows (N.to_nat (10 ^ N_of_digits 0 ds))) as [n1 ->]; [lia|].
  cbn. unfold nth_number. rewrite !N2Nat.id, N.Div0.mod_same.
  change (N.of_nat 0) with 0%N. by rewrite N.Div0.mod_0_l.
Qed.

Lemma running_numbers_wrap_witness :
  ∃ is_ c, issue_all tickets (replicate 11 (Date 2026 6 9)) ∅ = Ok (is_, c) ∧
  ∃ v, (value <$> is_) !! 0%nat = Some v ∧ (value <$> is_) !! 10%nat = Some v.
Proof.
  destruct (issue_all tickets (replicate 11 (Date 2026 6 9)) ∅) as [[is_ c]|e] eqn:E;
    [|vm_compute in E; discriminate E].
  exists is_, c. split; [done|].
  exact (running_numbers_wrap tickets [ISeq "1"] "1" (resolveDateParts (Date 2026 6 9))
    (replicate 11 (Date 2026 6 9)) ∅ is_ c eq_refl eq_refl ltac:(wf_format) eq_refl ltac:(by vm_compute)
    ltac:(fits_check) ltac:(repeat constructor) eq_refl ltac:(by vm_compute) E).
Defined.

(** ** Validation *)

(** A call gets as far as writing the next number of a format that can be
    parsed, and succeeds when the row has room for it. *)
Definition issues (d : document_type) (now : date) (counters : gmap string running_number) : Prop :=
  ∃ f p, running_number_format d = Some f ∧ parseRunningNumberFormat f now = Ok p ∧
    let n := next_seq p (default (RunningNumber 0 None None) (counters !! dt_id d)) in
    let v := number_text f now n (seqDigits p) in
    generateNextRunningNumber d now counters =
    if decide (writable (seqDigits p) n v) then
      Ok (Issued (dt_id d) n v now,
          <[dt_id d := RunningNumber n (Some (String.substring 0 VALUE_LENGTH v)) (Some now)]> counters)
    else Throw (refusal (seqDigits p) n v).

Definition accepted_format (f : string) : Prop := f ≠ "" ∧ length (seq_tokens (tokens_from 0 f)) = 1%nat.

Lemma parse_accepted f now : (∃ p, parseRunningNumberFormat f now = Ok p) ↔ accepted_format f.
Proof.
  unfold accepted_format. rewrite parse_exactly_one.
  destruct (seq_tokens_shape (tokens_from 0 f)) as [(ds & E)|[Hlen Hbad]].
  - rewrite E. split; [|by eauto]. intros _. split; [by intros ->|done].
  - rewrite Hbad. split; [by intros [? ?]|by intros [_ ?]].
Qed.
Lemma parse_refused f now e : parseRunningNumberFormat f now = Throw e → e = exactly_one.
Proof.
  rewrite parse_exactly_one. destruct (seq_tokens_shape (tokens_from 0 f)) as [(ds & ->)|[_ ->]]; [done|by intros [= <-]].
Qed.

(** What is accepted on save is exactly what gets as far as the write of a
    number: a format with exactly one sequence token, on whatever days it is
    checked and used; any other format is refused with 400 in both places. *)
Theorem validated_format_issues tid f now now' counters :
  let dt := DocumentType tid true (Some f) in
  (validateRunningNumberFormat (Some true) (Some f) now = Ok () ↔ accepted_format f) ∧
  (issues dt now' counters ↔ accepted_format f) ∧
  (∀ e, validateRunningNumberFormat (Some true) (Some f) now = Throw e → status_of e = Some 400%Z) ∧
  (¬ accepted_format f → ∃ e, generateNextRunningNumber dt now' counters = Throw e ∧ status_of e = Some 400%Z) ∧
  (∀ h, h ≠ Some true → validateRunningNumberFormat h (Some f) now = Ok ()).
Proof.
  intros dt. split_and!.
  - rewrite <- (parse_accepted f now). unfold validateRunningNumberFormat. cbn [default from_option id].
    destruct f as [|c f]; [by split; [|intros [? ?]]|].
    destruct (parseRunningNumberFormat _ _) as [p|e]; [by split; [eauto|]|by split; [|intros [? ?]]].
  - rewrite <- (parse_accepted f now'). split; [intros (g & p & Hg & Hp & _)|intros [p Hp]].
    { injection Hg as <-. by exists p. }
    exists f, p. split_and!; [done|done|]. apply generate_parsed; try done. by intros ->.
  - unfold validateRunningNumberFormat. cbn [default from_option id]. intros e.
    destruct f as [|c f]; [by intros [= <-]|]. destruct (parseRunningNumberFormat _ _) as [p|e'] eqn:E; [done|].
    apply parse_refused in E as ->. by intros [= <-].
  - intros Hno. rewrite <- (parse_accepted f now') in Hno. unfold generateNextRunningNumber.
    destruct f as [|c f]; [by eexists|]. cbn [has_running_number running_number_format negb orb dt default from_option id].
    destruct (parseRunningNumberFormat _ _) as [p|e'] eqn:E; [by destruct Hno; eauto|].
    apply parse_refused in E as ->. by eexists.
  - intros [[]|] H; done.
Qed.

(** *** An accepted format that never issues *)

Lemma beyond_app n s t : beyond n (s +:+ t) = beyond n s +:+ beyond (n - String.length s) t.
Proof.
  revert s. induction n as [|n IH]; intros [|c s]; try done.
  rewrite append_cons. cbn [beyond String.length Nat.sub]. apply IH.
Qed.
Lemma beyond_length n s : String.length (beyond n s) = (String.length s - n)%nat.
Proof. revert n. induction s as [|c s IH]; intros [|n]; try done. apply IH. Qed.
Lemma beyond_digits n s : str_forall is_digit s = true → str_forall is_digit (beyond n s) = true.
Proof.
  revert n. induction s as [|c s IH]; intros [|n]; try done. cbn [beyond str_forall].
  intros [_ Hs]%andb_true_iff. by apply IH.
Qed.
Lemma digits_not_blank s : str_forall is_digit s = true → s ≠ "" → blank s = false.
Proof. 
  destruct s as [|c s]; [done|]. cbn [str_forall blank]. unfold blank. cbn [str_forall].
  intros [Hc _]%andb_true_iff _. destruct (Ascii.eqb_spec " " c) as [<-|]; [by vm_compute in Hc|done].
Qed.

(** A format whose sequence has more than 255 digits is accepted, and every call
    for a number fails. *)
Theorem long_sequence_never_issues tid l ds now now' counters :
  Forall wf_item l → seq_tokens l = [ISeq ds] → (255 < N_of_digits 0 ds)%N →
  validateRunningNumberFormat (Some true) (Some (print_items l)) now = Ok () ∧
  ∃ e, generateNextRunningNumber (DocumentType tid true (Some (print_items l))) now' counters = Throw e.
Proof.
  intros Hwf Hseq Hk. destruct (validated_format_issues tid (print_items l) now now' counters) as (Hv & Hi & _).
  assert (accepted_format (print_items l)) as Hacc.
  { unfold accepted_format. rewrite (tokens_print l Hwf), Hseq. split; [|done].
    intros He. pose proof (tokens_print l Hwf) as Ht. rewrite He in Ht. by rewrite <- Ht in Hseq. }
  split; [by apply Hv|]. apply Hi in Hacc as (f & p & Hf & Hp & Hg). injection Hf as <-. cbv zeta in Hg.
  rewrite parse_exactly_one, (tokens_print l Hwf), Hseq in Hp. injection Hp as <-. rewrite Hg.
  rewrite decide_False; [by eexists|]. intros (_ & _ & _ & Hb). cbn [seqDigits] in Hb. revert Hb.
  rewrite (format_render l now' _ _ Hwf). match goal with |- context [next_seq ?a ?b] => generalize (next_seq a b) end.
  intros n. set (v := padStart _ _ _).
  destruct (one_seq_split l ds Hseq) as (pre & post & -> & _ & _). rewrite render_app. cbn [render_items render].
  set (k := N.to_nat (N_of_digits 0 ds)) in *. destruct (padStart_number k n) as (Hd & _ & Hfit & Hover); [lia|].
  fold v in Hd, Hfit, Hover. rewrite !beyond_app. unfold blank. rewrite !str_forall_app.
  change (str_forall (Ascii.eqb " ") (beyond ?m v)) with (blank (beyond m v)).
  rewrite (digits_not_blank (beyond _ v));
   [cbn [andb]; by rewrite andb_false_r|by apply beyond_digits|].
  intros He%(f_equal String.length). rewrite beyond_length in He. cbn in He. unfold VALUE_LENGTH in He.
  destruct (N.lt_ge_cases n (10 ^ N.of_nat k)) as [H|H]; [specialize (Hfit H)|specialize (Hover H)]; lia.
Qed.

Lemma long_sequence_never_issues_witness : ∃ e, generateNextRunningNumber (DocumentType "t" true (Some "{SEQ:300}")) (Date 2026 6 9) ∅
  = Throw e.
Proof.
  exact (proj2 (long_sequence_never_issues "t" [ISeq "300"] "300" (Date 2026 6 9) (Date 2026 6 9) ∅ ltac:(wf_format) eq_refl
    ltac:(by vm_compute))).
Defined.
(** The answer is a 400, about the input of a request that has none. *)
Example long_sequence_answer : generateNextRunningNumber (DocumentType "t" true (Some "{SEQ:300}")) (Date 2026 6 9) ∅
  = Throw ExecuteDb.string_too_long.
Proof. by vm_compute. Qed.
(** The number after the largest integer of the column. *)
Example int4_overflow :
  generateNextRunningNumber (DocumentType "t" true (Some "{SEQ:10}")) (Date 2026 6 9)
    {[ "t" := RunningNumber 2147483647 (Some "2147483647") None ]}
  = Throw (HttpException 500 (Some "22003") ("Database error (22003) on table document_types: value " +:+ quote +:+
      "2147483648" +:+ quote +:+ " is out of range for type integer") None).
Proof. by vm_compute. Qed.
