(* ===== verification/QueryBuilder.v ===== *)
(** * From request parameters to TypeORM find options

    Model of [TypeOrmQueryBuilder]
    (src/libs/common/src/utils/base-operations/typeorm-query-builder.util.ts),
    the whole class: pagination, sorting, the three filter languages ([s],
    [filter], [or]), relations, field selection and exclusions.

    A JavaScript object used as an ordered map is a list of pairs; a property
    set on an object that is a FindOperator is invisible and is dropped.
    [JSON.parse], dayjs and the entity metadata are parameters.  The counter of
    JSONB parameters is threaded through the methods that use it. *)

From Stdlib Require Import SpecFloat.
From S2P Require Import Prelude JsString JsValues.
#[local] Open Scope string_scope.

(** ** Values *)

(** The values of a [where] object: plain values, nested objects and the
    FindOperators of TypeORM. *)
Inductive wval :=
  | WVal (v : jsv)
  | WObj (o : list (string * wval))
  | Equal (v : wval)
  | Not (v : wval)
  | MoreThan (v : jsv) | MoreThanOrEqual (v : jsv) | LessThan (v : jsv) | LessThanOrEqual (v : jsv)
  | ILike (pattern : string)
  | In_ (l : list jsv)
  | Between (low high : jsv)
  | IsNull
  | And (l : list wval)
  | Raw (sql : string → string) (params : list (string * string)).
Abbreviation obj := (list (string * wval)).

(** ** Entity metadata, as TypeORM holds it *)

Record column := Column {
  propertyName : string; column_type : string; column_enum : option (list string);
}.
Record entity_metadata := EntityMetadata {
  columns : list column;
  primaryColumns : list column;
  relations : list string;
  findColumnWithPropertyName : string → option column;
  (** The name of the related entity. *)
  findRelationWithPropertyPath : string → option string;
}.

(** ** The query and its translation *)

Record QueryParamsDTO := Query {
  q_page : jsv; q_limit : jsv; q_offset : jsv;
  q_sort : jsv; q_s : jsv; q_filter : jsv; q_or : jsv;
  q_relations : jsv; q_fields : jsv; q_timezone : option string; q_exclude_ids : jsv;
}.
Definition empty_query : QueryParamsDTO :=
  Query JUndefined JUndefined JUndefined JUndefined JUndefined JUndefined JUndefined JUndefined
    JUndefined None JUndefined.

Inductive direction := ASC | DESC.
Inductive skip_rows := Offset (n : number) | Rows (n : Z) | Unbounded.
(** [select]: [true] or a nested selection. *)
Inductive selection := STrue | SObj (o : list (string * selection)).
Inductive where_clause := One (o : obj) | AnyOf (l : list obj).

Record FindManyOptions := FindOptions {
  take : Z;
  skip : skip_rows;
  order : option (list (string * direction));
  where_ : where_clause;
  relations_ : option (list string);
  select : option (list (string * selection));
  relationLoadStrategy : string;
}.

(** *** Steps that use the JSONB parameter counter *)
Definition builder (A : Type) := nat → result (A * nat).
Definition ret {A} (a : A) : builder A := λ n, Ok (a, n).
Definition lift {A} (r : result A) : builder A := λ n, let! a := r in Ok (a, n).
Definition bind {A B} (m : builder A) (k : A → builder B) : builder B :=
  λ n, let! (a, n') := m n in k a n'.
Notation "'let$' x ':=' m 'in' k" := (bind m (λ x, k))
  (at level 10, x pattern, m at level 100, k at level 200) : js_scope.
Fixpoint fold_b {A B} (f : B → A → builder B) (b : B) (l : list A) : builder B :=
  match l with
  | [] => ret b
  | a :: l' => let$ b' := f b a in fold_b f b' l'
  end.
Fixpoint map_b {A B} (f : A → builder B) (l : list A) : builder (list B) :=
  match l with
  | [] => ret []
  | a :: l' => let$ b := f a in let$ bs := map_b f l' in ret (b :: bs)
  end.

Definition invalid (field message : string) : exn := InvalidParameterException [(field, message)].

(** *** Operators *)

Inductive SearchOperator :=
  | S_gt | S_gte | S_lt | S_lte | S_ne | S_ieq | S_cont | S_starts | S_ends | S_in | S_between.
Definition SEARCH_OPERATORS : list (string * SearchOperator) :=
  [(">", S_gt); (">=", S_gte); ("<", S_lt); ("<=", S_lte); ("!=", S_ne); ("ieq", S_ieq);
   ("cont", S_cont); ("starts", S_starts); ("ends", S_ends); ("in", S_in); ("between", S_between)].

Inductive FilterOperator :=
  | F_eq | F_ieq | F_ne | F_gt | F_lt | F_gte | F_lte | F_cont | F_starts | F_ends | F_in | F_notin
  | F_isnull | F_notnull | F_between.
Definition FILTER_OPERATORS : list (string * FilterOperator) :=
  [("$eq", F_eq); ("$ieq", F_ieq); ("$ne", F_ne); ("$gt", F_gt); ("$lt", F_lt); ("$gte", F_gte);
   ("$lte", F_lte); ("$cont", F_cont); ("$starts", F_starts); ("$ends", F_ends); ("$in", F_in);
   ("$notin", F_notin); ("$isnull", F_isnull); ("$notnull", F_notnull); ("$between", F_between)].

Inductive JsonbOperator := J_eq | J_ieq | J_ne | J_cont | J_starts | J_ends | J_in | J_isnull | J_notnull.
Definition JSONB_OPERATOR_BY_FILTER (op : FilterOperator) : option JsonbOperator :=
  match op with
  | F_eq => Some J_eq | F_ieq => Some J_ieq | F_ne => Some J_ne | F_cont => Some J_cont
  | F_starts => Some J_starts | F_ends => Some J_ends | F_in => Some J_in
  | F_isnull => Some J_isnull | F_notnull => Some J_notnull
  | _ => None
  end.
Definition JSONB_OPERATOR_BY_SEARCH (op : SearchOperator) : option JsonbOperator :=
  match op with
  | S_ne => Some J_ne | S_ieq => Some J_ieq | S_cont => Some J_cont | S_starts => Some J_starts
  | S_ends => Some J_ends | S_in => Some J_in | _ => None
  end.

Inductive ComparisonDirection := greater | less | equal.
Definition DATE_COLUMN_TYPES : list string :=
  ["timestamp"; "timestamptz"; "date"; "datetime"; "time"; "time with time zone"].
Definition date_comparison_filter (op : FilterOperator) : bool :=
  match op with F_eq | F_ne | F_gt | F_lt | F_gte | F_lte => true | _ => false end.
Definition date_comparison_search (op : SearchOperator) : bool :=
  match op with S_gt | S_gte | S_lt | S_lte | S_ne => true | _ => false end.
Definition enum_comparison_filter (op : FilterOperator) : bool :=
  match op with F_eq | F_ne | F_in | F_notin => true | _ => false end.
Definition DANGEROUS_PROTO_KEYS : list string := ["__proto__"; "constructor"; "prototype"].

Definition filter_name (op : FilterOperator) : string :=
  match op with
  | F_eq => "$eq" | F_ieq => "$ieq" | F_ne => "$ne" | F_gt => "$gt" | F_lt => "$lt" | F_gte => "$gte"
  | F_lte => "$lte" | F_cont => "$cont" | F_starts => "$starts" | F_ends => "$ends" | F_in => "$in"
  | F_notin => "$notin" | F_isnull => "$isnull" | F_notnull => "$notnull" | F_between => "$between"
  end.

(** ** Pagination *)

Definition DEFAULT_LIMIT : Z := 10.
Definition MIN_LIMIT : Z := 1.
Definition MIN_PAGE : Z := 1.
Definition FALLBACK_MAX_LIMIT : Z := 2000.

(** [Math.floor] of a number: an integer, an infinity, or [None] for NaN. *)
Inductive whole := Whole (z : Z) | Infinite (positive : bool).
Definition floor (x : number) : option whole :=
  match x with
  | S754_zero _ => Some (Whole 0)
  | S754_infinity s => Some (Infinite (negb s))
  | S754_nan => None
  | S754_finite s m e =>
      let z := (if s then Z.neg m else Z.pos m) in
      Some (Whole (if (0 <=? e)%Z then z * 2 ^ e else z / 2 ^ (- e))%Z)
  end.

Definition parsePositiveInteger (value : jsv) (defaultValue minValue : Z) : whole :=
  match floor (js_Number value) with
  | None => Whole defaultValue
  | Some (Whole z) => Whole (Z.max minValue z)
  | Some (Infinite true) => Infinite true
  | Some (Infinite false) => Whole minValue
  end.

(** [process.env.QUERY_MAX_LIMIT] *)
Definition resolveMaxLimit (env : jsv) : Z :=
  let fromEnv := js_Number env in
  match fromEnv, floor fromEnv with
  | S754_finite false _ _, Some (Whole z) => z
  | _, _ => FALLBACK_MAX_LIMIT
  end.

Definition isValidOffset (offset : number) : bool :=
  negb (isNaN offset) && negb (num_lt offset (Number "0")).

(** [take] and [skip]; [(page - 1) * limit] is exact below 2^53. *)
Definition applyPagination (env : jsv) (q : QueryParamsDTO) : Z * skip_rows :=
  let limit := match parsePositiveInteger (q_limit q) DEFAULT_LIMIT MIN_LIMIT with
               | Whole z => Z.min z (resolveMaxLimit env)
               | Infinite _ => resolveMaxLimit env
               end in
  let page := parsePositiveInteger (q_page q) MIN_PAGE MIN_PAGE in
  let offset := js_Number (q_offset q) in
  (limit,
   if isValidOffset offset then Offset offset
   else match page with Whole p => Rows ((p - 1) * limit) | Infinite _ => Unbounded end).

(** ** Where objects *)

(** [value !== undefined] of a property. *)
Definition defined (x : option wval) : option wval :=
  match x with Some (WVal JUndefined) | None => None | Some v => Some v end.

Definition is_operator (v : wval) : bool :=
  match v with WVal _ | WObj _ => false | _ => true end.

(** [isPlainObject]: an object, not an array; FindOperators are objects. *)
Definition isPlainObject (v : wval) : bool :=
  match v with
  | WVal (JObj _) | WObj _ => true
  | WVal _ => false
  | _ => true
  end.
Definition isTypeOrmOperator (v : wval) : bool :=
  match v with
  | WVal _ => false
  | WObj o => existsb (λ k, includes (obj_keys o) k) ["_type"; "_value"; "_getSql"]
  | _ => true
  end.
Definition ensureFindOperator (v : wval) : wval :=
  if isTypeOrmOperator v then v else Equal v.

(** [deepMerge]: [merge_value sv tv] is the merged property, [tv] its value in
    the target. *)
Fixpoint merge_value (sv tv : wval) : wval :=
  match sv, tv with
  | WObj source, WObj target =>
      if isTypeOrmOperator sv || isTypeOrmOperator tv
      then And [ensureFindOperator tv; ensureFindOperator sv]
      else WObj ((fix merge (source target : obj) : obj :=
        match source with
        | [] => target
        | (k, v) :: rest =>
            merge rest (obj_set k (match defined (obj_get k target) with
                                   | None => v
                                   | Some t => merge_value v t
                                   end) target)
        end) source target)
  | _, _ => And [ensureFindOperator tv; ensureFindOperator sv]
  end.
Fixpoint deepMerge (target source : obj) : obj :=
  match source with
  | [] => target
  | (k, v) :: rest =>
      deepMerge (obj_set k (match defined (obj_get k target) with
                            | None => v
                            | Some t => merge_value v t
                            end) target) rest
  end.

Definition combineAndOrConditions (andConditions : obj) (orConditions : list obj) : where_clause :=
  match andConditions, orConditions with
  | [], [] => One []
  | _, [] => One andConditions
  | [], _ => AnyOf orConditions
  | _, _ => AnyOf (List.map (deepMerge andConditions) orConditions)
  end.

Fixpoint setNestedValue (o : obj) (parts : list string) (value : wval) : obj :=
  match parts with
  | [] => o
  | [lastPart] => obj_set lastPart value o
  | part :: rest =>
      match obj_get part o with
      | Some (WObj sub) => obj_set part (WObj (setNestedValue sub rest value)) o
      | Some v => if isPlainObject v then o else obj_set part (WObj (setNestedValue [] rest value)) o
      | None => obj_set part (WObj (setNestedValue [] rest value)) o
      end
  end.

Definition isNullishLiteral (value : string) : bool :=
  let normalized := toLowerCase (trim value) in
  String.eqb normalized "null" || String.eqb normalized "undefined".

Definition parseCommaSeparatedValues (value : string) : list string :=
  List.filter (λ v, negb (String.eqb v "")) (List.map trim (split "," value)).

Fixpoint transform_value (v : wval) : wval :=
  match v with
  | WVal JUndefined | WVal (JStr "") => IsNull
  | WVal (JStr s) => if isNullishLiteral s then IsNull else v
  | WObj o => if isTypeOrmOperator v then v else WObj (List.map (λ kv, (kv.1, transform_value kv.2)) o)
  | _ => v
  end.
Definition transformNullValues (conditions : obj) : obj :=
  List.map (λ kv, (kv.1, transform_value kv.2)) conditions.

Section builder.
(** The entity graph and the entity queried. *)
Context (entities : string → entity_metadata) (root : string).
(** [JSON.parse]; dayjs: validity, [toISOString] of a text with an offset, and
    of a local text in a time zone, as it is and moved to the start or the end
    of its day. *)
Context (JSON_parse : string → option jsv)
        (dayjs_isValid : string → bool) (dayjs_toISOString : string → result string)
        (tz_toISOString tz_startOfDay tz_endOfDay : string → string → result string).
Context (q : QueryParamsDTO).

Definition metadata : entity_metadata := entities root.

(** *** Columns *)

Fixpoint column_at (m : entity_metadata) (parts : list string) : option column :=
  match parts with
  | [] => None
  | [lastPart] => findColumnWithPropertyName m lastPart
  | part :: rest =>
      match findRelationWithPropertyPath m part with
      | None => None
      | Some e => column_at (entities e) rest
      end
  end.
Definition resolveColumnMetadata (fieldPath : string) : option column :=
  if str_includes fieldPath "." then column_at metadata (split "." fieldPath)
  else findColumnWithPropertyName metadata fieldPath.

Definition isDateColumnRecursive (fieldPath : string) : bool :=
  match resolveColumnMetadata fieldPath with
  | None => false
  | Some c => includes DATE_COLUMN_TYPES (column_type c)
  end.
Definition getEnumValuesRecursive (fieldPath : string) : option (list string) :=
  match resolveColumnMetadata fieldPath with
  | None => None
  | Some c => if String.eqb (column_type c) "enum" then column_enum c else None
  end.

Definition isJsonbColumn (name : string) : bool :=
  match findColumnWithPropertyName metadata name with
  | None => false
  | Some c => String.eqb (column_type c) "jsonb" || String.eqb (column_type c) "json"
  end.
Definition isJsonbPath (fieldPath : string) : bool :=
  match split "." fieldPath with
  | firstSegment :: _ => negb (String.eqb firstSegment "") && isJsonbColumn firstSegment
  | [] => false
  end.
Definition extractJsonbColumnAndPath (fieldPath : string) : option (string * list string) :=
  match split "." fieldPath with
  | column :: p :: ps => if isJsonbColumn column then Some (column, p :: ps) else None
  | _ => None
  end.

(** *** Validation *)

Definition getEntityPropertyNames : list string := List.map propertyName (columns metadata).

Fixpoint validate_path (fieldPath : string) (m : entity_metadata) (parts : list string) : result unit :=
  match parts with
  | [] => Ok ()
  | [part] =>
      match findColumnWithPropertyName m part with
      | Some _ => Ok ()
      | None => Throw (invalid fieldPath
          ("Invalid nested column: '" +:+ part +:+ "' in path '" +:+ fieldPath +:+
           "'. Allowed columns are: [" +:+ join ", " (List.map propertyName (columns m)) +:+ "]"))
      end
  | part :: rest =>
      match findRelationWithPropertyPath m part with
      | Some e => validate_path fieldPath (entities e) rest
      | None => Throw (invalid fieldPath
          ("Invalid relation: '" +:+ part +:+ "' in path '" +:+ fieldPath +:+
           "'. Allowed relations are: [" +:+ join ", " (relations m) +:+ "]"))
      end
  end.
Definition validateFieldName (fieldPath : string) : result unit :=
  if isJsonbPath fieldPath then Ok ()
  else if negb (str_includes fieldPath ".") then
    if includes getEntityPropertyNames fieldPath then Ok ()
    else Throw (invalid fieldPath
      ("Invalid filter field: '" +:+ fieldPath +:+ "'. Allowed fields are: ["
       +:+ join ", " getEntityPropertyNames +:+ "]"))
  else validate_path fieldPath metadata (split "." fieldPath).
Definition validateFieldNamesRecursive (fields : list string) : result unit :=
  res_fold (λ _ f, validateFieldName f) () fields.

(** ** Sorting *)

Definition parseSortField (field : string) : option string * direction :=
  match split ":" field with
  | part0 :: rest =>
      let key := trim part0 in
      if String.eqb key "" then (None, ASC)
      else (Some key,
            match rest with
            | part1 :: _ => if String.eqb (toUpperCase (trim part1)) "DESC" then DESC else ASC
            | [] => ASC
            end)
  | [] => (None, ASC)
  end.
Definition parseSortString (sortString : string) : result (list (string * direction)) :=
  let parsed := List.map parseSortField (split "," sortString) in
  let fields := omap fst parsed in
  let order := foldl (λ o p, match p with
                             | (Some key, d) => obj_set key d o
                             | (None, _) => o
                             end) [] parsed in
  let! _ := validateFieldNamesRecursive fields in
  Ok order.
Definition applySorting : result (option (list (string * direction))) :=
  match q_sort q with
  | JStr "" => Ok None
  | JStr s => let! o := parseSortString s in Ok (Some o)
  | _ => Ok None
  end.

(** *** Dates *)

Definition timezone : string := default "Asia/Bangkok" (q_timezone q).

(** [/^\d{4}-\d{2}-\d{2}$/] *)
Definition is_date_only (s : string) : bool :=
  match String.list_ascii_of_string s with
  | [a; b; c; d; m1; e; f; m2; g; h] =>
      forallb is_digit [a; b; c; d; e; f; g; h] && Ascii.eqb m1 "-" && Ascii.eqb m2 "-"
  | _ => false
  end.
(** [value.endsWith('Z') || /[+-]\d{2}:\d{2}$/.test(value)] *)
Definition has_timezone (s : string) : bool :=
  match rev (String.list_ascii_of_string s) with
  | "Z"%char :: _ => true
  | d4 :: d3 :: c :: d2 :: d1 :: sign :: _ =>
      forallb is_digit [d1; d2; d3; d4] && Ascii.eqb c ":" && (Ascii.eqb sign "+" || Ascii.eqb sign "-")
  | _ => false
  end.

Definition expandDateOnlyValue (dateString : string) (d : ComparisonDirection) : result string :=
  match d with
  | less => tz_endOfDay timezone dateString
  | _ => tz_startOfDay timezone dateString
  end.

Definition processDateString (value : string) (d : ComparisonDirection) : result string :=
  if String.eqb (trim value) "" then Ok value
  else if is_date_only value then expandDateOnlyValue value d
  else if dayjs_isValid value then
    if has_timezone value then dayjs_toISOString value else tz_toISOString timezone value
  else Throw (invalid "date"
    ("Invalid date value: '" +:+ value +:+ "'. Expected an ISO date or datetime string.")).
Definition processDateValue (value : jsv) (d : ComparisonDirection) : result jsv :=
  match value with
  | JStr s => let! s' := processDateString s d in Ok (JStr s')
  | v => Ok v
  end.

(** ** JSONB conditions *)

(** The text before the first dot of [s], if the dot is not first. *)
Definition before_dot (s : string) : option string :=
  match find_sub "." s with
  | Some ("", _) | None => None
  | Some (a, _) => Some a
  end.
Definition quote (s : string) : string := String (ascii_of_nat 34) (s +:+ String (ascii_of_nat 34) "").
(** [accessor], a function of the column alias TypeORM passes. *)
Definition accessor (column pathArraySql alias : string) : string :=
  match before_dot alias with
  | Some table => quote table +:+ "." +:+ quote column
  | None => quote column
  end +:+ " #>> " +:+ pathArraySql.

Definition numbered (prefix : string) (l : list string) : list (string * string) :=
  imap (λ i s, (prefix +:+ string_of_nat i, s)) l.
Definition placeholders (params : list (string * string)) : list string :=
  List.map (λ p, ":" +:+ p.1) params.

(** [buildJsonbRawCondition] for the prefix [jsonb_n_]. *)
Definition jsonb_condition (n : nat) (column : string) (jsonPath : list string)
    (operator : JsonbOperator) (value : string) : wval :=
  let paramPrefix := "jsonb_" +:+ string_of_nat n +:+ "_" in
  let pathParams := numbered (paramPrefix +:+ "p") jsonPath in
  let pathArraySql := "ARRAY[" +:+ join ", " (placeholders pathParams) +:+ "]::text[]" in
  let buildRaw suffix valueParams :=
    Raw (λ alias, accessor column pathArraySql alias +:+ suffix) (pathParams ++ valueParams)%list in
  let v := paramPrefix +:+ "v" in
  let is_null := buildRaw " IS NULL" [] in
  let is_not_null := buildRaw " IS NOT NULL" [] in
  match operator with
  | J_eq => if String.eqb value "" then is_null else buildRaw (" = :" +:+ v) [(v, value)]
  | J_ne => if String.eqb value "" then is_not_null else buildRaw (" != :" +:+ v) [(v, value)]
  | J_ieq => buildRaw (" ILIKE :" +:+ v) [(v, value)]
  | J_cont => buildRaw (" ILIKE :" +:+ v) [(v, "%" +:+ value +:+ "%")]
  | J_starts => buildRaw (" ILIKE :" +:+ v) [(v, value +:+ "%")]
  | J_ends => buildRaw (" ILIKE :" +:+ v) [(v, "%" +:+ value)]
  | J_in =>
      match parseCommaSeparatedValues value with
      | [] => Raw (λ _, "1 = 0") []
      | values =>
          let valueParams := numbered (paramPrefix +:+ "i") values in
          buildRaw (" IN (" +:+ join "," (placeholders valueParams) +:+ ")") valueParams
      end
  | J_isnull => if String.eqb (toLowerCase value) "false" then is_not_null else is_null
  | J_notnull => if String.eqb (toLowerCase value) "false" then is_null else is_not_null
  end.
Definition buildJsonbRawCondition (column : string) (jsonPath : list string)
    (operator : JsonbOperator) (value : string) : builder wval :=
  λ n, Ok (jsonb_condition n column jsonPath operator value, S n).

Definition mapFilterOperatorToJsonbOperator (operator : FilterOperator) (column : string)
    : result JsonbOperator :=
  match JSONB_OPERATOR_BY_FILTER operator with
  | Some op => Ok op
  | None => Throw (invalid column
      ("Operator '" +:+ filter_name operator +:+ "' is not supported for JSONB fields in this version. "
       +:+ "Supported: $eq, $ieq, $ne, $cont, $starts, $ends, $in, $isnull, $notnull."))
  end.

Definition assertValidSearchOperator (operator : string) : result SearchOperator :=
  match obj_get operator SEARCH_OPERATORS with
  | Some op => Ok op
  | None => Throw (invalid "s"
      ("Invalid search operator: '" +:+ operator +:+ "'. Allowed operators are: ["
       +:+ join ", " (obj_keys SEARCH_OPERATORS) +:+ "]"))
  end.
Definition mapSearchOperatorToJsonbOperator (name : string) (operator : SearchOperator)
    : result JsonbOperator :=
  match JSONB_OPERATOR_BY_SEARCH operator with
  | Some op => Ok op
  | None => Throw (invalid "s"
      ("Search operator '" +:+ name +:+ "' is not supported for JSONB fields. "
       +:+ "Supported: !=, ieq, cont, starts, ends, in."))
  end.

Definition buildJsonbSearchCondition (column : string) (jsonPath : list string) (condition : jsv)
    : builder wval :=
  match condition with
  | JObj [] => lift (Throw (invalid "s"
      ("JSONB search condition for '" +:+ column
       +:+ "' requires an operator object with at least one operator.")))
  | JObj operatorObj =>
      let$ conditions := map_b (λ '(name, v),
        let$ operator := lift (assertValidSearchOperator name) in
        let$ jsonbOperator := lift (mapSearchOperatorToJsonbOperator name operator) in
        buildJsonbRawCondition column jsonPath jsonbOperator (js_String v)) operatorObj in
      ret match conditions with [c] => c | _ => And conditions end
  | _ => buildJsonbRawCondition column jsonPath J_eq (js_String condition)
  end.

(** ** The search parameter *)

(** [Object.keys(obj)] with the values; [None] for null and undefined. *)
Definition entries_of (v : jsv) : option (list (string * jsv)) :=
  match v with
  | JUndefined | JNull => None
  | JObj l => Some l
  | JArr l => Some (imap (λ i x, (string_of_nat i, x)) l)
  | JStr s => Some (imap (λ i c, (string_of_nat i, JStr (String c ""))) (String.list_ascii_of_string s))
  | JBool _ | JNum _ => Some []
  end.
(** Inside an object only objects are sanitized further. *)
Fixpoint strip_value (v : jsv) : jsv :=
  match v with
  | JObj l => JObj (List.flat_map (λ kv,
      if includes DANGEROUS_PROTO_KEYS kv.1 then [] else [(kv.1, strip_value kv.2)]) l)
  | _ => v
  end.
Definition stripDangerousKeys (l : list (string * jsv)) : list (string * jsv) :=
  List.flat_map (λ kv,
    if includes DANGEROUS_PROTO_KEYS kv.1 then [] else [(kv.1, strip_value kv.2)]) l.

Definition mapSearchOperatorToDirection (operator : SearchOperator) : ComparisonDirection :=
  match operator with
  | S_gt | S_gte => greater
  | S_lt | S_lte => less
  | _ => equal
  end.
Definition processDateRangeValue (value : jsv) : result jsv :=
  match value with
  | JArr [start; end_] =>
      let! a := processDateValue start greater in
      let! b := processDateValue end_ less in
      Ok (JArr [a; b])
  | v => Ok v
  end.
Definition createBetweenOperator (value : jsv) : result wval :=
  match value with
  | JArr [start; end_] => Ok (Between start end_)
  | _ => Throw (invalid "between"
           "Between operator requires an array with exactly 2 values: [start, end]")
  end.
Definition applySearchOperator (operator : SearchOperator) (value : jsv) : result wval :=
  match operator with
  | S_gt => Ok (MoreThan value)
  | S_gte => Ok (MoreThanOrEqual value)
  | S_lt => Ok (LessThan value)
  | S_lte => Ok (LessThanOrEqual value)
  | S_ne => Ok (Not (WVal value))
  | S_cont => Ok (ILike ("%" +:+ js_String value +:+ "%"))
  | S_ieq => Ok (ILike (js_String value))
  | S_starts => Ok (ILike (js_String value +:+ "%"))
  | S_ends => Ok (ILike ("%" +:+ js_String value))
  | S_in => Ok (In_ (match value with JArr l => l | v => [v] end))
  | S_between => createBetweenOperator value
  end.

Definition search_operator_condition (isDateColumn : bool) (name : string) (value : jsv) : result wval :=
  let! operator := assertValidSearchOperator name in
  let! value' :=
    if isDateColumn then
      match operator with
      | S_between => processDateRangeValue value
      | _ => if date_comparison_search operator
             then processDateValue value (mapSearchOperatorToDirection operator) else Ok value
      end
    else Ok value in
  applySearchOperator operator value'.
Definition processOperatorCondition (operatorObj : list (string * jsv)) (isDateColumn : bool)
    : result wval :=
  match operatorObj with
  | [] => Ok (WVal JUndefined)
  | _ =>
      let! conditions := res_map (λ '(name, v), search_operator_condition isDateColumn name v) operatorObj in
      Ok match conditions with [c] => c | _ => And (List.map ensureFindOperator conditions) end
  end.
Definition buildConditionValue (condition : jsv) (isDateColumn : bool) : result wval :=
  match condition with
  | JObj operatorObj => processOperatorCondition operatorObj isDateColumn
  | _ => if isDateColumn then let! v := processDateValue condition equal in Ok (WVal v)
         else Ok (WVal condition)
  end.

Definition search_step (where0 : obj) (kc : string * jsv) : builder obj :=
  let '(key, condition) := kc in
  if isJsonbPath key then
    match extractJsonbColumnAndPath key with
    | Some (column, jsonPath) =>
        let$ c := buildJsonbSearchCondition column jsonPath condition in
        ret (deepMerge where0 [(column, c)])
    | None => ret where0
    end
  else
    let$ c := lift (buildConditionValue condition (isDateColumnRecursive key)) in
    ret (if str_includes key "." then setNestedValue where0 (split "." key) c else obj_set key c where0).
Definition buildSearchWhereClause (conditions : list (string * jsv)) : builder obj :=
  let$ _ := lift (validateFieldNamesRecursive (obj_keys conditions)) in
  fold_b search_step [] conditions.

Definition invalid_search : exn :=
  invalid "s" "Invalid search parameter format. Must be a valid JSON string.".
Definition is_invalid_parameter (e : exn) : bool :=
  match e with InvalidParameterException _ => true | _ => false end.
(** [JSON.parse] of a string, a parsed object as it is; then the [try]. *)
Definition parseSearchConditions (searchParam : jsv) : result (list (string * jsv)) :=
  match (match searchParam with JStr s => JSON_parse s | v => Some v end) ≫= entries_of with
  | Some l => Ok (stripDangerousKeys l)
  | None => Throw invalid_search
  end.
Definition parseSearchParameter : builder obj :=
  match q_s q with
  | JUndefined | JNull | JBool _ | JNum _ => ret []
  | searchParam => λ n,
      match bind (lift (parseSearchConditions searchParam)) buildSearchWhereClause n with
      | Throw e => Throw (if is_invalid_parameter e then e else invalid_search)
      | r => r
      end
  end.

(** ** The filter parameters *)

Record parsed_filter := Filter { f_field : string; f_operator : FilterOperator; f_value : string }.

(** [normalizeFilterInput] and [normalizeOrInput]. *)
Definition normalizeInput (param : jsv) : list string :=
  match param with
  | JStr s => if String.eqb (trim s) "" then [] else [s]
  | JArr l => omap (λ v, match v with
                         | JStr s => if String.eqb (trim s) "" then None else Some s
                         | _ => None
                         end) l
  | _ => []
  end.

Definition parseFilterString (filter : string) : result (option parsed_filter) :=
  match split "||" filter with
  | field :: operator :: v :: vs =>
      let trimmedField := trim field in
      let trimmedOperator := trim operator in
      if String.eqb trimmedField "" || String.eqb trimmedOperator "" then Ok None
      else
        match obj_get trimmedOperator FILTER_OPERATORS with
        | None => Throw (invalid trimmedField
            ("Invalid filter operator: '" +:+ trimmedOperator +:+ "'. Allowed operators are: ["
             +:+ join ", " (obj_keys FILTER_OPERATORS) +:+ "]"))
        | Some op => Ok (Some (Filter trimmedField op (join "||" (v :: vs))))
        end
  | _ => Ok None
  end.
Definition parseFilterStrings (filters : list string) : result (list parsed_filter) :=
  let! l := res_map parseFilterString filters in Ok (omap id l).

Definition validateEnumValueForFilter (field : string) (operator : FilterOperator) (value : string)
    : result unit :=
  if negb (enum_comparison_filter operator) then Ok ()
  else
    match getEnumValuesRecursive field with
    | None => Ok ()
    | Some allowedValues =>
        let candidates := match operator with
                          | F_in | F_notin => parseCommaSeparatedValues value
                          | _ => [value]
                          end in
        res_fold (λ _ candidate,
          if String.eqb candidate "" || isNullishLiteral candidate then Ok ()
          else if includes allowedValues candidate then Ok ()
          else Throw (invalid field
            ("Invalid value '" +:+ candidate +:+ "' for enum field '" +:+ field
             +:+ "'. Allowed values are: [" +:+ join ", " allowedValues +:+ "]"))) () candidates
    end.

Definition mapFilterOperatorToDirection (operator : FilterOperator) : ComparisonDirection :=
  match operator with
  | F_gt | F_gte => greater
  | F_lt | F_lte => less
  | _ => equal
  end.
Definition processDateRangeString (value : string) : result string :=
  match List.map trim (split "," value) with
  | [start; end_] =>
      let! a := processDateString start greater in
      let! b := processDateString end_ less in
      Ok (a +:+ "," +:+ b)
  | _ => Ok value
  end.
Definition processDateValueForFilter (value : string) (operator : FilterOperator) : result string :=
  match operator with
  | F_between => processDateRangeString value
  | _ => if date_comparison_filter operator
         then processDateString value (mapFilterOperatorToDirection operator) else Ok value
  end.

Definition createBetweenFromString (value : string) : result wval :=
  match parseCommaSeparatedValues value with
  | [start; end_] => Ok (Between (JStr start) (JStr end_))
  | _ => Throw (invalid "$between"
           "Between operator requires exactly 2 comma-separated values: start,end")
  end.
Definition applyFilterOperator (operator : FilterOperator) (value : string) : result wval :=
  match operator with
  | F_eq => Ok (if isNullishLiteral value then IsNull else WVal (JStr value))
  | F_ieq => Ok (ILike value)
  | F_ne => Ok (if isNullishLiteral value then Not IsNull else Not (WVal (JStr value)))
  | F_gt => Ok (MoreThan (JStr value))
  | F_lt => Ok (LessThan (JStr value))
  | F_gte => Ok (MoreThanOrEqual (JStr value))
  | F_lte => Ok (LessThanOrEqual (JStr value))
  | F_cont => Ok (ILike ("%" +:+ value +:+ "%"))
  | F_starts => Ok (ILike (value +:+ "%"))
  | F_ends => Ok (ILike ("%" +:+ value))
  | F_in => Ok (In_ (List.map JStr (parseCommaSeparatedValues value)))
  | F_notin => Ok (Not (In_ (List.map JStr (parseCommaSeparatedValues value))))
  | F_isnull => Ok (if String.eqb (toLowerCase value) "false" then Not IsNull else IsNull)
  | F_notnull => Ok (if String.eqb (toLowerCase value) "false" then IsNull else Not IsNull)
  | F_between => createBetweenFromString value
  end.

(** The single condition of one filter: the loop body the [filter] and the
    [or] clauses share. *)
Definition filter_condition (f : parsed_filter) : builder obj :=
  let '(Filter field operator value) := f in
  if isJsonbPath field then
    match extractJsonbColumnAndPath field with
    | Some (column, jsonPath) =>
        let$ op := lift (mapFilterOperatorToJsonbOperator operator column) in
        let$ c := buildJsonbRawCondition column jsonPath op value in
        ret [(column, c)]
    | None => ret []
    end
  else
    let$ _ := lift (validateEnumValueForFilter field operator value) in
    let$ processedValue := lift (if isDateColumnRecursive field
                                 then processDateValueForFilter value operator else Ok value) in
    let$ operatorValue := lift (applyFilterOperator operator processedValue) in
    ret (if str_includes field "." then setNestedValue [] (split "." field) operatorValue
         else [(field, operatorValue)]).

Definition buildFilterWhereClause (filters : list parsed_filter) : builder obj :=
  fold_b (λ where0 f, let$ c := filter_condition f in ret (deepMerge where0 c)) [] filters.
Definition buildOrWhereClause (filters : list parsed_filter) : builder (list obj) :=
  map_b (λ f, let$ c := filter_condition f in ret (transformNullValues c)) filters.

Definition parseFilterParameter : builder obj :=
  match normalizeInput (q_filter q) with
  | [] => ret []
  | filters =>
      let$ parsed := lift (parseFilterStrings filters) in
      let$ _ := lift (validateFieldNamesRecursive (List.map f_field parsed)) in
      buildFilterWhereClause parsed
  end.
Definition parseOrParameter : builder (list obj) :=
  match normalizeInput (q_or q) with
  | [] => ret []
  | filters =>
      let$ parsed := lift (parseFilterStrings filters) in
      let$ _ := lift (validateFieldNamesRecursive (List.map f_field parsed)) in
      buildOrWhereClause parsed
  end.

Definition applyFilters : builder where_clause :=
  let$ searchConditions := parseSearchParameter in
  let$ filterConditions := parseFilterParameter in
  let$ orConditions := parseOrParameter in
  ret (combineAndOrConditions
         (transformNullValues (deepMerge searchConditions filterConditions)) orConditions).

(** ** Relations *)

(** [/^[a-zA-Z0-9_]+(\.[a-zA-Z0-9_]+)*$/] *)
Definition valid_relation_pattern (s : string) : bool :=
  forallb (λ part, negb (String.eqb part "") && str_forall is_word part) (split "." s).

Definition validateAndParseRelations (relationsString : string) (allowedRelations : list string)
    : result (list string) :=
  let requested := parseCommaSeparatedValues relationsString in
  match allowedRelations, requested with
  | [], _ :: _ => Throw (BadRequestException "No relations are allowed for this endpoint.")
  | _, _ =>
      let! _ := res_fold (λ _ relation,
        if negb (valid_relation_pattern relation) then
          Throw (BadRequestException ("Invalid characters in requested relation: '" +:+ relation +:+ "'"))
        else if negb (includes allowedRelations relation) then
          Throw (BadRequestException ("Relation not allowed: '" +:+ relation +:+ "'"))
        else Ok ()) () requested in
      Ok requested
  end.
Definition applyRelations (allowedRelations : list string) : result (option (list string)) :=
  match q_relations q with
  | JStr "" => Ok None
  | JStr s => let! r := validateAndParseRelations s allowedRelations in Ok (Some r)
  | _ => Ok None
  end.

(** ** Field selection *)

Definition isValidColumn (m : entity_metadata) (columnName : string) : bool :=
  match findColumnWithPropertyName m columnName with Some _ => true | None => false end.

(** Columns are never put over what a relation already selects. *)
Definition add_columns (cols : list column) (target : list (string * selection))
    : list (string * selection) :=
  foldl (λ t c, match obj_get (propertyName c) t with
                | Some _ => t
                | None => obj_set (propertyName c) STrue t
                end) target cols.

Fixpoint buildNestedSelect (path : string) (m : entity_metadata)
    (level : list (string * selection)) (parts : list string) : result (list (string * selection)) :=
  match parts with
  | [] => Ok level
  | [part] =>
      if isValidColumn m part then Ok (obj_set part STrue level)
      else Throw (invalid "fields" ("Invalid nested column: '" +:+ part +:+ "' in path '" +:+ path +:+ "'"))
  | part :: rest =>
      match findRelationWithPropertyPath m part with
      | None => Throw (invalid "fields"
          ("Invalid relation: '" +:+ part +:+ "' in path '" +:+ path +:+ "'"))
      | Some e =>
          match obj_get part level with
          | Some STrue => buildNestedSelect path m level rest
          | sub =>
              let m' := entities e in
              let isPassThrough := (2 <=? length rest)%nat in
              let columnsToSelect := if isPassThrough then columns m' else primaryColumns m' in
              let target := match sub with Some (SObj o) => o | _ => [] end in
              let! target' := buildNestedSelect path m' (add_columns columnsToSelect target) rest in
              Ok (obj_set part (SObj target') level)
          end
      end
  end.

Definition add_primary (requestedFields : list string) : list string :=
  foldl (λ r pk, if includes r pk then r else r ++ [pk])%list requestedFields
    (List.map propertyName (primaryColumns metadata)).
Definition parseAndValidateFields (fieldsString : string) : result (list (string * selection)) :=
  res_fold (λ select fieldPath,
    if negb (str_includes fieldPath ".") then
      if isValidColumn metadata fieldPath then Ok (obj_set fieldPath STrue select)
      else Throw (invalid "fields" ("Invalid column: '" +:+ fieldPath +:+ "'"))
    else buildNestedSelect fieldPath metadata select (split "." fieldPath))
    [] (add_primary (parseCommaSeparatedValues fieldsString)).
Definition applyFieldSelection : result (option (list (string * selection))) :=
  match q_fields q with
  | JStr "" => Ok None
  | JStr s => let! sel := parseAndValidateFields s in Ok (Some sel)
  | _ => Ok None
  end.

(** ** Exclusions *)

Definition excludeIds : list string :=
  match q_exclude_ids q with
  | JStr s => parseCommaSeparatedValues s
  | JArr l => omap (λ v, match v with JStr "" => None | JStr s => Some s | _ => None end) l
  | _ => []
  end.
Definition applyExclusions (where0 : where_clause) : where_clause :=
  match excludeIds, primaryColumns metadata with
  | [], _ | _, [] => where0
  | ids, pkc :: _ =>
      let exclusionCondition := [(propertyName pkc, Not (In_ (List.map JStr ids)))] in
      match where0 with
      | AnyOf l => AnyOf (List.map (λ cond, deepMerge cond exclusionCondition) l)
      | One o => One (deepMerge o exclusionCondition)
      end
  end.

(** ** [build] *)

Definition build (env : jsv) (allowedRelations : list string) : result FindManyOptions :=
  let '(take, skip) := applyPagination env q in
  let! order := applySorting in
  let! (where0, _) := applyFilters 0%nat in
  let where1 := applyExclusions where0 in
  let! rels := applyRelations allowedRelations in
  let! select := applyFieldSelection in
  Ok (FindOptions take skip order where1 rels select "query").
End builder.
