(* ===== verification/QueryMeaning.v ===== *)
(** * What the built where clause means

    The semantics TypeORM documents for a [where] clause, over an arbitrary
    meaning of the comparison operators on a row, and the theorem that the
    clause [TypeOrmQueryBuilder] builds is the conjunction of the search and
    filter conditions, of one of the [or] conditions and of the exclusion. *)

From S2P Require Import Prelude JsString JsValues QueryBuilder.
#[local] Open Scope string_scope.
#[local] Open Scope list_scope.

(** ** Merging *)

Definition merged (tv : option wval) (sv : wval) : wval :=
  match defined tv with None => sv | Some t => merge_value sv t end.

Lemma deepMerge_cons target k v rest :
  deepMerge target ((k, v) :: rest) = deepMerge (obj_set k (merged (obj_get k target) v) target) rest.
Proof. done. Qed.

Lemma merge_objects source target :
  isTypeOrmOperator (WObj source) = false → isTypeOrmOperator (WObj target) = false →
  merge_value (WObj source) (WObj target) = WObj (deepMerge target source).
Proof.
  intros Hs Ht. cbn [merge_value]. rewrite Hs, Ht. cbn [orb]. f_equal. clear Hs Ht.
  revert target. induction source as [|[k v] rest IH]; intros target; [done|].
  rewrite deepMerge_cons, <- IH. done.
Qed.

Lemma deepMerge_get k source target :
  NoDup (obj_keys source) →
  obj_get k (deepMerge target source)
  = match obj_get k source with
    | None => obj_get k target
    | Some v => Some (merged (obj_get k target) v)
    end.
Proof.
  revert target. induction source as [|[k0 v0] rest IH]; intros target Hnd; [done|].
  inversion Hnd as [|? ? Hk0 Hrest]; subst. rewrite deepMerge_cons, IH, obj_get_set by done.
  cbn [obj_get]. destruct (String.eqb_spec k k0) as [->|]; [|done].
  by rewrite (proj2 (obj_get_None k0 rest) Hk0).
Qed.
Lemma NoDup_deepMerge source target : NoDup (obj_keys target) → NoDup (obj_keys (deepMerge target source)).
Proof.
  revert target. induction source as [|[k v] rest IH]; intros target Hnd; [done|].
  rewrite deepMerge_cons. by apply IH, NoDup_obj_set.
Qed.
Lemma deepMerge_keys source target k :
  k ∈ obj_keys (deepMerge target source) ↔ k ∈ obj_keys target ∨ k ∈ obj_keys source.
Proof.
  revert target. induction source as [|[k0 v] rest IH]; intros target.
  { split; [by left|]. by intros [|?%elem_of_nil]. }
  rewrite deepMerge_cons, IH, obj_keys_set. unfold obj_keys. cbn. rewrite elem_of_cons. tauto.
Qed.

(** ** Meaning

    [holds r path op]: the row [r] meets the operator or plain value [op] on
    the column at [path].  TypeORM documents that the properties of a [where]
    object and the arguments of [And] are all required, that nested objects
    constrain the related rows, and that [Equal(v)] is the plain value [v]. *)
Section meaning.
Context {Row : Type} (holds : Row → list string → wval → Prop).

Fixpoint sat (r : Row) (p : list string) (v : wval) : Prop :=
  match v with
  | WObj o => (fix all (o : obj) : Prop :=
      match o with [] => True | (k, x) :: o' => sat r (p ++ [k]) x ∧ all o' end) o
  | And l => (fix all (l : list wval) : Prop :=
      match l with [] => True | x :: l' => sat r p x ∧ all l' end) l
  | Equal (WVal x) => match x with JNull | JUndefined => holds r p v | _ => holds r p (WVal x) end
  | _ => holds r p v
  end.
Definition sat_where (r : Row) (w : where_clause) : Prop :=
  match w with One o => sat r [] (WObj o) | AnyOf l => ∃ o, o ∈ l ∧ sat r [] (WObj o) end.
(** After [transformNullValues]. *)
Definition sat_t (r : Row) (p : list string) (v : wval) : Prop := sat r p (transform_value v).

Lemma sat_And r p l : sat r p (And l) ↔ ∀ v, v ∈ l → sat r p v.
Proof.
  cbn [sat]. induction l as [|v l IH]; [split; [intros _ ? ?%elem_of_nil|]; done|].
  rewrite IH. setoid_rewrite elem_of_cons. naive_solver.
Qed.
Lemma sat_WObj r p o :
  NoDup (obj_keys o) → sat r p (WObj o) ↔ ∀ k v, obj_get k o = Some v → sat r (p ++ [k]) v.
Proof.
  cbn [sat]. induction o as [|[k0 v0] o IH]; [done|]. intros Hnd.
  inversion Hnd as [|? ? Hk0 Ho]; subst. rewrite (IH Ho). cbn [obj_get]. split.
  - intros [H0 H] k v. destruct (String.eqb_spec k k0) as [->|]; [by intros [= <-]|apply H].
  - intros H. split; [by apply (H k0); rewrite String.eqb_refl|]. intros k v Hk. apply H.
    destruct (String.eqb_spec k k0) as [->|]; [|done].
    by rewrite (proj2 (obj_get_None k0 o) Hk0) in Hk.
Qed.

Definition reserved : list string := ["_type"; "_value"; "_getSql"].
Definition plain_keys (o : obj) : Prop := ∀ k, k ∈ reserved → k ∉ obj_keys o.

Lemma plain_not_operator o : plain_keys o → isTypeOrmOperator (WObj o) = false.
Proof. intros Ho. cbn [isTypeOrmOperator]. apply existsb_false. intros k Hk. by apply includes_false, Ho. Qed.

Lemma transform_keys o : obj_keys (transformNullValues o) = obj_keys o.
Proof. unfold obj_keys, transformNullValues. induction o as [|[k v] o IH]; [done|]. cbn in *. by rewrite IH. Qed.
Lemma transform_get k o : obj_get k (transformNullValues o) = transform_value <$> obj_get k o.
Proof. induction o as [|[k0 v0] o IH]; [done|]. cbn. by destruct (String.eqb k k0). Qed.
Lemma transform_WObj o : plain_keys o → transform_value (WObj o) = WObj (transformNullValues o).
Proof. intros Ho. cbn [transform_value]. by rewrite plain_not_operator. Qed.

(** A leaf [transformNullValues] leaves alone and that is not [null]. *)
Definition settled (v : wval) : Prop := transform_value v = v ∧ v ≠ WVal JNull.
Definition is_leaf (v : wval) : Prop := match v with WObj _ => False | _ => True end.

Lemma settled_ensure r p v :
  is_leaf v → settled v → sat r p (ensureFindOperator v) ↔ sat_t r p v.
Proof.
  intros Hl [Ht Hn]. unfold sat_t. rewrite Ht. unfold ensureFindOperator.
  destruct v as [x|o| | | | | | | | | | | |]; try done. cbn [isTypeOrmOperator].
  destruct x; done.
Qed.

(** [leafp]: the paths at which leaves are found, whatever the object. *)
Context (leafp : list string → Prop).

(** Objects whose leaves sit at leaf paths and satisfy [P]. *)
Inductive shaped (P : list string → wval → Prop) : list string → wval → Prop :=
  | shaped_leaf p v : is_leaf v → leafp p → P p v → shaped P p v
  | shaped_obj p o : ¬ leafp p → NoDup (obj_keys o) → plain_keys o →
      (∀ k v, obj_get k o = Some v → shaped P (p ++ [k]) v) → shaped P p (WObj o).

Lemma shaped_weaken (P Q : list string → wval → Prop) p v :
  (∀ p v, P p v → Q p v) → shaped P p v → shaped Q p v.
Proof. intros HPQ. induction 1; [by constructor; [..|apply HPQ]|by constructor]. Qed.

Lemma shaped_obj_inv P p o :
  shaped P p (WObj o) → ¬ leafp p ∧ NoDup (obj_keys o) ∧ plain_keys o ∧
  ∀ k v, obj_get k o = Some v → shaped P (p ++ [k]) v.
Proof. by inversion 1. Qed.

Lemma sat_t_WObj r p o :
  NoDup (obj_keys o) → plain_keys o →
  sat_t r p (WObj o) ↔ ∀ k v, obj_get k o = Some v → sat_t r (p ++ [k]) v.
Proof.
  intros Hnd Ho. unfold sat_t. rewrite transform_WObj, sat_WObj by (by rewrite ?transform_keys).
  split.
  - intros H k v Hk. apply H. by rewrite transform_get, Hk.
  - intros H k v. rewrite transform_get. destruct (obj_get k o) as [v0|] eqn:Hk; [|done].
    intros [= <-]. by apply H.
Qed.

(** Merging two shaped objects is their conjunction, provided the leaves they
    share are settled. *)
Definition merged_leaf (Pt Ps : list string → wval → Prop) (p : list string) (v : wval) : Prop :=
  Pt p v ∨ Ps p v ∨ ∃ a b, Pt p a ∧ Ps p b ∧ v = And [ensureFindOperator a; ensureFindOperator b].

Lemma plain_keys_merge target source :
  plain_keys target → plain_keys source → plain_keys (deepMerge target source).
Proof. intros Ht Hs k Hk [?|?]%deepMerge_keys; [by destruct (Ht k Hk)|by destruct (Hs k Hk)]. Qed.

Lemma shaped_not_undefined P p v :
  (∀ p v, P p v → v ≠ WVal JUndefined) → shaped P p v → defined (Some v) = Some v.
Proof.
  intros Hdef Hv. destruct v as [[]|o| | | | | | | | | | | |]; try done.
  inversion Hv as [? ? _ _ HP|]; subst. by destruct (Hdef _ _ HP).
Qed.

(** What [merge_shaped] shows of one property carries over to the objects. *)
Lemma merge_pointwise Pt Ps p to so :
  ¬ leafp p → NoDup (obj_keys to) → NoDup (obj_keys so) → plain_keys to → plain_keys so →
  (∀ k v, obj_get k (deepMerge to so) = Some v →
    shaped (merged_leaf Pt Ps) (p ++ [k]) v ∧
    ∀ r, sat_t r (p ++ [k]) v ↔
      (∀ v', obj_get k to = Some v' → sat_t r (p ++ [k]) v') ∧
      (∀ v', obj_get k so = Some v' → sat_t r (p ++ [k]) v')) →
  shaped (merged_leaf Pt Ps) p (WObj (deepMerge to so)) ∧
  ∀ r, sat_t r p (WObj (deepMerge to so)) ↔ sat_t r p (WObj to) ∧ sat_t r p (WObj so).
Proof.
  intros Hp Hndt Hnd Hplaint Hplain Hmerge. split.
  - constructor; [done|by apply NoDup_deepMerge|by apply plain_keys_merge|].
    intros k v Hk. by apply Hmerge.
  - intros r. rewrite !sat_t_WObj by (first [by apply NoDup_deepMerge|by apply plain_keys_merge|done]).
    split.
    + intros H. split; intros k v Hk;
        (destruct (obj_get k (deepMerge to so)) as [v'|] eqn:E;
          [destruct (proj1 (proj2 (Hmerge k v' E) r) (H k v' E)); eauto|]);
        rewrite deepMerge_get in E by done; destruct (obj_get k so); congruence.
    + intros [H1 H2] k v Hk. apply (proj2 (Hmerge k v Hk) r). split; intros v' Hv'; eauto.
Qed.

Lemma merge_shaped Pt Ps p sv tv :
  shaped Ps p sv → shaped Pt p tv →
  (∀ p a b, Pt p a → Ps p b → settled a ∧ settled b) →
  shaped (merged_leaf Pt Ps) p (merge_value sv tv) ∧
  ∀ r, sat_t r p (merge_value sv tv) ↔ sat_t r p tv ∧ sat_t r p sv.
Proof.
  intros Hs Ht Hset. revert tv Ht.
  induction Hs as [p sv Hleaf Hp HP|p so Hp Hnd Hplain Hsub IH]; intros tv Ht.
  - inversion Ht as [? ? Htl _ HPt|? ? Hnp]; subst; [|done].
    destruct (Hset p tv sv HPt HP) as [Hst Hss].
    assert (merge_value sv tv = And [ensureFindOperator tv; ensureFindOperator sv]) as ->
      by (destruct sv, tv; done).
    split; [constructor; [done|done|right; right; eauto]|]. intros r.
    unfold sat_t at 1. cbn [transform_value]. rewrite sat_And.
    rewrite <- (settled_ensure r p tv Htl Hst), <- (settled_ensure r p sv Hleaf Hss).
    setoid_rewrite elem_of_cons. setoid_rewrite list_elem_of_singleton. naive_solver.
  - inversion Ht as [? ? _ Hleafp _|? to Hnp Hndt Hplaint Hsubt]; subst; [done|].
    rewrite merge_objects by (by apply plain_not_operator). apply merge_pointwise; [done..|].
    intros k v. rewrite deepMerge_get by done.
    destruct (obj_get k so) as [vs|] eqn:Es, (obj_get k to) as [vt|] eqn:Et; try done;
      intros [= <-]; [unfold merged|unfold merged; cbn [defined]|].
    + assert (defined (Some vt) = Some vt ∨ vt = WVal JUndefined) as [Hd|Hu]
        by (destruct vt as [[]|o| | | | | | | | | | | |];
            first [left; reflexivity|right; reflexivity]).
      * rewrite Hd. destruct (IH k vs Es vt (Hsubt k vt Et)) as [H1 H2]. split; [done|].
        intros r. rewrite H2. naive_solver.
      * exfalso. subst vt. specialize (Hsubt k _ Et). specialize (Hsub k vs Es).
        inversion Hsubt as [? ? _ Hl HPt|]; subst.
        inversion Hsub as [? ? _ _ HPs|? ? Hnl]; subst; [|done].
        by destruct (Hset _ _ _ HPt HPs) as [[Hbad _] _].
    + split; [|intros r; naive_solver].
      apply (shaped_weaken Ps); [|by apply Hsub]. intros ? ? ?. right. by left.
    + split; [|intros r; naive_solver].
      apply (shaped_weaken Pt); [|by apply Hsubt]. intros ? ? ?. by left.
Qed.

(** ** Constraints

    A single condition constrains the column at one path; the ignored
    conditions constrain nothing. *)
Definition constraint : Type := option (list string * wval).
Definition nest (path : list string) (v : wval) : obj := setNestedValue [] path v.
Definition as_obj (c : constraint) : obj := match c with None => [] | Some (p, v) => nest p v end.
Definition meets (r : Row) (c : constraint) : Prop :=
  match c with None => True | Some (p, v) => sat_t r p v end.

Definition strict_prefix (p q : list string) : Prop := ∃ x s, q = p ++ x :: s.
Definition good_path (p : list string) : Prop :=
  leafp p ∧ (∀ q, strict_prefix q p → ¬ leafp q) ∧ ∀ k, k ∈ p → k ∉ reserved.
Definition good (c : constraint) : Prop :=
  match c with None => True | Some (p, v) => p ≠ [] ∧ good_path p ∧ is_leaf v end.

Lemma nest_cons k k' rest v : nest (k :: k' :: rest) v = [(k, WObj (nest (k' :: rest) v))].
Proof. done. Qed.

Lemma nest_shaped P p path v :
  path ≠ [] → good_path (p ++ path) → is_leaf v → P (p ++ path) v →
  shaped P p (WObj (nest path v)) ∧ ∀ r, sat_t r p (WObj (nest path v)) ↔ sat_t r (p ++ path) v.
Proof.
  intros Hne (Hl & Hpre & Hres) Hleaf HP.
  revert p Hl Hpre Hres HP. induction path as [|k path IH]; [done|]. intros p Hl Hpre Hres HP.
  assert (∀ x, plain_keys [(k, x)]) as Hplain.
  { intros x k0 Hk0 ->%list_elem_of_singleton. apply (Hres k); [|done].
    rewrite elem_of_app, elem_of_cons. auto. }
  assert (∀ x : wval, NoDup (obj_keys [(k, x)])) as Hnd by by intros x; apply NoDup_singleton.
  assert (∃ x, nest (k :: path) v = [(k, x)] ∧ shaped P (p ++ [k]) x ∧
    ∀ r, sat_t r (p ++ [k]) x ↔ sat_t r (p ++ k :: path) v) as (x & -> & Hx & Hsat).
  { destruct path as [|k' rest].
    - exists v. split_and!; [done|by constructor|done].
    - rewrite nest_cons. exists (WObj (nest (k' :: rest) v)). split; [done|].
      replace (p ++ k :: k' :: rest) with ((p ++ [k]) ++ k' :: rest) in * by by rewrite <- app_assoc.
      by apply IH. }
  split.
  - constructor; [by apply Hpre; exists k, path|done|done|]. intros k0 x0. cbn [obj_get].
    destruct (String.eqb_spec k0 k) as [->|]; [|done]. by intros [= <-].
  - intros r. rewrite sat_t_WObj, <- Hsat by done. cbn [obj_get]. split.
    + intros H. apply (H k). by rewrite String.eqb_refl.
    + intros H k0 x0. destruct (String.eqb_spec k0 k) as [->|]; [|done]. by intros [= <-].
Qed.

(** The leaves an object merged from [cs] can have. *)
Definition leaves (cs : list constraint) (p : list string) (v : wval) : Prop :=
  Some (p, v) ∈ cs ∨ (settled v ∧ ∃ v0, Some (p, v0) ∈ cs).

(** Conditions on the same column carry settled values. *)
Definition separated (cs : list constraint) : Prop :=
  ∀ l1 l2 p a b, cs = l1 ++ l2 → Some (p, a) ∈ l1 → Some (p, b) ∈ l2 → settled a ∧ settled b.

Definition merges_to (o : obj) (cs : list constraint) : Prop :=
  shaped (leaves cs) [] (WObj o) ∧ ∀ r, sat_t r [] (WObj o) ↔ ∀ c, c ∈ cs → meets r c.

Lemma leaves_separated l1 l2 p a b :
  separated (l1 ++ l2) → leaves l1 p a → leaves l2 p b → settled a ∧ settled b.
Proof.
  intros Hsep Ha Hb. specialize (λ a b, Hsep l1 l2 p a b eq_refl).
  destruct Ha as [Ha|[Ha [a0 Ha0]]], Hb as [Hb|[Hb [b0 Hb0]]];
    [exact (Hsep _ _ Ha Hb)|destruct (Hsep _ _ Ha Hb0)|destruct (Hsep _ _ Ha0 Hb)|]; done.
Qed.
Lemma separated_app_l l1 l2 : separated (l1 ++ l2) → separated l1.
Proof.
  intros Hsep k1 k2 p a b -> Ha Hb. apply (Hsep k1 (k2 ++ l2) p a b); [by rewrite app_assoc|done|].
  apply elem_of_app. by left.
Qed.
Lemma separated_app_r l1 l2 : separated (l1 ++ l2) → separated l2.
Proof.
  intros Hsep k1 k2 p a b -> Ha Hb. apply (Hsep (l1 ++ k1) k2 p a b); [by rewrite app_assoc| |done].
  apply elem_of_app. by right.
Qed.

Lemma merges_app o1 o2 l1 l2 :
  merges_to o1 l1 → merges_to o2 l2 → separated (l1 ++ l2) → merges_to (deepMerge o1 o2) (l1 ++ l2).
Proof.
  intros [H1 S1] [H2 S2] Hsep.
  destruct (shaped_obj_inv _ _ _ H1) as (_ & _ & Hp1 & _).
  destruct (shaped_obj_inv _ _ _ H2) as (_ & _ & Hp2 & _).
  destruct (merge_shaped (leaves l1) (leaves l2) [] (WObj o2) (WObj o1) H2 H1) as [H S].
  { intros p a b. by apply leaves_separated. }
  rewrite merge_objects in H, S by by apply plain_not_operator. split.
  - apply (shaped_weaken (merged_leaf (leaves l1) (leaves l2))); [|done]. clear -Hsep. unfold leaves.
    intros p v [[Hv|(Hv & v0 & H0)]|[[Hv|(Hv & v0 & H0)]|(a & b & Ha & Hb & ->)]];
      setoid_rewrite elem_of_app; [by auto|by eauto|by auto|by eauto|].
    right. split; [done|]. destruct Ha as [?|(_ & ? & ?)]; eauto.
  - intros r. rewrite S, S1, S2. setoid_rewrite elem_of_app. naive_solver.
Qed.

Lemma merges_one c : ¬ leafp [] → good c → merges_to (as_obj c) [c].
Proof.
  intros Hroot. destruct c as [[p v]|]; cbn [good as_obj].
  - intros (Hne & Hp & Hv).
    destruct (nest_shaped (leaves [Some (p, v)]) [] p v Hne Hp Hv) as [H S]; [left; by left|].
    split; [done|]. intros r. rewrite S. setoid_rewrite list_elem_of_singleton.
    split; [by intros ? ? ->|intros Hall; exact (Hall _ eq_refl)].
  - intros _. split.
    + constructor; [done|constructor|by intros ? ? ?%elem_of_nil|done].
    + intros r. setoid_rewrite list_elem_of_singleton. split; [by intros _ ? ->|done].
Qed.

Definition merge_all (cs : list constraint) : obj := foldl (λ w c, deepMerge w (as_obj c)) [] cs.
Lemma merge_all_snoc cs c : merge_all (cs ++ [c]) = deepMerge (merge_all cs) (as_obj c).
Proof. unfold merge_all. by rewrite foldl_app. Qed.

Lemma merges_all cs :
  ¬ leafp [] → Forall good cs → separated cs → merges_to (merge_all cs) cs.
Proof.
  intros Hroot. induction cs as [|c cs IH] using rev_ind; intros Hgood Hsep.
  - split; [constructor; [done|constructor|by intros ? ? ?%elem_of_nil|done]|].
    intros r. split; [by intros _ ? ?%elem_of_nil|done].
  - rewrite merge_all_snoc. apply Forall_app in Hgood as [Hcs Hc].
    apply merges_app; [|apply merges_one; [done|by apply (Forall_singleton good c)]|done].
    apply IH; [done|by apply separated_app_l in Hsep].
Qed.

(** *** After [transformNullValues] every leaf is settled *)

Lemma transform_leaf v : is_leaf v → v ≠ WVal JNull → settled (transform_value v) ∧ is_leaf (transform_value v).
Proof.
  intros Hl Hn. destruct v as [[| | | |s| |]|o| | | | | | | | | | | |]; try done.
  cbn [transform_value]. destruct s as [|c s]; [done|]. destruct (isNullishLiteral (String c s)) eqn:E; [done|].
  split; [split; [|done]|done]. cbn [transform_value]. by rewrite E.
Qed.

Definition settled_at (P : list string → wval → Prop) (p : list string) (v : wval) : Prop :=
  settled v ∧ ∃ v0, P p v0.

Lemma transform_shaped P p v :
  (∀ p v, P p v → v ≠ WVal JNull) → shaped P p v → shaped (settled_at P) p (transform_value v).
Proof.
  intros Hnull. induction 1 as [p v Hleaf Hp HP|p o Hp Hnd Hplain Hsub IH].
  - destruct (transform_leaf v Hleaf (Hnull _ _ HP)) as [Hs Hl]. constructor; [done|done|].
    split; [done|eauto].
  - rewrite transform_WObj by done. constructor; [done|by rewrite transform_keys| |].
    + intros k Hk. rewrite transform_keys. by apply Hplain.
    + intros k v. rewrite transform_get. destruct (obj_get k o) as [v0|] eqn:E; [|done].
      intros [= <-]. by apply IH.
Qed.
Lemma settled_shaped P p v :
  (∀ p v, P p v → settled v) → shaped P p v → transform_value v = v.
Proof.
  intros HP. induction 1 as [p v _ _ Hv|p o _ Hnd Hplain Hsub IH]; [by apply (HP p v)|].
  rewrite transform_WObj by done. f_equal. clear Hplain Hsub.
  assert (∀ k v, (k, v) ∈ o → transform_value v = v) as Ho by by eauto using obj_get_elem.
  clear IH Hnd. induction o as [|[k v] o IHo]; [done|].
  change (transformNullValues ((k, v) :: o)) with ((k, transform_value v) :: transformNullValues o).
  rewrite (Ho k v) by by left. rewrite IHo; [done|]. intros k' v' Hin. apply (Ho k'). by right.
Qed.
Lemma settled_sat P r p v :
  (∀ p v, P p v → settled v) → shaped P p v → sat_t r p v ↔ sat r p v.
Proof. intros HP Hv. unfold sat_t. by rewrite (settled_shaped P p v HP Hv). Qed.

(** The and-conditions (merged, then transformed) against one or-condition. *)
Lemma merge_transformed o1 o2 l1 l2 r :
  merges_to o1 l1 → merges_to o2 l2 →
  (∀ p v, leaves l1 p v → v ≠ WVal JNull) → (∀ p v, leaves l2 p v → v ≠ WVal JNull) →
  shaped (λ _, settled) [] (WObj (deepMerge (transformNullValues o1) (transformNullValues o2))) ∧
  (sat r [] (WObj (deepMerge (transformNullValues o1) (transformNullValues o2))) ↔
   (∀ c, c ∈ l1 → meets r c) ∧ (∀ c, c ∈ l2 → meets r c)).
Proof.
  intros [H1 S1] [H2 S2] N1 N2.
  destruct (shaped_obj_inv _ _ _ H1) as (_ & Hnd1 & Hp1 & _).
  destruct (shaped_obj_inv _ _ _ H2) as (_ & Hnd2 & Hp2 & _).
  pose proof (transform_shaped _ _ _ N1 H1) as T1. pose proof (transform_shaped _ _ _ N2 H2) as T2.
  rewrite transform_WObj in T1, T2 by done.
  destruct (merge_shaped _ _ [] _ _ T2 T1) as [H S]; [by intros ? ? ? [] []|].
  rewrite merge_objects in H, S
    by (apply plain_not_operator; intros k Hk; rewrite transform_keys; auto).
  assert (shaped (λ _, settled) [] (WObj (deepMerge (transformNullValues o1) (transformNullValues o2)))) as Hs.
  { apply (shaped_weaken (merged_leaf (settled_at (leaves l1)) (settled_at (leaves l2)))); [|done].
    intros p v [[? _]|[[? _]|(? & ? & _ & _ & ->)]]; done. }
  split; [done|]. rewrite <- (settled_sat (λ _, settled) r [] _ (λ _ _ H, H) Hs), S.
  rewrite (settled_sat _ r [] _ (λ p v (H : settled_at _ p v), proj1 H) T1).
  rewrite (settled_sat _ r [] _ (λ p v (H : settled_at _ p v), proj1 H) T2).
  rewrite <- (transform_WObj o1), <- (transform_WObj o2) by done.
  fold (sat_t r [] (WObj o1)) (sat_t r [] (WObj o2)). by rewrite S1, S2.
Qed.

(** [setNestedValue] at a path nothing was put at is a merge. *)
Lemma set_nested_merge P pre o path v :
  shaped P pre (WObj o) → path ≠ [] → leafp (pre ++ path) →
  (∀ q, strict_prefix q (pre ++ path) → ¬ leafp q) → (∀ w, ¬ P (pre ++ path) w) →
  (∀ k, k ∈ path → k ∉ reserved) →
  setNestedValue o path v = deepMerge o (nest path v).
Proof.
  revert pre o. induction path as [|k path IH]; [done|].
  intros pre o Ho _ Hleaf Hpre Hfresh Hres.
  destruct (shaped_obj_inv _ _ _ Ho) as (_ & _ & _ & Hsub).
  destruct path as [|k' rest].
  - change (nest [k] v) with [(k, v)]. rewrite deepMerge_cons. cbn [setNestedValue deepMerge].
    destruct (obj_get k o) as [w|] eqn:E; [exfalso|done].
    specialize (Hsub k w E). inversion Hsub as [? ? _ _ HP|? ? Hnl]; subst; [by destruct (Hfresh w)|done].
  - rewrite nest_cons, deepMerge_cons. cbn [setNestedValue deepMerge].
    destruct (obj_get k o) as [w|] eqn:E; [|done].
    specialize (Hsub k w E). assert (¬ leafp (pre ++ [k])) as Hn.
    { apply Hpre. exists k', rest. by rewrite <- app_assoc. }
    inversion Hsub as [? ? _ Hl _|? sub _ _ Hplain _]; subst; [done|]. unfold merged. cbn [defined].
    rewrite merge_objects; [|apply plain_not_operator|by apply plain_not_operator].
    + rewrite <- (IH (pre ++ [k]) sub); rewrite <- ?app_assoc; try done.
      intros k0 Hk0. apply Hres. by right.
    + intros k0 Hk0 Hin. apply (Hres k'); [by right; left|]. destruct rest; cbn in Hin;
        by apply list_elem_of_singleton in Hin as ->.
Qed.
End meaning.

(** ** The code, condition by condition *)

Section constraints.
Context (entities : string → entity_metadata) (root : string).
Context (JSON_parse : string → option jsv)
        (dayjs_isValid : string → bool) (dayjs_toISOString : string → result string)
        (tz_toISOString tz_startOfDay tz_endOfDay : string → string → result string).
Context (q : QueryParamsDTO).
Abbreviation isJsonbPath := (isJsonbPath entities root).
Abbreviation extractJsonb := (extractJsonbColumnAndPath entities root).
Abbreviation isDate := (isDateColumnRecursive entities root).

(** The column a field name constrains. *)
Definition field_path (field : string) : list string :=
  if isJsonbPath field then List.firstn 1 (split "." field) else split "." field.

(** What one filter and one search condition constrain. *)
Definition filter_constraint (f : parsed_filter) : builder constraint :=
  let '(Filter field operator value) := f in
  if isJsonbPath field then
    match extractJsonb field with
    | Some (column, jsonPath) =>
        let$ op := lift (mapFilterOperatorToJsonbOperator operator column) in
        let$ c := buildJsonbRawCondition column jsonPath op value in
        ret (Some (field_path field, c))
    | None => ret None
    end
  else
    let$ _ := lift (validateEnumValueForFilter entities root field operator value) in
    let$ value' := lift (if isDate field then
      processDateValueForFilter dayjs_isValid dayjs_toISOString tz_toISOString tz_startOfDay tz_endOfDay
        q value operator else Ok value) in
    let$ v := lift (applyFilterOperator operator value') in
    ret (Some (field_path field, v)).

Definition search_constraint (kc : string * jsv) : builder constraint :=
  let '(key, condition) := kc in
  if isJsonbPath key then
    match extractJsonb key with
    | Some (column, jsonPath) =>
        let$ c := buildJsonbSearchCondition column jsonPath condition in
        ret (Some (field_path key, c))
    | None => ret None
    end
  else
    let$ c := lift (buildConditionValue dayjs_isValid dayjs_toISOString tz_toISOString tz_startOfDay
                      tz_endOfDay q condition (isDate key)) in
    ret (Some (field_path key, c)).

Definition fmap_b {A B} (f : A → B) (m : builder A) : builder B := let$ a := m in ret (f a).

Lemma bind_ext {A B} (m : builder A) (k1 k2 : A → builder B) n :
  (∀ a n', k1 a n' = k2 a n') → bind m k1 n = bind m k2 n.
Proof. intros H. unfold bind. destruct (m n) as [[a n']|e]; cbn; [apply H|done]. Qed.

Lemma extract_path field column jsonPath :
  isJsonbPath field = true → extractJsonb field = Some (column, jsonPath) → field_path field = [column].
Proof.
  intros Hj. unfold field_path, extractJsonbColumnAndPath. rewrite Hj.
  destruct (split "." field) as [|c [|p ps]]; [done|done|]. destruct (isJsonbColumn _ _ c); [|done].
  by intros [= -> _].
Qed.
Lemma plain_path field : isJsonbPath field = false → field_path field = split "." field.
Proof. intros H. unfold field_path. by rewrite H. Qed.
Lemma split_no_dot field : str_includes field "." = false → split "." field = [field].
Proof. intros H. by apply split_char_none, str_includes_char. Qed.

Lemma filter_condition_constraint f n :
  filter_condition entities root dayjs_isValid dayjs_toISOString tz_toISOString tz_startOfDay
    tz_endOfDay q f n
  = fmap_b as_obj (filter_constraint f) n.
Proof.
  destruct f as [field operator value]. unfold fmap_b, filter_condition, filter_constraint.
  destruct (isJsonbPath field) eqn:Hj.
  - destruct (extractJsonb field) as [[column jsonPath]|] eqn:Ee; [|done].
    rewrite (extract_path _ _ _ Hj Ee). unfold bind, lift, ret, buildJsonbRawCondition.
    by destruct (mapFilterOperatorToJsonbOperator operator column).
  - rewrite plain_path by done. unfold bind, lift, ret.
    destruct (validateEnumValueForFilter _ _ _ _ _); [|done]. cbn [res_bind].
    destruct (if isDate field then _ else _); [|done]. cbn [res_bind].
    destruct (applyFilterOperator _ _); [|done]. cbn [res_bind as_obj].
    destruct (str_includes field ".") eqn:Hd; [done|]. by rewrite split_no_dot.
Qed.

(** *** The loops *)

Definition foldl_b {A} (f : A → builder constraint) (w : obj) (l : list A) : builder obj :=
  let$ cs := map_b f l in ret (foldl (λ w c, deepMerge w (as_obj c)) w cs).

Lemma fold_b_constraints {A} (step : obj → A → builder obj) (f : A → builder constraint) w l n :
  (∀ w a n, step w a n = fmap_b (λ c, deepMerge w (as_obj c)) (f a) n) →
  fold_b step w l n = foldl_b f w l n.
Proof.
  intros Hstep. revert w n. unfold foldl_b, bind, ret. induction l as [|a l IH]; intros w n; [done|].
  cbn [fold_b map_b]. unfold bind at 1. rewrite Hstep. unfold fmap_b, bind, ret.
  destruct (f a n) as [[c n1]|e]; [|done]. cbn [res_bind]. rewrite IH.
  destruct (map_b f l n1) as [[cs n2]|e]; done.
Qed.
Lemma map_b_fmap {A B C} (step : A → builder C) (f : A → builder B) (g : B → C) l n :
  (∀ a n, step a n = fmap_b g (f a) n) → map_b step l n = fmap_b (List.map g) (map_b f l) n.
Proof.
  intros Hstep. revert n. unfold fmap_b, bind, ret. induction l as [|a l IH]; intros n; [done|].
  cbn [map_b]. unfold bind. rewrite Hstep. unfold fmap_b, bind, ret.
  destruct (f a n) as [[c n1]|e]; [|done]. cbn [res_bind]. rewrite IH.
  by destruct (map_b f l n1) as [[cs n2]|e].
Qed.

Lemma filter_clause_constraints fs n :
  buildFilterWhereClause entities root dayjs_isValid dayjs_toISOString tz_toISOString tz_startOfDay
    tz_endOfDay q fs n
  = fmap_b merge_all (map_b filter_constraint fs) n.
Proof.
  unfold buildFilterWhereClause. rewrite (fold_b_constraints _ filter_constraint); [done|].
  intros w f n'. unfold fmap_b, bind, ret at 1. rewrite filter_condition_constraint.
  unfold fmap_b, bind, ret. by destruct (filter_constraint f n') as [[c n1]|e].
Qed.
Lemma or_clause_constraints fs n :
  buildOrWhereClause entities root dayjs_isValid dayjs_toISOString tz_toISOString tz_startOfDay
    tz_endOfDay q fs n
  = fmap_b (List.map (λ c, transformNullValues (as_obj c))) (map_b filter_constraint fs) n.
Proof.
  unfold buildOrWhereClause. apply map_b_fmap. intros f n'. unfold fmap_b, bind, ret at 1.
  rewrite filter_condition_constraint. unfold fmap_b, bind, ret.
  by destruct (filter_constraint f n') as [[c n1]|e].
Qed.

(** What the constraints look like. *)
Lemma operator_leaf operator value v : applyFilterOperator operator value = Ok v → is_leaf v.
Proof.
  destruct operator; cbn; try (by intros [= <-]); try by intros [= <-]; case_match.
  unfold createBetweenFromString.
  destruct (parseCommaSeparatedValues value) as [|? [|? [|]]]; by intros [= <-].
Qed.
Lemma operator_not_null operator value v : applyFilterOperator operator value = Ok v → v ≠ WVal JNull.
Proof.
  destruct operator; cbn; try (by intros [= <-]); try by intros [= <-]; case_match.
  unfold createBetweenFromString.
  destruct (parseCommaSeparatedValues value) as [|? [|? [|]]]; by intros [= <-].
Qed.
Lemma jsonb_is_raw n column jsonPath op value :
  ∃ sql params, jsonb_condition n column jsonPath op value = Raw sql params.
Proof. destruct op; cbn; repeat case_match; eauto. Qed.

Lemma filter_constraint_Ok f n c n' :
  filter_constraint f n = Ok (c, n') →
  match c with None => True | Some (p, v) => p = field_path (f_field f) ∧ is_leaf v ∧ v ≠ WVal JNull end.
Proof.
  destruct f as [field operator value]. unfold filter_constraint, bind, lift, ret. cbn [f_field].
  destruct (isJsonbPath field).
  - destruct (extractJsonb field) as [[column jsonPath]|]; [|by intros [= <- _]].
    destruct (mapFilterOperatorToJsonbOperator operator column) as [op|]; [|done]. cbn.
    intros [= <- _]. destruct (jsonb_is_raw n column jsonPath op value) as (? & ? & ->). done.
  - destruct (validateEnumValueForFilter _ _ _ _ _); [|done]. cbn [res_bind].
    destruct (if isDate field then _ else _); [|done]. cbn [res_bind].
    destruct (applyFilterOperator _ _) as [v|] eqn:Ev; [|done]. cbn [res_bind].
    intros [= <- _]. split_and!; [done|by eapply operator_leaf|by eapply operator_not_null].
Qed.

(** *** Search conditions *)

Definition place (w : obj) (kc : string * constraint) : obj :=
  match kc.2 with
  | None => w
  | Some (p, v) => if isJsonbPath kc.1 then deepMerge w (nest p v) else setNestedValue w p v
  end.

Lemma search_step_place w key condition n :
  search_step entities root dayjs_isValid dayjs_toISOString tz_toISOString tz_startOfDay
    tz_endOfDay q w (key, condition) n
  = fmap_b (λ c, place w (key, c)) (search_constraint (key, condition)) n.
Proof.
  unfold search_step, search_constraint, place, fmap_b. cbn [fst snd].
  destruct (isJsonbPath key) eqn:Hj.
  - destruct (extractJsonb key) as [[column jsonPath]|] eqn:Ee; [|done].
    rewrite (extract_path _ _ _ Hj Ee). unfold bind, ret.
    by destruct (buildJsonbSearchCondition column jsonPath condition n) as [[c n1]|].
  - rewrite plain_path by done. unfold bind, lift, ret.
    destruct (buildConditionValue _ _ _ _ _ _ _ _) as [v|]; [|done]. cbn [res_bind].
    destruct (str_includes key ".") eqn:Hd; [done|]. by rewrite split_no_dot.
Qed.

Definition place_all (l : list (string * constraint)) : obj := foldl place [] l.

Lemma search_clause_constraints l n :
  fold_b (search_step entities root dayjs_isValid dayjs_toISOString tz_toISOString tz_startOfDay
    tz_endOfDay q) [] l n
  = fmap_b (λ cs, place_all (zip (obj_keys l) cs)) (map_b search_constraint l) n.
Proof.
  unfold place_all. generalize (@nil (string * wval)). revert n.
  unfold fmap_b, bind, ret. induction l as [|[key condition] l IH]; intros n w; [done|].
  cbn [fold_b map_b]. unfold bind. rewrite search_step_place. unfold fmap_b, bind, ret.
  destruct (search_constraint (key, condition) n) as [[c n1]|e]; [|done]. cbn [res_bind].
  rewrite IH. by destruct (map_b search_constraint l n1) as [[cs n2]|e].
Qed.

Lemma map_b_Ok {A B} (f : A → builder B) l n bs n' :
  map_b f l n = Ok (bs, n') → Forall2 (λ a b, ∃ n1 n2, f a n1 = Ok (b, n2)) l bs.
Proof.
  revert n bs n'. induction l as [|a l IH]; intros n bs n'; cbn [map_b]; unfold bind, ret.
  - intros [= <- _]. constructor.
  - destruct (f a n) as [[b n1]|e] eqn:Ef; [|done]. cbn [res_bind].
    destruct (map_b f l n1) as [[bs' n2]|e] eqn:El; [|done]. intros [= <- _].
    constructor; [eauto|by eapply IH].
Qed.

Lemma res_map_length {A B} (f : A → result B) l l' : res_map f l = Ok l' → length l' = length l.
Proof. intros H%res_map_Ok. symmetry. by eapply Forall2_length. Qed.

Lemma search_operator_leaf b name v w : search_operator_condition dayjs_isValid dayjs_toISOString
  tz_toISOString tz_startOfDay tz_endOfDay q b name v = Ok w → is_leaf w.
Proof.
  unfold search_operator_condition. destruct (assertValidSearchOperator name) as [op|]; [|done].
  cbn [res_bind]. destruct (if b then _ else _) as [v'|]; [|done]. cbn [res_bind].
  destruct op; cbn; try (by intros [= <-]). unfold createBetweenOperator. repeat case_match; try done; by intros [= <-].
Qed.
Lemma condition_value_leaf condition b v : buildConditionValue dayjs_isValid dayjs_toISOString
  tz_toISOString tz_startOfDay tz_endOfDay q condition b = Ok v → is_leaf v.
Proof.
  assert (∀ r : result jsv, (let! x := r in Ok (WVal x)) = Ok v → is_leaf v) as Hplain
    by by intros [x|] ; [intros [= <-]|].
  destruct condition as [| | | | | |l]; cbn [buildConditionValue];
    try (destruct b; [apply Hplain|by intros [= <-]]).
  unfold processOperatorCondition. destruct l as [|kv l]; [by intros [= <-]|].
  destruct (res_map _ (kv :: l)) as [cs|] eqn:E; [|done]. cbn [res_bind].
  apply res_map_Ok in E. inversion E as [|? c ? cs' Hc Hcs]; subst.
  destruct kv as [name v0]. apply search_operator_leaf in Hc. destruct cs'; intros [= <-]; done.
Qed.
Lemma jsonb_search_leaf column jsonPath condition n c n' :
  buildJsonbSearchCondition column jsonPath condition n = Ok (c, n') →
  transform_value c = c ∧ is_leaf c ∧ c ≠ WVal JNull.
Proof.
  assert (∀ c n0 op v, buildJsonbRawCondition column jsonPath op v n0 = Ok (c, n') →
    transform_value c = c ∧ is_leaf c ∧ c ≠ WVal JNull) as Hraw.
  { intros c0 n0 op v [= <- _]. by destruct (jsonb_is_raw n0 column jsonPath op v) as (? & ? & ->). }
  destruct condition as [| | | | | |l]; cbn [buildJsonbSearchCondition]; try apply Hraw.
  destruct l as [|kv l]; [done|]. unfold bind.
  destruct (map_b _ (kv :: l) n) as [[cs n1]|] eqn:E; [|done]. cbn [res_bind]. intros [= <- <-].
  destruct (map_b_Ok _ _ _ _ _ E) as [|[name v] c0 ? cs' (m1 & m2 & Hc) Hcs]; [done|].
  destruct cs' as [|c1 cs'']; [|done]. unfold bind, lift in Hc.
  destruct (assertValidSearchOperator name) as [op|]; [|done]. cbn [res_bind] in Hc.
  destruct (mapSearchOperatorToJsonbOperator name op) as [op'|]; [|done]. cbn [res_bind] in Hc.
  injection Hc as <- _. by destruct (jsonb_is_raw m1 column jsonPath op' (js_String v)) as (? & ? & ->).
Qed.

Lemma search_constraint_Ok key condition n c n' :
  search_constraint (key, condition) n = Ok (c, n') →
  match c with None => True | Some (p, v) => p = field_path key ∧ is_leaf v end.
Proof.
  unfold search_constraint. destruct (isJsonbPath key) eqn:Hj.
  - destruct (extractJsonb key) as [[column jsonPath]|] eqn:Ee; [|by intros [= <- _]].
    unfold bind, ret. destruct (buildJsonbSearchCondition column jsonPath condition n) as [[v m]|] eqn:E;
      [|done]. intros [= <- _]. split; [done|]. by apply jsonb_search_leaf in E as (_ & ? & _).
  - unfold bind, lift, ret. destruct (buildConditionValue _ _ _ _ _ _ _ _) as [v|] eqn:E; [|done].
    intros [= <- _]. split; [done|]. by eapply condition_value_leaf.
Qed.

Definition of_key (key : string) (c : constraint) : Prop :=
  match c with None => True | Some (p, v) => p = field_path key ∧ is_leaf v end.

Lemma jsonb_not_plain key key0 :
  isJsonbPath key = false → isJsonbPath key0 = true → field_path key0 ≠ field_path key.
Proof.
  intros Hk Hk0. rewrite (plain_path key Hk). unfold field_path. rewrite Hk0.
  unfold QueryBuilder.isJsonbPath in *. destruct (split "." key0) as [|h t]; [done|]. cbn.
  intros He. by rewrite <- He, Hk0 in Hk.
Qed.
Lemma plain_path_fresh key key0 :
  isJsonbPath key = false → field_path key0 = field_path key → key0 = key.
Proof.
  intros Hk He. destruct (isJsonbPath key0) eqn:Hk0; [by destruct (jsonb_not_plain key key0)|].
  rewrite !plain_path in He by done. by apply (split_inj ".").
Qed.

Lemma place_merge leafp l cs key c :
  ¬ leafp [] → key ∉ l → Forall2 of_key l cs → of_key key c →
  Forall (good leafp) cs → good leafp c → separated cs →
  place (merge_all cs) (key, c) = merge_all (cs ++ [c]).
Proof.
  intros Hroot Hnew Hcs Hc Hgood Hgc Hsep. rewrite merge_all_snoc. unfold place. cbn [fst snd].
  destruct c as [[p v]|]; [|done]. destruct Hc as [-> Hv]. destruct Hgc as (Hne & (Hl & Hpre & Hres) & _).
  destruct (isJsonbPath key) eqn:Hj; [done|].
  destruct (merges_all (λ (_ : unit) _ _, True) leafp cs Hroot Hgood Hsep) as [Hshape _].
  apply (set_nested_merge leafp (leaves cs) []); try done. intros w Hw.
  assert (∃ v0, Some (field_path key, v0) ∈ cs) as [v0 Hin] by (destruct Hw as [|[_ []]]; eauto).
  apply list_elem_of_lookup in Hin as [i Hi].
  destruct (Forall2_lookup_r _ _ _ _ _ Hcs Hi) as (key0 & Hk0 & He & _).
  apply Hnew. rewrite <- (plain_path_fresh key key0 Hj (eq_sym He)).
  by apply (list_elem_of_lookup_2 l i).
Qed.

Lemma place_all_from leafp l1 cs1 l2 cs2 :
  ¬ leafp [] → NoDup (l1 ++ l2) → Forall2 of_key l1 cs1 → Forall2 of_key l2 cs2 →
  Forall (good leafp) (cs1 ++ cs2) → separated (cs1 ++ cs2) →
  foldl place (merge_all cs1) (zip l2 cs2) = merge_all (cs1 ++ cs2).
Proof.
  intros Hroot Hnd H1 H2. revert l1 cs1 Hnd H1.
  induction H2 as [|key c l2 cs2 Hc Hcs IH]; intros l1 cs1 Hnd H1 Hgood Hsep; [by rewrite app_nil_r|].
  cbn [zip_with foldl].
  rewrite (cons_middle key), app_assoc in Hnd. rewrite (cons_middle c), app_assoc in Hgood, Hsep |- *.
  rewrite (place_merge leafp l1); try done.
  - apply (IH (l1 ++ [key])); try done. apply Forall2_app; [done|by constructor].
  - intros Hin. apply NoDup_app in Hnd as (Hnd & _ & _). apply NoDup_app in Hnd as (_ & Hdisj & _).
    by destruct (Hdisj key Hin (proj2 (list_elem_of_singleton _ _) eq_refl)).
  - by apply Forall_app in Hgood as [[Hg _]%Forall_app _].
  - apply Forall_app in Hgood as [[_ Hg]%Forall_app _]. by apply (Forall_singleton (good leafp) c).
  - by apply separated_app_l, separated_app_l in Hsep.
Qed.
Lemma place_all_merge leafp l cs :
  ¬ leafp [] → NoDup l → Forall2 of_key l cs → Forall (good leafp) cs → separated cs →
  place_all (zip l cs) = merge_all cs.
Proof. intros Hroot Hnd Hcs. by apply (place_all_from leafp [] [] l cs Hroot Hnd ltac:(constructor)). Qed.

(** *** The three parameters *)

Definition search_entries : result (list (string * jsv)) :=
  match q_s q with
  | JUndefined | JNull | JBool _ | JNum _ => Ok []
  | searchParam => parseSearchConditions JSON_parse searchParam
  end.

Lemma search_parameter_Ok n o n' :
  parseSearchParameter entities root JSON_parse dayjs_isValid dayjs_toISOString tz_toISOString
    tz_startOfDay tz_endOfDay q n = Ok (o, n') →
  ∃ l cs, search_entries = Ok l ∧ map_b search_constraint l n = Ok (cs, n') ∧
    o = place_all (zip (obj_keys l) cs).
Proof.
  unfold parseSearchParameter, search_entries, buildSearchWhereClause.
  assert (∀ sp, match bind (lift (parseSearchConditions JSON_parse sp)) (λ conditions,
      let$ _ := lift (validateFieldNamesRecursive entities root (obj_keys conditions)) in
      fold_b (search_step entities root dayjs_isValid dayjs_toISOString tz_toISOString tz_startOfDay
        tz_endOfDay q) [] conditions) n with
    | Throw e => Throw (if is_invalid_parameter e then e else invalid_search) | r => r end = Ok (o, n') →
    ∃ l cs, parseSearchConditions JSON_parse sp = Ok l ∧ map_b search_constraint l n = Ok (cs, n') ∧
      o = place_all (zip (obj_keys l) cs)) as Hparse.
  { intros sp. unfold bind, lift. destruct (parseSearchConditions JSON_parse sp) as [l|]; [|done].
    cbn [res_bind]. destruct (validateFieldNamesRecursive _ _ _); [|done]. cbn [res_bind].
    rewrite search_clause_constraints. unfold fmap_b, bind, ret.
    destruct (map_b search_constraint l n) as [[cs n1]|] eqn:E; [|done]. intros [= <- <-].
    by exists l, cs. }
  destruct (q_s q); try (intros [= <- <-]; by exists [], []); apply Hparse.
Qed.
Lemma filter_parameter_Ok n o n' :
  parseFilterParameter entities root dayjs_isValid dayjs_toISOString tz_toISOString
    tz_startOfDay tz_endOfDay q n = Ok (o, n') →
  ∃ fs cs, parseFilterStrings (normalizeInput (q_filter q)) = Ok fs ∧
    map_b filter_constraint fs n = Ok (cs, n') ∧ o = merge_all cs.
Proof.
  unfold parseFilterParameter. destruct (normalizeInput (q_filter q)) as [|f l].
  { intros [= <- <-]. by exists [], []. }
  unfold bind, lift. destruct (parseFilterStrings (f :: l)) as [fs|]; [|done]. cbn [res_bind].
  destruct (validateFieldNamesRecursive _ _ _); [|done]. cbn [res_bind].
  rewrite filter_clause_constraints. unfold fmap_b, bind, ret.
  destruct (map_b filter_constraint fs n) as [[cs n1]|] eqn:E; [|done]. intros [= <- <-].
  by exists fs, cs.
Qed.
Lemma or_parameter_Ok n l n' :
  parseOrParameter entities root dayjs_isValid dayjs_toISOString tz_toISOString
    tz_startOfDay tz_endOfDay q n = Ok (l, n') →
  ∃ fs cs, parseFilterStrings (normalizeInput (q_or q)) = Ok fs ∧
    map_b filter_constraint fs n = Ok (cs, n') ∧
    l = List.map (λ c, transformNullValues (as_obj c)) cs.
Proof.
  unfold parseOrParameter. destruct (normalizeInput (q_or q)) as [|f l'].
  { intros [= <- <-]. by exists [], []. }
  unfold bind, lift. destruct (parseFilterStrings (f :: l')) as [fs|]; [|done]. cbn [res_bind].
  destruct (validateFieldNamesRecursive _ _ _); [|done]. cbn [res_bind].
  rewrite or_clause_constraints. unfold fmap_b, bind, ret.
  destruct (map_b filter_constraint fs n) as [[cs n1]|] eqn:E; [|done]. intros [= <- <-].
  by exists fs, cs.
Qed.

(** ** The whole clause *)

Definition pk_path : list (list string) :=
  match primaryColumns (metadata entities root) with c :: _ => [[propertyName c]] | [] => [] end.

(** No constrained column is a relation another constraint goes through. *)
Definition unambiguous (paths : list (list string)) : Prop :=
  (∀ p p', p ∈ paths → p' ∈ paths → ¬ strict_prefix p' p) ∧
  (∀ p k, p ∈ paths → k ∈ p → k ∉ reserved).

Lemma field_path_not_nil field : field_path field ≠ [].
Proof.
  unfold field_path, split. pose proof (split_not_nil "." 0 field).
  destruct (split_go "." 0 field); [done|]. by destruct (isJsonbPath field).
Qed.

Lemma of_key_good paths key c :
  unambiguous paths → field_path key ∈ paths → of_key key c → good (.∈ paths) c.
Proof.
  intros [Hpre Hres] Hin. destruct c as [[p v]|]; [|done]. intros [-> Hv].
  split; [apply field_path_not_nil|]. split; [|done]. split; [done|]. split.
  - intros p' Hstrict Hp'. exact (Hpre _ _ Hin Hp' Hstrict).
  - intros k. by apply Hres.
Qed.

Lemma filter_constraints_of_key fs n cs n' :
  map_b filter_constraint fs n = Ok (cs, n') →
  Forall2 of_key (List.map f_field fs) cs ∧ ∀ p, Some (p, WVal JNull) ∉ cs.
Proof.
  intros H%map_b_Ok. split.
  - induction H as [|f c fs cs (n1 & n2 & Hf) _ IH]; [constructor|]. constructor; [|done].
    apply filter_constraint_Ok in Hf. destruct c as [[p v]|]; [|done]. by destruct Hf as (? & ? & _).
  - intros p Hin. apply list_elem_of_lookup in Hin as [i Hi].
    destruct (Forall2_lookup_r _ _ _ _ _ H Hi) as (f & _ & n1 & n2 & Hf).
    by apply filter_constraint_Ok in Hf as (_ & _ & ?).
Qed.
Lemma search_constraints_of_key l n cs n' :
  map_b search_constraint l n = Ok (cs, n') → Forall2 of_key (obj_keys l) cs.
Proof.
  intros H%map_b_Ok. induction H as [|[key condition] c l cs (n1 & n2 & Hs) _ IH]; [constructor|].
  cbn. constructor; [|done]. by apply search_constraint_Ok in Hs.
Qed.
Lemma all_good paths keys cs :
  unambiguous paths → Forall2 of_key keys cs → (∀ k, k ∈ keys → field_path k ∈ paths) →
  Forall (good (.∈ paths)) cs.
Proof.
  intros Hp Hcs Hin. induction Hcs as [|key c keys cs Hc _ IH]; constructor.
  - apply (of_key_good paths key); [done|apply Hin; by left|done].
  - apply IH. intros k Hk. apply Hin. by right.
Qed.

Section clause.
Context {Row : Type} (holds : Row → list string → wval → Prop) (leafp : list string → Prop).
Hypothesis (Hroot : ¬ leafp []).
Abbreviation meets := (meets holds).
Abbreviation sat := (sat holds).

Definition settled_shape (o : obj) : Prop := shaped leafp (λ _, settled) [] (WObj o).
Definition clause_shape (w : where_clause) : Prop :=
  match w with One o => settled_shape o | AnyOf l => ∀ o, o ∈ l → settled_shape o end.

Lemma transform_merged o cs r :
  merges_to holds leafp o cs → (∀ p v, leaves cs p v → v ≠ WVal JNull) →
  settled_shape (transformNullValues o) ∧
  (sat r [] (WObj (transformNullValues o)) ↔ ∀ c, c ∈ cs → meets r c).
Proof.
  intros [H S] Hn. destruct (shaped_obj_inv _ _ _ _ H) as (_ & _ & Hp & _). split.
  - unfold settled_shape. rewrite <- (transform_WObj o) by done.
    apply (shaped_weaken leafp (settled_at (leaves cs))); [by intros p v []|].
    by apply transform_shaped.
  - rewrite <- S. unfold sat_t. by rewrite transform_WObj.
Qed.

Lemma any_of_meaning (f : constraint → obj) (Q : Prop) ocs r :
  ocs ≠ [] → (∀ c, c ∈ ocs → settled_shape (f c) ∧ (sat r [] (WObj (f c)) ↔ Q ∧ meets r c)) →
  clause_shape (AnyOf (List.map f ocs)) ∧
  (sat_where holds r (AnyOf (List.map f ocs)) ↔ Q ∧ (ocs = [] ∨ ∃ c, c ∈ ocs ∧ meets r c)).
Proof.
  intros Hne Hf. split.
  - intros o (c & Hc & ->)%elem_of_List_map. by apply Hf.
  - cbn [sat_where]. setoid_rewrite elem_of_List_map. split.
    + intros (o & (c & Hc & ->) & Ho). apply (proj2 (Hf c Hc)) in Ho as [? ?]. eauto.
    + intros [HQ [?|(c & Hc & Hm)]]; [done|]. exists (f c). split; [by exists c|]. by apply Hf.
Qed.

Lemma combine_meaning aObj cs ocs r :
  merges_to holds leafp aObj cs → Forall (good leafp) ocs →
  (∀ p v, leaves cs p v → v ≠ WVal JNull) → (∀ p, Some (p, WVal JNull) ∉ ocs) →
  let w := combineAndOrConditions (transformNullValues aObj)
             (List.map (λ c, transformNullValues (as_obj c)) ocs) in
  clause_shape w ∧
  (sat_where holds r w ↔ (∀ c, c ∈ cs → meets r c) ∧ (ocs = [] ∨ ∃ c, c ∈ ocs ∧ meets r c)).
Proof.
  intros Ha Hgood Hna Hno w. destruct (transform_merged aObj cs r Ha Hna) as [Hshape Hsat].
  assert (∀ c, c ∈ ocs → merges_to holds leafp (as_obj c) [c] ∧
    ∀ p v, leaves [c] p v → v ≠ WVal JNull) as Hone.
  { intros c Hc. split; [apply merges_one; [done|]; by rewrite Forall_forall in Hgood; apply Hgood|].
    intros p v [Hin|[[_ ?] _]] ->; [|done]. apply list_elem_of_singleton in Hin as <-. by apply (Hno p). }
  assert (ocs = [] ∨ ocs ≠ []) as [->|Hne] by (destruct ocs; auto).
  { assert (w = One (transformNullValues aObj)) as -> by (unfold w; by destruct (transformNullValues aObj)).
    cbn [clause_shape sat_where]. rewrite Hsat. naive_solver. }
  unfold w, combineAndOrConditions. destruct (transformNullValues aObj) as [|kv aT] eqn:Ea.
  - assert (∀ c, c ∈ cs → meets r c) as Hall by by apply Hsat.
    destruct (any_of_meaning (λ c, transformNullValues (as_obj c)) (∀ c, c ∈ cs → meets r c) ocs r Hne)
      as [H1 H2]; [|by destruct ocs].
    intros c Hc. destruct (Hone c Hc) as [Hm Hn].
    destruct (transform_merged _ _ r Hm Hn) as [Hs Hiff]. split; [done|]. rewrite Hiff.
    setoid_rewrite list_elem_of_singleton. naive_solver.
  - rewrite map_map, <- Ea.
    destruct (any_of_meaning (λ c, deepMerge (transformNullValues aObj) (transformNullValues (as_obj c)))
      (∀ c, c ∈ cs → meets r c) ocs r Hne) as [H1 H2]; [|rewrite Ea in *; by destruct ocs].
    intros c Hc. destruct (Hone c Hc) as [Hm Hn].
    destruct (merge_transformed holds leafp aObj (as_obj c) cs [c] r Ha Hm Hna Hn) as [Hs Hiff].
    split; [done|]. rewrite Hiff. setoid_rewrite list_elem_of_singleton. naive_solver.
Qed.

(** *** The exclusion *)

Definition not_excluded (r : Row) : Prop :=
  match excludeIds q, primaryColumns (metadata entities root) with
  | [], _ | _, [] => True
  | ids, c :: _ => holds r [propertyName c] (Not (In_ (List.map JStr ids)))
  end.

Lemma exclusion_merge pk ids o r :
  good_path leafp [pk] → settled_shape o →
  settled_shape (deepMerge o [(pk, Not (In_ ids))]) ∧
  (sat r [] (WObj (deepMerge o [(pk, Not (In_ ids))])) ↔
   sat r [] (WObj o) ∧ holds r [pk] (Not (In_ ids))).
Proof.
  intros Hpk Ho.
  destruct (nest_shaped holds leafp (λ _, settled) [] [pk] (Not (In_ ids))) as [Hx Sx]; try done.
  change (nest [pk] (Not (In_ ids))) with [(pk, Not (In_ ids))] in Hx, Sx.
  destruct (merge_shaped holds leafp _ _ [] _ _ Hx Ho) as [H S]; [done|].
  destruct (shaped_obj_inv _ _ _ _ Ho) as (_ & _ & Hp & _).
  destruct (shaped_obj_inv _ _ _ _ Hx) as (_ & _ & Hpx & _).
  rewrite merge_objects in H, S by by apply plain_not_operator.
  assert (settled_shape (deepMerge o [(pk, Not (In_ ids))])) as Hs.
  { apply (shaped_weaken leafp (merged_leaf (λ _, settled) (λ _, settled))); [|done].
    by intros p v [?|[?|(? & ? & _ & _ & ->)]]. }
  split; [done|].
  rewrite <- (settled_sat holds leafp _ r [] _ (λ _ _ H, H) Hs), S, Sx.
  by rewrite (settled_sat holds leafp _ r [] _ (λ _ _ H, H) Ho).
Qed.

Lemma exclusions_meaning w r :
  (∀ p, p ∈ pk_path → good_path leafp p) → clause_shape w →
  sat_where holds r (applyExclusions entities root q w) ↔ sat_where holds r w ∧ not_excluded r.
Proof.
  intros Hpk Hw. unfold applyExclusions, not_excluded, pk_path in *.
  destruct (excludeIds q) as [|id ids]; [tauto|].
  destruct (primaryColumns (metadata entities root)) as [|c cs]; [tauto|].
  assert (good_path leafp [propertyName c]) as Hc by by apply Hpk; left.
  destruct w as [o|l]; cbn [sat_where clause_shape] in *.
  - by apply exclusion_merge.
  - setoid_rewrite elem_of_List_map. split.
    + intros (o & (o0 & Ho0 & ->) & Ho). apply exclusion_merge in Ho as [? ?]; eauto.
    + intros [(o & Hin & Ho) Hx]. eexists. split; [by exists o|]. apply exclusion_merge; auto.
Qed.
End clause.

(** *** Putting it together *)

(** The parsed request and the constraints it is read as. *)
Record reading := Reading {
  rd_search : list (string * jsv); rd_filter : list parsed_filter; rd_or : list parsed_filter;
  rd_scs : list constraint; rd_fcs : list constraint; rd_ocs : list constraint;
}.
Definition reads (rd : reading) : Prop :=
  search_entries = Ok (rd_search rd) ∧
  parseFilterStrings (normalizeInput (q_filter q)) = Ok (rd_filter rd) ∧
  parseFilterStrings (normalizeInput (q_or q)) = Ok (rd_or rd) ∧
  ∃ n1 n2 n3,
    map_b search_constraint (rd_search rd) 0%nat = Ok (rd_scs rd, n1) ∧
    map_b filter_constraint (rd_filter rd) n1 = Ok (rd_fcs rd, n2) ∧
    map_b filter_constraint (rd_or rd) n2 = Ok (rd_ocs rd, n3).
Definition constrained_fields (rd : reading) : list string :=
  obj_keys (rd_search rd) ++ List.map f_field (rd_filter rd) ++ List.map f_field (rd_or rd).
Definition constrained_paths (rd : reading) : list (list string) :=
  List.map field_path (constrained_fields rd) ++ pk_path.

(** A request whose fields do not overlap and are not named like the parts of
    an operator ([_type], [_value], [_getSql]), that repeats no key of [s] and
    has no null in it, and with no empty value (or the text of a null) for a
    column that has several conditions. *)
Record regular (rd : reading) : Prop := {
  reg_keys : NoDup (obj_keys (rd_search rd));
  reg_paths : unambiguous (constrained_paths rd);
  reg_separated : separated (rd_scs rd ++ rd_fcs rd);
  reg_null : ∀ p, Some (p, WVal JNull) ∉ rd_scs rd;
}.

Lemma reads_det rd rd' : reads rd → reads rd' → rd = rd'.
Proof.
  destruct rd, rd'. unfold reads. cbn.
  intros (H1 & H2 & H3 & n1 & n2 & n3 & M1 & M2 & M3) (H1' & H2' & H3' & n1' & n2' & n3' & M1' & M2' & M3').
  congruence.
Qed.

Lemma applyFilters_Ok w n :
  applyFilters entities root JSON_parse dayjs_isValid dayjs_toISOString tz_toISOString tz_startOfDay
    tz_endOfDay q 0%nat = Ok (w, n) →
  ∃ rd, reads rd ∧
    w = combineAndOrConditions
          (transformNullValues (deepMerge (place_all (zip (obj_keys (rd_search rd)) (rd_scs rd)))
             (merge_all (rd_fcs rd))))
          (List.map (λ c, transformNullValues (as_obj c)) (rd_ocs rd)).
Proof.
  unfold applyFilters, bind, ret.
  destruct (parseSearchParameter _ _ _ _ _ _ _ _ _ _) as [[o1 n1]|] eqn:E1; [|done]. cbn [res_bind].
  destruct (parseFilterParameter _ _ _ _ _ _ _ _ _) as [[o2 n2]|] eqn:E2; [|done]. cbn [res_bind].
  destruct (parseOrParameter _ _ _ _ _ _ _ _ _) as [[o3 n3]|] eqn:E3; [|done]. cbn [res_bind].
  intros [= <- _].
  destruct (search_parameter_Ok _ _ _ E1) as (sc & scs & H1 & M1 & ->).
  destruct (filter_parameter_Ok _ _ _ E2) as (fs & fcs & H2 & M2 & ->).
  destruct (or_parameter_Ok _ _ _ E3) as (os & ocs & H3 & M3 & ->).
  exists (Reading sc fs os scs fcs ocs). split; [|done]. split_and!; [done..|]. by exists n1, n2, n3.
Qed.

Lemma no_null_leaves cs p v :
  (∀ p, Some (p, WVal JNull) ∉ cs) → leaves cs p v → v ≠ WVal JNull.
Proof. intros Hn [Hin|[[_ ?] _]]; [|done]. intros ->. by apply (Hn p). Qed.

Lemma root_not_constrained rd : [] ∉ constrained_paths rd.
Proof.
  unfold constrained_paths, pk_path. intros [Hin|Hin]%elem_of_app.
  - apply elem_of_List_map in Hin as (f & _ & Hf). by apply (field_path_not_nil f).
  - destruct (primaryColumns _); [by apply elem_of_nil in Hin|by apply list_elem_of_singleton in Hin].
Qed.

Lemma regular_good rd :
  reads rd → regular rd →
  let leafp := (.∈ constrained_paths rd) in
  Forall2 of_key (obj_keys (rd_search rd)) (rd_scs rd) ∧
  Forall (good leafp) (rd_scs rd) ∧ Forall (good leafp) (rd_fcs rd) ∧ Forall (good leafp) (rd_ocs rd) ∧
  (∀ p, p ∈ pk_path → good_path leafp p) ∧
  (∀ p, Some (p, WVal JNull) ∉ rd_scs rd ++ rd_fcs rd) ∧ (∀ p, Some (p, WVal JNull) ∉ rd_ocs rd).
Proof.
  intros (_ & _ & _ & n1 & n2 & n3 & M1 & M2 & M3) [Hkeys Hpaths Hsep Hnull] leafp.
  pose proof (search_constraints_of_key _ _ _ _ M1) as K1.
  destruct (filter_constraints_of_key _ _ _ _ M2) as [K2 N2].
  destruct (filter_constraints_of_key _ _ _ _ M3) as [K3 N3].
  assert (∀ k, k ∈ obj_keys (rd_search rd) ∨ k ∈ List.map f_field (rd_filter rd)
    ∨ k ∈ List.map f_field (rd_or rd) → field_path k ∈ constrained_paths rd) as Hin.
  { intros k Hk. apply elem_of_app. left. apply elem_of_List_map. exists k. split; [|done].
    unfold constrained_fields. by rewrite !elem_of_app. }
  split; [done|]. split; [apply (all_good _ _ _ Hpaths K1); auto|].
  split; [apply (all_good _ _ _ Hpaths K2); auto|]. split; [apply (all_good _ _ _ Hpaths K3); auto|].
  split; [|split; [intros p [?|?]%elem_of_app; [by apply (Hnull p)|by apply (N2 p)]|done]].
  intros p Hp. assert (p ∈ constrained_paths rd) as Hp' by (apply elem_of_app; by right).
  destruct Hpaths as [Hpre Hres]. split; [done|]. split; [intros p' Hs Hp''; by apply (Hpre p p')|].
  intros k. by apply Hres.
Qed.

Lemma filters_meaning {Row : Type} (holds : Row → list string → wval → Prop) w n :
  applyFilters entities root JSON_parse dayjs_isValid dayjs_toISOString tz_toISOString tz_startOfDay
    tz_endOfDay q 0%nat = Ok (w, n) →
  ∃ rd, reads rd ∧
  (regular rd → ∀ r,
    sat_where holds r (applyExclusions entities root q w) ↔
    (∀ c, c ∈ rd_scs rd ++ rd_fcs rd → meets holds r c) ∧
    (rd_ocs rd = [] ∨ ∃ c, c ∈ rd_ocs rd ∧ meets holds r c) ∧
    not_excluded holds r).
Proof.
  intros (rd & Hrd & ->)%applyFilters_Ok. exists rd. split; [done|]. intros Hreg r.
  destruct (regular_good rd Hrd Hreg) as (K1 & G1 & G2 & G3 & Gpk & N12 & N3).
  destruct Hreg as [Hkeys _ Hsep _]. pose proof (root_not_constrained rd) as Hroot.
  pose proof (separated_app_l _ _ Hsep) as Hsep1. pose proof (separated_app_r _ _ Hsep) as Hsep2.
  rewrite (place_all_merge (.∈ constrained_paths rd)) by done.
  pose proof (merges_app holds _ _ _ _ _ (merges_all holds _ _ Hroot G1 Hsep1)
    (merges_all holds _ _ Hroot G2 Hsep2) Hsep) as Hm.
  destruct (combine_meaning holds _ Hroot _ _ (rd_ocs rd) r Hm G3) as [Hshape Hsat]; [|done|].
  { intros p v. by apply no_null_leaves. }
  rewrite (exclusions_meaning holds (.∈ constrained_paths rd)) by done. rewrite Hsat. tauto.
Qed.

Lemma build_Ok env allowed opts :
  build entities root JSON_parse dayjs_isValid dayjs_toISOString tz_toISOString tz_startOfDay
    tz_endOfDay q env allowed = Ok opts →
  (take opts, skip opts) = applyPagination env q ∧
  applySorting entities root q = Ok (order opts) ∧
  (∃ w n, applyFilters entities root JSON_parse dayjs_isValid dayjs_toISOString tz_toISOString
     tz_startOfDay tz_endOfDay q 0%nat = Ok (w, n) ∧ where_ opts = applyExclusions entities root q w) ∧
  applyRelations q allowed = Ok (relations_ opts) ∧
  applyFieldSelection entities root q = Ok (select opts).
Proof.
  unfold build. destruct (applyPagination env q) as [tk sk]. intros H. res_inv H.
  destruct a0 as [w n]. res_inv H. injection H as <-. cbn. eauto 10.
Qed.

(** *** The properties a clause constrains *)

Definition clause_objects (w : where_clause) : list obj := match w with One o => [o] | AnyOf l => l end.
Definition rooted_in (paths : list (list string)) (o : obj) : Prop :=
  ∀ k, k ∈ obj_keys o → ∃ p, p ∈ paths ∧ head p = Some k.

Lemma rooted_nil paths : rooted_in paths [].
Proof. by intros k ?%elem_of_nil. Qed.
Lemma rooted_merge paths o o' : rooted_in paths o → rooted_in paths o' → rooted_in paths (deepMerge o o').
Proof. by intros Ho Ho' k [?|?]%deepMerge_keys; [apply Ho|apply Ho']. Qed.
Lemma rooted_transform paths o : rooted_in paths o → rooted_in paths (transformNullValues o).
Proof. intros Ho k. rewrite transform_keys. apply Ho. Qed.
Lemma rooted_nested paths o p v : rooted_in paths o → p ∈ paths → rooted_in paths (setNestedValue o p v).
Proof.
  intros Ho Hp k. destruct p as [|part rest]; [by apply Ho|]. cbn [setNestedValue].
  assert (∀ x : wval, k ∈ obj_keys (obj_set part x o) → ∃ p, p ∈ paths ∧ head p = Some k) as Hset.
  { intros x [->|Hk]%obj_keys_set; [by exists (part :: rest)|by apply Ho]. }
  destruct rest; [apply Hset|]. destruct (obj_get part o) as [[]|]; try apply Hset;
    (destruct (isPlainObject _); [apply Ho|apply Hset]).
Qed.
Lemma rooted_constraint paths c : (∀ p v, c = Some (p, v) → p ∈ paths) → rooted_in paths (as_obj c).
Proof.
  intros Hc. destruct c as [[p v]|]; [|apply rooted_nil]. apply rooted_nested; [apply rooted_nil|by eapply Hc].
Qed.

Lemma reads_paths rd p v :
  reads rd → Some (p, v) ∈ rd_scs rd ++ rd_fcs rd ++ rd_ocs rd → p ∈ constrained_paths rd.
Proof.
  intros (_ & _ & _ & n1 & n2 & n3 & M1 & M2 & M3).
  pose proof (search_constraints_of_key _ _ _ _ M1) as K1.
  destruct (filter_constraints_of_key _ _ _ _ M2) as [K2 _].
  destruct (filter_constraints_of_key _ _ _ _ M3) as [K3 _].
  pose proof (Forall2_app K1 (Forall2_app K2 K3)) as K.
  intros [i Hi]%list_elem_of_lookup. destruct (Forall2_lookup_r _ _ _ _ _ K Hi) as (key & Hkey & -> & _).
  apply elem_of_app. left. apply elem_of_List_map. exists key. split; [|done].
  by eapply list_elem_of_lookup_2.
Qed.

Lemma rooted_fold {A} paths (f : obj → A → obj) (l : list A) :
  (∀ w a, a ∈ l → rooted_in paths w → rooted_in paths (f w a)) →
  ∀ w, rooted_in paths w → rooted_in paths (foldl f w l).
Proof.
  induction l as [|a l IH]; intros Hf w Hw; [done|]. cbn. apply IH; [|by apply Hf; [left|]].
  intros w' a' Ha'. apply Hf. by right.
Qed.
Lemma rooted_placed paths keys cs :
  (∀ p v, Some (p, v) ∈ cs → p ∈ paths) → rooted_in paths (place_all (zip keys cs)).
Proof.
  intros Hp. apply rooted_fold; [|apply rooted_nil]. intros w [k c] Hc%elem_of_zip_r Hw.
  unfold place. cbn [fst snd]. destruct c as [[p v]|]; [|done]. specialize (Hp p v Hc).
  destruct (isJsonbPath k); [|by apply rooted_nested]. apply rooted_merge; [done|].
  by apply rooted_nested; [apply rooted_nil|].
Qed.
Lemma rooted_merged paths cs :
  (∀ p v, Some (p, v) ∈ cs → p ∈ paths) → rooted_in paths (merge_all cs).
Proof.
  intros Hp. apply rooted_fold; [|apply rooted_nil]. intros w c Hc Hw. apply rooted_merge; [done|].
  apply rooted_constraint. intros p v ->. by apply (Hp p v).
Qed.

Lemma rooted_combined paths a l :
  rooted_in paths a → (∀ o, o ∈ l → rooted_in paths o) →
  ∀ o, o ∈ clause_objects (combineAndOrConditions a l) → rooted_in paths o.
Proof.
  intros Ha Hl o. unfold combineAndOrConditions.
  destruct a as [|kv a], l as [|o1 l]; cbn [clause_objects].
  - intros ->%list_elem_of_singleton. apply rooted_nil.
  - apply Hl.
  - by intros ->%list_elem_of_singleton.
  - intros (x & Hx & ->)%elem_of_List_map. apply rooted_merge; [done|by apply Hl].
Qed.
Lemma rooted_excluded paths w :
  (∀ p, p ∈ pk_path → p ∈ paths) → (∀ o, o ∈ clause_objects w → rooted_in paths o) →
  ∀ o, o ∈ clause_objects (applyExclusions entities root q w) → rooted_in paths o.
Proof.
  intros Hpk Hw o. unfold applyExclusions, pk_path in *. destruct (excludeIds q) as [|id0 ids]; [apply Hw|].
  destruct (primaryColumns (metadata entities root)) as [|pkc pks]; [apply Hw|].
  assert (rooted_in paths [(propertyName pkc, Not (In_ (List.map JStr (id0 :: ids))))]) as Hx.
  { intros k ->%list_elem_of_singleton. exists [propertyName pkc]. split; [|done]. apply Hpk. by left. }
  destruct w as [o1|l]; cbn [clause_objects] in *.
  - intros ->%list_elem_of_singleton. apply rooted_merge; [apply Hw; by left|done].
  - intros (o1 & Ho1 & ->)%elem_of_List_map. apply rooted_merge; [by apply Hw|done].
Qed.

(** A clause only constrains properties the request names and the key. *)
Lemma where_rooted env allowed opts rd :
  build entities root JSON_parse dayjs_isValid dayjs_toISOString tz_toISOString tz_startOfDay
    tz_endOfDay q env allowed = Ok opts → reads rd →
  ∀ o, o ∈ clause_objects (where_ opts) → rooted_in (constrained_paths rd) o.
Proof.
  intros (_ & _ & (w & n & Hf & ->) & _)%build_Ok Hrd.
  apply applyFilters_Ok in Hf as (rd' & Hrd' & ->). rewrite (reads_det rd' rd) in * by done. clear Hrd' rd'.
  pose proof (λ p v, reads_paths rd p v Hrd) as Hpaths.
  apply rooted_excluded; [intros p Hp; apply elem_of_app; by right|].
  apply rooted_combined.
  - apply rooted_transform, rooted_merge.
    + apply rooted_placed. intros p v Hin. apply (Hpaths p v). apply elem_of_app. by left.
    + apply rooted_merged. intros p v Hin. apply (Hpaths p v). rewrite !elem_of_app. tauto.
  - intros o (c & Hc & ->)%elem_of_List_map. apply rooted_transform, rooted_constraint.
    intros p v ->. apply (Hpaths p v). rewrite !elem_of_app. tauto.
Qed.

(** A condition on a JSONB column that names no path in it: nothing is built of
    it. *)
Definition bare_jsonb (f : parsed_filter) : Prop :=
  isJsonbPath (f_field f) = true ∧ str_includes (f_field f) "." = false.

Lemma bare_jsonb_nothing f n : bare_jsonb f → filter_constraint f n = Ok (None, n).
Proof.
  destruct f as [field op value]. intros [Hj Hd]. cbn in Hj, Hd. unfold filter_constraint.
  rewrite Hj. unfold extractJsonbColumnAndPath. by rewrite split_no_dot.
Qed.
Lemma bare_in_or rd f : reads rd → f ∈ rd_or rd → bare_jsonb f → None ∈ rd_ocs rd.
Proof.
  intros (_ & _ & _ & n1 & n2 & n3 & _ & _ & M3) Hin Hbare.
  pose proof (map_b_Ok _ _ _ _ _ M3) as Hall. apply list_elem_of_lookup in Hin as [i Hi].
  destruct (Forall2_lookup_l _ _ _ _ _ Hall Hi) as (c & Hc & m1 & m2 & Hfc).
  rewrite bare_jsonb_nothing in Hfc by done. injection Hfc as <- _. by apply (list_elem_of_lookup_2 _ i).
Qed.

(** C19: in a [regular] request no field path is a prefix of another or has a
    key of an operator in it, no key of [s] is repeated or has null for its
    condition, and no column that has several conditions is compared with the
    empty value or the text of a null.  The clause a regular request
    is translated to selects the rows that meet every search and filter
    condition, one of the [or] conditions if there are any, and none of the
    excluded ids; conditions on one column, from different parameters or
    repeated in one, all apply.  A condition on a JSONB column without a path
    restricts nothing: one of them in [or] makes the other alternatives void. *)
Theorem where_meaning {Row : Type} (holds : Row → list string → wval → Prop) env allowed opts :
  build entities root JSON_parse dayjs_isValid dayjs_toISOString tz_toISOString tz_startOfDay
    tz_endOfDay q env allowed = Ok opts →
  (∃ rd, reads rd) ∧ ∀ rd, reads rd → regular rd → ∀ r,
    (sat_where holds r (where_ opts) ↔
     (∀ c, c ∈ rd_scs rd ++ rd_fcs rd → meets holds r c) ∧
     (rd_ocs rd = [] ∨ ∃ c, c ∈ rd_ocs rd ∧ meets holds r c) ∧
     not_excluded holds r) ∧
    ((∃ f, f ∈ rd_or rd ∧ bare_jsonb f) →
     sat_where holds r (where_ opts) ↔
     (∀ c, c ∈ rd_scs rd ++ rd_fcs rd → meets holds r c) ∧ not_excluded holds r).
Proof.
  intros (_ & _ & (w & n & Hf & ->) & _)%build_Ok.
  destruct (filters_meaning holds w n Hf) as (rd & Hrd & Hmeaning). split; [by exists rd|].
  intros rd' Hrd' Hreg r. rewrite (reads_det rd' rd) in Hreg |- * by done. split; [by apply Hmeaning|].
  intros (f & Hin & Hbare). pose proof (bare_in_or rd f Hrd Hin Hbare) as Hnone. rewrite (Hmeaning Hreg r).
  split; [tauto|]. intros [? ?]. split_and!; [done| |done]. right. by exists None.
Qed.
End constraints.

(** ** A sample entity *)

Definition sample_columns : list column :=
  [Column "id" "uuid" None; Column "name" "varchar" None; Column "meta" "jsonb" None;
   Column "status" "enum" (Some ["open"; "done"])].
Definition find_column (cs : list column) (name : string) : option column :=
  List.find (λ c, String.eqb (propertyName c) name) cs.
Definition sample_entities (e : string) : entity_metadata :=
  if String.eqb e "task" then
    EntityMetadata sample_columns [Column "id" "uuid" None] ["owner"] (find_column sample_columns)
      (λ r, if String.eqb r "owner" then Some "user" else None)
  else
    EntityMetadata [Column "id" "uuid" None; Column "email" "varchar" None] [Column "id" "uuid" None] []
      (find_column [Column "id" "uuid" None; Column "email" "varchar" None]) (λ _, None).
Definition no_json : string → option jsv := λ _, None.
Definition sample_build (q : QueryParamsDTO) : result FindManyOptions :=
  build sample_entities "task" no_json (λ _, false) Ok (λ _ s, Ok s) (λ _ s, Ok s) (λ _ s, Ok s) q
    JUndefined ["owner"].
Definition sample_query : QueryParamsDTO :=
  Query JUndefined JUndefined JUndefined JUndefined
    (JObj [("name", JObj [("cont", JStr "a")])])
    (JArr [JStr "owner.email||$eq||a@b.c"; JStr "name||$ne||x"])
    (JArr [JStr "status||$eq||open"; JStr "meta.tag||$in||x,y"])
    JUndefined JUndefined None (JStr "7,8").

Example sample_where :
  match sample_build sample_query with
  | Ok opts =>
      match where_ opts with
      | AnyOf [[("name", And [ILike "%a%"; Not (WVal (JStr "x"))]);
                ("owner", WObj [("email", WVal (JStr "a@b.c"))]);
                ("status", WVal (JStr "open"));
                ("id", Not (In_ [JStr "7"; JStr "8"]))]; _] => True
      | _ => False
      end
  | Throw _ => False
  end.
Proof. by vm_compute. Qed.

(** ** Witness *)

Lemma strict_prefix_prefix p q : strict_prefix p q → p `prefix_of` q ∧ p ≠ q.
Proof.
  intros (x & s & ->). split; [by exists (x :: s)|]. intros He. apply (f_equal length) in He.
  rewrite length_app in He. cbn in He. lia.
Qed.
Lemma unambiguous_check paths :
  bool_decide (Forall (λ p, Forall (λ p', ¬ (p' `prefix_of` p ∧ p' ≠ p)) paths ∧
                             Forall (λ k, k ∉ reserved) p) paths) = true → unambiguous paths.
Proof.
  intros H%bool_decide_eq_true. rewrite Forall_forall in H. split.
  - intros p p' Hp Hp' Hs%strict_prefix_prefix. destruct (H p Hp) as [Hf _].
    rewrite Forall_forall in Hf. by apply (Hf p').
  - intros p k Hp. destruct (H p Hp) as [_ Hf]. rewrite Forall_forall in Hf. apply Hf.
Qed.
Lemma separated_once (cs : list constraint) : NoDup (omap (fmap fst) cs) → separated cs.
Proof.
  intros Hnd l1 l2 p a b -> Ha Hb. exfalso. rewrite omap_app in Hnd.
  apply NoDup_app in Hnd as (_ & Hdisj & _). apply (Hdisj p); apply list_elem_of_omap; eauto.
Qed.

Definition witness_query : QueryParamsDTO :=
  Query JUndefined JUndefined JUndefined JUndefined
    (JObj [("name", JObj [("cont", JStr "a")])])
    (JStr "owner.email||$eq||a@b.c") (JStr "status||$eq||open") JUndefined JUndefined None (JStr "7").
Definition witness_reading : reading :=
  Reading [("name", JObj [("cont", JStr "a")])] [Filter "owner.email" F_eq "a@b.c"]
    [Filter "status" F_eq "open"] [Some (["name"], ILike "%a%")]
    [Some (["owner"; "email"], WVal (JStr "a@b.c"))] [Some (["status"], WVal (JStr "open"))].
Definition sample_holds (r : list (list string * wval)) (p : list string) (v : wval) : Prop := (p, v) ∈ r.

Lemma where_meaning_witness :
  ∃ opts, sample_build witness_query = Ok opts ∧ ∀ r,
  sat_where sample_holds r (where_ opts) ↔
    (∀ c, c ∈ rd_scs witness_reading ++ rd_fcs witness_reading → meets sample_holds r c) ∧
    (rd_ocs witness_reading = [] ∨ ∃ c, c ∈ rd_ocs witness_reading ∧ meets sample_holds r c) ∧
    not_excluded sample_entities "task" witness_query sample_holds r.
Proof.
  destruct (sample_build witness_query) as [opts|e] eqn:E; [|vm_compute in E; discriminate E].
  exists opts. split; [reflexivity|]. intros r.
  apply (where_meaning sample_entities "task" no_json (λ _, false) Ok (λ _ s, Ok s) (λ _ s, Ok s)
    (λ _ s, Ok s) witness_query sample_holds JUndefined ["owner"] opts E).
  - unfold reads. split; [reflexivity|]. split; [by vm_compute|]. split; [by vm_compute|].
    exists 0%nat, 0%nat, 0%nat. split; [reflexivity|]. split; by vm_compute.
  - split.
    + by repeat constructor; intros ?%elem_of_nil.
    + apply unambiguous_check. by vm_compute.
    + apply separated_once. apply (bool_decide_eq_true_1 _). by vm_compute.
    + intros p Hin. cbn in Hin. by apply list_elem_of_singleton in Hin.
Defined.
