(* ===== verification/QueryLaws.v ===== *)
(** * Laws of the query builder

    Bounds of the pagination, validation of field names and relations, the
    filter syntax, and the SQL text of JSONB conditions. *)

From Stdlib Require Import SpecFloat.
From S2P Require Import Prelude JsString JsValues QueryBuilder QueryMeaning.
#[local] Open Scope string_scope.
#[local] Open Scope list_scope.

(** ** Pagination *)

Lemma parse_positive_min value d m z :
  (m <= d)%Z → parsePositiveInteger value d m = Whole z → (m <= z)%Z.
Proof.
  unfold parsePositiveInteger. intros Hd. destruct (floor (js_Number value)) as [[w|[]]|];
    intros [= <-]; lia.
Qed.
Lemma max_limit_nonneg env : (0 <= resolveMaxLimit env)%Z.
Proof.
  unfold resolveMaxLimit. destruct (js_Number env) as [| | |s m e]; try by unfold FALLBACK_MAX_LIMIT.
  destruct s; [by unfold FALLBACK_MAX_LIMIT|]. cbn [floor]. destruct (0 <=? e)%Z eqn:He.
  - apply Z.leb_le in He. pose proof (Z.pow_nonneg 2 e ltac:(lia)). lia.
  - apply Z.leb_gt in He. apply Z.div_pos; [lia|]. apply Z.pow_pos_nonneg; lia.
Qed.

(** A page is never larger than the cap and never has negative bounds,
    whatever the parameters; the n-th page is the n-th block of rows of the page
    size, an explicit offset wins over the page number, and without parameters
    the first ten rows are returned. *)
Theorem pagination_bounds env q :
  let '(tk, sk) := applyPagination env q in
  (0 <= tk <= resolveMaxLimit env)%Z ∧
  ((1 <= resolveMaxLimit env)%Z → (1 <= tk)%Z) ∧
  match sk with
  | Offset n => n = js_Number (q_offset q) ∧ isNaN n = false ∧ num_lt n (Number "0") = false
  | Rows n => ∃ page, (1 <= page)%Z ∧ n = ((page - 1) * tk)%Z ∧
      ∀ p, floor (js_Number (q_page q)) = Some (Whole p) → page = Z.max 1 p
  | Unbounded => floor (js_Number (q_page q)) = Some (Infinite true)
  end ∧
  (∀ z, floor (js_Number (q_limit q)) = Some (Whole z) → tk = Z.min (Z.max 1 z) (resolveMaxLimit env)) ∧
  (q = empty_query → tk = Z.min 10 (resolveMaxLimit env) ∧ sk = Rows 0).
Proof.
  unfold applyPagination. pose proof (max_limit_nonneg env) as Hmax.
  set (limit := match parsePositiveInteger (q_limit q) DEFAULT_LIMIT MIN_LIMIT with
                | Whole z => Z.min z (resolveMaxLimit env) | Infinite _ => resolveMaxLimit env end).
  assert (0 <= limit <= resolveMaxLimit env ∧ (1 <= resolveMaxLimit env → 1 <= limit))%Z as [Hl Hl1].
  { unfold limit. destruct (parsePositiveInteger _ _ _) as [z|] eqn:E; [|lia].
    apply parse_positive_min in E; unfold MIN_LIMIT, DEFAULT_LIMIT in *; lia. }
  split; [done|]. split; [done|]. split; [|split].
  - unfold isValidOffset. destruct (isNaN _) eqn:Hn; cbn [negb andb].
    2: destruct (num_lt _ _) eqn:Hlt; cbn [negb]; [|by split_and!].
    all: destruct (parsePositiveInteger (q_page q) MIN_PAGE MIN_PAGE) as [p|b] eqn:E.
    all: try (exists p; split; [by eapply (parse_positive_min _ _ MIN_PAGE p), E|split; [done|]];
      intros p' Hp'; unfold parsePositiveInteger in E; rewrite Hp' in E; by injection E as <-).
    all: unfold parsePositiveInteger in E; destruct (floor (js_Number (q_page q))) as [[|[]]|]; done.
  - intros z Hz. unfold limit, parsePositiveInteger. by rewrite Hz.
  - intros ->. split; [|done]. done.
Qed.

(** ** Field names *)

Lemma res_fold_unit {A} (f : A → result ()) l :
  (res_fold (λ _, f) () l = Ok () ↔ ∀ a, a ∈ l → f a = Ok ()) ∧
  ∀ e, res_fold (λ _, f) () l = Throw e → ∃ a, a ∈ l ∧ f a = Throw e.
Proof.
  induction l as [|a l [IH1 IH2]]; cbn [res_fold].
  { split; [split; [by intros _ ? ?%elem_of_nil|done]|done]. }
  setoid_rewrite elem_of_cons. destruct (f a) as [[]|e0] eqn:E; cbn [res_bind].
  - rewrite IH1. split; [naive_solver|]. intros e He. destruct (IH2 e He) as (a' & ? & ?). eauto.
  - split; [split; [done|]|intros e [= <-]; eauto]. intros H. specialize (H a). rewrite E in H. naive_solver.
Qed.

Section fields.
Context (entities : string → entity_metadata) (root : string).

(** A column of the entity, a column reached through relations, or a path into
    a JSONB column. *)
Definition known_field (field : string) : Prop :=
  isJsonbPath entities root field = true ∨
  (str_includes field "." = false ∧ field ∈ getEntityPropertyNames entities root) ∨
  (str_includes field "." = true ∧
   is_Some (column_at entities (metadata entities root) (split "." field))).

Lemma validate_path_spec fieldPath m parts :
  parts ≠ [] →
  (validate_path entities fieldPath m parts = Ok () ↔ is_Some (column_at entities m parts)) ∧
  ∀ e, validate_path entities fieldPath m parts = Throw e → is_invalid_parameter e = true.
Proof.
  revert m. induction parts as [|part rest IH]; [done|]. intros m _. destruct rest as [|part2 rest].
  - cbn. destruct (findColumnWithPropertyName m part) as [c|].
    + split; [split; [by eexists|done]|done].
    + split; [split; [done|by intros []]|]. by intros e [= <-].
  - cbn [validate_path column_at]. destruct (findRelationWithPropertyPath m part) as [e|].
    + by apply IH.
    + split; [split; [done|by intros []]|]. by intros e [= <-].
Qed.

Lemma validate_field_spec field :
  (validateFieldName entities root field = Ok () ↔ known_field field) ∧
  ∀ e, validateFieldName entities root field = Throw e → is_invalid_parameter e = true.
Proof.
  unfold validateFieldName, known_field.
  destruct (isJsonbPath entities root field); [split; [split; [by left|done]|done]|].
  destruct (str_includes field ".") eqn:Hd; cbn [negb].
  - destruct (validate_path_spec field (metadata entities root) (split "." field)) as [H1 H2];
      [apply split_not_nil|]. split; [|done]. rewrite H1. naive_solver.
  - destruct (includes _ field) eqn:Hi.
    + apply includes_true in Hi. split; [split; [by right; left|done]|done].
    + apply includes_false in Hi. split; [split; [done|naive_solver]|]. by intros e [= <-].
Qed.

Lemma validate_fields_spec fields :
  (validateFieldNamesRecursive entities root fields = Ok () ↔ ∀ f, f ∈ fields → known_field f) ∧
  ∀ e, validateFieldNamesRecursive entities root fields = Throw e → is_invalid_parameter e = true.
Proof.
  unfold validateFieldNamesRecursive.
  destruct (res_fold_unit (validateFieldName entities root) fields) as [H1 H2]. split.
  - rewrite H1. split; intros H f Hf; by apply validate_field_spec, H.
  - intros e He. destruct (H2 e He) as (f & _ & Hf). by eapply validate_field_spec.
Qed.
(** *** Selections *)

Definition is_column (m : entity_metadata) (k : string) : Prop :=
  is_Some (findColumnWithPropertyName m k) ∨
  ∃ c, c ∈ columns m ++ primaryColumns m ∧ propertyName c = k.

(** Every selected name is a column, every nested selection a relation. *)
Inductive selects : entity_metadata → list (string * selection) → Prop :=
  selects_intro m o :
    (∀ k, obj_get k o = Some STrue → is_column m k) →
    (∀ k o', obj_get k o = Some (SObj o') →
       ∃ e, findRelationWithPropertyPath m k = Some e ∧ selects (entities e) o') →
    selects m o.

Lemma selects_nil m : selects m [].
Proof. by constructor. Qed.
Lemma selects_column m o k : selects m o → is_column m k → selects m (obj_set k STrue o).
Proof.
  intros [? ? Hc Hr] Hk. constructor; intros k0; rewrite obj_get_set.
  - destruct (String.eqb_spec k0 k) as [->|]; [done|apply Hc].
  - destruct (String.eqb_spec k0 k) as [->|]; [done|apply Hr].
Qed.
Lemma selects_relation m o k e o' :
  selects m o → findRelationWithPropertyPath m k = Some e → selects (entities e) o' →
  selects m (obj_set k (SObj o') o).
Proof.
  intros [? ? Hc Hr] Hk Ho'. constructor; intros k0; rewrite obj_get_set.
  - destruct (String.eqb_spec k0 k) as [->|]; [done|apply Hc].
  - intros o''. destruct (String.eqb_spec k0 k) as [->|]; [|apply Hr]. intros [= <-]. by exists e.
Qed.
Lemma selects_add_columns m cols o :
  (∀ c, c ∈ cols → c ∈ columns m ++ primaryColumns m) → selects m o → selects m (add_columns cols o).
Proof.
  unfold add_columns. revert o. induction cols as [|c cols IH]; intros o Hin Ho; [done|]. cbn [foldl].
  apply IH; [intros c' ?; apply Hin; by right|]. destruct (obj_get (propertyName c) o); [done|].
  apply selects_column; [done|]. right. exists c. split; [apply Hin; by left|done].
Qed.

Lemma nested_select_ok path m level parts level' :
  selects m level → buildNestedSelect entities path m level parts = Ok level' →
  selects m level' ∧ ∀ k, is_Some (obj_get k level) → is_Some (obj_get k level').
Proof.
  revert m level level'. induction parts as [|part rest IH]; intros m level level' Hl.
  { by intros [= <-]. }
  assert (∀ k x, is_Some (obj_get k level) → is_Some (obj_get k (obj_set part x level))) as Hkeep.
  { intros k x Hk. rewrite obj_get_set. by destruct (String.eqb k part). }
  destruct rest as [|part2 rest].
  - cbn [buildNestedSelect]. unfold isValidColumn.
    destruct (findColumnWithPropertyName m part) as [c|] eqn:Ec; [|done]. intros [= <-]. split; [|auto].
    apply selects_column; [done|]. left. by rewrite Ec.
  - remember (part2 :: rest) as tl. cbn [buildNestedSelect].
    assert (match tl with [] => False | _ => True end) as Htl by by subst.
    destruct tl as [|t tl']; [done|]. clear Heqtl Htl.
    destruct (findRelationWithPropertyPath m part) as [e|] eqn:Ee; [|done].
    assert (∀ target, selects (entities e) target →
      (let! target' := buildNestedSelect entities path (entities e)
         (add_columns (if (2 <=? length (t :: tl'))%nat then columns (entities e)
                       else primaryColumns (entities e)) target) (t :: tl') in
       Ok (obj_set part (SObj target') level)) = Ok level' →
      selects m level' ∧ ∀ k, is_Some (obj_get k level) → is_Some (obj_get k level')) as Hdescend.
    { intros target Htarget H. res_inv H. injection H as <-.
      apply IH in Ha as [Ha _]; [split; [by apply (selects_relation m level part e)|auto]|].
      apply selects_add_columns; [|done]. intros c Hc. apply elem_of_app.
      destruct (2 <=? length (t :: tl'))%nat; auto. }
    destruct (obj_get part level) as [[|o]|] eqn:Eo.
    + by apply IH.
    + apply Hdescend. inversion Hl as [? ? _ Hr]; subst. destruct (Hr part o Eo) as (e' & He' & ?).
      congruence.
    + apply Hdescend, selects_nil.
Qed.

Lemma fields_ok fields s0 s :
  selects (metadata entities root) s0 →
  res_fold (λ select fieldPath,
    if negb (str_includes fieldPath ".") then
      if isValidColumn (metadata entities root) fieldPath then Ok (obj_set fieldPath STrue select)
      else Throw (invalid "fields" ("Invalid column: '" +:+ fieldPath +:+ "'"))
    else buildNestedSelect entities fieldPath (metadata entities root) select (split "." fieldPath))
    s0 fields = Ok s →
  selects (metadata entities root) s ∧
  (∀ k, is_Some (obj_get k s0) → is_Some (obj_get k s)) ∧
  ∀ f, f ∈ fields → str_includes f "." = false → is_Some (obj_get f s).
Proof.
  revert s0. induction fields as [|f fields IH]; intros s0 Hs0; cbn [res_fold].
  { intros [= <-]. split_and!; [done|done|by intros ? ?%elem_of_nil]. }
  destruct (str_includes f ".") eqn:Hd; cbn [negb].
  - intros H. res_inv H. apply nested_select_ok in Ha as [Hs1 Hk1]; [|done].
    destruct (IH _ Hs1 H) as (Hs & Hk & Hf). split_and!; [done|auto|].
    intros f' [->|?]%elem_of_cons; [congruence|auto].
  - unfold isValidColumn. destruct (findColumnWithPropertyName _ f) as [c|] eqn:Ec; [|done].
    cbn [res_bind]. intros H.
    destruct (IH (obj_set f STrue s0)) as (Hs & Hk & Hf); [|done|].
    { apply selects_column; [done|]. left. by rewrite Ec. }
    split_and!; [done| |].
    + intros k Hk0. apply Hk. rewrite obj_get_set. by destruct (String.eqb k f).
    + intros f' [->|?]%elem_of_cons; [|auto]. intros _. apply Hk. by rewrite obj_get_set, String.eqb_refl.
Qed.

Lemma add_primary_spec requested f :
  f ∈ requested ∨ f ∈ List.map propertyName (primaryColumns (metadata entities root)) →
  f ∈ add_primary entities root requested.
Proof.
  unfold add_primary. generalize (List.map propertyName (primaryColumns (metadata entities root))).
  intros pks. revert requested. induction pks as [|pk pks IH]; intros requested; cbn [foldl].
  { intros [?|?%elem_of_nil]; done. }
  rewrite elem_of_cons. intros Hf. apply IH. destruct (includes requested pk) eqn:Hi.
  - apply includes_true in Hi. naive_solver.
  - rewrite elem_of_app, list_elem_of_singleton. naive_solver.
Qed.
End fields.

(** ** What a successful build has checked *)

Section checked.
Context (entities : string → entity_metadata) (root : string).
Context (JSON_parse : string → option jsv)
        (dayjs_isValid : string → bool) (dayjs_toISOString : string → result string)
        (tz_toISOString tz_startOfDay tz_endOfDay : string → string → result string).
Context (q : QueryParamsDTO).
Abbreviation builds := (build entities root JSON_parse dayjs_isValid dayjs_toISOString tz_toISOString
  tz_startOfDay tz_endOfDay q).
Abbreviation reads := (reads entities root JSON_parse dayjs_isValid dayjs_toISOString tz_toISOString
  tz_startOfDay tz_endOfDay q).

Lemma filters_known w n rd :
  applyFilters entities root JSON_parse dayjs_isValid dayjs_toISOString tz_toISOString tz_startOfDay
    tz_endOfDay q 0%nat = Ok (w, n) → reads rd →
  ∀ f, f ∈ constrained_fields rd → known_field entities root f.
Proof.
  unfold applyFilters, bind. intros H (Hs & Hf & Ho & _).
  res_inv H. destruct a as [o1 n1]. res_inv H. destruct a as [o2 n2]. res_inv H. destruct a as [o3 n3]. clear H.
  unfold constrained_fields. intros f. rewrite !elem_of_app. intros [Hin|[Hin|Hin]].
  - revert Ha. unfold parseSearchParameter, search_entries, buildSearchWhereClause, bind, lift in *.
    assert (∀ sp, parseSearchConditions JSON_parse sp = Ok (rd_search rd) →
      match (let! (a, n') := (let! a := parseSearchConditions JSON_parse sp in Ok (a, 0%nat)) in
        let! (a0, n'0) := (let! a0 := validateFieldNamesRecursive entities root (obj_keys a) in Ok (a0, n')) in
        fold_b (search_step entities root dayjs_isValid dayjs_toISOString tz_toISOString tz_startOfDay
          tz_endOfDay q) [] a n'0)
      with Throw e => Throw (if is_invalid_parameter e then e else invalid_search) | r => r end
      = Ok (o1, n1) → known_field entities root f) as Hparse.
    { intros sp ->. cbn [res_bind].
      destruct (validateFieldNamesRecursive entities root (obj_keys (rd_search rd))) as [[]|] eqn:E; [|done].
      intros _. by apply (proj1 (validate_fields_spec _ _ _)) with (f := f) in E. }
    destruct (q_s q); 
      try (injection Hs as Hs; rewrite <- Hs in Hin; by apply elem_of_nil in Hin); by apply Hparse.
  - unfold parseFilterParameter, bind, lift in Ha0.
    destruct (normalizeInput (q_filter q)) as [|x l]; 
      [injection Hf as Hf; rewrite <- Hf in Hin; by apply elem_of_nil in Hin|].
    rewrite Hf in Ha0. cbn [res_bind] in Ha0. res_inv Ha0. res_inv Ha. destruct a as [[] n0].
    destruct (validateFieldNamesRecursive entities root (List.map f_field (rd_filter rd))) as [[]|] eqn:E; [|done].
    by apply (proj1 (validate_fields_spec _ _ _)) with (f := f) in E.
  - unfold parseOrParameter, bind, lift in Ha1.
    destruct (normalizeInput (q_or q)) as [|x l]; 
      [injection Ho as Ho; rewrite <- Ho in Hin; by apply elem_of_nil in Hin|].
    rewrite Ho in Ha1. cbn [res_bind] in Ha1. res_inv Ha1. destruct a as [[] n0].
    destruct (validateFieldNamesRecursive entities root (List.map f_field (rd_or rd))) as [[]|] eqn:E; [|done].
    by apply (proj1 (validate_fields_spec _ _ _)) with (f := f) in E.
Qed.
Lemma sort_keys parsed (o : list (string * direction)) k :
  k ∈ obj_keys (foldl (λ o p, match p with (Some key, d) => obj_set key d o | (None, _) => o end) o parsed) ↔
  k ∈ obj_keys o ∨ k ∈ omap fst (parsed : list (option string * direction)).
Proof.
  revert o. induction parsed as [|[[key|] d] parsed IH]; intros o; cbn [foldl].
  - change (omap fst []) with (@nil string). rewrite elem_of_nil. tauto.
  - rewrite IH, obj_keys_set. cbn. rewrite elem_of_cons. tauto.
  - rewrite IH. cbn. tauto.
Qed.
Lemma sorting_known o :
  applySorting entities root q = Ok (Some o) → ∀ k, k ∈ obj_keys o → known_field entities root k.
Proof.
  unfold applySorting. destruct (q_sort q) as [| | | |s| |]; try done. destruct s as [|c s]; [done|].
  unfold parseSortString. generalize (List.map parseSortField (split "," (String c s))). intros parsed H.
  destruct (validateFieldNamesRecursive entities root (omap fst parsed)) as [[]|] eqn:E; [|done].
  injection H as <-. intros k [Hk|Hk]%sort_keys; [by apply elem_of_nil in Hk|].
  by apply (proj1 (validate_fields_spec _ _ _)) with (f := k) in E.
Qed.

(** Every name a built query mentions exists: the filtered, searched and
    sorted fields are columns of the entity, columns reached through relations
    or paths into a JSONB column; a selection names only columns and relations
    at every level and always has the primary key. *)
Theorem only_known_fields env allowed opts :
  builds env allowed = Ok opts →
  (∀ rd, reads rd → ∀ f, f ∈ constrained_fields rd → known_field entities root f) ∧
  (∀ o, order opts = Some o → ∀ k, k ∈ obj_keys o → known_field entities root k) ∧
  (∀ s, select opts = Some s → selects entities (metadata entities root) s ∧
     ∀ c, c ∈ primaryColumns (metadata entities root) → str_includes (propertyName c) "." = false →
       is_Some (obj_get (propertyName c) s)).
Proof.
  intros (_ & Hsort & (w & n & Hf & _) & _ & Hsel)%build_Ok. split; [|split].
  - intros rd Hrd. by eapply filters_known.
  - intros o Ho. apply sorting_known. by rewrite Hsort, Ho.
  - intros s Hs. rewrite Hs in Hsel. unfold applyFieldSelection in Hsel.
    destruct (q_fields q) as [| | | |str| |]; try done. destruct str as [|ch str]; [done|].
    res_inv Hsel. injection Hsel as <-. apply fields_ok in Ha as (H1 & _ & H2); [|apply selects_nil].
    split; [done|]. intros c Hc Hd. apply H2; [|done]. apply add_primary_spec. right.
    apply elem_of_List_map. by exists c.
Qed.

End checked.

(** Relations are loaded exactly when the endpoint allows every one of
    them; any other request for relations is a 400. *)
Theorem relations_allowed q s allowed :
  q_relations q = JStr s → s ≠ "" →
  let requested := parseCommaSeparatedValues s in
  (applyRelations q allowed = Ok (Some requested) ↔
   ∀ r, r ∈ requested → r ∈ allowed ∧ valid_relation_pattern r = true) ∧
  (∀ o, applyRelations q allowed = Ok o → o = Some requested) ∧
  (∀ e, applyRelations q allowed = Throw e → ∃ m, e = BadRequestException m).
Proof.
  intros Hq Hs requested. unfold applyRelations. rewrite Hq. destruct s as [|c s]; [done|].
  unfold validateAndParseRelations. fold requested.
  set (check := λ relation, if negb (valid_relation_pattern relation) then
      Throw (BadRequestException ("Invalid characters in requested relation: '" +:+ relation +:+ "'"))
    else if negb (includes allowed relation) then
      Throw (BadRequestException ("Relation not allowed: '" +:+ relation +:+ "'"))
    else Ok ()).
  assert (∀ r, (check r = Ok () ↔ r ∈ allowed ∧ valid_relation_pattern r = true) ∧
               ∀ e, check r = Throw e → ∃ m, e = BadRequestException m) as Hcheck.
  { intros r. unfold check. destruct (valid_relation_pattern r), (includes allowed r) eqn:Ha; cbn [negb];
      (apply includes_true in Ha || apply includes_false in Ha); split; try (by intros e [= <-]; eauto); naive_solver. }
  change (res_fold _ () requested) with (res_fold (λ _, check) () requested).
  destruct (res_fold_unit check requested) as [H1 H2].
  assert ((res_fold (λ _, check) () requested = Ok () ↔
    ∀ r, r ∈ requested → r ∈ allowed ∧ valid_relation_pattern r = true)) as Hok.
  { rewrite H1. split; intros H r Hr; by apply Hcheck, H. }
  assert (∀ e, res_fold (λ _, check) () requested = Throw e → ∃ m, e = BadRequestException m) as Hbad.
  { intros e (r & _ & Hr)%H2. by eapply Hcheck. }
  clearbody check requested. destruct allowed as [|a allowed].
  - destruct requested as [|r requested]; cbn [res_bind res_fold] in *.
    + split; [split; [by intros _ ? ?%elem_of_nil|done]|]. split; [by intros ? [= <-]|done].
    + split; [split; [done|]|split; [done|by intros e [= <-]; eauto]].
      intros H. destruct (H r) as [Hin _]; [by left|]. by apply elem_of_nil in Hin.
  - destruct (res_fold (λ _, check) () requested) as [[]|e]; cbn [res_bind].
    + split; [split; [|done]|split; [by intros ? [= <-]|done]]. intros _. by apply Hok.
    + split; [split; [done|]|split; [done|by intros ? [= <-]; auto]]. intros H. by apply Hok in H.
Qed.

(** ** The filter syntax *)

Definition no_bar (s : string) : Prop := str_forall (λ d, negb (Ascii.eqb d "|")) s = true.

Lemma split_bars a b : no_bar a → split "||" (a +:+ "||" +:+ b) = a :: split "||" b.
Proof.
  unfold no_bar, split. induction a as [|c a IH]; [done|].
  cbn [str_forall]. intros [Hc Ha]%andb_true_iff. rewrite append_cons. cbn [split_go].
  rewrite (IH Ha). unfold startsWith. cbn [drop_prefix]. apply negb_true_iff in Hc.
  rewrite Ascii.eqb_sym in Hc. by rewrite Hc.
Qed.

Lemma filter_name_spec op :
  no_bar (filter_name op) ∧ trim (filter_name op) = filter_name op ∧
  obj_get (filter_name op) FILTER_OPERATORS = Some op.
Proof. by destruct op. Qed.

Lemma parse_three field name value :
  no_bar field → no_bar name →
  parseFilterString (field +:+ "||" +:+ name +:+ "||" +:+ value)
  = if String.eqb (trim field) "" || String.eqb (trim name) "" then Ok None
    else match obj_get (trim name) FILTER_OPERATORS with
         | None => Throw (invalid (trim field)
             ("Invalid filter operator: '" +:+ trim name +:+ "'. Allowed operators are: ["
              +:+ join ", " (obj_keys FILTER_OPERATORS) +:+ "]"))
         | Some op => Ok (Some (Filter (trim field) op value))
         end.
Proof.
  intros Hf Hn. unfold parseFilterString. rewrite split_bars, split_bars by done.
  pose proof (split_not_nil "||" 0 value) as Hne. pose proof (join_split "||" value ltac:(done)) as Hj.
  unfold split in *. by destruct (split_go "||" 0 value) as [|v vs]; [|rewrite Hj].
Qed.

(** A filter [field||$op||value] is read back as exactly that field,
    operator and value, the value taken verbatim even when it contains bars; an
    operator outside the fifteen known ones is rejected, never read as equality. *)
Theorem filter_syntax field op name value :
  no_bar field → trim field = field → field ≠ "" →
  parseFilterString (field +:+ "||" +:+ filter_name op +:+ "||" +:+ value)
    = Ok (Some (Filter field op value)) ∧
  (no_bar name → trim name ≠ "" → (∀ op, trim name ≠ filter_name op) →
   ∃ m, parseFilterString (field +:+ "||" +:+ name +:+ "||" +:+ value) = Throw (invalid field m)).
Proof.
  intros Hf Ht Hne. destruct (filter_name_spec op) as (Hb & Htr & Hget).
  apply String.eqb_neq in Hne. split.
  - rewrite parse_three, Ht, Htr, Hne, Hget by done. by destruct op.
  - intros Hn Hname Hall. rewrite parse_three, Ht, Hne by done.
    apply String.eqb_neq in Hname. rewrite Hname. cbn [orb].
    destruct (obj_get (trim name) FILTER_OPERATORS) as [op'|] eqn:E; [exfalso|by eexists].
    apply obj_get_Some in E. revert E. unfold FILTER_OPERATORS. rewrite list_elem_of_In.
    cbn [List.In]. intros E. apply (Hall op').
    repeat (destruct E as [E|E]; [by injection E as <- <-|]). done.
Qed.

Lemma filter_syntax_witness :
  parseFilterString "note||$eq||a||b" = Ok (Some (Filter "note" F_eq "a||b")) ∧
  ∃ m, parseFilterString "note||$eqq||a||b" = Throw (invalid "note" m).
Proof.
  destruct (filter_syntax "note" F_eq "$eqq" "a||b" ltac:(by vm_compute) ltac:(by vm_compute) ltac:(done))
    as [H1 H2].
  split; [exact H1|]. apply H2; [by vm_compute|by vm_compute|]. intros op. by destruct op.
Defined.

(** ** JSONB conditions *)

(** What the SQL text of a condition may depend on besides the column. *)
Definition jsonb_shape (op : JsonbOperator) (value : string) : nat :=
  match op with
  | J_in => length (parseCommaSeparatedValues value)
  | J_eq | J_ne => if String.eqb value "" then 0 else 1
  | J_isnull | J_notnull => if String.eqb (toLowerCase value) "false" then 0 else 1
  | _ => 0
  end.

Lemma numbered_names prefix l l' :
  length l = length l' → List.map fst (numbered prefix l) = List.map fst (numbered prefix l').
Proof.
  unfold numbered. enough (∀ f : nat → string, length l = length l' →
    List.map fst (imap (λ i s, (f i, s)) l) = List.map fst (imap (λ i (s : string), (f i, s)) l')) as H
    by exact (H (λ i, prefix +:+ string_of_nat i)).
  revert l'. induction l as [|s l IH]; intros [|s' l'] f; try done. cbn. intros [= Hl].
  f_equal. by apply (IH l' (f ∘ S)).
Qed.
Lemma numbered_values prefix l : List.map snd (numbered prefix l) = l.
Proof.
  unfold numbered.
  enough (∀ f : nat → string, List.map snd (imap (λ i s, (f i, s)) l) = l) as H
    by exact (H (λ i, prefix +:+ string_of_nat i)).
  induction l as [|s l IH]; intros f; [done|]. cbn. f_equal. apply (IH (f ∘ S)).
Qed.
Lemma placeholders_names params params' :
  List.map fst params = List.map fst params' → placeholders params = placeholders params'.
Proof.
  unfold placeholders. intros H. rewrite <- (map_map fst (λ k, ":" +:+ k)), H. by rewrite map_map.
Qed.

(** No text of the request becomes SQL: the SQL of a JSONB condition is the
    same for all paths of one length and all values of one shape, and the path
    and the value reach the database only as bound parameters. *)
Theorem jsonb_sql_fixed n column op path path' value value' :
  length path = length path' → jsonb_shape op value = jsonb_shape op value' →
  ∃ sql params params',
    jsonb_condition n column path op value = Raw sql params ∧
    jsonb_condition n column path' op value' = Raw sql params' ∧
    List.map fst params = List.map fst params' ∧
    (params ≠ [] → List.firstn (length path) (List.map snd params) = path).
Proof.
  intros Hpath Hshape.
  set (prefix := "jsonb_" +:+ string_of_nat n +:+ "_").
  pose proof (numbered_names (prefix +:+ "p") path path' Hpath) as Hnames.
  pose proof (placeholders_names _ _ Hnames) as Hph.
  assert (∀ ps : list (string * string),
    List.firstn (length path) (List.map snd (numbered (prefix +:+ "p") path ++ ps)) = path) as Hvals.
  { intros ps. rewrite map_app, numbered_values, firstn_app, Nat.sub_diag, firstn_all. apply app_nil_r. }
  unfold jsonb_condition. fold prefix. rewrite <- Hph.
  destruct op; cbn [jsonb_shape] in Hshape. 7: {
    destruct (parseCommaSeparatedValues value) as [|v vs], (parseCommaSeparatedValues value') as [|v' vs'];
      try done.
    - do 3 eexists. by split_and!.
    - rewrite (placeholders_names _ _ (numbered_names (prefix +:+ "i") (v :: vs) (v' :: vs') Hshape)).
      do 3 eexists. split_and!; [reflexivity|reflexivity| |by intros _].
      rewrite !map_app, Hnames. f_equal. by apply numbered_names. }
  all: destruct (String.eqb value ""), (String.eqb value' "");
    destruct (String.eqb (toLowerCase value) "false"), (String.eqb (toLowerCase value') "false");
    try done;
    (do 3 eexists; split_and!; [reflexivity|reflexivity|by rewrite !map_app, Hnames|by intros _]).
Qed.

Lemma jsonb_sql_fixed_witness :
  ∃ sql params params',
    jsonb_condition 0 "meta" ["tag"] J_eq "x" = Raw sql params ∧
    jsonb_condition 0 "meta" ["'] OR 1=1 --"] J_eq "'; DROP" = Raw sql params' ∧
    List.map fst params = List.map fst params' ∧
    (params ≠ [] → List.firstn 1 (List.map snd params) = ["tag"]).
Proof. apply (jsonb_sql_fixed 0 "meta" J_eq ["tag"] ["'] OR 1=1 --"] "x" "'; DROP"); reflexivity. Defined.

(** ** Two conditions that are lost *)

Section lost.
Context (entities : string → entity_metadata) (root : string).
Context (JSON_parse : string → option jsv)
        (dayjs_isValid : string → bool) (dayjs_toISOString : string → result string)
        (tz_toISOString tz_startOfDay tz_endOfDay : string → string → result string).
Context (q : QueryParamsDTO).

(** An [or] condition on a JSONB column without a path is dropped by leaving
    its alternative empty, which every row meets: the whole [or] clause then
    restricts nothing. *)
Theorem or_bare_jsonb_matches_all {Row : Type} (holds : Row → list string → wval → Prop)
    env allowed opts rd f :
  q_s q = JUndefined → q_filter q = JUndefined → q_exclude_ids q = JUndefined →
  build entities root JSON_parse dayjs_isValid dayjs_toISOString tz_toISOString tz_startOfDay
    tz_endOfDay q env allowed = Ok opts →
  reads entities root JSON_parse dayjs_isValid dayjs_toISOString tz_toISOString tz_startOfDay
    tz_endOfDay q rd →
  f ∈ rd_or rd → bare_jsonb entities root f →
  ∀ r, sat_where holds r (where_ opts).
Proof.
  intros Hs Hf Hx (_ & _ & (w & n & Hw & ->) & _)%build_Ok Hrd Hin Hbare r.
  apply applyFilters_Ok in Hw as (rd' & Hrd' & ->). rewrite (reads_det _ _ _ _ _ _ _ _ _ _ _ Hrd Hrd') in Hin.
  pose proof (bare_in_or _ _ _ _ _ _ _ _ _ _ _ Hrd' Hin Hbare) as Hnone.
  destruct Hrd' as (Hse & Hfe & _ & n1 & n2 & n3 & M1 & M2 & M3).
  unfold search_entries in Hse. rewrite Hs in Hse. injection Hse as Hse. rewrite <- Hse in *.
  rewrite Hf in Hfe. injection Hfe as Hfe. rewrite <- Hfe in M2. injection M2 as <- _.
  unfold applyExclusions, excludeIds. rewrite Hx. cbn [obj_keys fmap list_fmap zip_with place_all foldl].
  assert ([] ∈ List.map (λ c, transformNullValues (as_obj c)) (rd_ocs rd')) as Hnil.
  { apply elem_of_List_map. by exists None. }
  destruct (rd_ocs rd') as [|oc ocs]; [by apply elem_of_nil in Hnil|]. by exists [].
Qed.
End lost.

Definition bare_query : QueryParamsDTO :=
  Query JUndefined JUndefined JUndefined JUndefined JUndefined JUndefined
    (JArr [JStr "meta||$eq||x"; JStr "status||$eq||open"]) JUndefined JUndefined None JUndefined.

Lemma or_bare_jsonb_matches_all_witness :
  ∃ opts, sample_build bare_query = Ok opts ∧ ∀ r, sat_where sample_holds r (where_ opts).
Proof.
  destruct (sample_build bare_query) as [opts|e] eqn:E; [|vm_compute in E; discriminate E].
  exists opts. split; [reflexivity|].
  apply (or_bare_jsonb_matches_all sample_entities "task" no_json (λ _, false) Ok (λ _ s, Ok s)
    (λ _ s, Ok s) (λ _ s, Ok s) bare_query sample_holds JUndefined ["owner"] opts
    (Reading [] [] [Filter "meta" F_eq "x"; Filter "status" F_eq "open"] [] []
       [None; Some (["status"], WVal (JStr "open"))]) (Filter "meta" F_eq "x") eq_refl eq_refl eq_refl E).
  - unfold reads. split; [reflexivity|]. split; [by vm_compute|]. split; [by vm_compute|].
    exists 0%nat, 0%nat, 0%nat. split; [reflexivity|]. split; by vm_compute.
  - by left.
  - by split; vm_compute.
Defined.

(** An empty search value means IS NULL, but not once the same column has
    another condition: the two are merged first, and the value is then compared
    as a text. *)
Theorem merged_empty_value :
  let s := JObj [("name", JStr "")] in
  let query filter := Query JUndefined JUndefined JUndefined JUndefined s filter JUndefined JUndefined
                        JUndefined None JUndefined in
  (∃ opts, sample_build (query JUndefined) = Ok opts ∧ where_ opts = One [("name", IsNull)]) ∧
  (∃ opts, sample_build (query (JStr "name||$ne||x")) = Ok opts ∧
     where_ opts = One [("name", And [Equal (WVal (JStr "")); Not (WVal (JStr "x"))])]).
Proof.
  split; (match goal with |- ∃ _, ?b = _ ∧ _ =>
    destruct b as [opts|e] eqn:E; [|vm_compute in E; discriminate E] end;
    exists opts; split; [reflexivity|]; vm_compute in E; by injection E as <-).
Qed.

(** ** Witnesses *)

Definition relations_query : QueryParamsDTO :=
  Query JUndefined JUndefined JUndefined (JStr "name:desc") JUndefined JUndefined JUndefined
    (JStr "owner") (JStr "name,owner.email") None JUndefined.

Lemma only_known_fields_witness :
  ∃ opts s, sample_build relations_query = Ok opts ∧ select opts = Some s ∧
    selects sample_entities (metadata sample_entities "task") s ∧ is_Some (obj_get "id" s).
Proof.
  destruct (sample_build relations_query) as [opts|e] eqn:E; [|vm_compute in E; discriminate E].
  destruct (only_known_fields sample_entities "task" no_json (λ _, false) Ok (λ _ s, Ok s)
    (λ _ s, Ok s) (λ _ s, Ok s) relations_query JUndefined ["owner"] opts E) as (_ & _ & H).
  destruct (select opts) as [s|] eqn:Es; [|vm_compute in E; injection E as <-; discriminate Es].
  exists opts, s. split; [reflexivity|]. split; [exact Es|]. destruct (H s eq_refl) as [H1 H2]. split; [exact H1|].
  apply (H2 (Column "id" "uuid" None)); [by left|reflexivity].
Defined.

Lemma relations_allowed_witness :
  ∃ m, applyRelations (Query JUndefined JUndefined JUndefined JUndefined JUndefined JUndefined JUndefined
         (JStr "owner,secrets") JUndefined None JUndefined) ["owner"] = Throw (BadRequestException m).
Proof.
  destruct (relations_allowed (Query JUndefined JUndefined JUndefined JUndefined JUndefined JUndefined
    JUndefined (JStr "owner,secrets") JUndefined None JUndefined) "owner,secrets" ["owner"] eq_refl
    ltac:(done)) as (_ & _ & H).
  destruct (H _ eq_refl) as [m Hm]. exists m. exact (f_equal Throw Hm).
Defined.
