(* ===== verification/BaseService.v ===== *)
(** * The generic service: writes

    Model of the write side of [BaseServiceOperations]
    (src/libs/common/src/utils/base-operations/base-service-operations.util.ts),
    which every CRUD service extends: create, update with its one-to-many
    children and many-to-many links, delete, and the bulk operations.  The read
    side is in Listing.v, the error wrapper in DbErrors.v.

    A row is the columns of [BaseEntity] and the entity's own columns [F].
    What TypeORM does with a DTO is [assign], the columns the DTO gives replacing
    those of the row; what the table's constraints refuse is [violates].  The id
    the database would generate for a new row comes with the request. *)

From S2P Require Import Prelude JsString Repo DbErrors.
#[local] Open Scope string_scope.

(** ** Rows *)

(** [BaseEntity]; the creation and update times, which TypeORM keeps, are left
    out. *)
Record base_row (F : Type) := BaseRow {
  id : string;
  cols : F;
  created_by : option string;
  updated_by : option string;
  is_deleted : bool;
  deleted_reason : option string;
  row_deleted_at : option Z;
  deleted_by : option string;
}.
Arguments BaseRow {F}. Arguments id {F}. Arguments cols {F}. Arguments created_by {F}.
Arguments updated_by {F}. Arguments is_deleted {F}. Arguments deleted_reason {F}.
Arguments row_deleted_at {F}. Arguments deleted_by {F}.

#[export] Instance base_row_entity F : Entity (base_row F) := { pk := id; deleted_at := row_deleted_at }.

(** [softDeleteFilter], as TypeORM evaluates it. *)
Definition live_row {F} (r : base_row F) : bool := negb (is_deleted r) && not_deleted r.

Definition set_creator {F} (user : option current_user) (r : base_row F) : base_row F :=
  match user with
  | None => r
  | Some u => BaseRow (id r) (cols r) (user_id u) (user_id u) (is_deleted r) (deleted_reason r)
                (row_deleted_at r) (deleted_by r)
  end.
Definition set_updater {F} (user : option current_user) (r : base_row F) : base_row F :=
  match user with
  | None => r
  | Some u => BaseRow (id r) (cols r) (created_by r) (user_id u) (is_deleted r) (deleted_reason r)
                (row_deleted_at r) (deleted_by r)
  end.
(** [{ is_deleted: true, deleted_at: new Date(), deleted_by?, deleted_reason? }] *)
Definition stamp_deleted {F} (now : Z) (user : option current_user) (reason : option string)
    (r : base_row F) : base_row F :=
  BaseRow (id r) (cols r) (created_by r) (updated_by r) true
    (match reason with Some m => Some m | None => deleted_reason r end) (Some now)
    (match user with Some u => user_id u | None => deleted_by r end).
Definition with_cols {F} (f : F → F) (r : base_row F) : base_row F :=
  BaseRow (id r) (f (cols r)) (created_by r) (updated_by r) (is_deleted r) (deleted_reason r)
    (row_deleted_at r) (deleted_by r).
(** [repo.create(data)] of data without an id. *)
Definition make_row {F} (fresh : string) (c : F) : base_row F :=
  BaseRow fresh c None None false None None None.

(** [_extractUserId]: a session without id counts as no user. *)
Definition extractUserId (user : option current_user) : option current_user :=
  match user with
  | Some (UserSession None) => None
  | _ => user
  end.

Definition id_in {F} (ids : list string) (r : base_row F) : bool := includes ids (id r).

Definition not_found (tableName k : string) : exn :=
  NotFoundException (tableName +:+ " with ID '" +:+ k +:+ "' not found.").

(** A statement's result, unless a constraint of the table refuses it. *)
Definition write {X} (violates : X → option driver_error) (t : X) : result X :=
  match violates t with
  | Some err => Throw (QueryFailedError err)
  | None => Ok t
  end.

(** ** One table *)
Section service.
Context {T : Type → Type} `{Database T} {F D : Type}.
Context (tableName : string) (blank : F) (assign : D → F → F)
        (violates : T (base_row F) → option driver_error).
Abbreviation row := (base_row F).
Abbreviation write := (write violates).

(** *** Create *)

Definition createEntity (user : option current_user) (data : string * D) (t : T row) : result (row * T row) :=
  let e := set_creator user (make_row data.1 (assign data.2 blank)) in
  let! t' := write (db_insert e t) in
  Ok (e, t').
Definition create (user : option current_user) (data : string * D) (t : T row) : result (row * T row) :=
  ExecuteDb.executeDbOperation tableName (createEntity user data t).

Definition insert_all (es : list row) (t : T row) : T row := foldl (λ t e, db_insert e t) t es.

Definition createBulkEntities (user : option current_user) (dataArray : list (string * D)) (t : T row) :
    result (list row * T row) :=
  let entities := List.map (λ data, set_creator user (make_row data.1 (assign data.2 blank))) dataArray in
  let! t' := write (insert_all entities t) in
  Ok (entities, t').
Definition createBulk (user : option current_user) (dataArray : list (string * D)) (t : T row) :
    result (list row * T row) :=
  match dataArray with
  | [] => Ok ([], t)
  | _ => ExecuteDb.executeDbOperation tableName (createBulkEntities user dataArray t)
  end.

(** *** Read by id *)

Definition findEntityById (k : string) (t : T row) : option row :=
  repo_findOne (λ r, has_pk k r && negb (is_deleted r)) t.
Definition findById (k : string) (t : T row) : result row :=
  match findEntityById k t with
  | Some e => Ok e
  | None => Throw (not_found tableName k)
  end.

(** *** Update of the columns

    [update] when the DTO names no relation (see [update_plain]). *)
Definition updateColumns (user : option current_user) (k : string) (data : D) (t : T row) :
    result (row * T row) :=
  ExecuteDb.executeDbOperation tableName
    match repo_findById k t with
    | None => Throw (not_found tableName k)
    | Some e =>
        let saved := set_updater user (with_cols (assign data) e) in
        let! t' := write (repo_save saved t) in
        Ok (saved, t')
    end.

(** *** Delete *)

Definition deleteEntity (now : Z) (k : string) (softDelete : bool) (user : option current_user) (t : T row) :
    result (nat * T row) :=
  let '(t', affected) :=
    if softDelete then db_update (has_pk k) (stamp_deleted now user None) t
    else db_delete (has_pk k) t in
  let! t'' := write t' in
  Ok (affected, t'').
Definition delete (now : Z) (k : string) (softDelete : bool) (user : option current_user) (t : T row) :
    result (T row) :=
  let! (affected, t') := ExecuteDb.executeDbOperation tableName (deleteEntity now k softDelete user t) in
  if (affected =? 0)%nat then Throw (not_found tableName k) else Ok t'.

Definition deleteBulkEntities (now : Z) (ids : list string) (softDelete : bool)
    (user : option current_user) (reason : option string) (t : T row) : result (nat * T row) :=
  let '(t', affected) :=
    if softDelete then db_update (λ r, id_in ids r && live_row r) (stamp_deleted now user reason) t
    else db_delete (id_in ids) t in
  let! t'' := write t' in
  Ok (affected, t'').

Record delete_report := DeleteReport { deleted_count : nat; soft_delete : bool }.
Definition deleteBulk (now : Z) (ids : list string) (softDelete : bool) (user : option current_user)
    (t : T row) : result (delete_report * T row) :=
  match ids with
  | [] => Ok (DeleteReport 0 softDelete, t)
  | _ =>
      let! (affected, t') := ExecuteDb.executeDbOperation tableName
        (deleteBulkEntities now ids softDelete user None t) in
      Ok (DeleteReport affected softDelete, t')
  end.

(** *** Reconcile a set of rows

    [filter] both selects rows and fixes columns of the new ones. *)
Record scope := Scope { s_matches : row → bool; s_assign : F → F }.
(** An element of the request: its id, or the id a new row would get. *)
Record bulk_item := BulkItem { b_id : option string; b_fresh : string; b_data : D }.

Definition fetchExistingEntities (filter : scope) (t : T row) : list row :=
  repo_find (λ r, s_matches filter r && negb (is_deleted r)) t.

Definition categorizeIncomingData (dataArray : list bulk_item) :
    list bulk_item * list (string * bulk_item) * list string :=
  (List.filter (λ i, match b_id i with None => true | _ => false end) dataArray,
   omap (λ i, (., i) <$> b_id i) dataArray,
   omap b_id dataArray).

Definition processCreates (filter : scope) (userId : option current_user) (toCreate : list bulk_item) :
    list row :=
  List.map (λ i, set_creator userId (make_row (b_fresh i) (s_assign filter (assign (b_data i) blank)))) toCreate.

(** An update that found its row: the loaded row and the change to make. *)
Definition updated (userId : option current_user) (i : bulk_item) (r : row) : row :=
  set_updater userId (with_cols (assign (b_data i)) r).
Definition processUpdates (t : T row) (userId : option current_user) (toUpdate : list (string * bulk_item)) :
    list (row * bulk_item) :=
  omap (λ '(k, i), (., i) <$> repo_findById k t) toUpdate.

Definition processDeletes (now : Z) (user : option current_user) (idsToDelete : list string) (t : T row) :
    result (T row) :=
  match idsToDelete with
  | [] => Ok t
  | _ =>
      let! (_, t') := deleteBulkEntities now idsToDelete true user (Some "delete with bulk reconcile") t in
      Ok t'
  end.

(** [save] writes the columns in which an entity differs from its row. *)
Definition save_updates (userId : option current_user) (ups : list (row * bulk_item)) (t : T row) : T row :=
  foldl (λ t '(r, i), (db_update (has_pk (id r)) (updated userId i) t).1) t ups.

Definition updateBulkEntities (now : Z) (dataArray : list bulk_item) (filter : scope)
    (user : option current_user) (skipDelete : bool) (t : T row) : result (list row * T row) :=
  let userId := extractUserId user in
  let existingEntities := if skipDelete then [] else fetchExistingEntities filter t in
  let '(toCreate, toUpdate, incomingIds) := categorizeIncomingData dataArray in
  let idsToDelete := if skipDelete then []
    else List.map id (List.filter (λ e, negb (id_in incomingIds e)) existingEntities) in
  let createdEntities := processCreates filter userId toCreate in
  let updatedEntities := processUpdates t userId toUpdate in
  let! t1 := processDeletes now user idsToDelete t in
  let saved := (createdEntities ++ List.map (λ '(r, i), updated userId i r) updatedEntities)%list in
  match saved with
  | [] => Ok ([], t1)
  | _ =>
      let! t2 := write (save_updates userId updatedEntities (insert_all createdEntities t1)) in
      Ok (saved, t2)
  end.
Definition updateBulk (now : Z) (updates : list bulk_item) (filter : scope)
    (user : option current_user) (skipDelete : bool) (t : T row) : result (list row * T row) :=
  match updates with
  | [] => Ok ([], t)
  | _ => ExecuteDb.executeDbOperation tableName (updateBulkEntities now updates filter user skipDelete t)
  end.
End service.

(** The live row of a key is found. *)
Lemma findById_live {T : Type → Type} `{DatabaseLaws T} {F} (tableName : string) (t : T (base_row F)) (r : base_row F) :
  NoDup (id <$> rows t) → r ∈ rows t → is_deleted r = false → row_deleted_at r = None →
  findById tableName (id r) t = Ok r.
Proof.
  intros Hids Hr Hdel Hd. unfold findById, findEntityById.
  assert (has_pk (id r) r && negb (is_deleted r) = true) as Hp by by rewrite andb_true_iff, has_pk_true, negb_true_iff.
  destruct (repo_findOne _ t) as [r'|] eqn:E.
  - apply repo_findOne_Some in E as (Hr' & Hp' & _). rewrite andb_true_iff, has_pk_true in Hp'. destruct Hp' as [Hk _].
    f_equal. by apply (NoDup_fmap_elem_inj id (rows t)).
  - by destruct (repo_findOne_None _ _ E r Hr Hp).
Qed.

(** A row read by id is live and has the id. *)
Lemma findEntityById_Some {T : Type → Type} `{DatabaseLaws T} {F} (k : string) (t : T (base_row F)) (r : base_row F) :
  findEntityById k t = Some r → r ∈ rows t ∧ id r = k ∧ is_deleted r = false ∧ row_deleted_at r = None.
Proof.
  unfold findEntityById. intros (Hr & Hp & Hd)%repo_findOne_Some. rewrite andb_true_iff, has_pk_true, negb_true_iff in Hp.
  by destruct Hp.
Qed.
Lemma findById_Ok {T : Type → Type} `{DatabaseLaws T} {F} (tableName k : string) (t : T (base_row F)) (r : base_row F) :
  findById tableName k t = Ok r → r ∈ rows t ∧ id r = k ∧ is_deleted r = false ∧ row_deleted_at r = None.
Proof.
  unfold findById. destruct (findEntityById k t) as [r'|] eqn:E; [|done]. intros [= ->]. by apply findEntityById_Some.
Qed.

(** ** Update, with children and links

    A one-to-many relation has its children in a table of their own, a
    many-to-many relation its pairs in a junction table; both are indexed here
    by the relation's property name. *)

(** What [metadata.relations] says of a relation: a one-to-many has the foreign
    key column of the inverse side, if there is one. *)
Inductive relation_kind := OneToMany (foreignKey : bool) | ManyToMany (isOwning hasSoftDelete : bool) | ToOne.
Record relation := Relation { rel_name : string; rel_kind : relation_kind }.
Definition isOneToMany (r : relation) : bool := match rel_kind r with OneToMany _ => true | _ => false end.
Definition isOwningManyToMany (r : relation) : bool :=
  match rel_kind r with ManyToMany o _ => o | _ => false end.

(** A child row holds the parent's id in its foreign key. *)
Record child_cols (C : Type) := ChildCols { fk : option string; own : C }.
Arguments ChildCols {C}. Arguments fk {C}. Arguments own {C}.

(** An element of a relation in the request. *)
Record rel_item (D : Type) := Item { i_id : option string; i_fresh : string; i_data : D }.
Arguments Item {D}. Arguments i_id {D}. Arguments i_fresh {D}. Arguments i_data {D}.

(** The DTO: the id it may carry, the columns, and the properties named after
    relations, [None] when the property is not an array. *)
Record update_data (D CD : Type) := UpdateData {
  d_id : option string; d_cols : D; d_relations : list (string * option (list (rel_item CD)));
}.
Arguments UpdateData {D CD}. Arguments d_id {D CD}. Arguments d_cols {D CD}. Arguments d_relations {D CD}.

Record IUpdateOptions := UpdateOptions { hardDeleteOneToMany : bool; softDeleteOneToMany : bool }.
(** [new IUpdateOptions(options)], the options present overriding the defaults. *)
Definition resolve_options (options : option (option bool * option bool)) : IUpdateOptions :=
  match options with
  | None => UpdateOptions false true
  | Some (hard, soft) => UpdateOptions (default false hard) (default true soft)
  end.

Fixpoint lookup_property {A} (k : string) (o : list (string * A)) : option A :=
  match o with
  | [] => None
  | (k', a) :: o' => if String.eqb k k' then Some a else lookup_property k o'
  end.
Fixpoint fold_r {S A} (f : S → A → result S) (s : S) (l : list A) : result S :=
  match l with
  | [] => Ok s
  | a :: l' => let! s' := f s a in fold_r f s' l'
  end.

Section update.
Context {T : Type → Type} `{Database T} {F D C CD : Type}.
Abbreviation row := (base_row F).
Abbreviation child := (base_row (child_cols C)).
Abbreviation link := (string * string)%type.
Context (tableName : string) (relations : list relation)
        (assign : D → F → F) (child_blank : C) (child_assign : CD → C → C).
Context (violates : T row → option driver_error)
        (child_violates : string → T child → option driver_error)
        (link_violates : string → T link → option driver_error).

(** The tables a transaction of [update] works on: [children] of the
    one-to-many relations, and [targets] and [links] of the many-to-many. *)
Record database := DB {
  self : T row;
  children : string → T child;
  targets : string → T child;
  links : string → T link;
}.
Definition set_self (t : T row) (db : database) : database :=
  DB t (children db) (targets db) (links db).
Definition set_children (n : string) (t : T child) (db : database) : database :=
  DB (self db) (λ m, if String.eqb m n then t else children db m) (targets db) (links db).
Definition set_links (n : string) (t : T link) (db : database) : database :=
  DB (self db) (children db) (targets db) (λ m, if String.eqb m n then t else links db m).

(** [childRepo.save(children)]: the row with the item's id is updated, or a row
    is inserted; the saved object has its id set. *)
Definition item_id (i : rel_item CD) : string := default (i_fresh i) (i_id i).
Definition child_update (k : string) (i : rel_item CD) : child → child :=
  with_cols (λ c, ChildCols (Some k) (child_assign (i_data i) (own c))).
Definition save_child (k : string) (t : T child) (i : rel_item CD) : T child :=
  match db_select (has_pk (item_id i)) t with
  | [] => db_insert (make_row (item_id i) (ChildCols (Some k) (child_assign (i_data i) child_blank))) t
  | _ => (db_update (has_pk (item_id i)) (child_update k i) t).1
  end.
Definition save_children (k : string) (items : list (rel_item CD)) (t : T child) : T child :=
  foldl (save_child k) t items.

Definition live_child_of (k : string) (c : child) : bool :=
  bool_decide (fk (cols c) = Some k) && negb (is_deleted c).
Definition orphan_ids (k : string) (items : list (rel_item CD)) (t : T child) : list string :=
  List.filter (λ i, negb (includes (List.map item_id items) i)) (List.map id (repo_find (live_child_of k) t)).

Definition handle_orphans (now : Z) (user : option current_user) (opts : IUpdateOptions) (k : string)
    (items : list (rel_item CD)) (t : T child) : T child :=
  if hardDeleteOneToMany opts || softDeleteOneToMany opts then
    match orphan_ids k items t with
    | [] => t
    | ids =>
        if hardDeleteOneToMany opts then (db_delete (id_in ids) t).1
        else (db_update (id_in ids) (stamp_deleted now user (Some "delete with cascade")) t).1
    end
  else t.

(** Step 6, for one relation. *)
Definition save_and_reconcile (now : Z) (k : string) (user : option current_user)
    (options : option (option bool * option bool)) (n : string) (items : list (rel_item CD)) (t : T child) :
    result (T child) :=
  let! t1 := write (child_violates n) (save_children k items t) in
  write (child_violates n) (handle_orphans now user (resolve_options options) k items t1).
Definition process_children (now : Z) (k : string) (user : option current_user)
    (options : option (option bool * option bool)) (data : update_data D CD)
    (db : database) (rel : relation) : result database :=
  match lookup_property (rel_name rel) (d_relations data), rel_kind rel with
  | Some (Some items), OneToMany true =>
      let! t := save_and_reconcile now k user options (rel_name rel) items (children db (rel_name rel)) in
      Ok (set_children (rel_name rel) t db)
  | _, _ => Ok db
  end.

(** [_syncManyToManyRelations], for one relation. *)
Definition linked (k : string) (t : T link) : list string :=
  List.map snd (db_select (λ l, String.eqb l.1 k) t).
(** [loadMany]: the related rows, without the soft-deleted ones. *)
Definition loadMany (k : string) (links : T link) (t : T child) : list child :=
  repo_find (id_in (linked k links)) t.
Definition current_ids (hasSoftDelete : bool) (k : string) (links : T link) (t : T child) : list string :=
  let rawItems := loadMany k links t in
  List.map id (if hasSoftDelete then List.filter (λ r, negb (is_deleted r)) rawItems else rawItems).
Definition new_ids (items : list (rel_item CD)) : list string :=
  omap (λ i, match i_id i with Some "" => None | x => x end) items.
Definition addAndRemove (k : string) (toAdd toRemove : list string) (t : T link) : T link :=
  foldl (λ t n, db_insert (k, n) t)
    (db_delete (λ l, String.eqb l.1 k && includes toRemove l.2) t).1 toAdd.

Definition syncOne (k : string) (data : update_data D CD) (db : database) (rel : relation) : result database :=
  match lookup_property (rel_name rel) (d_relations data), rel_kind rel with
  | Some (Some items), ManyToMany _ hasSoftDelete =>
      let currentIds := current_ids hasSoftDelete k (links db (rel_name rel)) (targets db (rel_name rel)) in
      let newIds := new_ids items in
      let toAdd := List.filter (λ n, negb (includes currentIds n)) newIds in
      let toRemove := List.filter (λ c, negb (includes newIds c)) currentIds in
      match toAdd, toRemove with
      | [], [] => Ok db
      | _, _ =>
          let! t := write (link_violates (rel_name rel))
                      (addAndRemove k toAdd toRemove (links db (rel_name rel))) in
          Ok (set_links (rel_name rel) t db)
      end
  | Some None, ManyToMany _ _ => Throw (PlainError "TypeError")
  | _, _ => Ok db
  end.

Definition updated_parent (data : update_data D CD) (user : option current_user) (e : row) : row :=
  set_updater user (with_cols (assign (d_cols data)) e).

Definition update_in_tx (now : Z) (k : string) (data : update_data D CD) (user : option current_user)
    (options : option (option bool * option bool)) (db : database) : result (row * database) :=
  let manyToManyRelations := List.filter isOwningManyToMany relations in
  let oneToManyRelations := List.filter isOneToMany relations in
  let key := default k (d_id data) in   (* [{ id, ...dataRecord }] *)
  match repo_findById key (self db) with
  | None => Throw (not_found tableName k)
  | Some e =>
      let saved := updated_parent data user e in
      let! t := write violates (repo_save saved (self db)) in
      let! db1 := fold_r (process_children now k user options data) (set_self t db) oneToManyRelations in
      let! db2 := fold_r (syncOne k data) db1 manyToManyRelations in
      let updatedRelationNames := List.filter
        (λ n, match lookup_property n (d_relations data) with Some _ => true | None => false end)
        (List.map rel_name (oneToManyRelations ++ manyToManyRelations)%list) in
      match updatedRelationNames with
      | [] => Ok (saved, db2)
      | _ => Ok (default saved (findEntityById k (self db2)), db2)
      end
  end.
Definition update now k data user options db :=
  ExecuteDb.executeDbOperation tableName (update_in_tx now k data user options db).
End update.

(** ** The effect of the writes *)
Section effects.
#[local] Open Scope list_scope.
Context {T : Type → Type} `{DatabaseLaws T} {F D : Type}.
Context (tableName : string) (blank : F) (assign : D → F → F)
        (violates : T (base_row F) → option driver_error).
Abbreviation row := (base_row F).
Implicit Types (t : T row) (r : row).

Lemma write_Ok {X} (v : X → option driver_error) (x x' : X) : write v x = Ok x' → x' = x.
Proof. unfold write. destruct (v x); [done|]. by intros [= <-]. Qed.
Lemma write_accepted {X} (v : X → option driver_error) (x x' : X) : write v x = Ok x' → x' = x ∧ v x = None.
Proof. unfold write. destruct (v x); [done|]. by intros [= <-]. Qed.
Lemma executed {A} n (m : result A) a : ExecuteDb.executeDbOperation n m = Ok a → m = Ok a.
Proof. by destruct m. Qed.

Lemma insert_all_rows (es : list row) t : rows (insert_all es t) ≡ₚ es ++ rows t.
Proof.
  unfold insert_all. revert t. induction es as [|e es IH]; intros t; [done|]. cbn [foldl].
  rewrite IH, insert_rows. symmetry. apply (Permutation_middle es (rows t) e).
Qed.

(** *** Deletion *)

(** The effect of a deletion on the rows. *)
Definition deleted_rows (now : Z) (softDelete : bool) (user : option current_user) (reason : option string)
    (p : row → bool) (l : list row) : list row :=
  if softDelete then List.map (λ r, if p r then stamp_deleted now user reason r else r) l
  else List.filter (λ r, negb (p r)) l.

Lemma not_affected (p : row → bool) t : (length (List.filter p (rows t)) =? 0)%nat = true →
  ∀ r, r ∈ rows t → p r = false.
Proof.
  intros Hl%Nat.eqb_eq r Hr. apply not_true_iff_false. intros Hp.
  assert (r ∈ List.filter p (rows t)) as Hin by by apply elem_of_List_filter.
  destruct (List.filter p (rows t)); [by apply elem_of_nil in Hin|done].
Qed.
Lemma some_affected (p : row → bool) t : (length (List.filter p (rows t)) =? 0)%nat = false →
  ∃ r, r ∈ rows t ∧ p r = true.
Proof.
  intros Hl%Nat.eqb_neq. destruct (List.filter p (rows t)) as [|r l] eqn:E; [done|].
  exists r. apply elem_of_List_filter. rewrite E. by left.
Qed.

(** A statement and its affected-rows count. *)
Lemma counted_cases (x : T row * nat) :
  match (let '(t', n) := x in let! t'' := write violates t' in Ok (n, t'')) with
  | Ok (n, t') => x = (t', n)
  | Throw e => ∃ err, e = QueryFailedError err
  end.
Proof. destruct x as [t' n]. unfold write. destruct (violates t'); cbn; eauto. Qed.

Lemma update_pair (p : row → bool) f t t' n : db_update p f t = (t', n) →
  n = length (List.filter p (rows t)) ∧ rows t' ≡ₚ List.map (λ r, if p r then f r else r) (rows t).
Proof. intros E. rewrite <- (update_affected p f), <- (update_rows p f), E. done. Qed.
Lemma delete_pair (p : row → bool) t t' n : db_delete p t = (t', n) →
  n = length (List.filter p (rows t)) ∧ rows t' ≡ₚ List.filter (λ r, negb (p r)) (rows t).
Proof. intros E. rewrite <- (delete_affected p), <- (delete_rows p), E. done. Qed.

Lemma deleteEntity_cases now k softDelete user t :
  match deleteEntity violates now k softDelete user t with
  | Ok (n, t') => n = length (List.filter (has_pk k) (rows t)) ∧
                  rows t' ≡ₚ deleted_rows now softDelete user None (has_pk k) (rows t)
  | Throw e => ∃ err, e = QueryFailedError err
  end.
Proof.
  unfold deleteEntity, deleted_rows.
  pose proof (counted_cases (if softDelete then db_update (has_pk k) (stamp_deleted now user None) t
                             else db_delete (has_pk k) t)) as Hc.
  destruct (let '(_, _) := _ in _) as [[n t']|]; [|done].
  destruct softDelete; [by apply update_pair|by apply delete_pair].
Qed.

(** *** What a completed write did *)

Lemma create_wrote user data t r t' : create tableName blank assign violates user data t = Ok (r, t') →
  r = set_creator user (make_row data.1 (assign data.2 blank)) ∧ t' = db_insert r t ∧ violates t' = None.
Proof.
  unfold create, createEntity, BaseService.write. intros Hc%executed. res_inv Hc. injection Hc as <- <-.
  destruct (violates _) eqn:Hv; [done|]. injection Ha as <-. done.
Qed.
Lemma update_wrote user k data t r t' : updateColumns tableName assign violates user k data t = Ok (r, t') →
  ∃ e, repo_findById k t = Some e ∧ r = set_updater user (with_cols (assign data) e) ∧
       t' = repo_save r t ∧ violates t' = None.
Proof.
  unfold updateColumns, BaseService.write. intros Hu%executed. destruct (repo_findById k t) as [e|]; [|done].
  res_inv Hu. injection Hu as <- <-. destruct (violates _) eqn:Hv; [done|]. injection Ha as <-. by exists e.
Qed.
Lemma delete_wrote now k softDelete user t t' : delete tableName violates now k softDelete user t = Ok t' →
  k ∈ id <$> rows t ∧ rows t' ≡ₚ deleted_rows now softDelete user None (has_pk k) (rows t) ∧ violates t' = None.
Proof.
  unfold delete. intros Hd. res_inv Hd. destruct a as [n t0]. apply executed in Ha.
  destruct (n =? 0)%nat eqn:Hn; [done|]. injection Hd as <-.
  pose proof (deleteEntity_cases now k softDelete user t) as Hc. rewrite Ha in Hc. destruct Hc as [-> Hrows]. split_and!.
  - apply some_affected in Hn as (r & Hr & Hk%has_pk_true). apply list_elem_of_fmap. by exists r.
  - done.
  - unfold deleteEntity, BaseService.write in Ha. destruct (if softDelete then _ else _) as [t1 m].
    destruct (violates t1) eqn:Hv; [done|]. by injection Ha as _ <-.
Qed.

(** A deletion answers 404 exactly when the table has no row with the id,
    otherwise (unless a constraint refuses) it marks that row or removes it and
    touches no other; the row need not be live, so deleting it again stamps it
    with the new time and user. *)
Theorem delete_spec now k softDelete user t :
  match delete tableName violates now k softDelete user t with
  | Ok t' => k ∈ id <$> rows t ∧ rows t' ≡ₚ deleted_rows now softDelete user None (has_pk k) (rows t)
  | Throw e => (e = not_found tableName k ∧ k ∉ id <$> rows t) ∨
               ∃ err, e = ExecuteDb.map_error tableName (QueryFailedError err)
  end.
Proof.
  unfold delete. pose proof (deleteEntity_cases now k softDelete user t) as Hc.
  destruct (deleteEntity violates now k softDelete user t) as [[n t']|e]; cbn.
  - destruct Hc as [-> Hrows]. destruct (_ =? 0)%nat eqn:Hn.
    + left. split; [done|]. intros (r & -> & Hr)%list_elem_of_fmap.
      pose proof (not_affected _ _ Hn r Hr) as Hno. apply not_true_iff_false in Hno.
      apply Hno. by apply has_pk_true.
    + split; [|done]. apply some_affected in Hn as (r & Hr & Hk%has_pk_true).
      apply list_elem_of_fmap. by exists r.
  - right. destruct Hc as [err ->]. by exists err.
Qed.

Lemma deleteBulkEntities_Ok now ids softDelete user reason t n t' :
  deleteBulkEntities violates now ids softDelete user reason t = Ok (n, t') →
  let p := λ r, id_in ids r && (negb softDelete || live_row r) in
  n = length (List.filter p (rows t)) ∧ rows t' ≡ₚ deleted_rows now softDelete user reason p (rows t).
Proof.
  unfold deleteBulkEntities, deleted_rows. intros E.
  pose proof (counted_cases (if softDelete
    then db_update (λ r, id_in ids r && live_row r) (stamp_deleted now user reason) t
    else db_delete (id_in ids) t)) as Hc. rewrite E in Hc.
  destruct softDelete; cbn [negb orb]; [by apply update_pair|].
  apply delete_pair in Hc as [-> Hrows].
  split; [f_equal; apply List.filter_ext; intros r; by rewrite andb_true_r|]. rewrite Hrows.
  erewrite List.filter_ext; [reflexivity|]. intros r. cbn. by rewrite andb_true_r.
Qed.
(** *** Bulk deletion *)

Definition bulk_selected (ids : list string) (r : row) : bool := id_in ids r && live_row r.

Lemma live_stamped now user reason r : live_row (stamp_deleted now user reason r) = false.
Proof. done. Qed.

Lemma filter_marked ids now user reason (l : list row) :
  List.filter (bulk_selected ids)
    (List.map (λ r, if bulk_selected ids r then stamp_deleted now user reason r else r) l) = [].
Proof.
  induction l as [|r l IH]; [done|]. cbn [List.map]. cbn [List.filter].
  destruct (bulk_selected ids r) eqn:Hr; rewrite ?Hr; [|done].
  unfold bulk_selected at 1. by rewrite live_stamped, andb_false_r.
Qed.

Lemma deleteBulk_Ok now ids user t rep t' :
  deleteBulk tableName violates now ids true user t = Ok (rep, t') →
  deleted_count rep = length (List.filter (bulk_selected ids) (rows t)) ∧
  rows t' ≡ₚ deleted_rows now true user None (bulk_selected ids) (rows t).
Proof.
  unfold deleteBulk. destruct ids as [|i ids].
  - intros [= <- <-]. unfold deleted_rows.
    split; [cbn; by induction (rows t)|]. by rewrite (map_ext _ (λ r, r)), map_id.
  - intros H'. res_inv H'. destruct a as [n t1]. apply executed, deleteBulkEntities_Ok in Ha as [Hn Hr].
    injection H' as <- <-. done.
Qed.

(** The bulk deletion reports how many live_row rows had one of the ids, marks
    exactly those and keeps the others; sending the same ids again, at any time
    and by anyone, reports zero and changes nothing. *)
Theorem deleteBulk_idempotent now ids user t rep t' :
  deleteBulk tableName violates now ids true user t = Ok (rep, t') →
  deleted_count rep = length (List.filter (bulk_selected ids) (rows t)) ∧
  rows t' ≡ₚ List.map (λ r, if bulk_selected ids r then stamp_deleted now user None r else r) (rows t) ∧
  ∀ now' user' rep' t'',
    deleteBulk tableName violates now' ids true user' t' = Ok (rep', t'') →
    deleted_count rep' = 0 ∧ rows t'' ≡ₚ rows t'.
Proof.
  intros [Hn Hr]%deleteBulk_Ok. split; [done|]. split; [done|].
  intros now' user' rep' t'' [-> Hr']%deleteBulk_Ok.
  assert (List.filter (bulk_selected ids) (rows t') = []) as Hnone.
  { apply Permutation_nil. rewrite <- (filter_marked ids now user None (rows t)).
    symmetry. by apply Permutation_List_filter. }
  split; [by rewrite Hnone|]. rewrite Hr'. unfold deleted_rows.
  rewrite <- (map_id (rows t')) at 2. erewrite map_ext_in; [reflexivity|].
  intros r Hin. cbn. destruct (bulk_selected ids r) eqn:Hb; [|done].
  assert (r ∈ List.filter (bulk_selected ids) (rows t')) as Hbad
    by (apply elem_of_List_filter; split; [by apply list_elem_of_In|done]).
  rewrite Hnone in Hbad. by apply elem_of_nil in Hbad.
Qed.
(** *** Reconciliation *)

Abbreviation bulk_item := (bulk_item (D := D)).
Abbreviation updated := (updated assign).
Implicit Types (i : bulk_item).

(** What becomes of a row. *)
Definition item_of (updates : list bulk_item) (k : string) : option bulk_item :=
  List.find (λ i, bool_decide (b_id i = Some k)) updates.
(** The author of a write: a session without id is none. *)
Definition author_id (user : option current_user) : option string :=
  match user with Some (UserId k) | Some (UserSession (Some k)) => Some k | _ => None end.
Definition resigned (user : option current_user) (before : option string) : option string :=
  match author_id user with Some k => Some k | None => before end.
(** Written out column by column: a row that an item names takes the item's
    values; a row of the scope that no item names is marked as deleted. *)
Definition reconcile (now : Z) (updates : list bulk_item) (filter : scope) (user : option current_user)
    (r : row) : row :=
  match item_of updates (id r) with
  | Some i =>
      match row_deleted_at r with
      | None => BaseRow (id r) (assign (b_data i) (cols r)) (created_by r) (resigned user (updated_by r)) (is_deleted r)
                  (deleted_reason r) None (deleted_by r)
      | Some _ => r
      end
  | None =>
      match s_matches filter r, is_deleted r, row_deleted_at r with
      | true, false, None =>
          BaseRow (id r) (cols r) (created_by r) (updated_by r) true (Some "delete with bulk reconcile") (Some now)
            (match user with Some u => user_id u | None => deleted_by r end)
      | _, _, _ => r
      end
  end.
(** The row of an item without id: its values under those of the scope. *)
Definition bulk_row (filter : scope) (user : option current_user) (i : bulk_item) : row :=
  BaseRow (b_fresh i) (s_assign filter (assign (b_data i) blank)) (author_id user) (author_id user) false None None None.
Definition bulk_rows (updates : list bulk_item) (filter : scope) (user : option current_user) : list row :=
  omap (λ i, match b_id i with None => Some (bulk_row filter user i) | Some _ => None end) updates.

Lemma reconcile_updated now updates filter user r i : item_of updates (id r) = Some i → not_deleted r = true →
  reconcile now updates filter user r = updated (extractUserId user) i r.
Proof.
  intros Hi Hd. unfold reconcile. rewrite Hi. unfold not_deleted in Hd. cbn in Hd.
  destruct (row_deleted_at r) eqn:E; [done|]. unfold BaseService.updated, resigned, author_id, with_cols.
  destruct user as [[k|[k|]]|]; cbn; by rewrite E.
Qed.
Lemma reconcile_kept now updates filter user r i : item_of updates (id r) = Some i → not_deleted r = false →
  reconcile now updates filter user r = r.
Proof. intros Hi Hd. unfold reconcile. rewrite Hi. unfold not_deleted in Hd. cbn in Hd. by destruct (row_deleted_at r). Qed.
Lemma reconcile_unnamed now updates filter user r : item_of updates (id r) = None →
  reconcile now updates filter user r =
  if s_matches filter r && live_row r then stamp_deleted now user (Some "delete with bulk reconcile") r else r.
Proof.
  intros Hi. unfold reconcile, live_row, not_deleted. rewrite Hi. cbn.
  by destruct (s_matches filter r), (is_deleted r), (row_deleted_at r).
Qed.
Lemma new_rows_created updates filter user :
  bulk_rows updates filter user = processCreates blank assign filter (extractUserId user)
    (List.filter (λ i, match b_id i with None => true | _ => false end) updates).
Proof.
  unfold bulk_rows, processCreates. induction updates as [|i updates IH]; [done|]. cbn.
  destruct (b_id i); cbn; [done|]. rewrite IH. f_equal. unfold bulk_row, author_id, make_row.
  by destruct user as [[k|[k|]]|].
Qed.

Lemma item_of_Some updates k i :
  NoDup (omap b_id updates) → i ∈ updates → b_id i = Some k → item_of updates k = Some i.
Proof.
  unfold item_of. induction updates as [|j updates IH]; [by intros _ ?%elem_of_nil|].
  cbn. intros Hnd [->|Hin]%elem_of_cons Hk; [by rewrite bool_decide_true|].
  case_bool_decide as Hj.
  - rewrite Hj in Hnd. apply NoDup_cons in Hnd as [Hnot _]. destruct Hnot.
    apply list_elem_of_omap. eauto.
  - apply IH; [|done|done]. destruct (b_id j); [|done]. by apply NoDup_cons in Hnd as [_ ?].
Qed.
Lemma item_of_inv updates k i : item_of updates k = Some i → i ∈ updates ∧ b_id i = Some k.
Proof.
  intros [Hin Hk]%List.find_some. split; [by apply list_elem_of_In|].
  by apply bool_decide_eq_true in Hk.
Qed.
Lemma item_of_None updates k : item_of updates k = None ↔ k ∉ omap b_id updates.
Proof.
  split.
  - intros Hn (i & Hin & Hk)%list_elem_of_omap.
    apply list_elem_of_In in Hin. pose proof (List.find_none _ _ Hn i Hin) as Hbad.
    by apply bool_decide_eq_false in Hbad.
  - intros Hnot. destruct (item_of updates k) as [i|] eqn:E; [|done].
    apply item_of_inv in E as [Hin Hk]. destruct Hnot. apply list_elem_of_omap. eauto.
Qed.

(** The saves of the loaded rows, seen by one row. *)
Definition apply_updates (userId : option current_user) (ups : list (row * bulk_item)) (r : row) : row :=
  foldl (λ r '(q, i), if has_pk (id q) r then updated userId i r else r) r ups.

Lemma save_updates_rows userId ups t :
  rows (save_updates assign userId ups t) ≡ₚ List.map (apply_updates userId ups) (rows t).
Proof.
  unfold save_updates. revert t. induction ups as [|[q i] ups IH]; intros t; cbn [foldl].
  - by rewrite map_id.
  - rewrite IH, update_rows, map_map. done.
Qed.

Lemma apply_updates_id userId ups r : id (apply_updates userId ups r) = id r.
Proof.
  unfold apply_updates. revert r. induction ups as [|[q i] ups IH]; intros r; [done|]. cbn [foldl].
  rewrite IH. destruct (has_pk (id q) r); [|done]. unfold BaseService.updated. by destruct userId.
Qed.
Lemma apply_updates_other userId ups r : id r ∉ (λ u, id u.1) <$> ups → apply_updates userId ups r = r.
Proof.
  unfold apply_updates. induction ups as [|[q i] ups IH]; [done|].
  rewrite fmap_cons, elem_of_cons. intros Hnot. cbn [foldl].
  destruct (has_pk (id q) r) eqn:Hk; [apply has_pk_true in Hk; naive_solver|]. naive_solver.
Qed.
Lemma apply_updates_one userId ups r q i :
  NoDup ((λ u, id u.1) <$> ups) → (q, i) ∈ ups → id q = id r →
  apply_updates userId ups r = updated userId i r.
Proof.
  unfold apply_updates. induction ups as [|[q' i'] ups IH]; [by intros _ ?%elem_of_nil|].
  rewrite fmap_cons. intros [Hnot Hnd]%NoDup_cons Hin Hid. cbn [foldl] in *.
  apply elem_of_cons in Hin as [[= <- <-]|Hin].
  - rewrite (proj2 (has_pk_true (id q) r)) by done.
    apply apply_updates_other. unfold BaseService.updated. cbn [fst] in Hnot.
    destruct userId; cbn; by rewrite <- Hid.
  - destruct (has_pk (id q') r) eqn:Hk; [|by apply IH].
    apply has_pk_true in Hk. destruct Hnot. apply list_elem_of_fmap. exists (q, i). cbn. split; [|done].
    by rewrite Hid.
Qed.
(** The loaded rows. *)
Definition loaded (t : T row) (userId : option current_user) (updates : list bulk_item) : list (row * bulk_item) :=
  processUpdates t userId (omap (λ i, (., i) <$> b_id i) updates).

Lemma same_row t r q : NoDup (id <$> rows t) → r ∈ rows t → q ∈ rows t → id r = id q → r = q.
Proof. apply NoDup_fmap_elem_inj. Qed.
Lemma row_by_id t k r :
  NoDup (id <$> rows t) →
  repo_findById k t = Some r ↔ r ∈ rows t ∧ id r = k ∧ row_deleted_at r = None.
Proof.
  intros Hnd. split.
  - intros (Hr & Hk%has_pk_true & Hd)%repo_findOne_Some. done.
  - intros (Hr & Hk & Hd). destruct (repo_findById k t) as [q|] eqn:E.
    + apply repo_findOne_Some in E as (Hq & Hqk%has_pk_true & _). f_equal.
      apply (same_row t); [done..|]. by rewrite Hk.
    + exfalso. apply (repo_findOne_None _ _ E r Hr); [by apply has_pk_true|done].
Qed.

Lemma elem_of_loaded t userId updates q i :
  (q, i) ∈ loaded t userId updates ↔ i ∈ updates ∧ ∃ k, b_id i = Some k ∧ repo_findById k t = Some q.
Proof.
  unfold loaded, processUpdates. rewrite list_elem_of_omap. setoid_rewrite list_elem_of_omap. split.
  - intros ([k j] & (j' & Hin & Hj) & Hq). destruct (b_id j') as [k'|] eqn:Hk; [|done].
    cbn in Hj. injection Hj as -> ->. destruct (repo_findById k t) as [q'|] eqn:E; [|done].
    cbn in Hq. injection Hq as -> ->. eauto.
  - intros (Hin & k & Hk & Hq). exists (k, i). split; [exists i; by rewrite Hk|]. by rewrite Hq.
Qed.

Lemma NoDup_loaded t userId updates :
  NoDup (omap b_id updates) → NoDup ((λ u, id u.1) <$> loaded t userId updates).
Proof.
  intros Hnd. induction updates as [|i updates IH]; [constructor|].
  unfold loaded, processUpdates in *. cbn in *. destruct (b_id i) as [k|]; cbn; [|by apply IH].
  apply NoDup_cons in Hnd as [Hnot Hnd]. destruct (repo_findById k t) as [q|] eqn:E; cbn; [|by apply IH].
  apply NoDup_cons. split; [|by apply IH]. intros ([q' i'] & Hid & Hin)%list_elem_of_fmap.
  apply (elem_of_loaded t userId) in Hin as (Hin & k' & Hk' & Hq').
  apply repo_findOne_Some in E as (_ & E%has_pk_true & _).
  apply repo_findOne_Some in Hq' as (_ & Hq'%has_pk_true & _). cbn in *.
  destruct Hnot. apply list_elem_of_omap. exists i'. by rewrite Hk', <- Hq', <- Hid, E.
Qed.

(** The rows a reconciliation deletes. *)
Lemma orphaned_ids t filter incoming r :
  NoDup (id <$> rows t) → r ∈ rows t →
  bulk_selected (List.map id (List.filter (λ e, negb (id_in incoming e)) (fetchExistingEntities filter t))) r
  = s_matches filter r && live_row r && negb (includes incoming (id r)).
Proof.
  intros Hnd Hr. apply eq_true_iff_eq.
  change (bulk_selected ?l r) with (includes l (id r) && live_row r). rewrite !andb_true_iff, includes_true, elem_of_List_map.
  unfold fetchExistingEntities, live_row, not_deleted. split.
  - intros [(e & He & Hid) Hl]. apply elem_of_List_filter in He as [He Hin].
    apply elem_of_repo_find in He as (He & [Hm _]%andb_true_iff & _).
    apply (same_row t r e) in Hid as <-; [|done..]. done.
  - intros [[Hm Hl] Hin]. split; [|done]. exists r. split; [|done]. apply elem_of_List_filter. split; [|done].
    apply elem_of_repo_find. apply andb_true_iff in Hl as [Hd Hn]. rewrite Hm, Hd.
    split; [done|]. split; [done|]. cbn in *. by destruct (row_deleted_at r).
Qed.

Lemma processDeletes_Ok now user ids t t1 :
  processDeletes violates now user ids t = Ok t1 →
  rows t1 ≡ₚ deleted_rows now true user (Some "delete with bulk reconcile") (bulk_selected ids) (rows t).
Proof.
  unfold processDeletes. destruct ids as [|k ids].
  - intros [= <-]. unfold deleted_rows. by rewrite (map_ext _ (λ r, r)), map_id.
  - intros Hp. res_inv Hp. destruct a as [n t2]. injection Hp as <-.
    by apply deleteBulkEntities_Ok in Ha as [_ ?].
Qed.

(** One row through the deletions and the saves. *)
Lemma reconciled_row now updates filter user t r :
  NoDup (id <$> rows t) → NoDup (omap b_id updates) → r ∈ rows t →
  let idsToDelete := List.map id (List.filter (λ e, negb (id_in (omap b_id updates) e))
                       (fetchExistingEntities filter t)) in
  apply_updates (extractUserId user) (loaded t (extractUserId user) updates)
    (if bulk_selected idsToDelete r then stamp_deleted now user (Some "delete with bulk reconcile") r else r)
  = reconcile now updates filter user r.
Proof.
  intros Hnd Hndu Hr idsToDelete. unfold idsToDelete. rewrite orphaned_ids by done.
  destruct (item_of updates (id r)) as [i|] eqn:Ei.
  - pose proof (item_of_inv _ _ _ Ei) as [Hi Hk].
    assert (includes (omap b_id updates) (id r) = true) as ->
      by (apply includes_true, list_elem_of_omap; eauto).
    rewrite andb_false_r. destruct (not_deleted r) eqn:Hd.
    + rewrite (reconcile_updated _ _ _ _ _ i) by done. apply (apply_updates_one _ _ _ r); [by apply NoDup_loaded| |done].
      apply elem_of_loaded. split; [done|]. exists (id r). split; [done|]. apply row_by_id; [done|].
      unfold not_deleted in Hd. cbn in Hd. by destruct (row_deleted_at r).
    + rewrite (reconcile_kept _ _ _ _ _ i) by done. apply apply_updates_other. intros ([q j] & Hid & Hin)%list_elem_of_fmap.
      apply elem_of_loaded in Hin as (_ & k & _ & (Hq & _ & Hnone)%row_by_id); [|done]. cbn in Hid.
      apply (same_row t r q) in Hid as ->; [|done..]. unfold not_deleted in Hd. cbn in Hd.
      by rewrite Hnone in Hd.
  - rewrite reconcile_unnamed by done. apply item_of_None in Ei. apply includes_false in Ei as Hinc. rewrite Hinc. rewrite andb_true_r.
    apply apply_updates_other. intros ([q j] & Hid & Hin)%list_elem_of_fmap.
    apply elem_of_loaded in Hin as (Hj & k & Hk & (Hq & Hqk & _)%row_by_id); [|done]. cbn in Hid.
    apply Ei. apply list_elem_of_omap. exists j. split; [done|]. rewrite Hk, <- Hqk, <- Hid.
    by destruct (_ && _).
Qed.
Lemma created_untouched updates filter user t ups :
  (∀ i, i ∈ updates → b_id i = None → b_fresh i ∉ id <$> rows t) →
  (∀ u, u ∈ ups → u.1 ∈ rows t) →
  List.map (apply_updates (extractUserId user) ups) (bulk_rows updates filter user)
  = bulk_rows updates filter user.
Proof.
  intros Hfresh Hups. rewrite <- (map_id (bulk_rows updates filter user)) at 2.
  apply map_ext_in. intros r Hr. apply list_elem_of_In, list_elem_of_omap in Hr as (i & Hi & Hnew).
  destruct (b_id i) eqn:Hb; [done|]. injection Hnew as <-.
  apply apply_updates_other. intros (u & Hid & Hu)%list_elem_of_fmap.
  apply (Hfresh i Hi Hb). apply list_elem_of_fmap. exists u.1. split; [by rewrite <- Hid|by apply Hups].
Qed.

Lemma saved_rows updates filter user (ups : list (row * bulk_item)) t1 (out : list row * T row) :
  (let saved := bulk_rows updates filter user ++
     List.map (λ '(r, i), updated (extractUserId user) i r) ups in
  match saved with
  | [] => Ok ([], t1)
  | _ => let! t2 := write violates (save_updates assign (extractUserId user) ups
                          (insert_all (bulk_rows updates filter user) t1)) in Ok (saved, t2)
  end) = Ok out →
  out.1 = bulk_rows updates filter user ++ List.map (λ '(r, i), updated (extractUserId user) i r) ups ∧
  rows out.2 ≡ₚ List.map (apply_updates (extractUserId user) ups) (bulk_rows updates filter user ++ rows t1).
Proof.
  cbv zeta. destruct (bulk_rows updates filter user ++ _) as [|s saved] eqn:E.
  - apply app_nil in E as [-> Hups]. apply map_eq_nil in Hups as ->. intros [= <-]. cbn. by rewrite map_id.
  - intros Hw. res_inv Hw. apply write_Ok in Ha as ->. injection Hw as <-. split; [done|]. cbn [snd].
    rewrite save_updates_rows. by rewrite insert_all_rows.
Qed.
(** The saved rows are the new ones and those that items name. *)
Lemma elem_of_saved now updates filter user t r :
  NoDup (id <$> rows t) → NoDup (omap b_id updates) →
  r ∈ List.map (λ '(q, i), updated (extractUserId user) i q) (loaded t (extractUserId user) updates) ↔
  ∃ q, q ∈ rows t ∧ row_deleted_at q = None ∧ is_Some (item_of updates (id q)) ∧ r = reconcile now updates filter user q.
Proof.
  intros Hnd Hndu. rewrite elem_of_List_map. split.
  - intros ([q i] & Hin & ->). apply elem_of_loaded in Hin as (Hi & k & Hk & (Hq & Hqk & Hd)%row_by_id); [|done].
    assert (item_of updates (id q) = Some i) as Hit by (apply item_of_Some; [done..|by rewrite Hqk]).
    exists q. split_and!; [done|done|by eexists|]. rewrite (reconcile_updated _ _ _ _ _ i); [done|done|].
    unfold not_deleted. cbn. by rewrite Hd.
  - intros (q & Hq & Hd & [i Hit] & ->). exists (q, i). split.
    + apply item_of_inv in Hit as [Hi Hk]. apply elem_of_loaded. split; [done|]. exists (id q). split; [done|].
      by apply row_by_id.
    + rewrite (reconcile_updated _ _ _ _ _ i); [done|done|]. unfold not_deleted. cbn. by rewrite Hd.
Qed.

(** C40: A reconciliation that succeeds, with the ids of the rows and those of
    the items each distinct and fresh ids for the new rows, rewrites the table as
    [reconcile] writes out column by column: a row named by an item, whatever
    the scope, takes the item's values and the author; a live row of the scope
    that no item names is soft-deleted; any other row is kept.  It adds one row
    per item without id, with the item's values under the columns of the scope.
    It returns the new rows and the rows that items name.  An empty request
    changes nothing: it deletes none of the rows of the scope. *)
Theorem updateBulk_reconciles now updates filter user t saved t' :
  NoDup (id <$> rows t) → NoDup (omap b_id updates) →
  (∀ i, i ∈ updates → b_id i = None → b_fresh i ∉ id <$> rows t) →
  updateBulk tableName blank assign violates now updates filter user false t = Ok (saved, t') →
  match updates with
  | [] => saved = [] ∧ t' = t
  | _ =>
      rows t' ≡ₚ bulk_rows updates filter user ++ List.map (reconcile now updates filter user) (rows t) ∧
      ∀ r, r ∈ saved ↔ r ∈ bulk_rows updates filter user ∨
        ∃ q, q ∈ rows t ∧ row_deleted_at q = None ∧ is_Some (item_of updates (id q)) ∧ r = reconcile now updates filter user q
  end.
Proof.
  intros Hnd Hndu Hfresh. unfold updateBulk. destruct updates as [|i0 us]; [by intros [= <- <-]|].
  set (updates := i0 :: us) in *. intros Hu%executed. unfold updateBulkEntities in Hu. cbn [categorizeIncomingData] in Hu.
  rewrite <- new_rows_created in Hu. res_inv Hu. apply processDeletes_Ok in Ha. rename a into t1.
  apply (saved_rows updates filter user (loaded t (extractUserId user) updates) t1) in Hu as [Hs Hu].
  cbn [fst snd] in Hs, Hu. split; last first.
  { intros r. by rewrite Hs, elem_of_app, (elem_of_saved now updates filter user). }
  rewrite Hu, List.map_app. rewrite (created_untouched updates filter user t); [|done|].
  2:{ intros [q i] (_ & k & _ & (Hq & _)%row_by_id)%elem_of_loaded; done. }
  apply Permutation_app_head. rewrite Ha. unfold deleted_rows. rewrite map_map.
  erewrite map_ext_in; [reflexivity|]. intros r Hr. apply reconciled_row; [done..|].
  by apply list_elem_of_In.
Qed.
End effects.

(** ** The effect of an update *)
Section update_effects.
#[local] Open Scope list_scope.
Context {T : Type → Type} `{DatabaseLaws T} {F D C CD : Type}.
Abbreviation child := (base_row (child_cols C)).
Context (tableName : string) (relations : list relation)
        (assign : D → F → F) (child_blank : C) (child_assign : CD → C → C).
Context (violates : T (base_row F) → option driver_error)
        (child_violates : string → T child → option driver_error)
        (link_violates : string → T (string * string)%type → option driver_error).
Implicit Types (data : update_data D CD) (t : T child) (c : child) (i : rel_item CD) (items : list (rel_item CD)).
Abbreviation save_child := (save_child child_blank child_assign).
Abbreviation save_children := (save_children child_blank child_assign).
Abbreviation item_ids := (List.map item_id).

(** *** Children *)

Lemma select_nil {R} (p : R → bool) (x : T R) : db_select p x = [] → ∀ r, r ∈ rows x → p r = false.
Proof.
  intros Hn r Hr. apply not_true_iff_false. intros Hp.
  assert (r ∈ db_select p x) as Hin by (rewrite select_rows; by apply elem_of_List_filter).
  rewrite Hn in Hin. by apply elem_of_nil in Hin.
Qed.
Lemma select_some {R} (p : R → bool) (x : T R) : db_select p x ≠ [] → ∃ r, r ∈ rows x ∧ p r = true.
Proof.
  destruct (db_select p x) as [|r l] eqn:E; [done|]. intros _. exists r.
  apply elem_of_List_filter. rewrite <- select_rows, E. by left.
Qed.

(** Saving an item leaves exactly the rows with another id, and rows of the
    item that belong to the parent. *)
Lemma save_child_rows k t i c :
  c ∈ rows (save_child k t i) →
  (id c = item_id i ∧ fk (cols c) = Some k) ∨ (id c ≠ item_id i ∧ c ∈ rows t).
Proof.
  unfold BaseService.save_child. destruct (db_select _ t) as [|r l] eqn:E.
  - rewrite insert_rows, elem_of_cons. intros [->|Hc]; [by left|]. right. split; [|done].
    intros Heq. pose proof (select_nil _ _ E c Hc) as Hno.
    apply not_true_iff_false in Hno. apply Hno. by apply has_pk_true.
  - rewrite update_rows, elem_of_List_map. intros (c0 & Hc0 & ->).
    destruct (has_pk (item_id i) c0) eqn:Hk.
    + left. apply has_pk_true in Hk. done.
    + right. split; [|done]. intros Heq. apply not_true_iff_false in Hk. apply Hk. by apply has_pk_true.
Qed.
Lemma save_child_has k t i : ∃ c, c ∈ rows (save_child k t i) ∧ id c = item_id i ∧ fk (cols c) = Some k.
Proof.
  unfold BaseService.save_child. destruct (db_select _ t) as [|r l] eqn:E.
  - eexists. rewrite insert_rows. split; [by left|done].
  - destruct (select_some (has_pk (item_id i)) t) as (c & Hc & Hk); [by rewrite E|].
    exists (child_update child_assign k i c). rewrite update_rows. split; [|by apply has_pk_true in Hk].
    apply elem_of_List_map. exists c. by rewrite Hk.
Qed.
Lemma save_child_keeps k t i c : c ∈ rows t → id c ≠ item_id i → c ∈ rows (save_child k t i).
Proof.
  intros Hc Hne. unfold BaseService.save_child. destruct (db_select _ t).
  - rewrite insert_rows. by right.
  - rewrite update_rows. apply elem_of_List_map. exists c. split; [done|].
    destruct (has_pk (item_id i) c) eqn:Hk; [|done]. by apply has_pk_true in Hk.
Qed.

Lemma save_children_rows k items t c :
  c ∈ rows (save_children k items t) →
  (id c ∈ item_ids items ∧ fk (cols c) = Some k) ∨ (id c ∉ item_ids items ∧ c ∈ rows t).
Proof.
  revert t. unfold BaseService.save_children. induction items as [|i items IH]; intros t.
  - right. split; [apply not_elem_of_nil|done].
  - cbn. intros [[Hid Hfk]|[Hid Hc]]%IH; [left; split; [by right|done]|].
    apply save_child_rows in Hc as [[Heq Hfk]|[Hne Hc]].
    + left. split; [rewrite Heq; by left|done].
    + right. split; [|done]. by apply not_elem_of_cons.
Qed.
Lemma save_children_keeps k items t c :
  c ∈ rows t → id c ∉ item_ids items → c ∈ rows (save_children k items t).
Proof.
  revert t. unfold BaseService.save_children. induction items as [|i items IH]; intros t Hc; [done|].
  cbn. intros [Hne Hnot]%not_elem_of_cons. apply IH; [|done]. by apply save_child_keeps.
Qed.
Lemma save_children_has k items t j :
  j ∈ item_ids items → ∃ c, c ∈ rows (save_children k items t) ∧ id c = j ∧ fk (cols c) = Some k.
Proof.
  revert t. unfold BaseService.save_children. induction items as [|i items IH]; intros t; cbn; [by intros ?%elem_of_nil|].
  intros Hj. destruct (decide (j ∈ item_ids items)) as [Hin|Hnot]; [by apply IH|].
  apply elem_of_cons in Hj as [->|]; [|done].
  destruct (save_child_has k t i) as (c & Hc & Hid & Hfk). exists c. split; [|done].
  apply (save_children_keeps k items); [done|]. by rewrite Hid.
Qed.

(** The children of the parent that are in the table but not in the request. *)
Lemma elem_of_orphan_ids k items t j :
  j ∈ orphan_ids k items t ↔
  j ∉ item_ids items ∧ ∃ c, c ∈ rows t ∧ id c = j ∧ fk (cols c) = Some k ∧ live_row c = true.
Proof.
  unfold orphan_ids. rewrite elem_of_List_filter, negb_true_iff, includes_false, elem_of_List_map.
  setoid_rewrite elem_of_repo_find. unfold live_child_of, live_row, not_deleted.
  setoid_rewrite andb_true_iff. setoid_rewrite bool_decide_eq_true.
  split.
  - intros [(c & (Hc & [Hfk Hd] & Hn) & ->) Hnot]. split; [done|]. exists c.
    split; [done|]. split; [done|]. split; [done|]. rewrite Hd. cbn in *. by rewrite Hn.
  - intros [Hnot (c & Hc & <- & Hfk & [Hd Hn])]. split; [|done]. exists c.
    split; [|done]. split; [done|]. split; [done|]. cbn in *. by destruct (row_deleted_at c).
Qed.

Lemma handle_orphans_keeps now user opts k items t c :
  c ∈ rows t → id c ∉ orphan_ids k items t → c ∈ rows (handle_orphans now user opts k items t).
Proof.
  unfold handle_orphans. intros Hc Hnot. destruct (_ || _); [|done].
  destruct (orphan_ids k items t) as [|o os] eqn:E; [done|].
  assert (id_in (o :: os) c = false) as Hin by by apply includes_false.
  destruct (hardDeleteOneToMany opts).
  - rewrite delete_rows. apply elem_of_List_filter. by rewrite Hin.
  - rewrite update_rows. apply elem_of_List_map. exists c. by rewrite Hin.
Qed.
Lemma handle_orphans_rows now user opts k items t c :
  hardDeleteOneToMany opts || softDeleteOneToMany opts = true →
  c ∈ rows (handle_orphans now user opts k items t) → live_row c = true →
  c ∈ rows t ∧ id c ∉ orphan_ids k items t.
Proof.
  unfold handle_orphans. intros -> Hc Hlive.
  destruct (orphan_ids k items t) as [|o os] eqn:E; [split; [done|apply not_elem_of_nil]|].
  destruct (hardDeleteOneToMany opts).
  - rewrite delete_rows in Hc. apply elem_of_List_filter in Hc as [Hc Hn].
    apply negb_true_iff, includes_false in Hn. done.
  - rewrite update_rows in Hc. apply elem_of_List_map in Hc as (c0 & Hc0 & ->).
    destruct (id_in (o :: os) c0) eqn:Hin; [done|]. apply includes_false in Hin. done.
Qed.
(** Saving and reconciling the children of one parent. *)
Lemma saved_children now k user options n items t t' :
  NoDup (id <$> rows t) →
  save_and_reconcile child_blank child_assign child_violates now k user options n items t = Ok t' →
  (hardDeleteOneToMany (resolve_options options) || softDeleteOneToMany (resolve_options options) = true →
   ∀ c, c ∈ rows t' → fk (cols c) = Some k → live_row c = true → id c ∈ item_ids items) ∧
  (∀ j, j ∈ item_ids items → ∃ c, c ∈ rows t' ∧ id c = j ∧ fk (cols c) = Some k) ∧
  (∀ c, c ∈ rows t → fk (cols c) ≠ Some k → id c ∉ item_ids items → c ∈ rows t').
Proof.
  intros Hnd. unfold save_and_reconcile. intros H'. res_inv H'. apply write_Ok in Ha as ->.
  apply write_Ok in H' as ->. set (t1 := save_children k items t). split_and!.
  - intros Hopts c Hc Hfk Hlive. apply handle_orphans_rows in Hc as [Hc Hno]; [|done..].
    destruct (decide (id c ∈ item_ids items)) as [|Hnot]; [done|]. destruct Hno.
    apply elem_of_orphan_ids. split; [done|]. by exists c.
  - intros j Hj. destruct (save_children_has k items t j Hj) as (c & Hc & Hid & Hfk).
    exists c. split; [|done]. apply handle_orphans_keeps; [done|].
    intros [Hno _]%elem_of_orphan_ids. by rewrite Hid in Hno.
  - intros c Hc Hfk Hnot. apply handle_orphans_keeps; [by apply save_children_keeps|].
    intros [_ (c' & Hc' & Hid & Hfk' & _)]%elem_of_orphan_ids.
    apply save_children_rows in Hc' as [[Hin _]|[_ Hc']]; [by rewrite Hid in Hin|].
    by rewrite (same_row t c' c) in Hfk'.
Qed.

(** *** The steps of the transaction *)

Abbreviation process_children := (process_children (F := F) (D := D) child_blank child_assign child_violates).
Abbreviation database := (database (T := T) (F := F) (C := C)).
Abbreviation syncOne := (syncOne (T := T) (F := F) (D := D) (C := C) (CD := CD) link_violates).

(** [f] treats every relation by itself: at the relation's own part of the
    database, [part], its result depends on that part alone. *)
Record local_step {S P} (part : string → S → P) (f : S → relation → result S) : Prop := {
  local_other s rel s' n : f s rel = Ok s' → n ≠ rel_name rel → part n s' = part n s;
}.

Lemma fold_other {S P} (part : string → S → P) f s rels s' n :
  local_step part f → fold_r f s rels = Ok s' → n ∉ List.map rel_name rels → part n s' = part n s.
Proof.
  intros [Hother]. revert s. induction rels as [|rel rels IH]; intros s; [by intros [= ->]|].
  cbn. intros Hf [Hne Hnot]%not_elem_of_cons. res_inv Hf. rewrite (IH _ Hf Hnot). by apply (Hother _ rel).
Qed.
(** The step for one relation finds and leaves that relation's part as the
    whole fold does. *)
Lemma fold_at {S P} (part : string → S → P) f s rels s' rel :
  local_step part f → NoDup (List.map rel_name rels) → rel ∈ rels → fold_r f s rels = Ok s' →
  ∃ s1 s2, f s1 rel = Ok s2 ∧ part (rel_name rel) s1 = part (rel_name rel) s ∧
           part (rel_name rel) s' = part (rel_name rel) s2.
Proof.
  intros Hl. revert s. induction rels as [|rel' rels IH]; intros s; [by intros _ ?%elem_of_nil|].
  cbn. intros [Hnot Hnd]%NoDup_cons Hin Hf. res_inv Hf. apply elem_of_cons in Hin as [<-|Hin].
  - exists s, a. split; [done|]. split; [done|]. by apply (fold_other part f a rels).
  - destruct (IH a Hnd Hin Hf) as (s1 & s2 & Hs & H1 & H2). exists s1, s2. split; [done|].
    split; [|done]. rewrite H1. apply (local_other _ _ Hl _ rel'); [done|].
    intros Heq. apply Hnot. rewrite <- Heq. apply elem_of_List_map. by exists rel.
Qed.
Lemma fold_invariant {S P} (part : S → P) (f : S → relation → result S) s rels s' :
  (∀ s rel s', f s rel = Ok s' → part s' = part s) → fold_r f s rels = Ok s' → part s' = part s.
Proof.
  intros Hf. revert s. induction rels as [|rel rels IH]; intros s; [by intros [= ->]|].
  cbn. intros H'. res_inv H'. rewrite (IH _ H'). by apply Hf in Ha.
Qed.

Lemma set_children_other n m t (db : database) : n ≠ m → children (set_children m t db) n = children db n.
Proof. intros Hne. cbn. by destruct (String.eqb_spec n m). Qed.
Lemma set_children_same n t (db : database) : children (set_children n t db) n = t.
Proof. cbn. by rewrite String.eqb_refl. Qed.

Lemma process_cases now k user options data db rel db' :
  process_children now k user options data db rel = Ok db' →
  db' = db ∨ ∃ t, db' = set_children (rel_name rel) t db.
Proof.
  unfold BaseService.process_children. destruct (lookup_property _ _) as [[items|]|]; [|by intros [= ->]; left..].
  destruct (rel_kind rel) as [[]| |]; try (by intros [= ->]; left).
  intros H'. res_inv H'. injection H' as <-. eauto.
Qed.
Lemma process_local now k user options data :
  local_step (λ n (db : database), children db n) (process_children now k user options data).
Proof.
  split. intros db rel db' n [->|[t ->]]%process_cases Hne; [done|]. by apply set_children_other.
Qed.
Lemma sync_cases k data db rel db' :
  syncOne k data db rel = Ok db' → db' = db ∨ ∃ x, db' = set_links (rel_name rel) x db.
Proof.
  unfold BaseService.syncOne. destruct (lookup_property _ _) as [[items|]|], (rel_kind rel); try done;
    try (by intros [= ->]; left). cbv zeta.
  repeat match goal with |- context [match ?l with [] => _ | _ :: _ => _ end] => destruct l end;
    try (by intros [= ->]; left); intros H'; res_inv H'; injection H' as <-; eauto.
Qed.
Lemma sync_local k data : local_step (λ n (db : database), links db n) (syncOne k data).
Proof.
  split. intros db rel db' n [->|[t ->]]%sync_cases Hne; [done|]. cbn. by destruct (String.eqb_spec n (rel_name rel)).
Qed.

Abbreviation update := (update tableName relations assign child_blank child_assign violates child_violates
  link_violates).

Lemma update_inv now k data user options (db : database) e db' :
  update now k data user options db = Ok (e, db') →
  ∃ r db1, repo_findById (default k (d_id data)) (self db) = Some r ∧
    fold_r (process_children now k user options data)
      (set_self (repo_save (updated_parent assign data user r) (self db)) db)
      (List.filter isOneToMany relations) = Ok db1 ∧
    fold_r (syncOne k data) db1 (List.filter isOwningManyToMany relations) = Ok db'.
Proof.
  unfold BaseService.update. intros Hu%executed. unfold update_in_tx in Hu. cbv zeta in Hu.
  destruct (repo_findById _ _) as [r|]; [|done]. res_inv Hu. apply write_Ok in Ha as ->.
  exists r, a0. split; [done|]. split; [done|].
  by destruct (List.filter _ (List.map rel_name _)); injection Hu as <- <-.
Qed.

(** An update whose data has no property named after a relation changes the
    row's columns and nothing else. *)
Lemma update_plain now k data user options (db : database) :
  d_id data = None → d_relations data = [] →
  BaseService.update tableName relations assign child_blank child_assign violates child_violates link_violates
    now k data user options db
  = let! (e, t) := updateColumns tableName assign violates user k (d_cols data) (self db) in
    Ok (e, set_self t db).
Proof.
  intros Hid Hrel. unfold BaseService.update, update_in_tx, updateColumns. rewrite Hid, Hrel. cbn [default].
  destruct (repo_findById k (self db)) as [e|]; [|done].
  fold (updated_parent assign data user e). destruct (write violates _) as [t|x]; cbn [res_bind]; [|done].
  assert (∀ f (d : database) (rels : list relation), (∀ d rel, f d rel = Ok d) → fold_r f d rels = Ok d) as Hfold.
  { intros f d rels Hf. induction rels as [|rel rels IH]; [done|]. cbn. by rewrite Hf. }
  rewrite Hfold by (intros d rel; unfold process_children; by rewrite Hrel). cbn [res_bind].
  rewrite Hfold by (intros d rel; unfold syncOne; by rewrite Hrel). cbn [res_bind].
  by induction (List.map rel_name _) as [|n names IH].
Qed.

Lemma NoDup_filtered (p : relation → bool) : NoDup (List.map rel_name relations) →
  NoDup (List.map rel_name (List.filter p relations)).
Proof.
  induction relations as [|rel rels IH]; [done|]. cbn. intros [Hnot Hnd]%NoDup_cons.
  destruct (p rel); [|by apply IH]. apply NoDup_cons. split; [|by apply IH].
  intros (q & Hq & Heq)%elem_of_List_map. apply Hnot. apply elem_of_List_map. exists q.
  split; [|done]. by apply elem_of_List_filter in Hq as [? _].
Qed.

(** The part of the database an update leaves in the tables of one relation. *)
Lemma update_children_table now k data user options (db : database) e db' rel :
  NoDup (List.map rel_name relations) → rel ∈ relations → isOneToMany rel = true →
  update now k data user options db = Ok (e, db') →
  ∃ db1 db2, process_children now k user options data db1 rel = Ok db2 ∧
    children db1 (rel_name rel) = children db (rel_name rel) ∧
    children db' (rel_name rel) = children db2 (rel_name rel).
Proof.
  intros Hnd Hin Hk (r & dbc & _ & Hc & Hl)%update_inv.
  apply (fold_at (λ n (db : database), children db n)) with (rel := rel) in Hc as (db1 & db2 & Hp & H1 & H2);
    [|apply process_local|by apply NoDup_filtered|by apply elem_of_List_filter].
  exists db1, db2. split; [done|]. split; [done|]. rewrite <- H2.
  apply (fold_invariant (λ db : database, children db (rel_name rel))) in Hl; [done|].
  by intros s0 rel0 s0' [->|[t ->]]%sync_cases.
Qed.
Lemma update_links_table now k data user options (db : database) e db' rel :
  NoDup (List.map rel_name relations) → rel ∈ relations → isOwningManyToMany rel = true →
  update now k data user options db = Ok (e, db') →
  ∃ db1 db2, syncOne k data db1 rel = Ok db2 ∧
    links db1 (rel_name rel) = links db (rel_name rel) ∧ targets db1 = targets db ∧
    links db' (rel_name rel) = links db2 (rel_name rel).
Proof.
  intros Hnd Hin Hk (r & dbc & _ & Hc & Hl)%update_inv.
  assert (links dbc = links db ∧ targets dbc = targets db) as [Hlk Htg].
  { split.
    - apply (fold_invariant (λ db : database, links db)) in Hc; [done|].
      by intros s0 rel0 s0' [->|[t ->]]%process_cases.
    - apply (fold_invariant (λ db : database, targets db)) in Hc; [done|].
      by intros s0 rel0 s0' [->|[t ->]]%process_cases. }
  destruct (fold_at (λ n (db : database), (links db n, targets db)) (syncOne k data) dbc
    (List.filter isOwningManyToMany relations) db' rel) as (db1 & db2 & Hp & H1 & H2).
  - split. intros s0 rel0 s0' n [->|[t ->]]%sync_cases Hne; [done|]. cbn.
    by destruct (String.eqb_spec n (rel_name rel0)).
  - by apply NoDup_filtered.
  - by apply elem_of_List_filter.
  - done.
  - injection H1 as H1 H1'. injection H2 as H2 _. exists db1, db2. by rewrite H1, H1', Hlk, Htg.
Qed.

(** After an update, the children of a relation the request names are those
    it lists: every item has a row of this parent, every live_row child of the
    parent is in the list (unless both orphan strategies are switched off), and
    the children of other parents are kept. A relation the request leaves out
    keeps its table. *)
Theorem update_children now k data user options (db : database) e db' rel :
  NoDup (List.map rel_name relations) → rel ∈ relations → rel_kind rel = OneToMany true →
  NoDup (id <$> rows (children db (rel_name rel))) →
  update now k data user options db = Ok (e, db') →
  match lookup_property (rel_name rel) (d_relations data) with
  | Some (Some items) =>
      (hardDeleteOneToMany (resolve_options options) || softDeleteOneToMany (resolve_options options) = true →
       ∀ c, c ∈ rows (children db' (rel_name rel)) → fk (cols c) = Some k → live_row c = true →
            id c ∈ item_ids items) ∧
      (∀ j, j ∈ item_ids items →
            ∃ c, c ∈ rows (children db' (rel_name rel)) ∧ id c = j ∧ fk (cols c) = Some k) ∧
      (∀ c, c ∈ rows (children db (rel_name rel)) → fk (cols c) ≠ Some k → id c ∉ item_ids items →
            c ∈ rows (children db' (rel_name rel)))
  | _ => children db' (rel_name rel) = children db (rel_name rel)
  end.
Proof.
  intros Hnd Hin Hkind Hids Hu.
  apply (update_children_table _ _ _ _ _ _ _ _ rel) in Hu as (db1 & db2 & Hp & H1 & ->);
    [|done..|by unfold isOneToMany; rewrite Hkind].
  unfold BaseService.process_children in Hp. rewrite Hkind in Hp. rewrite <- H1 in *.
  destruct (lookup_property _ _) as [[items|]|]; [|by injection Hp as <-..].
  res_inv Hp. injection Hp as <-. rewrite set_children_same. by eapply saved_children.
Qed.
(** *** Links *)

Lemma elem_of_linked k (x : T (string * string)%type) j : j ∈ linked k x ↔ (k, j) ∈ rows x.
Proof.
  unfold linked. rewrite elem_of_List_map. setoid_rewrite select_rows. setoid_rewrite elem_of_List_filter.
  setoid_rewrite String.eqb_eq. split.
  - by intros ([k' j'] & [Hin <-] & ->).
  - intros Hin. by exists (k, j).
Qed.

Lemma elem_of_inserted k toAdd (x : T (string * string)%type) l :
  l ∈ rows (foldl (λ y n, db_insert (k, n) y) x toAdd) ↔ (l.1 = k ∧ l.2 ∈ toAdd) ∨ l ∈ rows x.
Proof.
  revert x. induction toAdd as [|n toAdd IH]; intros x; cbn; [set_solver|].
  rewrite IH, insert_rows, !elem_of_cons. destruct l as [p j]. cbn. naive_solver.
Qed.
Lemma elem_of_addAndRemove k toAdd toRemove (x : T (string * string)%type) l :
  l ∈ rows (addAndRemove k toAdd toRemove x) ↔
  (l.1 = k ∧ l.2 ∈ toAdd) ∨ (l ∈ rows x ∧ ¬ (l.1 = k ∧ l.2 ∈ toRemove)).
Proof.
  unfold addAndRemove. rewrite elem_of_inserted, delete_rows, elem_of_List_filter, negb_true_iff.
  rewrite <- not_true_iff_false, andb_true_iff, includes_true, String.eqb_eq. done.
Qed.

(** The linked rows the synchronisation looks at. *)
Lemma elem_of_current hasSoftDelete k (x : T (string * string)%type) t j :
  j ∈ current_ids hasSoftDelete k x t ↔
  (k, j) ∈ rows x ∧ ∃ c, c ∈ rows t ∧ id c = j ∧ row_deleted_at c = None ∧
                         (hasSoftDelete = true → is_deleted c = false).
Proof.
  unfold current_ids, loadMany. rewrite elem_of_List_map. destruct hasSoftDelete.
  - setoid_rewrite elem_of_List_filter. setoid_rewrite elem_of_repo_find. setoid_rewrite includes_true.
    setoid_rewrite elem_of_linked. setoid_rewrite negb_true_iff. naive_solver.
  - setoid_rewrite elem_of_repo_find. setoid_rewrite includes_true. setoid_rewrite elem_of_linked. naive_solver.
Qed.

Lemma written_links k (db : database) n db' toAdd toRemove l :
  match toAdd, toRemove with
  | [], [] => Ok db
  | _, _ => let! x := write (link_violates n) (addAndRemove k toAdd toRemove (links db n)) in
            Ok (set_links n x db)
  end = Ok db' →
  l ∈ rows (links db' n) ↔
    (l.1 = k ∧ l.2 ∈ toAdd) ∨ (l ∈ rows (links db n) ∧ ¬ (l.1 = k ∧ l.2 ∈ toRemove)).
Proof.
  rewrite <- elem_of_addAndRemove. destruct toAdd as [|a la], toRemove as [|d ld]; intros Hs;
    try (res_inv Hs; apply write_Ok in Ha as ->; injection Hs as <-; cbn [links set_links];
         by rewrite String.eqb_refl).
  injection Hs as <-. rewrite elem_of_addAndRemove. set_solver.
Qed.

Lemma synced_links k data (db : database) rel db' owning hasSoftDelete items :
  rel_kind rel = ManyToMany owning hasSoftDelete →
  lookup_property (rel_name rel) (d_relations data) = Some (Some items) →
  syncOne k data db rel = Ok db' →
  let current := current_ids hasSoftDelete k (links db (rel_name rel)) (targets db (rel_name rel)) in
  ∀ p j, (p, j) ∈ rows (links db' (rel_name rel)) ↔
    (p = k ∧ j ∈ new_ids items) ∨
    ((p, j) ∈ rows (links db (rel_name rel)) ∧ ¬ (p = k ∧ j ∈ current)).
Proof.
  intros Hk Hl. unfold BaseService.syncOne. rewrite Hk, Hl. cbv zeta.
  set (current := current_ids _ _ _ _).
  set (toAdd := List.filter (λ n, negb (includes current n)) (new_ids items)).
  set (toRemove := List.filter (λ o, negb (includes (new_ids items) o)) current).
  assert (∀ j, j ∈ toAdd ↔ j ∈ new_ids items ∧ j ∉ current) as Hadd.
  { intros j. unfold toAdd. by rewrite elem_of_List_filter, negb_true_iff, includes_false. }
  assert (∀ j, j ∈ toRemove ↔ j ∈ current ∧ j ∉ new_ids items) as Hremove.
  { intros j. unfold toRemove. by rewrite elem_of_List_filter, negb_true_iff, includes_false. }
  intros Hs p j. rewrite (written_links _ _ _ _ _ _ _ Hs). cbn [fst snd]. rewrite Hadd, Hremove.
  assert (j ∈ current → (k, j) ∈ rows (links db (rel_name rel))) as Hcur by by intros [? _]%elem_of_current.
  destruct (decide (p = k)) as [->|], (decide (j ∈ new_ids items)), (decide (j ∈ current)); naive_solver.
Qed.

(** After an update, the parent is linked to exactly the related rows the
    request lists, besides its links to soft-deleted rows, which are kept; the
    links of other parents do not change. *)
Theorem update_links now k data user options (db : database) e db' rel hasSoftDelete items :
  NoDup (List.map rel_name relations) → rel ∈ relations → rel_kind rel = ManyToMany true hasSoftDelete →
  lookup_property (rel_name rel) (d_relations data) = Some (Some items) →
  update now k data user options db = Ok (e, db') →
  let current := current_ids hasSoftDelete k (links db (rel_name rel)) (targets db (rel_name rel)) in
  (∀ j, (k, j) ∈ rows (links db' (rel_name rel)) ↔
     j ∈ new_ids items ∨ ((k, j) ∈ rows (links db (rel_name rel)) ∧ j ∉ current)) ∧
  (∀ p j, p ≠ k → (p, j) ∈ rows (links db' (rel_name rel)) ↔ (p, j) ∈ rows (links db (rel_name rel))).
Proof.
  intros Hnd Hin Hk Hl Hu current.
  apply (update_links_table _ _ _ _ _ _ _ _ rel) in Hu as (db1 & db2 & Hs & H1 & H2 & ->);
    [|done..|by unfold isOwningManyToMany; rewrite Hk].
  pose proof (synced_links _ _ _ _ _ _ _ _ Hk Hl Hs) as Hrows. cbv zeta in Hrows. rewrite H1, H2 in Hrows.
  split; [intros j; rewrite Hrows|intros p j Hne; rewrite Hrows]; unfold current; naive_solver.
Qed.

Lemma addAndRemove_rows k toAdd toRemove (x : T (string * string)%type) :
  rows (addAndRemove k toAdd toRemove x) ≡ₚ
  List.map (k,.) toAdd ++ List.filter (λ l, negb (String.eqb l.1 k && includes toRemove l.2)) (rows x).
Proof.
  unfold addAndRemove. rewrite <- delete_rows. set (x0 := (db_delete _ x).1). clearbody x0. revert x0.
  induction toAdd as [|n toAdd IH]; intros x0; [done|]. cbn [foldl List.map app].
  rewrite IH, insert_rows. symmetry. apply (Permutation_middle (List.map (k,.) toAdd) (rows x0) (k, n)).
Qed.

(** Where the junction table refuses duplicate pairs, an update that lists a
    soft-deleted row the parent is still linked to fails: that link is left out
    of the comparison and inserted again. *)
Theorem relisted_hidden_link_refused now k data user options (db : database) rel hasSoftDelete items j :
  NoDup (List.map rel_name relations) → rel ∈ relations → rel_kind rel = ManyToMany true hasSoftDelete →
  lookup_property (rel_name rel) (d_relations data) = Some (Some items) →
  (∀ x, link_violates (rel_name rel) x = None → NoDup (rows x)) →
  j ∈ new_ids items → (k, j) ∈ rows (links db (rel_name rel)) →
  j ∉ current_ids hasSoftDelete k (links db (rel_name rel)) (targets db (rel_name rel)) →
  ∃ err, update now k data user options db = Throw err.
Proof.
  intros Hnd Hin Hk Hl Hpk Hj Hlink Hhidden.
  destruct (update now k data user options db) as [[e db']|err] eqn:Hu; [|by eexists]. exfalso.
  apply (update_links_table _ _ _ _ _ _ _ _ rel) in Hu as (db1 & db2 & Hs & H1 & H2 & _);
    [|done..|by unfold isOwningManyToMany; rewrite Hk].
  unfold BaseService.syncOne in Hs. rewrite Hk, Hl, H1, H2 in Hs. cbv zeta in Hs.
  set (current := current_ids _ _ _ _) in *.
  set (toAdd := List.filter (λ n, negb (includes current n)) (new_ids items)) in *.
  set (toRemove := List.filter (λ o, negb (includes (new_ids items) o)) current) in *.
  assert (j ∈ toAdd) as Hadd
    by (apply elem_of_List_filter; split; [done|]; by apply negb_true_iff, includes_false).
  assert (link_violates (rel_name rel) (addAndRemove k toAdd toRemove (links db (rel_name rel))) = None) as Hok.
  { unfold write in Hs. destruct toAdd as [|a la]; [by apply elem_of_nil in Hadd|].
    by destruct (link_violates _ _). }
  apply Hpk in Hok. rewrite addAndRemove_rows in Hok. apply NoDup_app in Hok as (_ & Hdisj & _).
  apply (Hdisj (k, j)); [apply elem_of_List_map; by exists j|].
  apply elem_of_List_filter. split; [done|]. cbn. rewrite String.eqb_refl. cbn.
  apply negb_true_iff, includes_false. intros [Hc _]%elem_of_List_filter. done.
Qed.
End update_effects.

(** ** Samples and witnesses *)
Module Sample.
#[local] Open Scope list_scope.
Definition replace (d _ : string) : string := d.
Definition accept {X} (_ : X) : option driver_error := None.
Definition row (k c : string) : base_row string := make_row k c.
Definition gone (k c : string) : base_row string := stamp_deleted 1 None None (make_row k c).
Definition duplicate_pair (t : list (string * string)) : option driver_error :=
  if decide (NoDup t) then None else Some (DriverError (Some "23505") None None None None None None).

(** A table of three rows, one deleted. *)
Definition table : list (base_row string) := [row "a" "x"; row "b" "x"; gone "c" "x"; row "d" "y"].
Definition scope_x : scope := Scope (λ r, String.eqb (cols r) "x") (λ _, "x").
Definition request : list (bulk_item (D := string)) :=
  [BulkItem (Some "a") "" "x"; BulkItem (Some "d") "" "z"; BulkItem None "n" "new"].

Definition relations : list relation :=
  [Relation "lines" (OneToMany true); Relation "tags" (ManyToMany true true); Relation "owner" ToOne].
Definition line (k parent c : string) : base_row (child_cols string) := make_row k (ChildCols (Some parent) c).
Definition db : database (T := list) (F := string) (C := string) :=
  DB [row "p" "parent"; row "q" "other"]
    (λ _, [line "1" "p" "one"; line "2" "p" "two"; line "3" "q" "three"])
    (λ _, [line "t" "" "tag"; stamp_deleted 1 None None (line "u" "" "old tag"); line "v" "" "tag"])
    (λ _, [("p", "t"); ("p", "u"); ("q", "t")]).
Definition data : update_data string string :=
  UpdateData None "renamed"
    [("lines", Some [Item (Some "2") "" "two!"; Item None "4" "four"]);
     ("tags", Some [Item (Some "v") "" ""])].
Definition update : update_data string string → result (base_row string * database) :=
  λ data, update (T := list) "parents" relations replace "" replace accept (λ _, accept) (λ _, duplicate_pair)
    7 "p" data (Some (UserId "me")) None db.

Example bulk :
  match updateBulk (T := list) "rows" "" replace accept 7 request scope_x (Some (UserId "me")) false table with
  | Ok (_, t') => List.map (λ r, (id r, cols r, is_deleted r, deleted_reason r)) t' =
      [("a", "x", false, None); ("b", "x", true, Some "delete with bulk reconcile");
       ("c", "x", true, None); ("d", "z", false, None); ("n", "x", false, None)]
  | Throw _ => False
  end.
Proof. by vm_compute. Qed.
Example children_and_links :
  match update data with
  | Ok (e, db') => cols e = "renamed" ∧
      List.map (λ c, (id c, fk (cols c), own (cols c), is_deleted c)) (children db' "lines") =
        [("1", Some "p", "one", true); ("2", Some "p", "two!", false);
         ("3", Some "q", "three", false); ("4", Some "p", "four", false)] ∧
      links db' "tags" = [("p", "u"); ("q", "t"); ("p", "v")]
  | Throw _ => False
  end.
Proof. by vm_compute. Qed.
End Sample.

Lemma deleteBulk_idempotent_witness :
  ∃ rep t', deleteBulk (T := list) "rows" Sample.accept 7 ["a"; "c"; "z"] true None Sample.table = Ok (rep, t') ∧
    deleted_count rep = 1 ∧
    ∀ now' user' rep' t'',
      deleteBulk (T := list) "rows" Sample.accept now' ["a"; "c"; "z"] true user' t' = Ok (rep', t'') →
      deleted_count rep' = 0.
Proof.
  destruct (deleteBulk (T := list) "rows" Sample.accept 7 ["a"; "c"; "z"] true None Sample.table)
    as [[rep t']|e] eqn:E; [|vm_compute in E; discriminate E].
  destruct (deleteBulk_idempotent "rows" Sample.accept 7 ["a"; "c"; "z"] None Sample.table rep t' E)
    as (Hn & _ & Hagain).
  exists rep, t'. split; [reflexivity|]. split; [by rewrite Hn; vm_compute|].
  intros now' user' rep' t'' H. by destruct (Hagain now' user' rep' t'' H).
Defined.

Lemma updateBulk_reconciles_witness :
  ∃ saved t', updateBulk (T := list) "rows" "" Sample.replace Sample.accept 7 Sample.request Sample.scope_x
                None false Sample.table = Ok (saved, t') ∧
    t' ≡ₚ bulk_rows "" Sample.replace Sample.request Sample.scope_x None ++
          List.map (reconcile Sample.replace 7 Sample.request Sample.scope_x None) Sample.table.
Proof.
  destruct (updateBulk (T := list) "rows" "" Sample.replace Sample.accept 7 Sample.request Sample.scope_x
    None false Sample.table) as [[saved t']|e] eqn:E; [|vm_compute in E; discriminate E].
  exists saved, t'. split; [reflexivity|].
  refine (proj1 (updateBulk_reconciles "rows" "" Sample.replace Sample.accept 7 Sample.request Sample.scope_x None
    Sample.table saved t' _ _ _ E)).
  - apply (bool_decide_eq_true_1 _). by vm_compute.
  - apply (bool_decide_eq_true_1 _). by vm_compute.
  - intros i Hi Hn. unfold Sample.request in Hi. rewrite !elem_of_cons in Hi.
    destruct Hi as [->|[->|[->|Hi]]]; [done|done| |by apply elem_of_nil in Hi].
    apply (bool_decide_eq_true_1 _). by vm_compute.
Defined.

Lemma update_children_witness :
  ∃ e db', Sample.update Sample.data = Ok (e, db') ∧
    ∀ c, c ∈ children db' "lines" → fk (cols c) = Some "p" → live_row c = true → id c ∈ ["2"; "4"].
Proof.
  destruct (Sample.update Sample.data) as [[e db']|err] eqn:E; [|vm_compute in E; discriminate E].
  exists e, db'. split; [reflexivity|].
  pose proof (update_children "parents" Sample.relations Sample.replace "" Sample.replace Sample.accept
    (λ _, Sample.accept) (λ _, Sample.duplicate_pair) 7 "p" Sample.data (Some (UserId "me")) None) as Hu.
  specialize (Hu Sample.db e db' (Relation "lines" (OneToMany true))).
  destruct Hu as [Hlive _]; [| |reflexivity| |exact E|by apply Hlive].
  - apply (bool_decide_eq_true_1 _). by vm_compute.
  - by left.
  - apply (bool_decide_eq_true_1 _). by vm_compute.
Defined.

Lemma update_links_witness :
  ∃ e db', Sample.update Sample.data = Ok (e, db') ∧
    ∀ j, ("p", j) ∈ links db' "tags" ↔ j ∈ ["v"] ∨ (("p", j) ∈ links Sample.db "tags" ∧ j ∉ ["t"]).
Proof.
  destruct (Sample.update Sample.data) as [[e db']|err] eqn:E; [|vm_compute in E; discriminate E].
  exists e, db'. split; [reflexivity|].
  pose proof (update_links "parents" Sample.relations Sample.replace "" Sample.replace Sample.accept
    (λ _, Sample.accept) (λ _, Sample.duplicate_pair) 7 "p" Sample.data (Some (UserId "me")) None) as Hu.
  specialize (Hu Sample.db e db' (Relation "tags" (ManyToMany true true)) true
    [Item (Some "v") "" ""]).
  destruct Hu as [Hlinks _]; [| |reflexivity|reflexivity|exact E|exact Hlinks].
  - apply (bool_decide_eq_true_1 _). by vm_compute.
  - right. by left.
Defined.

Lemma relisted_hidden_link_refused_witness :
  ∃ err, Sample.update (UpdateData None "" [("tags", Some [Item (Some "u") "" ""])]) = Throw err.
Proof.
  pose proof (relisted_hidden_link_refused "parents" Sample.relations Sample.replace "" Sample.replace
    Sample.accept (λ _, Sample.accept) (λ _, Sample.duplicate_pair) 7 "p" (UpdateData None "" [("tags", Some [Item (Some "u") "" ""])]) (Some (UserId "me")) None) as Hu.
  specialize (Hu Sample.db
    (Relation "tags" (ManyToMany true true)) true [Item (Some "u") "" ""] "u").
  apply Hu.
  - apply (bool_decide_eq_true_1 _). by vm_compute.
  - right. by left.
  - reflexivity.
  - reflexivity.
  - intros x. unfold Sample.duplicate_pair. by destruct (decide (NoDup x)).
  - apply (bool_decide_eq_true_1 _). by vm_compute.
  - apply (bool_decide_eq_true_1 _). by vm_compute.
  - apply (bool_decide_eq_true_1 _). by vm_compute.
Defined.

Lemma delete_spec_witness :
  delete (T := list) "rows" Sample.accept 7 "a" true None Sample.table
    = Ok (List.map (λ r, if has_pk "a" r then stamp_deleted 7 None None r else r) Sample.table) ∧
  (∀ t', delete (T := list) "rows" Sample.accept 7 "a" true None Sample.table = Ok t' →
     t' ≡ₚ deleted_rows 7 true None None (has_pk "a") Sample.table) ∧
  delete (T := list) "rows" Sample.accept 7 "z" true None Sample.table = Throw (not_found "rows" "z").
Proof.
  split; [by vm_compute|]. split; [|by vm_compute].
  intros t' E. pose proof (delete_spec "rows" Sample.accept 7 "a" true None Sample.table) as Hd.
  rewrite E in Hd. exact (proj2 Hd).
Defined.
