(* ===== verification/Listing.v ===== *)
(** * The generic service: reads

    Model of the read side of [BaseServiceOperations]
    (src/libs/common/src/utils/base-operations/base-service-operations.util.ts):
    [findAll], [findOneOrQuery] and [findPaginated], from the request parameters
    through the query builder (QueryBuilder.v) to the rows returned.

    TypeORM and Postgres evaluate a clause, order rows and refuse unknown
    properties: [QueryEngine] is what the service asks of them and
    [QueryEngineLaws] their documented behaviour. *)

From stdpp Require Import pretty sorting.
From Stdlib Require Import Sorted.
From Stdlib Require Import SpecFloat.
From S2P Require Import Prelude JsString JsValues Repo DbErrors BaseService QueryBuilder QueryMeaning.
#[local] Open Scope string_scope.
#[local] Open Scope list_scope.

(** ** What the service asks of the database *)

Class QueryEngine (R : Type) := {
  (** The row meets the clause. *)
  matches : R → where_clause → bool;
  (** The complaint about a clause that names no property of the entity. *)
  unknown_property : where_clause → option string;
  (** [ORDER BY]: the first row may come before the second. *)
  before : option (list (string * direction)) → R → R → Prop;
  (** The order the rows come in.  Where [ORDER BY] leaves a choice it is the
      database's, and may be another for every statement, [LIMIT] and [OFFSET]
      included. *)
  arrange : FindManyOptions → list R → list R;
  (** [OFFSET], which must be a number of rows. *)
  rows_skipped : skip_rows → result nat;
}.

Class QueryEngineLaws {F} `{QueryEngine (base_row F)}
    (holds : base_row F → list string → wval → Prop) (properties : list string) := {
  matches_sat r w : matches r w = true ↔ sat_where holds r w;
  holds_is_deleted r : holds r ["is_deleted"] (WVal (JBool false)) ↔ is_deleted r = false;
  holds_deleted_at r : holds r ["deleted_at"] IsNull ↔ row_deleted_at r = None;
  unknown_refused o k : k ∈ obj_keys o → k ∉ properties → unknown_property (One o) ≠ None;
  arrange_permutes opts l : arrange opts l ≡ₚ l;
  arrange_sorted opts l : StronglySorted (before (order opts)) (arrange opts l);
  rows_skipped_rows n : (0 ≤ n)%Z → rows_skipped (Rows n) = Ok (Z.to_nat n);
}.

(** ** The service *)

Definition defaultAllowedRelations : list string :=
  ["lookup_created_by"; "lookup_updated_by"; "lookup_deleted_by"].
Definition getFinalAllowedRelations (allowedRelations : list string) : list string :=
  js_set (defaultAllowedRelations ++ allowedRelations).

Definition softDeleteFilter : obj := [("is_deleted", WVal (JBool false)); ("deleted_at", IsNull)].

(** [{ ...base, ...o }] *)
Definition spread (base o : obj) : obj :=
  List.map (λ kv, (kv.1, default kv.2 (obj_get kv.1 o))) base ++
  List.filter (λ kv, negb (includes (obj_keys base) kv.1)) o.
(** The properties of an array are its indices. *)
Definition array_properties (l : list obj) : obj :=
  imap (λ i o, (pretty (N.of_nat i), WObj o)) l.

Definition with_where (w : where_clause) (opts : FindManyOptions) : FindManyOptions :=
  FindOptions (take opts) (skip opts) (order opts) w (relations_ opts) (select opts) (relationLoadStrategy opts).
Definition with_strategy (s : option string) (opts : FindManyOptions) : FindManyOptions :=
  FindOptions (take opts) (skip opts) (order opts) (where_ opts) (relations_ opts) (select opts)
    (default (relationLoadStrategy opts) s).
Definition with_take (n : Z) (opts : FindManyOptions) : FindManyOptions :=
  FindOptions n (skip opts) (order opts) (where_ opts) (relations_ opts) (select opts) (relationLoadStrategy opts).

(** [findAll]: the filter and the clause in one object, even if the clause is
    an array. *)
Definition merge_flat (w : where_clause) : where_clause :=
  One (spread softDeleteFilter (match w with One o => o | AnyOf l => array_properties l end)).
(** [findOneOrQuery] and [findPaginated]: one condition at a time. *)
Definition merge_each (w : where_clause) : where_clause :=
  match w with
  | One o => One (spread softDeleteFilter o)
  | AnyOf l => AnyOf (List.map (spread softDeleteFilter) l)
  end.

(** [IPagination]; [total_pages] is [None] when it is not finite. *)
Record IPagination := Pagination {
  page : number; page_size : Z; total : nat; total_records : nat; total_pages : option Z;
}.
(** [Math.ceil(total / limit)] *)
Definition pages_of (total : nat) (limit : Z) : option Z :=
  if (0 <? limit)%Z then Some (- (- Z.of_nat total / limit))%Z else None.
(** [Number(page) || 1] *)
Definition page_number (p : jsv) : number :=
  let n := js_Number p in
  if isNaN n || num_eq n (Number "0") then Number "1" else n.

Inductive listing_mode := Page | CountOnly | IgnoreLimit.
(** [get_count_only] is looked at first. *)
Definition mode_of (get_count_only ignore_limit : bool) : listing_mode :=
  if get_count_only then CountOnly else if ignore_limit then IgnoreLimit else Page.

Section reads.
Context {T : Type → Type} `{Database T} {F : Type} `{QueryEngine (base_row F)}.
Abbreviation row := (base_row F).
Context (entities : string → entity_metadata) (root : string)
        (JSON_parse : string → option jsv)
        (dayjs_isValid : string → bool) (dayjs_toISOString : string → result string)
        (tz_toISOString tz_startOfDay tz_endOfDay : string → string → result string).
Context (QUERY_MAX_LIMIT : jsv) (tableName : string) (allowedRelations : list string).

Definition build_query (q : QueryParamsDTO) : result FindManyOptions :=
  QueryBuilder.build entities root JSON_parse dayjs_isValid dayjs_toISOString tz_toISOString tz_startOfDay
    tz_endOfDay q QUERY_MAX_LIMIT (getFinalAllowedRelations allowedRelations).

(** [repository.find], with or without the limits, and [count]. *)
Definition found (w : where_clause) (t : T row) : result (list row) :=
  match unknown_property w with
  | Some m => Throw (EntityPropertyNotFoundError m)
  | None => Ok (repo_find (λ r, matches r w) t)
  end.
Definition find (limited : bool) (opts : FindManyOptions) (t : T row) : result (list row) :=
  let! l := found (where_ opts) t in
  let sorted := arrange opts l in
  if limited then
    let! n := rows_skipped (skip opts) in
    Ok (List.firstn (Z.to_nat (take opts)) (drop n sorted))
  else Ok sorted.
Definition count (w : where_clause) (t : T row) : result nat :=
  let! l := found w t in Ok (length l).
Definition findAndCount (limited : bool) (opts : FindManyOptions) (t : T row) : result (list row * nat) :=
  let! l := find limited opts t in
  let! n := count (where_ opts) t in
  Ok (l, n).
(** [findOne] sets the limit to one and keeps the offset. *)
Definition findOne (opts : FindManyOptions) (t : T row) : result (option row) :=
  let! l := find true (with_take 1 opts) t in Ok (head l).

Definition findAllEntities (q : QueryParamsDTO) (t : T row) : result (list row) :=
  let! opts := build_query q in
  find false (with_where (merge_flat (where_ opts)) opts) t.
Definition findAll (q : QueryParamsDTO) (t : T row) : result (list row) :=
  ExecuteDb.executeDbOperation tableName (findAllEntities q t).

Definition filter_text (q : QueryParamsDTO) : string :=
  match q_filter q with JNull => "undefined" | v => js_String v end.
Definition findOneOrQuery_ (skipNotFound : bool) (q : QueryParamsDTO) (t : T row) : result (option row) :=
  let! opts := build_query q in
  let! entity := findOne (with_where (merge_each (where_ opts)) opts) t in
  match entity with
  | None => if skipNotFound then Ok None
            else Throw (NotFoundException (tableName +:+ " with filter '" +:+ filter_text q +:+ "' not found."))
  | Some e => Ok (Some e)
  end.
Definition findOneOrQuery (skipNotFound : bool) (q : QueryParamsDTO) (t : T row) : result (option row) :=
  ExecuteDb.executeDbOperation tableName (findOneOrQuery_ skipNotFound q t).

Definition findEntitiesWithPagination (strategy : option string) (mode : listing_mode) (q : QueryParamsDTO)
    (t : T row) : result (list row * IPagination) :=
  let! opts0 := build_query q in
  let opts := with_where (merge_each (where_ opts0)) (with_strategy strategy opts0) in
  let limit := take opts in
  let pg := page_number (q_page q) in
  match mode with
  | CountOnly =>
      let! n := count (where_ opts) t in
      Ok ([], Pagination pg limit n n (pages_of n limit))
  | IgnoreLimit =>
      let! (data, n) := findAndCount false opts t in
      Ok (data, Pagination pg (Z.of_nat (length data)) n n (Some 1%Z))
  | Page =>
      let! (data, n) := findAndCount true opts t in
      Ok (data, Pagination pg limit n n (pages_of n limit))
  end.
Definition findPaginated (strategy : option string) (mode : listing_mode) (q : QueryParamsDTO) (t : T row) :
    result (list row * IPagination) :=
  ExecuteDb.executeDbOperation tableName (findEntitiesWithPagination strategy mode q t).
End reads.

(** ** The two filters together *)
Section meaning.
Context {F : Type} `{QueryEngine (base_row F)}.
Context (holds : base_row F → list string → wval → Prop) (properties : list string).
Context `{!QueryEngineLaws holds properties}.
Abbreviation row := (base_row F).
Implicit Types (r : row) (o : obj).

Definition soft_columns : list string := ["is_deleted"; "deleted_at"].

Lemma sat_app r p o o' : sat holds r p (WObj (o ++ o')) ↔ sat holds r p (WObj o) ∧ sat holds r p (WObj o').
Proof. cbn [sat]. induction o as [|[k v] o IH]; cbn; [tauto|]. rewrite IH. tauto. Qed.

Lemma spread_disjoint o : (∀ k, k ∈ soft_columns → k ∉ obj_keys o) → spread softDeleteFilter o = softDeleteFilter ++ o.
Proof.
  intros Hno. unfold spread. f_equal.
  - unfold softDeleteFilter. cbn.
    rewrite (proj2 (obj_get_None "is_deleted" o)), (proj2 (obj_get_None "deleted_at" o)); [done|..];
      apply Hno; set_solver.
  - assert (∀ kv, kv ∈ o → kv.1 ∉ soft_columns) as Hk.
    { intros kv Hin Hs. apply (Hno _ Hs). by apply (list_elem_of_fmap_2 fst). }
    clear Hno. induction o as [|[k v] o IH]; [done|]. cbn [List.filter fst].
    assert (includes (obj_keys softDeleteFilter) k = false) as ->.
    { apply includes_false. apply (Hk (k, v)). by left. }
    cbn [negb]. f_equal. apply IH. intros kv Hin. apply Hk. by right.
Qed.

Lemma sat_soft r : sat holds r [] (WObj softDeleteFilter) ↔ live_row r = true.
Proof.
  unfold softDeleteFilter. cbn [sat]. rewrite app_nil_l, app_nil_l, holds_is_deleted, holds_deleted_at.
  unfold live_row, not_deleted. cbn. destruct (is_deleted r), (row_deleted_at r); cbn; naive_solver.
Qed.

(** Unless the request constrains one of the two columns, adding the filter to
    each condition is asking for live_row rows. *)
Lemma sat_merge_each r w :
  (∀ o k, o ∈ clause_objects w → k ∈ soft_columns → k ∉ obj_keys o) →
  sat_where holds r (merge_each w) ↔ live_row r = true ∧ sat_where holds r w.
Proof.
  intros Hno. destruct w as [o|l]; cbn [merge_each sat_where clause_objects] in *.
  - rewrite spread_disjoint by (intros k; apply Hno; by left). by rewrite sat_app, sat_soft.
  - setoid_rewrite elem_of_List_map. split.
    + intros (o & (o0 & Ho0 & ->) & Hs). rewrite spread_disjoint in Hs by (intros k; by apply Hno).
      rewrite sat_app, sat_soft in Hs. destruct Hs. eauto.
    + intros [Hl (o & Ho & Hs)]. exists (spread softDeleteFilter o). split; [by exists o|].
      rewrite spread_disjoint by (intros k; by apply Hno). by rewrite sat_app, sat_soft.
Qed.
End meaning.

(** ** Properties *)
Section properties.
Context {T : Type → Type} `{DatabaseLaws T} {F : Type} `{QueryEngine (base_row F)}.
Context (holds : base_row F → list string → wval → Prop) (properties : list string).
Context `{!QueryEngineLaws holds properties}.
Abbreviation row := (base_row F).
Context (entities : string → entity_metadata) (root : string)
        (JSON_parse : string → option jsv)
        (dayjs_isValid : string → bool) (dayjs_toISOString : string → result string)
        (tz_toISOString tz_startOfDay tz_endOfDay : string → string → result string).
Context (QUERY_MAX_LIMIT : jsv) (tableName : string) (allowedRelations : list string).
Implicit Types (t : T row) (r : row) (q : QueryParamsDTO).
Abbreviation build := (build_query entities root JSON_parse dayjs_isValid dayjs_toISOString tz_toISOString
  tz_startOfDay tz_endOfDay QUERY_MAX_LIMIT allowedRelations).
Abbreviation findPaginated := (findPaginated entities root JSON_parse dayjs_isValid dayjs_toISOString
  tz_toISOString tz_startOfDay tz_endOfDay QUERY_MAX_LIMIT tableName allowedRelations).
Abbreviation findAll := (findAll entities root JSON_parse dayjs_isValid dayjs_toISOString
  tz_toISOString tz_startOfDay tz_endOfDay QUERY_MAX_LIMIT tableName allowedRelations).
Abbreviation reads := (reads entities root JSON_parse dayjs_isValid dayjs_toISOString
  tz_toISOString tz_startOfDay tz_endOfDay).

(** The rows a built request selects. *)
Definition selected (opts : FindManyOptions) (r : row) : bool := matches r (where_ opts) && not_deleted r.
Definition selected_rows (opts : FindManyOptions) (t : T row) : list row :=
  repo_find (λ r, matches r (where_ opts)) t.

Lemma find_Ok limited opts t l :
  find limited opts t = Ok l →
  unknown_property (where_ opts) = None ∧
  if limited then ∃ n, rows_skipped (skip opts) = Ok n ∧
    l = List.firstn (Z.to_nat (take opts)) (drop n (arrange opts (selected_rows opts t)))
  else l = arrange opts (selected_rows opts t).
Proof.
  unfold find, found. destruct (unknown_property _); [done|]. cbn [res_bind]. intros Hf. split; [done|].
  destruct limited; [|by injection Hf as <-]. res_inv Hf. injection Hf as <-. by eexists.
Qed.

Lemma paginated_Ok strategy q t data pg :
  findPaginated strategy Page q t = Ok (data, pg) →
  ∃ opts n, build q = Ok opts ∧
    let w := merge_each (where_ opts) in
    unknown_property w = None ∧ rows_skipped (skip opts) = Ok n ∧
    data = List.firstn (Z.to_nat (take opts))
             (drop n (arrange (with_where w (with_strategy strategy opts)) (repo_find (λ r, matches r w) t))) ∧
    total pg = length (repo_find (λ r, matches r w) t) ∧ page_size pg = take opts ∧
    total_pages pg = pages_of (total pg) (take opts).
Proof.
  unfold Listing.findPaginated. intros Hp%executed. unfold findEntitiesWithPagination in Hp.
  apply res_bind_Ok in Hp as (opts & Hb & Hp). cbv zeta in Hp. res_inv Hp. destruct a as [l n].
  injection Hp as <- <-. unfold findAndCount in Ha. res_inv Ha. injection Ha as <- <-.
  apply find_Ok in Ha0 as (Hu & m & Hm & ->). unfold count, found in Ha1. cbn in Hu, Ha1, Hm.
  rewrite Hu in Ha1. cbn in Ha1. injection Ha1 as <-. by exists opts, m.
Qed.
Lemma length_selection w t :
  length (repo_find (λ r, matches r w) t) = length (List.filter (λ r, matches r w && not_deleted r) (rows t)).
Proof. unfold repo_find. by rewrite select_rows. Qed.

Lemma take_elem n (l : list row) r : r ∈ List.firstn n l → r ∈ l.
Proof. intros Hr. rewrite <- (List.firstn_skipn n l). apply elem_of_app. by left. Qed.
Lemma drop_elem n (l : list row) r : r ∈ drop n l → r ∈ l.
Proof. intros Hr. rewrite <- (take_drop n l). apply elem_of_app. by right. Qed.

(** The rows a listing selects, in terms of the request. *)
Lemma selection_meaning q opts rd r :
  build q = Ok opts → reads q rd → regular entities root rd →
  (∀ p k, p ∈ constrained_paths entities root rd → head p = Some k → k ∉ soft_columns) →
  matches r (merge_each (where_ opts)) && not_deleted r = true ↔
    live_row r = true ∧ (∀ c, c ∈ rd_scs rd ++ rd_fcs rd → meets holds r c) ∧
    (rd_ocs rd = [] ∨ ∃ c, c ∈ rd_ocs rd ∧ meets holds r c) ∧ not_excluded entities root q holds r.
Proof.
  intros Hb Hrd Hreg Hsoft. rewrite andb_true_iff, matches_sat. rewrite sat_merge_each; [|exact _|].
  - destruct (build_Ok _ _ _ _ _ _ _ _ _ _ _ _ Hb) as (_ & _ & (w0 & m & Hf & Hw) & _).
    destruct (filters_meaning _ _ _ _ _ _ _ _ _ holds w0 m Hf) as (rd' & Hrd' & Hmeaning).
    rewrite (reads_det _ _ _ _ _ _ _ _ _ rd' rd) in Hmeaning by done. rewrite Hw, (Hmeaning Hreg r).
    unfold live_row. rewrite andb_true_iff. tauto.
  - intros o k Ho Hk Hin.
    destruct (where_rooted _ _ _ _ _ _ _ _ _ _ _ _ _ Hb Hrd o Ho k Hin) as (p & Hp & Hhead).
    by apply (Hsoft p k).
Qed.
Lemma paginated_elem strategy q t data pg :
  findPaginated strategy Page q t = Ok (data, pg) →
  ∃ opts, build q = Ok opts ∧ ∀ r, r ∈ data →
    r ∈ rows t ∧ matches r (merge_each (where_ opts)) && not_deleted r = true.
Proof.
  intros (opts & n & Hb & _ & _ & -> & _)%paginated_Ok. exists opts. split; [done|].
  intros r Hr%take_elem%drop_elem. rewrite arrange_permutes in Hr.
  apply elem_of_repo_find in Hr as (Hr & Hm & Hd). split; [done|]. rewrite Hm.
  unfold not_deleted. cbn in *. by rewrite Hd.
Qed.

(** C20: A listing of one page (neither a count nor unlimited) for a [regular]
    request (see QueryMeaning.v) that names neither [is_deleted] nor
    [deleted_at] returns live rows that meet every condition of the request, one
    of its alternatives and none of its exclusions, at most a page of them, and
    counts all of them.  A request that names one of the two columns replaces
    that half of the filter for live rows by its own condition
    ([soft_filter_overridden]). *)
Theorem listing_selects strategy q t data pg rd :
  reads q rd → regular entities root rd →
  (∀ p k, p ∈ constrained_paths entities root rd → head p = Some k → k ∉ soft_columns) →
  findPaginated strategy Page q t = Ok (data, pg) →
  ∃ sel : row → bool,
    (∀ r, sel r = true ↔
       live_row r = true ∧ (∀ c, c ∈ rd_scs rd ++ rd_fcs rd → meets holds r c) ∧
       (rd_ocs rd = [] ∨ ∃ c, c ∈ rd_ocs rd ∧ meets holds r c) ∧ not_excluded entities root q holds r) ∧
    total pg = length (List.filter sel (rows t)) ∧
    (∀ r, r ∈ data → r ∈ rows t ∧ sel r = true) ∧
    (length data ≤ Z.to_nat (page_size pg))%nat.
Proof.
  intros Hrd Hreg Hsoft Hp. pose proof (paginated_elem _ _ _ _ _ Hp) as (opts' & Hb' & Hdata).
  apply paginated_Ok in Hp as (opts & n & Hb & _ & _ & Hd & Ht & Hsize & _).
  assert (opts' = opts) as -> by congruence.
  exists (λ r, matches r (merge_each (where_ opts)) && not_deleted r). split_and!; [|by rewrite Ht, length_selection|done|].
  - intros r. by apply selection_meaning.
  - rewrite Hsize, Hd. apply List.firstn_le_length.
Qed.

(** A condition of the request on one of the two columns takes the place of the
    filter's. *)
Lemma soft_filter_overridden o k v :
  k ∈ soft_columns → obj_get k o = Some v → obj_get k (spread softDeleteFilter o) = Some v.
Proof.
  intros Hk Ho. unfold soft_columns in Hk. rewrite !elem_of_cons, elem_of_nil in Hk.
  destruct Hk as [->|[->|[]]]; cbn; by rewrite Ho.
Qed.

(** *** Paging through a listing *)

Definition set_page (p : jsv) (q : QueryParamsDTO) : QueryParamsDTO :=
  Query p (q_limit q) (q_offset q) (q_sort q) (q_s q) (q_filter q) (q_or q) (q_relations q) (q_fields q)
    (q_timezone q) (q_exclude_ids q).
Definition with_skip (s : skip_rows) (opts : FindManyOptions) : FindManyOptions :=
  FindOptions (take opts) s (order opts) (where_ opts) (relations_ opts) (select opts) (relationLoadStrategy opts).

(** The page number only moves the offset. *)
Lemma build_set_page p q opts :
  build q = Ok opts →
  build (set_page p q) = Ok (with_skip (applyPagination QUERY_MAX_LIMIT (set_page p q)).2 opts).
Proof.
  unfold build_query, QueryBuilder.build. intros Hb.
  change (applySorting entities root (set_page p q)) with (applySorting entities root q).
  change (applyFilters entities root JSON_parse dayjs_isValid dayjs_toISOString tz_toISOString tz_startOfDay
    tz_endOfDay (set_page p q)) with (applyFilters entities root JSON_parse dayjs_isValid dayjs_toISOString
    tz_toISOString tz_startOfDay tz_endOfDay q).
  change (applyRelations (set_page p q)) with (applyRelations q).
  change (applyFieldSelection entities root (set_page p q)) with (applyFieldSelection entities root q).
  change (applyExclusions entities root (set_page p q)) with (applyExclusions entities root q).
  assert ((applyPagination QUERY_MAX_LIMIT (set_page p q)).1 = (applyPagination QUERY_MAX_LIMIT q).1) as Htake
    by reflexivity.
  destruct (applyPagination QUERY_MAX_LIMIT q) as [tk sk].
  destruct (applyPagination QUERY_MAX_LIMIT (set_page p q)) as [tk' sk']. cbn in Htake. subst tk'.
  destruct (applySorting _ _ _) as [ord|]; [|done]. cbn [res_bind] in *.
  destruct (applyFilters _ _ _ _ _ _ _ _ _ _) as [[w n]|]; [|done]. cbn [res_bind] in *.
  destruct (applyRelations _ _) as [rels|]; [|done]. cbn [res_bind] in *.
  destruct (applyFieldSelection _ _ _) as [sel|]; [|done]. cbn [res_bind] in *.
  by injection Hb as <-.
Qed.
Lemma set_page_idem p q : set_page (q_page q) (set_page p q) = q.
Proof. by destruct q. Qed.

Lemma paginated_page q t opts m :
  build q = Ok opts → unknown_property (merge_each (where_ opts)) = None → rows_skipped (skip opts) = Ok m →
  ∃ pg, findPaginated None Page q t =
    Ok (List.firstn (Z.to_nat (take opts))
          (drop m (arrange (with_where (merge_each (where_ opts)) (with_strategy None opts))
             (repo_find (λ r, matches r (merge_each (where_ opts))) t))), pg).
Proof.
  intros Hb Hu Hm. unfold Listing.findPaginated, findEntitiesWithPagination. rewrite Hb. cbn [res_bind]. cbv zeta.
  unfold findAndCount, count, find, found. cbn [where_ with_where skip with_strategy order take].
  rewrite Hu. cbn [res_bind]. rewrite Hm. cbn. by eexists.
Qed.

Lemma firstn_add {A} n m (l : list A) : List.firstn (n + m) l = List.firstn n l ++ List.firstn m (drop n l).
Proof.
  revert l. induction n as [|n IH]; intros l; [done|]. destruct l as [|a l]; cbn; [by rewrite List.firstn_nil|].
  by rewrite IH.
Qed.
(** Consecutive blocks of a list. *)
Lemma blocks {A} lim n (l : list A) :
  concat (List.map (λ k, List.firstn lim (drop (k * lim) l)) (seq 0 n)) = List.firstn (n * lim) l.
Proof.
  revert l. induction n as [|n IH]; intros l; [done|]. cbn [seq List.map concat].
  rewrite <- seq_shift, map_map. cbn [Nat.mul drop]. rewrite firstn_add, <- (IH (drop lim l)). f_equal.
  f_equal. apply map_ext. intros k. by rewrite drop_drop.
Qed.

Lemma pages_enough total lim n :
  pages_of total lim = Some n → (0 < lim)%Z ∧ (0 ≤ n)%Z ∧ (total ≤ Z.to_nat n * Z.to_nat lim)%nat.
Proof.
  unfold pages_of. destruct (0 <? lim)%Z eqn:Hl; [|done]. apply Z.ltb_lt in Hl. intros [= <-].
  pose proof (Z.mul_div_le (- Z.of_nat total) lim Hl) as Hle.
  set (d := (- Z.of_nat total / lim)%Z) in *.
  assert (d ≤ 0)%Z as Hd by (apply Z.div_le_upper_bound; lia).
  split; [done|]. split; [lia|]. apply Nat2Z.inj_le. rewrite Nat2Z.inj_mul, !Z2Nat.id by lia. lia.
Qed.

Lemma pagination_page p k q :
  isValidOffset (js_Number (q_offset q)) = false → parsePositiveInteger p MIN_PAGE MIN_PAGE = Whole k →
  applyPagination QUERY_MAX_LIMIT (set_page p q) =
    ((applyPagination QUERY_MAX_LIMIT q).1, Rows ((k - 1) * (applyPagination QUERY_MAX_LIMIT q).1)%Z).
Proof. intros Ho Hp. unfold applyPagination. cbn [q_offset q_page q_limit set_page fst]. by rewrite Ho, Hp. Qed.

(** [ORDER BY] leaves no choice between two of the rows. *)
Definition decides (ord : option (list (string * direction))) (l : list row) : Prop :=
  ∀ r r', r ∈ l → r' ∈ l → before ord r r' → before ord r' r → r = r'.
Lemma arrange_unique opts opts' l :
  order opts = order opts' → decides (order opts) l → arrange opts l = arrange opts' l.
Proof.
  intros Ho Hd. apply (StronglySorted_unique_strong (before (order opts))).
  - intros r r' Hr Hr'. rewrite arrange_permutes in Hr, Hr'. by apply Hd.
  - apply arrange_sorted.
  - rewrite Ho. apply arrange_sorted.
  - by rewrite !arrange_permutes.
Qed.

(** C21: asking for the pages 1 to [total_pages] in turn, without an explicit
    offset, returns every selected row exactly once, if the requested order
    decides between any two rows and no row changes in between. *)
Theorem pages_cover q page_param t first pg n :
  isValidOffset (js_Number (q_offset q)) = false →
  (∀ opts, build q = Ok opts → decides (order opts) (rows t)) →
  findPaginated None Page (set_page (page_param 1%Z) q) t = Ok (first, pg) → total_pages pg = Some n →
  (∀ k, (1 ≤ k ≤ Z.max 1 n)%Z → parsePositiveInteger (page_param k) MIN_PAGE MIN_PAGE = Whole k) →
  ∃ opts pages, build q = Ok opts ∧
    Forall2 (λ k data, ∃ pg', findPaginated None Page (set_page (page_param k) q) t = Ok (data, pg'))
      (seqZ 1 n) pages ∧
    concat pages ≡ₚ List.filter (λ r, matches r (merge_each (where_ opts)) && not_deleted r) (rows t).
Proof.
  intros Ho Hdecides (opts1 & m1 & Hb1 & Hu & _ & _ & Ht & _ & Hpg)%paginated_Ok Hn Hparam.
  pose proof (build_set_page (q_page q) _ _ Hb1) as Hb. rewrite set_page_idem in Hb.
  set (opts := with_skip _ opts1) in Hb. rewrite Hn in Hpg. symmetry in Hpg.
  apply pages_enough in Hpg as (Hlim & Hn0 & Htotal).
  set (sel := repo_find (λ r, matches r (merge_each (where_ opts))) t).
  set (sorted := arrange opts sel). set (lim := Z.to_nat (take opts)).
  assert (decides (order opts) sel) as Hsel.
  { intros r r' (Hr & _)%elem_of_repo_find (Hr' & _)%elem_of_repo_find. by apply (Hdecides opts Hb). }
  exists opts, (List.map (λ k : nat, List.firstn lim (drop (k * lim) sorted)) (seq 0 (Z.to_nat n))).
  split; [done|]. split.
  - unfold seqZ. apply Forall2_fmap_l. apply Forall2_fmap_r. apply Forall2_same_length_lookup_2; [done|].
    intros i k k' Hk Hk'. rewrite Hk in Hk'. injection Hk' as <-. apply lookup_seq in Hk as [-> Hk]. cbn [Nat.add].
    assert (parsePositiveInteger (page_param (Z.of_nat i + 1)%Z) MIN_PAGE MIN_PAGE = Whole (Z.of_nat i + 1)%Z) as Hp
      by (apply Hparam; lia).
    pose proof (pagination_page _ _ _ Ho Hp) as Hpag.
    pose proof (build_set_page (page_param (Z.of_nat i + 1)%Z) q opts Hb) as Hbi. rewrite Hpag in Hbi. cbn [snd] in Hbi.
    assert ((applyPagination QUERY_MAX_LIMIT q).1 = take opts) as Htk
      by by apply build_Ok in Hb as [<- _].
    rewrite Htk in Hbi.
    destruct (paginated_page _ t _ (i * lim)%nat Hbi) as [pg' Hpg']; [done| |exists pg'].
    + cbn [skip with_skip]. rewrite rows_skipped_rows.
      * f_equal. replace (Z.of_nat i + 1 - 1)%Z with (Z.of_nat i) by lia.
        rewrite Z2Nat.inj_mul by (unfold opts; cbn; lia). by rewrite Nat2Z.id.
      * apply Z.mul_nonneg_nonneg; [lia|]. unfold opts. cbn. lia.
    + assert (∀ l l' : list row, l = l' → Ok (List.firstn lim (drop (i * lim) l), pg')
        = Ok (List.firstn lim (drop (i * lim) l'), pg')) as Hcong by (by intros l l' ->).
      rewrite Hpg'. apply Hcong. symmetry. unfold sorted. apply arrange_unique; [reflexivity|exact Hsel].
  - rewrite blocks. rewrite List.firstn_all2.
    + unfold sorted. rewrite arrange_permutes. unfold sel, repo_find. by rewrite select_rows.
    + unfold sorted. rewrite arrange_permutes. unfold lim, sel, opts. cbn. by rewrite <- Ht.
Qed.
(** *** [findAll] and alternatives *)

Lemma or_clause_array q opts rd :
  build q = Ok opts → reads q rd → rd_ocs rd ≠ [] → ∃ o l, where_ opts = AnyOf (o :: l).
Proof.
  intros (_ & _ & (w & n & Hf & ->) & _)%build_Ok Hrd Hne.
  apply applyFilters_Ok in Hf as (rd' & Hrd' & ->).
  rewrite (reads_det _ _ _ _ _ _ _ _ _ rd' rd) by done.
  destruct (rd_ocs rd) as [|c ocs]; [done|]. unfold combineAndOrConditions, applyExclusions. cbn [List.map].
  destruct (transformNullValues (deepMerge _ _)), (excludeIds q), (primaryColumns (metadata entities root)); cbn; eauto.
Qed.

(** [findAll] with an [or] parameter always fails: spreading the array of
    alternatives makes a condition on a property called 0. *)
Theorem findAll_or_rejected q t opts rd :
  build q = Ok opts → reads q rd → rd_ocs rd ≠ [] → "0" ∉ properties →
  ∃ m, findAll q t = Throw (with_code 400 "INVALID_PROPERTY" m).
Proof.
  intros Hb Hrd Hne Hzero. destruct (or_clause_array q opts rd Hb Hrd Hne) as (o & l & Hw).
  assert (∃ m, unknown_property (merge_flat (where_ opts)) = Some m) as [m Hm].
  { unfold merge_flat. rewrite Hw. set (flat := spread softDeleteFilter _).
    destruct (unknown_property (One flat)) as [m|] eqn:E; [by exists m|].
    exfalso. revert E. apply (unknown_refused flat "0"); [|done].
    unfold flat, spread, obj_keys. rewrite fmap_app. apply elem_of_app. right.
    apply list_elem_of_fmap. exists ("0", WObj o). split; [done|]. apply elem_of_List_filter. split; [by left|done]. }
  exists m. unfold Listing.findAll, findAllEntities. rewrite Hb. cbn [res_bind].
  unfold find, found. cbn [where_ with_where]. by rewrite Hm.
Qed.
End properties.

(** ** Sample and witnesses *)
Module Sample.
(** Rows with one column, [name]; the clauses the samples use. *)
Definition value_of (r : base_row string) (k : string) : option jsv :=
  if String.eqb k "id" then Some (JStr (id r))
  else if String.eqb k "name" then Some (JStr (cols r))
  else if String.eqb k "is_deleted" then Some (JBool (is_deleted r))
  else None.
Definition holds_b (r : base_row string) (p : list string) (v : wval) : bool :=
  match p, v with
  | [k], WVal (JStr s) => match value_of r k with Some (JStr s') => String.eqb s s' | _ => false end
  | [k], WVal (JBool b) => match value_of r k with Some (JBool b') => Bool.eqb b b' | _ => false end
  | [k], IsNull => String.eqb k "deleted_at" && not_deleted r
  | _, _ => false
  end.
Fixpoint sat_b (r : base_row string) (p : list string) (v : wval) : bool :=
  match v with
  | WObj o => (fix all (o : obj) : bool :=
      match o with [] => true | (k, x) :: o' => sat_b r (p ++ [k]) x && all o' end) o
  | And l => (fix all (l : list wval) : bool :=
      match l with [] => true | x :: l' => sat_b r p x && all l' end) l
  | Equal (WVal x) => match x with JNull | JUndefined => holds_b r p v | _ => holds_b r p (WVal x) end
  | _ => holds_b r p v
  end.
Definition holds (r : base_row string) (p : list string) (v : wval) : Prop := holds_b r p v = true.
Definition properties : list string := ["id"; "name"; "status"; "meta"; "owner"; "is_deleted"; "deleted_at"].

(** The engine sorts by the id when it is told to; else the rows come as they are
    stored, or, when some are skipped, the other way round. *)
Definition by_id (ord : option (list (string * direction))) : bool :=
  match ord with Some (("id", _) :: _) => true | _ => false end.
Definition leads (ord : option (list (string * direction))) (r r' : base_row string) : Prop :=
  by_id ord = true → (N_of_digits 0 (id r) ≤ N_of_digits 0 (id r'))%N.
#[export] Instance leads_dec ord r r' : Decision (leads ord r r').
Proof. unfold leads. apply _. Defined.
#[export] Instance leads_total ord : Total (leads ord).
Proof. intros r r'. unfold leads. destruct (N.le_ge_cases (N_of_digits 0 (id r)) (N_of_digits 0 (id r'))); auto. Qed.
#[export] Instance leads_transitive ord : Transitive (leads ord).
Proof. intros r1 r2 r3. unfold leads. intros H1 H2 Hb. specialize (H1 Hb). specialize (H2 Hb). lia. Qed.

#[export] Instance engine : QueryEngine (base_row string) := {
  matches r w := match w with One o => sat_b r [] (WObj o) | AnyOf l => existsb (λ o, sat_b r [] (WObj o)) l end;
  unknown_property w := match w with
    | One o => List.find (λ k, negb (includes properties k)) (obj_keys o)
    | AnyOf l => List.find (λ k, negb (includes properties k)) (List.flat_map obj_keys l)
    end;
  before ord r r' := leads ord r r';
  arrange opts l :=
    if by_id (order opts) then merge_sort (leads (order opts)) l
    else match skip opts with Rows 0%Z => l | _ => rev l end;
  rows_skipped s := match s with
    | Rows n => if (n <? 0)%Z then Throw (PlainError "OFFSET must not be negative") else Ok (Z.to_nat n)
    | _ => Throw (PlainError "not a row count") end;
}.
Lemma sat_b_sat r : ∀ v p, sat_b r p v = true ↔ sat holds r p v.
Proof.
  fix IH 1. intros v p. destruct v as [x|o|v| | | | | | | | | |l|]; try reflexivity.
  - cbn [sat_b sat]. induction o as [|[k x] o IHo]; [done|]. by rewrite andb_true_iff, IH, IHo.
  - destruct v as [[]| | | | | | | | | | | | |]; reflexivity.
  - cbn [sat_b sat]. induction l as [|x l IHl]; [done|]. by rewrite andb_true_iff, IH, IHl.
Qed.

#[export] Instance engine_laws : QueryEngineLaws holds properties.
Proof.
  split.
  - intros r [o|l]; cbn [matches engine sat_where]; [apply sat_b_sat|].
    rewrite existsb_true. by setoid_rewrite sat_b_sat.
  - intros r. unfold holds. cbn. by destruct (is_deleted r).
  - intros r. unfold holds, holds_b, not_deleted. cbn. by destruct (row_deleted_at r).
  - intros o k Hk Hno. cbn [unknown_property engine]. intros Hn.
    apply list_elem_of_In in Hk. pose proof (List.find_none _ _ Hn k Hk) as Hf. cbn in Hf.
    apply negb_false_iff, includes_true in Hf. done.
  - intros opts l. cbn [arrange engine]. destruct (by_id (order opts)); [by apply merge_sort_Permutation|].
    destruct (skip opts) as [|[]|]; try done; symmetry; apply Permutation_rev.
  - intros opts l. cbn [arrange before engine]. destruct (by_id (order opts)) eqn:E.
    + apply StronglySorted_merge_sort; apply _.
    + assert (∀ l, StronglySorted (leads (order opts)) l) as Hany; [|apply Hany].
      induction l0 as [|r l0 IH]; constructor; [done|]. apply Forall_forall. intros r' _. unfold leads. congruence.
  - intros n Hn. cbn [rows_skipped engine]. by rewrite (proj2 (Z.ltb_ge n 0)).
Qed.

Definition tasks : list (base_row string) :=
  [make_row "1" "a"; make_row "2" "b"; stamp_deleted 5 None None (make_row "3" "a"); make_row "4" "a";
   make_row "5" "a"; make_row "6" "a"].
Definition query (limit filter or : jsv) : QueryParamsDTO :=
  Query JUndefined limit JUndefined JUndefined JUndefined filter or JUndefined JUndefined None JUndefined.
Definition findPaginated (q : QueryParamsDTO) : result (list (base_row string) * IPagination) :=
  findPaginated (T := list) sample_entities "task" no_json (λ _, false) Ok (λ _ s, Ok s) (λ _ s, Ok s)
    (λ _ s, Ok s) JUndefined "tasks" ["owner"] None Page q tasks.
Definition findAll (q : QueryParamsDTO) : result (list (base_row string)) :=
  findAll (T := list) sample_entities "task" no_json (λ _, false) Ok (λ _ s, Ok s) (λ _ s, Ok s)
    (λ _ s, Ok s) JUndefined "tasks" ["owner"] q tasks.
Definition named_a : QueryParamsDTO := query (JNum "2") (JStr "name||$eq||a") JUndefined.
(** The same with a sort the rows' ids decide. *)
Definition named_a_by_id : QueryParamsDTO :=
  Query JUndefined (JNum "2") JUndefined (JStr "id") JUndefined (JStr "name||$eq||a") JUndefined JUndefined JUndefined
    None JUndefined.
Definition named_a_reading : reading :=
  Reading [] [Filter "name" F_eq "a"] [] [] [Some (["name"], WVal (JStr "a"))] [].
Definition page_param (k : Z) : jsv := JNum (match k with 1 => "1" | 2 => "2" | _ => "3" end)%Z.

Definition ids_of_page (k : Z) (q : QueryParamsDTO) : option (list string) :=
  match findPaginated (set_page (page_param k) q) with Ok (data, _) => Some (List.map id data) | Throw _ => None end.
Example pages_by_id : (ids_of_page 1 named_a_by_id, ids_of_page 2 named_a_by_id) = (Some ["1"; "4"], Some ["5"; "6"]).
Proof. by vm_compute. Qed.
(** Without a sort the pages may return rows twice and leave others out. *)
Example pages_unsorted : (ids_of_page 1 named_a, ids_of_page 2 named_a) = (Some ["1"; "4"], Some ["4"; "1"]).
Proof. by vm_compute. Qed.

Lemma tasks_decided o l : decides (Some (("id", o) :: l)) tasks.
Proof.
  intros r r' Hr Hr' H1 H2. specialize (H1 eq_refl). specialize (H2 eq_refl).
  unfold tasks in Hr, Hr'. rewrite !elem_of_cons, elem_of_nil in Hr, Hr'.
  destruct_or! Hr; destruct_or! Hr'; subst; try done; exfalso; vm_compute in H1, H2; congruence.
Qed.
End Sample.

#[local] Existing Instance Sample.engine.
#[local] Existing Instance Sample.engine_laws.

Lemma listing_selects_witness :
  ∃ data pg, Sample.findPaginated Sample.named_a = Ok (data, pg) ∧
    ∃ sel : base_row string → bool, total pg = length (List.filter sel Sample.tasks) ∧
      ∀ r, r ∈ data → r ∈ Sample.tasks ∧ sel r = true.
Proof.
  destruct (Sample.findPaginated Sample.named_a) as [[data pg]|e] eqn:E; [|vm_compute in E; discriminate E].
  exists data, pg. split; [reflexivity|].
  destruct (listing_selects Sample.holds Sample.properties sample_entities "task" no_json (λ _, false) Ok
    (λ _ s, Ok s) (λ _ s, Ok s) (λ _ s, Ok s) JUndefined "tasks" ["owner"] None Sample.named_a Sample.tasks
    data pg Sample.named_a_reading) as (sel & _ & Ht & Hin & _); [| | |exact E|].
  - unfold reads. split; [reflexivity|]. split; [by vm_compute|]. split; [by vm_compute|].
    exists 0%nat, 0%nat, 0%nat. split; [reflexivity|]. split; by vm_compute.
  - split.
    + constructor.
    + apply unambiguous_check. by vm_compute.
    + apply separated_once. apply (bool_decide_eq_true_1 _). by vm_compute.
    + intros p Hin. cbn in Hin. by apply elem_of_nil in Hin.
  - intros p k Hp Hk. change (p ∈ [["name"]; ["id"]]) in Hp. rewrite !elem_of_cons, elem_of_nil in Hp.
    destruct Hp as [->|[->|[]]]; injection Hk as <-; apply (bool_decide_eq_true_1 _); by vm_compute.
  - by exists sel.
Defined.

Lemma pages_cover_witness :
  ∃ pages : list (list (base_row string)),
    Forall2 (λ k data, ∃ pg, Sample.findPaginated (set_page (Sample.page_param k) Sample.named_a_by_id) = Ok (data, pg))
      [1; 2]%Z pages ∧
    List.map id (concat pages) ≡ₚ ["1"; "4"; "5"; "6"].
Proof.
  destruct (Sample.findPaginated (set_page (Sample.page_param 1) Sample.named_a_by_id)) as [[first pg]|e] eqn:E;
    [|vm_compute in E; discriminate E].
  destruct (pages_cover Sample.holds Sample.properties sample_entities "task" no_json (λ _, false) Ok
    (λ _ s, Ok s) (λ _ s, Ok s) (λ _ s, Ok s) JUndefined "tasks" ["owner"] Sample.named_a_by_id Sample.page_param
    Sample.tasks first pg 2%Z) as (opts & pages & Hb & Hp & Hc).
  - by vm_compute.
  - intros opts Hb. vm_compute in Hb. injection Hb as <-. apply Sample.tasks_decided.
  - exact E.
  - vm_compute in E. by injection E as _ <-.
  - intros k Hk. assert (k = 1 ∨ k = 2)%Z as [->| ->] by lia; by vm_compute.
  - exists pages. split; [exact Hp|]. rewrite Hc. vm_compute in Hb. injection Hb as <-. by vm_compute.
Defined.

Lemma findAll_or_rejected_witness :
  ∃ m, Sample.findAll (Sample.query JUndefined JUndefined (JStr "name||$eq||a"))
       = Throw (with_code 400 "INVALID_PROPERTY" m).
Proof.
  destruct (build_query sample_entities "task" no_json (λ _, false) Ok (λ _ s, Ok s) (λ _ s, Ok s) (λ _ s, Ok s)
    JUndefined ["owner"] (Sample.query JUndefined JUndefined (JStr "name||$eq||a"))) as [opts|e] eqn:E;
    [|vm_compute in E; discriminate E].
  apply (findAll_or_rejected (T := list) Sample.holds Sample.properties sample_entities "task" no_json (λ _, false) Ok
    (λ _ s, Ok s) (λ _ s, Ok s) (λ _ s, Ok s) JUndefined "tasks" ["owner"] _ Sample.tasks opts
    (Reading [] [] [Filter "name" F_eq "a"] [] [] [Some (["name"], WVal (JStr "a"))]) E).
  - unfold reads. split; [reflexivity|]. split; [by vm_compute|]. split; [by vm_compute|].
    exists 0%nat, 0%nat, 0%nat. split; [reflexivity|]. split; by vm_compute.
  - done.
  - apply (bool_decide_eq_true_1 _). by vm_compute.
Defined.
