(* ===== verification/AuthService.v ===== *)
(** * Authentication

    Model of [AuthService] (src/apps/auth/src/modules/auth/services/auth.service.ts):
    login with its lockout, token refresh, logout and the credential operations,
    of [SessionsService] (sessions.service.ts) and of [parseDurationToSeconds]
    (utils/duration.util.ts).

    The service writes to five tables and the session store without a
    transaction, so what was written before a [throw] stays: an operation is a
    state-passing computation that returns the state with the exception.
    bcrypt, SHA-256, the random generators, the JWT library and the two calls to
    iam-bc are arguments; [now] is the clock in milliseconds, the same for the
    whole of one operation. *)

From stdpp Require Import pretty.
From S2P Require Import Prelude JsString JsValues Repo BaseService SessionStore.
#[local] Open Scope string_scope.
#[local] Open Scope Z_scope.

(** ** Data *)

Record credential := Credential {
  c_user_id : string; c_username : string; password_hash : string; is_active : bool;
  must_change_password : bool;
}.
Record refresh_token := RefreshToken {
  t_user_id : string; token_hash : string; expires_at : Z; revoked_at : option Z;
}.
Record login_history := LoginHistory {
  h_user_id : option string; h_username : string; h_ip : option string; h_agent : option string;
  is_success : bool; logged_in_at : Z;
}.
Record blocked_user := BlockedUser {
  b_user_id : string; b_reason : string; blocked_until : option Z; blocked_by : option string;
}.
Record security_log := SecurityLog {
  event_type : string; l_user_id : option string; l_ip : option string; l_detail : option string;
}.

(** What iam-bc answers. *)
Record IIamUser := IamUser {
  i_user_id : string; i_username : string; i_email : option string; i_full_name : option string;
  i_status : string; i_expired_at : option string;
}.
Record IResolvedPermissions := Resolved {
  r_roles : list string; r_permissions : list string; r_conditional : list string;
}.
Definition no_permissions : IResolvedPermissions := Resolved [] [] [].

(** The JWT payload. *)
Record jwt_payload := JwtPayload {
  p_sub : string; p_username : string; p_fullname : option string; p_email : option string; p_jti : string;
}.
Record ILoginResult := LoginResult {
  access_token : string; refresh_token_raw : string; csrf_token : string; expires_in : Z;
  lr_must_change_password : bool;
}.

Definition MAX_FAILED_ATTEMPTS : nat := 5.
Definition FAILED_ATTEMPTS_WINDOW_MINUTES : Z := 15.
Definition AUTO_LOCK_MINUTES : Z := 30.

(** ** Durations *)

(** [/^(\d+)([smhd])$/] on the trimmed text, as a number of seconds. *)
Definition unit_seconds (c : ascii) : option Z :=
  if Ascii.eqb c "s" then Some 1 else if Ascii.eqb c "m" then Some 60
  else if Ascii.eqb c "h" then Some (60 * 60) else if Ascii.eqb c "d" then Some (24 * 60 * 60) else None.
Definition parseDurationToSeconds (duration : string) : result Z :=
  let '(digits, rest) := span is_digit (trim duration) in
  match rest with
  | String u "" =>
      match unit_seconds u with
      | Some n => if String.eqb digits "" then Throw (PlainError "Invalid duration format")
                  else Ok (Z.of_N (N_of_digits 0 digits) * n)
      | None => Throw (PlainError "Invalid duration format")
      end
  | _ => Throw (PlainError "Invalid duration format")
  end.

(** ** State *)

Record auth_state (T : Type → Type) (S : Type) := AuthState {
  credentials : T (base_row credential);
  refreshTokens : T (base_row refresh_token);
  loginHistories : T (base_row login_history);
  blockedUsers : T (base_row blocked_user);
  securityLogs : T (base_row security_log);
  sessions : S;
  (** How many identifiers have been drawn. *)
  drawn : nat;
}.
Arguments AuthState {T S}. Arguments credentials {T S}. Arguments refreshTokens {T S}.
Arguments loginHistories {T S}. Arguments blockedUsers {T S}. Arguments securityLogs {T S}.
Arguments sessions {T S}. Arguments drawn {T S}.

Section service.
Context {T : Type → Type} `{Database T} {S V : Type} `{Redis S V} `{!Json ISessionData V}.
Context (bcrypt_hash : nat → string → string) (bcrypt_compare : string → string → bool)
        (sha256_hex : string → string) (uuid random_hex : nat → string)
        (jwt_sign : jwt_payload → Z → string).
Context (FindById : string → result (option IIamUser))
        (ResolvePermissions : string → result (option IResolvedPermissions)).
(** [JWT_ACCESS_EXPIRES_IN], [JWT_REFRESH_EXPIRES_IN] *)
Context (access_expires_in refresh_expires_in : option string).
Abbreviation state := (auth_state T S).

Definition svc (A : Type) : Type := state → result A * state.
Definition done_ {A} (a : A) : svc A := λ s, (Ok a, s).
Definition raise {A} (e : exn) : svc A := λ s, (Throw e, s).
Definition run {A} (r : result A) : svc A := λ s, (r, s).
Definition then_ {A B} (m : svc A) (k : A → svc B) : svc B :=
  λ s, match m s with (Ok a, s') => k a s' | (Throw e, s') => (Throw e, s') end.
Notation "'let*' x ':=' m 'in' k" := (then_ m (λ x, k)) (at level 10, x pattern, m at level 100, k at level 200).
Definition read {A} (f : state → A) : svc A := λ s, (Ok (f s), s).
Definition draw (gen : nat → string) : svc string :=
  λ s, (Ok (gen (drawn s)), AuthState (credentials s) (refreshTokens s) (loginHistories s) (blockedUsers s)
                              (securityLogs s) (sessions s) (Datatypes.S (drawn s))).

Definition on_credentials (f : T (base_row credential) → T (base_row credential)) : svc unit :=
  λ s, (Ok tt, AuthState (f (credentials s)) (refreshTokens s) (loginHistories s) (blockedUsers s)
                 (securityLogs s) (sessions s) (drawn s)).
Definition on_tokens (f : T (base_row refresh_token) → T (base_row refresh_token)) : svc unit :=
  λ s, (Ok tt, AuthState (credentials s) (f (refreshTokens s)) (loginHistories s) (blockedUsers s)
                 (securityLogs s) (sessions s) (drawn s)).
Definition on_histories (f : T (base_row login_history) → T (base_row login_history)) : svc unit :=
  λ s, (Ok tt, AuthState (credentials s) (refreshTokens s) (f (loginHistories s)) (blockedUsers s)
                 (securityLogs s) (sessions s) (drawn s)).
Definition on_blocked (f : T (base_row blocked_user) → T (base_row blocked_user)) : svc unit :=
  λ s, (Ok tt, AuthState (credentials s) (refreshTokens s) (loginHistories s) (f (blockedUsers s))
                 (securityLogs s) (sessions s) (drawn s)).
Definition on_logs (f : T (base_row security_log) → T (base_row security_log)) : svc unit :=
  λ s, (Ok tt, AuthState (credentials s) (refreshTokens s) (loginHistories s) (blockedUsers s)
                 (f (securityLogs s)) (sessions s) (drawn s)).
Definition on_sessions (f : S → S) : svc unit :=
  λ s, (Ok tt, AuthState (credentials s) (refreshTokens s) (loginHistories s) (blockedUsers s)
                 (securityLogs s) (f (sessions s)) (drawn s)).

(** ** The private helpers *)

Definition writeSecurityLog (eventType : string) (userId ipAddress detail : option string) : svc unit :=
  let* k := draw uuid in
  on_logs (db_insert (make_row k (SecurityLog eventType userId ipAddress detail))).

Definition recordLoginAttempt (now : Z) (userId : option string) (username : string)
    (ipAddress userAgent : option string) (isSuccess : bool) : svc unit :=
  let* k := draw uuid in
  let* _ := on_histories (db_insert (make_row k
              (LoginHistory userId username ipAddress userAgent isSuccess now))) in
  if isSuccess then done_ tt
  else writeSecurityLog "login_failed" userId ipAddress (Some ("username=" +:+ username)).

(** A block in force. *)
Definition blocks (now : Z) (userId : string) (b : base_row blocked_user) : bool :=
  String.eqb (b_user_id (cols b)) userId &&
  match blocked_until (cols b) with None => true | Some u => now <? u end.
Definition assertNotBlocked (now : Z) (userId : string) : svc unit :=
  let* active := read (λ s, repo_findOne (blocks now userId) (blockedUsers s)) in
  match active with
  | Some _ => raise (ForbiddenException "This account is currently blocked.")
  | None => done_ tt
  end.

Definition failure_of (userId : string) (h : base_row login_history) : bool :=
  bool_decide (h_user_id (cols h) = Some userId) && negb (is_success (cols h)).
Definition failure_since (since : Z) (userId : string) (h : base_row login_history) : bool :=
  failure_of userId h && (since <? logged_in_at (cols h)).

Definition lockAfterTooManyFailures (now : Z) (userId : string) : svc unit :=
  let since := now - FAILED_ATTEMPTS_WINDOW_MINUTES * 60 * 1000 in
  let* recentFailures := read (λ s, repo_count (failure_of userId) (loginHistories s)) in
  if (recentFailures <? MAX_FAILED_ATTEMPTS)%nat then done_ tt
  else
    let* recentFailuresInWindow := read (λ s, repo_count (failure_since since userId) (loginHistories s)) in
    if (recentFailuresInWindow <? MAX_FAILED_ATTEMPTS)%nat then done_ tt
    else
      let* k := draw uuid in
      let* _ := on_blocked (db_insert (make_row k
                  (BlockedUser userId "Too many failed login attempts"
                     (Some (now + AUTO_LOCK_MINUTES * 60 * 1000)) None))) in
      writeSecurityLog "account_blocked" (Some userId) None (Some "Too many failed login attempts").

Definition isExpired (today : string) (expiredAt : option string) : bool :=
  match expiredAt with
  | None => false
  | Some d => if String.eqb d "" then false else str_lt d today
  end.

Definition issueTokens (now : Z) (iamUser : IIamUser) (resolved : IResolvedPermissions)
    (mustChangePassword : bool) : svc ILoginResult :=
  let* jti := draw uuid in
  let* accessTtlSeconds := run (parseDurationToSeconds (default "15m" access_expires_in)) in
  let* refreshTtlSeconds := run (parseDurationToSeconds (default "7d" refresh_expires_in)) in
  let accessToken := jwt_sign (JwtPayload (i_user_id iamUser) (i_username iamUser) (i_full_name iamUser)
                                 (i_email iamUser) jti) accessTtlSeconds in
  let* refreshTokenRaw := draw random_hex in
  let* k := draw uuid in
  let* _ := on_tokens (db_insert (make_row k
              (RefreshToken (i_user_id iamUser) (sha256_hex refreshTokenRaw)
                 (now + refreshTtlSeconds * 1000) None))) in
  let* _ := on_sessions (create_session (V := V) jti
              (SessionData (i_user_id iamUser) (i_username iamUser) (i_full_name iamUser) (i_email iamUser)
                 (r_roles resolved) (r_permissions resolved) (r_conditional resolved)
                 (i_expired_at iamUser) mustChangePassword) accessTtlSeconds) in
  let* csrf := draw random_hex in
  done_ (LoginResult accessToken refreshTokenRaw csrf accessTtlSeconds mustChangePassword).

(** The account checks [login] and [refresh] share, then the tokens. *)
Definition resolve_permissions (userId : string) : svc IResolvedPermissions :=
  let* resolved := run (ResolvePermissions userId) in
  done_ (default no_permissions resolved).

(** ** Login, refresh, logout *)

Definition login (now : Z) (today username password : string) (ipAddress userAgent : option string) :
    svc ILoginResult :=
  let* found := read (λ s, repo_findOne
                  (λ c, String.eqb (c_username (cols c)) username && negb (is_deleted c)) (credentials s)) in
  match found with
  | None =>
      let* _ := recordLoginAttempt now None username ipAddress userAgent false in
      raise (UnauthorizedException "Invalid username or password.")
  | Some row =>
      let credential := cols row in
      let userId := c_user_id credential in
      let failed := recordLoginAttempt now (Some userId) username ipAddress userAgent false in
      let* _ := assertNotBlocked now userId in
      if negb (is_active credential) then
        let* _ := failed in raise (ForbiddenException "This account has been disabled.")
      else if negb (bcrypt_compare password (password_hash credential)) then
        let* _ := failed in
        let* _ := lockAfterTooManyFailures now userId in
        raise (UnauthorizedException "Invalid username or password.")
      else
        let* iamUser := run (FindById userId) in
        match iamUser with
        | Some u =>
            if negb (String.eqb (i_status u) "active") then
              let* _ := failed in raise (ForbiddenException "This user account is not active.")
            else if isExpired today (i_expired_at u) then
              let* _ := failed in raise (ForbiddenException "This user account has expired.")
            else
              let* resolved := resolve_permissions userId in
              let* result := issueTokens now u resolved (must_change_password credential) in
              let* _ := recordLoginAttempt now (Some userId) username ipAddress userAgent true in
              let* _ := writeSecurityLog "login_success" (Some userId) ipAddress None in
              done_ result
        | None => let* _ := failed in raise (ForbiddenException "This user account is not active.")
        end
  end.

Definition usable_token (now : Z) (hash : string) (r : base_row refresh_token) : bool :=
  String.eqb (token_hash (cols r)) hash &&
  match revoked_at (cols r) with None => true | Some _ => false end && (now <? expires_at (cols r)).
Definition revoke_token (now : Z) : base_row refresh_token → base_row refresh_token :=
  with_cols (λ t, RefreshToken (t_user_id t) (token_hash t) (expires_at t) (Some now)).
Definition invalid_refresh : exn := UnauthorizedException "Refresh token is invalid or expired.".

(** The lookup and what follows it are separate round trips. *)
Definition refresh_lookup (now : Z) (refreshTokenRaw : string) : svc (option (base_row refresh_token)) :=
  read (λ s, repo_findOne (usable_token now (sha256_hex refreshTokenRaw)) (refreshTokens s)).
Definition refresh_with (now : Z) (today : string) (found : option (base_row refresh_token)) : svc ILoginResult :=
  match found with
  | None => raise invalid_refresh
  | Some row =>
      let userId := t_user_id (cols row) in
      let* _ := on_tokens (repo_save (revoke_token now row)) in
      let* credential := read (λ s, repo_findOne (λ c, String.eqb (c_user_id (cols c)) userId) (credentials s)) in
      match credential with
      | Some c =>
          if negb (is_active (cols c)) then raise invalid_refresh
          else
            let* _ := assertNotBlocked now userId in
            let* iamUser := run (FindById userId) in
            match iamUser with
            | Some u =>
                if negb (String.eqb (i_status u) "active") then
                  raise (ForbiddenException "This user account is not active.")
                else if isExpired today (i_expired_at u) then
                  raise (ForbiddenException "This user account has expired.")
                else
                  let* resolved := resolve_permissions userId in
                  issueTokens now u resolved (must_change_password (cols c))
            | None => raise (ForbiddenException "This user account is not active.")
            end
      | None => raise invalid_refresh
      end
  end.
Definition refresh (now : Z) (today refreshTokenRaw : string) : svc ILoginResult :=
  let* found := refresh_lookup now refreshTokenRaw in
  refresh_with now today found.

Definition logout (now : Z) (jti userId refreshTokenRaw : option string) : svc unit :=
  let* _ := match truthy jti with
            | Some j => on_sessions (SessionStore.revoke (V := V) j)
            | None => done_ tt
            end in
  let* _ := match truthy refreshTokenRaw with
            | Some raw => on_tokens (λ t, (db_update
                (λ r, String.eqb (token_hash (cols r)) (sha256_hex raw) &&
                      match revoked_at (cols r) with None => true | Some _ => false end)
                (revoke_token now) t).1)
            | None => done_ tt
            end in
  writeSecurityLog "logout" userId None None.

(** ** Credentials *)

Definition found_credential (userId : string) : svc (option (base_row credential)) :=
  read (λ s, repo_findOne (λ c, String.eqb (c_user_id (cols c)) userId) (credentials s)).
Definition hashed (password : string) : svc string :=
  λ s, (Ok (bcrypt_hash (drawn s) password),
        AuthState (credentials s) (refreshTokens s) (loginHistories s) (blockedUsers s)
          (securityLogs s) (sessions s) (Datatypes.S (drawn s))).
(** [repo.save(repo.create({ ... }))]: a new row with its creator. *)
Definition insert_credential (by_ : option string) (c : credential) : svc unit :=
  let* k := draw uuid in
  on_credentials (db_insert (set_creator (Some (UserSession by_)) (make_row k c))).
Definition save_credential (by_ : option string) (row : base_row credential) (c : credential) : svc unit :=
  on_credentials (repo_save (set_updater (Some (UserSession by_)) (with_cols (λ _, c) row))).

Definition by_text (what : string) (by_ : option string) : option string :=
  Some (what +:+ "by " +:+ default "system" by_).

(** [setCredential]: an existing credential keeps its [must_change_password]. *)
Definition setCredential (userId username password : string) (actingUserId : option string) : svc unit :=
  let* passwordHash := hashed password in
  let* credential := found_credential userId in
  let* _ := match credential with
            | Some row => save_credential actingUserId row
                (Credential (c_user_id (cols row)) username passwordHash true (must_change_password (cols row)))
            | None => insert_credential actingUserId (Credential userId username passwordHash true false)
            end in
  writeSecurityLog "password_set" (Some userId) None (by_text "" actingUserId).

Definition createInitialCredential (userId username password : string) (created_by : option string) : svc unit :=
  let* passwordHash := hashed password in
  let* _ := insert_credential created_by (Credential userId username passwordHash true true) in
  writeSecurityLog "password_set" (Some userId) None (by_text "initial password set " created_by).

Definition resetPassword (userId username password : string) (reset_by : option string) : svc unit :=
  let* passwordHash := hashed password in
  let* credential := found_credential userId in
  let* _ := match credential with
            | Some row => save_credential reset_by row
                (Credential (c_user_id (cols row)) username passwordHash true true)
            | None => insert_credential reset_by (Credential userId username passwordHash true true)
            end in
  let* _ := on_sessions (λ s, (setMustChangePasswordForUser (V := V) userId true s).2) in
  writeSecurityLog "password_set" (Some userId) None (by_text "password reset " reset_by).

Definition changePassword (userId current_password new_password confirm_password : string) : svc unit :=
  if negb (String.eqb new_password confirm_password) then
    raise (BadRequestException "New password and confirmation do not match.")
  else
    let* credential := read (λ s, repo_findOne
        (λ c, String.eqb (c_user_id (cols c)) userId && negb (is_deleted c)) (credentials s)) in
    match credential with
    | None => raise (UnauthorizedException "Credential not found.")
    | Some row =>
        if negb (bcrypt_compare current_password (password_hash (cols row))) then
          raise (UnauthorizedException "Current password is incorrect.")
        else
          let* passwordHash := hashed new_password in
          let* _ := save_credential (Some userId) row
            (Credential (c_user_id (cols row)) (c_username (cols row)) passwordHash (is_active (cols row)) false) in
          let* _ := on_sessions (λ s, (setMustChangePasswordForUser (V := V) userId false s).2) in
          writeSecurityLog "password_changed" (Some userId) None None
    end.

(** ** [SessionsService] *)

Record active_session := ActiveEntry {
  e_jti : string; e_user_id : string; e_username : option string; e_ttl : Z; e_expires_at : Z;
}.
(** The last credential of a user wins, as in the constructor of [Map]. *)
Definition username_of (rows : list (base_row credential)) (userId : string) : option string :=
  foldl (λ acc c, if String.eqb (c_user_id (cols c)) userId then Some (c_username (cols c)) else acc) None rows.

(** [findActive]: a page of the keys, the expired ones left out, and the
    number of keys; [keys] is the result of the scan. *)
Definition findActive (now : Z) (keys : list string) (page limit : Z) : svc (list active_session * Z * Z * nat * Z) :=
  let safeLimit := Z.max 1 limit in
  let safePage := Z.max 1 page in
  let pageKeys := List.firstn (Z.to_nat safeLimit) (drop (Z.to_nat ((safePage - 1) * safeLimit)) keys) in
  let* entries := read (λ s, List.map (λ key, let jti := jtiFromKey key in
                    (jti, get_session (V := V) jti (sessions s), session_ttl (V := V) jti (sessions s))) pageKeys) in
  let userIds := js_set (omap (λ e : string * option ISessionData * Z,
                    match e.1.2 with Some d => truthy (Some (s_user_id d)) | None => None end) entries) in
  let* creds := match userIds with
                | [] => done_ []
                | _ => read (λ s, repo_find (λ c, includes userIds (c_user_id (cols c))) (credentials s))
                end in
  let data := omap (λ e : string * option ISessionData * Z,
                match e with
                | (jti, Some d, t) =>
                    if 0 <? t then Some (ActiveEntry jti (s_user_id d) (username_of creds (s_user_id d)) t (now + t * 1000))
                    else None
                | _ => None
                end) entries in
  let total := length keys in
  done_ (data, safePage, safeLimit, total, Z.max 1 (- (- Z.of_nat total / safeLimit))).

Definition findActiveForUser (now : Z) (userId : string) : svc (nat * list (string * Z * Z)) :=
  let* active := λ s, let '(active, s') := listActiveSessions (V := V) userId (sessions s) in
                      (Ok active, AuthState (credentials s) (refreshTokens s) (loginHistories s)
                         (blockedUsers s) (securityLogs s) s' (drawn s)) in
  done_ (length active, List.map (λ a, (a_jti a, a_ttl a, now + a_ttl a * 1000)) active).

Definition revoke_session (now : Z) (jti : string) (revokedBy : option string) : svc unit :=
  let* session := read (λ s, get_session (V := V) jti (sessions s)) in
  match session with
  | None => raise (NotFoundException ("Session '" +:+ jti +:+ "' not found or already expired."))
  | Some d =>
      let* _ := on_sessions (SessionStore.revoke (V := V) jti) in
      let* _ := on_tokens (λ t, (db_update
          (λ r, String.eqb (t_user_id (cols r)) (s_user_id d) &&
                match revoked_at (cols r) with None => true | Some _ => false end)
          (revoke_token now) t).1) in
      writeSecurityLog "session_revoked_by_admin" (Some (s_user_id d)) None
        (Some ("session " +:+ jti +:+ " revoked by " +:+ default "unknown admin" revokedBy))
  end.
End service.


Create HintDb spending.

(** ** Properties *)
Section properties.
Context {T : Type → Type} `{DatabaseLaws T} {S V : Type} `{RedisLaws S V} `{!Json ISessionData V}.
Context (bcrypt_hash : nat → string → string) (bcrypt_compare : string → string → bool)
        (sha256_hex : string → string) (uuid random_hex : nat → string)
        (jwt_sign : jwt_payload → Z → string).
Context (FindById : string → result (option IIamUser))
        (ResolvePermissions : string → result (option IResolvedPermissions)).
Context (access_expires_in refresh_expires_in : option string).
Abbreviation state := (auth_state T S).
Implicit Types (s : state) (c : base_row credential).

Abbreviation recordLoginAttempt := (recordLoginAttempt (T := T) (S := S) uuid).
Abbreviation lockAfterTooManyFailures := (lockAfterTooManyFailures (T := T) (S := S) uuid).
Abbreviation assertNotBlocked := (assertNotBlocked (T := T) (S := S)).
Abbreviation issueTokens := (issueTokens (T := T) (V := V) sha256_hex uuid random_hex jwt_sign
  access_expires_in refresh_expires_in).
Abbreviation login := (login (T := T) (V := V) bcrypt_compare sha256_hex uuid random_hex jwt_sign FindById
  ResolvePermissions access_expires_in refresh_expires_in).
Abbreviation refresh_with := (refresh_with (T := T) (V := V) sha256_hex uuid random_hex jwt_sign FindById
  ResolvePermissions access_expires_in refresh_expires_in).
Abbreviation refresh := (refresh (T := T) (V := V) sha256_hex uuid random_hex jwt_sign FindById
  ResolvePermissions access_expires_in refresh_expires_in).

(** *** Frames *)

(** The part of the state that decides who gets in. *)
Record same_access s s' : Prop := {
  same_credentials : credentials s' = credentials s;
  same_tokens : refreshTokens s' = refreshTokens s;
  same_sessions : sessions s' = sessions s;
}.
Lemma same_access_refl s : same_access s s.
Proof. done. Qed.
Lemma same_access_trans s1 s2 s3 : same_access s1 s2 → same_access s2 s3 → same_access s1 s3.
Proof. intros [E1 E2 E3] [E4 E5 E6]. split; congruence. Qed.

Lemma then_Ok {A B} (m : svc A) (k : A → svc B) s b s' :
  then_ (T := T) (S := S) m k s = (Ok b, s') → ∃ a s1, m s = (Ok a, s1) ∧ k a s1 = (Ok b, s').
Proof. unfold then_. destruct (m s) as [[a|e] s1]; [eauto|done]. Qed.

Lemma record_spec now uid username ip ua ok s :
  ∃ k s', recordLoginAttempt now uid username ip ua ok s = (Ok tt, s') ∧ same_access s s' ∧
    blockedUsers s' = blockedUsers s ∧
    loginHistories s' = db_insert (make_row k (LoginHistory uid username ip ua ok now)) (loginHistories s).
Proof. exists (uuid (drawn s)). destruct ok; eexists; by split_and!. Qed.

Lemma blocked_spec now uid s :
  assertNotBlocked now uid s =
    match repo_findOne (blocks now uid) (blockedUsers s) with
    | Some _ => (Throw (ForbiddenException "This account is currently blocked."), s)
    | None => (Ok tt, s)
    end.
Proof. unfold AuthService.assertNotBlocked, then_, read. by destruct (repo_findOne _ _). Qed.

(** The lock: a new block once both counts reach the limit. *)
Definition window_start (now : Z) : Z := now - FAILED_ATTEMPTS_WINDOW_MINUTES * 60 * 1000.
Definition lock_until (now : Z) : Z := now + AUTO_LOCK_MINUTES * 60 * 1000.
Lemma lock_spec now uid s :
  ∃ s', lockAfterTooManyFailures now uid s = (Ok tt, s') ∧ same_access s s' ∧
    loginHistories s' = loginHistories s ∧
    (blockedUsers s' = blockedUsers s ∨
     ∃ k r, blockedUsers s' = db_insert (make_row k (BlockedUser uid r (Some (lock_until now)) None))
                              (blockedUsers s)) ∧
    (MAX_FAILED_ATTEMPTS ≤ repo_count (failure_of uid) (loginHistories s) →
     MAX_FAILED_ATTEMPTS ≤ repo_count (failure_since (window_start now) uid) (loginHistories s) →
     ∃ k r, blockedUsers s' = db_insert (make_row k (BlockedUser uid r (Some (lock_until now)) None))
                              (blockedUsers s))%nat.
Proof.
  unfold AuthService.lockAfterTooManyFailures, then_, read.
  destruct (repo_count (failure_of uid) (loginHistories s) <? MAX_FAILED_ATTEMPTS)%nat eqn:E1.
  { apply Nat.ltb_lt in E1. exists s. split_and!; [done..|by left|lia]. }
  fold (window_start now).
  destruct (repo_count (failure_since (window_start now) uid) (loginHistories s) <? MAX_FAILED_ATTEMPTS)%nat eqn:E2.
  { apply Nat.ltb_lt in E2. exists s. split_and!; [done..|by left|lia]. }
  eexists. split; [reflexivity|]. split; [done|]. split; [done|]. split; [right|intros _ _]; by do 2 eexists.
Qed.

(** *** Tokens *)

Definition access_ttl : result Z := parseDurationToSeconds (default "15m" access_expires_in).
Definition refresh_ttl : result Z := parseDurationToSeconds (default "7d" refresh_expires_in).

(** What [issueTokens] leaves: a session under a new jti that the access token
    names, and a refresh token of which only the hash is stored. *)
Record tokens_issued (now : Z) (u : IIamUser) (perms : IResolvedPermissions) (must : bool) s
    (res : ILoginResult) s' : Prop := {
  ti_credentials : credentials s' = credentials s;
  ti_blocked : blockedUsers s' = blockedUsers s;
  ti_drawn : (drawn s < drawn s')%nat;
  ti_must : lr_must_change_password res = must;
  ti_session : ∃ jti ttl, jti = uuid (drawn s) ∧ access_ttl = Ok ttl ∧ expires_in res = ttl ∧
    access_token res = jwt_sign (JwtPayload (i_user_id u) (i_username u) (i_full_name u) (i_email u) jti) ttl ∧
    sessions s' = create_session (V := V) jti
      (SessionData (i_user_id u) (i_username u) (i_full_name u) (i_email u) (r_roles perms)
         (r_permissions perms) (r_conditional perms) (i_expired_at u) must) ttl (sessions s);
  ti_refresh : ∃ k n ttl, (drawn s ≤ n)%nat ∧ refresh_token_raw res = random_hex n ∧ refresh_ttl = Ok ttl ∧
    refreshTokens s' = db_insert (make_row k (RefreshToken (i_user_id u) (sha256_hex (refresh_token_raw res))
                                    (now + ttl * 1000) None)) (refreshTokens s);
  ti_csrf : ∃ n, csrf_token res = random_hex n;
}.

Lemma issueTokens_spec now u perms must s :
  match issueTokens now u perms must s with
  | (Ok res, s') => tokens_issued now u perms must s res s'
  | (Throw e, s') => same_access s s' ∧ blockedUsers s' = blockedUsers s ∧
                     res_ok access_ttl && res_ok refresh_ttl = false
  end.
Proof.
  unfold AuthService.issueTokens, then_, run, draw. fold access_ttl refresh_ttl.
  destruct access_ttl as [a|e] eqn:Ea; [|done].
  destruct refresh_ttl as [r|e] eqn:Er; [|done]. split; [done|done|cbn; lia|done| | |by eexists].
  - by exists (uuid (drawn s)), a.
  - eexists _, (Datatypes.S (drawn s)), r. split; [lia|done].
Qed.

(** *** Login *)

Definition credential_of (username : string) c : bool :=
  String.eqb (c_username (cols c)) username && negb (is_deleted c).

(** Who may log in. *)
Record admitted (now : Z) (today username password : string) s c (u : IIamUser) : Prop := {
  ad_credential : repo_findOne (credential_of username) (credentials s) = Some c;
  ad_not_blocked : repo_findOne (blocks now (c_user_id (cols c))) (blockedUsers s) = None;
  ad_active : is_active (cols c) = true;
  ad_password : bcrypt_compare password (password_hash (cols c)) = true;
  ad_user : FindById (c_user_id (cols c)) = Ok (Some u);
  ad_status : i_status u = "active";
  ad_expiry : isExpired today (i_expired_at u) = false;
}.

(** A rejected attempt leaves the accounts, tokens and sessions as they were. *)
Lemma rejected_attempt {A} now uid username ip ua e s (P : A → state → Prop) (Q : Prop) : Q →
  match then_ (recordLoginAttempt now uid username ip ua false) (λ _, raise (A := A) e) s with
  | (Ok a, s') => P a s'
  | (Throw _, s') => same_access s s' ∧ Q
  end.
Proof.
  intros HQ. destruct (record_spec now uid username ip ua false s) as (k & s' & E & Hs & _).
  unfold then_. by rewrite E.
Qed.

Lemma login_opens now today username password ip ua s :
  match login now today username password ip ua s with
  | (Ok res, s') =>
      ∃ c u perms s1, admitted now today username password s c u ∧
        ResolvePermissions (c_user_id (cols c)) = Ok perms ∧
        tokens_issued now u (default no_permissions perms) (must_change_password (cols c)) s res s1 ∧
        same_access s1 s'
  | (Throw e, s') =>
      same_access s s' ∧
      ¬ ∃ c u perms, admitted now today username password s c u ∧
          ResolvePermissions (c_user_id (cols c)) = Ok perms ∧ res_ok access_ttl && res_ok refresh_ttl = true
  end.
Proof.
  unfold AuthService.login. unfold then_ at 1, read at 1. fold (credential_of username).
  destruct (repo_findOne (credential_of username) (credentials s)) as [c|] eqn:Hc.
  2:{ apply rejected_attempt. intros (c & u & perms & [Hc' _ _ _ _ _ _] & _). congruence. }
  unfold then_ at 1. rewrite blocked_spec.
  destruct (repo_findOne (blocks now (c_user_id (cols c))) (blockedUsers s)) eqn:Hb.
  { split; [done|]. intros (c' & u & perms & [Hc' Hb' _ _ _ _ _] & _). congruence. }
  destruct (is_active (cols c)) eqn:Ha; cbn [negb].
  2:{ apply rejected_attempt. intros (c' & u & perms & [Hc' _ Ha' _ _ _ _] & _). congruence. }
  destruct (bcrypt_compare password (password_hash (cols c))) eqn:Hp; cbn [negb].
  2:{ destruct (record_spec now (Some (c_user_id (cols c))) username ip ua false s) as (k & s1 & E1 & Hs1 & _).
      destruct (lock_spec now (c_user_id (cols c)) s1) as (s2 & E2 & Hs2 & _). unfold then_. rewrite E1, E2.
      split; [by eapply same_access_trans|]. intros (c' & u & perms & [Hc' _ _ Hp' _ _ _] & _). congruence. }
  unfold then_ at 1, run at 1. destruct (FindById (c_user_id (cols c))) as [[u|]|e] eqn:Hu.
  2:{ apply rejected_attempt. intros (c' & u & perms & [Hc' _ _ _ Hu' _ _] & _). congruence. }
  2:{ split; [done|]. intros (c' & u & perms & [Hc' _ _ _ Hu' _ _] & _). congruence. }
  destruct (String.eqb_spec (i_status u) "active") as [Hst|Hst]; cbn [negb].
  2:{ apply rejected_attempt. intros (c' & u' & perms & [Hc' _ _ _ Hu' Hst' _] & _). congruence. }
  destruct (isExpired today (i_expired_at u)) eqn:He.
  { apply rejected_attempt. intros (c' & u' & perms & [Hc' _ _ _ Hu' _ He'] & _). congruence. }
  unfold then_ at 1, resolve_permissions, then_ at 1, run, done_.
  destruct (ResolvePermissions (c_user_id (cols c))) as [perms|e] eqn:Hr.
  2:{ split; [done|]. intros (c' & u' & perms & [Hc' _ _ _ _ _ _] & Hr' & _). congruence. }
  unfold then_ at 1.
  pose proof (issueTokens_spec now u (default no_permissions perms) (must_change_password (cols c)) s) as Hi.
  destruct (issueTokens now u (default no_permissions perms) (must_change_password (cols c)) s) as [[res|e] s1].
  2:{ destruct Hi as (Hs & _ & Hd). split; [done|]. intros (c' & u' & perms' & _ & _ & Hd'). congruence. }
  destruct (record_spec now (Some (c_user_id (cols c))) username ip ua true s1) as (k & s2 & E2 & Hs2 & _).
  unfold then_. rewrite E2. exists c, u, perms, s1. split; [by split|]. split; [done|]. split; [done|].
  apply (same_access_trans _ _ _ Hs2). by split.
Qed.

(** When iam-bc names no user, correct credentials are refused as inactive. *)
Lemma login_unknown_user now today username password ip ua s c :
  repo_findOne (credential_of username) (credentials s) = Some c →
  repo_findOne (blocks now (c_user_id (cols c))) (blockedUsers s) = None → is_active (cols c) = true →
  bcrypt_compare password (password_hash (cols c)) = true → FindById (c_user_id (cols c)) = Ok None →
  (login now today username password ip ua s).1 = Throw (ForbiddenException "This user account is not active.").
Proof.
  intros Hc Hb Ha Hp Hu. unfold AuthService.login. unfold then_ at 1, read at 1. fold (credential_of username). rewrite Hc.
  unfold then_ at 1. rewrite blocked_spec, Hb, Ha, Hp. cbn [negb]. unfold then_ at 1, run at 1. rewrite Hu.
  destruct (record_spec now (Some (c_user_id (cols c))) username ip ua false s) as (k & s1 & E1 & _). unfold then_. by rewrite E1.
Qed.

(** C6: A login succeeds exactly when the username has a live, active, unblocked
    credential that the password matches and iam-bc knows the user as active and
    not expired (and its other answers and the configuration are in order); it
    then opens a session with the permissions iam-bc resolved, and a refresh
    token. A refused login opens nothing. *)
Theorem login_outcome now today username password ip ua s :
  match login now today username password ip ua s with
  | (Ok res, s') =>
      ∃ c u perms s1, admitted now today username password s c u ∧
        ResolvePermissions (c_user_id (cols c)) = Ok perms ∧
        tokens_issued now u (default no_permissions perms) (must_change_password (cols c)) s res s1 ∧
        same_access s1 s'
  | (Throw e, s') =>
      same_access s s' ∧
      ¬ ∃ c u perms, admitted now today username password s c u ∧
          ResolvePermissions (c_user_id (cols c)) = Ok perms ∧ res_ok access_ttl && res_ok refresh_ttl = true
  end.
Proof. apply login_opens. Qed.
(** *** Lockout *)

Lemma repo_count_insert {R} `{Entity R} (p : R → bool) (r : R) (t : T R) :
  repo_count p (db_insert r t) = ((if p r && not_deleted r then 1 else 0) + repo_count p t)%nat.
Proof.
  unfold repo_count, repo_find. rewrite !select_rows.
  rewrite (Permutation_length (Permutation_List_filter _ _ _ (insert_rows r t))).
  cbn. by destruct (p r && not_deleted r).
Qed.
Lemma repo_count_mono {R} `{Entity R} (p q : R → bool) (t : T R) :
  (∀ r, p r = true → q r = true) → (repo_count p t ≤ repo_count q t)%nat.
Proof.
  intros Hpq. unfold repo_count, repo_find. rewrite !select_rows.
  induction (rows t) as [|r l IH]; [done|]. cbn. specialize (Hpq r).
  destruct (p r), (q r), (not_deleted r); cbn; try lia; by specialize (Hpq eq_refl).
Qed.
Lemma repo_findOne_insert {R} `{Entity R} (p : R → bool) (r : R) (t : T R) :
  repo_findOne p (db_insert r t) = None ↔ (p r && not_deleted r = false) ∧ repo_findOne p t = None.
Proof.
  assert (∀ t : T R, repo_findOne p t = None ↔ repo_count p t = 0%nat) as Hz.
  { intros t'. unfold repo_findOne, repo_count. by destruct (repo_find p t'). }
  rewrite !Hz, repo_count_insert. destruct (p r && not_deleted r); [split; [lia|by intros [? _]]|]. cbn. tauto.
Qed.

Section lockout.
Context (username : string) (c : base_row credential) (t0 : Z) (today : Z → string) (ip ua : option string).
Abbreviation uid := (c_user_id (cols c)).
Abbreviation blocked_error := (ForbiddenException "This account is currently blocked.").

Definition attempts (l : list (Z * string)) s : state :=
  foldl (λ s a, (login a.1 (today a.1) username a.2 ip ua s).2) s l.
Definition unblocked_from s : Prop := ∀ t, t0 ≤ t → repo_findOne (blocks t uid) (blockedUsers s) = None.
Definition locked s : Prop := ∃ b, b ∈ rows (blockedUsers s) ∧ row_deleted_at b = None ∧
  b_user_id (cols b) = uid ∧ ∃ u, blocked_until (cols b) = Some u ∧ lock_until t0 ≤ u.
Definition failure_from (h : base_row login_history) : bool := failure_of uid h && (t0 <=? logged_in_at (cols h)).

Lemma locked_refuses s t pw day :
  repo_findOne (credential_of username) (credentials s) = Some c → locked s → t < lock_until t0 →
  login t day username pw ip ua s = (Throw blocked_error, s).
Proof.
  intros Hc (b & Hb & Hd & Hu & u & Hun & Hle) Ht. unfold AuthService.login. unfold then_ at 1, read at 1.
  fold (credential_of username). rewrite Hc. unfold then_ at 1. rewrite blocked_spec.
  destruct (repo_findOne (blocks t uid) (blockedUsers s)) eqn:E; [done|].
  exfalso. apply (repo_findOne_None _ _ E b Hb); [|done]. unfold blocks. rewrite Hu, String.eqb_refl, Hun.
  apply Z.ltb_lt. lia.
Qed.

(** After [k] wrong passwords. *)
Definition progress (k : nat) s : Prop :=
  repo_findOne (credential_of username) (credentials s) = Some c ∧
  (locked s ∨ (unblocked_from s ∧ (k ≤ repo_count failure_from (loginHistories s))%nat ∧
               (k < MAX_FAILED_ATTEMPTS)%nat)).

Lemma wrong_password k s t pw :
  is_active (cols c) = true → t0 ≤ t → window_start t < t0 → t < lock_until t0 →
  bcrypt_compare pw (password_hash (cols c)) = false →
  progress k s → progress (Datatypes.S k) (login t (today t) username pw ip ua s).2.
Proof.
  intros Ha Hge Hwin Hlt Hp [Hc [Hl|(Hun & Hk & Hk5)]].
  { rewrite locked_refuses by done. split; [done|by left]. }
  unfold AuthService.login. unfold then_ at 1, read at 1. fold (credential_of username). rewrite Hc.
  unfold then_ at 1. rewrite blocked_spec, Hun, Ha, Hp by done. cbn [negb].
  destruct (record_spec t (Some uid) username ip ua false s) as (h & s1 & E1 & Hs1 & Hb1 & Hh1).
  destruct (lock_spec t uid s1) as (s2 & E2 & Hs2 & Hh2 & Hb2 & Hlock). unfold then_. rewrite E1, E2. cbn [snd raise].
  pose proof (same_access_trans _ _ _ Hs1 Hs2) as [Hcreds _ _]. split; [by rewrite Hcreds|].
  set (row := make_row h (LoginHistory (Some uid) username ip ua false t)) in *.
  assert (failure_from row && not_deleted row = true) as Hrow.
  { unfold failure_from, failure_of. cbn. rewrite bool_decide_true by done. cbn. rewrite andb_true_r.
    by apply Z.leb_le. }
  assert (Datatypes.S k ≤ repo_count failure_from (loginHistories s2))%nat as Hcount
    by (rewrite Hh2, Hh1, repo_count_insert, Hrow; lia).
  assert (locked s2 ∨ (blockedUsers s2 = blockedUsers s ∧ (Datatypes.S k < MAX_FAILED_ATTEMPTS)%nat)) as [?|[Hb Hk']].
  { assert (∀ k r, blockedUsers s2 = db_insert (make_row k (BlockedUser uid r (Some (lock_until t)) None))
      (blockedUsers s1) → locked s2) as Hlocked.
    { intros k' r Hb. eexists. rewrite Hb, insert_rows. split; [by left|]. split; [done|]. split; [done|].
      eexists. split; [done|]. unfold lock_until. lia. }
    destruct Hb2 as [Hb2|(k' & r & Hb2)]; [|left; by eapply Hlocked].
    destruct (decide (Datatypes.S k < MAX_FAILED_ATTEMPTS)%nat) as [Hlt5|Hge5]; [right; by rewrite Hb2, Hb1|].
    left. destruct Hlock as (k' & r & Hb); [| |by eapply Hlocked].
    - rewrite <- Hh2. etransitivity; [|etransitivity; [exact Hcount|apply repo_count_mono]]; [lia|].
      intros h' [Hf _]%andb_true_iff. done.
    - rewrite <- Hh2. etransitivity; [|etransitivity; [exact Hcount|apply repo_count_mono]]; [lia|].
      intros h' [Hf Hle]%andb_true_iff. unfold failure_since. rewrite Hf. apply Z.leb_le in Hle.
      apply Z.ltb_lt. lia. }
  - by left.
  - right. split; [|done]. intros t' Ht'. rewrite Hb. by apply Hun.
Qed.

Lemma attempts_progress l k s :
  is_active (cols c) = true →
  (∀ a, a ∈ l → t0 ≤ a.1 ∧ window_start a.1 < t0 ∧ bcrypt_compare a.2 (password_hash (cols c)) = false) →
  progress k s → progress (length l + k) (attempts l s).
Proof.
  intros Ha. revert k s. induction l as [|a l IH]; intros k s Hl Hk; [done|]. cbn [attempts foldl].
  replace (length (a :: l) + k)%nat with (length l + Datatypes.S k)%nat by (cbn; lia).
  apply IH; [intros a' Ha'; apply Hl; by right|]. destruct (Hl a) as (H1' & H2' & H3'); [by left|].
  apply wrong_password; try done. unfold window_start, lock_until, FAILED_ATTEMPTS_WINDOW_MINUTES, AUTO_LOCK_MINUTES in *.
  lia.
Qed.
End lockout.

(** C8: five wrong passwords for an account within fifteen minutes lock it:
    until thirty minutes after the first of them every login is refused, right
    password or not, and changes nothing. *)
Theorem five_wrong_passwords_lock username c t0 today ip ua l s t pw day :
  repo_findOne (credential_of username) (credentials s) = Some c → is_active (cols c) = true →
  unblocked_from c t0 s →
  length l = 5%nat →
  (∀ a, a ∈ l → t0 ≤ a.1 < t0 + 15 * 60 * 1000 ∧ bcrypt_compare a.2 (password_hash (cols c)) = false) →
  t < t0 + 30 * 60 * 1000 →
  let s' := attempts username today ip ua l s in
  login t day username pw ip ua s' = (Throw (ForbiddenException "This account is currently blocked."), s').
Proof.
  intros Hc Ha Hun Hlen Hl Ht s'.
  destruct (attempts_progress username c t0 today ip ua l 0 s) as [Hc' [Hlocked|(_ & _ & Hbad)]].
  - done.
  - intros a Hin. destruct (Hl a Hin) as [Hrange ?]. unfold window_start, FAILED_ATTEMPTS_WINDOW_MINUTES.
    split_and!; [lia|lia|done].
  - split; [done|]. right. split; [done|]. split; [lia|]. unfold MAX_FAILED_ATTEMPTS. lia.
  - by apply (locked_refuses username c t0 ip ua).
  - unfold MAX_FAILED_ATTEMPTS in Hbad. lia.
Qed.
(** *** Refresh *)

(** Who may have tokens issued on a refresh. *)
Record entitled (now : Z) (today : string) (userId : string) s c (u : IIamUser)
    (perms : option IResolvedPermissions) : Prop := {
  en_credential : repo_findOne (λ c, String.eqb (c_user_id (cols c)) userId) (credentials s) = Some c;
  en_active : is_active (cols c) = true;
  en_not_blocked : repo_findOne (blocks now userId) (blockedUsers s) = None;
  en_user : FindById userId = Ok (Some u);
  en_status : i_status u = "active";
  en_expiry : isExpired today (i_expired_at u) = false;
  en_permissions : ResolvePermissions userId = Ok perms;
  en_durations : res_ok access_ttl && res_ok refresh_ttl = true;
}.

Definition token_revoked (now : Z) (row : base_row refresh_token) s : state :=
  AuthState (credentials s) (repo_save (revoke_token now row) (refreshTokens s)) (loginHistories s)
    (blockedUsers s) (securityLogs s) (sessions s) (drawn s).

Lemma refresh_with_spec now today row s :
  let s0 := token_revoked now row s in
  match refresh_with now today (Some row) s with
  | (Ok res, s') => ∃ c u perms, entitled now today (t_user_id (cols row)) s c u perms ∧
      tokens_issued now u (default no_permissions perms) (must_change_password (cols c)) s0 res s'
  | (Throw e, s') => same_access s0 s' ∧ blockedUsers s' = blockedUsers s ∧
      ¬ ∃ c u perms, entitled now today (t_user_id (cols row)) s c u perms
  end.
Proof.
  intros s0. unfold AuthService.refresh_with. unfold then_ at 1, on_tokens. fold (token_revoked now row s). fold s0.
  set (uid := t_user_id (cols row)).
  assert (∀ e : exn, (∀ c u perms, ¬ entitled now today uid s c u perms) →
    same_access s0 s0 ∧ blockedUsers s0 = blockedUsers s ∧ ¬ ∃ c u perms, entitled now today uid s c u perms) as Hno
    by by intros e Hn; split_and!; [..|intros (c & u & perms & Hbad); by apply (Hn c u perms)].
  unfold then_ at 1, read at 1.
  destruct (repo_findOne _ (credentials s0)) as [c|] eqn:Hc.
  2:{ apply Hno; [exact invalid_refresh|]. intros c u perms []. cbn in Hc. congruence. }
  destruct (is_active (cols c)) eqn:Ha; cbn [negb].
  2:{ apply Hno; [exact invalid_refresh|]. intros c' u perms []. cbn in Hc. congruence. }
  unfold then_ at 1. rewrite blocked_spec.
  destruct (repo_findOne (blocks now uid) (blockedUsers s0)) eqn:Hb.
  { apply Hno; [exact invalid_refresh|]. intros c' u perms []. cbn in Hb. congruence. }
  unfold then_ at 1, run at 1. destruct (FindById uid) as [[u|]|e] eqn:Hu.
  2, 3: apply Hno; [exact invalid_refresh|]; intros c' u perms []; congruence.
  destruct (String.eqb_spec (i_status u) "active") as [Hst|Hst]; cbn [negb].
  2:{ apply Hno; [exact invalid_refresh|]. intros c' u' perms []. congruence. }
  destruct (isExpired today (i_expired_at u)) eqn:He.
  { apply Hno; [exact invalid_refresh|]. intros c' u' perms []. congruence. }
  unfold then_ at 1, resolve_permissions, then_ at 1, run, done_.
  destruct (ResolvePermissions uid) as [perms|e] eqn:Hr.
  2:{ apply Hno; [exact invalid_refresh|]. intros c' u' perms []. congruence. }
  pose proof (issueTokens_spec now u (default no_permissions perms) (must_change_password (cols c)) s0) as Hi.
  destruct (issueTokens _ _ _ _ _) as [[res|e] s1].
  - destruct (res_ok access_ttl && res_ok refresh_ttl) eqn:Hd; [by exists c, u, perms|].
    destruct Hi as [_ _ _ _ (jti & a & _ & Ha' & _) (k & n & r & _ & _ & Hr' & _) _]. by rewrite Ha', Hr' in Hd.
  - destruct Hi as (Hs & Hbl & Hd). split_and!; [done|by rewrite Hbl|].
    intros (c' & u' & perms' & []). congruence.
Qed.
(** The hash is the key of the token table. *)
Definition unique_hashes s : Prop := ∀ r r', r ∈ rows (refreshTokens s) → r' ∈ rows (refreshTokens s) →
  token_hash (cols r) = token_hash (cols r') → r = r'.
(** Later random tokens do not repeat this one. *)
Definition never_drawn (raw : string) s : Prop :=
  ∀ n, (drawn s ≤ n)%nat → sha256_hex (random_hex n) ≠ sha256_hex raw.

Lemma refresh_invalid now today raw s :
  repo_findOne (usable_token now (sha256_hex raw)) (refreshTokens s) = None →
  refresh now today raw s = (Throw invalid_refresh, s).
Proof. intros Hn. unfold AuthService.refresh, then_, refresh_lookup, read. by rewrite Hn. Qed.
Lemma refresh_valid now today raw s row :
  repo_findOne (usable_token now (sha256_hex raw)) (refreshTokens s) = Some row →
  refresh now today raw s = refresh_with now today (Some row) s.
Proof. intros Hn. unfold AuthService.refresh, then_ at 1, refresh_lookup, read. by rewrite Hn. Qed.

(** No token of the table can be exchanged for [raw] from [now] on. *)
Definition spent (now : Z) (raw : string) (t : T (base_row refresh_token)) : Prop :=
  ∀ now', now ≤ now' → repo_findOne (usable_token now' (sha256_hex raw)) t = None.

Lemma usable_later now now' h r : now ≤ now' → usable_token now' h r = true → usable_token now h r = true.
Proof.
  unfold usable_token. intros Hle. rewrite !andb_true_iff, !Z.ltb_lt. intros [[Hh Hr] He]. split_and!; [done..|lia].
Qed.
Lemma findOne_none {R} `{Entity R} (p : R → bool) (t : T R) :
  (∀ r, r ∈ rows t → p r = true → deleted_at r ≠ None) → repo_findOne p t = None.
Proof.
  intros Hn. destruct (repo_findOne p t) as [r|] eqn:E; [|done].
  apply repo_findOne_Some in E as (Hr & Hp & Hd). by destruct (Hn r Hr Hp).
Qed.
Lemma spent_none now raw t :
  repo_findOne (usable_token now (sha256_hex raw)) t = None → spent now raw t.
Proof.
  intros Hn now' Hle. apply findOne_none. intros r Hr Hp.
  apply (repo_findOne_None _ _ Hn r Hr). by apply (usable_later now now').
Qed.
Lemma spent_revoked now raw row s :
  unique_hashes s → repo_findOne (usable_token now (sha256_hex raw)) (refreshTokens s) = Some row →
  spent now raw (repo_save (revoke_token now row) (refreshTokens s)).
Proof.
  intros Huniq (Hrow & Hp & Hd)%repo_findOne_Some now' Hle. apply findOne_none.
  intros r Hr Hp'. apply elem_of_repo_save in Hr as [[Hr Hne]|[-> _]].
  - destruct Hne. unfold usable_token in Hp, Hp'. apply andb_true_iff in Hp as [[Hp _]%andb_true_iff _].
    apply andb_true_iff in Hp' as [[Hp' _]%andb_true_iff _]. apply String.eqb_eq in Hp, Hp'.
    by rewrite (Huniq r row); [| | |congruence].
  - unfold usable_token in Hp'. cbn in Hp'. by rewrite andb_false_r in Hp'.
Qed.
Lemma spent_insert now raw k r t :
  token_hash r ≠ sha256_hex raw → spent now raw t → spent now raw (db_insert (make_row k r) t).
Proof.
  intros Hne Hs now' Hle. apply repo_findOne_insert. split; [|by apply Hs].
  unfold usable_token. cbn. by rewrite (proj2 (String.eqb_neq _ _) Hne).
Qed.

Lemma refresh_spends now today raw s :
  unique_hashes s → never_drawn raw s → spent now raw (refreshTokens (refresh now today raw s).2).
Proof.
  intros Huniq Hnew. destruct (repo_findOne (usable_token now (sha256_hex raw)) (refreshTokens s)) as [row|] eqn:E.
  2:{ rewrite refresh_invalid by done. by apply spent_none. }
  rewrite (refresh_valid _ _ _ _ _ E). pose proof (spent_revoked _ _ _ _ Huniq E) as Hsp.
  pose proof (refresh_with_spec now today row s) as Hr. cbv zeta in Hr.
  destruct (refresh_with now today (Some row) s) as [[res|e] s']; cbn [snd].
  - destruct Hr as (c & u & perms & _ & [_ _ _ _ _ (k & n & ttl & Hn & Hraw & _ & ->)]).
    apply spent_insert; [|done]. cbn. rewrite Hraw. apply Hnew. cbn in Hn. lia.
  - destruct Hr as ([_ -> _] & _). done.
Qed.

(** *** A spent token stays spent

    Every operation of the two services is run against an invariant of the
    token table; [spent] is one. *)

(** What the operations do to the table cannot break [P]: they revoke tokens
    and insert others than [raw]. *)
Record stable (raw : string) (P : T (base_row refresh_token) → Prop) : Prop := {
  stable_save at_ row t : P t → P (repo_save (revoke_token at_ row) t);
  stable_update at_ (p : base_row refresh_token → bool) t : P t → P (db_update p (revoke_token at_) t).1;
  stable_insert k r t : token_hash r ≠ sha256_hex raw → P t → P (db_insert (make_row k r) t);
}.

Lemma spent_stable now raw : stable raw (spent now raw).
Proof.
  split.
  - intros at_ row t Hs now' Hle. apply findOne_none. intros r Hr Hp. specialize (Hs now' Hle).
    apply elem_of_repo_save in Hr as [[Hr _]|[-> _]].
    + by apply (repo_findOne_None _ _ Hs).
    + unfold usable_token in Hp. cbn in Hp. by rewrite andb_false_r in Hp.
  - intros at_ p t Hs now' Hle. apply findOne_none. intros r Hr Hp. specialize (Hs now' Hle).
    rewrite update_rows in Hr. apply elem_of_List_map in Hr as (r0 & Hr0 & ->). destruct (p r0).
    + unfold usable_token in Hp. cbn in Hp. by rewrite andb_false_r in Hp.
    + by apply (repo_findOne_None _ _ Hs).
  - apply spent_insert.
Qed.

Definition keeps (Q : state → Prop) {A} (m : svc A) : Prop := ∀ s, Q s → Q (m s).2.
Lemma keeps_then Q {A B} (m : svc A) (k : A → svc B) :
  keeps Q m → (∀ a, keeps Q (k a)) → keeps Q (then_ m k).
Proof.
  intros Hm Hk s Hs. unfold then_. specialize (Hm s Hs). destruct (m s) as [[a|e] s1]; [by apply Hk|done].
Qed.
Lemma keeps_pure Q {A} (m : svc A) : (∀ s, (m s).2 = s) → keeps Q m.
Proof. intros Hm s Hs. by rewrite Hm. Qed.

Section keeping.
Context (raw : string) (P : T (base_row refresh_token) → Prop) (Hstable : stable raw P).

(** The table satisfies [P], and [raw] will not be drawn again. *)
Definition out_of_use s : Prop := P (refreshTokens s) ∧ never_drawn raw s.
Lemma keeps_same {A} (m : svc A) :
  (∀ s, refreshTokens (m s).2 = refreshTokens s ∧ (drawn s ≤ drawn (m s).2)%nat) → keeps out_of_use m.
Proof.
  intros Hm s [Hs Hn]. destruct (Hm s) as [Ht Hd]. split; [by rewrite Ht|]. intros n Hle. apply Hn. lia.
Qed.
Lemma keeps_tokens f : (∀ t, P t → P (f t)) → keeps out_of_use (on_tokens f).
Proof. intros Hf s [Hs Hn]. split; [by apply Hf|done]. Qed.

#[local] Hint Extern 1 (keeps _ (done_ _)) => (by apply keeps_pure) : spending.
#[local] Hint Extern 1 (keeps _ (raise _)) => (by apply keeps_pure) : spending.
#[local] Hint Extern 1 (keeps _ (run _)) => (by apply keeps_pure) : spending.
#[local] Hint Extern 1 (keeps _ (read _)) => (by apply keeps_pure) : spending.
#[local] Hint Extern 1 (keeps _ (on_tokens _)) =>
  (apply keeps_tokens; intros; (apply (stable_save _ _ Hstable) || apply (stable_update _ _ Hstable)); assumption) : spending.
#[local] Hint Extern 2 (keeps _ _) => (apply keeps_same; intros; cbn; split; [reflexivity|lia]) : spending.
Ltac spend := repeat first
  [ by auto 2 with spending | apply keeps_then; [|intros] | case_match | progress unfold assertNotBlocked,
    recordLoginAttempt, writeSecurityLog, lockAfterTooManyFailures, resolve_permissions, found_credential,
    save_credential, insert_credential ].

Lemma issue_keeps at_ u perms must : keeps out_of_use (issueTokens at_ u perms must).
Proof.
  intros s [Hs Hn]. unfold AuthService.issueTokens, then_, run, draw, on_tokens, on_sessions, done_.
  assert (∀ s1, (drawn s ≤ drawn s1)%nat → never_drawn raw s1) as Hlater
    by (intros s1 Hd n Hle; apply Hn; lia).
  destruct (parseDurationToSeconds _) as [a|e]; cbn; [|split; [done|apply Hlater; cbn; lia]].
  destruct (parseDurationToSeconds _) as [b|e]; cbn; [|split; [done|apply Hlater; cbn; lia]].
  split; [|apply Hlater; cbn; lia]. apply (stable_insert _ _ Hstable); [|done]. cbn. apply Hn. lia.
Qed.
#[local] Hint Resolve issue_keeps : spending.

Lemma login_keeps at_ day username password ip ua : keeps out_of_use (login at_ day username password ip ua).
Proof. unfold AuthService.login. spend. Qed.
Lemma exchange_keeps at_ day other : keeps out_of_use (refresh at_ day other).
Proof. unfold AuthService.refresh, refresh_lookup, AuthService.refresh_with. spend. Qed.
Lemma logout_keeps at_ j uid other :
  keeps out_of_use (AuthService.logout (T := T) (V := V) sha256_hex uuid at_ j uid other).
Proof. unfold AuthService.logout. spend. Qed.
Lemma revoke_keeps at_ j by_ :
  keeps out_of_use (AuthService.revoke_session (T := T) (V := V) uuid at_ j by_).
Proof. unfold AuthService.revoke_session. spend. Qed.
Lemma set_keeps uid username password by_ :
  keeps out_of_use (setCredential (T := T) (S := S) bcrypt_hash uuid uid username password by_).
Proof. unfold setCredential. spend. Qed.
Lemma create_keeps uid username password by_ :
  keeps out_of_use (createInitialCredential (T := T) (S := S) bcrypt_hash uuid uid username password by_).
Proof. unfold createInitialCredential. spend. Qed.
Lemma reset_keeps uid username password by_ :
  keeps out_of_use (AuthService.resetPassword (T := T) (V := V) bcrypt_hash uuid uid username password by_).
Proof. unfold AuthService.resetPassword. spend. Qed.
Lemma change_keeps uid old new confirm :
  keeps out_of_use (AuthService.changePassword (T := T) (V := V) bcrypt_hash bcrypt_compare uuid uid old new confirm).
Proof. unfold AuthService.changePassword. spend. Qed.
Lemma list_keeps at_ uid : keeps out_of_use (findActiveForUser (T := T) (S := S) (V := V) at_ uid).
Proof.
  unfold findActiveForUser. apply keeps_then; [|intros; by apply keeps_pure].
  intros s [Hs Hn]. cbn. by destruct (listActiveSessions uid (sessions s)).
Qed.
End keeping.

(** An exchange puts the token out of use, whatever it gives. *)
Lemma refresh_out_of_use now today raw s :
  unique_hashes s → never_drawn raw s → out_of_use raw (spent now raw) (refresh now today raw s).2.
Proof.
  intros Huniq Hnew. split; [by apply refresh_spends|].
  apply (exchange_keeps raw (λ _, True) ltac:(done) now today raw s). by split.
Qed.

(** *** Two exchanges at once *)

Lemma created_session jti d ttl (x : S) j : 0 < ttl →
  get_session (V := V) j (create_session (V := V) jti d ttl x)
  = if decide (j = jti) then Some d else get_session (V := V) j x.
Proof. intros Ht. unfold create_session. by rewrite sess_sadd, sess_setex. Qed.

Lemma issued_session now u perms must s res s' :
  tokens_issued now u perms must s res s' → (∀ ttl, access_ttl = Ok ttl → 0 < ttl) →
  (∀ j, is_Some (get_session (V := V) j (sessions s)) → is_Some (get_session (V := V) j (sessions s'))) ∧
  is_Some (get_session (V := V) (uuid (drawn s)) (sessions s')).
Proof.
  intros [_ _ _ _ (jti & ttl & -> & Ht & _ & _ & ->) _] Hpos. apply Hpos in Ht. split.
  - intros j Hj. rewrite created_session by done. by case_decide.
  - rewrite created_session by done. by rewrite decide_True.
Qed.

Lemma entitled_kept now today uid s s' c u perms :
  credentials s' = credentials s → blockedUsers s' = blockedUsers s →
  entitled now today uid s c u perms → entitled now today uid s' c u perms.
Proof. intros Hc Hb []. split; rewrite ?Hc, ?Hb; done. Qed.

(** The lookup and the revocation are separate statements: when a second
    request looks a token up before the first has revoked it, both are given
    tokens, and two sessions are open. *)
Theorem refresh_race now today raw s row r1 s1 :
  (∀ ttl, access_ttl = Ok ttl → 0 < ttl) → (∀ m n, uuid m = uuid n → m = n) →
  refresh_lookup sha256_hex now raw s = (Ok (Some row), s) →
  refresh_with now today (Some row) s = (Ok r1, s1) →
  ∃ r2 s2 j1 j2, refresh_with now today (Some row) s1 = (Ok r2, s2) ∧ j1 ≠ j2 ∧
    is_Some (get_session (V := V) j1 (sessions s2)) ∧ is_Some (get_session (V := V) j2 (sessions s2)).
Proof.
  intros Hpos Hinj _ H1'. pose proof (refresh_with_spec now today row s) as Hf. cbv zeta in Hf. rewrite H1' in Hf.
  destruct Hf as (c & u & perms & He & Hi).
  pose proof (refresh_with_spec now today row s1) as Hg. cbv zeta in Hg.
  assert (entitled now today (t_user_id (cols row)) s1 c u perms) as He1.
  { apply (entitled_kept _ _ _ s); [apply (ti_credentials _ _ _ _ _ _ _ Hi)|apply (ti_blocked _ _ _ _ _ _ _ Hi)|done]. }
  destruct (refresh_with now today (Some row) s1) as [[r2|e] s2]; [|destruct Hg as (_ & _ & []); eauto].
  destruct Hg as (c' & u' & perms' & _ & Hi'). destruct (issued_session _ _ _ _ _ _ _ Hi Hpos) as [_ Hj1].
  destruct (issued_session _ _ _ _ _ _ _ Hi' Hpos) as [Hkeep Hj2].
  exists r2, s2, (uuid (drawn s)), (uuid (drawn s1)). split; [done|]. split; [|split; [by apply Hkeep|done]].
  intros Heq%Hinj. pose proof (ti_drawn _ _ _ _ _ _ _ Hi) as Hd. cbn in Hd. lia.
Qed.
(** *** Password resets *)

Abbreviation resetPassword := (resetPassword (T := T) (V := V) bcrypt_hash uuid).
Abbreviation logout := (logout (T := T) (V := V) sha256_hex uuid).
Abbreviation changePassword := (changePassword (T := T) (V := V) bcrypt_hash bcrypt_compare uuid).

Definition one_credential (userId : string) s : Prop := ∀ c c',
  c ∈ rows (credentials s) → c' ∈ rows (credentials s) → row_deleted_at c = None → row_deleted_at c' = None →
  c_user_id (cols c) = userId → c_user_id (cols c') = userId → c = c'.

Abbreviation of_user userId := (λ c : base_row credential, String.eqb (c_user_id (cols c)) userId).

Lemma saved_credential by_ userId row (x : credential) s :
  one_credential userId s → repo_findOne (of_user userId) (credentials s) = Some row → c_user_id x = userId →
  let t' := repo_save (set_updater (Some (UserSession by_)) (with_cols (λ _, x) row)) (credentials s) in
  repo_findOne (of_user userId) t' = Some (set_updater (Some (UserSession by_)) (with_cols (λ _, x) row)).
Proof.
  intros Hone (Hr & Hu%String.eqb_eq & Hd)%repo_findOne_Some Hx t'.
  set (row' := set_updater (Some (UserSession by_)) (with_cols (λ _, x) row)) in *.
  assert (∀ c, c ∈ rows t' → c_user_id (cols c) = userId → row_deleted_at c = None → c = row') as Honly.
  { intros c [[Hc Hne]|[-> _]]%elem_of_repo_save Hcu Hcd; [|done].
    destruct Hne. by rewrite (Hone c row). }
  assert (row' ∈ rows t') as Hin.
  { apply elem_of_repo_save. right. split; [done|]. apply list_elem_of_fmap. by exists row. }
  destruct (repo_findOne (of_user userId) t') as [c|] eqn:E.
  - apply repo_findOne_Some in E as (Hc & Hcu%String.eqb_eq & Hcd). by rewrite (Honly c).
  - exfalso. apply (repo_findOne_None _ _ E row' Hin); [by apply String.eqb_eq|done].
Qed.

Lemma resetPassword_spec userId username password by_ s row :
  one_credential userId s → repo_findOne (of_user userId) (credentials s) = Some row →
  ∃ s' c, resetPassword userId username password by_ s = (Ok tt, s') ∧
    refreshTokens s' = refreshTokens s ∧ blockedUsers s' = blockedUsers s ∧
    sessions s' = (setMustChangePasswordForUser (V := V) userId true (sessions s)).2 ∧
    repo_findOne (of_user userId) (credentials s') = Some c ∧
    cols c = Credential userId username (bcrypt_hash (drawn s) password) true true.
Proof.
  intros Hone E. pose proof (repo_findOne_Some _ _ _ E) as (_ & Hu%String.eqb_eq & _).
  unfold AuthService.resetPassword, then_, hashed, found_credential, read. cbn [credentials].
  rewrite E. do 2 eexists. split; [reflexivity|]. do 3 (split; [done|]). cbn [credentials].
  split; [apply saved_credential; [done..|by cbn]|]. cbn. by rewrite Hu.
Qed.

(** An administrator's password reset does not touch the refresh tokens: a
    token that could be exchanged before can be exchanged after. *)
Theorem reset_keeps_refresh now today raw row userId username password by_ s r s1 :
  one_credential userId s → t_user_id (cols row) = userId →
  repo_findOne (usable_token now (sha256_hex raw)) (refreshTokens s) = Some row →
  refresh now today raw s = (Ok r, s1) →
  ∃ s' r' s'', resetPassword userId username password by_ s = (Ok tt, s') ∧
    refresh now today raw s' = (Ok r', s'').
Proof.
  intros Hone Hu Hrow Hr. rewrite (refresh_valid _ _ _ _ _ Hrow) in Hr.
  pose proof (refresh_with_spec now today row s) as Hf. cbv zeta in Hf. rewrite Hr in Hf.
  destruct Hf as (c & u & perms & [Hc Ha Hb Hus Hst Hex Hp Hd] & _). rewrite Hu in *.
  destruct (resetPassword_spec userId username password by_ s c Hone Hc)
    as (s' & c' & Hreset & Htok & Hbl & _ & Hc' & Hcols).
  exists s'. rewrite (refresh_valid now today raw s' row) by by rewrite Htok.
  pose proof (refresh_with_spec now today row s') as Hg. cbv zeta in Hg.
  destruct (refresh_with now today (Some row) s') as [[r'|e] s''].
  - by exists r', s''.
  - destruct Hg as (_ & _ & []). exists c', u, perms. rewrite Hu. split; rewrite ?Hbl, ?Hcols; done.
Qed.

(** *** Logging out *)

Lemma spent_all now raw (t : T (base_row refresh_token)) :
  spent now raw (db_update (λ r, String.eqb (token_hash (cols r)) (sha256_hex raw) &&
      match revoked_at (cols r) with None => true | Some _ => false end) (revoke_token now) t).1.
Proof.
  intros now' Hle. apply findOne_none. intros r Hr Hp. rewrite update_rows in Hr.
  apply elem_of_List_map in Hr as (r0 & _ & ->). exfalso. revert Hp. unfold usable_token.
  destruct (String.eqb (token_hash (cols r0)) (sha256_hex raw)) eqn:Hh;
    destruct (revoked_at (cols r0)) eqn:Hrev; cbn; rewrite ?Hh, ?Hrev; cbn; rewrite ?andb_false_r; done.
Qed.

Lemma logout_spec now j userId raw s :
  j ≠ "" → raw ≠ "" →
  ∃ s', logout now (Some j) userId (Some raw) s = (Ok tt, s') ∧
    sessions s' = SessionStore.revoke (V := V) j (sessions s) ∧ spent now raw (refreshTokens s').
Proof.
  intros Hj Hr. unfold AuthService.logout, then_.
  assert (∀ x, x ≠ "" → truthy (Some x) = Some x) as Htr by by intros [|].
  rewrite (Htr j Hj), (Htr raw Hr). eexists. split; [reflexivity|]. split; [done|]. apply spent_all.
Qed.

(** A password change: the session's owner keeps the account, the current
    password is required, and the new one is accepted from then on. *)
Theorem changePassword_spec userId current new confirm s :
  (∀ n pw, bcrypt_compare pw (bcrypt_hash n pw) = true) → one_credential userId s →
  match changePassword userId current new confirm s with
  | (Ok _, s') => new = confirm ∧ ∃ c c',
      repo_findOne (of_user userId) (credentials s) = Some c ∧ bcrypt_compare current (password_hash (cols c)) = true ∧
      repo_findOne (of_user userId) (credentials s') = Some c' ∧ c_username (cols c') = c_username (cols c) ∧
      bcrypt_compare new (password_hash (cols c')) = true ∧ must_change_password (cols c') = false ∧
      refreshTokens s' = refreshTokens s ∧
      sessions s' = (setMustChangePasswordForUser (V := V) userId false (sessions s)).2
  | (Throw e, s') => s' = s
  end.
Proof.
  intros Hbcrypt Hone. unfold AuthService.changePassword.
  destruct (String.eqb_spec new confirm) as [<-|]; cbn [negb]; [|done].
  unfold then_ at 1, read at 1.
  destruct (repo_findOne _ (credentials s)) as [c|] eqn:E; [|done].
  destruct (bcrypt_compare current (password_hash (cols c))) eqn:Hp; cbn [negb]; [|done].
  split; [done|]. apply repo_findOne_Some in E as (Hc & [Hu Hd]%andb_true_iff & Hdel).
  assert (repo_findOne (of_user userId) (credentials s) = Some c) as Hfound.
  { destruct (repo_findOne (of_user userId) (credentials s)) as [c'|] eqn:E.
    - apply repo_findOne_Some in E as (Hc' & Hu'%String.eqb_eq & Hdel'). apply String.eqb_eq in Hu.
      f_equal. by apply Hone.
    - exfalso. by apply (repo_findOne_None _ _ E c Hc). }
  apply String.eqb_eq in Hu. unfold then_, hashed, save_credential, on_credentials, on_sessions. cbn [credentials].
  do 2 eexists. split; [exact Hfound|]. split; [done|]. cbn [credentials writeSecurityLog then_ draw on_logs].
  split; [apply saved_credential; [done..|by cbn]|]. cbn. split_and!; [done|apply Hbcrypt|done..].
Qed.
End properties.

(** ** A refresh token over the life of the service *)
Section reuse.
Context {T : Type → Type} `{DatabaseLaws T} {S V : Type} `{RedisLaws S V} `{!Json ISessionData V}.
Context (bcrypt_hash : nat → string → string) (bcrypt_compare : string → string → bool)
        (sha256_hex : string → string) (uuid random_hex : nat → string)
        (jwt_sign : jwt_payload → Z → string).
Context (access_expires_in refresh_expires_in : option string).
Abbreviation state := (auth_state T S).
Implicit Types s : state.

(** One completed call of the auth service, whatever it answered, or anything
    the rest of the system does; only these two services write refresh tokens.
    What iam-bc answers may change from call to call. *)
Inductive auth_call : state → state → Prop :=
  | call_login FindById ResolvePermissions now today username password ip ua s :
      auth_call s (login (V := V) bcrypt_compare sha256_hex uuid random_hex jwt_sign FindById ResolvePermissions
        access_expires_in refresh_expires_in now today username password ip ua s).2
  | call_refresh FindById ResolvePermissions now today raw s :
      auth_call s (refresh (V := V) sha256_hex uuid random_hex jwt_sign FindById ResolvePermissions
        access_expires_in refresh_expires_in now today raw s).2
  | call_logout now j userId raw s : auth_call s (logout (V := V) sha256_hex uuid now j userId raw s).2
  | call_revoke_session now j by_ s : auth_call s (revoke_session (V := V) uuid now j by_ s).2
  | call_setCredential userId username password by_ s :
      auth_call s (setCredential bcrypt_hash uuid userId username password by_ s).2
  | call_createInitialCredential userId username password by_ s :
      auth_call s (createInitialCredential bcrypt_hash uuid userId username password by_ s).2
  | call_resetPassword userId username password by_ s :
      auth_call s (resetPassword (V := V) bcrypt_hash uuid userId username password by_ s).2
  | call_changePassword userId old new confirm s :
      auth_call s (changePassword (V := V) bcrypt_hash bcrypt_compare uuid userId old new confirm s).2
  | call_findActiveForUser now userId s : auth_call s (findActiveForUser (V := V) now userId s).2
  | call_elsewhere s s' : refreshTokens s' = refreshTokens s → (drawn s ≤ drawn s')%nat → auth_call s s'.

Lemma auth_call_keeps raw P s s' :
  stable sha256_hex raw P → auth_call s s' → out_of_use sha256_hex random_hex raw P s → out_of_use sha256_hex random_hex raw P s'.
Proof.
  intros HP. destruct 1 as [| | | | | | | | |s s' Ht Hd].
  - by apply login_keeps.
  - by apply exchange_keeps.
  - by apply logout_keeps.
  - by apply revoke_keeps.
  - by apply set_keeps.
  - by apply create_keeps.
  - by apply reset_keeps.
  - by apply change_keeps.
  - by apply list_keeps.
  - intros [Hp Hn]. split; [by rewrite Ht|]. intros n Hle. apply Hn. lia.
Qed.

(** C9: A refresh token is accepted at most once: after an exchange, whether it
    succeeded or failed on the account, and after whatever further calls the
    service has completed, one after the other, the token is refused. *)
Theorem refresh_single_use FindById ResolvePermissions FindById' ResolvePermissions' now now' today today' raw s s'
    (Hhashes : unique_hashes s) (Hrandom : never_drawn sha256_hex random_hex raw s) (Hlater : now ≤ now')
    (Hcalls : rtc auth_call
      (refresh (V := V) sha256_hex uuid random_hex jwt_sign FindById ResolvePermissions access_expires_in
         refresh_expires_in now today raw s).2 s') :
  refresh (V := V) sha256_hex uuid random_hex jwt_sign FindById' ResolvePermissions' access_expires_in
    refresh_expires_in now' today' raw s' = (Throw invalid_refresh, s').
Proof.
  assert (out_of_use sha256_hex random_hex raw (spent sha256_hex now raw) s') as [Hspent _];
    [|apply refresh_invalid; by apply Hspent].
  pose proof (refresh_out_of_use sha256_hex uuid random_hex jwt_sign FindById ResolvePermissions access_expires_in
    refresh_expires_in now today raw s Hhashes Hrandom) as Hout. revert Hout.
  induction Hcalls as [|s1 s2 s3 Hstep _ IH]; [done|]. intros Hout. apply IH.
  apply (auth_call_keeps raw _ s1 s2); [apply spent_stable|done..].
Qed.
End reuse.

(** ** Sample and witnesses *)
Module Sample.
Definition hash (_ : nat) (pw : string) : string := "h:" +:+ pw.
Definition compare (pw h : string) : bool := String.eqb h ("h:" +:+ pw).
Definition digest (x : string) : string := "#" +:+ x.
Definition uuid (n : nat) : string := "u" +:+ pretty n.
Definition random_hex (n : nat) : string := "r" +:+ pretty n.
Definition sign (p : jwt_payload) (_ : Z) : string := p_sub p +:+ "." +:+ p_jti p.
Definition find_user (k : string) : result (option IIamUser) :=
  Ok (if String.eqb k "ann-id" then Some (IamUser "ann-id" "ann" None None "active" None) else None).
Definition resolve (_ : string) : result (option IResolvedPermissions) := Ok (Some (Resolved ["SALES"] ["sales:read"] [])).

Definition ann_row : base_row credential := make_row "c1" (Credential "ann-id" "ann" "h:secret" true false).
Definition start : auth_state list (mem ISessionData) := AuthState [ann_row] [] [] [] [] empty_store 0.

Definition sample_login := login (T := list) (S := mem ISessionData) (V := ISessionData) compare digest uuid random_hex
  sign find_user resolve None None.
Definition sample_refresh := refresh (T := list) (S := mem ISessionData) (V := ISessionData) digest uuid random_hex
  sign find_user resolve None None.
(** After a login. *)
Definition logged_in : auth_state list (mem ISessionData) :=
  (sample_login 0 "2024-06-01" "ann" "secret" None None start).2.

Example login_example :
  match sample_login 0 "2024-06-01" "ann" "secret" None None start with
  | (Ok r, s) => access_token r = "ann-id.u0" ∧ refresh_token_raw r = "r1" ∧ expires_in r = 900
  | (Throw _, _) => False
  end.
Proof. by vm_compute. Qed.
Example durations : List.map parseDurationToSeconds ["15m"; " 7d "; "30s"] = [Ok 900; Ok 604800; Ok 30].
Proof. by vm_compute. Qed.

Lemma uuid_inj m n : uuid m = uuid n → m = n.
Proof. unfold uuid. rewrite !append_cons, !append_nil_l. intros [= E]. by apply pretty_nat_inj. Qed.
Lemma random_fresh n : (2 ≤ n)%nat → digest (random_hex n) ≠ digest "r1".
Proof.
  intros Hn. unfold digest, random_hex. rewrite !append_cons, !append_nil_l. intros [= E].
  change "1" with (pretty 1%nat) in E. apply pretty_nat_inj in E. lia.
Qed.
Lemma only_one r r' (t : base_row refresh_token) : r ∈ [t] → r' ∈ [t] → r = r'.
Proof. by intros ->%list_elem_of_singleton ->%list_elem_of_singleton. Qed.
End Sample.

Lemma five_wrong_passwords_lock_witness :
  let s' := attempts (T := list) (S := mem ISessionData) (V := ISessionData) Sample.compare Sample.digest Sample.uuid
    Sample.random_hex Sample.sign Sample.find_user Sample.resolve None None "ann" (λ _, "2024-06-01") None None
    [(0, "a"); (1000, "b"); (2000, "c"); (3000, "d"); (4000, "e")] Sample.start in
  Sample.sample_login 1700000 "2024-06-01" "ann" "secret" None None s'
  = (Throw (ForbiddenException "This account is currently blocked."), s').
Proof.
  apply (five_wrong_passwords_lock (T := list) (S := mem ISessionData) (V := ISessionData) Sample.compare Sample.digest
    Sample.uuid Sample.random_hex Sample.sign Sample.find_user Sample.resolve None None "ann" Sample.ann_row 0
    (λ _, "2024-06-01") None None [(0, "a"); (1000, "b"); (2000, "c"); (3000, "d"); (4000, "e")] Sample.start
    1700000 "secret" "2024-06-01").
  - by vm_compute.
  - done.
  - done.
  - done.
  - intros a Ha. rewrite !elem_of_cons, elem_of_nil in Ha.
    destruct Ha as [->|[->|[->|[->|[->|[]]]]]]; (split; [cbn; lia|by vm_compute]).
  - lia.
Defined.

Lemma refresh_single_use_witness :
  let s1 := (Sample.sample_refresh 1000 "2024-06-01" "r1" Sample.logged_in).2 in
  let s' := (Sample.sample_login 1500 "2024-06-01" "ann" "secret" None None s1).2 in
  Sample.sample_refresh 2000 "2024-06-01" "r1" s' = (Throw invalid_refresh, s') ∧
  res_ok (Sample.sample_refresh 1000 "2024-06-01" "r1" Sample.logged_in).1 = true.
Proof.
  split; [|by vm_compute].
  apply (refresh_single_use (T := list) (S := mem ISessionData) (V := ISessionData) Sample.hash Sample.compare Sample.digest
    Sample.uuid Sample.random_hex Sample.sign None None Sample.find_user Sample.resolve Sample.find_user Sample.resolve
    1000 2000 "2024-06-01" "2024-06-01" "r1" Sample.logged_in).
  - intros r r' Hr Hr' _. vm_compute in Hr, Hr'. exact (Sample.only_one r r' _ Hr Hr').
  - intros n Hn. apply Sample.random_fresh. vm_compute in Hn. lia.
  - lia.
  - apply rtc_once. apply call_login.
Defined.

Lemma refresh_race_witness :
  ∃ r2 s1 s2 j1 j2, refresh_with (T := list) (S := mem ISessionData) (V := ISessionData) Sample.digest Sample.uuid
      Sample.random_hex Sample.sign Sample.find_user Sample.resolve None None 1000 "2024-06-01"
      (repo_findOne (usable_token 1000 (Sample.digest "r1")) (refreshTokens Sample.logged_in)) s1 = (Ok r2, s2) ∧
    j1 ≠ j2 ∧ is_Some (get_session (V := ISessionData) j1 (sessions s2)).
Proof.
  destruct (repo_findOne (usable_token 1000 (Sample.digest "r1")) (refreshTokens Sample.logged_in)) as [row|] eqn:E;
    [|vm_compute in E; discriminate E].
  destruct (refresh_with (T := list) (S := mem ISessionData) (V := ISessionData) Sample.digest Sample.uuid
    Sample.random_hex Sample.sign Sample.find_user Sample.resolve None None 1000 "2024-06-01" (Some row)
    Sample.logged_in) as [[r1|e] s1] eqn:E1; [|exfalso; vm_compute in E; injection E as <-; vm_compute in E1; discriminate E1].
  destruct (refresh_race (T := list) (S := mem ISessionData) (V := ISessionData) Sample.digest Sample.uuid
    Sample.random_hex Sample.sign Sample.find_user Sample.resolve None None 1000 "2024-06-01" "r1" Sample.logged_in
    row r1 s1) as (r2 & s2 & j1 & j2 & Hr & Hne & Hj & _).
  - intros ttl Ht. vm_compute in Ht. injection Ht as <-. lia.
  - exact Sample.uuid_inj.
  - exact (f_equal (λ x, (Ok x, Sample.logged_in)) E).
  - exact E1.
  - exists r2, s1, s2, j1, j2. split; [exact Hr|]. split; [exact Hne|exact Hj].
Defined.

Lemma reset_keeps_refresh_witness :
  ∃ s' r' s'', resetPassword (T := list) (S := mem ISessionData) (V := ISessionData) Sample.hash Sample.uuid
      "ann-id" "ann" "other" (Some "admin") Sample.logged_in = (Ok tt, s') ∧
    Sample.sample_refresh 1000 "2024-06-01" "r1" s' = (Ok r', s'').
Proof.
  destruct (repo_findOne (usable_token 1000 (Sample.digest "r1")) (refreshTokens Sample.logged_in)) as [row|] eqn:E;
    [|vm_compute in E; discriminate E].
  destruct (Sample.sample_refresh 1000 "2024-06-01" "r1" Sample.logged_in) as [[r|e] s1] eqn:E1;
    [|exfalso; vm_compute in E1; discriminate E1].
  apply (reset_keeps_refresh (T := list) (S := mem ISessionData) (V := ISessionData) Sample.hash Sample.digest
    Sample.uuid Sample.random_hex Sample.sign Sample.find_user Sample.resolve None None 1000 "2024-06-01" "r1" row
    "ann-id" "ann" "other" (Some "admin") Sample.logged_in r s1).
  - intros c c' Hc Hc' _ _ _ _. vm_compute in Hc, Hc'.
    apply list_elem_of_singleton in Hc as ->. by apply list_elem_of_singleton in Hc' as ->.
  - vm_compute in E. by injection E as <-.
  - exact E.
  - exact E1.
Defined.

Lemma changePassword_spec_witness :
  ∃ s', changePassword (T := list) (S := mem ISessionData) (V := ISessionData) Sample.hash Sample.compare Sample.uuid
      "ann-id" "secret" "new" "new" Sample.start = (Ok tt, s') ∧
    ∃ c', repo_findOne (λ c, String.eqb (c_user_id (cols c)) "ann-id") (credentials s') = Some c' ∧
      Sample.compare "new" (password_hash (cols c')) = true.
Proof.
  pose proof (changePassword_spec (T := list) (S := mem ISessionData) (V := ISessionData) Sample.hash Sample.compare
    Sample.uuid "ann-id" "secret" "new" "new" Sample.start) as Hc.
  destruct (changePassword Sample.hash Sample.compare Sample.uuid "ann-id" "secret" "new" "new" Sample.start)
    as [[[]|e] s'] eqn:E; [|exfalso; vm_compute in E; discriminate E].
  destruct Hc as (_ & c & c' & _ & _ & Hf & _ & Hn & _).
  - intros n pw. apply String.eqb_refl.
  - intros x y Hx Hy _ _ _ _. apply list_elem_of_singleton in Hx as ->. by apply list_elem_of_singleton in Hy as ->.
  - exists s'. split; [reflexivity|]. by exists c'.
Defined.
