(* ===== verification/AuthFlow.v ===== *)
(** * From login to request

    The auth service (AuthService.v) and the guard every request passes
    (Guards.v) meet in the session store: what a login opens is what the guard
    lets in, and what logout or an administrator revokes it keeps out.  The JWT
    library is the pair of arguments [jwt_sign] and [jwt_verify]; it is used for
    its documented round trip only. *)

From S2P Require Import Prelude JsString JsValues SessionStore Guards Repo BaseService AuthService.
#[local] Open Scope string_scope.
#[local] Open Scope Z_scope.

Section flow.
Context {T : Type → Type} `{DatabaseLaws T} {S V : Type} `{RedisLaws S V} `{!Json ISessionData V}.
Context (bcrypt_compare : string → string → bool) (sha256_hex : string → string) (uuid random_hex : nat → string)
        (jwt_sign : jwt_payload → Z → string) (jwt_verify : string → option token_payload).
Context (FindById : string → result (option IIamUser))
        (ResolvePermissions : string → result (option IResolvedPermissions)).
Context (access_expires_in refresh_expires_in : option string).
(** A signed token verifies to its subject and identifier. *)
Hypothesis jwt_round_trip : ∀ p n, jwt_verify (jwt_sign p n) = Some (TokenPayload (p_sub p) (p_jti p)).
(** The access tokens are configured to live. *)
Hypothesis access_lives : ∀ n, access_ttl access_expires_in = Ok n → 0 < n.
Implicit Types (s : auth_state T S).
Abbreviation login := (login (T := T) (V := V) bcrypt_compare sha256_hex uuid random_hex jwt_sign FindById
  ResolvePermissions access_expires_in refresh_expires_in).
Abbreviation refresh := (refresh (T := T) (V := V) sha256_hex uuid random_hex jwt_sign FindById
  ResolvePermissions access_expires_in refresh_expires_in).
Abbreviation logout := (logout (T := T) (V := V) sha256_hex uuid).
Abbreviation revoke_session := (revoke_session (T := T) (V := V) uuid).
Abbreviation auth_guard := (auth_guard (V := V) jwt_verify).

(** A protected HTTP route, and a request that carries the token. *)
Record carries (rt : route) (r : http_request) (token : string) : Prop := {
  ca_http : is_http rt = true;
  ca_protected : isPublic rt = false;
  ca_key : isAccessKeyRoute rt = false;
  ca_token : extractToken r = Some token;
  ca_nonempty : token ≠ "";
}.

Definition ACCOUNT_EXPIRED : exn :=
  UnauthorizedException "This user account has expired. Please contact your administrator.".

(** What the guard answers to a token of a live session. *)
Lemma guard_answers day rt r token p (x : S) d :
  carries rt r token → jwt_verify token = Some p → get_session (V := V) (Guards.jti p) x = Some d →
  auth_guard day rt r x =
    if isExpired day (s_expired_at d) then Throw ACCOUNT_EXPIRED
    else if s_must_change_password d && negb (skipPasswordChangeCheck rt) then Throw MUST_CHANGE_PASSWORD
    else Ok (Some (RequestUser
           (Guards.UserSession (sub p) (s_username d) (s_fullname d) (s_email d) (s_roles d) (s_permissions d)
              (Some (Guards.jti p)) (s_must_change_password d)) (s_conditional d))).
Proof.
  intros [Hh Hp Hk Ht Hne] Hv Hs. unfold Guards.auth_guard. rewrite Hh, Hp, Hk, Ht. cbn [negb falsy].
  rewrite (proj2 (String.eqb_neq _ _) Hne). cbn. rewrite Hv, Hs.
  assert (negb (falsy (s_expired_at d)) && str_lt (default "" (s_expired_at d)) day = isExpired day (s_expired_at d)) as ->.
  { unfold isExpired. destruct (s_expired_at d) as [e|]; [|done]. cbn. by destruct (String.eqb e ""). }
  done.
Qed.
Lemma guard_session today rt r token p (x : S) d :
  carries rt r token → jwt_verify token = Some p → get_session (V := V) (Guards.jti p) x = Some d →
  isExpired today (s_expired_at d) = false →
  auth_guard today rt r x =
    if s_must_change_password d && negb (skipPasswordChangeCheck rt) then Throw MUST_CHANGE_PASSWORD
    else Ok (Some (RequestUser
           (Guards.UserSession (sub p) (s_username d) (s_fullname d) (s_email d) (s_roles d) (s_permissions d)
              (Some (Guards.jti p)) (s_must_change_password d)) (s_conditional d))).
Proof. intros Hc Hv Hs He. by rewrite (guard_answers today rt r token p x d), He. Qed.

Lemma guard_no_session today rt r token p (x : S) :
  carries rt r token → jwt_verify token = Some p → get_session (V := V) (Guards.jti p) x = None →
  auth_guard today rt r x = Throw (UnauthorizedException "Session has been revoked. Please log in again.").
Proof.
  intros [Hh Hp Hk Ht Hne] Hv Hs. unfold Guards.auth_guard. rewrite Hh, Hp, Hk, Ht. cbn [negb falsy].
  rewrite (proj2 (String.eqb_neq _ _) Hne). cbn. by rewrite Hv, Hs.
Qed.

(** The access token of a login is let in on every protected route, as the
    user who logged in, with the permissions iam-bc resolved at login; a user
    who must change the password is let in only where that is allowed. *)
Theorem login_admits now today username password ip ua s res s' rt r :
  login now today username password ip ua s = (Ok res, s') → carries rt r (access_token res) →
  ∃ c u perms jti, admitted bcrypt_compare FindById now today username password s c u ∧
    ResolvePermissions (c_user_id (cols c)) = Ok perms ∧
    auth_guard today rt r (sessions s') =
      if lr_must_change_password res && negb (skipPasswordChangeCheck rt) then Throw MUST_CHANGE_PASSWORD
      else Ok (Some (RequestUser
             (Guards.UserSession (i_user_id u) (i_username u) (i_full_name u) (i_email u)
                (r_roles (default no_permissions perms)) (r_permissions (default no_permissions perms))
                (Some jti) (lr_must_change_password res))
             (r_conditional (default no_permissions perms)))).
Proof.
  intros Hlogin Hc.
  pose proof (login_opens bcrypt_compare sha256_hex uuid random_hex jwt_sign FindById ResolvePermissions
    access_expires_in refresh_expires_in now today username password ip ua s) as Ho.
  rewrite Hlogin in Ho. destruct Ho as (c & u & perms & s1 & Ha & Hp & Hi & [_ _ Hsess]).
  destruct Hi as [_ _ _ Hm (jti & n & _ & Hn & _ & Htok & Hs1) _ _].
  exists c, u, perms, jti. split; [done|]. split; [done|]. rewrite Hsess, Hs1, Hm.
  rewrite (guard_session today rt r (access_token res) (TokenPayload (i_user_id u) jti)
    _ (SessionData (i_user_id u) (i_username u) (i_full_name u) (i_email u)
         (r_roles (default no_permissions perms)) (r_permissions (default no_permissions perms))
         (r_conditional (default no_permissions perms)) (i_expired_at u) (must_change_password (cols c)))).
  - done.
  - done.
  - rewrite Htok. apply jwt_round_trip.
  - rewrite created_session by by apply access_lives. by rewrite decide_True.
  - apply (ad_expiry _ _ _ _ _ _ _ _ _ Ha).
Qed.

(** After a logout with both tokens, the access token is refused on every
    protected route and the refresh token for good. *)
Theorem logout_refuses now j userId raw s rt r token p today :
  j ≠ "" → raw ≠ "" → carries rt r token → jwt_verify token = Some p → Guards.jti p = j →
  ∃ s', logout now (Some j) userId (Some raw) s = (Ok tt, s') ∧
    auth_guard today rt r (sessions s') = Throw (UnauthorizedException "Session has been revoked. Please log in again.") ∧
    ∀ now' today', now ≤ now' → refresh now' today' raw s' = (Throw invalid_refresh, s').
Proof.
  intros Hj Hraw Hc Hv <-. destruct (logout_spec sha256_hex uuid now (Guards.jti p) userId raw s Hj Hraw)
    as (s' & Hl & Hs & Hsp). exists s'. split; [done|]. split.
  - rewrite Hs. apply (guard_no_session today rt r token p); [done..|]. apply revoked_session.
  - intros now' today' Hle. apply refresh_invalid. by apply Hsp.
Qed.

(** C11: when an administrator revokes a session, its token is refused and no
    refresh token of its owner can be exchanged, so the session cannot come back. *)
Theorem admin_revoke_refuses now j by_ s d rt r token p today :
  get_session (V := V) j (sessions s) = Some d → carries rt r token → jwt_verify token = Some p → Guards.jti p = j →
  ∃ s', revoke_session now j by_ s = (Ok tt, s') ∧
    auth_guard today rt r (sessions s') = Throw (UnauthorizedException "Session has been revoked. Please log in again.") ∧
    ∀ now' raw row, now ≤ now' → repo_findOne (usable_token now' (sha256_hex raw)) (refreshTokens s') = Some row →
      t_user_id (cols row) ≠ s_user_id d.
Proof.
  intros Hd Hc Hv Hj. unfold AuthService.revoke_session, then_, read. rewrite Hd. eexists. split; [reflexivity|].
  cbn [sessions refreshTokens on_sessions on_tokens writeSecurityLog draw on_logs then_]. split.
  - apply (guard_no_session today rt r token p); [done..|]. rewrite Hj. apply revoked_session.
  - intros now' raw row _ (Hr & Hp & _)%repo_findOne_Some Hu. rewrite update_rows in Hr.
    apply elem_of_List_map in Hr as (r0 & _ & ->). revert Hp Hu. unfold usable_token.
    destruct (String.eqb_spec (t_user_id (cols r0)) (s_user_id d)) as [E|E]; cbn;
      destruct (revoked_at (cols r0)) eqn:Hrev; cbn; rewrite ?Hrev, ?andb_false_r; done.
Qed.
End flow.

(** ** Sample and witnesses *)
Module FlowSample.
(** A reversible encoding in the place of the signature. *)
Fixpoint pack (a b : string) : string :=
  match a with
  | "" => String "." b
  | String c a' => String "!" (String c (pack a' b))
  end.
Fixpoint unpack (t : string) : option (string * string) :=
  match t with
  | String "." b => Some ("", b)
  | String "!" (String c t') => (λ ab : string * string, (String c ab.1, ab.2)) <$> unpack t'
  | _ => None
  end.
Definition sign (p : jwt_payload) (_ : Z) : string := pack (p_sub p) (p_jti p).
Definition verify (t : string) : option token_payload := (λ ab, TokenPayload ab.1 ab.2) <$> unpack t.
Lemma round_trip p n : verify (sign p n) = Some (TokenPayload (p_sub p) (p_jti p)).
Proof.
  unfold verify, sign. enough (∀ a b, unpack (pack a b) = Some (a, b)) as -> by done.
  intros a b. induction a as [|c a IH]; [done|]. cbn. by rewrite IH.
Qed.
(** The same with the second the token expires at. *)
Fixpoint ticks (n : nat) : string := match n with O => "" | Datatypes.S n => String "i" (ticks n) end.
Lemma ticks_length n : String.length (ticks n) = n.
Proof. induction n as [|n IH]; [done|]. cbn. by rewrite IH. Qed.
Definition sign_at (t0 : Z) (p : jwt_payload) (n : Z) : string :=
  pack (p_sub p) (pack (p_jti p) (ticks (Z.to_nat (t0 + n)))).
Definition verify_at (t : Z) (token : string) : option token_payload :=
  match unpack token with
  | Some (sub, rest) =>
      match unpack rest with
      | Some (jti, exp) => if t <? Z.of_nat (String.length exp) then Some (TokenPayload sub jti) else None
      | None => None
      end
  | None => None
  end.
Lemma unpack_pack a b : unpack (pack a b) = Some (a, b).
Proof. induction a as [|c a IH]; [done|]. cbn. by rewrite IH. Qed.
Lemma lifetime t0 t p n : 0 ≤ t0 → 0 < n →
  verify_at t (sign_at t0 p n) = if t <? t0 + n then Some (TokenPayload (p_sub p) (p_jti p)) else None.
Proof.
  intros H0 Hn. unfold verify_at, sign_at. rewrite !unpack_pack, ticks_length, Z2Nat.id by lia. done.
Qed.
Lemma lives n : access_ttl None = Ok n → 0 < n.
Proof. intros Hn. vm_compute in Hn. injection Hn as <-. lia. Qed.

Abbreviation login := (AuthService.login (T := list) (S := mem ISessionData) (V := ISessionData) AuthService.Sample.compare
  AuthService.Sample.digest AuthService.Sample.uuid AuthService.Sample.random_hex sign AuthService.Sample.find_user
  AuthService.Sample.resolve None None 0 "2024-06-01" "ann" "secret" None None AuthService.Sample.start).
Lemma logged_in : ∃ res s', login = (Ok res, s') ∧
  lr_must_change_password res = false ∧ access_token res = "!a!n!n!-!i!d.u0".
Proof.
  destruct login as [[res|e] s'] eqn:E; vm_compute in E; [|discriminate E].
  exists res, s'. injection E as <- <-. by split.
Qed.
Definition my_route : route := Route true false false false false true None.
Definition my_request : http_request :=
  HttpRequest "GET" "/me" None "" {["authorization" := HString "Bearer !a!n!n!-!i!d.u0"]} None None None None.
Lemma carried : carries my_route my_request "!a!n!n!-!i!d.u0".
Proof. by split; vm_compute. Qed.
End FlowSample.

Lemma login_admits_witness :
  ∃ res s', FlowSample.login = (Ok res, s') ∧
    res_ok (auth_guard (V := ISessionData) FlowSample.verify "2024-06-01" FlowSample.my_route FlowSample.my_request
      (sessions s')) = true.
Proof.
  destruct FlowSample.logged_in as (res & s' & E & Hm & Ht). exists res, s'. split; [exact E|].
  destruct (login_admits (T := list) (S := mem ISessionData) (V := ISessionData) AuthService.Sample.compare
    AuthService.Sample.digest AuthService.Sample.uuid AuthService.Sample.random_hex FlowSample.sign FlowSample.verify
    AuthService.Sample.find_user AuthService.Sample.resolve None None FlowSample.round_trip FlowSample.lives 0
    "2024-06-01" "ann" "secret" None None AuthService.Sample.start res s' FlowSample.my_route FlowSample.my_request E)
    as (c & u & perms & j & _ & _ & Hg).
  - rewrite Ht. exact FlowSample.carried.
  - rewrite Hg, Hm. reflexivity.
Defined.

Lemma logout_refuses_witness :
  ∃ s', logout (T := list) (S := mem ISessionData) (V := ISessionData) AuthService.Sample.digest
      AuthService.Sample.uuid 5 (Some "u0") None (Some "r1") FlowSample.login.2 = (Ok tt, s') ∧
    auth_guard (V := ISessionData) FlowSample.verify "2024-06-01" FlowSample.my_route FlowSample.my_request (sessions s')
      = Throw (UnauthorizedException "Session has been revoked. Please log in again.").
Proof.
  destruct (logout_refuses (T := list) (S := mem ISessionData) (V := ISessionData) AuthService.Sample.digest
    AuthService.Sample.uuid AuthService.Sample.random_hex FlowSample.sign FlowSample.verify
    AuthService.Sample.find_user AuthService.Sample.resolve None None 5 "u0" None "r1" FlowSample.login.2
    FlowSample.my_route FlowSample.my_request "!a!n!n!-!i!d.u0" (TokenPayload "ann-id" "u0") "2024-06-01")
    as (s' & Hl & Hg & _).
  - done.
  - done.
  - exact FlowSample.carried.
  - by vm_compute.
  - done.
  - exists s'. split; [exact Hl|exact Hg].
Defined.

Lemma admin_revoke_refuses_witness :
  ∃ s', revoke_session (T := list) (S := mem ISessionData) (V := ISessionData) AuthService.Sample.uuid 5 "u0"
      (Some "admin") FlowSample.login.2 = (Ok tt, s') ∧
    auth_guard (V := ISessionData) FlowSample.verify "2024-06-01" FlowSample.my_route FlowSample.my_request (sessions s')
      = Throw (UnauthorizedException "Session has been revoked. Please log in again.").
Proof.
  destruct (get_session (V := ISessionData) "u0" (sessions FlowSample.login.2)) as [d|] eqn:E;
    [|exfalso; vm_compute in E; discriminate E].
  destruct (admin_revoke_refuses (T := list) (S := mem ISessionData) (V := ISessionData) AuthService.Sample.digest
    AuthService.Sample.uuid FlowSample.verify 5 "u0" (Some "admin") FlowSample.login.2 d
    FlowSample.my_route FlowSample.my_request "!a!n!n!-!i!d.u0" (TokenPayload "ann-id" "u0") "2024-06-01")
    as (s' & Hl & Hg & _).
  - exact E.
  - exact FlowSample.carried.
  - by vm_compute.
  - done.
  - exists s'. split; [exact Hl|exact Hg].
Defined.
