(* ===== verification/PermissionScan.v ===== *)
(** * Scanning the sources for permissions

    Model of src/libs/database/src/scripts/permission-sync-scan.util.ts: the
    permissions a source tree declares, by [@RequirePermission(...)] decorators
    (the api plane), by [page:]/[component:] literals in views and by the
    ui-permissions manifests (the ui plane).

    The directory tree is a value; [JSON.parse] is a parameter.  The regular
    expressions are the recognisers they denote; none of them needs to
    backtrack.  Warnings on the console are left out. *)

From S2P Require Import Prelude JsString JsValues.
#[local] Open Scope string_scope.

(** ** Permission strings *)

Definition DECORATOR_CALL_START : string := "@RequirePermission(".
(** A single or a double quote, the class the regular expressions call [Q] here. *)
Definition double_quote : ascii := ascii_of_nat 34.
Definition is_quote (c : ascii) : bool := Ascii.eqb c "'" || Ascii.eqb c double_quote.

(** [PERMISSION_STRING], [/^([a-zA-Z0-9_]+):([a-zA-Z0-9_]+)$/] *)
Definition match_permission (permission : string) : option (string * string) :=
  match span is_word permission with
  | (prefix, String ":" action) =>
      if negb (String.eqb prefix "") && negb (String.eqb action "") && str_forall is_word action
      then Some (prefix, action) else None
  | _ => None
  end.

(** [action.replace(/^view_/, '') || action] *)
Definition page_slug (action : string) : string :=
  match drop_prefix "view_" action with
  | Some "" | None => action
  | Some slug => slug
  end.

Definition derivePermissionParts (permission : string) : option (string * string) :=
  match match_permission permission with
  | None => None
  | Some (prefix, action) =>
      if negb (String.eqb prefix "page") then Some (prefix, action)
      else Some ("page_" +:+ page_slug action, action)
  end.

Definition capitalise (part : string) : string :=
  match part with "" => "" | String c rest => String (to_upper_char c) rest end.
Definition humanize (word : string) : string := join " " (List.map capitalise (split "_" word)).

Definition derivePlaceholderName (permission : string) : string :=
  match match_permission permission with
  | None => humanize permission
  | Some (prefix, action) => humanize action +:+ " " +:+ humanize prefix
  end.

(** ** Scanned permissions *)

Inductive permission_plane := api | ui.
#[global] Instance permission_plane_eq_dec : EqDecision permission_plane.
Proof. solve_decision. Defined.

Record display_name := DisplayName { th : string; en : string }.

Record IScannedPermission := Scanned {
  sc_service : string;
  sc_permission : string;
  sc_resource : string;
  sc_action : string;
  sc_name : option display_name;
  sc_plane : permission_plane;
}.

(** The key of the [found] map, under which a later hit replaces an earlier
    one in place. *)
Definition scan_key (service permission : string) : string := service +:+ "::" +:+ permission.
Definition declare (found : list (string * IScannedPermission)) (p : IScannedPermission) :
    list (string * IScannedPermission) :=
  obj_set (scan_key (sc_service p) (sc_permission p)) p found.
Definition found_values (hits : list IScannedPermission) : list IScannedPermission :=
  (foldl declare [] hits).*2.

(** ** The file system *)

Inductive fs := File (content : string) | Dir (entries : list (string * fs)).

(** The contents of the files [walk] collects, in its order. *)
Fixpoint walk (matches : string → bool) (dir : fs) : list string :=
  match dir with
  | File _ => []
  | Dir entries =>
      List.flat_map (λ '(entry, sub),
        if String.eqb entry "node_modules" || String.eqb entry "dist" then []
        else match sub with
             | Dir _ => walk matches sub
             | File content => if matches entry then [content] else []
             end) entries
  end.

Definition isSourceFile (entry : string) : bool := endsWith entry ".ts" && negb (endsWith entry ".spec.ts").
Definition isViewFile (entry : string) : bool := endsWith entry ".ejs" || endsWith entry ".js".

(** [statSync(join(APPS_ROOT, service, sub)).isDirectory()], a missing path
    being none. *)
Definition sub_directory (service_dir : fs) (sub : string) : option fs :=
  match service_dir with
  | Dir entries => match obj_get sub entries with Some (Dir es) => Some (Dir es) | _ => None end
  | File _ => None
  end.

(** ** Decorator calls *)

(** The loop of [extractBalancedArgs] after the opening parenthesis, up to the
    parenthesis that closes it or to the end of the file; [prev] is
    [content[i - 1]]. *)
Fixpoint take_args (depth : nat) (quote : option ascii) (prev : ascii) (s : string) : string :=
  match s with
  | "" => ""
  | String c s' =>
      match quote with
      | Some q =>
          String c (take_args depth
            (if Ascii.eqb c q && negb (Ascii.eqb prev "\") then None else Some q) c s')
      | None =>
          if is_quote c || Ascii.eqb c "`" then String c (take_args depth (Some c) c s')
          else if Ascii.eqb c "(" then String c (take_args (S depth) None c s')
          else if Ascii.eqb c ")" then
            match depth with
            | 1%nat => ""
            | _ => String c (take_args (pred depth) None c s')
            end
          else String c (take_args depth None c s')
      end
  end.
Definition extractBalancedArgs (after_paren : string) : string := take_args 1 None "(" after_paren.

(** [^\s*(Q)([a-zA-Z0-9_]+:[a-zA-Z0-9_]+)\1]: the permission and what
    follows the match. *)
Definition match_literal (s : string) : option (string * string) :=
  match trimStart s with
  | String q r =>
      if is_quote q then
        match span is_word r with
        | (prefix, String ":" r1) =>
            let '(action, r2) := span is_word r1 in
            match r2 with
            | String q' rest =>
                if Ascii.eqb q' q && negb (String.eqb prefix "") && negb (String.eqb action "")
                then Some (prefix +:+ ":" +:+ action, rest) else None
            | "" => None
            end
        | _ => None
        end
      else None
  | "" => None
  end.

(** The regular expressions of [th] and [en] at the current position: the key
    at a word boundary, a colon, and a quoted text on one line without its own
    quote, which is the result. *)
Definition match_property (k : string) (prev : ascii) (s : string) : option string :=
  if is_word prev then None
  else
    match drop_prefix k s with
    | None => None
    | Some r =>
        match trimStart r with
        | String ":" r1 =>
            match trimStart r1 with
            | String q r2 =>
                if is_quote q then
                  match span (λ c, negb (Ascii.eqb c q) && negb (is_line_end c)) r2 with
                  | (value, String q' _) => if Ascii.eqb q' q then Some value else None
                  | _ => None
                  end
                else None
            | "" => None
            end
        | _ => None
        end
    end.
(** The first position that matches. *)
Fixpoint search_property (k : string) (prev : ascii) (s : string) : option string :=
  match match_property k prev s with
  | Some v => Some v
  | None => match s with "" => None | String c s' => search_property k c s' end
  end.

Definition parseDecoratorCall (args : string) : option (string * option display_name) :=
  match match_literal args with
  | None => None
  | Some (permission, remainder) =>
      Some (permission,
        match search_property "th" " " remainder, search_property "en" " " remainder with
        | Some t, Some e => Some (DisplayName t e)
        | _, _ => None
        end)
  end.

(** The loop over one file: the arguments of every call, from the left.  Each
    round consumes at least the call's start. *)
Fixpoint calls_go (fuel : nat) (content : string) : list string :=
  match fuel with
  | O => []
  | S fuel' =>
      match find_sub DECORATOR_CALL_START content with
      | None => []
      | Some (_, after) =>
          let args := extractBalancedArgs after in
          args :: calls_go fuel' (slice_from (String.length args + 1) after)
      end
  end.
Definition decorator_calls (content : string) : list string := calls_go (S (String.length content)) content.

Definition api_hit (service args : string) : option IScannedPermission :=
  match parseDecoratorCall args with
  | None => None
  | Some (permission, name) =>
      match derivePermissionParts permission with
      | None => None
      | Some (resource, action) => Some (Scanned service permission resource action name api)
      end
  end.
Definition api_hits (apps : list (string * fs)) : list IScannedPermission :=
  List.flat_map (λ '(service, dir),
    match sub_directory dir "src" with
    | None => []
    | Some src => List.flat_map (λ content, omap (api_hit service) (decorator_calls content))
                    (walk isSourceFile src)
    end) apps.
Definition scanApiPermissions (apps : list (string * fs)) : list IScannedPermission :=
  found_values (api_hits apps).

(** ** Literals in views *)

(** [(Q)((?:page|component):[a-zA-Z0-9_]+)\1] at the current position. *)
Definition match_ui_literal (s : string) : option string :=
  match s with
  | String q r =>
      if is_quote q then
        match span is_word r with
        | (prefix, String ":" r1) =>
            if String.eqb prefix "page" || String.eqb prefix "component" then
              match span is_word r1 with
              | (action, String q' _) =>
                  if Ascii.eqb q' q && negb (String.eqb action "")
                  then Some (prefix +:+ ":" +:+ action) else None
              | _ => None
              end
            else None
        | _ => None
        end
      else None
  | "" => None
  end.
(** [content.matchAll(UI_PERMISSION_LITERAL)]: matches do not overlap. *)
Fixpoint ui_literals (skip : nat) (s : string) : list string :=
  match s with
  | "" => []
  | String _ s' =>
      match skip with
      | S k => ui_literals k s'
      | O => match match_ui_literal s with
             | Some p => p :: ui_literals (String.length p + 1) s'
             | None => ui_literals 0 s'
             end
      end
  end.

Definition ui_hit (service permission : string) : option IScannedPermission :=
  match derivePermissionParts permission with
  | None => None
  | Some (resource, action) => Some (Scanned service permission resource action None ui)
  end.
Definition attribute_hits (service : string) (dir : fs) : list IScannedPermission :=
  List.flat_map (λ sub, List.flat_map (λ content, omap (ui_hit service) (ui_literals 0 content))
                          (walk isViewFile sub))
    (omap (sub_directory dir) ["views"; "public"]).

(** ** Manifests *)

Definition UI_PERMISSIONS_MANIFEST_FILENAME : string := "ui-permissions.manifest.json".

Definition isRecord (v : jsv) : option (list (string * jsv)) :=
  match v with JObj fields => Some fields | _ => None end.
Definition isNonEmptyString (v : jsv) : option string :=
  match v with JStr s => if String.eqb (trim s) "" then None else Some s | _ => None end.

Definition parseManifestName (value : jsv) : option display_name :=
  match isRecord value with
  | None => None
  | Some fields =>
      match isNonEmptyString (property "th" fields), isNonEmptyString (property "en" fields) with
      | Some t, Some e => Some (DisplayName t e)
      | _, _ => None
      end
  end.

Definition parseManifestEntry (service : string) (entry : jsv) (expectedPrefix : string) :
    option IScannedPermission :=
  match isRecord entry with
  | None => None
  | Some fields =>
      match isNonEmptyString (property "permission" fields) with
      | None => None
      | Some permission =>
          match derivePermissionParts permission with
          | None => None
          | Some (resource, action) =>
              if startsWith permission (expectedPrefix +:+ ":")
              then Some (Scanned service permission resource action
                           (parseManifestName (property "name" fields)) ui)
              else None
          end
      end
  end.

Definition with_resource (resource : string) (p : IScannedPermission) : IScannedPermission :=
  Scanned (sc_service p) (sc_permission p) resource (sc_action p) (sc_name p) (sc_plane p).
Definition manifest_component (service : string) (scannedPage : option IScannedPermission) (component : jsv) :
    option IScannedPermission :=
  match parseManifestEntry service component "component" with
  | None => None
  | Some c => Some (match scannedPage with Some page => with_resource (sc_resource page) c | None => c end)
  end.
Definition manifest_page (service : string) (page : jsv) : list IScannedPermission :=
  let scannedPage := parseManifestEntry service page "page" in
  (option_list scannedPage ++
   match property "components" (default [] (isRecord page)) with
   | JArr components => omap (manifest_component service scannedPage) components
   | _ => []
   end)%list.

Section manifests.
Context (JSON_parse : string → option jsv).

Definition scanUiPermissionsManifest (service : string) (dir : fs) : list IScannedPermission :=
  match dir with
  | Dir entries =>
      match obj_get UI_PERMISSIONS_MANIFEST_FILENAME entries with
      | Some (File content) =>
          match JSON_parse content with
          | None => []
          | Some manifest =>
              match property "pages" (default [] (isRecord manifest)) with
              | JArr pages => List.flat_map (manifest_page service) pages
              | _ => []
              end
          end
      | _ => []
      end
  | File _ => []
  end.

Definition ui_hits (apps : list (string * fs)) : list IScannedPermission :=
  List.flat_map (λ '(service, dir),
    (attribute_hits service dir ++ scanUiPermissionsManifest service dir)%list) apps.
Definition scanUiPermissions (apps : list (string * fs)) : list IScannedPermission :=
  found_values (ui_hits apps).
End manifests.

(** The unit tests of the module, on the model. *)
Example derive_page : derivePermissionParts "page:view_dashboard" = Some ("page_dashboard", "view_dashboard").
Proof. reflexivity. Qed.
Example derive_degenerate : derivePermissionParts "page:view_" = Some ("page_view_", "view_").
Proof. reflexivity. Qed.
Example derive_malformed : derivePermissionParts "a:b:c" = None ∧ derivePermissionParts "role" = None.
Proof. by split. Qed.
Example placeholder : derivePlaceholderName "page:view_dashboard" = "View Dashboard Page".
Proof. reflexivity. Qed.

(** ** The found map *)

Section found.
Implicit Types (hits : list IScannedPermission) (h : IScannedPermission).
Definition key_of h : string := scan_key (sc_service h) (sc_permission h).

Lemma found_keys hits found :
  NoDup (obj_keys found) → NoDup (obj_keys (foldl declare found hits)).
Proof.
  revert found. induction hits as [|h hits IH]; intros found Hnd; cbn; [done|].
  by apply IH, NoDup_obj_set.
Qed.
(** Under each key, the last hit with that key. *)
Lemma found_get hits found k :
  obj_get k (foldl declare found hits) =
    match last (List.filter (λ h, String.eqb k (key_of h)) hits) with
    | Some h => Some h
    | None => obj_get k found
    end.
Proof.
  revert found. induction hits as [|h hits IH]; intros found; cbn [foldl List.filter]; [done|].
  rewrite IH. change (declare found h) with (obj_set (key_of h) h found). rewrite obj_get_set.
  destruct (String.eqb k (key_of h)); [|done]. rewrite last_cons.
  by destruct (last (List.filter _ hits)).
Qed.
Lemma found_consistent hits k h : obj_get k (foldl declare [] hits) = Some h → k = key_of h ∧ h ∈ hits.
Proof.
  rewrite found_get. destruct (last _) as [h'|] eqn:E; [|done]. intros [= ->].
  apply last_Some_elem_of in E. apply elem_of_List_filter in E as [? ?%String.eqb_eq]. done.
Qed.

Lemma elem_of_found hits h :
  h ∈ found_values hits ↔ last (List.filter (λ h', String.eqb (key_of h) (key_of h')) hits) = Some h.
Proof.
  unfold found_values. pose proof (found_keys hits [] (NoDup_nil_2)) as Hnd.
  assert (last (List.filter (λ h', String.eqb (key_of h) (key_of h')) hits) = Some h ↔
    obj_get (key_of h) (foldl declare [] hits) = Some h) as ->.
  { rewrite found_get. destruct (last _); cbn; naive_solver. }
  split.
  - intros ([k h'] & -> & Hin)%list_elem_of_fmap. apply obj_get_elem in Hin; [|done]. cbn.
    by destruct (found_consistent _ _ _ Hin) as [-> _].
  - intros Hin%obj_get_Some. by apply (list_elem_of_fmap_2 snd) in Hin.
Qed.
Lemma found_keys_values hits : key_of <$> found_values hits = obj_keys (foldl declare [] hits).
Proof.
  unfold found_values, obj_keys. rewrite <- list_fmap_compose.
  pose proof (found_keys hits [] NoDup_nil_2) as Hnd.
  apply list_fmap_ext. intros i [k h] Hi%list_elem_of_lookup_2. cbn.
  apply obj_get_elem in Hi; [|done]. by destruct (found_consistent _ _ _ Hi) as [-> _].
Qed.
Lemma NoDup_found_keys hits : NoDup (key_of <$> found_values hits).
Proof. rewrite found_keys_values. by apply found_keys, NoDup_nil_2. Qed.
Lemma found_sound hits h : h ∈ found_values hits → h ∈ hits.
Proof.
  rewrite elem_of_found. intros Hl%last_Some_elem_of. by apply elem_of_List_filter in Hl as [? _].
Qed.
Lemma found_complete hits h : h ∈ hits → ∃ h', h' ∈ found_values hits ∧ key_of h' = key_of h.
Proof.
  intros Hin. assert (h ∈ List.filter (λ h', String.eqb (key_of h) (key_of h')) hits) as Hf.
  { apply elem_of_List_filter. by rewrite String.eqb_refl. }
  destruct (last (List.filter (λ h', String.eqb (key_of h) (key_of h')) hits)) as [h'|] eqn:E.
  - exists h'. pose proof E as Hk%last_Some_elem_of.
    apply elem_of_List_filter in Hk as [_ Hk%String.eqb_eq]. rewrite elem_of_found, <- Hk. done.
  - apply last_None in E. rewrite E in Hf. by apply elem_of_nil in Hf.
Qed.
End found.

(** ** Permission strings *)

Lemma match_permission_Some p prefix action :
  match_permission p = Some (prefix, action) ↔
  p = prefix +:+ ":" +:+ action ∧ prefix ≠ "" ∧ action ≠ "" ∧
  str_forall is_word prefix = true ∧ str_forall is_word action = true.
Proof.
  unfold match_permission. split.
  - pose proof (span_eq is_word p) as Heq. pose proof (span_forall is_word p) as Hall.
    destruct (span is_word p) as [pre rest]. cbn [fst snd] in *.
    destruct rest as [|c rest]; [done|].
    destruct c as [[] [] [] [] [] [] [] []]; try done.
    destruct (String.eqb_spec pre ""), (String.eqb_spec rest ""); cbn; try done.
    destruct (str_forall is_word rest) eqn:Hr; [|done]. intros [= <- <-]. done.
  - intros (-> & Hp & Ha & Hwp & Hwa).
    assert (prefix +:+ ":" +:+ action = prefix +:+ String ":" action) as -> by done.
    rewrite span_app by done. apply String.eqb_neq in Hp as ->, Ha as ->. by rewrite Hwa.
Qed.

Definition well_formed (permission : string) : Prop := is_Some (derivePermissionParts permission).
Lemma well_formed_match p : well_formed p ↔ ∃ prefix action, match_permission p = Some (prefix, action).
Proof.
  unfold well_formed, derivePermissionParts. destruct (match_permission p) as [[prefix action]|].
  - split; [eauto|]. intros _. destruct (negb _); eauto.
  - split; [by intros []|by intros (? & ? & ?)].
Qed.

(** The colons of a string: a well-formed permission has one. *)
Fixpoint colons (s : string) : nat :=
  match s with "" => 0 | String c s' => (if Ascii.eqb c ":" then 1 else 0) + colons s' end.
Lemma colons_app s t : colons (s +:+ t) = colons s + colons t.
Proof. induction s as [|c s IH]; [done|]. rewrite append_cons. cbn. rewrite IH. lia. Qed.
Lemma colons_word s : str_forall is_word s = true → colons s = 0.
Proof.
  induction s as [|c s IH]; [done|]. cbn. intros [Hc Hs]%andb_true_iff. rewrite (IH Hs).
  by destruct (Ascii.eqb_spec c ":") as [->|].
Qed.
Lemma well_formed_colons p : well_formed p → colons p = 1.
Proof.
  intros (pre & act & (-> & _ & _ & Hp & Ha)%match_permission_Some)%well_formed_match.
  rewrite !colons_app. by rewrite (colons_word pre), (colons_word act).
Qed.

(** The catalog's key determines the service and the permission. *)
Lemma scan_key_inj s p s' p' :
  well_formed p → well_formed p' → scan_key s p = scan_key s' p' → s = s' ∧ p = p'.
Proof.
  assert (∀ p w q, well_formed p → well_formed q → "::" +:+ p = w +:+ "::" +:+ q → w = "") as Hpre.
  { intros p0 w q Hp%well_formed_colons Hq%well_formed_colons H.
    destruct w as [|c w]; [done|]. exfalso. pose proof (f_equal colons H) as Hc.
    rewrite !colons_app, Hp, Hq in Hc. rewrite append_cons in H. injection H as <- _. cbn in Hc. lia. }
  unfold scan_key. intros Hp Hp' H.
  apply append_eq_app in H as [(w & -> & H)|(w & -> & H)];
    pose proof H as Hw; apply Hpre in Hw as ->; try done;
    rewrite append_nil_r, append_nil_l in *; by injection H.
Qed.

(** ** What the scanner finds *)

(** A declaration as a source file writes it:
    [@RequirePermission('role:create', { th: '...', en: '...' })]. *)
Record declaration := Declaration { d_quote : ascii; d_permission : string; d_name : option display_name }.

Definition quoted (q : ascii) (s : string) (rest : string) : string := String q (s +:+ String q rest).
Definition print_args (d : declaration) (rest : string) : string :=
  quoted (d_quote d) (d_permission d)
    match d_name d with
    | None => rest
    | Some n => ", { th: " +:+ quoted (d_quote d) (th n)
                  (", en: " +:+ quoted (d_quote d) (en n) (" }" +:+ rest))
    end.
Definition print_declaration (d : declaration) (rest : string) : string :=
  DECORATOR_CALL_START +:+ print_args d (")" +:+ rest).
(** A file: declarations, each after some text, and the text at the end. *)
Definition print_file (l : list (string * declaration)) (tail : string) : string :=
  foldr (λ '(text, d) rest, text +:+ print_declaration d rest) tail l.

(** Characters of a name that need no escaping, and no colon: a colon could
    make the text of [th] look like the property [en]. *)
Definition name_char (q c : ascii) : bool :=
  negb (Ascii.eqb c q) && negb (Ascii.eqb c "\") && negb (is_line_end c) && negb (Ascii.eqb c ":").
Definition plain_declaration (d : declaration) : Prop :=
  is_quote (d_quote d) = true ∧ well_formed (d_permission d) ∧
  ∀ n, d_name d = Some n →
    str_forall (name_char (d_quote d)) (th n) = true ∧ str_forall (name_char (d_quote d)) (en n) = true.

Lemma str_forall_impl (f g : ascii → bool) s :
  (∀ c, f c = true → g c = true) → str_forall f s = true → str_forall g s = true.
Proof.
  intros Hfg. induction s as [|c s IH]; [done|]. cbn. rewrite !andb_true_iff. naive_solver.
Qed.

Lemma take_args_prev depth p p' s : take_args depth None p s = take_args depth None p' s.
Proof. by destruct s. Qed.
Lemma take_args_in_quote q depth prev s rest :
  str_forall (λ c, negb (Ascii.eqb c q) && negb (Ascii.eqb c "\")) s = true → prev ≠ "\"%char →
  take_args depth (Some q) prev (s +:+ String q rest) = s +:+ String q (take_args depth None q rest).
Proof.
  revert prev. induction s as [|c s IH]; intros prev Hs Hprev.
  - rewrite !append_nil_l. cbn [take_args]. rewrite Ascii.eqb_refl.
    by apply Ascii.eqb_neq in Hprev as ->.
  - cbn in Hs. apply andb_true_iff in Hs as [Hc Hs].
    apply andb_true_iff in Hc as [Hq Hb]. rewrite !append_cons. cbn [take_args].
    apply negb_true_iff in Hq as ->. cbn [andb]. f_equal. apply IH; [done|].
    by intros ->.
Qed.
Lemma take_args_quoted q depth prev s rest :
  is_quote q = true → str_forall (λ c, negb (Ascii.eqb c q) && negb (Ascii.eqb c "\")) s = true →
  take_args depth None prev (quoted q s rest) = quoted q s (take_args depth None q rest).
Proof.
  intros Hq Hs. unfold quoted. cbn [take_args]. rewrite Hq. cbn [orb]. f_equal.
  apply take_args_in_quote; [done|]. by intros ->.
Qed.
Lemma take_args_plain depth prev p s rest :
  str_forall (λ c, negb (is_quote c) && negb (Ascii.eqb c "`") && negb (Ascii.eqb c "(") && negb (Ascii.eqb c ")")) s
    = true →
  take_args depth None prev (s +:+ rest) = s +:+ take_args depth None p rest.
Proof.
  revert prev. induction s as [|c s IH]; intros prev Hs; [apply take_args_prev|].
  cbn in Hs. rewrite !andb_true_iff, !negb_true_iff in Hs. destruct Hs as [[[[Hq Hb] Ho] Hc] Hs].
  rewrite !append_cons. cbn [take_args]. rewrite Hq, Hb, Ho, Hc. cbn [orb]. f_equal. by apply IH.
Qed.

Lemma is_quote_cases q : is_quote q = true → q = "'"%char ∨ q = double_quote.
Proof. unfold is_quote. by rewrite orb_true_iff, !Ascii.eqb_eq. Qed.
Lemma word_plain q s : is_quote q = true → str_forall is_word s = true →
  str_forall (λ c, negb (Ascii.eqb c q) && negb (Ascii.eqb c "\")) s = true.
Proof.
  intros Hq. apply str_forall_impl. intros c Hc. rewrite andb_true_iff, !negb_true_iff, !Ascii.eqb_neq.
  split; intros ->; [|done]. by destruct (is_quote_cases _ Hq) as [-> | ->].
Qed.
Lemma permission_plain q p : is_quote q = true → well_formed p →
  str_forall (λ c, negb (Ascii.eqb c q) && negb (Ascii.eqb c "\")) p = true.
Proof.
  intros Hq (pre & act & (-> & _ & _ & Hp & Ha)%match_permission_Some)%well_formed_match.
  rewrite !str_forall_app, (word_plain q pre), (word_plain q act) by done. cbn.
  by destruct (is_quote_cases _ Hq) as [-> | ->].
Qed.
Lemma name_plain q s : str_forall (name_char q) s = true →
  str_forall (λ c, negb (Ascii.eqb c q) && negb (Ascii.eqb c "\")) s = true.
Proof. apply str_forall_impl. intros c. unfold name_char. rewrite !andb_true_iff. tauto. Qed.

Lemma quoted_app q s r r' : quoted q s (r +:+ r') = quoted q s r +:+ r'.
Proof. unfold quoted. by rewrite append_cons, append_assoc, append_cons. Qed.
Lemma print_args_app d rest : print_args d rest = print_args d "" +:+ rest.
Proof.
  unfold print_args. rewrite <- quoted_app. destruct (d_name d) as [n|]; [|done].
  by rewrite append_assoc, <- quoted_app, append_assoc, <- quoted_app, append_assoc.
Qed.
Lemma extract_declaration d rest : plain_declaration d →
  extractBalancedArgs (print_args d (")" +:+ rest)) = print_args d "".
Proof.
  intros (Hq & Hp & Hn). unfold extractBalancedArgs, print_args.
  rewrite take_args_quoted by (done || by apply permission_plain). f_equal.
  destruct (d_name d) as [n|]; [|done]. destruct (Hn n eq_refl) as [Ht He].
  rewrite (take_args_plain 1 _ " ") by done. f_equal.
  rewrite take_args_quoted by (done || by apply name_plain). f_equal.
  rewrite (take_args_plain 1 _ " ") by done. f_equal.
  rewrite take_args_quoted by (done || by apply name_plain). f_equal.
Qed.

(** *** The properties [th] and [en] of the arguments *)

Lemma quote_no_space q : is_quote q = true → is_space q = false ∧ Ascii.eqb q ":" = false ∧ is_word q = false.
Proof. by intros [-> | ->]%is_quote_cases. Qed.

Lemma trimStart_cons c s : is_space c = false → trimStart (String c s) = String c s.
Proof. intros Hc. unfold trimStart. cbn [span]. by rewrite Hc. Qed.
Lemma trimStart_space s : trimStart (String " " s) = trimStart s.
Proof. unfold trimStart. cbn. by destruct (span is_space s). Qed.

(** The first character after a key is not a colon if the text up to the
    closing quote has none. *)
Lemma trimStart_no_colon s q rest : is_quote q = true →
  str_forall (λ c, negb (Ascii.eqb c ":")) s = true →
  ∃ c r, trimStart (s +:+ String q rest) = String c r ∧ Ascii.eqb c ":" = false.
Proof.
  intros (Hsp & Hcol & _)%quote_no_space Hs. induction s as [|c s IH].
  - exists q, rest. rewrite append_nil_l. by rewrite trimStart_cons.
  - cbn in Hs. apply andb_true_iff in Hs as [Hc Hs]. apply negb_true_iff in Hc. rewrite append_cons.
    destruct (is_space c) eqn:E.
    + destruct (IH Hs) as (d & r & Hr & Hd). exists d, r. split; [|done].
      rewrite <- Hr. unfold trimStart. cbn [span]. rewrite E. by destruct (span _ _).
    + exists c, (s +:+ String q rest). by rewrite trimStart_cons.
Qed.

Lemma drop_prefix_no_quote k s q rest r :
  str_forall is_word k = true → is_quote q = true →
  drop_prefix k (s +:+ String q rest) = Some r → ∃ w, s = k +:+ w ∧ r = w +:+ String q rest.
Proof.
  intros Hk Hq H%drop_prefix_Some. apply append_eq_app in H as [(w & -> & Hr)|(w & -> & Hr)]; [|eauto].
  destruct w as [|c w]; [exists ""; rewrite append_nil_l in *; by rewrite !append_nil_r|].
  exfalso. rewrite append_cons in Hr. injection Hr as <- _.
  rewrite str_forall_app in Hk. apply andb_true_iff in Hk as [_ Hk]. cbn in Hk.
  by rewrite (proj2 (proj2 (quote_no_space q Hq))) in Hk.
Qed.
Lemma match_property_none k prev s q rest :
  str_forall is_word k = true → is_quote q = true → str_forall (λ c, negb (Ascii.eqb c ":")) s = true →
  match_property k prev (s +:+ String q rest) = None.
Proof.
  intros Hk Hq Hs. unfold match_property. destruct (is_word prev); [done|].
  destruct (drop_prefix k _) as [r|] eqn:E; [|done].
  apply drop_prefix_no_quote in E as (w & -> & ->); [|done..].
  rewrite str_forall_app in Hs. apply andb_true_iff in Hs as [_ Hs].
  destruct (trimStart_no_colon w q rest Hq Hs) as (c & r' & -> & Hc).
  destruct c as [[] [] [] [] [] [] [] []]; done.
Qed.
Lemma search_past k prev s q rest :
  str_forall is_word k = true → k ≠ "" → is_quote q = true → str_forall (λ c, negb (Ascii.eqb c ":")) s = true →
  search_property k prev (s +:+ String q rest) = search_property k q rest.
Proof.
  intros Hk Hne Hq. revert prev. induction s as [|c s IH]; intros prev Hs.
  - rewrite append_nil_l. cbn [search_property].
    pose proof (match_property_none k prev "" q rest Hk Hq eq_refl) as H.
    rewrite append_nil_l in H. by rewrite H.
  - pose proof (match_property_none k prev (String c s) q rest Hk Hq Hs) as H.
    rewrite append_cons in *. cbn [search_property]. rewrite H. apply IH.
    cbn in Hs. by apply andb_true_iff in Hs as [_ ?].
Qed.

Lemma match_property_here k q s rest :
  str_forall (name_char q) s = true → is_quote q = true →
  match_property k " " (k +:+ ": " +:+ quoted q s rest) = Some s.
Proof.
  intros Hs Hq. unfold match_property. cbn [is_word is_digit is_upper is_lower].
  rewrite drop_prefix_app. change (": " +:+ quoted q s rest) with (String ":" (String " " (quoted q s rest))).
  rewrite trimStart_cons by done. rewrite trimStart_space. unfold quoted.
  rewrite trimStart_cons by by apply quote_no_space. rewrite Hq.
  rewrite span_app; [by rewrite Ascii.eqb_refl| |by rewrite Ascii.eqb_refl].
  revert Hs. apply str_forall_impl. intros c. unfold name_char. rewrite !andb_true_iff. tauto.
Qed.

Lemma search_skip k prev c s : match_property k prev (String c s) = None →
  search_property k prev (String c s) = search_property k c s.
Proof. intros H. cbn [search_property]. by rewrite H. Qed.

Lemma search_th q s rest : str_forall (name_char q) s = true → is_quote q = true →
  search_property "th" " " (", { th: " +:+ quoted q s rest) = Some s.
Proof.
  intros Hs Hq. pose proof (match_property_here "th" q s rest Hs Hq) as H.
  change (", { th: " +:+ quoted q s rest) with
    (String "," (String " " (String "{" (String " " ("th" +:+ ": " +:+ quoted q s rest))))).
  do 4 rewrite search_skip by reflexivity.
  change ("th" +:+ ": " +:+ quoted q s rest) with (String "t" ("h: " +:+ quoted q s rest)) in *.
  cbn [search_property]. by rewrite H.
Qed.
Lemma search_en q t s rest : str_forall (name_char q) t = true → str_forall (name_char q) s = true →
  is_quote q = true →
  search_property "en" " " (", { th: " +:+ quoted q t (", en: " +:+ quoted q s rest)) = Some s.
Proof.
  intros Ht Hs Hq. pose proof (match_property_here "en" q s rest Hs Hq) as H.
  unfold quoted at 1.
  change (", { th: " +:+ ?r) with
    (String "," (String " " (String "{" (String " " (String "t" (String "h" (String ":" (String " " r)))))))).
  do 8 rewrite search_skip by reflexivity.
  rewrite <- (append_nil_l (String q _)), (search_past "en" _ "" q) by done.
  rewrite search_past; [|done|done|done|].
  2: { revert Ht. apply str_forall_impl. intros c. unfold name_char. rewrite !andb_true_iff. tauto. }
  change (", en: " +:+ quoted q s rest) with (String "," (String " " ("en" +:+ ": " +:+ quoted q s rest))).
  rewrite search_skip by by destruct (is_quote_cases q Hq) as [-> | ->].
  rewrite search_skip by reflexivity.
  change ("en" +:+ ": " +:+ quoted q s rest) with (String "e" ("n: " +:+ quoted q s rest)) in *.
  cbn [search_property]. by rewrite H.
Qed.

Lemma match_literal_quoted q p rest : is_quote q = true → well_formed p →
  match_literal (quoted q p rest) = Some (p, rest).
Proof.
  intros Hq (pre & act & (-> & Hp & Ha & Hwp & Hwa)%match_permission_Some)%well_formed_match.
  pose proof (quote_no_space q Hq) as (Hsp & _ & Hnw).
  unfold match_literal, quoted. rewrite trimStart_cons, Hq by done.
  rewrite !append_assoc. change (":" +:+ act +:+ String q rest) with (String ":" (act +:+ String q rest)).
  rewrite span_app by done. rewrite span_app by done. rewrite Ascii.eqb_refl.
  by apply String.eqb_neq in Hp as ->, Ha as ->.
Qed.
Lemma parse_declaration d : plain_declaration d →
  parseDecoratorCall (print_args d "") = Some (d_permission d, d_name d).
Proof.
  intros (Hq & Hp & Hn). unfold parseDecoratorCall, print_args. rewrite match_literal_quoted by done.
  destruct (d_name d) as [[t e]|]; [|done]. destruct (Hn _ eq_refl) as [Ht He]. cbn [th en] in *.
  by rewrite search_th, search_en.
Qed.

(** *** The loop *)

(** The fuel is enough: a larger one gives the same calls, so
    [decorator_calls] is what the unbounded loop computes. *)
Lemma calls_go_fuel n m content :
  (String.length content < n)%nat → (String.length content < m)%nat → calls_go n content = calls_go m content.
Proof.
  revert m content. induction n as [|n IH]; intros [|m] content Hn Hm; try lia.
  cbn [calls_go]. destruct (find_sub DECORATOR_CALL_START content) as [[pre after]|] eqn:E; [|done].
  apply find_sub_Some in E as ->. rewrite !append_length in Hn, Hm. cbn in Hn, Hm. f_equal.
  pose proof (slice_from_length (String.length (extractBalancedArgs after) + 1) after). apply IH; lia.
Qed.
Lemma decorator_calls_unfold content :
  decorator_calls content =
    match find_sub DECORATOR_CALL_START content with
    | None => []
    | Some (_, after) =>
        let args := extractBalancedArgs after in
        args :: decorator_calls (slice_from (String.length args + 1) after)
    end.
Proof.
  unfold decorator_calls at 1. cbn [calls_go].
  destruct (find_sub DECORATOR_CALL_START content) as [[pre after]|] eqn:E; [|done].
  apply find_sub_Some in E as ->. cbv zeta. f_equal. unfold decorator_calls.
  pose proof (slice_from_length (String.length (extractBalancedArgs after) + 1) after).
  apply calls_go_fuel; rewrite ?append_length; cbn; lia.
Qed.

Definition no_call (text : string) : Prop := str_includes text DECORATOR_CALL_START = false.

Lemma find_call text rest : no_call text →
  find_sub DECORATOR_CALL_START (text +:+ DECORATOR_CALL_START +:+ rest) = Some (text, rest).
Proof. intros H. by apply find_sub_first. Qed.

Lemma calls_of_file l tail :
  Forall (λ '(text, d), no_call text ∧ plain_declaration d) l → no_call tail →
  decorator_calls (print_file l tail) = List.map (λ '(_, d), print_args d "") l.
Proof.
  intros Hl Htail. induction l as [|[text d] l IH]; cbn [print_file foldr List.map];
    rewrite decorator_calls_unfold.
  - unfold no_call, str_includes in Htail. by destruct (find_sub _ tail) as [[]|].
  - apply Forall_cons in Hl as [[Htext Hd] Hl]. unfold print_declaration.
    rewrite find_call by done. cbv zeta. rewrite extract_declaration by done. f_equal.
    rewrite (print_args_app d (")" +:+ _)). replace (String.length (print_args d "") + 1)%nat
      with (String.length (print_args d "" +:+ ")")) by by rewrite append_length.
    rewrite <- append_assoc, slice_from_app. by apply IH.
Qed.

(** C17: scanning finds what is declared: in a file made of declarations and of text
    that has no decorator call, the scanner finds exactly the declarations, in
    their order, with their display names. *)
Theorem scan_finds_declarations l tail
    (Hl : Forall (λ '(text, d), no_call text ∧ plain_declaration d) l) (Htail : no_call tail) :
  omap parseDecoratorCall (decorator_calls (print_file l tail)) =
    List.map (λ '(_, d), (d_permission d, d_name d)) l.
Proof.
  rewrite calls_of_file by done. clear Htail. induction l as [|[text d] l IH]; [done|].
  apply Forall_cons in Hl as [[_ Hd] Hl]. cbn. rewrite parse_declaration by done. f_equal. by apply IH.
Qed.

(** ** The catalog the scans describe *)

(** The hits of a service. *)
Definition declared_in (apps : list (string * fs)) (hits : string → fs → list IScannedPermission)
    (p : IScannedPermission) : Prop :=
  ∃ dir, (sc_service p, dir) ∈ apps ∧ p ∈ hits (sc_service p) dir.

Definition service_api_hits (service : string) (dir : fs) : list IScannedPermission :=
  match sub_directory dir "src" with
  | None => []
  | Some src => List.flat_map (λ content, omap (api_hit service) (decorator_calls content)) (walk isSourceFile src)
  end.

(** A scanned permission as the catalog expects it. *)
Record sound_scan (plane : permission_plane) (p : IScannedPermission) : Prop := {
  ss_parts : ∃ resource, derivePermissionParts (sc_permission p) = Some (resource, sc_action p);
  ss_plane : sc_plane p = plane;
}.
Lemma sound_well_formed plane p : sound_scan plane p → well_formed (sc_permission p).
Proof. intros [(? & H) _]. unfold well_formed. rewrite H. eauto. Qed.

Lemma api_hit_sound service args p : api_hit service args = Some p → sound_scan api p ∧ sc_service p = service.
Proof.
  unfold api_hit. destruct (parseDecoratorCall args) as [[perm name]|]; [|done].
  destruct (derivePermissionParts perm) as [[r a]|] eqn:E; [|done]. intros [= <-]. split; [|done].
  split; [|done]. cbn. eauto.
Qed.
Lemma ui_hit_sound service perm p : ui_hit service perm = Some p → sound_scan ui p ∧ sc_service p = service.
Proof.
  unfold ui_hit. destruct (derivePermissionParts perm) as [[r a]|] eqn:E; [|done]. intros [= <-].
  split; [|done]. split; [|done]. cbn. eauto.
Qed.
Lemma manifest_entry_sound service entry prefix p : parseManifestEntry service entry prefix = Some p →
  sound_scan ui p ∧ sc_service p = service ∧ startsWith (sc_permission p) (prefix +:+ ":") = true.
Proof.
  unfold parseManifestEntry. destruct (isRecord entry) as [fs|]; [|done].
  destruct (isNonEmptyString _) as [perm|]; [|done].
  destruct (derivePermissionParts perm) as [[r a]|] eqn:E; [|done].
  destruct (startsWith perm _) eqn:Hs; [|done]. intros [= <-]. split_and!; [|done..].
  split; [|done]. cbn. eauto.
Qed.
Lemma manifest_page_sound service page p : p ∈ manifest_page service page →
  sound_scan ui p ∧ sc_service p = service ∧
  (startsWith (sc_permission p) "page:" = true ∨ startsWith (sc_permission p) "component:" = true).
Proof.
  unfold manifest_page. rewrite elem_of_app. intros [Hp|Hc].
  - destruct (parseManifestEntry service page "page") as [q|] eqn:E; [|by apply elem_of_nil in Hp].
    apply list_elem_of_singleton in Hp as ->. destruct (manifest_entry_sound _ _ _ _ E) as (? & ? & ?). auto.
  - destruct (property "components" _); try by apply elem_of_nil in Hc.
    apply list_elem_of_omap in Hc as (c & _ & Hc). unfold manifest_component in Hc.
    destruct (parseManifestEntry service c "component") as [s|] eqn:E; [|done].
    destruct (manifest_entry_sound _ _ _ _ E) as ([[r Hr] Hpl] & Hs & Hpre). injection Hc as <-.
    destruct (parseManifestEntry service page "page"); cbn; (split; [split; cbn; eauto|auto]).
Qed.

Lemma scanApi_spec apps p : p ∈ scanApiPermissions apps →
  sound_scan api p ∧ declared_in apps service_api_hits p.
Proof.
  intros Hp%found_sound. unfold api_hits in Hp.
  apply elem_of_flat_map in Hp as ([service dir] & Hin & Hp). fold (service_api_hits service dir) in Hp.
  assert (sound_scan api p ∧ sc_service p = service) as [Hs Hsv].
  { unfold service_api_hits in Hp. destruct (sub_directory dir "src") as [src|]; [|by apply elem_of_nil in Hp].
    apply elem_of_flat_map in Hp as (content & _ & (args & _ & Hargs)%list_elem_of_omap).
    by apply api_hit_sound in Hargs. }
  split; [done|]. exists dir. by rewrite Hsv.
Qed.
Lemma scanUi_spec JSON_parse apps p : p ∈ scanUiPermissions JSON_parse apps → sound_scan ui p.
Proof.
  intros Hp%found_sound. unfold ui_hits in Hp.
  apply elem_of_flat_map in Hp as ([service dir] & _ & [Hp|Hp]%elem_of_app).
  - apply elem_of_flat_map in Hp as (sub & _ & Hp). apply elem_of_flat_map in Hp as (content & _ & Hp).
    apply list_elem_of_omap in Hp as (perm & _ & Hp).
    by destruct (ui_hit_sound _ _ _ Hp).
  - unfold scanUiPermissionsManifest in Hp. destruct dir as [|entries]; [by apply elem_of_nil in Hp|].
    destruct (obj_get _ entries) as [[content|]|]; try by apply elem_of_nil in Hp.
    destruct (JSON_parse content) as [m|]; [|by apply elem_of_nil in Hp].
    destruct (property "pages" _); try by apply elem_of_nil in Hp.
    apply elem_of_flat_map in Hp as (page & _ & Hp).
    by destruct (manifest_page_sound _ _ _ Hp).
Qed.

(** ** Witness *)

Definition sample_declarations : list (string * declaration) :=
  [("class Roles { ", Declaration "'" "role:create" (Some (DisplayName "sang (1)" "Create roles")));
   (" create() {} ", Declaration double_quote "role:read" None)].
Lemma scan_finds_declarations_witness :
  print_file sample_declarations " }" =
    "class Roles { @RequirePermission('role:create', { th: 'sang (1)', en: 'Create roles' }) create() {} @RequirePermission("
      +:+ String double_quote ("role:read" +:+ String double_quote ") }") ∧
  omap parseDecoratorCall (decorator_calls (print_file sample_declarations " }")) =
    [("role:create", Some (DisplayName "sang (1)" "Create roles")); ("role:read", None)].
Proof.
  split; [reflexivity|]. apply (scan_finds_declarations sample_declarations " }"); [|reflexivity].
  unfold sample_declarations. apply Forall_cons; split; [|apply Forall_cons; split; [|apply Forall_nil_2]];
    (split; [reflexivity|]; split; [reflexivity|]; split; [eexists; reflexivity|]);
    intros n Hn; [injection Hn as <-; split; reflexivity|discriminate Hn].
Defined.
