(* ===== verification/PermissionSync.v ===== *)
(** * Synchronising the permission catalog

    The two writers of the permissions table: [Cli], the script
    src/libs/database/src/scripts/sync-permissions.script.ts, and [InApp], the
    button's PermissionsSyncService
    (src/apps/iam/src/modules/permissions/services/permissions-sync.service.ts).
    Both diff the scans of PermissionScan.v against the catalog, plane by plane.

    [catalog] reads a table as a finite map from (service, permission) to the
    columns the sync writes; [pass] says, column by column and without the
    code's helpers, what one plane's sync means for one key.
    The id the database generates for a new row is a parameter, the UNIQUE
    constraint of permission.entity.ts is checked by [insert_row]; column
    lengths are left out.  A thrown error rolls the transaction back. *)

From S2P Require Import Prelude JsString JsValues Repo PermissionScan.
#[local] Open Scope string_scope.

(** ** The catalog *)

Record catalog_entry := Entry {
  e_resource : string;
  e_action : string;
  e_plane : permission_plane;
  e_name_th : string;
  e_name_en : string;
  e_is_manual : bool;
  e_is_deleted : bool;
  e_deleted_at : option Z;
  e_deleted_reason : option string;
}.
Record catalog_row := CatalogRow {
  c_id : string;
  c_service : string;
  c_permission : string;
  c_entry : catalog_entry;
}.
#[export] Instance catalog_row_entity : Entity catalog_row :=
  { pk := c_id; deleted_at := λ r, e_deleted_at (c_entry r) }.

Definition has_key (service permission : string) (r : catalog_row) : bool :=
  String.eqb (c_service r) service && String.eqb (c_permission r) permission.
Definition on_entry (f : catalog_entry → catalog_entry) (r : catalog_row) : catalog_row :=
  CatalogRow (c_id r) (c_service r) (c_permission r) (f (c_entry r)).

(** ** The columns a sync writes *)

Definition name_th (p : IScannedPermission) : string :=
  match sc_name p with Some n => th n | None => derivePlaceholderName (sc_permission p) end.
Definition name_en (p : IScannedPermission) : string :=
  match sc_name p with Some n => en n | None => derivePlaceholderName (sc_permission p) end.

Definition new_entry (plane : permission_plane) (p : IScannedPermission) : catalog_entry :=
  Entry (sc_resource p) (sc_action p) plane (name_th p) (name_en p) false false None None.
(** The update of a row found again; [plane] and [is_manual] are left alone. *)
Definition revive (p : IScannedPermission) (e : catalog_entry) : catalog_entry :=
  let hasExplicitName := match sc_name p with Some _ => true | None => false end in
  Entry (sc_resource p) (sc_action p) (e_plane e)
    (if hasExplicitName then name_th p else e_name_th e)
    (if hasExplicitName then name_en p else e_name_en e)
    (e_is_manual e) false None None.
Definition soft_delete (now : Z) (reason : string) (e : catalog_entry) : catalog_entry :=
  Entry (e_resource e) (e_action e) (e_plane e) (e_name_th e) (e_name_en e) (e_is_manual e)
    true (Some now) (Some reason).

(** The rows a plane's diff looks at. *)
Definition in_plane (plane : permission_plane) (e : catalog_entry) : bool :=
  negb (e_is_deleted e) && bool_decide (e_plane e = plane) && negb (e_is_manual e).

Record IPlaneDiff := PlaneDiff {
  added : list IScannedPermission;
  removed : list (string * string);
  unchanged : list IScannedPermission;
}.
Record PermissionSyncLog := SyncLog {
  log_added : list (string * string * permission_plane);
  log_removed : list (string * string);
  added_count : nat;
  removed_count : nat;
  unchanged_count : nat;
  triggered_by : string;
}.

Definition diff (existingRows : list catalog_row) (scanned : list IScannedPermission) : IPlaneDiff :=
  let existing := List.map (λ r, scan_key (c_service r) (c_permission r)) existingRows in
  let scannedKeys := List.map (λ p, scan_key (sc_service p) (sc_permission p)) scanned in
  PlaneDiff
    (List.filter (λ p, negb (includes existing (scan_key (sc_service p) (sc_permission p)))) scanned)
    (List.map (λ r, (c_service r, c_permission r))
       (List.filter (λ r, negb (includes scannedKeys (scan_key (c_service r) (c_permission r)))) existingRows))
    (List.filter (λ p, includes existing (scan_key (sc_service p) (sc_permission p))) scanned).

Definition sync_log (apiDiff uiDiff : IPlaneDiff) (by_ : string) : PermissionSyncLog :=
  let added := (added apiDiff ++ added uiDiff)%list in
  let removed := (removed apiDiff ++ removed uiDiff)%list in
  let unchanged := (unchanged apiDiff ++ unchanged uiDiff)%list in
  SyncLog (List.map (λ p, (sc_service p, sc_permission p, sc_plane p)) added) removed
    (length added) (length removed) (length unchanged) by_.

Definition API_REMOVED : string := "no longer declared via @RequirePermission()".
Definition UI_REMOVED : string := "no longer declared via data-permission attribute".

Section sync.
Context {T : Type → Type} `{Database T}.
(** The id a new row gets, and the error of the UNIQUE constraint. *)
Context (new_id : T catalog_row → string) (unique_violation : string → string → driver_error).

Definition insert_row (plane : permission_plane) (p : IScannedPermission) (t : T catalog_row) : T catalog_row :=
  db_insert (CatalogRow (new_id t) (sc_service p) (sc_permission p) (new_entry plane p)) t.
Definition remove_row (now : Z) (reason : string) (t : T catalog_row) (k : string * string) : T catalog_row :=
  (db_update (λ r, has_key k.1 k.2 r && negb (e_is_manual (c_entry r)))
     (on_entry (soft_delete now reason)) t).1.

(** *** The script *)
Definition cli_upsert (plane : permission_plane) (t : T catalog_row) (p : IScannedPermission) : T catalog_row :=
  match db_select (has_key (sc_service p) (sc_permission p)) t with
  | [] => insert_row plane p t
  | _ => (db_update (has_key (sc_service p) (sc_permission p)) (on_entry (revive p)) t).1
  end.
Definition cli_syncPlane (now : Z) (plane : permission_plane) (scanned : list IScannedPermission)
    (removedReason : string) (t : T catalog_row) : IPlaneDiff * T catalog_row :=
  let existingRows := db_select (λ r, in_plane plane (c_entry r)) t in
  let d := diff existingRows scanned in
  let t1 := foldl (cli_upsert plane) t scanned in
  (d, foldl (remove_row now removedReason) t1 (removed d)).
Definition cli_main (now : Z) (apiScanned uiScanned : list IScannedPermission) (hostname : string)
    (t : T catalog_row) : PermissionSyncLog * T catalog_row :=
  let '(apiDiff, t1) := cli_syncPlane now api apiScanned API_REMOVED t in
  let '(uiDiff, t2) := cli_syncPlane now ui uiScanned UI_REMOVED t1 in
  (sync_log apiDiff uiDiff hostname, t2).

(** *** The service *)
Definition app_upsert (plane : permission_plane) (t : T catalog_row) (p : IScannedPermission) :
    result (T catalog_row) :=
  match repo_findOne (has_key (sc_service p) (sc_permission p)) t with
  | Some existingRow => Ok (db_update (has_pk (c_id existingRow)) (on_entry (revive p)) t).1
  | None =>
      match db_select (has_key (sc_service p) (sc_permission p)) t with
      | [] => Ok (insert_row plane p t)
      | _ => Throw (QueryFailedError (unique_violation (sc_service p) (sc_permission p)))
      end
  end.
Definition app_syncPlane (now : Z) (plane : permission_plane) (scanned : list IScannedPermission)
    (removedReason : string) (t : T catalog_row) : result (IPlaneDiff * T catalog_row) :=
  let existingRows := repo_find (λ r, in_plane plane (c_entry r)) t in
  let d := diff existingRows scanned in
  let! t1 := res_fold (app_upsert plane) t scanned in
  Ok (d, foldl (remove_row now removedReason) t1 (removed d)).
Definition runSync (now : Z) (apiScanned uiScanned : list IScannedPermission) (triggeredBy : string)
    (t : T catalog_row) : result (PermissionSyncLog * T catalog_row) :=
  let! (apiDiff, t1) := app_syncPlane now api apiScanned API_REMOVED t in
  let! (uiDiff, t2) := app_syncPlane now ui uiScanned UI_REMOVED t1 in
  Ok (sync_log apiDiff uiDiff triggeredBy, t2).
End sync.

(** ** What a sync means

    For one key: the row that one plane's pass leaves under it, each column
    spelled out.  A declared key always ends up live, whatever the plane or the
    origin of the row it had; its explicit name wins, its placeholder never
    replaces a name.  A key that is not declared loses its row only if that row
    is live, of this plane and not entered by hand. *)
Definition pass (now : Z) (plane : permission_plane) (reason : string) (scan : option IScannedPermission)
    (row : option catalog_entry) : option catalog_entry :=
  match scan, row with
  | Some p, _ =>
      let first (stored : option string) (given : display_name → string) :=
        match sc_name p, stored with
        | Some n, _ => given n
        | None, Some old => old
        | None, None => derivePlaceholderName (sc_permission p)
        end in
      Some {| e_resource := sc_resource p; e_action := sc_action p;
              e_plane := match row with Some e => e_plane e | None => plane end;
              e_name_th := first (e_name_th <$> row) th; e_name_en := first (e_name_en <$> row) en;
              e_is_manual := match row with Some e => e_is_manual e | None => false end;
              e_is_deleted := false; e_deleted_at := None; e_deleted_reason := None |}
  | None, Some e =>
      match e_is_manual e, e_is_deleted e, e_plane e, plane with
      | false, false, api, api | false, false, ui, ui =>
          Some {| e_resource := e_resource e; e_action := e_action e; e_plane := plane;
                  e_name_th := e_name_th e; e_name_en := e_name_en e; e_is_manual := false;
                  e_is_deleted := true; e_deleted_at := Some now; e_deleted_reason := Some reason |}
      | _, _, _, _ => Some e
      end
  | None, None => None
  end.
Definition sync_key (now : Z) (api_scan ui_scan : option IScannedPermission) (row : option catalog_entry) :
    option catalog_entry :=
  pass now ui "no longer declared via data-permission attribute" ui_scan
    (pass now api "no longer declared via @RequirePermission()" api_scan row).

(** The same in terms of what the statements of the code do to an entry. *)
Definition plane_step (now : Z) (plane : permission_plane) (reason : string) (scan : option IScannedPermission)
    (row : option catalog_entry) : option catalog_entry :=
  match scan, row with
  | Some p, None => Some (new_entry plane p)
  | Some p, Some e => Some (revive p e)
  | None, Some e => Some (if in_plane plane e then soft_delete now reason e else e)
  | None, None => None
  end.
Definition sync_steps (now : Z) (api_scan ui_scan : option IScannedPermission) (row : option catalog_entry) :
    option catalog_entry :=
  plane_step now ui UI_REMOVED ui_scan (plane_step now api API_REMOVED api_scan row).

Lemma plane_step_pass now plane reason scan row :
  plane_step now plane reason scan row = pass now plane reason scan row.
Proof.
  unfold plane_step, pass, new_entry, revive, in_plane, soft_delete, name_th, name_en.
  destruct scan as [p|], row as [e|]; cbn; [by destruct (sc_name p)..| |done].
  by destruct e as [? ? [] ? ? [] [] ? ?], plane.
Qed.
Lemma sync_steps_key now api_scan ui_scan row : sync_steps now api_scan ui_scan row = sync_key now api_scan ui_scan row.
Proof. unfold sync_steps. by rewrite !plane_step_pass. Qed.

(** ** The catalog as a map *)

Abbreviation key := (string * string)%type.
Definition row_key (r : catalog_row) : key := (c_service r, c_permission r).
Definition scan_pair (p : IScannedPermission) : key := (sc_service p, sc_permission p).
Lemma has_key_true s p r : has_key s p r = true ↔ row_key r = (s, p).
Proof. unfold has_key, row_key. rewrite andb_true_iff, !String.eqb_eq. naive_solver. Qed.
Lemma has_key_decide k r : has_key k.1 k.2 r = bool_decide (row_key r = k).
Proof.
  destruct k as [s p]. cbn. destruct (has_key s p r) eqn:E; symmetry.
  - apply bool_decide_eq_true. by apply has_key_true.
  - apply bool_decide_eq_false. intros Hk%has_key_true. congruence.
Qed.

Definition scan_of (scanned : list IScannedPermission) : gmap key IScannedPermission :=
  list_to_map ((λ p, (scan_pair p, p)) <$> scanned).
Lemma scan_pairs_fst scanned : ((λ p, (scan_pair p, p)) <$> scanned).*1 = scan_pair <$> scanned.
Proof. by rewrite <- list_fmap_compose. Qed.
Lemma scan_of_Some scanned k p : NoDup (scan_pair <$> scanned) →
  scan_of scanned !! k = Some p ↔ p ∈ scanned ∧ scan_pair p = k.
Proof.
  intros Hnd. unfold scan_of. rewrite <- elem_of_list_to_map by by rewrite scan_pairs_fst.
  rewrite list_elem_of_fmap. naive_solver.
Qed.
Lemma scan_of_None scanned k : scan_of scanned !! k = None ↔ k ∉ scan_pair <$> scanned.
Proof. unfold scan_of. by rewrite <- not_elem_of_list_to_map, scan_pairs_fst. Qed.

(** What a scan promises (PermissionScan.v). *)
Record scan_ok (plane : permission_plane) (scanned : list IScannedPermission) : Prop := {
  so_keys : NoDup (scan_pair <$> scanned);
  so_sound : ∀ p, p ∈ scanned → sound_scan plane p;
}.
Lemma NoDup_scan_pairs scanned : NoDup (key_of <$> scanned) → NoDup (scan_pair <$> scanned).
Proof.
  intros H. apply (NoDup_fmap_1 (λ k, scan_key k.1 k.2)). by rewrite <- list_fmap_compose.
Qed.
Lemma scanApi_ok apps : scan_ok api (scanApiPermissions apps).
Proof.
  split; [apply NoDup_scan_pairs, NoDup_found_keys|]. intros p Hp. by destruct (scanApi_spec apps p Hp).
Qed.
Lemma scanUi_ok JSON_parse apps : scan_ok ui (scanUiPermissions JSON_parse apps).
Proof. split; [apply NoDup_scan_pairs, NoDup_found_keys|]. apply scanUi_spec. Qed.

Section laws.
Context {T : Type → Type} `{DatabaseLaws T}.
Implicit Types (t : T catalog_row) (k : key) (p : IScannedPermission) (e : catalog_entry).

Definition catalog t : gmap key catalog_entry :=
  list_to_map ((λ r, (row_key r, c_entry r)) <$> rows t).

(** The UNIQUE constraint, and rows the sync wrote are named as it writes them. *)
Record catalog_ok t : Prop := {
  co_keys : NoDup (row_key <$> rows t);
  co_names : ∀ r, r ∈ rows t → e_is_manual (c_entry r) = false → well_formed (c_permission r);
}.

Lemma catalog_lookup t k e : NoDup (row_key <$> rows t) →
  catalog t !! k = Some e ↔ ∃ r, r ∈ rows t ∧ row_key r = k ∧ c_entry r = e.
Proof.
  intros Hnd. unfold catalog. rewrite <- elem_of_list_to_map by by rewrite <- list_fmap_compose.
  rewrite list_elem_of_fmap. naive_solver.
Qed.
Lemma catalog_lookup_None t k : catalog t !! k = None ↔ ∀ r, r ∈ rows t → row_key r ≠ k.
Proof.
  unfold catalog. rewrite <- not_elem_of_list_to_map, <- list_fmap_compose, list_elem_of_fmap.
  split; [|naive_solver]. intros Hn r Hr Hk. apply Hn. by exists r.
Qed.
Lemma catalog_of_row t r : NoDup (row_key <$> rows t) → r ∈ rows t → catalog t !! row_key r = Some (c_entry r).
Proof. intros Hnd Hr. apply catalog_lookup; eauto. Qed.

(** *** The statements on the map *)

(** An UPDATE that leaves the key alone. *)
Lemma catalog_update (q : catalog_row → bool) (c : key → catalog_entry → bool) f t :
  NoDup (row_key <$> rows t) → (∀ r, r ∈ rows t → q r = c (row_key r) (c_entry r)) →
  let t' := (db_update q (on_entry f) t).1 in
  NoDup (row_key <$> rows t') ∧
  ∀ k, catalog t' !! k = (λ e, if c k e then f e else e) <$> catalog t !! k.
Proof.
  intros Hnd Hq t'.
  assert (rows t' ≡ₚ (λ r, if q r then on_entry f r else r) <$> rows t) as Hrows by apply update_rows.
  assert (NoDup (row_key <$> rows t')) as Hnd'.
  { rewrite Hrows, <- list_fmap_compose.
    by rewrite (list_fmap_ext _ row_key) by (intros i r _; cbn; by destruct (q r)). }
  split; [done|]. intros k. apply option_eq. intros e. rewrite catalog_lookup by done.
  rewrite fmap_Some. setoid_rewrite (catalog_lookup t); [|done]. split.
  - intros (r' & Hr' & <- & <-). rewrite Hrows, list_elem_of_fmap in Hr'.
    destruct Hr' as (r & -> & Hr). rewrite (Hq r Hr). exists (c_entry r).
    destruct (c (row_key r) (c_entry r)) eqn:E; cbn; (split; [eauto|]); unfold row_key in *; cbn; by rewrite E.
  - intros (e0 & (r & Hr & <- & <-) & ->). exists (if q r then on_entry f r else r).
    rewrite Hrows, list_elem_of_fmap. rewrite (Hq r Hr). split; [exists r; by rewrite (Hq r Hr)|].
    by destruct (c (row_key r) (c_entry r)).
Qed.

Lemma catalog_insert (new_id : T catalog_row → string) plane p t : NoDup (row_key <$> rows t) → catalog t !! scan_pair p = None →
  let t' := insert_row new_id plane p t in
  NoDup (row_key <$> rows t') ∧
  ∀ k, catalog t' !! k = if decide (k = scan_pair p) then Some (new_entry plane p) else catalog t !! k.
Proof.
  intros Hnd Hnew t'. set (r := CatalogRow (new_id t) (sc_service p) (sc_permission p) (new_entry plane p)).
  assert (rows t' ≡ₚ r :: rows t) as Hrows by apply insert_rows.
  assert (NoDup (row_key <$> rows t')) as Hnd'.
  { rewrite Hrows. constructor; [|done]. intros (r' & Hk & Hr')%list_elem_of_fmap.
    rewrite catalog_lookup_None in Hnew. by destruct (Hnew r' Hr'). }
  split; [done|]. intros k.
  assert (catalog t' = <[scan_pair p := new_entry plane p]> (catalog t)) as ->.
  { unfold catalog. change (<[?k := ?e]> (list_to_map ?l)) with (list_to_map ((k, e) :: l) : gmap key catalog_entry).
    apply list_to_map_proper; [by rewrite <- list_fmap_compose|]. by rewrite Hrows. }
  case_decide as Hk; [subst; apply lookup_insert_eq|]. by apply lookup_insert_ne.
Qed.

Lemma select_key t k : db_select (has_key k.1 k.2) t = [] ↔ catalog t !! k = None.
Proof.
  rewrite catalog_lookup_None. split.
  - intros Hs r Hr Hk. assert (r ∈ db_select (has_key k.1 k.2) t) as Hin.
    { rewrite select_rows, elem_of_List_filter, has_key_true. by destruct k. }
    rewrite Hs in Hin. by apply elem_of_nil in Hin.
  - intros Hn. destruct (db_select _ t) as [|r l] eqn:E; [done|]. exfalso.
    assert (r ∈ db_select (has_key k.1 k.2) t) as Hin by (rewrite E; left).
    rewrite select_rows, elem_of_List_filter, has_key_true in Hin. destruct Hin as [Hr Hk].
    destruct (Hn r Hr). by destruct k.
Qed.

(** *** The script's loops *)

Section script.
Context (new_id : T catalog_row → string).

Definition upserted plane p (o : option catalog_entry) : catalog_entry :=
  match o with None => new_entry plane p | Some e => revive p e end.

Lemma upsert_catalog plane p t : NoDup (row_key <$> rows t) →
  NoDup (row_key <$> rows (cli_upsert new_id plane t p)) ∧
  ∀ k, catalog (cli_upsert new_id plane t p) !! k =
    if decide (k = scan_pair p) then Some (upserted plane p (catalog t !! k)) else catalog t !! k.
Proof.
  intros Hnd. unfold cli_upsert. pose proof (select_key t (scan_pair p)) as Hs. cbn [scan_pair fst snd] in Hs.
  destruct (db_select _ t) as [|r l].
  - assert (catalog t !! scan_pair p = None) as Hnone by by apply Hs.
    destruct (catalog_insert new_id plane p t Hnd Hnone) as [Hnd' Hcat]. split; [done|]. intros k. rewrite Hcat.
    case_decide as Hk; [|done]. subst. by rewrite Hnone.
  - destruct (catalog_update (has_key (sc_service p) (sc_permission p))
      (λ k _, bool_decide (k = scan_pair p)) (revive p) t Hnd) as [Hnd' Hcat].
    { intros r0 _. apply (has_key_decide (scan_pair p)). }
    split; [done|]. intros k. rewrite Hcat. case_decide as Hk.
    + subst. rewrite bool_decide_true by done. destruct (catalog t !! scan_pair p) as [e|] eqn:E; [done|].
      discriminate (proj2 Hs eq_refl).
    + rewrite bool_decide_false by done. by destruct (catalog t !! k).
Qed.
Lemma upserts_catalog plane scanned t : NoDup (scan_pair <$> scanned) → NoDup (row_key <$> rows t) →
  NoDup (row_key <$> rows (foldl (cli_upsert new_id plane) t scanned)) ∧
  ∀ k, catalog (foldl (cli_upsert new_id plane) t scanned) !! k =
    match scan_of scanned !! k with Some p => Some (upserted plane p (catalog t !! k)) | None => catalog t !! k end.
Proof.
  revert t. induction scanned as [|p scanned IH]; intros t; cbn [fmap list_fmap foldl].
  { intros _ Hnd. split; [done|]. intros k.
    by rewrite (proj2 (scan_of_None [] k)) by apply not_elem_of_nil. }
  intros [Hnot Hnds]%NoDup_cons Hnd. destruct (upsert_catalog plane p t Hnd) as [Hnd1 Hcat1].
  destruct (IH _ Hnds Hnd1) as [Hnd2 Hcat2]. split; [done|]. intros k. rewrite Hcat2.
  change (scan_of (p :: scanned)) with (<[scan_pair p := p]> (scan_of scanned)).
  destruct (decide (k = scan_pair p)) as [->|Hk].
  - rewrite lookup_insert_eq. rewrite (proj2 (scan_of_None scanned _) Hnot). rewrite Hcat1.
    by rewrite decide_True.
  - rewrite lookup_insert_ne by done. rewrite Hcat1. by rewrite decide_False.
Qed.

End script.

Lemma remove_catalog now reason t k0 : NoDup (row_key <$> rows t) →
  NoDup (row_key <$> rows (remove_row now reason t k0)) ∧
  ∀ k, catalog (remove_row now reason t k0) !! k =
    (λ e, if bool_decide (k = k0) && negb (e_is_manual e) then soft_delete now reason e else e) <$> catalog t !! k.
Proof.
  intros Hnd. apply (catalog_update _ (λ k e, bool_decide (k = k0) && negb (e_is_manual e))); [done|].
  intros r _. by rewrite has_key_decide.
Qed.
Lemma removes_catalog now reason ks t : NoDup (row_key <$> rows t) →
  NoDup (row_key <$> rows (foldl (remove_row now reason) t ks)) ∧
  ∀ k, catalog (foldl (remove_row now reason) t ks) !! k =
    (λ e, if bool_decide (k ∈ ks) && negb (e_is_manual e) then soft_delete now reason e else e) <$> catalog t !! k.
Proof.
  revert t. induction ks as [|k0 ks IH]; intros t Hnd; cbn [foldl].
  { split; [done|]. intros k. rewrite bool_decide_false by apply not_elem_of_nil. by destruct (catalog t !! k). }
  destruct (remove_catalog now reason t k0 Hnd) as [Hnd1 Hcat1]. destruct (IH _ Hnd1) as [Hnd2 Hcat2].
  split; [done|]. intros k. rewrite Hcat2, Hcat1. destruct (catalog t !! k) as [e|]; [|done]. cbn. f_equal.
  destruct (decide (k = k0)) as [->|Hk].
  - rewrite (bool_decide_true (k0 = k0)), (bool_decide_true (k0 ∈ k0 :: ks)) by (done || left).
    destruct (e_is_manual e) eqn:Hm; cbn; rewrite ?Hm; rewrite ?andb_false_r; [done|]. cbn. rewrite andb_true_r.
    by destruct (bool_decide (k0 ∈ ks)).
  - rewrite (bool_decide_false (k = k0)) by done. cbn.
    rewrite (bool_decide_ext (k ∈ ks) (k ∈ k0 :: ks)) by (rewrite elem_of_cons; tauto). done.
Qed.
End laws.

(** ** One plane *)

Section planes.
Context {T : Type → Type} `{DatabaseLaws T}.
Implicit Types (t : T catalog_row) (k : key) (p : IScannedPermission) (e : catalog_entry).

(** The row the diff of a plane finds under a key. *)
Definition in_diff plane t k : Prop := ∃ e, catalog t !! k = Some e ∧ in_plane plane e = true.

Section diffs.
Context (plane : permission_plane) (t : T catalog_row) (scanned : list IScannedPermission)
        (existingRows : list catalog_row).
Context (Hok : catalog_ok t) (Hscan : scan_ok plane scanned)
        (Hex : ∀ r, r ∈ existingRows ↔ r ∈ rows t ∧ in_plane plane (c_entry r) = true).

Lemma existing_well_formed r : r ∈ existingRows → well_formed (c_permission r).
Proof.
  intros [Hr Hp]%Hex. apply (co_names t Hok); [done|]. unfold in_plane in Hp.
  rewrite !andb_true_iff, !negb_true_iff in Hp. tauto.
Qed.
Lemma existing_key k : (∃ r, r ∈ existingRows ∧ row_key r = k) ↔ in_diff plane t k.
Proof.
  unfold in_diff. setoid_rewrite (catalog_lookup t k _ (co_keys t Hok)). setoid_rewrite Hex. naive_solver.
Qed.

Lemma existing_has p : p ∈ scanned →
  includes (List.map (λ r, scan_key (c_service r) (c_permission r)) existingRows)
    (scan_key (sc_service p) (sc_permission p)) = true ↔ in_diff plane t (scan_pair p).
Proof.
  intros Hp. rewrite includes_true, elem_of_List_map, <- existing_key. split.
  - intros (r & Hr & Hk). apply scan_key_inj in Hk as [Hs Hperm].
    + exists r. split; [done|]. unfold row_key, scan_pair. congruence.
    + apply (sound_well_formed plane), Hscan, Hp.
    + by apply existing_well_formed.
  - intros (r & Hr & [= Hs Hperm]). exists r. split; [done|]. congruence.
Qed.
Lemma elem_of_added p :
  p ∈ added (diff existingRows scanned) ↔ p ∈ scanned ∧ ¬ in_diff plane t (scan_pair p).
Proof.
  cbn. rewrite elem_of_List_filter, negb_true_iff, <- not_true_iff_false. split.
  - intros [Hp Hn]. by rewrite existing_has in Hn.
  - intros [Hp Hn]. by rewrite existing_has.
Qed.
Lemma elem_of_removed k :
  k ∈ removed (diff existingRows scanned) ↔ in_diff plane t k ∧ scan_of scanned !! k = None.
Proof.
  cbn. rewrite elem_of_List_map, <- existing_key, scan_of_None. split.
  - intros (r & [Hr Hn]%elem_of_List_filter & ->). split; [by exists r|].
    intros (p & Hk & Hp)%list_elem_of_fmap. apply negb_true_iff, includes_false in Hn. destruct Hn.
    apply elem_of_List_map. exists p. split; [done|]. injection Hk as -> ->. done.
  - intros [(r & Hr & <-) Hn]. exists r. split; [|done]. apply elem_of_List_filter. split; [done|].
    apply negb_true_iff, includes_false. intros (p & Hp & Hk)%elem_of_List_map. apply Hn.
    apply list_elem_of_fmap. exists p. split; [|done]. apply scan_key_inj in Hk as [Hs Hperm].
    + unfold row_key, scan_pair. congruence.
    + by apply existing_well_formed.
    + apply (sound_well_formed plane), Hscan, Hp.
Qed.
End diffs.

(** After the upserts of a plane and the removals of its diff. *)
Lemma pass_of_loops now plane reason scanned ks t t1 :
  NoDup (row_key <$> rows t1) →
  (∀ k, catalog t1 !! k = match scan_of scanned !! k with
    | Some p => Some (upserted plane p (catalog t !! k)) | None => catalog t !! k end) →
  (∀ k, k ∈ ks ↔ in_diff plane t k ∧ scan_of scanned !! k = None) →
  let t' := foldl (remove_row now reason) t1 ks in
  NoDup (row_key <$> rows t') ∧
  ∀ k, catalog t' !! k = plane_step now plane reason (scan_of scanned !! k) (catalog t !! k).
Proof.
  intros Hnd Hcat Hks t'. destruct (removes_catalog now reason ks t1 Hnd) as [Hnd' Hcat'].
  split; [done|]. intros k. unfold t'. rewrite Hcat', Hcat. specialize (Hks k).
  destruct (scan_of scanned !! k) as [p|].
  - rewrite (bool_decide_false (k ∈ ks)) by (rewrite Hks; naive_solver). cbn. by destruct (catalog t !! k).
  - unfold in_diff in Hks. destruct (catalog t !! k) as [e|]; [|done]. cbn. f_equal.
    destruct (in_plane plane e) eqn:Hp.
    + rewrite bool_decide_true by naive_solver. unfold in_plane in Hp. by rewrite !andb_true_iff in Hp; destruct Hp as [_ ->].
    + rewrite bool_decide_false; [done|]. intros [(e' & [= <-] & ?) _]%Hks. congruence.
Qed.

Lemma pass_ok now plane reason scanned t t' : catalog_ok t → scan_ok plane scanned →
  NoDup (row_key <$> rows t') →
  (∀ k, catalog t' !! k = plane_step now plane reason (scan_of scanned !! k) (catalog t !! k)) → catalog_ok t'.
Proof.
  intros Hok Hscan Hnd Hcat. split; [done|]. intros r Hr Hm.
  pose proof (catalog_of_row t' r Hnd Hr) as Hrow. rewrite Hcat in Hrow.
  destruct (scan_of scanned !! row_key r) as [p|] eqn:Ep.
  - apply scan_of_Some in Ep as [Hp [= _ <-]]; [|by apply (so_keys plane)].
    by apply (sound_well_formed plane), Hscan.
  - destruct (catalog t !! row_key r) as [e|] eqn:Ee; [|done].
    apply (catalog_lookup t) in Ee as (r0 & Hr0 & Hk & He); [|apply Hok].
    injection Hk as _ <-. apply (co_names t Hok r0 Hr0). rewrite He. cbn in Hrow. injection Hrow as Hrow.
    rewrite <- Hrow in Hm. by destruct (in_plane plane e).
Qed.

Section script.
Context (new_id : T catalog_row → string).

Lemma cli_plane now plane reason scanned t : catalog_ok t → scan_ok plane scanned →
  let dt := cli_syncPlane new_id now plane scanned reason t in
  catalog_ok dt.2 ∧
  (∀ k, catalog dt.2 !! k = plane_step now plane reason (scan_of scanned !! k) (catalog t !! k)) ∧
  (∀ p, p ∈ added dt.1 ↔ p ∈ scanned ∧ ¬ in_diff plane t (scan_pair p)) ∧
  (∀ k, k ∈ removed dt.1 ↔ in_diff plane t k ∧ scan_of scanned !! k = None).
Proof.
  intros Hok Hscan dt. unfold dt, cli_syncPlane. cbn [fst snd].
  assert (∀ r, r ∈ db_select (λ r, in_plane plane (c_entry r)) t ↔
    r ∈ rows t ∧ in_plane plane (c_entry r) = true) as Hex.
  { intros r. by rewrite select_rows, elem_of_List_filter. }
  destruct (upserts_catalog new_id plane scanned t (so_keys _ _ Hscan) (co_keys t Hok)) as [Hnd1 Hcat1].
  destruct (pass_of_loops now plane reason scanned
    (removed (diff (db_select (λ r, in_plane plane (c_entry r)) t) scanned)) t _ Hnd1 Hcat1) as [Hnd2 Hcat2].
  { intros k. by apply elem_of_removed. }
  split_and!.
  - by apply (pass_ok now plane reason scanned t).
  - done.
  - intros p. by apply elem_of_added.
  - intros k. by apply elem_of_removed.
Qed.

Lemma sync_catalog now apiScanned uiScanned host t
    (Hok : catalog_ok t) (Hapi : scan_ok api apiScanned) (Hui : scan_ok ui uiScanned) :
  let t' := (cli_main new_id now apiScanned uiScanned host t).2 in
  catalog_ok t' ∧
  ∀ k, catalog t' !! k = sync_steps now (scan_of apiScanned !! k) (scan_of uiScanned !! k) (catalog t !! k).
Proof.
  unfold cli_main. destruct (cli_syncPlane _ _ _ _ _ t) as [d1 t1] eqn:E1.
  destruct (cli_plane now api API_REMOVED apiScanned t Hok Hapi) as (Hok1 & Hcat1 & _). rewrite E1 in Hok1, Hcat1.
  cbn [snd] in *. destruct (cli_syncPlane _ _ _ _ _ t1) as [d2 t2] eqn:E2.
  destruct (cli_plane now ui UI_REMOVED uiScanned t1 Hok1 Hui) as (Hok2 & Hcat2 & _). rewrite E2 in Hok2, Hcat2.
  cbn [snd] in *. split; [done|]. intros k. by rewrite Hcat2, Hcat1.
Qed.
(** C15: A run of the script over a source tree is, key by key, the pass of the api
    plane with what the decorators declare and then that of the ui plane with
    what the views and manifests declare, as [pass] spells it out: a declared
    key ends up live even if its row is an admin's or of the other plane, and
    an undeclared one loses its row only in that row's own plane. *)
Theorem sync_refines now JSON_parse apps host t (Hok : catalog_ok t) :
  let t' := (cli_main new_id now (scanApiPermissions apps) (scanUiPermissions JSON_parse apps) host t).2 in
  catalog_ok t' ∧
  ∀ k, catalog t' !! k =
    sync_key now (scan_of (scanApiPermissions apps) !! k) (scan_of (scanUiPermissions JSON_parse apps) !! k)
      (catalog t !! k).
Proof.
  destruct (sync_catalog now (scanApiPermissions apps) (scanUiPermissions JSON_parse apps) host t Hok (scanApi_ok apps)
    (scanUi_ok JSON_parse apps)) as [Hok' Hcat].
  split; [done|]. intros k. rewrite <- sync_steps_key. apply Hcat.
Qed.
End script.
End planes.

(** ** Runs of the script *)

Section runs.
Context {T : Type → Type} `{DatabaseLaws T}.
Context (new_id : T catalog_row → string).
Implicit Types (t : T catalog_row) (k : key) (p : IScannedPermission) (e : catalog_entry).
Context (apiScanned uiScanned : list IScannedPermission)
        (Hapi : scan_ok api apiScanned) (Hui : scan_ok ui uiScanned).
Abbreviation api_scan := (scan_of apiScanned).
Abbreviation ui_scan := (scan_of uiScanned).
Abbreviation run now host t := (cli_main new_id now apiScanned uiScanned host t).

(** A permission is scanned in one plane, that of its row. *)
Definition planes_agree t : Prop :=
  ∀ k, (api_scan !! k = None ∨ ui_scan !! k = None) ∧
    ∀ e, catalog t !! k = Some e →
      (is_Some (api_scan !! k) → e_plane e = api) ∧ (is_Some (ui_scan !! k) → e_plane e = ui).

(** Removed by one of the two passes. *)
Definition removed_entry now e : catalog_entry :=
  soft_delete now (match e_plane e with api => API_REMOVED | ui => UI_REMOVED end) e.
Definition live_entry e : bool := negb (e_is_deleted e) && negb (e_is_manual e).
Definition scanned_key k : Prop := is_Some (api_scan !! k) ∨ is_Some (ui_scan !! k).

Lemma in_plane_true plane e : in_plane plane e = true ↔ live_entry e = true ∧ e_plane e = plane.
Proof.
  unfold in_plane, live_entry. rewrite !andb_true_iff, bool_decide_eq_true. tauto.
Qed.
Lemma in_plane_other plane e : e_plane e ≠ plane → in_plane plane e = false.
Proof. intros Hne. apply not_true_iff_false. by intros [_ ?]%in_plane_true. Qed.
Lemma in_plane_own e : in_plane (e_plane e) e = live_entry e.
Proof. unfold in_plane, live_entry. rewrite bool_decide_true by done. by rewrite andb_true_r. Qed.

(** What a run leaves under a key, when the planes agree. *)
Lemma sync_steps_agree now t k : planes_agree t →
  sync_steps now (api_scan !! k) (ui_scan !! k) (catalog t !! k) =
    match api_scan !! k, ui_scan !! k, catalog t !! k with
    | Some p, _, None => Some (new_entry api p)
    | _, Some p, None => Some (new_entry ui p)
    | Some p, _, Some e | _, Some p, Some e => Some (revive p e)
    | None, None, Some e => Some (if live_entry e then removed_entry now e else e)
    | None, None, None => None
    end.
Proof.
  intros Hagree. destruct (Hagree k) as [Hone He]. unfold sync_steps.
  destruct (api_scan !! k) as [p|], (ui_scan !! k) as [p'|]; [naive_solver|..].
  - destruct (catalog t !! k) as [e|]; cbn [plane_step]; [|done]. destruct (He e eq_refl) as [Hpl _].
    rewrite in_plane_other; [done|]. cbn. by rewrite Hpl by eauto.
  - destruct (catalog t !! k) as [e|]; cbn [plane_step]; [|done]. destruct (He e eq_refl) as [_ Hpl].
    rewrite in_plane_other; [done|]. by rewrite Hpl by eauto.
  - destruct (catalog t !! k) as [e|]; cbn [plane_step]; [|done]. rewrite <- in_plane_own. unfold removed_entry.
    destruct (e_plane e) eqn:Hpl.
    + destruct (in_plane api e); [done|]. rewrite in_plane_other; [done|]. by rewrite Hpl.
    + rewrite (in_plane_other api) by by rewrite Hpl. by destruct (in_plane ui e).
Qed.

Lemma planes_agree_run now host t : catalog_ok t → planes_agree t → planes_agree (run now host t).2.
Proof.
  intros Hok Hagree k. destruct (Hagree k) as [Hone He]. split; [done|]. intros e.
  destruct (sync_catalog new_id now apiScanned uiScanned host t Hok Hapi Hui) as [_ ->].
  rewrite sync_steps_agree by done.
  destruct (api_scan !! k) as [p|], (ui_scan !! k) as [p'|]; [naive_solver|..];
    destruct (catalog t !! k) as [e0|]; intros [= <-]; try case_match; cbn; naive_solver.
Qed.

(** A catalog that is what the code declares. *)
Definition settled t : Prop := ∀ k,
  match api_scan !! k, ui_scan !! k with
  | Some p, _ | None, Some p => ∃ e, catalog t !! k = Some e ∧ revive p e = e
  | None, None => ∀ e, catalog t !! k = Some e → live_entry e = false
  end.
Lemma revive_new plane p : revive p (new_entry plane p) = new_entry plane p.
Proof. unfold revive, new_entry, name_th, name_en. cbn. by destruct (sc_name p). Qed.
Lemma revive_twice p e : revive p (revive p e) = revive p e.
Proof. unfold revive. cbn. by destruct (sc_name p). Qed.

Lemma run_settles now host t : catalog_ok t → planes_agree t → settled (run now host t).2.
Proof.
  intros Hok Hagree k. destruct (Hagree k) as [Hone _].
  destruct (sync_catalog new_id now apiScanned uiScanned host t Hok Hapi Hui) as [_ ->].
  rewrite sync_steps_agree by done.
  destruct (api_scan !! k) as [p|], (ui_scan !! k) as [p'|]; [naive_solver|..];
    destruct (catalog t !! k) as [e|]; try by (eexists; split; [done|]; apply revive_new || apply revive_twice).
  - intros e' [= <-]. by destruct (live_entry e) eqn:E.
  - done.
Qed.

Lemma settled_same now host t k : catalog_ok t → planes_agree t → settled t →
  catalog (run now host t).2 !! k = catalog t !! k.
Proof.
  intros Hok Hagree Hset. specialize (Hset k). destruct (Hagree k) as [Hone _].
  destruct (sync_catalog new_id now apiScanned uiScanned host t Hok Hapi Hui) as [_ ->].
  rewrite sync_steps_agree by done.
  destruct (api_scan !! k) as [p|], (ui_scan !! k) as [p'|]; [naive_solver|..];
    [by destruct Hset as (e & -> & ->)..|].
  destruct (catalog t !! k) as [e|]; [|done]. by rewrite (Hset e eq_refl).
Qed.

(** The log of a run: what it added and removed in each plane. *)
Lemma log_of_run now host t : catalog_ok t →
  let l := (run now host t).1 in
  ∃ t1, (∀ k, catalog t1 !! k = plane_step now api API_REMOVED (api_scan !! k) (catalog t !! k)) ∧
  (∀ s perm pl, (s, perm, pl) ∈ log_added l ↔
    ∃ p, sc_plane p = pl ∧ scan_pair p = (s, perm) ∧
      ((p ∈ apiScanned ∧ ¬ in_diff api t (s, perm)) ∨ (p ∈ uiScanned ∧ ¬ in_diff ui t1 (s, perm)))) ∧
  (∀ k, k ∈ log_removed l ↔
    (in_diff api t k ∧ api_scan !! k = None) ∨ (in_diff ui t1 k ∧ ui_scan !! k = None)).
Proof.
  intros Hok. cbv zeta. unfold cli_main.
  destruct (cli_syncPlane _ _ _ _ _ t) as [d1 t1] eqn:E1.
  destruct (cli_plane new_id now api API_REMOVED apiScanned t Hok Hapi) as (Hok1 & Hcat1 & Ha1 & Hr1).
  rewrite E1 in *. cbn [fst snd] in *. destruct (cli_syncPlane _ _ _ _ _ t1) as [d2 t2] eqn:E2.
  destruct (cli_plane new_id now ui UI_REMOVED uiScanned t1 Hok1 Hui) as (_ & _ & Ha2 & Hr2).
  rewrite E2 in *. cbn [fst snd] in *. exists t1. split_and!; [done| |].
  - intros s perm pl. unfold sync_log. cbn [log_added]. rewrite elem_of_List_map. setoid_rewrite elem_of_app.
    setoid_rewrite Ha1. setoid_rewrite Ha2. unfold scan_pair. split.
    + intros (p & Hp & [= -> -> ->]). exists p. naive_solver.
    + intros (p & <- & [= <- <-] & Hp). exists p. naive_solver.
  - intros k. unfold sync_log. cbn [log_removed]. by rewrite elem_of_app, Hr1, Hr2.
Qed.

(** The diffs of a settled catalog. *)
Section settled_diffs.
Context (t : T catalog_row) (Hagree : planes_agree t) (Hset : settled t).

Lemma settled_scanned k e : scanned_key k → catalog t !! k = Some e → e_is_deleted e = false.
Proof.
  intros Hk He. specialize (Hset k). unfold scanned_key in Hk.
  destruct (api_scan !! k), (ui_scan !! k); try (destruct Hset as (e' & He' & Hr); rewrite He in He';
    injection He' as <-; by rewrite <- Hr). by destruct Hk as [[]|[]].
Qed.
Lemma settled_row k : scanned_key k → ∃ e, catalog t !! k = Some e ∧ e_is_deleted e = false.
Proof.
  intros Hk. assert (∃ e, catalog t !! k = Some e) as [e He]; [|exists e; eauto using settled_scanned].
  specialize (Hset k). unfold scanned_key in Hk.
  destruct (api_scan !! k), (ui_scan !! k); try (destruct Hset as (e & ? & _); eauto). by destruct Hk as [[]|[]].
Qed.
Lemma settled_unscanned k e : ¬ scanned_key k → catalog t !! k = Some e → live_entry e = false.
Proof.
  intros Hk. specialize (Hset k). unfold scanned_key in Hk.
  destruct (api_scan !! k), (ui_scan !! k); try (by destruct Hk; eauto). apply Hset.
Qed.
Lemma settled_not_removed plane k : in_diff plane t k →
  (match plane with api => api_scan | ui => ui_scan end) !! k = None → False.
Proof.
  intros (e & He & [Hl Hpl]%in_plane_true) Hnone. destruct (Hagree k) as [_ Hp]. destruct (Hp e He) as [Ha Hu].
  enough (¬ scanned_key k) as Hk by by rewrite (settled_unscanned k e Hk He) in Hl.
  intros Hk. unfold scanned_key in Hk.
  destruct plane, (api_scan !! k), (ui_scan !! k); try naive_solver.
  - rewrite Hu in Hpl by eauto. done.
  - rewrite Ha in Hpl by eauto. done.
Qed.
Lemma settled_added plane k :
  is_Some ((match plane with api => api_scan | ui => ui_scan end) !! k) → ¬ in_diff plane t k →
  ∃ e, catalog t !! k = Some e ∧ e_is_manual e = true.
Proof.
  intros Hk Hn. assert (scanned_key k) as Hs by (destruct plane; [by left|by right]).
  destruct (settled_row k Hs) as (e & He & Hdel). exists e. split; [done|]. destruct (e_is_manual e) eqn:Hm; [done|]. destruct Hn. exists e. split; [done|].
  apply in_plane_true. unfold live_entry. rewrite Hdel, Hm. split; [done|].
  destruct (Hagree k) as [_ Hp]. destruct (Hp e He) as [Ha Hu]. destruct plane; auto.
Qed.
Lemma settled_pass now t1 k :
  (∀ k, catalog t1 !! k = plane_step now api API_REMOVED (api_scan !! k) (catalog t !! k)) →
  catalog t1 !! k = catalog t !! k.
Proof.
  intros Ht1. rewrite Ht1. specialize (Hset k). destruct (Hagree k) as [Hone He].
  destruct (api_scan !! k) as [p|]; [by destruct Hset as (e & -> & Hr); cbn; rewrite Hr|].
  destruct (catalog t !! k) as [e|]; cbn; [|done].
  destruct (in_plane api e) eqn:Hp; [|done]. apply in_plane_true in Hp as [Hl Hpl].
  destruct (ui_scan !! k) as [p|].
  - destruct (He e eq_refl) as [_ Hui']. by rewrite Hui' in Hpl by eauto.
  - by rewrite (Hset e eq_refl) in Hl.
Qed.
End settled_diffs.

(** When every permission is scanned in the plane of its row, a run makes the
    catalog what the code declares: scanned permissions are live, synced rows no
    longer found are soft-deleted, manual rows that are not scanned and deleted
    rows are left alone.  A second run changes nothing, removes nothing and
    reports as added only scanned permissions whose row is manual. *)
Theorem sync_idempotent now now' host host' t (Hok : catalog_ok t) (Hagree : planes_agree t) :
  let t' := (run now host t).2 in
  let '(l, t'') := run now' host' t' in
  (∀ k, scanned_key k → ∃ e, catalog t' !! k = Some e ∧ e_is_deleted e = false) ∧
  (∀ k, ¬ scanned_key k → catalog t' !! k =
    (λ e, if live_entry e then removed_entry now e else e) <$> catalog t !! k) ∧
  (∀ k, catalog t'' !! k = catalog t' !! k) ∧
  log_removed l = [] ∧
  (∀ s perm pl, (s, perm, pl) ∈ log_added l →
    ∃ e, catalog t' !! (s, perm) = Some e ∧ e_is_manual e = true).
Proof.
  destruct (sync_catalog new_id now apiScanned uiScanned host t Hok Hapi Hui) as [Hok' Hcat].
  pose proof (planes_agree_run now host t Hok Hagree) as Hagree'.
  pose proof (run_settles now host t Hok Hagree) as Hset.
  set (t' := (run now host t).2) in *. cbv zeta.
  pose proof (λ k, settled_same now' host' t' k Hok' Hagree' Hset) as Hsame.
  destruct (log_of_run now' host' t' Hok') as (t1 & Ht1 & Hadd & Hrem).
  destruct (run now' host' t') as [l t''] eqn:Erun. cbn [fst snd] in *.
  assert (∀ plane k, in_diff plane t1 k ↔ in_diff plane t' k) as Hd.
  { intros plane k. unfold in_diff. by rewrite (settled_pass t' Hagree' Hset now' t1 k Ht1). }
  split_and!; [| |done| |].
  - intros k Hk. by apply settled_row.
  - intros k Hk. rewrite Hcat, sync_steps_agree by done. unfold scanned_key in Hk.
    destruct (api_scan !! k), (ui_scan !! k); try by (destruct Hk; eauto). by destruct (catalog t !! k).
  - apply elem_of_nil_inv. intros k [[Hin Hn]|[Hin Hn]]%Hrem.
    + by apply (settled_not_removed t' Hagree' Hset api k).
    + apply Hd in Hin. by apply (settled_not_removed t' Hagree' Hset ui k).
  - intros s perm pl (p & _ & Hk & [[Hp Hn]|[Hp Hn]])%Hadd.
    + apply (settled_added t' Hagree' Hset api); [|done]. exists p.
      apply scan_of_Some; [|done]. by apply (so_keys api).
    + rewrite Hd in Hn. apply (settled_added t' Hagree' Hset ui); [|done]. exists p.
      apply scan_of_Some; [|done]. by apply (so_keys ui).
Qed.

(** *** A permission that moves between the planes *)

Lemma moved_key now p e : e_plane e = ui → e_is_manual e = false →
  ∃ e', sync_steps now (Some p) None (Some e) = Some e' ∧ e_is_deleted e' = true ∧
    e_plane e' = ui ∧ e_is_manual e' = false.
Proof.
  intros Hpl Hm. unfold sync_steps. cbn [plane_step].
  assert (in_plane ui (revive p e) = true) as ->.
  { apply in_plane_true. unfold live_entry. cbn. by rewrite Hm. }
  by eexists.
Qed.

(** A synced ui permission whose name the code now declares in the api plane
    only: every run revives it in the first pass and soft-deletes it in the
    second, so it is deleted after any number of runs although the code
    declares it. *)
Theorem moved_permission_deleted runs t k p e (Hruns : runs ≠ []) (Hok : catalog_ok t)
    (He : catalog t !! k = Some e) (Hplane : e_plane e = ui) (Hmanual : e_is_manual e = false)
    (Hmoved : api_scan !! k = Some p) (Hgone : ui_scan !! k = None) :
  ∃ e', catalog (foldl (λ t '(now, host), (run now host t).2) t runs) !! k = Some e' ∧ e_is_deleted e' = true.
Proof.
  destruct runs as [|r runs]; [done|]. clear Hruns.
  assert (∀ t e r, catalog_ok t → catalog t !! k = Some e → e_plane e = ui → e_is_manual e = false →
    let t' := (run r.1 r.2 t).2 in catalog_ok t' ∧
    ∃ e', catalog t' !! k = Some e' ∧ e_is_deleted e' = true ∧ e_plane e' = ui ∧ e_is_manual e' = false) as Hstep.
  { intros t0 e0 r0 Hok0 He0 Hp0 Hm0.
    destruct (sync_catalog new_id r0.1 apiScanned uiScanned r0.2 t0 Hok0 Hapi Hui) as [? Hc]. split; [done|].
    setoid_rewrite Hc. rewrite Hmoved, Hgone, He0. by apply moved_key. }
  cbn [foldl]. destruct (Hstep t e r Hok He Hplane Hmanual) as (Hok1 & e1 & He1 & Hd1 & Hp1 & Hm1).
  destruct r as [now host]. cbn [fst snd] in *. clear He Hplane Hmanual Hok.
  revert e1 He1 Hd1 Hp1 Hm1 Hok1. generalize (run now host t).2 as t1.
  induction runs as [|r runs IH]; intros t1 e1 He1 Hd1 Hp1 Hm1 Hok1; [eauto|]. cbn [foldl].
  destruct (Hstep t1 e1 r Hok1 He1 Hp1 Hm1) as (Hok2 & e2 & He2 & Hd2 & Hp2 & Hm2).
  destruct r as [now' host']. cbn [fst snd] in *. by apply (IH _ e2).
Qed.
End runs.

(** ** The service, against the script

    [findOne] does not see soft-deleted rows, the UNIQUE constraint does: a row
    the script would revive makes the service insert a second one, which the
    database refuses. *)

Section service.
Context {T : Type → Type} `{DatabaseLaws T}.
Context (new_id : T catalog_row → string) (Hnew : ∀ t, new_id t ∉ pk <$> rows t).
Context (unique_violation : string → string → driver_error).
Implicit Types (t : T catalog_row) (k : key) (p : IScannedPermission) (e : catalog_entry).

Definition hidden (o : option catalog_entry) : Prop := ∃ e, o = Some e ∧ is_Some (e_deleted_at e).
(** Soft deletion sets both columns. *)
Definition coherent t : Prop :=
  ∀ k e, catalog t !! k = Some e → e_is_deleted e = true ↔ is_Some (e_deleted_at e).
(** What the service relies on of the table. *)
Record table_ok t : Prop := {
  to_catalog : catalog_ok t;
  to_ids : NoDup (pk <$> rows t);
  to_coherent : coherent t;
}.

Lemma ids_update (q : catalog_row → bool) f t :
  NoDup (pk <$> rows t) → NoDup (pk <$> rows (db_update q (on_entry f) t).1).
Proof.
  intros Hnd. rewrite update_rows. change (List.map ?g ?l) with (g <$> l). rewrite <- list_fmap_compose.
  rewrite (list_fmap_ext _ pk); [done|]. intros i r _. cbn. by destruct (q r).
Qed.
Lemma ids_removes now reason ks t : NoDup (pk <$> rows t) → NoDup (pk <$> rows (foldl (remove_row now reason) t ks)).
Proof. revert t. induction ks as [|k ks IH]; intros t Hnd; [done|]. by apply IH, ids_update. Qed.

Lemma find_key t p : NoDup (row_key <$> rows t) →
  match repo_findOne (has_key (sc_service p) (sc_permission p)) t with
  | Some r => r ∈ rows t ∧ row_key r = scan_pair p ∧ e_deleted_at (c_entry r) = None
  | None => catalog t !! scan_pair p = None ∨ hidden (catalog t !! scan_pair p)
  end.
Proof.
  intros Hnd. destruct (repo_findOne _ t) as [r|] eqn:E.
  - apply repo_findOne_Some in E as (Hr & Hk & Hd). apply has_key_true in Hk. done.
  - destruct (catalog t !! scan_pair p) as [e|] eqn:Ee; [right|by left]. exists e. split; [done|].
    apply catalog_lookup in Ee as (r & Hr & Hk & <-); [|done].
    assert (has_key (sc_service p) (sc_permission p) r = true) as Hh by by apply has_key_true.
    pose proof (repo_findOne_None _ _ E r Hr Hh) as Hd. cbn in Hd.
    destruct (e_deleted_at (c_entry r)); [eauto|done].
Qed.

Lemma app_upsert_spec plane t p : NoDup (row_key <$> rows t) → NoDup (pk <$> rows t) →
  (hidden (catalog t !! scan_pair p) ∧
     app_upsert new_id unique_violation plane t p
       = Throw (QueryFailedError (unique_violation (sc_service p) (sc_permission p)))) ∨
  (¬ hidden (catalog t !! scan_pair p) ∧ ∃ t', app_upsert new_id unique_violation plane t p = Ok t' ∧
     NoDup (row_key <$> rows t') ∧ NoDup (pk <$> rows t') ∧
     ∀ k, catalog t' !! k =
       if decide (k = scan_pair p) then Some (upserted plane p (catalog t !! k)) else catalog t !! k).
Proof.
  intros Hnd Hids. unfold app_upsert. pose proof (find_key t p Hnd) as Hfind.
  destruct (repo_findOne _ t) as [r|].
  - destruct Hfind as (Hr & Hk & Hd). right. pose proof (catalog_of_row t r Hnd Hr) as Hrow. rewrite Hk in Hrow.
    split. { rewrite Hrow. intros (e & [= <-] & [? He]). congruence. }
    destruct (catalog_update (has_pk (c_id r)) (λ k _, bool_decide (k = scan_pair p)) (revive p) t Hnd)
      as [Hnd' Hcat].
    { intros r' Hr'. destruct (has_pk (c_id r) r') eqn:E; symmetry.
      - apply has_pk_true in E. apply bool_decide_eq_true. rewrite <- Hk. f_equal.
        by apply (NoDup_fmap_elem_inj pk (rows t)).
      - apply bool_decide_eq_false. intros Hk'. apply not_true_iff_false in E. destruct E.
        apply has_pk_true. cbn. f_equal. apply (NoDup_fmap_elem_inj row_key (rows t)); congruence. }
    eexists. split_and!; [done|done|by apply ids_update|]. intros k. rewrite Hcat. case_decide as Hkk.
    + subst. rewrite bool_decide_true, Hrow by done. done.
    + rewrite bool_decide_false by done. by destruct (catalog t !! k).
  - pose proof (select_key t (scan_pair p)) as Hs. cbn [scan_pair fst snd] in Hs.
    destruct Hfind as [Hnone|Hhid].
    + right. rewrite (proj2 Hs Hnone). split; [rewrite Hnone; by intros (? & ? & _)|]. eexists. split; [done|].
      destruct (catalog_insert new_id plane p t Hnd Hnone) as [Hnd' Hcat]. split_and!; [done| |].
      * unfold insert_row. rewrite insert_rows. cbn. constructor; [apply Hnew|done].
      * intros k. rewrite Hcat. case_decide; [|done]. subst. by rewrite Hnone.
    + left. split; [done|]. destruct (db_select _ t) as [|? ?]; [|done].
      destruct Hhid as (e & He & _). rewrite (proj1 Hs eq_refl) in He. done.
Qed.

Definition blocked t (scanned : list IScannedPermission) : Prop :=
  ∃ p, p ∈ scanned ∧ hidden (catalog t !! scan_pair p).

Lemma app_upserts_spec plane scanned t : NoDup (scan_pair <$> scanned) →
  NoDup (row_key <$> rows t) → NoDup (pk <$> rows t) →
  (blocked t scanned ∧ ∃ s perm, res_fold (app_upsert new_id unique_violation plane) t scanned
     = Throw (QueryFailedError (unique_violation s perm))) ∨
  (¬ blocked t scanned ∧ ∃ t', res_fold (app_upsert new_id unique_violation plane) t scanned = Ok t' ∧
     NoDup (row_key <$> rows t') ∧ NoDup (pk <$> rows t') ∧
     ∀ k, catalog t' !! k = match scan_of scanned !! k with
       | Some p => Some (upserted plane p (catalog t !! k)) | None => catalog t !! k end).
Proof.
  revert t. induction scanned as [|p scanned IH]; intros t; cbn [fmap list_fmap res_fold].
  { intros _ Hnd Hids. right. split; [by intros (p & ?%elem_of_nil & _)|]. exists t. split_and!; [done..|].
    intros k. by rewrite (proj2 (scan_of_None [] k)) by apply not_elem_of_nil. }
  intros [Hnot Hnds]%NoDup_cons Hnd Hids.
  destruct (app_upsert_spec plane t p Hnd Hids) as [[Hh ->]|(Hh & t1 & -> & Hnd1 & Hids1 & Hcat1)]; cbn [res_bind].
  { left. split; [exists p; split; [left|done]|eauto]. }
  assert (∀ k, k ∈ scan_pair <$> scanned → catalog t1 !! k = catalog t !! k) as Hsame.
  { intros k Hk. rewrite Hcat1. rewrite decide_False; [done|]. by intros ->. }
  assert (blocked t1 scanned ↔ blocked t (p :: scanned)) as Hb.
  { unfold blocked. split.
    - intros (q & Hq & Hhq). exists q. rewrite <- Hsame by by apply list_elem_of_fmap_2. split; [by right|done].
    - intros (q & [->|Hq]%elem_of_cons & Hhq); [done|]. exists q.
      rewrite Hsame by by apply list_elem_of_fmap_2. done. }
  destruct (IH t1 Hnds Hnd1 Hids1) as [[Hbl Hthrow]|(Hbl & t2 & -> & Hnd2 & Hids2 & Hcat2)].
  { left. by rewrite <- Hb. }
  right. rewrite <- Hb. split; [done|]. exists t2. split_and!; [done..|]. intros k. rewrite Hcat2.
  change (scan_of (p :: scanned)) with (<[scan_pair p := p]> (scan_of scanned)).
  destruct (decide (k = scan_pair p)) as [->|Hk].
  - rewrite lookup_insert_eq, (proj2 (scan_of_None scanned _) Hnot), Hcat1. by rewrite decide_True.
  - rewrite lookup_insert_ne by done. rewrite Hcat1. by rewrite decide_False.
Qed.

Lemma pass_coherent now plane reason scan o e :
  (∀ e', o = Some e' → e_is_deleted e' = true ↔ is_Some (e_deleted_at e')) →
  plane_step now plane reason scan o = Some e → e_is_deleted e = true ↔ is_Some (e_deleted_at e).
Proof.
  intros Ho. destruct scan as [p|], o as [e0|]; cbn; intros [= <-]; cbn.
  - split; [done|by intros []].
  - split; [done|by intros []].
  - destruct (in_plane plane e0); [by cbn; eauto|by apply Ho].
Qed.

Lemma app_plane now plane reason scanned t : table_ok t → scan_ok plane scanned →
  (blocked t scanned ∧ ∃ s perm, app_syncPlane new_id unique_violation now plane scanned reason t
     = Throw (QueryFailedError (unique_violation s perm))) ∨
  (¬ blocked t scanned ∧ ∃ d t', app_syncPlane new_id unique_violation now plane scanned reason t = Ok (d, t') ∧
     table_ok t' ∧ ∀ k, catalog t' !! k = plane_step now plane reason (scan_of scanned !! k) (catalog t !! k)).
Proof.
  intros [Hok Hids Hcoh] Hscan. unfold app_syncPlane.
  destruct (app_upserts_spec plane scanned t (so_keys _ _ Hscan) (co_keys t Hok) Hids)
    as [[Hb (s & perm & ->)]|(Hb & t1 & -> & Hnd1 & Hids1 & Hcat1)]; cbn [res_bind]; [left; eauto|right].
  split; [done|].
  assert (∀ r, r ∈ repo_find (λ r, in_plane plane (c_entry r)) t ↔
    r ∈ rows t ∧ in_plane plane (c_entry r) = true) as Hex.
  { intros r. rewrite elem_of_repo_find. split; [naive_solver|]. intros [Hr Hp]. split_and!; [done..|].
    pose proof (catalog_of_row t r (co_keys t Hok) Hr) as Hrow. destruct (Hcoh _ _ Hrow) as [_ Hd]. cbn.
    apply in_plane_true in Hp as [Hl _]. unfold live_entry in Hl. apply andb_true_iff in Hl as [Hl _].
    destruct (e_deleted_at (c_entry r)); [|done]. by rewrite Hd in Hl by eauto. }
  set (d := diff (repo_find (λ r, in_plane plane (c_entry r)) t) scanned).
  destruct (pass_of_loops now plane reason scanned (removed d) t t1 Hnd1 Hcat1) as [Hnd2 Hcat2].
  { intros k. by apply elem_of_removed. }
  do 2 eexists. split; [done|]. split; [|done]. split.
  - by apply (pass_ok now plane reason scanned t).
  - by apply ids_removes.
  - intros k e. rewrite Hcat2. apply pass_coherent. intros e'. apply Hcoh.
Qed.
(** The scans revive a soft-deleted row, in the first pass or in the second. *)
Definition revives now (apiScanned uiScanned : list IScannedPermission) t : Prop :=
  ∃ k, (is_Some (scan_of apiScanned !! k) ∧ hidden (catalog t !! k)) ∨
    (is_Some (scan_of uiScanned !! k) ∧
     hidden (plane_step now api API_REMOVED (scan_of apiScanned !! k) (catalog t !! k))).

Lemma blocked_iff plane scanned t (f : key → option catalog_entry) : scan_ok plane scanned →
  (∀ k, catalog t !! k = f k) → blocked t scanned ↔ ∃ k, is_Some (scan_of scanned !! k) ∧ hidden (f k).
Proof.
  intros Hscan Hf. unfold blocked. split.
  - intros (p & Hp & Hh). exists (scan_pair p). rewrite <- Hf. split; [|done]. exists p.
    by apply scan_of_Some; [apply (so_keys plane)|].
  - intros (k & [p Hp] & Hh). apply scan_of_Some in Hp as [Hp <-]; [|by apply (so_keys plane)].
    exists p. by rewrite Hf.
Qed.

(** The service does what the script does unless a scanned permission has a
    soft-deleted row; then the whole run fails with the database's unique
    violation and is rolled back. *)
Theorem twin_agrees_unless_reviving now apiScanned uiScanned by_ host t (Hok : table_ok t)
    (Hapi : scan_ok api apiScanned) (Hui : scan_ok ui uiScanned) :
  match runSync new_id unique_violation now apiScanned uiScanned by_ t with
  | Ok (_, t') => ¬ revives now apiScanned uiScanned t ∧
      ∀ k, catalog t' !! k = catalog (cli_main new_id now apiScanned uiScanned host t).2 !! k
  | Throw e => revives now apiScanned uiScanned t ∧
      ∃ service permission, e = QueryFailedError (unique_violation service permission)
  end.
Proof.
  destruct (sync_catalog new_id now apiScanned uiScanned host t (to_catalog t Hok) Hapi Hui) as [_ Hcli].
  assert (revives now apiScanned uiScanned t ↔
    (∃ k, is_Some (scan_of apiScanned !! k) ∧ hidden (catalog t !! k)) ∨
    (∃ k, is_Some (scan_of uiScanned !! k) ∧
      hidden (plane_step now api API_REMOVED (scan_of apiScanned !! k) (catalog t !! k)))) as Hrev.
  { unfold revives. split; [intros (k & [?|?]); eauto|intros [(k & ?)|(k & ?)]; eauto]. }
  unfold runSync.
  destruct (app_plane now api API_REMOVED apiScanned t Hok Hapi)
    as [[Hb (s & perm & ->)]|(Hb & d1 & t1 & -> & Hok1 & Hcat1)]; cbn [res_bind].
  { split; [|eauto]. apply Hrev. left. by apply (blocked_iff api apiScanned t (λ k, catalog t !! k)). }
  destruct (app_plane now ui UI_REMOVED uiScanned t1 Hok1 Hui)
    as [[Hb2 (s & perm & ->)]|(Hb2 & d2 & t2 & -> & Hok2 & Hcat2)]; cbn [res_bind].
  { split; [|eauto]. apply Hrev. right.
    by apply (blocked_iff ui uiScanned t1 _ Hui Hcat1). }
  split.
  - intros [Hr|Hr]%Hrev.
    + destruct Hb. by apply (blocked_iff api apiScanned t (λ k, catalog t !! k)).
    + destruct Hb2. by apply (blocked_iff ui uiScanned t1 _ Hui Hcat1).
  - intros k. by rewrite Hcat2, Hcat1, Hcli.
Qed.
End service.

(** ** Witnesses *)

Module Sample.
(** An id no row has: longer than all of them. *)
Definition fresh_id (t : list catalog_row) : string := foldr (λ r s, c_id r +:+ s) "x" t.
Lemma fresh_id_fresh t : fresh_id t ∉ pk <$> rows t.
Proof.
  intros (r & Heq & Hr)%list_elem_of_fmap. cbn in Heq.
  assert (String.length (c_id r) < String.length (fresh_id t))%nat as Hlt; [|rewrite Heq in Hlt; lia].
  clear Heq. cbn in Hr. induction t as [|r' t IH]; [by apply elem_of_nil in Hr|].
  unfold fresh_id. cbn [foldr]. fold (fresh_id t). rewrite append_length.
  assert (0 < String.length (fresh_id t))%nat as Hpos.
  { clear. induction t as [|r t IH]; [cbn; lia|]. unfold fresh_id. cbn [foldr]. fold (fresh_id t).
    rewrite append_length. lia. }
  apply elem_of_cons in Hr as [->|Hr]; [lia|]. specialize (IH Hr). lia.
Qed.

Definition scan_api : list IScannedPermission :=
  [Scanned "iam" "role:create" "role" "create" (Some (DisplayName "sang" "Create roles")) api].
Definition scan_ui : list IScannedPermission :=
  [Scanned "iam" "page:view_roles" "page_roles" "view_roles" None ui].
Lemma scan_api_ok : scan_ok api scan_api.
Proof.
  split; [apply NoDup_singleton|]. intros p ->%list_elem_of_singleton. split; [by exists "role"|done].
Qed.
Lemma scan_ui_ok : scan_ok ui scan_ui.
Proof.
  split; [apply NoDup_singleton|]. intros p ->%list_elem_of_singleton. split; [by exists "page_roles"|done].
Qed.

Definition synced (id perm : string) (pl : permission_plane) (deleted : option Z) : catalog_row :=
  CatalogRow id "iam" perm (Entry "role" "create" pl "n" "n" false
    (match deleted with Some _ => true | None => false end) deleted None).
(** A permission the code still declares and one it has dropped. *)
Definition table : list catalog_row := [synced "1" "role:create" api None; synced "2" "role:drop" api None].
Lemma two_ok r1 r2 : row_key r1 ≠ row_key r2 → well_formed (c_permission r1) → well_formed (c_permission r2) →
  catalog_ok [r1; r2].
Proof.
  intros Hk H1 H2. split.
  - apply NoDup_cons. split; [by intros ?%list_elem_of_singleton|apply NoDup_singleton].
  - intros r [->|[->|?%elem_of_nil]%elem_of_cons]%elem_of_cons _; done.
Qed.
Lemma table_catalog : catalog_ok table.
Proof. apply two_ok; [discriminate|by eexists..]. Qed.
End Sample.
Import Sample.

(** A service whose sources declare [role:create] and whose view uses a page. *)
Definition apps : list (string * fs) :=
  [("iam", Dir [("src", Dir [("roles.ts", File (print_file sample_declarations " }"))]);
                ("views", Dir [("roles.ejs", File "<a data-permission='page:view_roles'>")])])].
Lemma sync_refines_witness :
  let t' := (cli_main fresh_id 100 (scanApiPermissions apps) (scanUiPermissions (λ _, None) apps) "host" table).2 in
  (e_name_en <$> catalog t' !! ("iam", "role:create")) = Some "Create roles" ∧
  (e_resource <$> catalog t' !! ("iam", "page:view_roles")) = Some "page_roles" ∧
  catalog t' !! ("iam", "role:drop") =
    sync_key 100 None None (Some (Entry "role" "create" api "n" "n" false false None None)).
Proof.
  destruct (sync_refines fresh_id 100 (λ _, None) apps "host" table table_catalog) as [_ Hcat].
  split; [exact (f_equal (fmap e_name_en) (Hcat ("iam", "role:create")))|].
  split; [exact (f_equal (fmap e_resource) (Hcat ("iam", "page:view_roles")))|exact (Hcat ("iam", "role:drop"))].
Defined.

Lemma scan_api_key k : is_Some (scan_of scan_api !! k) → k = ("iam", "role:create").
Proof.
  intros [p Hp]. apply scan_of_Some in Hp as [->%list_elem_of_singleton <-]; [done|apply NoDup_singleton].
Qed.
Lemma scan_ui_key k : is_Some (scan_of scan_ui !! k) → k = ("iam", "page:view_roles").
Proof.
  intros [p Hp]. apply scan_of_Some in Hp as [->%list_elem_of_singleton <-]; [done|apply NoDup_singleton].
Qed.
Lemma sample_agrees : planes_agree scan_api scan_ui table.
Proof.
  intros k. split.
  - destruct (scan_of scan_api !! k) eqn:Ea; [right|by left]. destruct (scan_of scan_ui !! k) eqn:Eu; [|done].
    pose proof (scan_api_key k ltac:(rewrite Ea; eauto)) as ->.
    discriminate (scan_ui_key _ ltac:(rewrite Eu; eauto)).
  - intros e He. split.
    + intros ->%scan_api_key. vm_compute in He. by injection He as <-.
    + intros ->%scan_ui_key. vm_compute in He. discriminate He.
Qed.
Lemma sync_idempotent_witness :
  let t' := (cli_main fresh_id 100 scan_api scan_ui "host" table).2 in
  let '(l, t'') := cli_main fresh_id 200 scan_api scan_ui "host" t' in
  log_removed l = [] ∧ ∀ k, catalog t'' !! k = catalog t' !! k.
Proof.
  pose proof (sync_idempotent fresh_id scan_api scan_ui scan_api_ok scan_ui_ok 100 200 "host" "host" table
    table_catalog sample_agrees) as H.
  cbv zeta in *. destruct (cli_main fresh_id 200 _ _ _ _) as [l t'']. destruct H as (_ & _ & Hsame & Hrem & _).
  split; [exact Hrem|exact Hsame].
Defined.

(** [role:create] was a page's button before. *)
Definition moved_table : list catalog_row := [synced "1" "role:create" ui None; synced "2" "role:drop" api None].
Lemma moved_permission_deleted_witness :
  ∃ e', catalog (foldl (λ t '(now, host), (cli_main fresh_id now scan_api scan_ui host t).2) moved_table
    [(100%Z, "host"); (200%Z, "host")]) !! ("iam", "role:create") = Some e' ∧ e_is_deleted e' = true.
Proof.
  apply (moved_permission_deleted fresh_id scan_api scan_ui scan_api_ok scan_ui_ok
    [(100%Z, "host"); (200%Z, "host")] moved_table ("iam", "role:create")
    (Scanned "iam" "role:create" "role" "create" (Some (DisplayName "sang" "Create roles")) api)
    (Entry "role" "create" ui "n" "n" false false None None)); try reflexivity.
  - discriminate.
  - apply two_ok; [discriminate|eexists; reflexivity..].
Defined.

(** The code declares [role:create] again after it had been dropped. *)
Definition revived_table : list catalog_row :=
  [synced "1" "role:create" api (Some 5%Z); synced "2" "role:drop" api None].
Lemma revived_table_ok : table_ok revived_table.
Proof.
  split.
  - apply two_ok; [discriminate|by eexists..].
  - apply NoDup_cons. split; [by intros ?%list_elem_of_singleton|apply NoDup_singleton].
  - intros k e. rewrite catalog_lookup
      by (apply NoDup_cons; split; [by intros ?%list_elem_of_singleton|apply NoDup_singleton]).
    intros (r & [->|[->|?%elem_of_nil]%elem_of_cons]%elem_of_cons & _ & <-); cbn; try done.
Qed.
Lemma twin_agrees_unless_reviving_witness :
  revives 100 scan_api scan_ui revived_table ∧
  ∃ err, runSync fresh_id (λ _ _, DriverError (Some "23505") None None None None None None) 100 scan_api scan_ui
    "admin" revived_table = Throw (QueryFailedError err).
Proof.
  pose proof (twin_agrees_unless_reviving fresh_id fresh_id_fresh
    (λ _ _, DriverError (Some "23505") None None None None None None) 100 scan_api scan_ui "admin" "host"
    revived_table revived_table_ok scan_api_ok scan_ui_ok) as H.
  destruct (runSync _ _ _ _ _ _ _) as [[l t']|e] eqn:E; [vm_compute in E; discriminate E|].
  destruct H as [Hr (s & p & ->)]. split; [exact Hr|]. eexists. reflexivity.
Defined.
