(* ===== verification/RpcErrors.v ===== *)
(** * Errors across the HTTP and RPC boundaries

    The filters that turn a thrown value into a response:
    [AllExceptionsFilter] (all-exceptions-filter.util.ts) for HTTP and
    [RpcExceptionsFilter] (rpc-exceptions-filter.util.ts) for the microservice
    transport, both in src/libs/common/src/utils/http-exception; the
    translation of a rejected RPC back into an HTTP exception
    (rpc-error-handler.util.ts, and [handleRpcErrorPayload] and
    [handleRpcError] of microservice-client.service.ts); and
    [flattenValidationErrors] (validation.helper.ts).

    A value of type [unknown] is a [jsv].  The constructors of NestJS's HTTP
    exceptions are the class [Nest]; [now] is the timestamp of a response.
    Logging is left out. *)

From S2P Require Import Prelude JsString JsValues.
From Stdlib Require Import SpecFloat.
#[local] Open Scope string_scope.

(** ** The language *)

(** [a ?? b] *)
Definition nullish (v : jsv) : bool := match v with JUndefined | JNull => true | _ => false end.
Definition coalesce (a b : jsv) : jsv := if nullish a then b else a.
(** The own properties of a value that is not [null]; arrays and primitives
    have none of those the code asks for. *)
Definition members (v : jsv) : list (string * jsv) := match v with JObj o => o | _ => [] end.
(** [v?.k] *)
Definition chain (v : jsv) (k : string) : jsv := property k (members v).
(** [k in v] *)
Definition has (k : string) (o : list (string * jsv)) : bool :=
  match obj_get k o with Some _ => true | None => false end.
(** [typeof v === 'object' && v !== null] *)
Definition is_object (v : jsv) : bool := match v with JObj _ | JArr _ => true | _ => false end.
Definition is_array (v : jsv) : option (list jsv) := match v with JArr l => Some l | _ => None end.
(** [a >= b] on a number and a literal *)
Definition js_ge (v : jsv) (n : string) : bool := SFleb (Number n) (js_Number v).
Definition js_lt (v : jsv) (n : string) : bool := num_lt (js_Number v) (Number n).
(** [v === n] *)
Definition is_number (n : string) (v : jsv) : bool :=
  match v with JNum r => num_eq (Number r) (Number n) | _ => false end.
Definition js_Z (z : Z) : jsv := JNum (string_of_Z z).

(** [JSON.parse(JSON.stringify(v))] on values that are not [undefined]:
    properties that are [undefined] are dropped, other unrepresentable values
    become [null]. *)
Definition finite_repr (r : string) : bool :=
  negb (existsb (String.eqb r) ["NaN"; "Infinity"; "-Infinity"]).
Fixpoint wire (v : jsv) : jsv :=
  match v with
  | JUndefined => JNull
  | JNum r => if finite_repr r then v else JNull
  | JArr l => JArr (List.map wire l)
  | JObj o =>
      JObj (flat_map (λ kv, match kv.2 with JUndefined => [] | _ => [(kv.1, wire kv.2)] end) o)
  | _ => v
  end.

(** ** Exceptions *)

(** An [HttpException]: [getStatus()], [getResponse()] and [message]. *)
Record http_exception := Http {
  getStatus : jsv;
  getResponse : jsv;
  http_message : string;
}.

(** [built_in s b] is [new BadRequestException(b)], [new NotFoundException(b)],
    ..., the class NestJS provides for the status [s]; [http b s] is
    [new HttpException(b, s)]. *)
Class Nest := {
  built_in : Z → jsv → http_exception;
  http : jsv → jsv → http_exception;
}.
(** The documented behaviour.  A text becomes the [message] of the response
    object of a built-in exception and the whole response of a plain one; an
    object is the response, and its [message] the message of the exception. *)
Definition plain_response (t : string) (v : jsv) : Prop :=
  ∃ o, v = JObj o ∧ property "message" o = JStr t ∧
    Forall (λ k, property k o = JUndefined) ["code"; "title"; "detail"; "status"].
Class NestLaws `{Nest} := {
  built_in_status s b : getStatus (built_in s b) = js_Z s;
  built_in_text s t : t ≠ "" → plain_response t (getResponse (built_in s (JStr t)));
  built_in_object s o : getResponse (built_in s (JObj o)) = JObj o;
  built_in_message s t : t ≠ "" → http_message (built_in s (JStr t)) = t;
  built_in_object_message s o t : property "message" o = JStr t → http_message (built_in s (JObj o)) = t;
  http_status b v : getStatus (http b v) = v;
  http_response b v : getResponse (http b v) = b;
  http_text_message t v : http_message (http (JStr t) v) = t;
  http_object_message o t v : property "message" o = JStr t → http_message (http (JObj o) v) = t;
}.

Record IErrorObject := ErrorObject { eo_field : jsv; eo_message : jsv }.
Record IValidationError := Invalid { iv_field : string; iv_messages : list string }.

(** What a handler can throw. *)
Inductive exception :=
  | EInvalidParameter (validationErrors : list IErrorObject)
  | EValidation (validationErrors : list IValidationError)
  | ERpc (error : jsv) (message : string)
  | EHttp (e : http_exception)
  | EQueryFailed (message : string) (detail driver_message : jsv)
  | EError (message : string)
  | EOther (v : jsv).

(** *** [flattenValidationErrors] *)

(** The tree class-validator reports. *)
Inductive ValidationError :=
  | VError (property : string) (constraints : option (list (string * string)))
      (children : option (list ValidationError)).

Fixpoint flatten_error (parentPath : string) (error : ValidationError) : list IValidationError :=
  match error with
  | VError prop constraints children =>
      let currentPath := if String.eqb parentPath "" then prop else parentPath +:+ "." +:+ prop in
      match constraints with Some c => [Invalid currentPath c.*2] | None => [] end ++
      match children with Some l => flat_map (flatten_error currentPath) l | None => [] end
  end%list.
Definition flattenValidationErrors (errors : list ValidationError) (parentPath : string) :
    list IValidationError :=
  flat_map (flatten_error parentPath) errors.

(** ** The filters *)

(** The envelope both filters send. *)
Definition envelope (now : string) (code message : jsv) (errors : list jsv) : jsv :=
  JObj [("status", JObj [("code", code); ("message", message)]); ("errors", JArr errors);
        ("meta", JObj [("timestamp", JStr now)])].
Definition error_object (code title detail : jsv) (source : list (string * jsv)) : jsv :=
  JObj ([("code", code); ("title", title); ("detail", detail)] ++
        match source with [] => [] | _ => [("source", JObj source)] end)%list.

Definition HTTP_ERROR_META : list (string * (string * string)) :=
  [("400", ("BAD_REQUEST", "Invalid Request")); ("401", ("UNAUTHORIZED", "Unauthorized"));
   ("403", ("FORBIDDEN", "Access Denied")); ("404", ("NOT_FOUND", "Not Found"));
   ("409", ("CONFLICT", "Duplicate Record"));
   ("422", ("UNPROCESSABLE_ENTITY", "Unprocessable Request"));
   ("429", ("TOO_MANY_REQUESTS", "Too Many Requests"));
   ("500", ("INTERNAL_SERVER_ERROR", "Server Error"));
   ("503", ("SERVICE_UNAVAILABLE", "Service Unavailable"))].

Definition DEFAULT_DETAIL : jsv := JStr "An error occurred".

(** The messages of a failed validation, one error object each. *)
Definition validation_objects (code : jsv) (errors : list IValidationError) : list jsv :=
  flat_map (λ error, List.map (λ message, error_object code (JStr "Invalid Input") (JStr message)
    [("pointer", JStr ("/data/attributes/" +:+ iv_field error))]) (iv_messages error)) errors.

Definition error_meta (status : jsv) : option (string * string) := obj_get (js_String status) HTTP_ERROR_META.

(** The status code and the body of [AllExceptionsFilter.catch]. *)
Definition http_error (now : string) (e : http_exception) : jsv * jsv :=
  let status := getStatus e in
  let meta := error_meta status in
  let code := match meta with Some m => JStr m.1 | None => status end in
  let title := match meta with Some m => JStr m.2 | None => JStr "An error occurred" end in
  let r := members (getResponse e) in
  let detail := match getResponse e with
                | JStr s => JStr s
                | _ => coalesce (property "detail" r) (coalesce (property "message" r) DEFAULT_DETAIL)
                end in
  (status,
   envelope now (coalesce (property "status" r) status) (JStr (http_message e))
     [error_object (coalesce (property "code" r) code) (coalesce (property "title" r) title) detail []]).

Definition AllExceptionsFilter (now : string) (e : exception) : jsv * jsv :=
  match e with
  | EInvalidParameter errors =>
      (js_Z 400, envelope now (js_Z 400002) (JStr "Invalid Parameters")
         (List.map (λ error, error_object (JStr "INVALID_PARAMETER_FORMAT") (JStr "Invalid Parameter Format")
            (eo_message error) [("parameter", eo_field error)]) errors))
  | EValidation errors =>
      (js_Z 400, envelope now (js_Z 400001) (JStr "Validation Failed")
         (validation_objects (JStr "VALIDATION_ERROR") errors))
  | EHttp h => http_error now h
  | EQueryFailed message detail driver_message =>
      (js_Z 422, envelope now (js_Z 422) (JStr "Database Query Error")
         [error_object (JStr "QUERY_FAILED") (JStr "Database Operation Failed")
            (coalesce detail (coalesce driver_message (JStr message))) []])
  | ERpc _ _ | EError _ | EOther _ =>
      (js_Z 500, envelope now (js_Z 500) (JStr "Internal Server Error")
         [error_object (JStr "INTERNAL_SERVER_ERROR") (JStr "An unexpected error occurred")
            (JStr "Please try again later or contact support.") []])
  end.

(** *** [RpcExceptionsFilter] *)

(** [isRpcErrorPayload] of the filter and of rpc-error-handler.util.ts. *)
Definition isRpcErrorPayload (v : jsv) : bool :=
  let o := members v in
  is_object (property "status" o) &&
  has "code" (members (property "status" o)) && has "message" (members (property "status" o)) &&
  match is_array (property "errors" o) with Some _ => true | None => false end &&
  match property "meta" o with JObj _ | JArr _ | JNull => true | _ => false end.

Definition rpc_http_error (now : string) (e : http_exception) : jsv :=
  let status := getStatus e in
  let detail := match getResponse e with
                | JStr s => JStr s
                | r => coalesce (property "message" (members r)) DEFAULT_DETAIL
                end in
  envelope now status (JStr (http_message e)) [error_object status (JStr (http_message e)) detail []].

Definition rpc_unknown_error (now message : string) : jsv :=
  envelope now (js_Z 500) (JStr "Internal Server Error")
    [error_object (js_Z 500) (JStr "An unexpected error occurred") (JStr message) []].

Definition formatException (now : string) (e : exception) : jsv :=
  match e with
  | EInvalidParameter errors =>
      envelope now (js_Z 400002) (JStr "Invalid Parameters")
        (List.map (λ error, error_object (js_Z 400002) (JStr "Invalid Parameter Format")
           (coalesce (eo_message error) (JStr "Invalid parameter value"))
           [("parameter", coalesce (eo_field error) (JStr "unknown"))]) errors)
  | EValidation errors =>
      envelope now (js_Z 400001) (JStr "Validation Failed") (validation_objects (js_Z 400001) errors)
  | ERpc error message =>
      if isRpcErrorPayload error then error
      else if is_object error then
        let o := members error in
        let statusCode := coalesce (property "status_code" o) (coalesce (property "statusCode" o) (js_Z 500)) in
        let message := coalesce (property "message" o) (JStr "RPC Error") in
        envelope now statusCode message
          [error_object statusCode message (coalesce (property "error" o) message) []]
      else match error with
           | JStr s => envelope now (js_Z 500) (JStr s)
                         [error_object (js_Z 500) (JStr "RPC Error") (JStr s) []]
           | _ => rpc_unknown_error now message
           end
  | EHttp h => rpc_http_error now h
  | EQueryFailed message _ _ | EError message => rpc_unknown_error now message
  | EOther _ => rpc_unknown_error now "Unknown error"
  end.

(** ** A rejected call *)

(** What the caller of an RPC receives: the timeout of the caller, a value sent
    by the other side, an [Error] of the transport, or an HTTP exception. *)
Inductive rejection :=
  | RTimeout (message : string)
  | RValue (v : jsv)
  | RError (message : string)
  | RHttp (e : http_exception).

Section rejections.
Context `{Nest}.

(** *** microservice-client.service.ts *)

Definition client_isRpcErrorPayload (v : jsv) : bool :=
  let o := members v in
  is_object (property "status" o) && has "code" (members (property "status" o)) &&
  match is_array (property "errors" o) with Some _ => true | None => false end.

Definition isRpcErrorResponse (v : jsv) : bool :=
  let o := members v in
  let statusCode := coalesce (property "status_code" o) (property "statusCode" o) in
  (has "status_code" o || has "statusCode" o) && has "message" o &&
  match statusCode with JNum _ => js_ge statusCode "400" | _ => false end.

(** The switch on the status of both handlers; [conflict] is the case 409,
    which the legacy one does not have. *)
Definition exception_for (conflict : bool) (statusCode body : jsv) : http_exception :=
  if is_number "400" statusCode then built_in 400 body
  else if is_number "401" statusCode then built_in 401 body
  else if is_number "403" statusCode then built_in 403 body
  else if is_number "404" statusCode then built_in 404 body
  else if conflict && is_number "409" statusCode then built_in 409 body
  else if js_ge statusCode "400" && js_lt statusCode "500" then http body statusCode
  else built_in 500 body.

Definition handleRpcErrorPayload (error : jsv) : http_exception :=
  let status := chain error "status" in
  let statusCode := chain status "code" in
  let message := chain status "message" in
  let firstError := match is_array (chain error "errors") with Some (e :: _) => e | _ => JUndefined end in
  let detailMessage := coalesce (chain firstError "detail") message in
  let exceptionBody :=
    match chain firstError "code" with
    | JNum _ | JStr _ => JObj [("code", chain firstError "code"); ("message", detailMessage)]
    | _ => detailMessage
    end in
  exception_for true statusCode exceptionBody.

Definition handleRpcErrorResponse (error : jsv) : http_exception :=
  let statusCode := coalesce (chain error "status_code") (js_Z 500) in
  let message := coalesce (chain error "message") (JStr "Internal server error") in
  exception_for false statusCode message.

(** *** rpc-error-handler.util.ts *)

Definition extractRpcPayload (v : jsv) : option jsv :=
  if isRpcErrorPayload v then Some v
  else if has "error" (members v) && has "message" (members v) && isRpcErrorPayload (chain v "error")
  then Some (chain v "error")
  else None.

Definition httpExceptionFor (code detail message : jsv) : http_exception :=
  if is_number "400" code then built_in 400 detail
  else if is_number "401" code then built_in 401 detail
  else if is_number "403" code then built_in 403 detail
  else if is_number "404" code then built_in 404 detail
  else if is_number "409" code then built_in 409 detail
  else if is_number "422" code then built_in 422 detail
  else http (JObj [("message", message); ("detail", detail)])
         (if js_ge code "400" && js_lt code "500" then code else js_Z 500).

Definition unavailable (message : string) : http_exception :=
  built_in 503 (JStr ("Upstream service unavailable: " +:+ message)).
Definition handleRpcError (error : rejection) : http_exception :=
  match error with
  | RValue v =>
      match extractRpcPayload v with
      | Some payload =>
          let code := chain (chain payload "status") "code" in
          let message := chain (chain payload "status") "message" in
          let first := match is_array (chain payload "errors") with Some (e :: _) => e | _ => JUndefined end in
          httpExceptionFor code (coalesce (chain first "detail") message) message
      | None => unavailable (js_String v)
      end
  | RTimeout message | RError message => unavailable message
  | RHttp e => unavailable (http_message e)
  end.
End rejections.

(** ** Properties *)

(** *** Status codes *)

(** The tests of the handlers on the statuses of errors, computed. *)
Definition status_tests (s : Z) : bool :=
  finite_repr (string_of_Z s) && js_ge (js_Z s) "400" &&
  Bool.eqb (js_lt (js_Z s) "500") (s <? 500)%Z &&
  forallb (λ p : string * Z, Bool.eqb (is_number p.1 (js_Z s)) (s =? p.2)%Z)
    [("400", 400); ("401", 401); ("403", 403); ("404", 404); ("409", 409); ("422", 422)]%Z.
Lemma status_tests_ok s : (400 ≤ s < 600)%Z → status_tests s = true.
Proof.
  intros Hs. assert (forallb status_tests (seqZ 400 200) = true) as Hall by (vm_compute; reflexivity).
  rewrite forallb_forall in Hall. apply Hall, list_elem_of_In, elem_of_seqZ. lia.
Qed.

(** The status a remote error of status [s] is rethrown with. *)
Definition remote_status (s : Z) : Z := if (s <? 500)%Z then s else 500.
Lemma remote_status_range s : (400 ≤ s < 600)%Z → (400 ≤ remote_status s < 600)%Z.
Proof. unfold remote_status. destruct (Z.ltb_spec s 500); lia. Qed.
Lemma remote_status_idem s : remote_status (remote_status s) = remote_status s.
Proof. unfold remote_status. by destruct (s <? 500)%Z eqn:E; rewrite ?E. Qed.

Section laws.
Context `{NestLaws}.
Implicit Types (s : Z) (o : list (string * jsv)) (t now : string) (e : exception) (h : http_exception).

(** What both handlers make of a status and a body with a message. *)
Record rethrown s o t h : Prop := {
  rt_status : getStatus h = js_Z (remote_status s);
  rt_response : getResponse h = JObj o;
  rt_message : http_message h = t;
}.
Lemma built_in_rethrown s n o t : remote_status s = n → property "message" o = JStr t →
  rethrown s o t (built_in n (JObj o)).
Proof.
  intros <- Hm. split; [apply built_in_status|apply built_in_object|by apply built_in_object_message].
Qed.
Lemma http_rethrown s o t : remote_status s = s → property "message" o = JStr t →
  rethrown s o t (http (JObj o) (js_Z s)).
Proof.
  intros Hs Hm. split; [by rewrite http_status, Hs|apply http_response|by apply http_object_message].
Qed.
Lemma exception_for_spec c s o t : (400 ≤ s < 600)%Z → property "message" o = JStr t →
  rethrown s o t (exception_for c (js_Z s) (JObj o)).
Proof.
  intros Hs Hm. pose proof (status_tests_ok s Hs) as Ht. unfold status_tests in Ht. cbn [forallb fst snd] in Ht.
  rewrite !andb_true_iff, !Bool.eqb_true_iff in Ht.
  destruct Ht as (((_ & Hge) & Hlt) & H400 & H401 & H403 & H404 & H409 & _).
  unfold exception_for. rewrite Hge, Hlt, H400, H401, H403, H404, H409. clear - Hs Hm H0.
  destruct (Z.eqb_spec s 400) as [->|]; [by apply built_in_rethrown|].
  destruct (Z.eqb_spec s 401) as [->|]; [by apply built_in_rethrown|].
  destruct (Z.eqb_spec s 403) as [->|]; [by apply built_in_rethrown|].
  destruct (Z.eqb_spec s 404) as [->|]; [by apply built_in_rethrown|].
  destruct (c && (s =? 409)%Z) eqn:E.
  - apply andb_true_iff in E as [_ ->%Z.eqb_eq]. by apply built_in_rethrown.
  - destruct (s <? 500)%Z eqn:E'; cbn [andb];
      [apply http_rethrown|apply built_in_rethrown]; unfold remote_status; by rewrite ?E'.
Qed.

Lemma finite_status s : (400 ≤ s < 600)%Z → finite_repr (string_of_Z s) = true.
Proof.
  intros Hs. pose proof (status_tests_ok s Hs) as Ht. unfold status_tests in Ht.
  rewrite !andb_true_iff in Ht. by destruct Ht as (((Hf & _) & _) & _).
Qed.

(** A payload as it arrives: one error object with a number and texts. *)
Lemma wire_payload now s m t d : (400 ≤ s < 600)%Z →
  wire (envelope now (js_Z s) (JStr m) [error_object (js_Z s) (JStr t) (JStr d) []])
  = envelope now (js_Z s) (JStr m) [error_object (js_Z s) (JStr t) (JStr d) []].
Proof. intros Hs. cbn -[finite_repr string_of_Z]. by rewrite finite_status. Qed.

(** ... and what the client throws for it. *)
Lemma client_payload now s m t d : (400 ≤ s < 600)%Z →
  let v := envelope now (js_Z s) (JStr m) [error_object (js_Z s) (JStr t) (JStr d) []] in
  client_isRpcErrorPayload v = true ∧
  rethrown s [("code", js_Z s); ("message", JStr d)] d (handleRpcErrorPayload v).
Proof. intros Hs v. split; [done|]. by apply exception_for_spec. Qed.

(** *** The detail of an exception *)

(** What the RPC filter sends as the detail of an HTTP exception. *)
Definition detail_of h : jsv :=
  match getResponse h with
  | JStr t => JStr t
  | r => coalesce (property "message" (members r)) DEFAULT_DETAIL
  end.
Lemma rethrown_detail s o t h : rethrown s o t h → property "message" o = JStr t → detail_of h = JStr t.
Proof. intros [_ Hr _] Hm. unfold detail_of. rewrite Hr. cbn [members]. by rewrite Hm. Qed.

(** The exceptions the services throw carry their text as the detail. *)
Lemma detail_text s t : t ≠ "" → detail_of (built_in s (JStr t)) = JStr t.
Proof.
  intros Ht. destruct (built_in_text s t Ht) as (o & Ho & Hm & _). unfold detail_of. rewrite Ho. cbn [members].
  by rewrite Hm.
Qed.
End laws.
