(* ===== verification/MicroserviceClient.v ===== *)
(** * Calls between services

    [MicroserviceClientService]
    (src/libs/common/src/services/microservice-client.service.ts): the context
    attached to a call, the cache of responses in Redis, [sendWithContext] and
    [emitWithContext], and what becomes of an exception that crosses services.

    The client proxy, the tracing library, SHA-256 and the JSON text are
    arguments; what a call comes back with is a value of [answer], so that a
    timeout is one of the answers.  A command that Redis refuses is a flag of
    the call, since the code catches it.  Logging is left out, except for the
    copy of the payload it is given. *)

From S2P Require Import Prelude JsString JsValues SessionStore RpcErrors.
From stdpp Require Import sorting.
#[local] Open Scope string_scope.

Definition DEFAULT_RPC_TIMEOUT_MS : Z := 15000.

Record MicroserviceCacheOptions := CacheOptions {
  enabled : bool;
  cache_ttl : option Z;
  keyPrefix : option string;
}.

(** ** The call context *)

Definition asString (v : jsv) : jsv := match v with JStr s => JStr s | _ => JUndefined end.

(** [createCallContext]; [request] has the properties of the injected request,
    [span_id] is the fresh random id and [otel] the carrier of the tracer. *)
Definition createCallContext (request : list (string * jsv)) (span_id : string) (otel : jsv) : jsv :=
  let userSession := chain (property "user" request) "user_session" in
  let headers := coalesce (property "headers" request) (JObj []) in
  let inboundTrace := chain (property "_context" request) "trace" in
  let NA := JStr "N/A" in
  let correlationId :=
    coalesce (asString (chain headers "x-correlation-id")) (coalesce (chain inboundTrace "correlation_id") NA) in
  let traceId := coalesce (asString (chain headers "x-trace-id")) (coalesce (chain inboundTrace "trace_id") NA) in
  let parentSpanId := coalesce (asString (chain headers "x-span-id")) (chain inboundTrace "span_id") in
  let xClientIp := coalesce (chain headers "x-client-ip") NA in
  let xClientUserAgent := coalesce (chain headers "x-client-user-agent") NA in
  JObj [("user", JObj [("id", asString (chain userSession "id"));
                       ("roles", match chain userSession "roles" with JArr l => JArr l | _ => JUndefined end);
                       ("ip_address", asString xClientIp); ("user_agent", asString xClientUserAgent)]);
        ("trace", JObj [("correlation_id", correlationId); ("trace_id", traceId);
                        ("parent_span_id", parentSpanId); ("span_id", JStr span_id)]);
        ("otel", otel)].

Definition buildMicroservicePayload (payload ctx : jsv) : jsv := JObj [("payload", payload); ("_context", ctx)].

(** The request object of a handler that receives the message. *)
Definition received (data : jsv) : list (string * jsv) := members (wire data).

(** The copy of the payload given to the logger. *)
Definition sanitizePayloadForLog (payload : jsv) : jsv :=
  match payload with
  | JObj o =>
      match property "file" o with
      | JObj f => if has "buffer" f
                  then JObj (obj_set "file" (JObj (obj_set "buffer" (JStr "<Buffer omitted>") f)) o)
                  else payload
      | _ => payload
      end
  | _ => payload
  end.

(** ** Cache keys *)

Definition sorted_keys (o : list (string * jsv)) : list string := merge_sort String.le (obj_keys o).

(** Keys sorted, [undefined] properties removed. *)
Fixpoint normalizePayload (payload : jsv) : jsv :=
  match payload with
  | JNull | JUndefined => JNull
  | JArr l => JArr (List.map normalizePayload l)
  | JObj o =>
      let values := List.map (λ kv, (kv.1, match kv.2 with
                                          | JUndefined => None
                                          | _ => Some (normalizePayload kv.2)
                                          end)) o in
      JObj (omap (λ key, value ← (obj_get key values ≫= id); Some (key, value)) (sorted_keys o))
  | v => v
  end.

(** [JSON.stringify] and [JSON.parse] to and from texts of a type [V]. *)
Class JsonText (V : Type) := { json : jsv → V; json_parse : V → option jsv }.
Class JsonTextLaws (V : Type) `{JsonText V} := { json_parse_json v : v ≠ JUndefined → json_parse (json v) = Some (wire v) }.

Section client.
Context {V : Type} `{JsonText V} (sha256_hex : V → string).

Definition generateCacheKey (cmd : string) (payload : jsv) (prefix : option string) : string :=
  let payloadHash := String.substring 0 24 (sha256_hex (json (normalizePayload payload))) in
  let prefix := match prefix with Some p => p | None => replace_char "." ":" cmd end in
  "microservice:" +:+ prefix +:+ ":" +:+ payloadHash.

(** ** Calls *)

(** What [lastValueFrom] settles with: the last value, completion without one,
    or a rejection. *)
Inductive answer := Emits (v : jsv) | Completes | Rejects (r : rejection).
Inductive outcome := Returns (v : jsv) | Throws (e : http_exception).
(** What is done to the client proxy. *)
Inductive client_action := Send (cmd : string) (data : jsv) | Emit (cmd : string) (data : jsv) | Close.

Context `{Nest}.

Definition fallback (defaultValue : jsv) : jsv := coalesce defaultValue JNull.

(** The [catch] block of [sendWithContext]. *)
Definition on_rejection (defaultValue : jsv) (error : rejection) : outcome * list client_action :=
  match error with
  | RTimeout _ => (Returns (fallback defaultValue), [Close])
  | RValue v =>
      if client_isRpcErrorPayload v then (Throws (handleRpcErrorPayload v), [])
      else if isRpcErrorResponse v then (Throws (handleRpcErrorResponse v), [])
      else (Returns (fallback defaultValue), [])
  | RHttp e => (Throws e, [])
  | RError _ => (Returns (fallback defaultValue), [])
  end.

Context {S : Type} `{Redis S V}.
Implicit Types (s : S).

(** Step 2: a failing command and a text that is no JSON count as a miss. *)
Definition read_cache (get_fails : bool) (cacheKey : string) s : option jsv :=
  if get_fails then None else get cacheKey s ≫= json_parse.
(** Step 7; Redis refuses an expiry that is not positive. *)
Definition write_cache (set_fails : bool) (cacheKey : string) (ttl : Z) (result : jsv) s : S :=
  if set_fails || (ttl <=? 0)%Z || nullish result then s else setex cacheKey ttl (json result) s.

(** What surrounds one call: the request, the ids of the tracer and whether
    Redis fails. *)
Record call_site := CallSite {
  request : list (string * jsv);
  span_id : string;
  otel : jsv;
  get_fails : bool;
  set_fails : bool;
}.

Definition sendWithContext (site : call_site) (cmd : string) (payload defaultValue : jsv)
    (cacheOptions : option MicroserviceCacheOptions) (reply : answer) s : outcome * list client_action * S :=
  let ctx := createCallContext (request site) (span_id site) (otel site) in
  let cacheOptions := match cacheOptions with Some o => if enabled o then Some o else None | None => None end in
  let cacheKey o := generateCacheKey cmd payload (keyPrefix o) in
  match cacheOptions ≫= (λ o, read_cache (get_fails site) (cacheKey o) s) with
  | Some cachedResult => (Returns cachedResult, [], s)
  | None =>
      let sent := Send cmd (buildMicroservicePayload payload ctx) in
      let settle result :=
        (Returns result, [sent],
         match cacheOptions with
         | Some o => write_cache (set_fails site) (cacheKey o) (default 300%Z (cache_ttl o)) result s
         | None => s
         end) in
      match reply with
      | Emits v => settle v
      | Completes => settle defaultValue
      | Rejects r => let '(out, acts) := on_rejection defaultValue r in (out, sent :: acts, s)
      end
  end.

(** Delivery errors are caught, so the reply does not matter. *)
Definition emitWithContext (site : call_site) (cmd : string) (payload : jsv) (reply : answer) : list client_action :=
  let ctx := createCallContext (request site) (span_id site) (otel site) in
  [Emit cmd (buildMicroservicePayload payload ctx)].
End client.

(** ** Cache keys do not depend on how a payload is written *)

(** Two payloads that differ in the order of properties, in properties that are
    [undefined], or in [null] for [undefined] outside objects.  Property names
    of an object are distinct. *)
Definition defined_field (o : list (string * jsv)) (k : string) : option jsv :=
  match obj_get k o with Some JUndefined | None => None | Some v => Some v end.
Inductive payload_eq : jsv → jsv → Prop :=
  | peq_nullish v w : nullish v = true → nullish w = true → payload_eq v w
  | peq_bool b : payload_eq (JBool b) (JBool b)
  | peq_num r : payload_eq (JNum r) (JNum r)
  | peq_str t : payload_eq (JStr t) (JStr t)
  | peq_arr l l' : Forall2 payload_eq l l' → payload_eq (JArr l) (JArr l')
  | peq_obj o o' : NoDup (obj_keys o) → NoDup (obj_keys o') →
      (∀ k, option_Forall2 payload_eq (defined_field o k) (defined_field o' k)) → payload_eq (JObj o) (JObj o').

Section sorted.
Local Abbreviation entry := (string * jsv)%type.
Implicit Types (o l : list entry) (k : string).

(** The entries of a normalised object. *)
Definition normal_entries o : list entry :=
  omap (λ k, v ← defined_field o k; Some (k, normalizePayload v)) (sorted_keys o).
Lemma normalize_object o : normalizePayload (JObj o) = JObj (normal_entries o).
Proof.
  cbn. f_equal. unfold normal_entries. apply list_omap_ext, Forall_Forall2_diag, Forall_forall. intros k _.
  enough (obj_get k (List.map (λ kv : entry, (kv.1, match kv.2 with JUndefined => None
      | _ => Some (normalizePayload kv.2) end)) o) ≫= id = normalizePayload <$> defined_field o k) as ->
    by by destruct (defined_field o k).
  unfold defined_field. induction o as [|[k' v] o IH]; [done|]. cbn. destruct (String.eqb k k'); [by destruct v|done].
Qed.

Lemma normal_entries_sorted o : Sorted String.le (normal_entries o).*1.
Proof.
  unfold normal_entries, sorted_keys.
  assert (StronglySorted String.le (merge_sort String.le (obj_keys o))) as Hs
    by (apply StronglySorted_merge_sort; apply _).
  induction Hs as [|k ks Hs IH Hk]; cbn; [constructor|].
  destruct (v ← defined_field o k; Some (k, normalizePayload v)) as [[k' w]|] eqn:E; [|done].
  cbn. destruct (defined_field o k); [|done]. injection E as <- _. constructor; [done|].
  destruct (omap _ ks) as [|[k2 w2] r] eqn:Er; cbn; constructor.
  assert (k2 ∈ ks) as Hin.
  { assert ((k2, w2) ∈ omap (λ k, v ← defined_field o k; Some (k, normalizePayload v)) ks) as Hel
      by (rewrite Er; by left).
    apply list_elem_of_omap in Hel as (k0 & Hk0 & Heq). by destruct (defined_field o k0); simplify_eq/=. }
  by apply (proj1 (Forall_forall _ _) Hk).
Qed.

Lemma elem_normal_entries o k w :
  (k, w) ∈ normal_entries o ↔ ∃ v, defined_field o k = Some v ∧ w = normalizePayload v.
Proof.
  unfold normal_entries, sorted_keys. rewrite list_elem_of_omap. split.
  - intros (k0 & _ & E). destruct (defined_field o k0) as [v|] eqn:Ev; [|done]. cbn in E. simplify_eq. eauto.
  - intros (v & Hv & ->). exists k. rewrite Hv. split; [|done]. rewrite merge_sort_Permutation.
    unfold defined_field in Hv. destruct (obj_get k o) as [u|] eqn:Eu; [|done].
    apply obj_get_Some in Eu. by apply (list_elem_of_fmap_2 fst o (k, u)).
Qed.
Lemma NoDup_normal_keys o : NoDup (obj_keys o) → NoDup (normal_entries o).*1.
Proof.
  unfold normal_entries, sorted_keys. intros Hnd.
  assert (NoDup (merge_sort String.le (obj_keys o))) as Hs by by rewrite merge_sort_Permutation.
  induction Hs as [|k ks Hk Hs IH]; cbn; [constructor|].
  destruct (defined_field o k) as [v|]; [|done]. cbn. constructor; [|done].
  intros ([k' w'] & Heq & Hel)%list_elem_of_fmap. cbn in Heq. subst k'.
  apply list_elem_of_omap in Hel as (k0 & Hk0 & E). by destruct (defined_field o k0); simplify_eq/=.
Qed.

(** Entries in the order of distinct keys are determined by their elements. *)
Lemma sorted_entries_unique l l' : Sorted String.le l.*1 → Sorted String.le l'.*1 → NoDup l.*1 → NoDup l'.*1 →
  (∀ k w, (k, w) ∈ l ↔ (k, w) ∈ l') → l = l'.
Proof.
  intros Hs Hs' Hnd Hnd' Hel.
  assert (l ≡ₚ l') as Hp.
  { apply NoDup_Permutation; [by apply (NoDup_fmap_1 fst)..|]. intros [k w]. apply Hel. }
  assert (l.*1 = l'.*1) as Hkeys.
  { apply (Sorted_unique String.le); [done..|]. by rewrite Hp. }
  clear Hs Hs' Hnd'. revert l' Hp Hel Hkeys. induction l as [|[k w] l IH]; intros [|[k' w'] l'] Hp Hel Hkeys;
    try done.
  cbn in Hkeys. injection Hkeys as <- Hkeys. inversion Hnd as [|? ? Hk Hnd0]; subst.
  assert (w' = w) as ->.
  { assert ((k, w') ∈ (k, w) :: l) as Hin by (apply Hel; by left).
    apply elem_of_cons in Hin as [[= ->]|Hin]; [done|]. destruct Hk. by apply (list_elem_of_fmap_2 fst _ _ Hin). }
  f_equal. apply IH; [done| |..|done].
  - by apply (Permutation.Permutation_cons_inv (a := (k, w))).
  - intros k0 w0. apply (Permutation.Permutation_cons_inv (a := (k, w))) in Hp. by rewrite Hp.
Qed.
End sorted.

(** Equivalent payloads have the same normal form, hence the same cache key. *)
Lemma normalize_eq v w : payload_eq v w → normalizePayload v = normalizePayload w.
Proof.
  revert v w. fix IH 3. intros v w [v0 w0 Hv Hw|b|r|t|l l' Hl|o o' Hnd Hnd' Ho]; try done.
  - by destruct v0, w0.
  - cbn. f_equal. induction Hl as [|a b l l' Hab Hl IHl]; [done|]. cbn. by rewrite (IH _ _ Hab), IHl.
  - rewrite !normalize_object. f_equal.
    apply sorted_entries_unique; [apply normal_entries_sorted..|by apply NoDup_normal_keys|by apply NoDup_normal_keys|].
    assert (∀ k, normalizePayload <$> defined_field o k = normalizePayload <$> defined_field o' k) as Hk.
    { intros k. destruct (Ho k) as [a b Hab|]; [|done]. cbn. by rewrite (IH _ _ Hab). }
    intros k x. rewrite !elem_normal_entries. specialize (Hk k).
    destruct (defined_field o k), (defined_field o' k); cbn in Hk; naive_solver.
Qed.
#[export] Instance normalizePayload_proper : Proper (payload_eq ==> (=)) normalizePayload.
Proof. intros v w. apply normalize_eq. Qed.

#[export] Instance generateCacheKey_proper `{JsonText V} sha256_hex cmd :
  Proper (payload_eq ==> (=) ==> (=)) (generateCacheKey sha256_hex cmd).
Proof. intros v w Hvw p _ <-. unfold generateCacheKey. by rewrite Hvw. Qed.

Section calls.
Context `{JsonTextLaws V} (sha256_hex : V → string) `{NestLaws}.
Context {S : Type} `{RedisLaws S V}.
Implicit Types (s : S) (site : call_site) (v w payload defaultValue : jsv) (now : string).

Local Abbreviation send := (sendWithContext sha256_hex).

(** The entry of the cache that a call finds. *)
Definition cache_hit site cmd payload (options : option MicroserviceCacheOptions) s : option jsv :=
  match options with
  | Some o => if enabled o
              then read_cache (get_fails site) (generateCacheKey sha256_hex cmd payload (keyPrefix o)) s
              else None
  | None => None
  end.
Lemma send_hit site cmd payload defaultValue options reply s v :
  cache_hit site cmd payload options s = Some v →
  send site cmd payload defaultValue options reply s = (Returns v, [], s).
Proof.
  unfold cache_hit, sendWithContext. destruct options as [o|]; [|done]. destruct (enabled o); [|done].
  cbn. by intros ->.
Qed.
Lemma send_miss_rejects site cmd payload defaultValue options r s :
  cache_hit site cmd payload options s = None →
  let sent := Send cmd (buildMicroservicePayload payload
                (createCallContext (request site) (span_id site) (otel site))) in
  send site cmd payload defaultValue options (Rejects r) s
  = ((on_rejection defaultValue r).1, sent :: (on_rejection defaultValue r).2, s).
Proof.
  unfold cache_hit, sendWithContext. intros Hmiss.
  destruct options as [o|]; [destruct (enabled o)|]; cbn; rewrite ?Hmiss; by destruct (on_rejection _ _).
Qed.

(** A call throws exactly when it is not served from the cache and is rejected
    with an error of the other service in one of the two formats or with an
    HTTP exception. *)
Theorem send_throws_iff site cmd payload defaultValue options reply s :
  (∃ e, (send site cmd payload defaultValue options reply s).1.1 = Throws e) ↔
  cache_hit site cmd payload options s = None ∧
  ∃ r, reply = Rejects r ∧
    match r with
    | RValue v => client_isRpcErrorPayload v = true ∨ isRpcErrorResponse v = true
    | RHttp _ => True
    | RTimeout _ | RError _ => False
    end.
Proof.
  split.
  - intros [e He]. destruct (cache_hit site cmd payload options s) as [v|] eqn:Hc.
    { rewrite (send_hit _ _ _ _ _ _ _ _ Hc) in He. done. }
    split; [done|]. destruct reply as [v| |r].
    + exfalso. revert He. unfold sendWithContext, cache_hit in *.
      destruct options as [o|]; [destruct (enabled o)|]; cbn in *; by rewrite ?Hc.
    + exfalso. revert He. unfold sendWithContext, cache_hit in *.
      destruct options as [o|]; [destruct (enabled o)|]; cbn in *; by rewrite ?Hc.
    + exists r. split; [done|]. rewrite send_miss_rejects in He by done. cbn in He.
      destruct r as [|v| |]; cbn in He; try done.
      destruct (client_isRpcErrorPayload v); [by left|]. destruct (isRpcErrorResponse v); [by right|done].
  - intros (Hc & r & -> & Hr). rewrite send_miss_rejects by done. cbn.
    destruct r as [|v| |e]; try done; cbn; [|by eexists].
    destruct (client_isRpcErrorPayload v) eqn:E; [by eexists|]. destruct Hr as [?|Hr]; [done|].
    rewrite Hr. by eexists.
Qed.

(** A response that was cached answers every later call of the command with an
    equivalent payload, from any request and whatever the service would reply,
    as long as Redis keeps the entry. *)
Theorem cached_call site site' cmd payload payload' d d' o o' reply v s s'
    (Hpayload : payload_eq payload payload') (Hon : enabled o = true) (Hon' : enabled o' = true)
    (Hprefix : keyPrefix o = keyPrefix o') (Httl : (0 < default 300 (cache_ttl o))%Z)
    (Hmiss : cache_hit site cmd payload (Some o) s = None) (Hset : set_fails site = false)
    (Hget : get_fails site' = false) (Hv : nullish v = false) (Hwire : wire v = v) :
  let '(out, _, s1) := send site cmd payload d (Some o) (Emits v) s in
  out = Returns v ∧
  (later (V := V) s1 s' →
   get (V := V) (generateCacheKey sha256_hex cmd payload (keyPrefix o)) s' ≠ None →
   send site' cmd payload' d' (Some o') reply s' = (Returns v, [], s')).
Proof.
  unfold cache_hit in Hmiss. rewrite Hon in Hmiss. unfold sendWithContext at 1. rewrite Hon. cbn. rewrite Hmiss. cbn.
  split; [done|]. intros Hlater Hkept. apply send_hit. unfold cache_hit. rewrite Hon', <- Hprefix.
  rewrite <- (generateCacheKey_proper sha256_hex cmd _ _ Hpayload _ _ eq_refl).
  unfold read_cache. rewrite Hget. revert Hlater Hkept. unfold write_cache. rewrite Hset, Hv. cbn.
  destruct (Z.leb_spec (default 300%Z (cache_ttl o)) 0) as [Hle|_]; [lia|]. cbn.
  intros [Hsame|Hgone]%(later_get _ _ (generateCacheKey sha256_hex cmd payload (keyPrefix o))) Hkept; [|done].
  rewrite Hsame, get_setex by done. rewrite decide_True by done. cbn.
  rewrite json_parse_json, Hwire; [done|]. by intros ->.
Qed.
End calls.

(** ** The trace of chained calls *)

(** The context of the [n]th call of a chain: every service on the way sends
    its calls while it handles the message of the one before. *)
Inductive relays (c : jsv) : nat → jsv → Prop :=
  | relays_0 : relays c 0 c
  | relays_S n c' payload span otel : relays c n c' →
      relays c (S n) (createCallContext (received (buildMicroservicePayload payload c')) span otel).

Definition trace_field (c : jsv) (k : string) : jsv := chain (chain c "trace") k.
Definition user_field (c : jsv) (k : string) : jsv := chain (chain c "user") k.

(** The shape of the contexts of a chain. *)
Record traced (correlation trace : string) (c : jsv) : Prop := {
  tr_shape : ∃ u p sp o, c = JObj [("user", JObj u);
    ("trace", JObj [("correlation_id", JStr correlation); ("trace_id", JStr trace);
                    ("parent_span_id", p); ("span_id", JStr sp)]); ("otel", o)];
}.
Lemma received_trace payload correlation trace c : traced correlation trace c →
  let request := received (buildMicroservicePayload payload c) in
  property "user" request = JUndefined ∧ property "headers" request = JUndefined ∧
  ∃ sp, trace_field c "span_id" = JStr sp ∧
    chain (chain (property "_context" request) "trace") "span_id" = JStr sp ∧
    chain (chain (property "_context" request) "trace") "correlation_id" = JStr correlation ∧
    chain (chain (property "_context" request) "trace") "trace_id" = JStr trace.
Proof.
  intros [(u & p & sp & o & ->)]. cbv zeta. unfold received, buildMicroservicePayload, trace_field.
  assert (∀ v, members (wire (JObj [("payload", payload); ("_context", v)])) =
    match payload with JUndefined => [] | _ => [("payload", wire payload)] end ++
    match v with JUndefined => [] | _ => [("_context", wire v)] end)%list as ->.
  { intros v. cbn. by rewrite app_nil_r. }
  destruct payload; cbn; (split; [done|split; [done|exists sp; split; [done|]]]); by destruct p; cbn.
Qed.
Lemma relayed_context payload span otel correlation trace c : traced correlation trace c →
  let c' := createCallContext (received (buildMicroservicePayload payload c)) span otel in
  traced correlation trace c' ∧ trace_field c' "parent_span_id" = trace_field c "span_id" ∧
  user_field c' "id" = JUndefined ∧ user_field c' "roles" = JUndefined ∧ user_field c' "ip_address" = JStr "N/A".
Proof.
  intros Hc c'. destruct (received_trace payload _ _ _ Hc) as (Hu & Hh & sp & Hsp & H1 & H2 & H3).
  subst c'. unfold createCallContext, user_field, trace_field. rewrite Hu, Hh, H1, H2, H3. cbn.
  fold (trace_field c "span_id"). rewrite Hsp. split; [|done]. split. do 4 eexists. reflexivity.
Qed.

(** Along a chain of calls that starts at an HTTP request the trace and the
    correlation id stay those of the request, and every span is the parent of
    the next; the identity of the user is sent on the first call only. *)
Theorem trace_chain request span otel n c' (Hhttp : property "_context" request = JUndefined) :
  let c := createCallContext request span otel in
  relays c n c' →
  trace_field c' "trace_id" = trace_field c "trace_id" ∧
  trace_field c' "correlation_id" = trace_field c "correlation_id" ∧
  (∀ payload span' otel', trace_field
     (createCallContext (received (buildMicroservicePayload payload c')) span' otel') "parent_span_id"
     = trace_field c' "span_id") ∧
  (n ≠ 0 → user_field c' "id" = JUndefined ∧ user_field c' "roles" = JUndefined).
Proof.
  intros c Hrel.
  assert (∃ co tr, traced co tr c ∧ trace_field c "trace_id" = JStr tr ∧ trace_field c "correlation_id" = JStr co)
    as (co & tr & Hc & Htr & Hco).
  { unfold c, createCallContext. rewrite Hhttp.
    destruct (asString (chain (coalesce (property "headers" request) (JObj [])) "x-correlation-id")) eqn:E1;
      try by (unfold asString in E1; case_match).
    all: destruct (asString (chain (coalesce (property "headers" request) (JObj [])) "x-trace-id")) eqn:E2;
      try by (unfold asString in E2; case_match).
    all: do 2 eexists; split; [|split; reflexivity]; split; do 4 eexists; reflexivity. }
  assert (traced co tr c' ∧ (n ≠ 0 → user_field c' "id" = JUndefined ∧ user_field c' "roles" = JUndefined))
    as [Hc' Hu].
  { induction Hrel as [|n c0 payload span' otel' Hrel [IH _]]; [done|].
    destruct (relayed_context payload span' otel' _ _ _ IH) as (? & _ & ? & ? & _). done. }
  rewrite Htr, Hco. split_and!; [| | |done].
  - by destruct Hc' as [(u & p & sp & o & ->)].
  - by destruct Hc' as [(u & p & sp & o & ->)].
  - intros payload span' otel'. by destruct (relayed_context payload span' otel' _ _ _ Hc') as (_ & ? & _).
Qed.

(** ** Exceptions that cross services *)

Section errors.
Context `{JsonText V} (sha256_hex : V → string) `{NestLaws} {S : Type} `{Redis S V}.
Implicit Types (e : exception) (h : http_exception) (now : string) (s : Z).

(** The exception [e] of a handler [n] calls away: each service between formats
    what reaches it, and its caller does not catch what [sendWithContext]
    throws. *)
Inductive relayed e : nat → exception → Prop :=
  | relayed_0 : relayed e 0 e
  | relayed_S n e' now site cmd payload d options (st : S) h : relayed e n e' →
      (sendWithContext sha256_hex site cmd payload d options
         (Rejects (RValue (wire (formatException now e')))) st).1.1 = Throws h →
      relayed e (Datatypes.S n) (EHttp h).

(** A payload the client recognises is thrown, cached answers apart. *)
Lemma send_payload site cmd payload d options v (st : S) h : client_isRpcErrorPayload v = true →
  (sendWithContext sha256_hex site cmd payload d options (Rejects (RValue v)) st).1.1 = Throws h →
  h = handleRpcErrorPayload v.
Proof.
  intros Hv. unfold sendWithContext.
  destruct (match options with Some o => _ | None => None end ≫= _); [done|].
  cbn. rewrite Hv. cbn. congruence.
Qed.

Lemma relay_http h0 s t now site cmd payload d options (st : S) h : (400 ≤ s < 600)%Z →
  getStatus h0 = js_Z s → detail_of h0 = JStr t →
  (sendWithContext sha256_hex site cmd payload d options
     (Rejects (RValue (wire (formatException now (EHttp h0))))) st).1.1 = Throws h →
  rethrown s [("code", js_Z s); ("message", JStr t)] t h.
Proof.
  intros Hs Hst Hd. cbn [formatException]. unfold rpc_http_error.
  fold (detail_of h0). rewrite Hst, Hd, wire_payload by done. intros Hh.
  destruct (client_payload now s (http_message h0) (http_message h0) t Hs) as [Hrec Hthrown].
  apply send_payload in Hh; [|done]. by rewrite Hh.
Qed.

(** The code a client of the first service sees in the error object. *)
Definition seen_code (n : nat) (s : Z) : Z := match n with O => s | _ => remote_status s end.
Definition title_of (s : Z) : string :=
  match error_meta (js_Z s) with Some m => m.2 | None => "An error occurred" end.

Lemma seen_code_range n s : (400 ≤ s < 600)%Z → (400 ≤ seen_code n s < 600)%Z.
Proof. destruct n; [done|apply remote_status_range]. Qed.
Lemma seen_code_status n s : remote_status (seen_code n s) = remote_status s.
Proof. destruct n; [done|apply remote_status_idem]. Qed.
Lemma relayed_http h0 s t n e' : (400 ≤ s < 600)%Z → getStatus h0 = js_Z s → detail_of h0 = JStr t →
  relayed (EHttp h0) (Datatypes.S n) e' →
  ∃ h, e' = EHttp h ∧
    rethrown (seen_code n s) [("code", js_Z (seen_code n s)); ("message", JStr t)] t h.
Proof.
  intros Hs Hst Hd. revert e'. induction n as [|n IH]; intros e' Hrel.
  - inversion Hrel as [|? ? now site cmd payload d options st h Hrel0 Hh]; subst.
    inversion Hrel0; subst. exists h. split; [done|]. by eapply relay_http.
  - inversion Hrel as [|? ? now site cmd payload d options st h Hrel0 Hh]; subst.
    destruct (IH _ Hrel0) as (h1 & -> & Hh1). exists h. split; [done|].
    change (seen_code (Datatypes.S n) s) with (remote_status s).
    eapply relay_http; [by apply remote_status_range| | |exact Hh].
    + by rewrite (rt_status _ _ _ _ Hh1), seen_code_status.
    + by eapply rethrown_detail.
Qed.

Lemma http_error_rethrown now s c t h : rethrown s [("code", js_Z c); ("message", JStr t)] t h →
  http_error now h = (js_Z (remote_status s), envelope now (js_Z (remote_status s)) (JStr t)
    [error_object (js_Z c) (JStr (title_of (remote_status s))) (JStr t) []]).
Proof.
  intros [Hst Hr Hm]. unfold http_error, title_of. rewrite Hst, Hr, Hm. cbn -[remote_status error_meta js_Z].
  by destruct (error_meta (js_Z (remote_status s))).
Qed.

(** An HTTP exception of a handler [n + 1] calls away reaches the client with
    its text; a status below 500 is kept, any other becomes 500, and the code
    of the error object is the status in place of the code the handler gave. *)
Theorem remote_error h0 s t n e' now (Hs : (400 ≤ s < 600)%Z) (Hst : getStatus h0 = js_Z s)
    (Hd : detail_of h0 = JStr t) (Hrel : relayed (EHttp h0) (Datatypes.S n) e') :
  AllExceptionsFilter now e' =
    (js_Z (remote_status s), envelope now (js_Z (remote_status s)) (JStr t)
       [error_object (js_Z (seen_code n s)) (JStr (title_of (remote_status s))) (JStr t) []]).
Proof.
  destruct (relayed_http h0 s t n e' Hs Hst Hd Hrel) as (h & -> & Hh). cbn [AllExceptionsFilter].
  by rewrite (http_error_rethrown now _ _ _ _ Hh), seen_code_status.
Qed.

(** What becomes of the payloads whose code is no status of an exception. *)
Lemma custom_payload (c : Z) o t : c = 400001%Z ∨ c = 400002%Z ∨ c = 500%Z → property "message" o = JStr t →
  rethrown 500 o t (exception_for true (js_Z c) (JObj o)).
Proof. intros [->|[->| ->]] Hm; by apply built_in_rethrown. Qed.

(** The client reads the first error object of a payload. *)
Lemma client_first now (c : Z) msg title t source errors : finite_repr (string_of_Z c) = true →
  let v := wire (envelope now (js_Z c) (JStr msg)
                   (error_object (js_Z c) (JStr title) (JStr t) source :: errors)) in
  client_isRpcErrorPayload v = true ∧
  handleRpcErrorPayload v = exception_for true (js_Z c) (JObj [("code", js_Z c); ("message", JStr t)]).
Proof.
  intros Hc. unfold js_Z. unfold handleRpcErrorPayload. cbn -[finite_repr string_of_Z exception_for]. rewrite Hc.
  by destruct source.
Qed.

(** The code and the text of the first error of a failure that is no HTTP
    exception of its own. *)
Definition first_failure e : option (Z * string) :=
  match e with
  | EValidation (Invalid _ (m :: _) :: _) => Some (400001%Z, m)
  | EInvalidParameter (ErrorObject _ (JStr m) :: _) => Some (400002%Z, m)
  | EError m | EQueryFailed m _ _ => Some (500%Z, m)
  | _ => None
  end.
Definition local_status e : Z :=
  match e with EValidation _ | EInvalidParameter _ => 400 | EQueryFailed _ _ _ => 422 | _ => 500 end.

Lemma first_failure_payload e c m now : first_failure e = Some (c, m) →
  (c = 400001 ∨ c = 400002 ∨ c = 500)%Z ∧
  ∃ msg title source errors, formatException now e = envelope now (js_Z c) (JStr msg)
    (error_object (js_Z c) (JStr title) (JStr m) source :: errors).
Proof.
  intros He. destruct e as [[|[? []] ?]|[|[? []] ?]| | | | |]; cbn in He; simplify_eq; split; try by auto.
  all: by do 4 eexists.
Qed.

(** A validation failure, a database error or an internal error of a handler in
    the called service reaches the client as a 500 with the text of the failure,
    where the same failure in the service the client calls is answered with 400,
    with 422, or with a fixed text. *)
Theorem remote_failure e c m e' now (He : first_failure e = Some (c, m)) (Hrel : relayed e 1 e') :
  AllExceptionsFilter now e' =
    (js_Z 500, envelope now (js_Z 500) (JStr m) [error_object (js_Z c) (JStr "Server Error") (JStr m) []]) ∧
  (AllExceptionsFilter now e).1 = js_Z (local_status e) ∧
  (∀ t, e = EError t → ∀ t', AllExceptionsFilter now (EError t') = AllExceptionsFilter now e).
Proof.
  split; [|split; [by destruct e|by intros t ->]].
  revert He. inversion Hrel as [|? ? now' site cmd payload d options st h Hrel0 Hh]; subst. inversion Hrel0; subst. intros He.
  destruct (first_failure_payload _ c m now' He) as (Hc & msg & title & source & errors & Hf).
  assert (finite_repr (string_of_Z c) = true) as Hfin by by destruct Hc as [->|[->| ->]].
  rewrite Hf in Hh. destruct (client_first now' c msg title m source errors Hfin) as [Hrec Hthrow].
  apply send_payload in Hh; [|done]. rewrite Hthrow in Hh.
  pose proof (custom_payload c [("code", js_Z c); ("message", JStr m)] m Hc eq_refl) as Hr.
  rewrite <- Hh in Hr. apply (http_error_rethrown now) in Hr. cbn [AllExceptionsFilter]. by rewrite Hr.
Qed.

(** The reply of a service without [RpcExceptionsFilter], whose [status] is a
    text, is no error to the caller: the call returns its fallback. *)
Lemma unformatted_reply site cmd payload d options status message (st : S) :
  cache_hit sha256_hex site cmd payload options st = None →
  (sendWithContext sha256_hex site cmd payload d options
     (Rejects (RValue (JObj [("status", JStr status); ("message", message)]))) st).1.1 = Returns (fallback d).
Proof.
  unfold cache_hit, sendWithContext. intros Hmiss.
  destruct options as [o|]; [destruct (enabled o)|]; cbn; by rewrite ?Hmiss.
Qed.
End errors.

(** ** Witnesses *)

Module Sample.
#[export] Instance nest : Nest := {
  built_in s b := match b with
                  | JStr t => Http (js_Z s) (JObj [("message", JStr t); ("statusCode", js_Z s)]) t
                  | JObj o => Http (js_Z s) b (match property "message" o with JStr t => t | _ => "" end)
                  | _ => Http (js_Z s) b ""
                  end;
  http b v := Http v b (match b with
                        | JStr t => t
                        | JObj o => match property "message" o with JStr t => t | _ => "" end
                        | _ => ""
                        end);
}.
#[export] Instance nest_laws : NestLaws.
Proof.
  split; try done.
  - by intros s [].
  - intros s t _. eexists. split; [done|]. split; [done|]. by repeat constructor.
  - intros s o t Hm. cbn. by rewrite Hm.
  - intros o t v Hm. cbn. by rewrite Hm.
Qed.
Definition site : call_site := CallSite [] "span" (JObj []) false false.
Definition options : MicroserviceCacheOptions := CacheOptions true None None.
#[export] Instance text : JsonText jsv := { json v := v; json_parse v := Some (wire v) }.
#[export] Instance text_laws : JsonTextLaws jsv.
Proof. by split. Qed.
Definition digest (v : jsv) : string := js_String v.
Definition store : mem jsv := Mem ∅ ∅ ∅.
End Sample.
Import Sample.

Definition sample_not_found : exception := EHttp (built_in 404 (JStr "Supplier not found")).
(** What the caller of a service throws. *)
Definition thrown_by (e : exception) : exception :=
  match (sendWithContext digest site "c" JNull JNull None (Rejects (RValue (wire (formatException "now" e)))) store).1.1 with
  | Throws h => EHttp h
  | Returns _ => e
  end.
Lemma thrown_relayed n e e' : relayed digest (S := mem jsv) e n e' →
  (∃ h, thrown_by e' = EHttp h ∧
    (sendWithContext digest site "c" JNull JNull None
       (Rejects (RValue (wire (formatException "now" e')))) store).1.1 = Throws h) →
  relayed digest (S := mem jsv) e (Datatypes.S n) (thrown_by e').
Proof. intros Hrel (h & -> & Hh). exact (relayed_S digest e n e' "now" site "c" JNull JNull None store h Hrel Hh). Qed.
Lemma relayed_twice : relayed digest (S := mem jsv) sample_not_found 2 (thrown_by (thrown_by sample_not_found)).
Proof.
  apply thrown_relayed; [apply thrown_relayed; [constructor|]|]; by eexists; split; vm_compute.
Qed.
Lemma remote_error_witness : AllExceptionsFilter "now" (thrown_by (thrown_by sample_not_found)) =
  (js_Z 404, envelope "now" (js_Z 404) (JStr "Supplier not found")
     [error_object (js_Z 404) (JStr "Not Found") (JStr "Supplier not found") []]).
Proof.
  exact (remote_error digest (built_in 404 (JStr "Supplier not found")) 404 "Supplier not found" 1 _ "now"
    ltac:(lia) eq_refl eq_refl relayed_twice).
Defined.

Definition sample_invalid : exception := EValidation [Invalid "name" ["name must be a string"]].
Lemma invalid_relayed : relayed digest (S := mem jsv) sample_invalid 1 (thrown_by sample_invalid).
Proof. apply thrown_relayed; [constructor|by eexists; split; vm_compute]. Qed.
Lemma remote_failure_witness : AllExceptionsFilter "now" (thrown_by sample_invalid) =
    (js_Z 500, envelope "now" (js_Z 500) (JStr "name must be a string")
       [error_object (js_Z 400001) (JStr "Server Error") (JStr "name must be a string") []]) ∧
  (AllExceptionsFilter "now" sample_invalid).1 = js_Z 400.
Proof.
  destruct (remote_failure digest sample_invalid 400001 "name must be a string" _ "now" eq_refl invalid_relayed)
    as (H1 & H2 & _).
  split; [exact H1|exact H2].
Defined.

Definition http_request_of_a_user : list (string * jsv) :=
  [("headers", JObj [("x-trace-id", JStr "t1"); ("x-span-id", JStr "s0")]);
   ("user", JObj [("user_session", JObj [("id", JStr "u1"); ("roles", JArr [JStr "r1"])])])].
Lemma trace_chain_witness :
  let c := createCallContext http_request_of_a_user "s1" (JObj []) in
  let c' := createCallContext (received (buildMicroservicePayload JNull c)) "s2" (JObj []) in
  user_field c "id" = JStr "u1" ∧ trace_field c' "trace_id" = JStr "t1" ∧ user_field c' "id" = JUndefined.
Proof.
  intros c c'. split; [reflexivity|].
  destruct (trace_chain http_request_of_a_user "s1" (JObj []) 1 c' eq_refl
    (relays_S c 0 c JNull "s2" (JObj []) (relays_0 c))) as (Ht & _ & _ & Hu).
  split; [exact Ht|exact (proj1 (Hu ltac:(discriminate)))].
Defined.

Definition query : jsv := JObj [("page", JNum "1"); ("q", JStr "x"); ("sort", JUndefined)].
Definition same_query : jsv := JObj [("q", JStr "x"); ("page", JNum "1")].
Lemma same_query_eq : payload_eq query same_query.
Proof.
  apply peq_obj.
  - by apply (bool_decide_unpack _); vm_compute.
  - by apply (bool_decide_unpack _); vm_compute.
  - intros k. unfold defined_field. cbn. destruct (String.eqb_spec k "page") as [->|]; [exact (Some_Forall2 _ _ _ (peq_num "1"))|].
    destruct (String.eqb_spec k "q") as [->|]; [exact (Some_Forall2 _ _ _ (peq_str "x"))|].
    destruct (String.eqb_spec k "sort") as [->|]; constructor.
Qed.
Lemma cached_call_witness : ∃ s1,
  sendWithContext digest site "c" query JNull (Some options) (Emits (JArr [])) store = (Returns (JArr []),
    [Send "c" (buildMicroservicePayload query (createCallContext [] "span" (JObj [])))], s1) ∧
  sendWithContext digest site "c" same_query JNull (Some options) (Rejects (RTimeout "")) s1
    = (Returns (JArr []), [], s1).
Proof.
  eexists. split; [vm_compute; reflexivity|].
  refine (proj2 (cached_call digest site site "c" query same_query JNull JNull options options
    (Rejects (RTimeout "")) (JArr []) store _ same_query_eq eq_refl eq_refl eq_refl _ eq_refl eq_refl eq_refl
    eq_refl eq_refl) _ _); [cbn; lia| |vm_compute; discriminate].
  exists 0%Z. split; [lia|]. vm_compute. reflexivity.
Defined.
