(* ===== verification/JsonApi.v ===== *)
(** * JSON:API responses

    What turns the value a controller returns into the response body:
    [collapseLocalizedFields] (localization-interceptor.util.ts),
    [TransformInterceptor] (transform-interceptor.util.ts) and the builders of
    json-api.util.ts, all in src/libs/common/src/utils/http-success.

    A returned value is a [jsv]; a page of a listing is told apart by
    [isPaginatedData], which is a constructor of [returned].  [now] is the
    timestamp of the response. *)

From S2P Require Import Prelude JsString JsValues RpcErrors.
#[local] Open Scope string_scope.

(** ** Localised fields *)

Definition TH_SUFFIX : string := "_th".
Definition EN_SUFFIX : string := "_en".
(** [key.slice(0, -SUFFIX.length)] *)
Definition drop_suffix (key : string) : string := String.substring 0 (String.length key - 3) key.

(** The names the key [key] of [source] forms a pair with: the base, the other
    key, and the two columns. *)
Definition pair_of (source : list (string * jsv)) (key : string) : option (string * string * string) :=
  let base := drop_suffix key in
  if endsWith key TH_SUFFIX && has (base +:+ EN_SUFFIX) source then Some (base, key, base +:+ EN_SUFFIX)
  else if endsWith key EN_SUFFIX && has (base +:+ TH_SUFFIX) source then Some (base, base +:+ TH_SUFFIX, key)
  else None.
Definition localized (source : list (string * jsv)) (thKey enKey : string) : jsv :=
  JObj [("th", coalesce (property thKey source) JNull); ("en", coalesce (property enKey source) JNull)].

(** The loop over the keys; [collapsed] has the values already collapsed. *)
Fixpoint collapse_keys (source collapsed : list (string * jsv)) (keys handled : list string)
    (result : list (string * jsv)) : list (string * jsv) :=
  match keys with
  | [] => result
  | key :: keys' =>
      if includes handled key then collapse_keys source collapsed keys' handled result
      else match pair_of source key with
           | Some (base, thKey, enKey) =>
               collapse_keys source collapsed keys' (thKey :: enKey :: handled)
                 (obj_set base (localized source thKey enKey) result)
           | None =>
               collapse_keys source collapsed keys' (key :: handled)
                 (obj_set key (property key collapsed) result)
           end
  end.
Fixpoint collapseLocalizedFields (value : jsv) : jsv :=
  match value with
  | JArr items => JArr (List.map collapseLocalizedFields items)
  | JObj source =>
      JObj (collapse_keys source (List.map (λ kv, (kv.1, collapseLocalizedFields kv.2)) source)
              (obj_keys source) [] [])
  | _ => value
  end.

(** ** The builders *)

(** The options the code passes on; [None] is [undefined]. *)
Record response_options := ResponseOptions {
  o_id : option jsv;
  o_meta : option (list (string * jsv));
  o_links : option (list (string * jsv));
  o_status : option jsv;
}.
Definition no_options : response_options := ResponseOptions None None None None.

(** [const { id, ...attributesWithoutId } = data] *)
Definition attributesWithoutId (data : list (string * jsv)) : list (string * jsv) :=
  List.filter (λ kv, negb (String.eqb kv.1 "id")) data.
Definition optional_field {A} (k : string) (f : A → jsv) (v : option A) : list (string * jsv) :=
  match v with Some a => [(k, f a)] | None => [] end.
Definition status_object (code : Z) (message : string) : jsv :=
  JObj [("code", js_Z code); ("message", JStr message)].
Definition REQUEST_SUCCEEDED : jsv := status_object 200000 "Request Succeeded".
(** The properties of [b] over those of [a]. *)
Definition obj_spread (a b : list (string * jsv)) : list (string * jsv) :=
  foldl (λ o kv, obj_set kv.1 kv.2 o) a b.

Definition createSuccessResponse (now type : string) (data : list (string * jsv)) (baseUrl : string)
    (options : response_options) : jsv :=
  let resource := JObj ([("type", JStr type);
                         ("id", default (property "id" data) (o_id options));
                         ("attributes", JObj (attributesWithoutId data))] ++
                        optional_field "meta" JObj (o_meta options) ++
                        optional_field "links" JObj (o_links options))%list in
  JObj [("data", resource); ("links", JObj [("self", JStr baseUrl)]); ("meta", JObj [("timestamp", JStr now)]);
        ("status", default REQUEST_SUCCEEDED (o_status options))].

Definition createCreatedResponse (now type : string) (data : list (string * jsv)) (location baseUrl : string)
    (options : response_options) : jsv :=
  createSuccessResponse now type data baseUrl
    (ResponseOptions (o_id options) (o_meta options)
       (Some (obj_spread [("self", JStr location)] (default [] (o_links options))))
       (Some (default (status_object 201000 "Created successfully") (o_status options)))).

(** [if (v)] *)
Definition is_truthy (v : jsv) : bool :=
  match v with
  | JUndefined | JNull | JBool false | JStr "" => false
  | JNum r => negb (isNaN (Number r)) && negb (num_eq (Number r) (Number "0"))
  | _ => true
  end.

Definition collection_resource (type : string) (idField : option string) (index : nat) (item : jsv) : jsv :=
  let o := members item in
  let finalId :=
    match idField with
    | Some f => if is_truthy (property f o) then Some (js_String (property f o)) else None
    | None => None
    end in
  let finalId :=
    match finalId with
    | Some s => s
    | None => if is_truthy (property "id" o) then js_String (property "id" o) else string_of_nat index
    end in
  JObj [("type", JStr type); ("id", JStr finalId); ("attributes", JObj (attributesWithoutId o))].

Definition createSuccessCollectionResponse (now type : string) (data : list jsv) (idField : option string)
    (meta links : option (list (string * jsv))) (status : option jsv) : jsv :=
  JObj ([("data", JArr (imap (collection_resource type idField) data));
         ("meta", JObj (obj_spread [("timestamp", JStr now)] (default [] meta)))] ++
        optional_field "links" JObj links ++ optional_field "status" id status)%list.

(** [IPagination] (src/libs/common/src/interfaces/response/pagination.interface.ts) *)
Record page_info := PageInfo {
  pi_page : Z; pi_page_size : Z; pi_total : Z; pi_total_records : Z; pi_total_pages : Z;
}.
Definition page_object (p : page_info) : jsv :=
  JObj [("page", js_Z (pi_page p)); ("page_size", js_Z (pi_page_size p)); ("total", js_Z (pi_total p));
        ("total_records", js_Z (pi_total_records p)); ("total_pages", js_Z (pi_total_pages p))].

Definition page_link (baseUrl : string) (page page_size : Z) : string :=
  baseUrl +:+ "?page=" +:+ string_of_Z page +:+ "&limit=" +:+ string_of_Z page_size.
Definition page_links (baseUrl : string) (nonempty : bool) (p : page_info) : list (string * jsv) :=
  let link n := JStr (page_link baseUrl n (pi_page_size p)) in
  ((if nonempty then [("first", link 1%Z); ("last", link (pi_total_pages p))] else []) ++
   [("self", link (pi_page p))] ++
   (if (1 <? pi_page p)%Z then [("prev", link (pi_page p - 1)%Z)] else []) ++
   (if (pi_page p <? pi_total_pages p)%Z then [("next", link (pi_page p + 1)%Z)] else []))%list.

Definition createPaginatedResponse (now type : string) (data : list jsv) (pagination : page_info)
    (baseUrl : string) (meta : option (list (string * jsv))) (idField : option string) (status : option jsv) : jsv :=
  let links := page_links baseUrl (match data with [] => false | _ => true end) pagination in
  let meta := obj_spread [("pagination", page_object pagination)] (default [] meta) in
  createSuccessCollectionResponse now type data idField (Some meta) (Some links)
    (Some (default REQUEST_SUCCEEDED status)).

Definition createNoContentResponse (now : string) : jsv :=
  JObj [("data", JNull); ("meta", JObj [("timestamp", JStr now)])].

(** ** The interceptor *)

(** What a controller returns: a page ([rest] are its further properties) or
    another value. *)
Inductive returned :=
  | Page (items : list jsv) (pagination : page_info) (rest : list (string * jsv))
  | Value (v : jsv).

Record http_target := Target { protocol : option string; hostname : option string; url : option string }.
Definition base_url (request : http_target) : string :=
  default "http" (protocol request) +:+ "://" +:+ default "" (hostname request) +:+ default "" (url request).

Inductive response_body := Unwrapped (r : returned) | Body (v : jsv).

Definition transform (now : string) (resourceType : option string) (statusCode : Z) (request : http_target)
    (data : returned) : response_body :=
  match resourceType with
  | None | Some "" => Unwrapped data
  | Some type =>
      let baseUrl := base_url request in
      match data with
      | Page items pagination rest =>
          let extraMeta := match rest with [] => None | _ => Some rest end in
          Body (createPaginatedResponse now type items pagination baseUrl extraMeta None None)
      | Value (JArr items) => Body (createSuccessCollectionResponse now type items None None None None)
      | Value (JObj o) =>
          if (statusCode =? 201)%Z
          then Body (createCreatedResponse now type o (baseUrl +:+ "/" +:+ js_String (property "id" o)) baseUrl no_options)
          else Body (createSuccessResponse now type o baseUrl no_options)
      | Value v => Body v
      end
  end.

(** The interceptors of registerGlobalMiddleware in the order the response meets
    them: the last one registered comes first, so the envelope is built before
    its localised columns are collapsed.  The class serializer then only copies:
    no entity has a decorator for it. *)
Definition localize_body (b : response_body) : response_body :=
  match b with
  | Body v => Body (collapseLocalizedFields v)
  | Unwrapped (Value v) => Unwrapped (Value (collapseLocalizedFields v))
  | Unwrapped (Page items pagination rest) =>
      Unwrapped (Page (List.map collapseLocalizedFields items) pagination
        (members (collapseLocalizedFields (JObj rest))))
  end.
Definition global_interceptors (now : string) (resourceType : option string) (statusCode : Z)
    (request : http_target) (data : returned) : response_body :=
  localize_body (transform now resourceType statusCode request data).

(** ** Properties *)

Lemma obj_get_spread k a b : NoDup (obj_keys b) →
  obj_get k (obj_spread a b) = match obj_get k b with Some v => Some v | None => obj_get k a end.
Proof.
  unfold obj_spread. revert a. induction b as [|[k' v'] b IH]; intros a Hnd; [done|].
  cbn in Hnd. apply NoDup_cons in Hnd as [Hk Hnd]. cbn [foldl obj_get]. rewrite IH by done. cbn [fst snd].
  rewrite obj_get_set. destruct (String.eqb_spec k k') as [->|]; [|done].
  by rewrite (proj2 (obj_get_None _ _) Hk).
Qed.
Lemma obj_set_keys (k : string) (v : jsv) o : NoDup (obj_keys o) → NoDup (obj_keys (obj_set k v o)).
Proof.
  induction o as [|[k0 v0] o IH]; cbn; intros Hnd; [apply NoDup_singleton|].
  apply NoDup_cons in Hnd as [Hk Hnd]. destruct (String.eqb_spec k k0) as [->|Hne]; cbn; [by apply NoDup_cons|].
  apply NoDup_cons. assert (∀ k', k' ∈ obj_keys (obj_set k v o) → k' = k ∨ k' ∈ obj_keys o) as Hin'.
  { intros k' Hk'. destruct (obj_get k' (obj_set k v o)) as [w|] eqn:E; [|by apply obj_get_None in E].
    rewrite obj_get_set in E. destruct (String.eqb_spec k' k); [by left|right].
    apply obj_get_Some in E. exact (list_elem_of_fmap_2 fst o (k', w) E). }
  split; [|by apply IH]. intros [->|?]%Hin'; done.
Qed.
Lemma spread_keys a b : NoDup (obj_keys a) → NoDup (obj_keys (obj_spread a b)).
Proof. unfold obj_spread. revert a. induction b as [|kv b IH]; intros a Ha; [done|]. apply IH. by apply obj_set_keys. Qed.

(** *** Suffixes *)

Lemma slice_last_app b p : slice_last (String.length p) (b +:+ p) = p.
Proof.
  unfold slice_last. rewrite append_length.
  replace (String.length b + String.length p - String.length p)%nat with (String.length b) by lia.
  rewrite substring_app. by apply substring_all.
Qed.
Lemma endsWith_app b p : endsWith (b +:+ p) p = true.
Proof. unfold endsWith. rewrite slice_last_app. apply String.eqb_refl. Qed.
Lemma endsWith_other b p q : String.length p = String.length q → p ≠ q → endsWith (b +:+ p) q = false.
Proof. intros Hl Hne. unfold endsWith. rewrite <- Hl, slice_last_app. by apply String.eqb_neq. Qed.
Lemma substring_0_app a b : String.substring 0 (String.length a) (a +:+ b) = a.
Proof. induction a as [|c a IH]; [by destruct b|]. rewrite append_cons. cbn. by rewrite IH. Qed.
Lemma drop_suffix_app b p : String.length p = 3 → drop_suffix (b +:+ p) = b.
Proof.
  intros Hp. unfold drop_suffix. rewrite append_length, Hp.
  replace (String.length b + 3 - 3)%nat with (String.length b) by lia. apply substring_0_app.
Qed.
Lemma split_suffix key p : String.length p = 3 → endsWith key p = true → key = drop_suffix key +:+ p.
Proof.
  intros Hp Hend. unfold endsWith, slice_last in Hend. apply String.eqb_eq in Hend. rewrite Hp in Hend.
  assert (∀ n s, String.substring 0 n s +:+ String.substring n (String.length s - n) s = s) as Hcut.
  { clear. intros n s. revert n. induction s as [|c s IH]; intros [|n]; try done.
    - cbn [String.substring String.length]. rewrite append_nil_l, Nat.sub_0_r. f_equal. by apply substring_all.
    - cbn [String.substring String.length Nat.sub]. by rewrite append_cons, IH. }
  unfold drop_suffix.
  assert (3 <= String.length key)%nat as Hlen.
  { apply (f_equal String.length) in Hend. rewrite Hp in Hend.
    destruct key as [|c1 [|c2 [|c3 key]]]; cbn in *; lia. }
  rewrite <- Hend at 1. rewrite <- (Hcut (String.length key - 3)%nat key) at 1. do 2 f_equal. lia.
Qed.

(** *** Pairs of columns *)

Lemma includes_ext (l l' : list string) x : (x ∈ l ↔ x ∈ l') → includes l x = includes l' x.
Proof. apply bool_decide_ext. Qed.
Lemma includes_cons_ne (l : list string) x y : x ≠ y → includes (y :: l) x = includes l x.
Proof. intros Hne. apply includes_ext. rewrite elem_of_cons. split; [by intros [->|]|auto]. Qed.

Section collapse.
Context (source collapsed : list (string * jsv)).
Implicit Types (k base key : string) (keys handled : list string) (result : list (string * jsv)).

Lemma has_true {A} k (o : list (string * A)) :
  match obj_get k o with Some _ => true | None => false end = true ↔ k ∈ obj_keys o.
Proof.
  destruct (obj_get k o) eqn:E; [|by apply obj_get_None in E; split].
  apply obj_get_Some in E. split; [intros _|done]. by apply (list_elem_of_fmap_2 fst o (k, a)).
Qed.
Lemma has_elem k o : has k o = true ↔ k ∈ obj_keys o.
Proof. apply has_true. Qed.

(** The columns [base_th] and [base_en] are both there. *)
Definition is_pair base : bool := has (base +:+ TH_SUFFIX) source && has (base +:+ EN_SUFFIX) source.

Lemma suffix_ne base base' : base +:+ TH_SUFFIX ≠ base' +:+ EN_SUFFIX.
Proof.
  intros Heq. pose proof (endsWith_app base TH_SUFFIX) as E. rewrite Heq, endsWith_other in E; done.
Qed.
Lemma suffix_inj p base base' : String.length p = 3 → base +:+ p = base' +:+ p → base = base'.
Proof. intros Hp Heq. by rewrite <- (drop_suffix_app base p Hp), Heq, drop_suffix_app. Qed.

Lemma pair_of_th base : is_pair base = true →
  pair_of source (base +:+ TH_SUFFIX) = Some (base, base +:+ TH_SUFFIX, base +:+ EN_SUFFIX).
Proof.
  unfold is_pair. rewrite andb_true_iff. intros [Hth Hen]. unfold pair_of.
  by rewrite endsWith_app, drop_suffix_app, Hen.
Qed.
Lemma pair_of_en base : is_pair base = true →
  pair_of source (base +:+ EN_SUFFIX) = Some (base, base +:+ TH_SUFFIX, base +:+ EN_SUFFIX).
Proof.
  unfold is_pair. rewrite andb_true_iff. intros [Hth Hen]. unfold pair_of.
  rewrite (endsWith_other _ EN_SUFFIX TH_SUFFIX) by done. by rewrite endsWith_app, drop_suffix_app, Hth.
Qed.
Lemma pair_of_Some key base thKey enKey : key ∈ obj_keys source →
  pair_of source key = Some (base, thKey, enKey) →
  is_pair base = true ∧ thKey = base +:+ TH_SUFFIX ∧ enKey = base +:+ EN_SUFFIX ∧ (key = thKey ∨ key = enKey).
Proof.
  intros Hkey%has_elem. unfold pair_of, is_pair.
  destruct (endsWith key TH_SUFFIX && has (drop_suffix key +:+ EN_SUFFIX) source) eqn:E1;
    [|destruct (endsWith key EN_SUFFIX && has (drop_suffix key +:+ TH_SUFFIX) source) eqn:E2; [|done]].
  - apply andb_true_iff in E1 as [Hend Hhas]. intros [= <- <- <-]. apply split_suffix in Hend; [|done].
    rewrite <- Hend at 1. rewrite Hkey, Hhas. auto.
  - apply andb_true_iff in E2 as [Hend Hhas]. intros [= <- <- <-]. apply split_suffix in Hend; [|done].
    rewrite Hhas. rewrite <- Hend at 1. rewrite Hkey. auto.
Qed.

(** What the loop has written once it has dealt with the keys of [handled]. *)
Definition written handled k : option jsv :=
  if is_pair k then
    if includes handled (k +:+ TH_SUFFIX)
    then Some (localized source (k +:+ TH_SUFFIX) (k +:+ EN_SUFFIX)) else None
  else if includes handled k && match pair_of source k with None => true | Some _ => false end
  then Some (property k collapsed) else None.
(** No plain column has the name of a pair. *)
Definition no_clash : Prop := ∀ base, is_pair base = true → base ∉ obj_keys source.

Record loop_ok keys handled result : Prop := {
  lo_written k : obj_get k result = written handled k;
  lo_pairs base : is_pair base = true →
    base +:+ TH_SUFFIX ∈ handled ↔ base +:+ EN_SUFFIX ∈ handled;
  lo_keys k : k ∈ obj_keys source → k ∈ handled ∨ k ∈ keys;
  lo_source k : k ∈ (handled ++ keys)%list → k ∈ obj_keys source;
}.

Lemma loop_skip key keys handled result : key ∈ handled → loop_ok (key :: keys) handled result →
  loop_ok keys handled result.
Proof.
  intros Hin [Hw Hp Hk Hs]. split; [done..| |].
  - intros k Hk'. destruct (Hk k Hk') as [|[->|]%elem_of_cons]; auto.
  - intros k Hk'. apply Hs. rewrite elem_of_app, elem_of_cons in *. tauto.
Qed.
Lemma loop_pair base keys handled result key : is_pair base = true →
  key = base +:+ TH_SUFFIX ∨ key = base +:+ EN_SUFFIX → key ∉ handled →
  loop_ok (key :: keys) handled result →
  loop_ok keys ((base +:+ TH_SUFFIX) :: (base +:+ EN_SUFFIX) :: handled)
    (obj_set base (localized source (base +:+ TH_SUFFIX) (base +:+ EN_SUFFIX)) result).
Proof.
  intros Hpair Hkey Hnew [Hw Hp Hk Hs]. split.
  - intros k. rewrite obj_get_set, Hw. unfold written. destruct (String.eqb_spec k base) as [->|Hne].
    + rewrite Hpair. by rewrite (proj2 (includes_true _ _)) by (by left).
    + destruct (is_pair k) eqn:Hk'.
      * rewrite !includes_cons_ne; [done|by intros E%suffix_ne|by intros E%suffix_inj].
      * destruct (pair_of source k) as [[[b t] e]|] eqn:Hpk; [by rewrite !andb_false_r|].
        rewrite !includes_cons_ne; [done|intros ->; by rewrite pair_of_en in Hpk|
          intros ->; by rewrite pair_of_th in Hpk].
  - intros b Hb. rewrite !elem_of_cons, (Hp b Hb). split.
    + intros [E|[E|]]; [|by apply suffix_ne in E|auto]. apply suffix_inj in E as ->; auto.
    + intros [E|[E|]]; [by symmetry in E; apply suffix_ne in E| |auto]. apply suffix_inj in E as ->; auto.
  - intros k Hk'. rewrite !elem_of_cons. destruct (Hk k Hk') as [|[->|]%elem_of_cons]; [auto| |auto].
    destruct Hkey; auto.
  - intros k. rewrite <- !app_comm_cons, !elem_of_cons. unfold is_pair in Hpair.
    rewrite andb_true_iff, !has_elem in Hpair. destruct Hpair as [Hth Hen].
    intros [->|[->|Hin]]; [done..|]. apply Hs. rewrite elem_of_app, elem_of_cons in *. tauto.
Qed.
Lemma loop_plain key keys handled result : pair_of source key = None → no_clash → key ∉ handled →
  loop_ok (key :: keys) handled result →
  loop_ok keys (key :: handled) (obj_set key (property key collapsed) result).
Proof.
  intros Hplain Hclash Hnew [Hw Hp Hk Hs].
  assert (key ∈ obj_keys source) as Hsrc by (apply Hs; rewrite elem_of_app, elem_of_cons; auto).
  split.
  - intros k. rewrite obj_get_set, Hw. unfold written. destruct (String.eqb_spec k key) as [->|Hne].
    + destruct (is_pair key) eqn:E; [by apply Hclash in E|]. rewrite Hplain.
      by rewrite (proj2 (includes_true _ _)) by (by left).
    + destruct (is_pair k) eqn:E.
      * rewrite includes_cons_ne; [done|]. intros E'. by rewrite <- E', pair_of_th in Hplain.
      * by rewrite includes_cons_ne.
  - intros b Hb. rewrite !elem_of_cons, (Hp b Hb). split; (intros [E|]; [|auto]).
    + by rewrite <- E, pair_of_th in Hplain.
    + by rewrite <- E, pair_of_en in Hplain.
  - intros k Hk'. rewrite elem_of_cons. destruct (Hk k Hk') as [|[->|]%elem_of_cons]; auto.
  - intros k. rewrite <- app_comm_cons, elem_of_cons. intros [->|Hin]; [done|]. apply Hs.
    rewrite elem_of_app, elem_of_cons in *. tauto.
Qed.

Lemma collapse_keys_written keys handled result : no_clash → loop_ok keys handled result →
  ∃ handled', loop_ok [] handled' (collapse_keys source collapsed keys handled result).
Proof.
  intros Hclash. revert handled result. induction keys as [|key keys IH]; intros handled result Hok; [by eexists|].
  cbn [collapse_keys]. destruct (includes handled key) eqn:Hin.
  { apply includes_true in Hin. by eapply IH, loop_skip. }
  apply includes_false in Hin.
  assert (key ∈ obj_keys source) as Hsrc by (apply (lo_source _ _ _ Hok); rewrite elem_of_app, elem_of_cons; auto).
  destruct (pair_of source key) as [[[base thKey] enKey]|] eqn:Hpair.
  - apply pair_of_Some in Hpair as (Hbase & -> & -> & Hkey); [|done]. by eapply IH, loop_pair.
  - by eapply IH, loop_plain.
Qed.
End collapse.

Lemma obj_get_map {A B} (f : A → B) k (o : list (string * A)) :
  obj_get k (List.map (λ kv, (kv.1, f kv.2)) o) = f <$> obj_get k o.
Proof. induction o as [|[k' a] o IH]; [done|]. cbn. by destruct (String.eqb k k'). Qed.

(** The fields of a collapsed object, in any order of its columns. *)
Lemma collapse_fields source : no_clash source →
  ∃ o, collapseLocalizedFields (JObj source) = JObj o ∧ ∀ k, obj_get k o =
    if is_pair source k then Some (localized source (k +:+ TH_SUFFIX) (k +:+ EN_SUFFIX))
    else match pair_of source k with
         | Some _ => None
         | None => collapseLocalizedFields <$> obj_get k source
         end.
Proof.
  intros Hclash. set (collapsed := List.map (λ kv, (kv.1, collapseLocalizedFields kv.2)) source).
  exists (collapse_keys source collapsed (obj_keys source) [] []). split; [done|]. intros k.
  destruct (collapse_keys_written source collapsed (obj_keys source) [] [] Hclash) as [handled [Hw Hp Hk Hs]].
  { split; [|by intros; split; intros ?%elem_of_nil|by right|done].
    intros k0. unfold written. by destruct (is_pair source k0). }
  rewrite Hw. unfold written. setoid_rewrite app_nil_r in Hs.
  assert (∀ k, k ∈ obj_keys source → k ∈ handled) as Hall
    by (intros k0 Hk0; by destruct (Hk k0 Hk0) as [|?%elem_of_nil]).
  destruct (is_pair source k) eqn:Hpair.
  - unfold is_pair in Hpair. rewrite andb_true_iff, !has_elem in Hpair.
    destruct Hpair. by rewrite (proj2 (includes_true _ _)) by (by apply Hall).
  - destruct (pair_of source k); [by rewrite andb_false_r|]. rewrite andb_true_r.
    unfold property, collapsed. rewrite obj_get_map.
    destruct (obj_get k source) as [v|] eqn:Ev.
    + rewrite (proj2 (includes_true _ _)); [done|]. apply Hall, has_elem. unfold has. by rewrite Ev.
    + rewrite (proj2 (includes_false _ _)); [done|]. intros Hin%Hs%has_elem. unfold has in Hin. by rewrite Ev in Hin.
Qed.

(** Objects none of whose columns form a pair are collapsed field by field. *)
Definition unpaired (o : list (string * jsv)) : bool :=
  forallb (λ k, match pair_of o k with None => true | Some _ => false end) (obj_keys o).
Lemma collapse_unpaired source : NoDup (obj_keys source) → unpaired source = true →
  collapseLocalizedFields (JObj source) = JObj (List.map (λ kv, (kv.1, collapseLocalizedFields kv.2)) source).
Proof.
  intros Hnd Hun. cbn [collapseLocalizedFields]. f_equal.
  set (collapsed := List.map (λ kv, (kv.1, collapseLocalizedFields kv.2)) source).
  assert (obj_keys collapsed = obj_keys source) as Hkeys.
  { unfold collapsed, obj_keys. clear. induction source as [|[k v] o IH]; [done|]. cbn. by f_equal. }
  assert (∀ pre post handled, collapsed = (pre ++ post)%list → (∀ k, k ∈ handled ↔ k ∈ obj_keys pre) →
    collapse_keys source collapsed (obj_keys post) handled pre = collapsed) as Hloop.
  { intros pre post. revert pre. induction post as [|[k v] post IH]; intros pre handled Heq Hh.
    { by rewrite Heq, app_nil_r. }
    pose proof Hnd as Hnd'. rewrite <- Hkeys, Heq in Hnd'. unfold obj_keys in Hnd'. rewrite fmap_app in Hnd'.
    apply NoDup_app in Hnd' as (_ & Hdisj & Hnd2). cbn in Hnd2. apply NoDup_cons in Hnd2 as [Hk Hnd2].
    assert (k ∉ obj_keys pre) as Hpre by (intros Hin; apply (Hdisj k Hin); by left).
    cbn. rewrite (proj2 (includes_false _ _)) by by rewrite Hh.
    assert (pair_of source k = None) as ->.
    { unfold unpaired in Hun. rewrite forallb_forall in Hun.
      assert (k ∈ obj_keys source) as Hin by (rewrite <- Hkeys, Heq; unfold obj_keys; rewrite fmap_app;
        apply elem_of_app; right; by left).
      specialize (Hun k (proj1 (list_elem_of_In _ _) Hin)). by destruct (pair_of source k). }
    assert (property k collapsed = v) as ->.
    { unfold property. rewrite Heq. erewrite obj_get_elem; [done| |].
      - by rewrite <- Heq, Hkeys.
      - apply elem_of_app. right. by left. }
    assert (obj_set k v pre = pre ++ [(k, v)])%list as ->.
    { clear -Hpre. induction pre as [|[k' v'] pre IH]; [done|]. cbn. unfold obj_keys in Hpre. cbn in Hpre.
      rewrite elem_of_cons in Hpre. destruct (String.eqb_spec k k'); [tauto|]. rewrite IH; tauto. }
    apply IH; [by rewrite Heq, <- app_assoc|]. intros k'. unfold obj_keys. rewrite fmap_app, elem_of_app, elem_of_cons.
    cbn. rewrite list_elem_of_singleton, Hh. unfold obj_keys. tauto. }
  rewrite <- Hkeys. by apply (Hloop [] collapsed []).
Qed.

(** *** The envelope and the localisation commute *)

Lemma obj_get_without k o : k ≠ "id" → obj_get k (attributesWithoutId o) = obj_get k o.
Proof.
  intros Hk. induction o as [|[k' v] o IH]; [done|]. cbn.
  destruct (String.eqb_spec k' "id") as [->|Hne]; cbn; [by rewrite (proj2 (String.eqb_neq k "id") Hk)|].
  by destruct (String.eqb k k').
Qed.
Lemma without_cons k v o : attributesWithoutId ((k, v) :: o) =
  if String.eqb k "id" then attributesWithoutId o else (k, v) :: attributesWithoutId o.
Proof. unfold attributesWithoutId. cbn. by destruct (String.eqb k "id"). Qed.
Lemma without_set k v o : attributesWithoutId (obj_set k v o) =
  if String.eqb k "id" then attributesWithoutId o else obj_set k v (attributesWithoutId o).
Proof.
  induction o as [|[k' v'] o IH]; cbn [obj_set].
  - rewrite without_cons. by destruct (String.eqb k "id").
  - destruct (String.eqb_spec k k') as [->|Hne]; rewrite !without_cons.
    + destruct (String.eqb_spec k' "id"); [done|]. cbn [obj_set]. by rewrite String.eqb_refl.
    + rewrite IH. destruct (String.eqb k "id"), (String.eqb k' "id"); try done. cbn [obj_set].
      by rewrite (proj2 (String.eqb_neq k k')).
Qed.
Lemma suffixed_ne_id base p : String.length p = 3 → base +:+ p ≠ "id".
Proof. intros Hp Heq. apply (f_equal String.length) in Heq. rewrite append_length, Hp in Heq. cbn in Heq. lia. Qed.
Lemma localized_without source base :
  localized (attributesWithoutId source) (base +:+ TH_SUFFIX) (base +:+ EN_SUFFIX)
  = localized source (base +:+ TH_SUFFIX) (base +:+ EN_SUFFIX).
Proof. unfold localized, property. by rewrite !obj_get_without by by apply suffixed_ne_id. Qed.
Lemma pair_of_without source key : key ≠ "id" → pair_of (attributesWithoutId source) key = pair_of source key.
Proof. intros Hk. unfold pair_of, has. by rewrite !obj_get_without by by apply suffixed_ne_id. Qed.
Lemma pair_of_id source : pair_of source "id" = None.
Proof. reflexivity. Qed.

Lemma collapse_keys_without source collapsed keys : is_pair source "id" = false →
  (∀ key, key ∈ keys → key ∈ obj_keys source) → ∀ handled handled' result,
  (∀ k, k ≠ "id" → k ∈ handled ↔ k ∈ handled') →
  attributesWithoutId (collapse_keys source collapsed keys handled result) =
  collapse_keys (attributesWithoutId source) (attributesWithoutId collapsed)
    (List.filter (λ k, negb (String.eqb k "id")) keys) handled' (attributesWithoutId result).
Proof.
  intros Hid. induction keys as [|key keys IH]; intros Hkeys handled handled' result Hh; [done|].
  assert (∀ key, key ∈ keys → key ∈ obj_keys source) as Hkeys' by (intros; apply Hkeys; by right).
  cbn. destruct (String.eqb_spec key "id") as [->|Hne]; cbn.
  - destruct (includes handled "id"); [by apply IH|]. 
    rewrite (IH Hkeys' _ handled'); [by rewrite without_set|].
    intros k Hk. rewrite elem_of_cons, Hh by done. split; [by intros [->|]|auto].
  - rewrite <- (includes_ext handled handled') by by apply Hh.
    destruct (includes handled key) eqn:Hin; [by apply IH|]. rewrite pair_of_without by done.
    destruct (pair_of source key) as [[[base thKey] enKey]|] eqn:Hpair.
    + apply pair_of_Some in Hpair as (Hbase & -> & -> & _); [|apply Hkeys; by left].
      rewrite (IH Hkeys' _ ((base +:+ TH_SUFFIX) :: (base +:+ EN_SUFFIX) :: handled')).
      * rewrite without_set. destruct (String.eqb_spec base "id") as [->|]; [by rewrite Hid in Hbase|].
        by rewrite localized_without.
      * intros k Hk. by rewrite !elem_of_cons, Hh.
    + rewrite (IH Hkeys' _ (key :: handled')).
      * rewrite without_set, (proj2 (String.eqb_neq key "id") Hne). unfold property.
        by rewrite obj_get_without.
      * intros k Hk. by rewrite !elem_of_cons, Hh.
Qed.

Lemma collapsed_without (o : list (string * jsv)) :
  attributesWithoutId (List.map (λ kv, (kv.1, collapseLocalizedFields kv.2)) o) =
  List.map (λ kv, (kv.1, collapseLocalizedFields kv.2)) (attributesWithoutId o).
Proof.
  induction o as [|[k v] o IH]; [done|]. cbn [List.map fst snd]. rewrite !without_cons, IH.
  by destruct (String.eqb k "id").
Qed.
Lemma keys_without (o : list (string * jsv)) :
  obj_keys (attributesWithoutId o) = List.filter (λ k, negb (String.eqb k "id")) (obj_keys o).
Proof.
  unfold obj_keys. induction o as [|[k v] o IH]; [done|]. rewrite without_cons. cbn.
  destruct (String.eqb k "id"); cbn; [done|by f_equal].
Qed.
Lemma collapse_without o : is_pair o "id" = false →
  collapseLocalizedFields (JObj (attributesWithoutId o)) =
  JObj (attributesWithoutId (members (collapseLocalizedFields (JObj o)))).
Proof.
  intros Hid. cbn [collapseLocalizedFields members]. f_equal.
  rewrite (collapse_keys_without o _ (obj_keys o) Hid (λ _ H, H) [] [] []) by done.
  by rewrite collapsed_without, keys_without.
Qed.

(** Localising the envelope is building the envelope of the localised object:
    the order of the two interceptors does not matter, although the one that
    localises is written for the value before it is wrapped. *)
Theorem localize_wrap_commute now type o baseUrl (Hclash : no_clash o) (Hid : is_pair o "id" = false) :
  collapseLocalizedFields (createSuccessResponse now type o baseUrl no_options) =
  createSuccessResponse now type (members (collapseLocalizedFields (JObj o))) baseUrl no_options.
Proof.
  destruct (collapse_fields o Hclash) as (o' & Ho' & Hfields). specialize (Hfields "id").
  rewrite Hid, pair_of_id in Hfields. pose proof (collapse_without o Hid) as Hattr. rewrite Ho' in *. cbn [members] in *.
  unfold createSuccessResponse, no_options, optional_field. cbn [o_id o_meta o_links o_status default app].
  assert (collapseLocalizedFields (property "id" o) = property "id" o') as Hpid
    by (unfold property; rewrite Hfields; by destruct (obj_get "id" o)).
  assert (∀ v, collapseLocalizedFields (JObj [("type", JStr type); ("id", v); ("attributes", JObj (attributesWithoutId o))])
    = JObj [("type", JStr type); ("id", collapseLocalizedFields v); ("attributes", JObj (attributesWithoutId o'))]) as Hres.
  { intros v. rewrite collapse_unpaired by first [reflexivity | by apply (bool_decide_unpack _); vm_compute].
    cbn [List.map fst snd]. by rewrite Hattr. }
  rewrite collapse_unpaired by first [reflexivity | by apply (bool_decide_unpack _); vm_compute].
  cbn [List.map fst snd]. by rewrite Hres, Hpid.
Qed.

(** The same for a created object, and for the resources of a collection. *)
Lemma localize_created now type o location baseUrl (Hclash : no_clash o) (Hid : is_pair o "id" = false) :
  collapseLocalizedFields (createCreatedResponse now type o location baseUrl no_options) =
  createCreatedResponse now type (members (collapseLocalizedFields (JObj o))) location baseUrl no_options.
Proof.
  destruct (collapse_fields o Hclash) as (o' & Ho' & Hfields). specialize (Hfields "id").
  rewrite Hid, pair_of_id in Hfields. pose proof (collapse_without o Hid) as Hattr. rewrite Ho' in *. cbn [members] in *.
  unfold createCreatedResponse, createSuccessResponse, no_options, optional_field.
  cbn [o_id o_meta o_links o_status default app].
  assert (collapseLocalizedFields (property "id" o) = property "id" o') as Hpid
    by (unfold property; rewrite Hfields; by destruct (obj_get "id" o)).
  set (links := JObj (obj_spread [("self", JStr location)] (default [] None))).
  assert (collapseLocalizedFields links = links) as Hlinks by reflexivity.
  assert (∀ v, collapseLocalizedFields (JObj [("type", JStr type); ("id", v); ("attributes", JObj (attributesWithoutId o));
      ("links", links)])
    = JObj [("type", JStr type); ("id", collapseLocalizedFields v); ("attributes", JObj (attributesWithoutId o'));
        ("links", links)]) as Hres.
  { intros v. rewrite collapse_unpaired by first [reflexivity | by apply (bool_decide_unpack _); vm_compute].
    cbn [List.map fst snd]. by rewrite Hattr, Hlinks. }
  rewrite collapse_unpaired by first [reflexivity | by apply (bool_decide_unpack _); vm_compute].
  cbn [List.map fst snd]. by rewrite Hres, Hpid.
Qed.
Lemma localize_resource type i o k (Hclash : no_clash o) (Hid : is_pair o "id" = false)
    (Hk : property "id" o = JStr k) (Hne : k ≠ "") :
  collapseLocalizedFields (collection_resource type None i (JObj o)) =
  collection_resource type None i (collapseLocalizedFields (JObj o)) ∧
  property "id" (members (collapseLocalizedFields (JObj o))) = JStr k.
Proof.
  destruct (collapse_fields o Hclash) as (o' & Ho' & Hfields). specialize (Hfields "id").
  rewrite Hid, pair_of_id in Hfields. pose proof (collapse_without o Hid) as Hattr. rewrite Ho' in *. cbn [members] in *.
  assert (property "id" o' = JStr k) as Hpid.
  { unfold property in *. rewrite Hfields. destruct (obj_get "id" o) as [v|]; cbn in *; [by subst v|done]. }
  split; [|done]. unfold collection_resource. cbn [members]. rewrite Hk, Hpid.
  destruct k as [|c k]; [done|]. cbn [is_truthy js_String].
  rewrite collapse_unpaired by first [reflexivity | by apply (bool_decide_unpack _); vm_compute].
  cbn [List.map fst snd]. by rewrite Hattr.
Qed.
Lemma collapse_keys_nodup source collapsed keys handled result :
  NoDup (obj_keys result) → NoDup (obj_keys (collapse_keys source collapsed keys handled result)).
Proof.
  revert handled result. induction keys as [|key keys IH]; intros handled result Hr; [done|]. cbn [collapse_keys].
  destruct (includes handled key); [by apply IH|].
  destruct (pair_of source key) as [[[base thKey] enKey]|]; apply IH; by apply obj_set_keys.
Qed.
Lemma collapsed_nodup o : NoDup (obj_keys (members (collapseLocalizedFields (JObj o)))).
Proof. cbn [collapseLocalizedFields members]. apply collapse_keys_nodup. constructor. Qed.
(** Keys without a language suffix form no pair. *)
Lemma unsuffixed_unpaired o :
  (∀ k, k ∈ obj_keys o → endsWith k TH_SUFFIX = false ∧ endsWith k EN_SUFFIX = false) → unpaired o = true.
Proof.
  intros Hk. unfold unpaired. apply forallb_forall. intros k Hin%list_elem_of_In.
  destruct (Hk k Hin) as [Hth Hen]. unfold pair_of. by rewrite Hth, Hen.
Qed.

(** *** Page links *)

(** The query of a link: what follows its first question mark. *)
Definition link_query (link : string) : option string := snd <$> find_sub "?" link.

Lemma next_link base ne p : (pi_page p < pi_total_pages p)%Z →
  obj_get "next" (page_links base ne p) = Some (JStr (page_link base (pi_page p + 1) (pi_page_size p))).
Proof.
  intros Hp%Z.ltb_lt. unfold page_links. rewrite Hp. by destruct ne; destruct (1 <? pi_page p)%Z.
Qed.

Definition page_query (n limit : Z) : string := "page=" +:+ string_of_Z n +:+ "&limit=" +:+ string_of_Z limit.

(** The query of the next link is the one of the next page only when the request
    has no query: otherwise the query of the request comes first, so that a
    client that follows the links of [?page=1&limit=10] asks for page 1 again. *)
Theorem next_link_query request prefix query p ne (Hpage : (pi_page p < pi_total_pages p)%Z)
    (Hprefix : str_includes prefix "?" = false)
    (Hurl : base_url request = prefix +:+ match query with Some q => "?" +:+ q | None => "" end) :
  ∃ link, obj_get "next" (page_links (base_url request) ne p) = Some (JStr link) ∧
    link_query link = Some (match query with Some q => q +:+ "?" | None => "" end +:+
                            page_query (pi_page p + 1) (pi_page_size p)).
Proof.
  eexists. split; [by apply next_link|]. unfold link_query, page_link. fold (page_query (pi_page p + 1) (pi_page_size p)).
  change ("?page=" +:+ ?x) with ("?" +:+ "page=" +:+ x). rewrite Hurl, append_assoc.
  destruct query as [q|].
  - rewrite !append_assoc. by rewrite (find_sub_first "?" "" prefix).
  - rewrite !append_nil_l. by rewrite (find_sub_first "?" "" prefix).
Qed.

(** ** Witnesses *)

Definition sample_item : list (string * jsv) :=
  [("id", JStr "1"); ("name_th", JStr "โกดัง"); ("name_en", JStr "Warehouse"); ("code", JStr "W1")].
Lemma localize_wrap_commute_witness :
  collapseLocalizedFields (createSuccessResponse "now" "warehouses" sample_item "http://h/w/1" no_options) =
  createSuccessResponse "now" "warehouses"
    [("id", JStr "1"); ("name", JObj [("th", JStr "โกดัง"); ("en", JStr "Warehouse")]); ("code", JStr "W1")]
    "http://h/w/1" no_options.
Proof.
  refine (localize_wrap_commute "now" "warehouses" sample_item "http://h/w/1" _ eq_refl).
  intros base Hpair Hin. repeat (apply elem_of_cons in Hin as [->|Hin]; [by vm_compute in Hpair|]).
  by apply elem_of_nil in Hin.
Defined.

Definition page_request : http_target := Target (Some "http") (Some "h") (Some "/users?page=1&limit=10").
Lemma next_link_query_witness :
  ∃ link, obj_get "next" (page_links (base_url page_request) true (PageInfo 1 10 30 30 3)) = Some (JStr link) ∧
    link_query link = Some "page=1&limit=10?page=2&limit=10".
Proof.
  exact (next_link_query page_request "http://h/users" (Some "page=1&limit=10") (PageInfo 1 10 30 30 3) true
    ltac:(cbn; lia) eq_refl eq_refl).
Defined.
