(* ===== verification/Policies.v ===== *)
(** * Policies and their statements

    [PoliciesService] (src/apps/iam/src/modules/policies/services): the guarded
    deletion, the replacement of a policy's statements in one transaction, and
    the tree of statements the policy editor reads.  Also the deletion guard of
    [RolesService] and the ids read back by [RolesService] and [UsersService].

    The tables are those of the resolver, so that what a replacement grants can
    be stated with the resolver's own meaning of statements.  The ids the
    database generates come with the request; columns the resolver does not read
    (who created a row) are left out of the rows. *)

From S2P Require Import Prelude JsString Repo DbErrors PermissionResolver SessionStore SessionSync.
#[local] Open Scope string_scope.

(** ** The request *)

Record condition_input := ConditionInput { ci_operator : string; ci_key : string; ci_value : string }.
(** [PolicyStatementInputDTO]; [conditions] is optional.  [si_id] and [si_child]
    are the ids of the new statement and of the rows that belong to it. *)
Record statement_input := StatementInput {
  si_id : string;
  si_child : nat → string;
  si_effect : effect;
  si_plane : string;
  si_service : list string;
  si_resource : list string;
  si_permission_ids : list string;
  si_conditions : option (list condition_input);
}.

Record IExpandedStatement := Expanded {
  x_id : string;
  x_effect : effect;
  x_plane : string;
  x_targets : list (string * string);
  x_permissions : list string;
  x_conditions : list condition_input;
}.

(** [service.flatMap((service) => resource.map((resource) => ...))] *)
Definition target_pairs (i : statement_input) : list (string * string) :=
  flat_map (λ service, List.map (pair service) (si_resource i)) (si_service i).

Definition new_statement (policyId : string) (i : statement_input) : statement :=
  Statement (si_id i) policyId (si_effect i) (si_plane i) None.
Definition new_targets (i : statement_input) : list target :=
  imap (λ n p, Target (si_child i n) (si_id i) p.1 p.2 None) (target_pairs i).
Definition new_actions (i : statement_input) : list action :=
  imap (λ n permissionId, Action (si_child i n) (si_id i) permissionId None) (si_permission_ids i).
Definition new_conditions (i : statement_input) : list condition :=
  imap (λ n c, Condition (si_child i n) (si_id i) (ci_operator c) (ci_key c) (ci_value c) None)
    (default [] (si_conditions i)).

Definition NO_LENGTH : exn := PlainError "Cannot read properties of undefined (reading 'length')".

Section service.
Context {T : Type → Type} `{Database T} {S V : Type} `{Redis S V} `{!Json ISessionData V}.
Context (fk_error : string → driver_error).
Implicit Types (db : iam_db T) (s : S).

Definition save_new {R} (rs : list R) (t : T R) : T R := foldl (λ t r, db_insert r t) t rs.

Definition with_statements db (st : T statement) (tg : T target) (ac : T action) (co : T condition) : iam_db T :=
  IamDb (users db) (roles db) (users_roles db) (roles_policies db) (policies db) st tg ac co (permissions db).

(** [statementRepo.delete({ policy_id })] with the cascades of its foreign keys. *)
Definition delete_statements (policyId : string) db : iam_db T :=
  let ids := List.map pk (db_select (λ st, String.eqb (policy_id st) policyId) (statements db)) in
  with_statements db
    (db_delete (λ st, String.eqb (policy_id st) policyId) (statements db)).1
    (db_delete (λ t, includes ids (target_statement t)) (targets db)).1
    (db_delete (λ a, includes ids (action_statement a)) (actions db)).1
    (db_delete (λ c, includes ids (condition_statement c)) (conditions db)).1.

Definition add_statement (policyId : string) db (i : statement_input) : result (iam_db T) :=
  let! _ := check_references fk_error (policies db) [policyId] in
  let! _ := check_references fk_error (permissions db) (si_permission_ids i) in
  match si_conditions i with
  | None => Throw NO_LENGTH
  | Some _ =>
      Ok (with_statements db (db_insert (new_statement policyId i) (statements db))
            (save_new (new_targets i) (targets db)) (save_new (new_actions i) (actions db))
            (save_new (new_conditions i) (conditions db)))
  end.

Definition setStatements (today policyId : string) (inputs : list statement_input) (f : string → push) db s :
    result (iam_db T * S) :=
  let! db' := ExecuteDb.executeDbOperation "policies"
    (res_fold (add_statement policyId) (delete_statements policyId db) inputs) in
  let '(synced, s') := syncUsersByPolicy (V := V) f db' today policyId s in
  let! _ := synced in
  Ok (db', s').

(** The permissions of a statement's actions, joined with the catalog. *)
Definition action_names db (a : action) : list string :=
  List.map permission_string (repo_find (λ p, String.eqb (pk p) (permission_id a)) (permissions db)).
Definition expand_statement db (st : statement) : IExpandedStatement :=
  Expanded (pk st) (statement_effect st) (statement_plane st)
    (List.map (λ t, (target_service t, target_resource t))
       (repo_find (λ t, String.eqb (target_statement t) (pk st)) (targets db)))
    (flat_map (action_names db) (repo_find (λ a, String.eqb (action_statement a) (pk st)) (actions db)))
    (List.map (λ c, ConditionInput (operator c) (condition_key c) (condition_value c))
       (repo_find (λ c, String.eqb (condition_statement c) (pk st)) (conditions db))).
Definition getStatements db (policyId : string) : list IExpandedStatement :=
  List.map (expand_statement db) (repo_find (λ st, String.eqb (policy_id st) policyId) (statements db)).

(** *** Guarded deletions

    [delete_row] is the generic deletion of the base service. *)
Definition deletePolicy {A} (policyId : string) db (delete_row : result A) : result A :=
  let attachedRoleCount := length (List.filter (λ l, String.eqb l.2 policyId) (roles_policies db)) in
  if (0 <? attachedRoleCount)%nat
  then Throw (ConflictException "ไม่สามารถลบนโยบายนี้ได้ เนื่องจากมีบทบาท (Role) ผูกใช้งานอยู่ กรุณายกเลิกการผูกกับบทบาทก่อน") else delete_row.
Definition deleteRole {A} (roleId : string) db (delete_row : result A) : result A :=
  let attachedUserCount := length (List.filter (λ l, String.eqb l.2 roleId) (users_roles db)) in
  if (0 <? attachedUserCount)%nat
  then Throw (ConflictException "ไม่สามารถลบบทบาทนี้ได้ เนื่องจากมีผู้ใช้งานผูกใช้งานอยู่ กรุณายกเลิกการผูกกับผู้ใช้งานก่อน") else delete_row.

Definition role_findPolicyIds db (roleId : string) : list string :=
  match repo_findById roleId (roles db) with
  | Some role => List.map pk (role_policies db role)
  | None => []
  end.
Definition user_findRoleIds db (userId : string) : list string :=
  match repo_findById userId (users db) with
  | Some user => List.map pk (user_roles db user)
  | None => []
  end.
End service.

(** ** The tables after a replacement *)

(** Rows made for a list of requests, found again by the request's key. *)
Lemma filter_own {A B} (g : A → list B) (key : A → string) (k : B → string) l i :
  NoDup (key <$> l) → (∀ j x, x ∈ g j → k x = key j) → i ∈ l →
  List.filter (λ x, String.eqb (k x) (key i)) (flat_map g l) = g i.
Proof.
  intros Hnd Hkey Hi.
  assert (∀ j, key j = key i → List.filter (λ x, String.eqb (k x) (key i)) (g j) = g j) as Hsame.
  { intros j Hj. apply List_filter_all. intros x Hx. apply String.eqb_eq. by rewrite (Hkey j). }
  assert (∀ j, key j ≠ key i → List.filter (λ x, String.eqb (k x) (key i)) (g j) = []) as Hother.
  { intros j Hj. apply List_filter_none. intros x Hx. apply String.eqb_neq. by rewrite (Hkey j). }
  induction l as [|j l IH]; [by apply elem_of_nil in Hi|]. cbn. rewrite List.filter_app.
  inversion Hnd as [|? ? Hj Hl]; subst. apply elem_of_cons in Hi as [->|Hi].
  - rewrite Hsame by done. enough (List.filter (λ x, String.eqb (k x) (key j)) (flat_map g l) = []) as ->
      by apply app_nil_r.
    apply List_filter_none. intros x Hx%elem_of_flat_map. destruct Hx as (j' & Hj' & Hx).
    apply String.eqb_neq. rewrite (Hkey j') by done. intros Heq. destruct Hj. rewrite <- Heq.
    by apply (list_elem_of_fmap_2 key).
  - rewrite IH by done. rewrite Hother; [done|]. intros Heq. destruct Hj. rewrite Heq.
    by apply (list_elem_of_fmap_2 key).
Qed.

Lemma map_imap {A B C} (f : B → C) (g : nat → A → B) (h : A → C) l :
  (∀ n x, f (g n x) = h x) → List.map f (imap g l) = List.map h l.
Proof.
  revert g. induction l as [|a l IH]; intros g Hf; [done|]. rewrite imap_cons. cbn. rewrite Hf. f_equal.
  apply IH. intros n x. apply Hf.
Qed.

Lemma flat_map_singletons {A B} (f : A → B) l : flat_map (λ x, [f x]) l = List.map f l.
Proof. induction l as [|x l IH]; [done|]. cbn. by rewrite IH. Qed.

(** Statements up to the order the database returns their parts in. *)
Record same_statement (x y : IExpandedStatement) : Prop := {
  same_id : x_id x = x_id y;
  same_effect : x_effect x = x_effect y;
  same_plane : x_plane x = x_plane y;
  same_targets : x_targets x ≡ₚ x_targets y;
  same_permissions : x_permissions x ≡ₚ x_permissions y;
  same_conditions : x_conditions x ≡ₚ x_conditions y;
}.
Definition same_listing (l l' : list IExpandedStatement) : Prop :=
  ∃ l1, l ≡ₚ l1 ∧ Forall2 same_statement l1 l'.

Lemma same_listing_map {A B} (f : A → IExpandedStatement) (g : B → IExpandedStatement) (e : B → A) l l' :
  l ≡ₚ List.map e l' → Forall (λ b, same_statement (f (e b)) (g b)) l' →
  same_listing (List.map f l) (List.map g l').
Proof.
  intros Hl Hall. exists (List.map f (List.map e l')). split; [by rewrite Hl|].
  change (Forall2 same_statement (f <$> (e <$> l')) (g <$> l')).
  apply Forall2_fmap_l, Forall2_fmap_l, Forall2_fmap_r. by apply Forall_Forall2_diag.
Qed.

Section replacement.
Context {T : Type → Type} `{DatabaseLaws T} {S V : Type} `{Redis S V} `{!Json ISessionData V}.
Context (fk_error : string → driver_error).
Implicit Types (db : iam_db T) (s : S) (i : statement_input) (inputs : list statement_input).

Lemma save_new_rows {R} (rs : list R) (t : T R) : rows (save_new rs t) ≡ₚ rows t ++ rs.
Proof.
  revert t. induction rs as [|r rs IH]; intros t; [by rewrite app_nil_r|].
  change (save_new (r :: rs) t) with (save_new rs (db_insert r t)). rewrite IH, insert_rows. cbn. by apply Permutation_middle.
Qed.

(** The rows of [db'] are those of [db] and the rows of the requests. *)
Record inserted (policyId : string) (inputs : list statement_input) db db' : Prop := {
  ins_statements : rows (statements db') ≡ₚ rows (statements db) ++ List.map (new_statement policyId) inputs;
  ins_targets : rows (targets db') ≡ₚ rows (targets db) ++ flat_map new_targets inputs;
  ins_actions : rows (actions db') ≡ₚ rows (actions db) ++ flat_map new_actions inputs;
  ins_conditions : rows (conditions db') ≡ₚ rows (conditions db) ++ flat_map new_conditions inputs;
  ins_policies : policies db' = policies db;
  ins_permissions : permissions db' = permissions db;
}.

Lemma check_references_Ok {R} `{Entity R} (t : T R) ids :
  check_references fk_error t ids = Ok () ↔ ∀ k, k ∈ ids → k ∈ pk <$> rows t.
Proof.
  unfold check_references. split.
  - destruct (List.filter _ ids) eqn:E; [|done]. intros _ k Hk.
    destruct (existsb (has_pk k) (rows t)) eqn:Hex.
    + apply existsb_true in Hex as (r & Hr & <-%has_pk_true). by apply list_elem_of_fmap_2.
    + assert (k ∈ List.filter (λ x, negb (existsb (has_pk x) (rows t))) ids) as Hin
        by (apply elem_of_List_filter; by rewrite Hex). rewrite E in Hin. by apply elem_of_nil in Hin.
  - intros Hall. rewrite List_filter_none; [done|]. intros k (r & -> & Hr)%Hall%list_elem_of_fmap.
    apply negb_false_iff, existsb_true. exists r. split; [done|]. by apply has_pk_true.
Qed.

(** What a request must satisfy to be accepted. *)
Definition acceptable policyId db i : Prop :=
  policyId ∈ pk <$> rows (policies db) ∧ (∀ k, k ∈ si_permission_ids i → k ∈ pk <$> rows (permissions db)) ∧
  is_Some (si_conditions i).

Lemma add_statement_inserted policyId db i db' :
  add_statement fk_error policyId db i = Ok db' ↔
  acceptable policyId db i ∧
  db' = with_statements db (db_insert (new_statement policyId i) (statements db))
          (save_new (new_targets i) (targets db)) (save_new (new_actions i) (actions db))
          (save_new (new_conditions i) (conditions db)).
Proof.
  unfold add_statement, acceptable. split.
  - destruct (check_references _ (policies db) _) as [[]|] eqn:Hp; cbn; [|done].
    destruct (check_references _ (permissions db) _) as [[]|] eqn:Hq; cbn; [|done].
    destruct (si_conditions i); cbn; [|done]. intros [= <-].
    split_and!; [|exact (proj1 (check_references_Ok (permissions db) _) Hq)|by eexists|done].
    apply (proj1 (check_references_Ok (policies db) [policyId]) Hp). by left.
  - intros ((Hp & Hq & [cs Hc]) & ->). rewrite (proj2 (check_references_Ok (policies db) [policyId])).
    2: { by intros k ->%list_elem_of_singleton. }
    cbn [res_bind]. rewrite (proj2 (check_references_Ok (permissions db) _) Hq). cbn [res_bind]. by rewrite Hc.
Qed.

Lemma add_statements_inserted policyId inputs db db' :
  res_fold (add_statement fk_error policyId) db inputs = Ok db' → inserted policyId inputs db db'.
Proof.
  revert db. induction inputs as [|i inputs IH]; intros db; cbn [res_fold].
  { intros [= <-]. by split; cbn; rewrite ?app_nil_r. }
  destruct (add_statement _ _ _ _) as [db1|] eqn:E; cbn [res_bind]; [|done].
  apply add_statement_inserted in E as [_ ->]. intros [Hs Ht Ha Hc Hp Hq]%IH. cbn in *.
  split; cbn; try done.
  - rewrite Hs, insert_rows. cbn. by apply Permutation_middle.
  - by rewrite Ht, save_new_rows, <- app_assoc.
  - by rewrite Ha, save_new_rows, <- app_assoc.
  - by rewrite Hc, save_new_rows, <- app_assoc.
Qed.
Lemma add_statements_Ok policyId inputs db :
  (∃ db', res_fold (add_statement fk_error policyId) db inputs = Ok db') ↔ Forall (acceptable policyId db) inputs.
Proof.
  revert db. induction inputs as [|i inputs IH]; intros db; cbn [res_fold]; [split; [by constructor|by eexists]|].
  rewrite Forall_cons. split.
  - intros (db' & Hdb'). destruct (add_statement _ _ _ _) as [db1|] eqn:E; cbn [res_bind] in Hdb'; [|done].
    apply add_statement_inserted in E as [Hi ->]. split; [done|]. exact (proj1 (IH _) (ex_intro _ _ Hdb')).
  - intros [Hi Hl]. rewrite (proj2 (add_statement_inserted policyId db i _) (conj Hi eq_refl)). cbn [res_bind].
    by apply IH.
Qed.

(** What the primary and foreign keys of the statement tables guarantee. *)
Record keys_valid db : Prop := {
  kv_statements : NoDup (pk <$> rows (statements db));
  kv_targets t : t ∈ rows (targets db) → target_statement t ∈ pk <$> rows (statements db);
  kv_actions a : a ∈ rows (actions db) → action_statement a ∈ pk <$> rows (statements db);
  kv_conditions c : c ∈ rows (conditions db) → condition_statement c ∈ pk <$> rows (statements db);
}.
(** The generated ids of the new statements are new. *)
Definition fresh_ids inputs db : Prop :=
  NoDup (si_id <$> inputs) ∧ ∀ i, i ∈ inputs → si_id i ∉ pk <$> rows (statements db).

(** Rows made for the requests, of a table whose other rows belong elsewhere. *)
Lemma own_children {R} `{Entity R} (t t' : T R) (q : R → bool) (g : statement_input → list R) (k : R → string)
    inputs i :
  rows t' ≡ₚ List.filter q (rows t) ++ flat_map g inputs → NoDup (si_id <$> inputs) →
  (∀ x, x ∈ rows t → k x ≠ si_id i) → (∀ j x, x ∈ g j → k x = si_id j ∧ deleted_at x = None) →
  i ∈ inputs → repo_find (λ x, String.eqb (k x) (si_id i)) t' ≡ₚ g i.
Proof.
  intros Hrows Hnd Hold Hg Hi. unfold repo_find. rewrite select_rows, Hrows, List.filter_app, List_filter_none.
  2: { intros x [Hx _]%elem_of_List_filter. apply andb_false_intro1, String.eqb_neq. by apply Hold. }
  cbn [app]. trans (List.filter (λ x, String.eqb (k x) (si_id i)) (flat_map g inputs)).
  2: { by rewrite (filter_own g si_id k inputs i Hnd (λ j x Hx, proj1 (Hg j x Hx)) Hi). }
  erewrite List.filter_ext_in; [done|]. cbn. intros x Hx%list_elem_of_In%elem_of_flat_map.
  destruct Hx as (j & _ & [_ Hd]%Hg). unfold not_deleted. rewrite Hd. by rewrite andb_true_r.
Qed.
(** Rows of a statement that is neither deleted nor new. *)
Lemma other_children {R} `{Entity R} (t t' : T R) (q : R → bool) (g : statement_input → list R) (k : R → string)
    inputs key :
  rows t' ≡ₚ List.filter q (rows t) ++ flat_map g inputs →
  (∀ x, k x = key → q x = true) → (∀ j x, j ∈ inputs → x ∈ g j → k x ≠ key) →
  repo_find (λ x, String.eqb (k x) key) t' ≡ₚ repo_find (λ x, String.eqb (k x) key) t.
Proof.
  intros Hrows Hq Hg. unfold repo_find. rewrite !select_rows, Hrows, List.filter_app.
  rewrite (List_filter_none _ (flat_map g inputs)), app_nil_r.
  2: { intros x (j & Hj & Hx)%elem_of_flat_map. apply andb_false_intro1, String.eqb_neq. by eapply Hg. }
  clear Hrows. induction (rows t) as [|x l IH]; [done|]. cbn. destruct (q x) eqn:E; cbn.
  - destruct (String.eqb (k x) key && not_deleted x); [by apply perm_skip|done].
  - destruct (String.eqb_spec (k x) key) as [Hk|]; [by rewrite Hq in E|done].
Qed.

Definition statement_ids policyId db : list string :=
  List.map pk (db_select (λ st, String.eqb (policy_id st) policyId) (statements db)).

(** The tables after a replacement. *)
Record replaced (policyId : string) inputs db db' : Prop := {
  rep_statements : rows (statements db') ≡ₚ
    List.filter (λ st, negb (String.eqb (policy_id st) policyId)) (rows (statements db)) ++ List.map (new_statement policyId) inputs;
  rep_targets : rows (targets db') ≡ₚ
    List.filter (λ t, negb (includes (statement_ids policyId db) (target_statement t))) (rows (targets db)) ++ flat_map new_targets inputs;
  rep_actions : rows (actions db') ≡ₚ
    List.filter (λ a, negb (includes (statement_ids policyId db) (action_statement a))) (rows (actions db)) ++ flat_map new_actions inputs;
  rep_conditions : rows (conditions db') ≡ₚ
    List.filter (λ c, negb (includes (statement_ids policyId db) (condition_statement c))) (rows (conditions db)) ++ flat_map new_conditions inputs;
  rep_policies : policies db' = policies db;
  rep_permissions : permissions db' = permissions db;
}.

Lemma setStatements_replaced today policyId inputs f db s db' s' :
  setStatements (V := V) fk_error today policyId inputs f db s = Ok (db', s') → replaced policyId inputs db db'.
Proof.
  unfold setStatements, ExecuteDb.executeDbOperation.
  destruct (res_fold _ _ _) as [db1|] eqn:E; cbn; [|done].
  destruct (syncUsersByPolicy_answers (S := S) f db1 today policyId s) as [l Hl].
  destruct (syncUsersByPolicy f db1 today policyId s) as [synced s1]. cbn in Hl. subst synced.
  cbn [res_bind]. intros [= <- _]. apply add_statements_inserted in E as [Hs Ht Ha Hc Hp Hq]. cbn in *.
  split; [rewrite Hs|rewrite Ht|rewrite Ha|rewrite Hc|done|done]; by rewrite delete_rows.
Qed.

Lemma new_targets_own i t : t ∈ new_targets i → target_statement t = si_id i ∧ deleted_at t = None.
Proof. by intros (n & p & -> & _)%elem_of_lookup_imap. Qed.
Lemma new_actions_own i a : a ∈ new_actions i → action_statement a = si_id i ∧ deleted_at a = None.
Proof. by intros (n & p & -> & _)%elem_of_lookup_imap. Qed.
Lemma new_conditions_own i c : c ∈ new_conditions i → condition_statement c = si_id i ∧ deleted_at c = None.
Proof. by intros (n & p & -> & _)%elem_of_lookup_imap. Qed.

Lemma new_statement_pks policyId inputs : pk <$> List.map (new_statement policyId) inputs = si_id <$> inputs.
Proof. change (List.map ?f ?l) with (f <$> l). by rewrite <- list_fmap_compose. Qed.
Lemma statement_of_policy policyId db st : keys_valid db → st ∈ rows (statements db) →
  pk st ∈ statement_ids policyId db ↔ policy_id st = policyId.
Proof.
  intros Hk Hst. unfold statement_ids. rewrite select_rows, elem_of_List_map. split.
  - intros (st' & [Hin Hp%String.eqb_eq]%elem_of_List_filter & Hpk).
    by rewrite (NoDup_fmap_elem_inj pk (rows (statements db)) st st' (kv_statements db Hk) Hst Hin Hpk).
  - intros <-. exists st. split; [|done]. apply elem_of_List_filter. by rewrite String.eqb_refl.
Qed.

(** A child row survives only if its statement does. *)
Lemma children_ok {R} policyId inputs db db' (t t' : T R) (k : R → string) (g : statement_input → list R) x :
  replaced policyId inputs db db' → keys_valid db → (∀ y, y ∈ rows t → k y ∈ pk <$> rows (statements db)) →
  (∀ j y, y ∈ g j → k y = si_id j) →
  rows t' ≡ₚ List.filter (λ y, negb (includes (statement_ids policyId db) (k y))) (rows t) ++ flat_map g inputs →
  x ∈ rows t' → k x ∈ pk <$> rows (statements db').
Proof.
  intros Hrep Hk Hold Hnew ->. rewrite (rep_statements _ _ _ _ Hrep), fmap_app.
  intros [[Hx Hn%negb_true_iff%includes_false]%elem_of_List_filter|(i & Hi & Hx)%elem_of_flat_map]%elem_of_app.
  - apply elem_of_app. left. apply Hold in Hx as (st & Hpk & Hst)%list_elem_of_fmap. rewrite Hpk in Hn |- *. apply list_elem_of_fmap_2.
    apply elem_of_List_filter. split; [done|]. apply negb_true_iff, String.eqb_neq. intros Hp. apply Hn.
    by apply statement_of_policy.
  - apply elem_of_app. right. rewrite (Hnew i x Hx), new_statement_pks. by apply list_elem_of_fmap_2.
Qed.

(** The keys of the four tables stay consistent. *)
Lemma replaced_keys_valid policyId inputs db db' :
  replaced policyId inputs db db' → keys_valid db → fresh_ids inputs db → keys_valid db'.
Proof.
  intros Hrep Hk [Hnd Hfresh]. split.
  - rewrite (rep_statements _ _ _ _ Hrep), fmap_app, new_statement_pks. apply NoDup_app. split_and!; [| |done].
    + apply NoDup_pk_filter, Hk.
    + intros x (st & -> & [Hst _]%elem_of_List_filter)%list_elem_of_fmap (i & Heq & Hi)%list_elem_of_fmap.
      apply (Hfresh i Hi). rewrite <- Heq. by apply list_elem_of_fmap_2.
  - intros t. apply (children_ok policyId inputs db db' (targets db) (targets db') target_statement new_targets); try done.
    + apply Hk. + by intros j y [? _]%new_targets_own. + apply Hrep.
  - intros a. apply (children_ok policyId inputs db db' (actions db) (actions db') action_statement new_actions); try done.
    + apply Hk. + by intros j y [? _]%new_actions_own. + apply Hrep.
  - intros c. apply (children_ok policyId inputs db db' (conditions db) (conditions db') condition_statement new_conditions); try done.
    + apply Hk. + by intros j y [? _]%new_conditions_own. + apply Hrep.
Qed.

(** What the editor reads back of a request. *)
Definition written db i : IExpandedStatement :=
  Expanded (si_id i) (si_effect i) (si_plane i) (target_pairs i)
    (flat_map (λ k, List.map permission_string (repo_find (λ p, String.eqb (pk p) k) (permissions db))) (si_permission_ids i))
    (default [] (si_conditions i)).

Lemma not_in_fresh inputs db i k :
  fresh_ids inputs db → i ∈ inputs → k ∈ pk <$> rows (statements db) → k ≠ si_id i.
Proof. intros [_ Hf] Hi Hk ->. by apply (Hf i). Qed.

Lemma expand_new policyId inputs db db' i :
  replaced policyId inputs db db' → keys_valid db → fresh_ids inputs db → i ∈ inputs →
  same_statement (expand_statement db' (new_statement policyId i)) (written db i).
Proof.
  intros Hrep Hk Hf Hi. pose proof (λ k, not_in_fresh inputs db i k Hf Hi) as Hnot.
  unfold expand_statement, written. split; cbn; [done..| | |].
  - rewrite (own_children (targets db) (targets db') _ new_targets target_statement inputs i (rep_targets _ _ _ _ Hrep)
      (proj1 Hf) (λ x Hx, Hnot _ (kv_targets db Hk x Hx)) new_targets_own Hi).
    unfold new_targets. rewrite (map_imap _ _ id), List.map_id; [done|by intros n []].
  - rewrite (own_children (actions db) (actions db') _ new_actions action_statement inputs i (rep_actions _ _ _ _ Hrep)
      (proj1 Hf) (λ x Hx, Hnot _ (kv_actions db Hk x Hx)) new_actions_own Hi).
    unfold action_names. rewrite (rep_permissions _ _ _ _ Hrep), !List.flat_map_concat_map. unfold new_actions.
    by erewrite (map_imap _ _ (λ k, List.map permission_string (repo_find (λ p, String.eqb (pk p) k) (permissions db)))).
  - rewrite (own_children (conditions db) (conditions db') _ new_conditions condition_statement inputs i (rep_conditions _ _ _ _ Hrep)
      (proj1 Hf) (λ x Hx, Hnot _ (kv_conditions db Hk x Hx)) new_conditions_own Hi).
    unfold new_conditions. rewrite (map_imap _ _ id), List.map_id; [done|by intros n []].
Qed.

Lemma selected_new policyId inputs db db' :
  replaced policyId inputs db db' →
  repo_find (λ st, String.eqb (policy_id st) policyId) (statements db') ≡ₚ List.map (new_statement policyId) inputs.
Proof.
  intros Hrep. unfold repo_find. rewrite select_rows, (rep_statements _ _ _ _ Hrep), List.filter_app.
  rewrite List_filter_none, List_filter_all; [done| |].
  - intros st (i & _ & ->)%elem_of_List_map. cbn. by rewrite String.eqb_refl.
  - intros st [_ Hn]%elem_of_List_filter. by apply negb_true_iff in Hn as ->.
Qed.
Lemma selected_other policyId inputs db db' other :
  replaced policyId inputs db db' → other ≠ policyId →
  repo_find (λ st, String.eqb (policy_id st) other) (statements db') ≡ₚ
    repo_find (λ st, String.eqb (policy_id st) other) (statements db).
Proof.
  intros Hrep Hne.
  apply (other_children (statements db) (statements db') (λ st, negb (String.eqb (policy_id st) policyId))
    (λ i, [new_statement policyId i]) policy_id inputs other).
  - by rewrite (rep_statements _ _ _ _ Hrep), flat_map_singletons.
  - intros st ->. by apply negb_true_iff, String.eqb_neq.
  - intros j st _ ->%list_elem_of_singleton. cbn. congruence.
Qed.

Lemma expand_other policyId inputs db db' st :
  replaced policyId inputs db db' → keys_valid db → fresh_ids inputs db → st ∈ rows (statements db) →
  policy_id st ≠ policyId → same_statement (expand_statement db' st) (expand_statement db st).
Proof.
  intros Hrep Hk Hf Hst Hp.
  assert (∀ i, i ∈ inputs → si_id i ≠ pk st) as Hnot.
  { intros i Hi Heq. apply (not_in_fresh inputs db i (pk st) Hf Hi); [by apply list_elem_of_fmap_2|done]. }
  assert (negb (includes (statement_ids policyId db) (pk st)) = true) as Hkeep.
  { apply negb_true_iff, includes_false. by rewrite statement_of_policy. }
  unfold expand_statement. split; cbn -[pk]; [done..| | |].
  - by rewrite (other_children (targets db) (targets db') _ new_targets target_statement inputs (pk st)
      (rep_targets _ _ _ _ Hrep)); [..|intros x ->|intros j x Hj [-> _]%new_targets_own; apply Hnot].
  - unfold action_names. rewrite (rep_permissions _ _ _ _ Hrep).
    by rewrite (other_children (actions db) (actions db') _ new_actions action_statement inputs (pk st)
      (rep_actions _ _ _ _ Hrep)); [..|intros x ->|intros j x Hj [-> _]%new_actions_own; apply Hnot].
  - by rewrite (other_children (conditions db) (conditions db') _ new_conditions condition_statement inputs (pk st)
      (rep_conditions _ _ _ _ Hrep)); [..|intros x ->|intros j x Hj [-> _]%new_conditions_own; apply Hnot].
Qed.

(** C: what the policy editor writes it reads back, up to the order of rows
    the database returns: after a successful replacement the listing of the
    policy is exactly the requested statements, and the listing of every other
    policy is unchanged. *)
Theorem set_then_get today policyId inputs f db s db' s' :
  setStatements (V := V) fk_error today policyId inputs f db s = Ok (db', s') → keys_valid db → fresh_ids inputs db →
  same_listing (getStatements db' policyId) (List.map (written db) inputs) ∧
  ∀ other, other ≠ policyId → same_listing (getStatements db' other) (getStatements db other).
Proof.
  intros Hrep%setStatements_replaced Hk Hf. split; [|intros other Hne]; unfold getStatements.
  - apply (same_listing_map _ _ (new_statement policyId)); [by eapply selected_new|].
    apply Forall_forall. intros i Hi. by apply (expand_new policyId inputs).
  - apply (same_listing_map _ _ id); [rewrite List.map_id; by eapply selected_other|].
    apply Forall_forall. intros st (Hst & Hp%String.eqb_eq & _)%elem_of_repo_find.
    apply (expand_other policyId inputs); [done..|congruence].
Qed.

Lemma setStatements_Ok today policyId inputs f db s :
  (∃ res, setStatements (V := V) fk_error today policyId inputs f db s = Ok res) ↔ Forall (acceptable policyId db) inputs.
Proof.
  unfold setStatements, ExecuteDb.executeDbOperation.
  rewrite <- (add_statements_Ok policyId inputs (delete_statements policyId db)).
  split; [intros [res Hres]; destruct (res_fold _ _ _); [by eexists|done]|]. intros [db' ->].
  cbn [res_bind]. destruct (syncUsersByPolicy_answers (S := S) f db' today policyId s) as [l Hl].
  destruct (syncUsersByPolicy f db' today policyId s) as [synced s1]. cbn in Hl. subst synced. by eexists.
Qed.
Lemma setStatements_acceptable today policyId inputs f db s db' s' :
  setStatements (V := V) fk_error today policyId inputs f db s = Ok (db', s') → Forall (acceptable policyId db) inputs.
Proof. intros Hset. apply (setStatements_Ok today policyId inputs f db s). by eexists. Qed.

(** *** What a replacement grants *)

(** The request names the permission through a live row of the catalog. *)
Definition names db i (perm : string) : Prop :=
  ∃ p, live (permissions db) p ∧ pk p ∈ si_permission_ids i ∧ permission_string p = perm.
Definition requests inputs db (e : effect) (perm : string) : Prop :=
  ∃ i, i ∈ inputs ∧ si_effect i = e ∧ names db i perm ∧ si_conditions i = Some [].
Definition requests_conditionally inputs db (perm : string) : Prop :=
  ∃ i, i ∈ inputs ∧ names db i perm ∧ si_conditions i ≠ Some [].

Lemma stated_new policyId inputs db db' today st :
  replaced policyId inputs db db' → in_force db today policyId →
  stated db' (λ pid, pid ∈ [policyId] ∧ in_force db' today pid) st ↔
  ∃ i, i ∈ inputs ∧ st = new_statement policyId i.
Proof.
  intros Hrep Hforce. pose proof (selected_new _ _ _ _ Hrep) as Hsel. split.
  - intros ([Hst Hd] & Hp%list_elem_of_singleton & _).
    assert (st ∈ repo_find (λ st, String.eqb (policy_id st) policyId) (statements db')) as Hin
      by (apply elem_of_repo_find; split_and!; [done|by apply String.eqb_eq|done]).
    rewrite Hsel in Hin. apply elem_of_List_map in Hin as (i & Hi & ->). by exists i.
  - intros (i & Hi & ->).
    assert (new_statement policyId i ∈ repo_find (λ st, String.eqb (policy_id st) policyId) (statements db')) as Hin
      by (rewrite Hsel; apply elem_of_List_map; by exists i).
    apply elem_of_repo_find in Hin as (Hin & _ & Hd). split; [by split|]. split; [by apply list_elem_of_singleton|].
    unfold in_force. by rewrite (rep_policies _ _ _ _ Hrep).
Qed.
Lemma mentions_new policyId inputs db db' i perm :
  replaced policyId inputs db db' → keys_valid db → fresh_ids inputs db → i ∈ inputs →
  mentions db' (new_statement policyId i) perm ↔ names db i perm.
Proof.
  intros Hrep Hk Hf Hi. pose proof (λ k, not_in_fresh inputs db i k Hf Hi) as Hnot.
  pose proof (own_children (actions db) (actions db') _ new_actions action_statement inputs i (rep_actions _ _ _ _ Hrep)
      (proj1 Hf) (λ x Hx, Hnot _ (kv_actions db Hk x Hx)) new_actions_own Hi) as Hown.
  unfold mentions, names. rewrite (rep_permissions _ _ _ _ Hrep). split.
  - intros (a & p & [Ha Had] & Hst & Hp & Hpk & Hperm). exists p. split_and!; [done| |done]. rewrite Hpk.
    assert (a ∈ repo_find (λ a, String.eqb (action_statement a) (si_id i)) (actions db')) as Hin
      by (apply elem_of_repo_find; split_and!; [done|by apply String.eqb_eq|done]).
    rewrite Hown in Hin. apply elem_of_lookup_imap in Hin as (n & k & -> & Hn). by eapply list_elem_of_lookup_2.
  - intros (p & Hp & [n Hn]%list_elem_of_lookup & Hperm).
    assert (Action (si_child i n) (si_id i) (pk p) None ∈ new_actions i) as Hin
      by (apply elem_of_lookup_imap; by exists n, (pk p)).
    rewrite <- Hown in Hin. apply elem_of_repo_find in Hin as (Ha & _ & Hd).
    by exists (Action (si_child i n) (si_id i) (pk p) None), p.
Qed.
Lemma conditional_new policyId inputs db db' i :
  replaced policyId inputs db db' → keys_valid db → fresh_ids inputs db → i ∈ inputs →
  conditional db' (new_statement policyId i) ↔ default [] (si_conditions i) ≠ [].
Proof.
  intros Hrep Hk Hf Hi. pose proof (λ k, not_in_fresh inputs db i k Hf Hi) as Hnot.
  pose proof (own_children (conditions db) (conditions db') _ new_conditions condition_statement inputs i (rep_conditions _ _ _ _ Hrep)
      (proj1 Hf) (λ x Hx, Hnot _ (kv_conditions db Hk x Hx)) new_conditions_own Hi) as Hown.
  unfold conditional, condition_of. split.
  - intros (c & [Hc Hd] & Hst) Hnil.
    assert (c ∈ repo_find (λ c, String.eqb (condition_statement c) (si_id i)) (conditions db')) as Hin
      by (apply elem_of_repo_find; split_and!; [done|by apply String.eqb_eq|done]).
    rewrite Hown in Hin. unfold new_conditions in Hin. rewrite Hnil in Hin. by apply elem_of_nil in Hin.
  - intros Hcs. destruct (default [] (si_conditions i)) as [|ci l] eqn:E; [done|].
    assert (Condition (si_child i 0) (si_id i) (ci_operator ci) (ci_key ci) (ci_value ci) None ∈ new_conditions i) as Hin.
    { unfold new_conditions. rewrite E, imap_cons. by left. }
    rewrite <- Hown in Hin. apply elem_of_repo_find in Hin as (Hc & _ & Hd). eexists. by split.
Qed.

(** The resolver grants by a replaced policy that is in force exactly what its
    requests say, with a deny, or any condition, overriding an allow. *)
Theorem set_grants today policyId inputs f db s db' s' perm :
  setStatements (V := V) fk_error today policyId inputs f db s = Ok (db', s') → keys_valid db → fresh_ids inputs db →
  NoDup (pk <$> rows (permissions db)) → in_force db today policyId →
  let '(granted, conditionally_granted) := resolveForPolicyIds db' today [policyId] in
  (perm ∈ granted ↔
    requests inputs db allow perm ∧ ¬ requests inputs db deny perm ∧ ¬ requests_conditionally inputs db perm) ∧
  (perm ∈ conditionally_granted ↔ requests_conditionally inputs db perm).
Proof.
  intros Hset Hk Hf Hperms Hforce. pose proof (setStatements_replaced _ _ _ _ _ _ _ _ Hset) as Hrep.
  pose proof (setStatements_acceptable _ _ _ _ _ _ _ _ Hset) as Hacc.
  rewrite <- (rep_permissions _ _ _ _ Hrep) in Hperms.
  pose proof (resolveForPolicyIds_net db' Hperms today [policyId] perm) as Hnet.
  destruct (resolveForPolicyIds db' today [policyId]) as [granted cond]. cbn [fst snd] in Hnet.
  set (P := λ pid, _ ∧ _) in Hnet.
  assert (∀ i, i ∈ inputs → (¬ conditional db' (new_statement policyId i) ↔ si_conditions i = Some [])) as Hcond.
  { intros i Hi. rewrite conditional_new by done. rewrite Forall_forall in Hacc. destruct (Hacc i Hi) as (_ & _ & [cs ->]).
    cbn. destruct cs; naive_solver. }
  assert (∀ i, i ∈ inputs → (conditional db' (new_statement policyId i) ↔ si_conditions i ≠ Some [])) as Hcond'.
  { intros i Hi. rewrite conditional_new by done. rewrite Forall_forall in Hacc. destruct (Hacc i Hi) as (_ & _ & [cs ->]).
    cbn. destruct cs; naive_solver. }
  assert (∀ e, unconditionally db' P e perm ↔ requests inputs db e perm) as Hun.
  { intros e. split.
    - intros (st & (i & Hi & ->)%(stated_new policyId inputs db) & He & Hm%(mentions_new policyId inputs db) & Hc%Hcond); [|done..].
      by exists i.
    - intros (i & Hi & He & Hn & Hc%Hcond); [|done]. exists (new_statement policyId i). split_and!; [|done| |done].
      + apply (stated_new policyId inputs db); [done..|]. by exists i.
      + by apply (mentions_new policyId inputs db). }
  assert (conditionally db' P perm ↔ requests_conditionally inputs db perm) as Hco.
  { split.
    - intros (st & (i & Hi & ->)%(stated_new policyId inputs db) & Hm%(mentions_new policyId inputs db) & Hc%Hcond'); [|done..].
      by exists i.
    - intros (i & Hi & Hn & Hc%Hcond'); [|done]. exists (new_statement policyId i). split_and!; [| |done].
      + apply (stated_new policyId inputs db); [done..|]. by exists i.
      + by apply (mentions_new policyId inputs db). }
  by rewrite !Hun, Hco in Hnet.
Qed.

(** The replacement is all or nothing: it succeeds exactly when every request
    names an existing policy, only existing permissions, and carries a list
    of conditions (which the DTO calls optional); otherwise nothing changes. *)
Theorem set_succeeds_iff today policyId inputs f db s :
  (∃ res, setStatements (V := V) fk_error today policyId inputs f db s = Ok res) ↔ Forall (acceptable policyId db) inputs.
Proof. apply setStatements_Ok. Qed.
End replacement.

(** *** Deletion guards *)
Section guards.
Context {T : Type → Type} `{DatabaseLaws T}.
Implicit Types (db : iam_db T).

Lemma no_links (f : string * string → bool) l : (0 <? length (List.filter f l))%nat = false ↔ ∀ p, p ∈ l → f p = false.
Proof.
  rewrite Nat.ltb_ge. split.
  - intros Hle p Hp. destruct (f p) eqn:E; [|done]. assert (p ∈ List.filter f l) as Hin by (by apply elem_of_List_filter).
    destruct (List.filter f l); [by apply elem_of_nil in Hin|cbn in Hle; lia].
  - intros Hall. by rewrite List_filter_none.
Qed.

(** A deletion that is let through leaves no link to what it deletes. *)
Theorem guarded_deletions {A} (k : string) db (delete_row : result A) (a : A) :
  (deletePolicy k db delete_row = Ok a → delete_row = Ok a ∧ ∀ r, (r, k) ∉ roles_policies db) ∧
  (deleteRole k db delete_row = Ok a → delete_row = Ok a ∧ ∀ u, (u, k) ∉ users_roles db).
Proof.
  split; [unfold deletePolicy|unfold deleteRole];
    (destruct (0 <? _)%nat eqn:E; [done|]; intros Hok; split; [done|]; intros r Hin;
     pose proof (proj1 (no_links _ _) E (r, k) Hin) as Hf; cbn in Hf; by rewrite String.eqb_refl in Hf).
Qed.
End guards.

(** ** Witnesses *)

Definition child_of (s : string) (n : nat) : string := s +:+ String.concat "" (repeat "-" n).
Definition new_inputs : list statement_input :=
  [StatementInput "n1" (child_of "n1") allow "api" ["sales-bc"; "crm-bc"] ["order"; "*"] ["m1"; "m2"] (Some []);
   StatementInput "n2" (child_of "n2") deny "api" ["sales-bc"] ["*"] ["m2"] (Some []);
   StatementInput "n3" (child_of "n3") allow "ui" ["sales-bc"] ["*"] ["m3"]
     (Some [ConditionInput "StringEquals" "owner_id" "${user.id}"])].
(** The same statement without the optional list of conditions. *)
Definition bare_input : statement_input :=
  StatementInput "n1" (child_of "n1") allow "api" ["sales-bc"] ["*"] ["m1"] None.

Lemma sample_keys_valid : keys_valid sample_db.
Proof.
  split.
  - apply (bool_decide_unpack _); vm_compute; exact I.
  - apply Forall_forall, (bool_decide_unpack _). vm_compute. exact I.
  - apply Forall_forall, (bool_decide_unpack _). vm_compute. exact I.
  - apply Forall_forall, (bool_decide_unpack _). vm_compute. exact I.
Qed.
Lemma new_inputs_fresh : fresh_ids new_inputs sample_db.
Proof.
  split; [apply (bool_decide_unpack _); vm_compute; exact I|].
  apply Forall_forall, (bool_decide_unpack _). vm_compute. exact I.
Qed.
Lemma new_inputs_acceptable : Forall (acceptable "p1" sample_db) new_inputs.
Proof.
  apply (Forall_impl (λ i, "p1" ∈ pk <$> rows (policies sample_db) ∧
    Forall (λ k, k ∈ pk <$> rows (permissions sample_db)) (si_permission_ids i) ∧ is_Some (si_conditions i))).
  - apply (bool_decide_unpack _). vm_compute. exact I.
  - intros i (Hp & Hk & Hc). split_and!; [done| |done]. by apply Forall_forall.
Qed.
Lemma sample_in_force : in_force sample_db "2024-06-01" "p1".
Proof.
  exists (Policy "p1" true (Some "2024-01-01") (Some "2024-12-31") None).
  split; [split; [apply list_elem_of_here|reflexivity]|by split_and!].
Qed.

Example bare_input_fails :
  setStatements (V := ISessionData) no_fk "2024-06-01" "p1" [bare_input] (λ _, delivered) sample_db one_session = Throw NO_LENGTH.
Proof. by vm_compute. Qed.

Lemma set_then_get_witness :
  ∃ db' s', setStatements (V := ISessionData) no_fk "2024-06-01" "p1" new_inputs (λ _, delivered) sample_db one_session = Ok (db', s') ∧
    same_listing (getStatements db' "p1") (List.map (written sample_db) new_inputs) ∧
    same_listing (getStatements db' "p2") (getStatements sample_db "p2").
Proof.
  destruct (setStatements (V := ISessionData) no_fk "2024-06-01" "p1" new_inputs (λ _, delivered) sample_db one_session)
    as [[db' s']|e] eqn:E; [|vm_compute in E; discriminate E].
  exists db', s'. split; [reflexivity|].
  destruct (set_then_get no_fk "2024-06-01" "p1" new_inputs (λ _, delivered) sample_db one_session db' s' E sample_keys_valid new_inputs_fresh)
    as [Hown Hother].
  split; [exact Hown|]. apply Hother. discriminate.
Defined.

Lemma set_grants_witness :
  ∃ db' s', setStatements (V := ISessionData) no_fk "2024-06-01" "p1" new_inputs (λ _, delivered) sample_db one_session = Ok (db', s') ∧
    resolveForPolicyIds db' "2024-06-01" ["p1"] = (["sales:read"], ["sales:approve"]) ∧
    ¬ requests_conditionally new_inputs sample_db "sales:read" ∧
    requests_conditionally new_inputs sample_db "sales:approve".
Proof.
  destruct (setStatements (V := ISessionData) no_fk "2024-06-01" "p1" new_inputs (λ _, delivered) sample_db one_session)
    as [[db' s']|e] eqn:E; [|vm_compute in E; discriminate E].
  exists db', s'. split; [reflexivity|].
  pose proof (λ perm, set_grants no_fk "2024-06-01" "p1" new_inputs (λ _, delivered) sample_db one_session db' s' perm E
    sample_keys_valid new_inputs_fresh sample_uniq sample_in_force) as Hg.
  assert (resolveForPolicyIds db' "2024-06-01" ["p1"] = (["sales:read"], ["sales:approve"])) as Hr.
  { vm_compute in E. injection E as <- _. vm_compute. reflexivity. }
  rewrite Hr in Hg. split; [exact Hr|]. split.
  - apply (proj1 (proj1 (Hg "sales:read"))). apply list_elem_of_here.
  - apply (proj2 (Hg "sales:approve")). apply list_elem_of_here.
Defined.

Lemma guarded_deletions_witness :
  deletePolicy "p3" sample_db (Ok tt) = Ok tt ∧ deletePolicy "p1" sample_db (Ok tt) ≠ Ok tt ∧
  ("r1", "p3") ∉ roles_policies sample_db.
Proof.
  split; [reflexivity|]. split; [discriminate|].
  apply (proj1 (guarded_deletions "p3" sample_db (Ok tt) tt) eq_refl).
Defined.
