(* ===== verification/Storage.v ===== *)
(** * Object storage

    [StorageService] (src/apps/storage/src/storage.service.ts) and the calls
    other services make to it (storage-events.controller.ts).

    The S3 SDK is the class [ObjectStore]; how a command fails is an argument of
    the operation, [NodePath] is the part of Node's [path] the service uses, and
    the presigner and the UTF-8 decoder are arguments.  An operation may change
    the store and still throw, so it returns the store with the exception. *)

From S2P Require Import Prelude JsString.
#[local] Open Scope string_scope.

(** ** Computations that change a state and may throw *)

Definition eff (S A : Type) : Type := S → result A * S.
Definition eff_ret {S A} (a : A) : eff S A := λ s, (Ok a, s).
Definition eff_throw {S A} (e : exn) : eff S A := λ s, (Throw e, s).
Definition eff_run {S A} (r : result A) : eff S A := λ s, (r, s).
Definition eff_read {S A} (f : S → A) : eff S A := λ s, (Ok (f s), s).
Definition eff_bind {S A B} (m : eff S A) (k : A → eff S B) : eff S B :=
  λ s, match m s with (Ok a, s') => k a s' | (Throw e, s') => (Throw e, s') end.
Declare Scope eff_scope.
Delimit Scope eff_scope with eff.
Notation "'do!' x ':=' m 'in' k" := (eff_bind m (λ x, k))
  (at level 10, x pattern, m at level 100, k at level 200) : eff_scope.
#[local] Open Scope eff_scope.

(** What a completed computation went through. *)
Lemma eff_bind_Ok {S A B} (m : eff S A) (k : A → eff S B) s b s' :
  eff_bind m k s = (Ok b, s') ↔ ∃ a s1, m s = (Ok a, s1) ∧ k a s1 = (Ok b, s').
Proof.
  unfold eff_bind. destruct (m s) as [[a|e] s1]; split; [naive_solver..|done|naive_solver].
Qed.
(** An invariant of the parts is one of the whole, whatever they return. *)
Lemma eff_bind_inv {S A B} (P : S → Prop) (m : eff S A) (k : A → eff S B) s :
  P (m s).2 → (∀ a s1, m s = (Ok a, s1) → P s1 → P (k a s1).2) → P (eff_bind m k s).2.
Proof. unfold eff_bind. destruct (m s) as [[a|e] s1]; cbn; eauto. Qed.

(** ** [path] *)

Module NodePath.
(** The text after the last slash. *)
Fixpoint after_slash (s acc : string) : string :=
  match s with
  | "" => acc
  | String c s' => if Ascii.eqb c "/" then after_slash s' s' else after_slash s' acc
  end.
Fixpoint strip_slashes (s : string) : string :=
  match s with
  | "" => ""
  | String c s' => match strip_slashes s' with
                   | "" => if Ascii.eqb c "/" then "" else String c ""
                   | t => String c t
                   end
  end.
Definition last_part (p : string) : string := let b := strip_slashes p in after_slash b b.
(** The last dot of a name and what follows it. *)
Fixpoint from_last_dot (s : string) : option string :=
  match s with
  | "" => None
  | String c s' => match from_last_dot s' with
                   | Some e => Some e
                   | None => if Ascii.eqb c "." then Some s else None
                   end
  end.
(** A leading dot starts no extension, nor do the dots of [..]. *)
Definition extname (p : string) : string :=
  let b := last_part p in
  match from_last_dot b with
  | Some e => if (String.length e =? String.length b)%nat || String.eqb b ".." then "" else e
  | None => ""
  end.
Definition basename (p ext : string) : string :=
  let b := last_part p in
  if endsWith b ext && (String.length ext <? String.length b)%nat
  then String.substring 0 (String.length b - String.length ext) b else b.
End NodePath.

(** [encodeURIComponent], a character being a byte of the UTF-8 text. *)
Definition hex_upper (n : nat) : ascii := ascii_of_nat (if (n <? 10)%nat then 48 + n else 55 + n).
Definition is_unreserved (c : ascii) : bool := is_word c || existsb (Ascii.eqb c) ["-"; "."; "!"; "~"; "*"; "'"; "("; ")"]%char.
Fixpoint encodeURIComponent (s : string) : string :=
  match s with
  | "" => ""
  | String c s' =>
      let rest := encodeURIComponent s' in
      if is_unreserved c then String c rest
      else String "%" (String (hex_upper (code c / 16)) (String (hex_upper (code c mod 16)) rest))
  end.
Definition content_disposition (filename : string) : string :=
  "attachment; filename*=UTF-8''" +:+ encodeURIComponent filename.

(** ** The store *)

Record object := Object { body : string; content_type : string }.

Class ObjectStore (O : Type) := {
  get_object : string → string → O → option object;   (* bucket, key *)
  put_object : string → string → object → O → O;
  delete_object : string → string → O → O;
}.
Class ObjectStoreLaws (O : Type) `{ObjectStore O} := {
  get_put b k x (o : O) b' k' :
    get_object b' k' (put_object b k x o) = if decide ((b', k') = (b, k)) then Some x else get_object b' k' o;
  get_delete b k (o : O) b' k' :
    get_object b' k' (delete_object b k o) = if decide ((b', k') = (b, k)) then None else get_object b' k' o;
}.
#[export] Instance gmap_store : ObjectStore (gmap (string * string) object) := {
  get_object b k o := o !! (b, k);
  put_object b k x o := <[(b, k) := x]> o;
  delete_object b k o := delete (b, k) o;
}.
#[export] Instance gmap_store_laws : ObjectStoreLaws (gmap (string * string) object).
Proof.
  split; intros; cbn; [rewrite lookup_insert|rewrite lookup_delete]; repeat case_decide; congruence.
Qed.

(** An error of the SDK or of the connection. *)
Record s3_error := S3Error {
  is_S3ServiceException : bool;
  error_name : string;
  httpStatusCode : option Z;
  error_code : option string;
  error_type : option string;
  error_message : string;
}.
(** A command succeeds, or fails before or after it took effect. *)
Inductive sending := Sends | FailsBefore (e : s3_error) | FailsAfter (e : s3_error).

Definition translateS3Error (error : s3_error) (action : string) : exn :=
  if is_S3ServiceException error && String.eqb (error_name error) "NoSuchBucket"
  then NotFoundException "Bucket does not exist."
  else if is_S3ServiceException error
          && (String.eqb (error_name error) "InvalidAccessKeyId" || bool_decide (httpStatusCode error = Some 403%Z))
  then ForbiddenException "Invalid S3 credentials provided."
  else if bool_decide (error_code error = Some "ECONNREFUSED") || bool_decide (error_type error = Some "ECONNRESET")
  then ServiceUnavailableException "Cannot connect to the storage service."
  else ServiceUnavailableException ("An unexpected error occurred while trying to " +:+ action +:+ " the file.").

Definition send {O} (action : string) (command : O → O) (net : sending) : eff O unit := λ o,
  match net with
  | Sends => (Ok (), command o)
  | FailsBefore e => (Throw (translateS3Error e action), o)
  | FailsAfter e => (Throw (translateS3Error e action), command o)
  end.

Record ISerializedFilePayload := FilePayload { originalname : string; mimetype : string; buffer : string }.
Inductive FileAttachmentType := IMAGE | PDF.
Record IUploadWithMetaResult := UploadResult {
  path : string;
  bucket : string;
  original_name : string;
  mime_type : string;
  extension : string;
  size : nat;
  file_type : FileAttachmentType;
}.

(** [/[^a-zA-Z0-9.\-_]/g] *)
Definition is_safe (c : ascii) : bool := is_word c || Ascii.eqb c "." || Ascii.eqb c "-".
Definition sanitize : string → string := str_map (λ c, if is_safe c then c else "_"%char).

Section service.
Context {O : Type} `{ObjectStore O}.
(** [Buffer.from(s, 'latin1').toString('utf8')]; [getSignedUrl] of a key, its
    lifetime and [ResponseContentDisposition]. *)
Context (decodeOriginalName : string → string) (defaultBucket : string)
        (getSignedUrl : string → string → Z → option string → string + s3_error).

Definition object_key (key uuid originalName : string) : string :=
  let fileExt := NodePath.extname originalName in
  let baseName := NodePath.basename originalName fileExt in
  let uniqueFileName := sanitize baseName +:+ "-" +:+ uuid +:+ fileExt in
  key +:+ "/" +:+ uniqueFileName.

Definition upload (net : sending) (uuid bucket key : string) (file : ISerializedFilePayload) : eff O string :=
  let objectKey := object_key key uuid (decodeOriginalName (originalname file)) in
  do! _ := send "upload" (put_object bucket objectKey (Object (buffer file) (mimetype file))) net in
  eff_ret objectKey.

Definition uploadWithMeta (net : sending) (uuid bucket key : string) (file : ISerializedFilePayload) :
    eff O IUploadWithMetaResult :=
  do! storedPath := upload net uuid bucket key file in
  let originalName := decodeOriginalName (originalname file) in
  let fileExt := toLowerCase (replace_first "." "" (NodePath.extname originalName)) in
  eff_ret (UploadResult storedPath bucket originalName (mimetype file) fileExt (String.length (buffer file))
             (if startsWith (mimetype file) "image/" then IMAGE else PDF)).

Definition remove (net : sending) (bucket key : string) : eff O string :=
  do! _ := send "remove" (delete_object bucket key) net in
  eff_ret ("File '" +:+ key +:+ "' was successfully removed.").

Definition URL_LIFETIME : Z := 3600.

Definition getPath (key : string) : result string :=
  match getSignedUrl defaultBucket key URL_LIFETIME None with
  | inl url => Ok url
  | inr e => Throw (translateS3Error e "sign")
  end.

(** A failing presigner rejects the whole batch. *)
Definition signed (key : string) (filename : option string) : result string :=
  match getSignedUrl defaultBucket key URL_LIFETIME (content_disposition <$> filename) with
  | inl url => Ok url
  | inr e => Throw (PlainError (error_message e))
  end.
Definition generateSignedUrls (paths : list string) (filenames : option (list string)) : result (list string) :=
  res_map (λ ip, signed ip.2
             (match filenames with Some l => match l !! ip.1 with Some "" => None | f => f end | None => None end))
    (imap pair paths).
Definition generateSignedUrlsForImages (images : list string) : result (list string) :=
  res_map (λ image, signed image None) images.
End service.

(** ** Calls of another service

    What [sendWithContext] with the fallback [null] gives its caller
    (MicroserviceClient.v): the reply, [null] when there is none in time, or an
    exception when the reply is an error it recognises. *)
Inductive delivery := Delivered | NotDelivered | ReplyLost.
Definition rpc {S A} (rethrow : exn → option exn) (d : delivery) (handler : eff S A) : eff S (option A) := λ s,
  match d with
  | NotDelivered => (Ok None, s)
  | ReplyLost => (Ok None, (handler s).2)
  | Delivered =>
      match handler s with
      | (Ok a, s') => (Ok (Some a), s')
      | (Throw e, s') => (match rethrow e with Some e' => Throw e' | None => Ok None end, s')
      end
  end.

(** ** Laws *)

(** The key of a new object contains its fresh identifier. *)
Lemma object_key_uuid key uuid name : str_includes (object_key key uuid name) uuid = true.
Proof.
  apply str_includes_true. unfold object_key.
  set (b := sanitize _). set (e := NodePath.extname _).
  exists (key +:+ "/" +:+ b +:+ "-"), e. by rewrite <- !append_assoc.
Qed.
(** No object of the store has the identifier in its key. *)
Definition fresh_uuid {O} `{ObjectStore O} (uuid : string) (o : O) : Prop :=
  ∀ b k, is_Some (get_object b k o) → str_includes k uuid = false.

Lemma str_map_forall f (g : ascii → bool) s : (∀ c, g (f c) = true) → str_forall g (str_map f s) = true.
Proof. intros Hf. induction s as [|c s IH]; [done|]. cbn. by rewrite Hf. Qed.
Lemma sanitize_safe s : str_forall is_safe (sanitize s) = true.
Proof. apply str_map_forall. intros c. by destruct (is_safe c) eqn:E. Qed.

(** A quoted name has no character that ends the header's parameter. *)
Lemma encoded_chars s :
  str_forall (λ c, is_unreserved c || Ascii.eqb c "%") (encodeURIComponent s) = true.
Proof.
  assert (∀ n, (n < 16)%nat → is_unreserved (hex_upper n) = true) as Hhex.
  { intros n Hn. do 16 (destruct n as [|n]; [reflexivity|]). lia. }
  induction s as [|c s IH]; [done|]. cbn -[hex_upper Nat.div Nat.modulo].
  destruct (is_unreserved c) eqn:E; cbn -[hex_upper Nat.div Nat.modulo]; [by rewrite E|].
  rewrite !Hhex; [exact IH| |].
  - apply Nat.mod_upper_bound. lia.
  - apply Nat.Div0.div_lt_upper_bound. pose proof (nat_ascii_bounded c). unfold code. lia.
Qed.

Section laws.
Context {O : Type} `{ObjectStoreLaws O}.
Context (decodeOriginalName : string → string).
Implicit Types (o : O) (uuid key : string) (file : ISerializedFilePayload).

(** Whatever the outcome, an upload adds at most the object it is given, under
    a key that was free. *)
Lemma upload_store net uuid bucket key file o :
  fresh_uuid uuid o →
  let k := object_key key uuid (decodeOriginalName (originalname file)) in
  let '(res, o') := upload decodeOriginalName net uuid bucket key file o in
  get_object bucket k o = None ∧
  (∀ b' k', is_Some (get_object b' k' o) → get_object b' k' o' = get_object b' k' o) ∧
  (∀ p, res = Ok p → p = k ∧ get_object bucket p o' = Some (Object (buffer file) (mimetype file))).
Proof.
  intros Hfresh k.
  assert (get_object bucket k o = None) as Hfree.
  { destruct (get_object bucket k o) eqn:E; [|done]. specialize (Hfresh bucket k ltac:(eauto)).
    unfold k in Hfresh. by rewrite object_key_uuid in Hfresh. }
  assert (∀ x b' k', is_Some (get_object b' k' o) → get_object b' k' (put_object bucket k x o) = get_object b' k' o) as Hother.
  { intros x b' k' Hs. rewrite get_put. case_decide as Hd; [|done]. simplify_eq. rewrite Hfree in Hs. by destruct Hs. }
  unfold upload, eff_bind, send. fold k. destruct net; cbn; (split; [done|split; [first [apply Hother|done]|]]); [|done..].
  intros p [= <-]. split; [done|]. rewrite get_put. by rewrite decide_True.
Qed.
End laws.
