(* ===== verification/TemplateRender.v ===== *)
(** * Filling print templates

    The server side of rendering a print template: the substitution of
    parameters and the paper size
    ([PrintTemplatesService.substituteParameters], [resolvePaperDimensions]),
    and the document handed to the paginator ([BandedRenderService.render]), all
    under src/apps/report-bc/src/modules/print-template.  The paginator itself is
    in Paginator.v.

    [JSON.stringify] of the parameters is an argument.  Numbers that are only
    passed on are given by their text. *)

From S2P Require Import Prelude JsString JsValues.
#[local] Open Scope string_scope.

(** ** Paper *)

Record dimensions := Dimensions { width : string; height : string }.
Record paper := Paper { widthIn : string; heightIn : string }.
Definition PRINT_TEMPLATE_PAPER_DIMENSIONS_IN (paperSize : string) : option dimensions :=
  if String.eqb paperSize "A4" then Some (Dimensions "8.27" "11.69")
  else if String.eqb paperSize "A5" then Some (Dimensions "5.83" "8.27")
  else if String.eqb paperSize "Letter" then Some (Dimensions "8.5" "11")
  else if String.eqb paperSize "Legal" then Some (Dimensions "8.5" "14")
  else None.
Definition A4 : dimensions := Dimensions "8.27" "11.69".
Definition resolvePaperDimensions (paperSize orientation : string) : paper :=
  let dims := default A4 (PRINT_TEMPLATE_PAPER_DIMENSIONS_IN paperSize) in
  if String.eqb orientation "landscape" then Paper (height dims) (width dims) else Paper (width dims) (height dims).

(** ** Substitution of parameters *)

Record IPrintTemplateParameter := TemplateParameter { key : string; default_value : option string }.

(** The rest of a text that starts with a key, white space and closing braces. *)
Definition after_key (k s : string) : option string :=
  drop_prefix k s ≫= λ rest, drop_prefix "}}" (trimStart rest).
(** [\s*] before the key: as much white space as lets the rest match. *)
Fixpoint skip_to_key (k s : string) : option string :=
  match s with
  | String c s' =>
      if is_space c then match skip_to_key k s' with Some rest => Some rest | None => after_key k s end
      else after_key k s
  | "" => after_key k s
  end.
(** [{{\s*key\s*}}] at the start of a text. *)
Definition placeholder (k s : string) : option string := drop_prefix "{{" s ≫= skip_to_key k.

(** [acc.replace(new RegExp(...key..., 'g'), value)], [before] being the text
    already passed. *)
Fixpoint replace_holes (k value before : string) (skip : nat) (s : string) : string :=
  match s with
  | "" => ""
  | String c s' =>
      let before' := before +:+ String c "" in
      match skip with
      | S n => replace_holes k value before' n s'
      | O =>
          match placeholder k s with
          | Some rest =>
              let matched := String.substring 0 (String.length s - String.length rest) s in
              expand_replacement matched before rest value
              +:+ replace_holes k value before' (String.length matched - 1) s'
          | None => String c (replace_holes k value before' 0 s')
          end
      end
  end.

(** A value that is missing, [null] or an array leaves the default. *)
Definition parameter_value (params : list (string * jsv)) (def : IPrintTemplateParameter) : string :=
  match property (key def) params with
  | JUndefined | JNull | JArr _ => default "" (default_value def)
  | raw => js_String raw
  end.
Definition substituteParameters (html : string) (parameterDefs : option (list IPrintTemplateParameter))
    (params : list (string * jsv)) : string :=
  foldl (λ acc def, replace_holes (key def) (parameter_value params def) "" 0 acc) html (default [] parameterDefs).

(** ** The document of a banded template *)

(** A prefix, ignoring case. *)
Fixpoint ci_prefix (p s : string) : bool :=
  match p, s with
  | "", _ => true
  | String a p', String b s' => Ascii.eqb a (to_lower_char b) && ci_prefix p' s'
  | String _ _, "" => false
  end.
(** [s.replace(/<\/script/gi, '<\\/script')] *)
Fixpoint escape_script (skip : nat) (s : string) : string :=
  match s with
  | "" => ""
  | String c s' =>
      match skip with
      | S n => escape_script n s'
      | O => if ci_prefix "</script" s then "<\/script" +:+ escape_script 7 s' else String c (escape_script 0 s')
      end
  end.
Definition nl : string := String (ascii_of_nat 10) "".

Section banded.
(** The text of paginator.inline.js; [JSON.stringify] of an object. *)
Context (paginatorScript : string) (stringify_params : list (string * jsv) → string).

Definition dataScript (params : list (string * jsv)) : string :=
  "<script>window.__RP_DATA__ = " +:+ escape_script 0 (stringify_params params) +:+ ";</script>".
Definition paginatorSource (customPaginatorScript : option string) : string :=
  match customPaginatorScript with
  | Some js => if String.eqb (trim js) "" then paginatorScript else js
  | None => paginatorScript
  end.
Definition banded_render (htmlContent : string) (params : list (string * jsv)) (customPaginatorScript : option string) :
    string :=
  let injected := dataScript params +:+ nl +:+ "<script>" +:+ paginatorSource customPaginatorScript +:+ "</script>" in
  if str_includes htmlContent "</body>"
  then replace_text "</body>" (injected +:+ nl +:+ "</body>") htmlContent
  else htmlContent +:+ nl +:+ injected.
End banded.

Definition WAIT_FOR_EXPRESSION : string := "window.__PAGINATION_DONE === true && document.fonts.status === 'loaded'".

Example substitution_example :
  substituteParameters "<p>{{ name }} owes {{total}} {{x}}</p>"
    (Some [TemplateParameter "name" None; TemplateParameter "total" (Some "0.00")]) [("name", JStr "Ann")]
  = "<p>Ann owes 0.00 {{x}}</p>".
Proof. reflexivity. Qed.
(** A value is a replacement pattern. *)
Example substitution_dollar :
  substituteParameters "<p>{{price}}</p>" (Some [TemplateParameter "price" None]) [("price", JStr "5$$ or 3$'")]
  = "<p>5$ or 3</p></p>".
Proof. reflexivity. Qed.

(** ** What substitution does to a template

    A template is text and holes; [show] prints it. *)

Inductive segment := Text (t : string) | Hole (before : nat) (k : string) (after : nat).
Definition spaces (n : nat) : string := str_repeat n " ".
Definition show_segment (g : segment) : string :=
  match g with
  | Text t => t
  | Hole n k m => "{{" +:+ spaces n +:+ k +:+ spaces m +:+ "}}"
  end.
Fixpoint show (l : list segment) : string :=
  match l with [] => "" | g :: l' => show_segment g +:+ show l' end.

(** The holes of a key filled. *)
Definition fill (k value : string) (g : segment) : segment :=
  match g with
  | Hole n k' m => if String.eqb k' k then Text value else g
  | Text t => g
  end.

Definition no_brace (c : ascii) : bool := negb (Ascii.eqb c "{").
Definition no_dollar (c : ascii) : bool := negb (Ascii.eqb c "$").
(** Keys are words, texts have no opening brace. *)
Definition is_key (k : string) : bool := negb (String.eqb k "") && str_forall is_word k.
Definition plain_segment (g : segment) : bool :=
  match g with Text t => str_forall no_brace t | Hole _ k _ => is_key k end.

Lemma is_word_not c : is_word c = true → is_space c = false ∧ c ≠ "{"%char ∧ c ≠ "}"%char.
Proof.
  intros Hw. split_and!; [|by intros ->..].
  revert Hw. unfold is_word, is_digit, is_upper, is_lower, is_space, between.
  destruct (Ascii.eqb_spec c "_") as [->|]; [done|]. destruct (Ascii.eqb_spec c " ") as [->|]; [done|].
  rewrite !orb_true_iff, !andb_true_iff, !Nat.leb_le, orb_false_iff, andb_false_iff, !Nat.leb_gt.
  intros [[[|]|]|]; split; try done; lia.
Qed.
Lemma drop_prefix_ne a b p s : a ≠ b → drop_prefix (String a p) (String b s) = None.
Proof. intros Hab. cbn [drop_prefix]. by destruct (Ascii.eqb_spec a b). Qed.
Lemma key_cons k : is_key k = true → ∃ c k', k = String c k' ∧ is_word c = true ∧ str_forall is_word k' = true.
Proof. destruct k as [|c k]; [done|]. intros [_ [Hc Hk]%andb_true_iff]%andb_true_iff. by exists c, k. Qed.

Lemma trimStart_spaces n s : trimStart (spaces n +:+ s) = trimStart s.
Proof.
  induction n as [|n IH]; [done|]. rewrite <- IH. change (spaces (S n) +:+ s) with (String " " (spaces n +:+ s)).
  unfold trimStart. cbn [span]. change (is_space " ") with true. cbn. by destruct (span is_space (spaces n +:+ s)).
Qed.
Lemma trimStart_word c s : is_space c = false → trimStart (String c s) = String c s.
Proof. intros Hc. unfold trimStart. cbn. by rewrite Hc. Qed.

Lemma after_key_hit k m rest : after_key k (k +:+ spaces m +:+ "}}" +:+ rest) = Some rest.
Proof.
  unfold after_key. rewrite drop_prefix_app. cbn [option_bind mbind]. change (?o ≫= ?f) with (f rest).
  rewrite trimStart_spaces. exact (drop_prefix_app "}}" rest).
Qed.
Lemma after_key_space k c s : is_key k = true → is_space c = true → after_key k (String c s) = None.
Proof.
  intros (d & k' & -> & Hd & _)%key_cons Hc. unfold after_key. cbn.
  destruct (Ascii.eqb_spec d c) as [->|]; [|done]. destruct (is_word_not c Hd) as [Hs _]. congruence.
Qed.
Lemma after_key_miss k k' m rest : is_key k = true → is_key k' = true → k ≠ k' →
  after_key k (k' +:+ spaces m +:+ "}}" +:+ rest) = None.
Proof.
  intros Hk Hk' Hne. unfold after_key.
  destruct (drop_prefix k _) as [r|] eqn:E; [|done]. apply drop_prefix_Some in E.
  apply append_eq_app in E as [(w & -> & Hr)|(w & -> & Hr)].
  - destruct w as [|c w].
    + rewrite append_nil_r in Hne. done.
    + rewrite append_cons in Hr.
      assert (is_word c = true) as Hc%is_word_not.
      { apply andb_true_iff in Hk as [_ Hk]. rewrite str_forall_app in Hk.
        apply andb_true_iff in Hk as [_ [Hc _]%andb_true_iff]. done. }
      destruct Hc as (Hs & _ & Hb). destruct m; cbn in Hr; injection Hr as <- _; [done|]. by cbn in Hs.
  - destruct w as [|c w]; [by rewrite append_nil_r in Hne|]. subst r.
    change (drop_prefix "}}" (trimStart (String c w +:+ spaces m +:+ "}}" +:+ rest)) = None).
    assert (is_word c = true) as (Hs & _ & Hb)%is_word_not.
    { apply andb_true_iff in Hk' as [_ Hk']. rewrite str_forall_app in Hk'.
      apply andb_true_iff in Hk' as [_ [Hc _]%andb_true_iff]. done. }
    rewrite append_cons, trimStart_word by done. by apply drop_prefix_ne, not_eq_sym.
Qed.

Lemma skip_hit k n m rest : is_key k = true → skip_to_key k (spaces n +:+ k +:+ spaces m +:+ "}}" +:+ rest) = Some rest.
Proof.
  intros Hk. induction n as [|n IH].
  - pose proof (after_key_hit k m rest) as Hhit. destruct (key_cons k Hk) as (c & k' & -> & Hc & _).
    cbn [spaces str_repeat]. rewrite append_nil_l, append_cons in *. cbn [skip_to_key].
    apply is_word_not in Hc as [-> _]. exact Hhit.
  - change (spaces (S n) +:+ ?x) with (String " " (spaces n +:+ x)). cbn [skip_to_key].
    by rewrite IH.
Qed.
Lemma skip_miss k k' n m rest : is_key k = true → is_key k' = true → k ≠ k' →
  skip_to_key k (spaces n +:+ k' +:+ spaces m +:+ "}}" +:+ rest) = None.
Proof.
  intros Hk Hk' Hne. induction n as [|n IH].
  - pose proof (after_key_miss k k' m rest Hk Hk' Hne) as Hmiss. destruct (key_cons k' Hk') as (c & k'' & -> & Hc & _).
    cbn [spaces str_repeat]. rewrite append_nil_l, append_cons in *. cbn [skip_to_key].
    apply is_word_not in Hc as [-> _]. exact Hmiss.
  - change (spaces (S n) +:+ ?x) with (String " " (spaces n +:+ x)). cbn [skip_to_key].
    rewrite IH. cbn. by apply after_key_space.
Qed.
Lemma placeholder_none k c s : c ≠ "{"%char → placeholder k (String c s) = None.
Proof. intros Hc. unfold placeholder. by rewrite drop_prefix_ne by by apply not_eq_sym. Qed.
Lemma placeholder_one k c s : c ≠ "{"%char → placeholder k (String "{" (String c s)) = None.
Proof.
  intros Hc. unfold placeholder. change (drop_prefix "{{" (String "{" (String c s))) with (drop_prefix "{" (String c s)).
  by rewrite drop_prefix_ne by by apply not_eq_sym.
Qed.

Lemma holes_skip k v before m rest :
  replace_holes k v before (String.length m) (m +:+ rest) = replace_holes k v (before +:+ m) 0 rest.
Proof.
  revert before. induction m as [|c m IH]; intros before; [by rewrite append_nil_r, append_nil_l|].
  rewrite append_cons. cbn [replace_holes String.length]. by rewrite IH, append_assoc.
Qed.
Lemma holes_text k v before t rest : str_forall no_brace t = true →
  replace_holes k v before 0 (t +:+ rest) = t +:+ replace_holes k v (before +:+ t) 0 rest.
Proof.
  revert before. induction t as [|c t IH]; intros before Ht; [by rewrite append_nil_r, !append_nil_l|].
  apply andb_true_iff in Ht as [Hc Ht]. rewrite !append_cons. cbn [replace_holes].
  rewrite placeholder_none by (intros ->; done). by rewrite IH, append_assoc.
Qed.

Lemma hole_shape n k m rest :
  show_segment (Hole n k m) +:+ rest = String "{" ("{" +:+ spaces n +:+ k +:+ spaces m +:+ "}}" +:+ rest).
Proof. cbn [show_segment]. by rewrite !append_assoc. Qed.
Lemma holes_hit k v before n m rest : is_key k = true →
  replace_holes k v before 0 (show_segment (Hole n k m) +:+ rest) =
    expand_replacement (show_segment (Hole n k m)) before rest v
    +:+ replace_holes k v (before +:+ show_segment (Hole n k m)) 0 rest.
Proof.
  intros Hk. set (h := show_segment _). pose proof (hole_shape n k m rest) as Hs. fold h in Hs.
  assert (placeholder k (h +:+ rest) = Some rest) as Hp.
  { rewrite Hs. unfold placeholder.
    change (skip_to_key k (spaces n +:+ k +:+ spaces m +:+ "}}" +:+ rest) = Some rest). by apply skip_hit. }
  assert (∃ h', h = String "{" h') as [h' Hh] by by eexists.
  rewrite Hh in Hp |- *. rewrite append_cons in Hp |- *. cbn [replace_holes]. rewrite Hp.
  rewrite <- append_cons, append_length, Nat.add_sub.
  assert (String.substring 0 (String.length (String "{" h')) (String "{" h' +:+ rest) = String "{" h') as ->.
  { generalize (String "{" h'). intros s. induction s as [|c s IH]; [by destruct rest|].
    rewrite append_cons. cbn. f_equal. exact IH. }
  cbn [String.length]. rewrite Nat.sub_succ, Nat.sub_0_r, holes_skip, append_assoc. done.
Qed.

(** The hole of another key is passed over. *)
Lemma str_forall_spaces n f : f " "%char = true → str_forall f (spaces n) = true.
Proof. intros Hf. induction n as [|n IH]; [done|]. cbn. by rewrite Hf. Qed.
Lemma is_key_no_brace k : is_key k = true → str_forall no_brace k = true.
Proof.
  intros [_ Hk]%andb_true_iff. induction k as [|c k IH]; [done|]. apply andb_true_iff in Hk as [Hc Hk].
  cbn. rewrite IH by done. apply is_word_not in Hc as (_ & Hc & _). unfold no_brace.
  destruct (Ascii.eqb_spec c "{"); [congruence|done].
Qed.
Lemma holes_miss k k' v before n m rest : is_key k = true → is_key k' = true → k' ≠ k →
  replace_holes k v before 0 (show_segment (Hole n k' m) +:+ rest) =
    show_segment (Hole n k' m) +:+ replace_holes k v (before +:+ show_segment (Hole n k' m)) 0 rest.
Proof.
  intros Hk Hk' Hne. rewrite !hole_shape. cbn [replace_holes].
  assert (placeholder k (String "{" ("{" +:+ spaces n +:+ k' +:+ spaces m +:+ "}}" +:+ rest)) = None) as ->.
  { change (skip_to_key k (spaces n +:+ k' +:+ spaces m +:+ "}}" +:+ rest) = None). by apply skip_miss, not_eq_sym. }
  set (inner := spaces n +:+ k' +:+ spaces m +:+ "}}").
  assert (∃ c i, inner = String c i ∧ c ≠ "{"%char) as (c & i & Hi & Hc).
  { unfold inner. destruct n as [|n]; [|by exists " "%char; eexists].
    destruct (key_cons k' Hk') as (c & k'' & -> & (_ & Hc & _)%is_word_not & _). by exists c; eexists. }
  assert (str_forall no_brace inner = true) as Hb.
  { unfold inner. rewrite !str_forall_app, !str_forall_spaces, is_key_no_brace by done. done. }
  assert (∀ r, "{" +:+ spaces n +:+ k' +:+ spaces m +:+ "}}" +:+ r = String "{" (inner +:+ r)) as Hin.
  { intros r. unfold inner. by rewrite !append_assoc. }
  rewrite !Hin. cbn [replace_holes]. rewrite Hi at 1. rewrite append_cons, placeholder_one by done.
  rewrite holes_text by done.
  assert ((before +:+ show_segment (Hole n k' m)) = ((before +:+ "{") +:+ "{") +:+ inner) as ->; [|done].
  rewrite <- (append_nil_r (show_segment _)), hole_shape, Hin, append_nil_r. by rewrite !append_assoc.
Qed.

Lemma replace_holes_show k v before l : is_key k = true → str_forall no_dollar v = true →
  Forall (λ g, plain_segment g = true) l →
  replace_holes k v before 0 (show l) = show (List.map (fill k v) l).
Proof.
  intros Hk Hv Hl. revert before. induction Hl as [|g l Hg Hl IH]; intros before; [done|].
  cbn [show List.map]. destruct g as [t|n k' m]; cbn [fill].
  - by rewrite holes_text, IH.
  - destruct (String.eqb_spec k' k) as [->|Hne].
    + rewrite holes_hit, expand_plain, IH by done. done.
    + by rewrite holes_miss, IH.
Qed.

(** The definition a hole is filled from: the first with its key. *)
Definition filled (defs : list IPrintTemplateParameter) (params : list (string * jsv)) (g : segment) : segment :=
  match g with
  | Text t => g
  | Hole _ k _ => match List.find (λ d, String.eqb (key d) k) defs with
                  | Some d => Text (parameter_value params d)
                  | None => g
                  end
  end.
Definition plain_value (params : list (string * jsv)) (d : IPrintTemplateParameter) : Prop :=
  str_forall no_dollar (parameter_value params d) = true ∧ str_forall no_brace (parameter_value params d) = true.

Lemma fill_filled d defs params g :
  filled defs params (fill (key d) (parameter_value params d) g) = filled (d :: defs) params g.
Proof.
  destruct g as [t|n k m]; [done|]. cbn [fill filled List.find]. rewrite String.eqb_sym. by destruct (String.eqb (key d) k).
Qed.

(** Rendering fills every hole whose key is declared with the value of its
    first declaration, and leaves everything else as it is, provided no value
    contains a dollar or an opening brace. *)
Theorem substitution_fills l defs params
    (Hplain : Forall (λ g, plain_segment g = true) l) (Hkeys : Forall (λ d, is_key (key d) = true) defs)
    (Hvalues : Forall (plain_value params) defs) :
  substituteParameters (show l) (Some defs) params = show (List.map (filled defs params) l).
Proof.
  unfold substituteParameters. change (default [] (Some defs)) with defs. revert l Hplain Hvalues.
  induction Hkeys as [|d defs Hd Hkeys IH]; intros l Hplain Hvalues.
  - enough (List.map (filled [] params) l = l) as -> by done.
    rewrite <- (List.map_id l) at 2. apply List.map_ext. by intros [|].
  - inversion Hvalues as [|? ? [Hdollar Hbrace] Hvs]; subst. cbn [foldl]. rewrite replace_holes_show by done.
    rewrite IH; [|apply Forall_forall; intros g Hg|done].
    + rewrite List.map_map. f_equal. apply List.map_ext. intros g. apply fill_filled.
    + apply elem_of_List_map in Hg as (g' & Hg' & ->). rewrite Forall_forall in Hplain. specialize (Hplain g' Hg').
      destruct g' as [t|n k m]; [done|]. cbn [fill]. by destruct (String.eqb k (key d)).
Qed.

(** In general a value is a replacement pattern: its dollar sequences are
    expanded, so it can repeat the text around the hole. *)
Theorem substitution_is_pattern before after n k m d params
    (Hd : key d = k) (Hk : is_key k = true) (Hb : str_forall no_brace before = true) (Ha : str_forall no_brace after = true) :
  substituteParameters (before +:+ show_segment (Hole n k m) +:+ after) (Some [d]) params =
    before +:+ expand_replacement (show_segment (Hole n k m)) before after (parameter_value params d) +:+ after.
Proof.
  unfold substituteParameters. change (default [] (Some [d])) with [d]. cbn [foldl]. rewrite Hd, holes_text, holes_hit by done. f_equal. f_equal.
  rewrite <- (append_nil_r after) at 1. rewrite holes_text by done. cbn [replace_holes]. by rewrite append_nil_r.
Qed.

(** ** The data script *)

(** Somewhere in the text a script element ends. *)
Fixpoint closes_script (s : string) : bool :=
  ci_prefix "</script" s || match s with "" => false | String _ s' => closes_script s' end.

Lemma escape_skip n s : escape_script n s = escape_script 0 (slice_from n s).
Proof.
  assert (∀ s : string, slice_from 0 s = s) as H0.
  { intros t. unfold slice_from. rewrite Nat.sub_0_r. by apply substring_all. }
  revert s. induction n as [|n IH]; intros s; [by rewrite H0|]. destruct s as [|c s]; [done|]. cbn [escape_script]. by rewrite IH.
Qed.

(** A prefix without an angle bracket is one of the text before escaping. *)
Lemma escape_prefix p s : str_forall (λ c, negb (Ascii.eqb c "<")) p = true →
  ci_prefix p (escape_script 0 s) = true → ci_prefix p s = true.
Proof.
  revert s. induction p as [|a p IH]; intros s Hp; [done|]. apply andb_true_iff in Hp as [Ha Hp].
  destruct s as [|c s]; [done|]. cbn [escape_script]. destruct (ci_prefix "</script" (String c s)).
  - change ("<\/script" +:+ ?x) with (String "<" ("\/script" +:+ x)). cbn [ci_prefix].
    intros [Heq%Ascii.eqb_eq _]%andb_true_iff. subst a. done.
  - cbn [ci_prefix]. intros [-> Hrest]%andb_true_iff. cbn. by apply IH.
Qed.
Lemma ci_prefix_app p s t : ci_prefix p s = true → ci_prefix p (s +:+ t) = true.
Proof.
  revert s. induction p as [|a p IH]; intros [|b s]; try done. rewrite append_cons. cbn [ci_prefix].
  intros [-> Hs]%andb_true_iff. cbn. by apply IH.
Qed.
Lemma escape_closes_none s : closes_script (escape_script 0 s) = false.
Proof.
  assert (∀ n s, (String.length s ≤ n)%nat → closes_script (escape_script 0 s) = false) as H; [|by apply (H (String.length s))].
  clear s. induction n as [|n IH]; intros [|c s] Hn; try done; [cbn in Hn; lia|].
  cbn [String.length] in Hn. cbn [escape_script]. destruct (ci_prefix "</script" (String c s)) eqn:E.
  - rewrite escape_skip.
    change (closes_script (escape_script 0 (slice_from 7 s)) = false). apply IH.
    pose proof (slice_from_length 7 s). lia.
  - cbn [closes_script]. rewrite IH by lia. rewrite orb_false_r. apply not_true_iff_false. intros Hp.
    cbn [ci_prefix] in Hp, E. apply andb_true_iff in Hp as [Hc Hp]. rewrite Hc in E. cbn [andb] in E.
    apply (escape_prefix "/script") in Hp; [|done]. cbn [ci_prefix] in Hp. congruence.
Qed.
Lemma closes_script_app a b : str_forall (λ c, negb (Ascii.eqb c "<")) a = true → closes_script (a +:+ b) = closes_script b.
Proof.
  induction a as [|c a IH]; [done|]. intros [Hc Ha]%andb_true_iff. rewrite append_cons. cbn [closes_script].
  rewrite IH by done. cbn [ci_prefix]. destruct (Ascii.eqb_spec "<" (to_lower_char c)) as [Heq|]; [|done].
  unfold to_lower_char in Heq. destruct (is_upper c) eqn:Hu; [|by rewrite <- Heq in Hc].
  unfold is_upper, between, code in Hu. rewrite andb_true_iff, !Nat.leb_le in Hu.
  apply (f_equal nat_of_ascii) in Heq. rewrite nat_ascii_embedding in Heq by (unfold code; lia).
  change (nat_of_ascii "<") with 60%nat in Heq. unfold code in Heq. lia.
Qed.
Lemma closes_script_includes a b c : closes_script b = true → closes_script (a +:+ b +:+ c) = true.
Proof.
  intros Hb. induction a as [|x a IH].
  - rewrite append_nil_l. induction b as [|y b IHb]; [done|]. rewrite append_cons. cbn [closes_script] in *.
    apply orb_true_iff in Hb as [Hb|Hb]; [|by rewrite IHb, orb_true_r].
    by rewrite <- append_cons, ci_prefix_app.
  - rewrite append_cons. cbn [closes_script]. by rewrite IH, orb_true_r.
Qed.

(** What the data script holds. *)
Definition script_text (stringify_params : list (string * jsv) → string) (params : list (string * jsv)) : string :=
  "window.__RP_DATA__ = " +:+ escape_script 0 (stringify_params params) +:+ ";".

Lemma expand_app_plain m b a r r' : str_forall no_dollar r = true →
  expand_replacement m b a (r +:+ r') = r +:+ expand_replacement m b a r'.
Proof.
  induction r as [|c r IH]; [done|]. intros [Hc Hr]%andb_true_iff. rewrite !append_cons. cbn [expand_replacement].
  unfold no_dollar in Hc. apply negb_true_iff in Hc. rewrite Hc. by rewrite IH.
Qed.
Lemma escape_forall f n s : str_forall f "<\/script" = true → str_forall f s = true → str_forall f (escape_script n s) = true.
Proof.
  intros Hf. revert n. induction s as [|c s IH]; intros n; [done|]. intros [Hc Hs]%andb_true_iff.
  destruct n as [|n]; cbn [escape_script]; [|by apply IH].
  destruct (ci_prefix "</script" (String c s)).
  - rewrite str_forall_app, Hf. by apply IH.
  - cbn [str_forall]. rewrite Hc. by apply IH.
Qed.
Lemma escape_id s : str_forall (λ c, negb (Ascii.eqb c "<")) s = true → escape_script 0 s = s.
Proof.
  intros Hs. pose proof Hs as Hs'. induction s as [|c s IH]; [done|]. cbn [escape_script].
  destruct (ci_prefix "</script" (String c s)) eqn:E.
  - exfalso. pose proof (closes_script_app (String c s) "" Hs) as Hc. rewrite append_nil_r in Hc. cbn [closes_script] in Hc.
    by rewrite E in Hc.
  - apply andb_true_iff in Hs as [_ Hs]. by rewrite IH.
Qed.
Lemma ci_prefix_semicolon p s : str_forall (λ c, negb (Ascii.eqb c ";")) p = true →
  ci_prefix p (s +:+ ";") = ci_prefix p s.
Proof.
  revert s. induction p as [|a p IH]; intros s Hp; [by destruct s|]. apply andb_true_iff in Hp as [Ha Hp].
  destruct s as [|c s]; [|rewrite append_cons; cbn [ci_prefix]; by rewrite IH].
  rewrite append_nil_l. cbn [ci_prefix]. change (to_lower_char ";") with ";"%char. apply negb_true_iff in Ha. by rewrite Ha.
Qed.
Lemma closes_script_semicolon s : closes_script (s +:+ ";") = closes_script s.
Proof.
  induction s as [|c s IH]; [done|]. rewrite append_cons. cbn [closes_script]. rewrite IH. f_equal.
  rewrite <- append_cons. by apply ci_prefix_semicolon.
Qed.

Section document.
Context (paginatorScript : string) (stringify_params : list (string * jsv) → string).
Abbreviation banded_render := (banded_render paginatorScript stringify_params).
Abbreviation paginatorSource := (paginatorSource paginatorScript).

Lemma script_text_closed params : closes_script (script_text stringify_params params) = false.
Proof. unfold script_text. rewrite closes_script_app, closes_script_semicolon by done. apply escape_closes_none. Qed.

(** The document of a banded template is its HTML with the two scripts before
    the end of the body, and the data, whatever text they contain, do not end
    their script, provided neither data nor paginator contain a dollar. *)
Theorem banded_document html before after params custom
    (Hbody : find_sub "</body>" html = Some (before, after))
    (Hdata : str_forall no_dollar (stringify_params params) = true)
    (Hscript : str_forall no_dollar (paginatorSource custom) = true) :
  banded_render html params custom =
    before +:+ "<script>" +:+ script_text stringify_params params +:+ "</script>" +:+ nl +:+
    "<script>" +:+ paginatorSource custom +:+ "</script>" +:+ nl +:+ "</body>" +:+ after ∧
  closes_script (script_text stringify_params params) = false.
Proof.
  split; [|apply script_text_closed].
  assert (str_includes html "</body>" = true) as Hinc by (unfold str_includes; by rewrite Hbody).
  unfold banded_render, TemplateRender.banded_render. rewrite Hinc. unfold replace_text. rewrite Hbody.
  rewrite expand_plain.
  - unfold dataScript, script_text. by rewrite !append_assoc.
  - fold no_dollar. unfold dataScript. rewrite !str_forall_app.
    rewrite (escape_forall no_dollar) by done. change (paginatorSource custom) with (TemplateRender.paginatorSource paginatorScript custom) in Hscript.
    by rewrite Hscript.
Qed.

(** A dollar and a backquote in the data insert the whole HTML before the end of
    the body into the data script: a script element of the template ends it. *)
Theorem banded_data_leaks html before after params custom a b
    (Hbody : find_sub "</body>" html = Some (before, after)) (Hscript : closes_script before = true)
    (Hdata : stringify_params params = a +:+ "$`" +:+ b)
    (Ha : str_forall (λ c, no_dollar c && negb (Ascii.eqb c "<")) a = true)
    (Hb : str_forall (λ c, no_dollar c && negb (Ascii.eqb c "<")) b = true) :
  ∃ leaked tail, banded_render html params custom = before +:+ "<script>" +:+ leaked +:+ ";</script>" +:+ tail ∧
    closes_script leaked = true.
Proof.
  assert (str_includes html "</body>" = true) as Hinc by (unfold str_includes; by rewrite Hbody).
  assert (∀ f g s, str_forall (λ c, f c && g c) s = true → str_forall f s = true ∧ str_forall g s = true) as Hsplit.
  { intros f g s. induction s as [|c s IH]; [done|]. cbn. rewrite !andb_true_iff. naive_solver. }
  apply Hsplit in Ha as [Had Hal]. apply Hsplit in Hb as [Hbd Hbl].
  exists ("window.__RP_DATA__ = " +:+ a +:+ before +:+ b). eexists. split.
  2: { rewrite closes_script_app, closes_script_app by done. rewrite <- (append_nil_l (before +:+ b)).
       by apply closes_script_includes. }
  unfold banded_render, TemplateRender.banded_render. rewrite Hinc. unfold replace_text. rewrite Hbody. f_equal.
  unfold dataScript. rewrite Hdata, escape_id.
  2: { rewrite !str_forall_app, Hal, Hbl. done. }
  rewrite !append_assoc. rewrite (expand_app_plain _ _ _ "<script>window.__RP_DATA__ = "), expand_app_plain by done.
  change ("$`" +:+ ?x) with (String "$" (String "`" x)). cbn [expand_replacement].
  change (Ascii.eqb "$" "$") with true. change (Ascii.eqb "`" "$") with false. change (Ascii.eqb "`" "&") with false.
  change (Ascii.eqb "`" "`") with true. cbn iota.
  rewrite expand_app_plain by done. rewrite (expand_app_plain _ _ _ ";</script>") by done.
  rewrite !append_assoc. reflexivity.
Qed.
End document.

(** ** Witnesses *)

Definition invoice_template : list segment :=
  [Text "<h1>"; Hole 1 "customer_name" 1; Text "</h1><p>"; Hole 0 "total" 0; Text " "; Hole 0 "unknown" 0; Text "</p>"].
Definition invoice_parameters : list IPrintTemplateParameter :=
  [TemplateParameter "customer_name" None; TemplateParameter "total" (Some "0.00")].

Lemma substitution_fills_witness :
  substituteParameters "<h1>{{ customer_name }}</h1><p>{{total}} {{unknown}}</p>" (Some invoice_parameters)
    [("customer_name", JStr "ACME"); ("total", JArr [])] = "<h1>ACME</h1><p>0.00 {{unknown}}</p>".
Proof.
  apply (substitution_fills invoice_template invoice_parameters [("customer_name", JStr "ACME"); ("total", JArr [])]).
  - repeat constructor.
  - repeat constructor.
  - repeat constructor.
Defined.

(** The price of a customer who pays in dollars. *)
Lemma substitution_is_pattern_witness :
  substituteParameters "<p>{{price}} for ACME</p>" (Some [TemplateParameter "price" None]) [("price", JStr "US$'20")]
  = "<p>US for ACME</p>20 for ACME</p>".
Proof.
  apply (substitution_is_pattern "<p>" " for ACME</p>" 0 "price" 0 (TemplateParameter "price" None)
    [("price", JStr "US$'20")]); reflexivity.
Defined.

Definition sample_stringify (params : list (string * jsv)) : string :=
  match params with (k, JStr v) :: _ => "{" +:+ k +:+ ":" +:+ v +:+ "}" | _ => "{}" end.
Definition sample_html : string := "<body><script>x</script></body></html>".

Lemma banded_document_witness :
  banded_render "paginate()" sample_stringify sample_html [("note", JStr "</SCRIPT>")] None =
    "<body><script>x</script>" +:+ "<script>" +:+ "window.__RP_DATA__ = {note:<\/script>};" +:+ "</script>" +:+ nl +:+
    "<script>" +:+ "paginate()" +:+ "</script>" +:+ nl +:+ "</body>" +:+ "</html>".
Proof.
  exact (proj1 (banded_document "paginate()" sample_stringify sample_html "<body><script>x</script>" "</html>"
    [("note", JStr "</SCRIPT>")] None eq_refl eq_refl eq_refl)).
Defined.
Lemma banded_data_leaks_witness :
  ∃ leaked tail,
    banded_render "paginate()" sample_stringify sample_html [("note", JStr "cost $` 5")] None =
      "<body><script>x</script>" +:+ "<script>" +:+ leaked +:+ ";</script>" +:+ tail ∧ closes_script leaked = true.
Proof.
  exact (banded_data_leaks "paginate()" sample_stringify sample_html "<body><script>x</script>" "</html>"
    [("note", JStr "cost $` 5")] None "{note:cost " " 5}" eq_refl eq_refl eq_refl eq_refl eq_refl).
Defined.
