(* ===== verification/Paginator.v ===== *)
(** * The paginator of banded print templates

    src/apps/report-bc/src/modules/print-template/assets/paginator.inline.js, the
    script that lays a banded template out on pages inside Chromium: its small
    template engine ([renderBand]) and the four passes of the pagination.

    The bands the document declares are an argument, and so is the layout: whether
    the item box of a page overflows ([box_overflows]) and whether its last row is
    within the safety margin of the box's edge ([near_edge]).  A page is the HTML
    put into its parts; a piece of HTML appended to the table is one row.  An
    object used as a list has no items. *)

From S2P Require Import Prelude JsString JsValues TemplateRender.
#[local] Open Scope string_scope.

(** ** The template engine *)

Definition quote_char : ascii := ascii_of_nat 34.
Definition quote_str : string := String quote_char "".

Definition array_index (k : string) : option nat :=
  if negb (String.eqb k "") && str_forall is_digit k && (String.eqb k "0" || negb (startsWith k "0"))
  then Some (N.to_nat (N_of_digits 0 k)) else None.
(** [v[k]] *)
Definition js_index (v : jsv) (k : string) : jsv :=
  match v with
  | JObj o => property k o
  | JArr l => if String.eqb k "length" then JNum (string_of_nat (length l))
              else match array_index k with Some n => default JUndefined (l !! n) | None => JUndefined end
  | JStr s => if String.eqb k "length" then JNum (string_of_nat (String.length s))
              else match array_index k with
                   | Some n => match String.get n s with Some c => JStr (String c "") | None => JUndefined end
                   | None => JUndefined
                   end
  | _ => JUndefined
  end.
Fixpoint follow (parts : list string) (cur : jsv) : jsv :=
  match parts with
  | [] => cur
  | p :: parts' => match cur with JUndefined | JNull => JNull | _ => follow parts' (js_index cur p) end
  end.
Abbreviation scope_object := (list (string * jsv)).
Definition resolvePath (path : string) (scope : scope_object) : jsv := follow (split "." path) (JObj scope).

Definition escape_char (c : ascii) : string :=
  if Ascii.eqb c "&" then "&amp;" else if Ascii.eqb c "<" then "&lt;" else if Ascii.eqb c ">" then "&gt;"
  else if Ascii.eqb c quote_char then "&quot;" else String c "".
Fixpoint escape_html (s : string) : string :=
  match s with "" => "" | String c s' => escape_char c +:+ escape_html s' end.
Definition escapeHtml (v : jsv) : string := escape_html (js_String v).

(** [[\w.]] *)
Definition is_path_char (c : ascii) : bool := is_word c || Ascii.eqb c ".".

(** [<template data-repeat="([\w.]+)">([\s\S]*?)<\/template>] at the start of a
    text: the key, the inner text and the rest. *)
Definition repeat_block (s : string) : option (string * string * string) :=
  match drop_prefix ("<template data-repeat=" +:+ quote_str) s with
  | None => None
  | Some s1 =>
      let '(k, s2) := span is_path_char s1 in
      if String.eqb k "" then None
      else match drop_prefix (quote_str +:+ ">") s2 with
           | None => None
           | Some s3 => match find_sub "</template>" s3 with
                        | Some (inner, rest) => Some (k, inner, rest)
                        | None => None
                        end
           end
  end.
(** [\{\{\s*([\w.]+)\s*\}\}] at the start of a text: the path and the rest. *)
Definition path_hole (s : string) : option (string * string) :=
  match drop_prefix "{{" s with
  | None => None
  | Some s1 =>
      let '(path, s2) := span is_path_char (trimStart s1) in
      if String.eqb path "" then None
      else match drop_prefix "}}" (trimStart s2) with Some rest => Some (path, rest) | None => None end
  end.

(** [s.replace(/.../g, f)]: every match, from the left. *)
Fixpoint replace_matches {A} (matches : string → option (A * string)) (f : A → string) (skip : nat) (s : string) :
    string :=
  match s with
  | "" => ""
  | String c s' =>
      match skip with
      | S n => replace_matches matches f n s'
      | O =>
          match matches s with
          | Some (a, rest) => f a +:+ replace_matches matches f (String.length s - String.length rest - 1) s'
          | None => String c (replace_matches matches f 0 s')
          end
      end
  end.

Definition PAGES_SPAN : string := "<span data-rp-pages></span>".
Definition path_text (scope : scope_object) (path : string) : string :=
  if String.eqb path "__pages" then PAGES_SPAN
  else match resolvePath path scope with JUndefined | JNull => "" | v => escapeHtml v end.
Definition replace_paths (scope : scope_object) : string → string := replace_matches path_hole (path_text scope) 0.

(** [value || []] and its elements. *)
Definition items_of (v : jsv) : list jsv :=
  match v with
  | JArr l => l
  | JStr s => List.map (λ c, JStr (String c "")) (String.list_ascii_of_string s)
  | _ => []
  end.
Definition row_scope (scope : scope_object) (i : nat) (row : jsv) : scope_object :=
  obj_set "__row_no" (JNum (string_of_nat (i + 1))) (obj_set "row" row scope).

Fixpoint render_band (fuel : nat) (html : string) (scope : scope_object) : string :=
  match fuel with
  | O => ""
  | S n =>
      replace_paths scope
        (replace_matches repeat_block
           (λ ki, String.concat "" (imap (λ i row, render_band n ki.2 (row_scope scope i row)) (items_of (resolvePath ki.1 scope))))
           0 html)
  end.
(** The inner text of a block is shorter than the text, so its length bounds the
    depth of the recursion. *)
Definition renderBand (html : string) (scope : scope_object) : string := render_band (S (String.length html)) html scope.

(** ** Pages *)

Record page := Page {
  scope : scope_object;
  hdr : string;
  thead : string;
  tbody : list string;
  fillers : list string;
  sum : string;
  ftr : string;
}.

Section pagination.
Context (bands : string → option string) (box_overflows near_edge : page → bool).

Definition band (name : string) : string := default "" (bands name).
(** [if (bands[name])] *)
Definition has_band (name : string) : bool := negb (String.eqb (band name) "").

Definition page_scope (D : scope_object) (n : nat) : scope_object :=
  obj_set "__next_page" (JNum (string_of_nat (n + 2))) (obj_set "__page" (JNum (string_of_nat (n + 1))) D).
(** [newPage()] when [n] pages exist. *)
Definition newPage (D : scope_object) (n : nat) : page :=
  let sc := page_scope D n in
  Page sc (renderBand (band "page-header") sc) (renderBand (band "detail-header") sc) [] [] ""
    (renderBand (band "page-footer:continuation") sc).

Definition add_row (html : string) (p : page) : page :=
  Page (scope p) (hdr p) (thead p) (tbody p ++ [html])%list (fillers p) (sum p) (ftr p).
Definition add_filler (html : string) (p : page) : page :=
  Page (scope p) (hdr p) (thead p) (tbody p) (fillers p ++ [html])%list (sum p) (ftr p).
Definition set_sum (html : string) (p : page) : page :=
  Page (scope p) (hdr p) (thead p) (tbody p) (fillers p) html (ftr p).
Definition set_ftr (html : string) (p : page) : page :=
  Page (scope p) (hdr p) (thead p) (tbody p) (fillers p) (sum p) html.

(** The finished pages and the current one. *)
Abbreviation pages := (list page * page)%type.
Definition next_page (D : scope_object) (st : pages) : pages :=
  ((st.1 ++ [st.2])%list, newPage D (S (length st.1))).

(** Append, and if the box overflows take the row to a new page. *)
Definition place (D : scope_object) (st : pages) (html : string) : pages :=
  let added := add_row html st.2 in
  if box_overflows added
  then let '(fin, cur) := next_page D st in (fin, add_row html cur)
  else (st.1, added).

Definition item_rows (D : scope_object) : list string :=
  imap (λ i row, renderBand (band "detail-row") (row_scope D i row)) (items_of (property "items" D)).
Definition extra_rows (D : scope_object) : list string :=
  if has_band "detail-extra" then [renderBand (band "detail-extra") D] else [].

Definition pass1 (D : scope_object) : pages := foldl (place D) ([], newPage D 0) (item_rows D).
Definition pass2 (D : scope_object) (st : pages) : pages := foldl (place D) st (extra_rows D).
Definition pass3 (D : scope_object) (st : pages) : pages :=
  if has_band "summary" then
    let last := set_sum (renderBand (band "summary") (scope st.2)) st.2 in
    if box_overflows last
    then let '(fin, cur) := next_page D (st.1, set_sum "" st.2) in (fin, set_sum (renderBand (band "summary") (scope cur)) cur)
    else (st.1, last)
  else st.

Definition fillerWouldOverflow (p : page) : bool := box_overflows p || near_edge p.
Fixpoint fill_page (guard : nat) (html : string) (p : page) : page :=
  match guard with
  | O => p
  | S n => let p' := add_filler html p in if fillerWouldOverflow p' then p else fill_page n html p'
  end.
Definition FILLER_GUARD : nat := 500.
Definition dress (total idx : nat) (p : page) : page :=
  let p' := if has_band "filler-row" then fill_page FILLER_GUARD (renderBand (band "filler-row") (scope p)) p else p in
  set_ftr (renderBand (band (if (idx =? total - 1)%nat then "page-footer:last" else "page-footer:continuation")) (scope p)) p'.
Definition pass4 (ps : list page) : list page := imap (dress (length ps)) ps.

(** The pages; their number is what the [__pages] spans show. *)
Definition laid_out (D : scope_object) : list page :=
  let '(fin, cur) := pass3 D (pass2 D (pass1 D)) in (fin ++ [cur])%list.
Definition paginate (D : scope_object) : list page := pass4 (laid_out D).
End pagination.

(** ** What the four passes produce *)

Section layout.
Context (bands : string → option string) (box_overflows near_edge : page → bool).
Abbreviation band := (band bands).
Abbreviation has_band := (has_band bands).
Abbreviation laid_out := (laid_out bands box_overflows).
Abbreviation paginate := (paginate bands box_overflows near_edge).
Implicit Types (D : scope_object).

(** The [i]th page with some rows and a summary, before fillers. *)
Definition page_at D (i : nat) (rows : list string) (summary : string) : page :=
  let sc := page_scope D i in
  Page sc (renderBand (band "page-header") sc) (renderBand (band "detail-header") sc) rows [] summary
    (renderBand (band "page-footer:continuation") sc).
Definition fits (p : page) : Prop := box_overflows p = false ∨ (length (tbody p) ≤ 1)%nat.

(** The pages so far hold exactly the rows so far. *)
Definition holding D (rows : list string) (st : list page * page) : Prop :=
  ∃ done last, st = (imap (λ i r, page_at D i r "") done, page_at D (length done) last "") ∧
    (concat done ++ last = rows)%list ∧ Forall fits (st.1 ++ [st.2]).

Lemma place_holding D rows st html :
  holding D rows st → holding D (rows ++ [html]) (place bands box_overflows D st html).
Proof.
  intros (done & last & -> & <- & Hfits). apply Forall_app in Hfits as [Hdone Hlast]. unfold place. cbn [fst snd] in *.
  destruct (box_overflows (add_row html _)) eqn:E.
  - exists (done ++ [last])%list, [html]. split_and!.
    + unfold next_page. cbn [fst snd]. rewrite imap_app, length_imap, length_app. cbn. by rewrite Nat.add_0_r, Nat.add_1_r.
    + rewrite concat_app. cbn. by rewrite app_nil_r.
    + cbn [fst snd next_page]. apply Forall_app. split; [by apply Forall_app|]. apply Forall_singleton. right. cbn. lia.
  - exists done, (last ++ [html])%list. split_and!; [done|by rewrite app_assoc|].
    cbn [fst snd]. apply Forall_app. split; [done|]. apply Forall_singleton. by left.
Qed.
Lemma places_holding D rows st l :
  holding D rows st → holding D (rows ++ l) (foldl (place bands box_overflows D) st l).
Proof.
  revert rows st. induction l as [|html l IH]; intros rows st Hst; [by rewrite app_nil_r|].
  cbn [foldl]. rewrite (app_assoc rows [html] l : rows ++ html :: l = _)%list. apply IH. by apply place_holding.
Qed.
Lemma first_holding D : holding D [] ([], newPage bands D 0).
Proof. exists [], []. split_and!; [done..|]. apply Forall_singleton. right. cbn. lia. Qed.

(** The text of the summary on page [i]. *)
Definition summary_at D (i : nat) : string :=
  if has_band "summary" then renderBand (band "summary") (page_scope D i) else "".
Definition all_rows D : list string := item_rows bands D ++ extra_rows bands D.

Lemma laid_out_pages D :
  ∃ done last, laid_out D = (imap (λ i r, page_at D i r "") done ++ [page_at D (length done) last (summary_at D (length done))])%list ∧
    (concat done ++ last = all_rows D)%list ∧ Forall fits (laid_out D).
Proof.
  assert (holding D (all_rows D) (pass2 bands box_overflows D (pass1 bands box_overflows D))) as Hst.
  { unfold all_rows, pass2, pass1. apply places_holding. apply (places_holding D []), first_holding. }
  unfold laid_out, Paginator.laid_out, summary_at.
  destruct Hst as (done & last & -> & Hrows & Hfits). unfold pass3.
  destruct (has_band "summary"); [|by exists done, last]. cbn [fst snd] in *. apply Forall_app in Hfits as [Hdone Hlast].
  destruct (box_overflows (set_sum _ _)) eqn:E.
  - exists (done ++ [last])%list, []. split_and!.
    + unfold next_page. cbn [fst snd]. rewrite imap_app, length_imap, length_app. cbn. by rewrite Nat.add_0_r, Nat.add_1_r.
    + rewrite concat_app, app_nil_r. cbn. by rewrite app_nil_r.
    + cbn [fst snd next_page]. apply Forall_app. split; [by apply Forall_app|]. apply Forall_singleton. right. cbn. lia.
  - exists done, last. split_and!; [done..|]. apply Forall_app. split; [done|]. apply Forall_singleton. by left.
Qed.

(** Fillers are copies of the band, at most [FILLER_GUARD] of them, and the
    last of them left the page within its bounds. *)
Lemma fill_page_spec guard html p :
  ∃ n, fill_page box_overflows near_edge guard html p =
         Page (scope p) (hdr p) (thead p) (tbody p) (fillers p ++ replicate n html) (sum p) (ftr p) ∧
       (n ≤ guard)%nat ∧
       (n ≠ 0 → fillerWouldOverflow box_overflows near_edge (fill_page box_overflows near_edge guard html p) = false).
Proof.
  revert p. induction guard as [|g IH]; intros p; cbn [fill_page].
  - exists 0. cbn. rewrite app_nil_r. split_and!; [by destruct p|lia|done].
  - destruct (fillerWouldOverflow box_overflows near_edge (add_filler html p)) eqn:E.
    + exists 0. cbn. rewrite app_nil_r. split_and!; [by destruct p|lia|done].
    + destruct (IH (add_filler html p)) as (n & Heq & Hn & Hover). exists (S n). split_and!; [|lia|].
      * rewrite Heq. cbn. by rewrite <- app_assoc.
      * intros _. destruct n as [|n]; [|by apply Hover]. rewrite Heq. cbn. by rewrite app_nil_r.
Qed.

Lemma laid_out_lookup D : ∃ parts, concat parts = all_rows D ∧ length (laid_out D) = length parts ∧
  ∀ i rows, parts !! i = Some rows →
    laid_out D !! i = Some (page_at D i rows (if (i =? length parts - 1)%nat then summary_at D i else "")).
Proof.
  destruct (laid_out_pages D) as (done & last & Heq & Hrows & _). exists (done ++ [last])%list. rewrite Heq.
  rewrite concat_app, !length_app, length_imap. cbn. rewrite app_nil_r. split_and!; [done|done|].
  intros i rows [Hi|[Hge Hi]]%lookup_app_Some.
  - pose proof (lookup_lt_Some _ _ _ Hi). rewrite lookup_app_l by (rewrite length_imap; lia).
    rewrite list_lookup_imap, Hi. cbn. destruct (Nat.eqb_spec i (length done + 1 - 1)); [lia|done].
  - apply list_lookup_singleton_Some in Hi as [Hi <-]. assert (i = length done) as -> by lia.
    rewrite lookup_app_r, length_imap, Nat.sub_diag by (rewrite length_imap; lia). cbn.
    by rewrite Nat.add_sub, Nat.eqb_refl.
Qed.

(** The footer of a page by its position. *)
Definition footer_at D (total i : nat) : string :=
  renderBand (band (if (i =? total - 1)%nat then "page-footer:last" else "page-footer:continuation")) (page_scope D i).
Definition filler_at D (i : nat) : string := renderBand (band "filler-row") (page_scope D i).

Lemma dress_page D total i rows summary :
  ∃ n, dress bands box_overflows near_edge total i (page_at D i rows summary) =
    Page (page_scope D i) (hdr (page_at D i rows summary)) (thead (page_at D i rows summary)) rows
      (replicate n (filler_at D i)) summary (footer_at D total i) ∧ (n ≤ FILLER_GUARD)%nat ∧
    (n ≠ 0 → fillerWouldOverflow box_overflows near_edge
      (Page (page_scope D i) (hdr (page_at D i rows summary)) (thead (page_at D i rows summary)) rows
        (replicate n (filler_at D i)) summary (renderBand (band "page-footer:continuation") (page_scope D i))) = false).
Proof.
  unfold dress. destruct (has_band "filler-row").
  - destruct (fill_page_spec FILLER_GUARD (filler_at D i) (page_at D i rows summary)) as (n & Heq & Hn & Hover).
    exists n. rewrite Heq in Hover. cbn [scope page_at] in *. fold (filler_at D i). rewrite Heq. done.
  - exists 0. split_and!; [done|unfold FILLER_GUARD; lia|done].
Qed.

(** C36: every item is laid out exactly once and in order, followed by the extra
    block; page [i] is numbered [i + 1], the summary is on the last page only,
    which is also the only one with the footer of a last page. *)
Theorem paginate_rows D :
  ∃ parts, concat parts = all_rows D ∧ length (paginate D) = length parts ∧ parts ≠ [] ∧
    ∀ i rows, parts !! i = Some rows → ∃ n, (n ≤ FILLER_GUARD)%nat ∧
      paginate D !! i = Some (Page (page_scope D i) (renderBand (band "page-header") (page_scope D i))
        (renderBand (band "detail-header") (page_scope D i)) rows (replicate n (filler_at D i))
        (if (i =? length parts - 1)%nat then summary_at D i else "") (footer_at D (length parts) i)).
Proof.
  destruct (laid_out_lookup D) as (parts & Hrows & Hlen & Hpages). exists parts. split_and!; [done| | |].
  - unfold paginate, Paginator.paginate, pass4. by rewrite length_imap.
  - intros ->. destruct (laid_out_pages D) as (done & last & Heq & _). rewrite Heq, length_app in Hlen. cbn in Hlen. lia.
  - intros i rows Hi. unfold paginate, Paginator.paginate, pass4. rewrite list_lookup_imap, (Hpages i rows Hi). cbn [fmap option_fmap option_map].
    rewrite Hlen. destruct (dress_page D (length parts) i rows (if (i =? length parts - 1)%nat then summary_at D i else "")) as (n & Heq & Hn & _).
    exists n. by rewrite Heq.
Qed.

(** A page without its fillers, with the footer it was laid out with. *)
Definition undressed D (i : nat) (p : page) : page :=
  Page (scope p) (hdr p) (thead p) (tbody p) [] (sum p) (renderBand (band "page-footer:continuation") (page_scope D i)).

(** C33: no page overflows as it was laid out, except by a single row or a summary
    that needs more than a page, and fillers never make one overflow. *)
Theorem paginate_fits D i p (Hp : paginate D !! i = Some p) :
  fits (undressed D i p) ∧
  (fillers p ≠ [] → box_overflows (set_ftr (renderBand (band "page-footer:continuation") (page_scope D i)) p) = false).
Proof.
  destruct (laid_out_lookup D) as (parts & _ & Hlen & Hpages). destruct (laid_out_pages D) as (_ & _ & _ & _ & Hfits).
  unfold paginate, Paginator.paginate, pass4 in Hp. rewrite list_lookup_imap in Hp.
  destruct (laid_out D !! i) as [q|] eqn:Hq; [|done]. cbn in Hp. injection Hp as <-.
  pose proof (lookup_lt_Some _ _ _ Hq) as Hlt. rewrite Hlen in Hlt. apply lookup_lt_is_Some in Hlt as [rows Hi].
  pose proof (Hpages i rows Hi) as Hq'. rewrite Hq in Hq'. injection Hq' as ->.
  rewrite Forall_lookup in Hfits. specialize (Hfits i _ Hq). rewrite Hlen.
  destruct (dress_page D (length parts) i rows (if (i =? length parts - 1)%nat then summary_at D i else "")) as (n & Heq & _ & Hover).
  rewrite Heq. split; [exact Hfits|]. cbn. intros Hne. assert (n ≠ 0) as Hn by (by intros ->).
  by apply Hover, orb_false_iff in Hn as [? _].
Qed.
End layout.

(** ** What a band shows *)

Lemma matches_skip {A} (M : string → option (A * string)) f m rest :
  replace_matches M f (String.length m) (m +:+ rest) = replace_matches M f 0 rest.
Proof. induction m as [|c m IH]; [by rewrite append_nil_l|]. rewrite append_cons. exact IH. Qed.
Lemma matches_hit {A} (M : string → option (A * string)) f m a rest :
  m ≠ "" → M (m +:+ rest) = Some (a, rest) →
  replace_matches M f 0 (m +:+ rest) = f a +:+ replace_matches M f 0 rest.
Proof.
  destruct m as [|c m]; [done|]. intros _ HM. rewrite append_cons in *. cbn [replace_matches]. rewrite HM. f_equal.
  rewrite <- append_cons, append_length, Nat.add_sub. cbn [String.length]. rewrite Nat.sub_succ, Nat.sub_0_r. apply matches_skip.
Qed.
Lemma matches_none {A} (M : string → option (A * string)) f s :
  (∀ a b, s = a +:+ b → M b = None) → replace_matches M f 0 s = s.
Proof.
  induction s as [|c s IH]; intros Hnone; [done|]. cbn [replace_matches]. rewrite (Hnone "" (String c s)) by done. f_equal.
  apply IH. intros a b ->. by apply (Hnone (String c a)).
Qed.

Definition is_path (k : string) : bool := negb (String.eqb k "") && str_forall is_path_char k.
Lemma is_path_char_not c : is_path_char c = true → is_space c = false ∧ c ≠ "{"%char ∧ c ≠ "}"%char.
Proof. intros [Hw|Hd%Ascii.eqb_eq]%orb_true_iff; [by apply is_word_not|by subst]. Qed.
Lemma path_hole_hit n k m rest : is_path k = true → path_hole (show_segment (Hole n k m) +:+ rest) = Some (k, rest).
Proof.
  intros Hk. rewrite hole_shape. unfold path_hole.
  change (drop_prefix "{{" (String "{" ("{" +:+ ?x))) with (Some x). cbv iota. rewrite trimStart_spaces.
  destruct k as [|c k]; [done|]. apply andb_true_iff in Hk as [_ Hk]. pose proof Hk as [Hc _]%andb_true_iff.
  apply is_path_char_not in Hc as (Hs & _). rewrite append_cons, trimStart_word, <- append_cons by done.
  assert (∃ d t, spaces m +:+ "}}" +:+ rest = String d t ∧ is_path_char d = false) as (d & t & Hd & Hnot).
  { destruct m as [|m]; [by exists "}"%char; eexists|by exists " "%char; eexists]. }
  pose proof (trimStart_spaces m ("}}" +:+ rest)) as Htrim. rewrite Hd in Htrim |- *. rewrite span_app by done.
  cbn [String.eqb]. rewrite Htrim. change ("}}" +:+ rest) with (String "}" (String "}" rest)).
  rewrite trimStart_word by done. done.
Qed.

Definition path_segment (g : segment) : bool :=
  match g with Text t => str_forall no_brace t | Hole _ k _ => is_path k end.
(** What stands for a piece of a band under a scope. *)
Definition shown (scope : scope_object) (g : segment) : string :=
  match g with Text t => t | Hole _ k _ => path_text scope k end.

Lemma replace_paths_show scope l : Forall (λ g, path_segment g = true) l →
  replace_paths scope (show l) = String.concat "" (List.map (shown scope) l).
Proof.
  unfold replace_paths. induction 1 as [|g l Hg Hl IH]; [done|]. cbn [show List.map].
  assert (∀ a ls, String.concat "" (a :: ls) = a +:+ String.concat "" ls) as ->.
  { intros a [|b ls]; [by cbn; rewrite append_nil_r|done]. }
  rewrite <- IH. destruct g as [t|n k m]; cbn [shown].
  - cbn [show_segment path_segment] in *. clear IH. revert Hg. generalize (show l). intros rest.
    induction t as [|c t IHt]; intros Ht; [done|]. apply andb_true_iff in Ht as [Hc Ht]. rewrite !append_cons.
    cbn [replace_matches]. assert (path_hole (String c (t +:+ rest)) = None) as ->.
    { unfold path_hole. rewrite drop_prefix_ne; [done|]. intros <-. done. }
    by rewrite IHt.
  - rewrite (matches_hit path_hole (path_text scope) (show_segment (Hole n k m)) k); [done|done|]. by apply path_hole_hit.
Qed.

(** Characters that could start or end markup. *)
Definition is_markup (c : ascii) : bool := existsb (Ascii.eqb c) ["<"%char; ">"%char; quote_char].
Lemma escape_html_text s : str_forall (λ c, negb (is_markup c)) (escape_html s) = true.
Proof.
  induction s as [|c s IH]; [done|]. cbn [escape_html]. rewrite str_forall_app, IH, andb_true_r. unfold escape_char.
  destruct (Ascii.eqb c "&") eqn:E1; [done|]. destruct (Ascii.eqb c "<") eqn:E2; [done|].
  destruct (Ascii.eqb c ">") eqn:E3; [done|]. destruct (Ascii.eqb c quote_char) eqn:E4; [done|].
  cbn [str_forall]. unfold is_markup. cbn [existsb]. by rewrite E2, E3, E4.
Qed.
Lemma path_text_safe scope k : k ≠ "__pages" → str_forall (λ c, negb (is_markup c)) (path_text scope k) = true.
Proof.
  intros Hk. unfold path_text. destruct (String.eqb_spec k "__pages"); [done|].
  destruct (resolvePath k scope); try done; apply escape_html_text.
Qed.

(** A band without loops shows its text and, for each path, the value found
    there with no character of markup in it. *)
Theorem band_shows scope l (Hl : Forall (λ g, path_segment g = true) l)
    (Hflat : str_includes (show l) "<template data-repeat=" = false) :
  renderBand (show l) scope = String.concat "" (List.map (shown scope) l) ∧
  ∀ n k m, Hole n k m ∈ l → k ≠ "__pages" → str_forall (λ c, negb (is_markup c)) (shown scope (Hole n k m)) = true.
Proof.
  split; [|intros n k m _ Hk; by apply path_text_safe].
  unfold renderBand. cbn [render_band]. rewrite matches_none; [by apply replace_paths_show|].
  intros a b Hab. unfold repeat_block. destruct (drop_prefix _ b) as [r|] eqn:E; [|done]. apply drop_prefix_Some in E.
  rewrite (proj2 (str_includes_true _ _)) in Hflat; [done|]. exists a, (quote_str +:+ r). rewrite Hab, E. by rewrite !append_assoc.
Qed.

(** ** Termination of the recursion *)

Lemma matches_ext {A} (M : string → option (A * string)) f g n s :
  (∀ a b x rest, s = a +:+ b → M b = Some (x, rest) → f x = g x) →
  replace_matches M f n s = replace_matches M g n s.
Proof.
  revert n. induction s as [|c s IH]; intros n Hfg; [done|].
  assert (∀ n, replace_matches M f n s = replace_matches M g n s) as IH'.
  { intros k. apply IH. intros a b x rest ->. apply (Hfg (String c a)). done. }
  destruct n as [|n]; cbn [replace_matches]; [|by apply IH'].
  destruct (M (String c s)) as [[x rest]|] eqn:E; rewrite IH'; [|done]. by rewrite (Hfg "" (String c s) x rest).
Qed.
Lemma repeat_block_inner s k inner rest : repeat_block s = Some (k, inner, rest) → (String.length inner < String.length s)%nat.
Proof.
  unfold repeat_block. destruct (drop_prefix _ s) as [s1|] eqn:E; [|done]. apply drop_prefix_Some in E.
  destruct (span is_path_char s1) as [k' s2] eqn:Hs. pose proof (span_eq is_path_char s1) as Hs1. rewrite Hs in Hs1. cbn in Hs1.
  destruct (String.eqb k' ""); [done|]. destruct (drop_prefix _ s2) as [s3|] eqn:E2; [|done]. apply drop_prefix_Some in E2.
  destruct (find_sub _ s3) as [[i r]|] eqn:E3; [|done]. apply find_sub_Some in E3. intros [= <- <- <-].
  rewrite E, Hs1, E2, E3, !append_length. change (String.length "</template>") with 11%nat. lia.
Qed.
Lemma render_band_fuel n m html scope :
  (String.length html < n)%nat → (String.length html < m)%nat → render_band n html scope = render_band m html scope.
Proof.
  revert m html scope. induction n as [|n IH]; intros m html scope Hn Hm; [lia|]. destruct m as [|m]; [lia|].
  cbn [render_band]. f_equal. apply matches_ext. intros a b [k inner] rest -> Hb. apply repeat_block_inner in Hb.
  rewrite append_length in Hn, Hm. f_equal. apply imap_ext. intros i row _. apply IH; cbn; lia.
Qed.

(** The recursion unfolds as the script has it: the loops of a band render
    their inner text once for each item, then the paths are replaced. *)
Theorem renderBand_unfold html scope :
  renderBand html scope =
    replace_paths scope (replace_matches repeat_block
      (λ ki, String.concat "" (imap (λ i row, renderBand ki.2 (row_scope scope i row)) (items_of (resolvePath ki.1 scope)))) 0 html).
Proof.
  unfold renderBand at 1. cbn [render_band]. f_equal. apply matches_ext. intros a b [k inner] rest -> Hb.
  apply repeat_block_inner in Hb. rewrite append_length. f_equal. apply imap_ext. intros i row _. unfold renderBand.
  apply render_band_fuel; cbn; lia.
Qed.

(** The values a loop has inserted are read again for paths of the outer band:
    a row that spells a path shows the value of that path. *)
Example rows_are_read_again :
  renderBand ("<template data-repeat=" +:+ quote_str +:+ "items" +:+ quote_str +:+ ">{{row.note}};</template>")
    [("items", JArr [JObj [("note", JStr "a<b")]; JObj [("note", JStr "{{secret}}")]]); ("secret", JStr "s3")]
  = "a&lt;b;s3;".
Proof. by vm_compute. Qed.

(** ** A row higher than a page *)

Section oversize.
Context (bands : string → option string) (box_overflows near_edge : page → bool).

Lemma place_prefix D st html : ∃ ext, (place bands box_overflows D st html).1 = (st.1 ++ ext)%list.
Proof. unfold place. destruct (box_overflows _); cbn; [by eexists|exists []; by rewrite app_nil_r]. Qed.
Lemma places_prefix D st l : ∃ ext, (foldl (place bands box_overflows D) st l).1 = (st.1 ++ ext)%list.
Proof.
  revert st. induction l as [|html l IH]; intros st; [exists []; by rewrite app_nil_r|]. cbn [foldl].
  destruct (IH (place bands box_overflows D st html)) as [e1 ->]. destruct (place_prefix D st html) as [e2 ->].
  exists (e2 ++ e1)%list. by rewrite app_assoc.
Qed.

(** If the first row does not fit on a page of its own, the report starts with
    a page without rows, and the row is cut off on the second. *)
Theorem oversize_first_row D html rows (Hrows : item_rows bands D = html :: rows)
    (Hover : box_overflows (add_row html (newPage bands D 0)) = true) :
  ∃ p, paginate bands box_overflows near_edge D !! 0%nat = Some p ∧ tbody p = [].
Proof.
  assert (∃ ext, (pass3 bands box_overflows D (pass2 bands box_overflows D (pass1 bands box_overflows D))).1 = newPage bands D 0 :: ext) as [ext Hext].
  { assert (∃ ext, (pass2 bands box_overflows D (pass1 bands box_overflows D)).1 = newPage bands D 0 :: ext) as [ext Hext].
    { unfold pass2, pass1. rewrite Hrows. cbn [foldl]. unfold place at 3. cbn [fst snd]. rewrite Hover. cbn.
      rewrite <- foldl_app. destruct (places_prefix D ([newPage bands D 0], add_row html (newPage bands D 1)) (rows ++ extra_rows bands D)) as [e He].
      exists e. exact He. }
    unfold pass3. destruct (pass2 _ _ _ _) as [fin cur]. cbn [fst snd] in *. subst fin.
    destruct (has_band bands "summary"); [|by eexists]. destruct (box_overflows (set_sum _ _)); eexists; reflexivity. }
  unfold paginate, laid_out, pass4. destruct (pass3 _ _ _ _) as [fin cur]. cbn in Hext. subst fin. cbn.
  eexists. split; [done|]. unfold dress. destruct (has_band bands "filler-row"); [|done].
  destruct (fill_page_spec box_overflows near_edge FILLER_GUARD (renderBand (band bands "filler-row") (scope (newPage bands D 0))) (newPage bands D 0))
    as (n & -> & _). done.
Qed.
End oversize.

(** ** Witnesses *)

Definition sample_bands (name : string) : option string :=
  if String.eqb name "detail-row" then Some "<tr>{{__row_no}} {{row.name}}</tr>"
  else if String.eqb name "page-header" then Some "Page {{__page}} of {{__pages}}"
  else if String.eqb name "summary" then Some "{{total}}"
  else if String.eqb name "page-footer:last" then Some "end"
  else if String.eqb name "page-footer:continuation" then Some "continued on {{__next_page}}"
  else if String.eqb name "filler-row" then Some "<tr></tr>" else None.
(** A box for three rows, a summary taking the place of one. *)
Definition box_of_three (p : page) : bool :=
  (3 <? length (tbody p) + length (fillers p) + (if String.eqb (sum p) "" then 0 else 1))%nat.
Definition sample_data : scope_object :=
  [("items", JArr (List.map (λ s, JObj [("name", JStr s)]) ["a"; "b"; "<c>"])); ("total", JNum "9")].

Example sample_report :
  List.map (λ p, (hdr p, tbody p, length (fillers p), sum p, ftr p))
    (paginate sample_bands box_of_three (λ _, false) sample_data)
  = [("Page 1 of <span data-rp-pages></span>", ["<tr>1 a</tr>"; "<tr>2 b</tr>"; "<tr>3 &lt;c&gt;</tr>"], 0%nat, "", "continued on 2");
     ("Page 2 of <span data-rp-pages></span>", [], 2%nat, "9", "end")].
Proof. by vm_compute. Qed.

Lemma paginate_fits_witness :
  ∃ p, paginate sample_bands box_of_three (λ _, false) sample_data !! 1%nat = Some p ∧
    box_of_three (set_ftr (renderBand (band sample_bands "page-footer:continuation") (page_scope sample_data 1)) p) = false.
Proof.
  destruct (paginate sample_bands box_of_three (λ _, false) sample_data !! 1%nat) as [p|] eqn:E; [|vm_compute in E; discriminate E].
  exists p. split; [reflexivity|].
  apply (proj2 (paginate_fits sample_bands box_of_three (λ _, false) sample_data 1 p E)).
  vm_compute in E. injection E as <-. discriminate.
Defined.

Lemma band_shows_witness :
  renderBand "<td>{{ row.name }}</td>" [("row", JObj [("name", JStr "<b>")])] = "<td>&lt;b&gt;</td>".
Proof.
  exact (proj1 (band_shows [("row", JObj [("name", JStr "<b>")])] [Text "<td>"; Hole 1 "row.name" 1; Text "</td>"]
    ltac:(repeat constructor) eq_refl)).
Defined.

Lemma oversize_first_row_witness :
  ∃ p, paginate sample_bands (λ p, negb (length (tbody p) =? 0)%nat) (λ _, false) sample_data !! 0%nat = Some p ∧ tbody p = [].
Proof.
  exact (oversize_first_row sample_bands (λ p, negb (length (tbody p) =? 0)%nat) (λ _, false) sample_data
    "<tr>1 a</tr>" ["<tr>2 b</tr>"; "<tr>3 &lt;c&gt;</tr>"] eq_refl eq_refl).
Defined.
