(* ===== verification/PrintTemplates.v ===== *)
(** * Print templates

    [PrintTemplatesService]
    (src/apps/report-bc/src/modules/print-template/services/print-templates.service.ts):
    templates whose HTML and JavaScript are objects of the storage service, of
    which the table keeps bucket, path and hash.

    The state is the table of this service and the objects of the other; an
    operation changes both in steps that can fail between them, so it returns
    the state with the exception.  Each call of the storage service is given how
    it fares ([call]); SHA-256, HTTP and Gotenberg are arguments. *)

From S2P Require Import Prelude JsString JsValues Repo DbErrors BaseService Storage TemplateRender.
#[local] Open Scope string_scope.
#[local] Open Scope eff_scope.

(** ** The table *)

(** The columns that come from the DTO. *)
Record template_fields := TemplateFields {
  code : string;
  name_th : string;
  name_en : string;
  description_th : option string;
  description_en : option string;
  is_active : bool;
  paper_size : string;
  orientation : string;
  parameters : list IPrintTemplateParameter;
  template_engine : string;
  layout_config : jsv;
  emulated_media_type : string;
  mock_data : jsv;
}.
(** Where the contents are. *)
Record template_assets := TemplateAssets {
  html_bucket : string;
  html_path : string;
  html_hash : option string;
  js_bucket : option string;
  js_path : option string;
  js_hash : option string;
}.
Record PrintTemplate := Template { fields : template_fields; assets : template_assets }.
Abbreviation template_row := (base_row PrintTemplate).

(** The column defaults. *)
Definition blank_fields : template_fields :=
  TemplateFields "" "" "" None None true "A4" "portrait" [] "simple" (JObj []) "print" (JObj []).
Definition no_assets : template_assets := TemplateAssets "" "" None None None None.

(** [UpdatePrintTemplateDTO] without the two contents: a property is given or
    not. *)
Record template_rest := TemplateRest {
  d_code : option string;
  d_name_th : option string;
  d_name_en : option string;
  d_description_th : option (option string);
  d_description_en : option (option string);
  d_is_active : option bool;
  d_paper_size : option string;
  d_orientation : option string;
  d_parameters : option (list IPrintTemplateParameter);
  d_template_engine : option string;
  d_layout_config : option jsv;
  d_emulated_media_type : option string;
  d_mock_data : option jsv;
}.
Definition assign_rest (d : template_rest) (f : template_fields) : template_fields :=
  TemplateFields (default (code f) (d_code d)) (default (name_th f) (d_name_th d)) (default (name_en f) (d_name_en d))
    (default (description_th f) (d_description_th d)) (default (description_en f) (d_description_en d))
    (default (is_active f) (d_is_active d)) (default (paper_size f) (d_paper_size d))
    (default (orientation f) (d_orientation d)) (default (parameters f) (d_parameters d))
    (default (template_engine f) (d_template_engine d)) (default (layout_config f) (d_layout_config d))
    (default (emulated_media_type f) (d_emulated_media_type d)) (default (mock_data f) (d_mock_data d)).

(** A content of a DTO: not given, [null], or a text. *)
Inductive content := Absent | Cleared | Content (text : string).

Record pt_state (T : Type → Type) (O : Type) := PtState { templates : T template_row; objects : O }.
Arguments PtState {T O}. Arguments templates {T O}. Arguments objects {T O}.

(** How one call of the storage service fares, and the identifier it draws. *)
Record call := Call { c_delivery : delivery; c_net : sending; c_uuid : string }.

Definition TABLE : string := "print_templates".
Definition STORAGE_KEY_PREFIX : string := "reports/print-templates".
Definition RENDER_STORAGE_KEY_PREFIX : string := "reports/print-template-renders".
Definition templateStorageKey (id : string) : string := STORAGE_KEY_PREFIX +:+ "/" +:+ id.
Definition maxAttempts : nat := 5.

Definition asset_label (html : bool) : string := if html then "HTML" else "JavaScript".
Definition store_failed (html : bool) : exn :=
  ServiceUnavailableException ("Failed to store the template " +:+ asset_label html +:+ " — the storage service is unavailable.").
Definition load_failed (html : bool) : exn :=
  ServiceUnavailableException ("Failed to load the template " +:+ asset_label html +:+ " — the storage service is unavailable.").

Section service.
Context {T : Type → Type} `{Database T} {O : Type} `{ObjectStore O}.
Context (violates : T template_row → option driver_error) (sha256_hex : string → string).
(** The storage service: its decoder, its default bucket (also the one this
    service is configured with) and its presigner; what an error reply of it
    becomes; a GET of a URL, with the status of the response. *)
Context (decodeOriginalName : string → string) (defaultBucket : string)
        (getSignedUrl : string → string → Z → option string → string + s3_error)
        (rethrow : exn → option exn) (http_get : string → O → Z * string).
Abbreviation state := (pt_state T O).

Definition on_rows {A} (f : T template_row → result (A * T template_row)) : eff state A := λ s,
  match f (templates s) with
  | Ok (a, t) => (Ok a, PtState t (objects s))
  | Throw e => (Throw e, s)
  end.
Definition read_rows {A} (f : T template_row → result A) : eff state A := λ s, (f (templates s), s).
Definition on_objects {A} (m : eff O A) : eff state A := λ s,
  let '(res, o) := m (objects s) in (res, PtState (templates s) o).
Definition executeDb {A} (m : eff state A) : eff state A := λ s,
  let '(res, s') := m s in (ExecuteDb.executeDbOperation TABLE res, s').

Definition uploadTemplateAsset (c : call) (id filename mimetype text : string) (html : bool) :
    eff state (string * string) :=
  do! res := on_objects (rpc rethrow (c_delivery c)
    (uploadWithMeta decodeOriginalName (c_net c) (c_uuid c) defaultBucket (templateStorageKey id)
       (FilePayload filename mimetype text))) in
  match res with
  | None => eff_throw (store_failed html)
  | Some r => eff_ret (bucket r, path r)
  end.

(** Sent without waiting; whatever happens is logged. *)
Definition removeStorageObject (c : call) (bucket key : string) : eff state unit := λ s,
  (Ok (), PtState (templates s) (rpc rethrow (c_delivery c) (remove (c_net c) bucket key) (objects s)).2).
Definition remove_superseded (c : call) (superseded : option (string * string)) : eff state unit :=
  match superseded with
  | Some (bucket, path) => removeStorageObject c bucket path
  | None => eff_ret ()
  end.

(** One attempt: the network may fail, or the response not be in 200..299. *)
Definition try_fetch (reached : bool) (url : string) (o : O) : option string :=
  if reached then let '(status, text) := http_get url o in
                  if (200 <=? status)%Z && (status <=? 299)%Z then Some text else None
  else None.
(** The attempts from [attempt] on, with the milliseconds slept between them. *)
Fixpoint fetch_attempts (reached : nat → bool) (url : string) (o : O) (left attempt : nat) : option string * nat :=
  match left with
  | 0%nat => (None, 0)
  | S left' =>
      match try_fetch (reached attempt) url o with
      | Some text => (Some text, 0)
      | None => let '(res, slept) := fetch_attempts reached url o left' (S attempt) in
                (res, (if (attempt <? maxAttempts)%nat then attempt * 300 else 0) + slept)
      end
  end.
(** Signing ignores the bucket of the row. *)
Definition fetchTemplateAsset (c : call) (reached : nat → bool) (key : string) (html : bool) : eff state string :=
  do! urls := on_objects (rpc rethrow (c_delivery c)
    (eff_run (generateSignedUrls defaultBucket getSignedUrl [key] None))) in
  match truthy (urls ≫= head) with
  | None => eff_throw (load_failed html)
  | Some url =>
      do! text := eff_read (λ s, (fetch_attempts reached url (objects s) maxAttempts 1).1) in
      match text with Some t => eff_ret t | None => eff_throw (load_failed html) end
  end.

(** *** Reading *)

Record hydrated := Hydrated { entity : template_row; html_content : string; js_content : option string }.
Definition js_asset (a : template_assets) : option (string * string) :=
  match truthy (js_bucket a), truthy (js_path a) with
  | Some b, Some p => Some (b, p)
  | _, _ => None
  end.
Definition findById (c1 c2 : call) (reached : nat → bool) (id : string) : eff state hydrated :=
  do! entity := read_rows (BaseService.findById TABLE id) in
  let a := assets (cols entity) in
  do! html := fetchTemplateAsset c1 reached (html_path a) true in
  do! js := match js_asset a with
            | Some (_, path) => do! text := fetchTemplateAsset c2 reached path false in eff_ret (Some text)
            | None => eff_ret None
            end in
  eff_ret (Hydrated entity html js).

(** *** Create *)

Definition upload_js (c : call) (id filename : string) (js : content) : eff state (option (string * string * string)) :=
  match js with
  | Absent | Cleared | Content "" => eff_ret None
  | Content text =>
      do! uploadedJs := uploadTemplateAsset c id filename "text/javascript" text false in
      eff_ret (Some (uploadedJs, text))
  end.
Definition created_assets (uploadedHtml : string * string) (html : string)
    (uploadedJs : option (string * string * string)) : template_assets :=
  TemplateAssets uploadedHtml.1 uploadedHtml.2 (Some (sha256_hex html))
    (fst ∘ fst <$> uploadedJs) (snd ∘ fst <$> uploadedJs) (sha256_hex ∘ snd <$> uploadedJs).
Definition save_created (id : string) (rest : template_rest) (user : option current_user) (a : template_assets) :
    eff state template_row :=
  executeDb (on_rows (λ t,
    let entity := set_creator user (make_row id (Template (assign_rest rest blank_fields) a)) in
    let! t' := write violates (db_insert entity t) in Ok (entity, t'))).
Definition create (c1 c2 : call) (id : string) (rest : template_rest) (html : string) (js : content)
    (user : option current_user) : eff state template_row :=
  let code := default "undefined" (d_code rest) in
  do! uploadedHtml := uploadTemplateAsset c1 id (code +:+ ".html") "text/html" html true in
  do! uploadedJs := upload_js c2 id (code +:+ ".js") js in
  save_created id rest user (created_assets uploadedHtml html uploadedJs).

(** *** Update *)

(** What the first half of an update decides: the assets to write and the
    objects they replace. *)
Record staged := Staged {
  new_assets : template_assets;
  superseded_html : option (string * string);
  superseded_js : option (string * string);
}.

Definition stage_html (c : call) (id : string) (existing : PrintTemplate) (rest : template_rest) (html : option string) :
    eff state (string * string * option string * option (string * string)) :=
  let a := assets existing in
  let unchanged := (html_bucket a, html_path a, html_hash a, None) in
  match html with
  | None => eff_ret unchanged
  | Some text =>
      let newHash := sha256_hex text in
      if bool_decide (Some newHash = html_hash a) then eff_ret unchanged
      else
        do! (bucket, path) := uploadTemplateAsset c id
          (default (code (fields existing)) (d_code rest) +:+ ".html") "text/html" text true in
        eff_ret (bucket, path, Some newHash, Some (html_bucket a, html_path a))
  end.
Definition stage_js (c : call) (id : string) (existing : PrintTemplate) (rest : template_rest) (js : content) :
    eff state (option string * option string * option string * option (string * string)) :=
  let a := assets existing in
  let unchanged := (js_bucket a, js_path a, js_hash a, None) in
  match js with
  | Absent => eff_ret unchanged
  | Cleared => eff_ret (None, None, None, js_asset a)
  | Content text =>
      let newHash := sha256_hex text in
      if bool_decide (Some newHash = js_hash a) then eff_ret unchanged
      else
        do! (bucket, path) := uploadTemplateAsset c id
          (default (code (fields existing)) (d_code rest) +:+ ".js") "text/javascript" text false in
        eff_ret (Some bucket, Some path, Some newHash, js_asset a)
  end.
Definition stage (c1 c2 : call) (id : string) (existing : template_row) (rest : template_rest) (html : option string)
    (js : content) : eff state staged :=
  do! (hb, hp, hh, sup_html) := stage_html c1 id (cols existing) rest html in
  do! (jb, jp, jh, sup_js) := stage_js c2 id (cols existing) rest js in
  eff_ret (Staged (TemplateAssets hb hp hh jb jp jh) sup_html sup_js).

(** [preload] reads the row again and [save] writes the staged columns over it. *)
Definition commit (r1 r2 : call) (id : string) (rest : template_rest) (user : option current_user) (st : staged) :
    eff state template_row :=
  do! saved := on_rows (λ t,
    match repo_findById id t with
    | None => Throw (not_found TABLE id)
    | Some e =>
        let e' := set_updater user
          (with_cols (λ p, Template (assign_rest rest (fields p)) (new_assets st)) e) in
        let! t' := write violates (repo_save e' t) in Ok (e', t')
    end) in
  do! _ := remove_superseded r1 (superseded_html st) in
  do! _ := remove_superseded r2 (superseded_js st) in
  eff_ret saved.

Definition update (c1 c2 r1 r2 : call) (id : string) (rest : template_rest) (html : option string) (js : content)
    (user : option current_user) : eff state template_row :=
  executeDb (
    do! existing := read_rows (BaseService.findById TABLE id) in
    do! st := stage c1 c2 id existing rest html js in
    commit r1 r2 id rest user st).

(** *** Delete, as inherited *)

Definition delete (now : Z) (id : string) (softDelete : bool) (user : option current_user) : eff state unit :=
  on_rows (λ t, let! t' := BaseService.delete TABLE violates now id softDelete user t in Ok ((), t')).

(** *** Rendering *)

Record pdf_options := PdfOptions { emulatedMediaType : string; waitForExpression : option string }.
Context (convertHtmlToPdf : string → paper → pdf_options → result string)
        (paginatorScript : string) (stringify_params : list (string * jsv) → string).

Definition previewRender (html : string) (paperSize orientation templateEngine : option string)
    (params : list (string * jsv)) (jsContent : option string) : result string :=
  let dims := resolvePaperDimensions (default "A4" paperSize) (default "portrait" orientation) in
  let isBanded := bool_decide (templateEngine = Some "banded") in
  let renderHtml := if isBanded then banded_render paginatorScript stringify_params html params jsContent else html in
  convertHtmlToPdf renderHtml dims (PdfOptions "print" (if isBanded then Some WAIT_FOR_EXPRESSION else None)).

Record PrintTemplateRenderResultDTO := RenderResult {
  template_code : string;
  result_path : string;
  result_bucket : string;
  url : string;
  result_size : nat;
}.
Definition render_html (t : hydrated) (params : list (string * jsv)) : string :=
  let f := fields (cols (entity t)) in
  if String.eqb (template_engine f) "banded"
  then banded_render paginatorScript stringify_params (html_content t) params (js_content t)
  else substituteParameters (html_content t) (Some (parameters f)) params.
Definition RENDER_FAILED : exn :=
  ServiceUnavailableException "Generated the PDF but failed to store it — the storage service is unavailable.".
(** [c1], [c2] and [reached] are those of [findById]; [file_uuid] names the file. *)
Definition render (c1 c2 c3 c4 : call) (reached : nat → bool) (file_uuid id : string) (params : list (string * jsv)) :
    eff state PrintTemplateRenderResultDTO :=
  do! template := findById c1 c2 reached id in
  let f := fields (cols (entity template)) in
  let isBanded := String.eqb (template_engine f) "banded" in
  do! pdf := eff_run (convertHtmlToPdf (render_html template params)
    (resolvePaperDimensions (paper_size f) (orientation f))
    (PdfOptions (if String.eqb (emulated_media_type f) "screen" then "screen" else "print")
       (if isBanded then Some WAIT_FOR_EXPRESSION else None))) in
  do! uploadResult := on_objects (rpc rethrow (c_delivery c3)
    (uploadWithMeta decodeOriginalName (c_net c3) (c_uuid c3) defaultBucket RENDER_STORAGE_KEY_PREFIX
       (FilePayload (code f +:+ "-" +:+ file_uuid +:+ ".pdf") "application/pdf" pdf))) in
  match uploadResult with
  | None => eff_throw RENDER_FAILED
  | Some up =>
      do! signedUrls := on_objects (rpc rethrow (c_delivery c4)
        (eff_run (generateSignedUrls defaultBucket getSignedUrl [path up] None))) in
      eff_ret (RenderResult (code f) (path up) (bucket up) (default "" (signedUrls ≫= head)) (size up))
  end.
End service.

(** ** Consistency of the table with the store *)

Section laws.
Context {T : Type → Type} `{DatabaseLaws T} {O : Type} `{ObjectStoreLaws O}.
Context (violates : T template_row → option driver_error) (sha256_hex : string → string)
        (decodeOriginalName : string → string) (defaultBucket : string) (rethrow : exn → option exn).
Implicit Types (st : pt_state T O) (o : O) (a : template_assets) (r : template_row) (ref : string * string).

Abbreviation upload_asset := (uploadTemplateAsset (T := T) decodeOriginalName defaultBucket rethrow).
Abbreviation stage := (stage (T := T) sha256_hex decodeOriginalName defaultBucket rethrow).
Abbreviation stage_html := (stage_html (T := T) sha256_hex decodeOriginalName defaultBucket rethrow).
Abbreviation stage_js := (stage_js (T := T) sha256_hex decodeOriginalName defaultBucket rethrow).
Abbreviation commit := (commit violates rethrow).
Abbreviation update := (update violates sha256_hex decodeOriginalName defaultBucket rethrow).
Abbreviation create := (create violates sha256_hex decodeOriginalName defaultBucket rethrow).

Definition find_ref ref o : option object := get_object ref.1 ref.2 o.
Definition html_ref a : string * string := (html_bucket a, html_path a).
(** The objects a row refers to. *)
Definition refs a : list (string * string) :=
  html_ref a :: match js_asset a with Some p => [p] | None => [] end.
Definition stored o ref (hash : option string) : Prop :=
  ∃ x, find_ref ref o = Some x ∧ ∀ h, hash = Some h → h = sha256_hex (body x).
Definition assets_stored o a : Prop :=
  stored o (html_ref a) (html_hash a) ∧ ∀ p, js_asset a = Some p → stored o p (js_hash a).

(** A row without JavaScript has no hash of one. *)
Definition js_whole a : Prop := js_asset a = None → js_hash a = None.
(** Every row refers to objects that exist and have the hash of the row, and
    no object is referred to twice. *)
Record templates_ok st : Prop := {
  ok_pks : NoDup (pk <$> rows (templates st));
  ok_stored r : r ∈ rows (templates st) → assets_stored (objects st) (assets (cols r));
  ok_own r : r ∈ rows (templates st) → NoDup (refs (assets (cols r)));
  ok_whole r : r ∈ rows (templates st) → js_whole (assets (cols r));
  ok_others r r' p : r ∈ rows (templates st) → r' ∈ rows (templates st) →
    p ∈ refs (assets (cols r)) → p ∈ refs (assets (cols r')) → pk r = pk r';
}.

(** Nothing that was stored has changed. *)
Definition keeps o o' : Prop := ∀ b k, is_Some (get_object b k o) → get_object b k o' = get_object b k o.
Lemma keeps_trans o1 o2 o3 : keeps o1 o2 → keeps o2 o3 → keeps o1 o3.
Proof. intros H12 H23 b k Hs. rewrite H23; [by apply H12|]. by rewrite (H12 b k Hs). Qed.
Lemma stored_keeps o o' ref h : keeps o o' → stored o ref h → stored o' ref h.
Proof. intros Hk (x & Hx & Hh). exists x. split; [|done]. unfold find_ref in *. rewrite Hk; eauto. Qed.
Lemma assets_keeps o o' a : keeps o o' → assets_stored o a → assets_stored o' a.
Proof. intros Hk [Hh Hj]. split; eauto using stored_keeps. Qed.
Lemma ok_keeps st o' : templates_ok st → keeps (objects st) o' → templates_ok (PtState (templates st) o').
Proof. intros [Hpk Hs Ho Hw Hx] Hk. split; cbn; eauto using assets_keeps. Qed.
Lemma refs_stored o a p : assets_stored o a → p ∈ refs a → is_Some (find_ref p o).
Proof.
  intros [(x & Hx & _) Hj] [->|Hp]%elem_of_cons; [by eexists|].
  destruct (js_asset a) as [q|]; [|by apply elem_of_nil in Hp]. apply list_elem_of_singleton in Hp as ->.
  destruct (Hj q eq_refl) as (y & Hy & _). by eexists.
Qed.

(** *** Uploads *)

Definition asset_key (c : call) (id filename : string) : string :=
  object_key (templateStorageKey id) (c_uuid c) (decodeOriginalName filename).

Lemma upload_asset_spec c id filename mime text html st :
  fresh_uuid (c_uuid c) (objects st) →
  let '(res, st') := upload_asset c id filename mime text html st in
  templates st' = templates st ∧ keeps (objects st) (objects st') ∧
  (∀ b k, get_object b k (objects st') ≠ get_object b k (objects st) → k = asset_key c id filename) ∧
  ∀ ref, res = Ok ref → find_ref ref (objects st) = None ∧ find_ref ref (objects st') = Some (Object text mime) ∧
    ref = (defaultBucket, asset_key c id filename).
Proof.
  intros Hf. unfold uploadTemplateAsset, on_objects, rpc, uploadWithMeta, eff_bind.
  pose proof (upload_store decodeOriginalName (c_net c) (c_uuid c) defaultBucket (templateStorageKey id)
    (FilePayload filename mime text) (objects st) Hf) as Hup. cbn [Storage.originalname Storage.buffer Storage.mimetype] in Hup.
  assert (∀ b k, get_object b k (upload decodeOriginalName (c_net c) (c_uuid c) defaultBucket (templateStorageKey id)
      (FilePayload filename mime text) (objects st)).2 ≠ get_object b k (objects st) → k = asset_key c id filename) as Hother.
  { intros b k. unfold upload, eff_bind, send. destruct (c_net c); cbn; rewrite ?get_put; try done;
      case_decide as Hd; try done; by injection Hd as _ ->. }
  destruct (upload _ _ _ _ _ _ _) as [res o']. cbn [snd] in Hother. destruct Hup as (Hnone & Hkeep & Hres).
  destruct (c_delivery c), res as [p|e]; cbn;
    try (destruct (rethrow e); cbn); try (split_and!; [done|done|done|done]); try (split_and!; [done| |done|done]; by intros ? ?).
  destruct (Hres p eq_refl) as [-> Hp]. split_and!; [done|done|done|]. intros ref [= <-]. cbn. done.
Qed.
Lemma upload_asset_fresh c id filename mime text html st u :
  fresh_uuid (c_uuid c) (objects st) → fresh_uuid u (objects st) → str_includes (asset_key c id filename) u = false →
  fresh_uuid u (objects (upload_asset c id filename mime text html st).2).
Proof.
  intros Hc Hu Hk b k Hs. pose proof (upload_asset_spec c id filename mime text html st Hc) as Hspec.
  destruct (upload_asset _ _ _ _ _ _ _) as [res st']. destruct Hspec as (_ & _ & Hother & _). cbn in *.
  destruct (get_object b k (objects st)) eqn:E; [apply (Hu b k); by rewrite E|].
  rewrite (Hother b k); [done|]. rewrite E. by destruct Hs as [? ->].
Qed.

(** *** Staging *)

Section staging.
Context (Hbucket : defaultBucket ≠ "").

(** An object that was not there before holds the text. *)
Definition uploaded o o' ref (text : string) (hash : option string) : Prop :=
  find_ref ref o = None ∧ ref.1 = defaultBucket ∧ ref.2 ≠ "" ∧
  hash = Some (sha256_hex text) ∧ ∃ x, find_ref ref o' = Some x ∧ body x = text.
(** [superseded] is set exactly when the asset is replaced. *)
Definition html_staged o o' a (html : option string) ref hash sup : Prop :=
  (sup = None ∧ ref = html_ref a ∧ hash = html_hash a ∧ (∀ text, html = Some text → html_hash a = Some (sha256_hex text))) ∨
  (sup = Some (html_ref a) ∧ ∃ text, html = Some text ∧ uploaded o o' ref text hash).
Definition js_staged o o' a (js : content) (triple : option string * option string * option string) sup : Prop :=
  (sup = None ∧ triple = (js_bucket a, js_path a, js_hash a) ∧
     (js = Absent ∨ ∃ text, js = Content text ∧ js_hash a = Some (sha256_hex text))) ∨
  (sup = js_asset a ∧ js = Cleared ∧ triple = (None, None, None)) ∨
  (sup = js_asset a ∧ ∃ text b p h, js = Content text ∧ triple = (Some b, Some p, h) ∧ uploaded o o' (b, p) text h).

Lemma asset_key_nonempty c id filename : asset_key c id filename ≠ "".
Proof. by unfold asset_key, object_key, templateStorageKey, STORAGE_KEY_PREFIX. Qed.

Lemma uploaded_asset c id filename mime text html st ref st' :
  fresh_uuid (c_uuid c) (objects st) → upload_asset c id filename mime text html st = (Ok ref, st') →
  uploaded (objects st) (objects st') ref text (Some (sha256_hex text)).
Proof.
  intros Hf E. pose proof (upload_asset_spec c id filename mime text html st Hf) as Hspec. rewrite E in Hspec.
  destruct Hspec as (_ & _ & _ & Hres). destruct (Hres ref eq_refl) as (Hnone & Hsome & ->).
  split_and!; [done|done|apply asset_key_nonempty|done|]. by eexists.
Qed.
Lemma upload_keeps c id filename mime text html st res st' :
  fresh_uuid (c_uuid c) (objects st) → upload_asset c id filename mime text html st = (res, st') →
  templates st' = templates st ∧ keeps (objects st) (objects st').
Proof.
  intros Hf E. pose proof (upload_asset_spec c id filename mime text html st Hf) as Hspec. rewrite E in Hspec.
  by destruct Hspec as (? & ? & _).
Qed.
Lemma keeps_refl o : keeps o o.
Proof. by intros b k _. Qed.

Lemma stage_html_spec c id e rest html st res st' :
  fresh_uuid (c_uuid c) (objects st) → stage_html c id e rest html st = (res, st') →
  templates st' = templates st ∧ keeps (objects st) (objects st') ∧
  ∀ b p h sup, res = Ok (b, p, h, sup) → html_staged (objects st) (objects st') (assets e) html (b, p) h sup.
Proof.
  intros Hf. unfold PrintTemplates.stage_html, html_staged. destruct html as [text|].
  2: { intros [= <- <-]. split_and!; [done|apply keeps_refl|]. intros b p h sup [= <- <- <- <-]. by left. }
  destruct (bool_decide_reflect (Some (sha256_hex text) = html_hash (assets e))) as [Heq|_].
  { intros [= <- <-]. split_and!; [done|apply keeps_refl|]. intros b p h sup [= <- <- <- <-]. left.
    split_and!; [done..|]. by intros ? [= <-]. }
  unfold eff_bind. destruct (upload_asset c id _ _ text true st) as [[[b p]|x] st1] eqn:E; intros [= <- <-].
  - pose proof (upload_keeps _ _ _ _ _ _ _ _ _ Hf E) as [? ?]. split_and!; [done..|]. intros ? ? ? ? [= <- <- <- <-]. right.
    split; [done|]. exists text. split; [done|]. by apply (uploaded_asset _ _ _ _ _ _ _ _ _ Hf E).
  - pose proof (upload_keeps _ _ _ _ _ _ _ _ _ Hf E) as [? ?]. by split_and!.
Qed.
Lemma stage_js_spec c id e rest js st res st' :
  fresh_uuid (c_uuid c) (objects st) → stage_js c id e rest js st = (res, st') →
  templates st' = templates st ∧ keeps (objects st) (objects st') ∧
  ∀ b p h sup, res = Ok (b, p, h, sup) → js_staged (objects st) (objects st') (assets e) js (b, p, h) sup.
Proof.
  intros Hf. unfold PrintTemplates.stage_js, js_staged. destruct js as [| |text].
  - intros [= <- <-]. split_and!; [done|apply keeps_refl|]. intros b p h sup [= <- <- <- <-]. left. by split_and!; [..|left].
  - intros [= <- <-]. split_and!; [done|apply keeps_refl|]. intros b p h sup [= <- <- <- <-]. right. by left.
  - destruct (bool_decide_reflect (Some (sha256_hex text) = js_hash (assets e))) as [Heq|_].
    { intros [= <- <-]. split_and!; [done|apply keeps_refl|]. intros b p h sup [= <- <- <- <-]. left.
      split_and!; [done..|]. right. by exists text. }
    unfold eff_bind. destruct (upload_asset c id _ _ text false st) as [[[b p]|x] st1] eqn:E; intros [= <- <-].
    + pose proof (upload_keeps _ _ _ _ _ _ _ _ _ Hf E) as [? ?]. split_and!; [done..|]. intros ? ? ? ? [= <- <- <- <-]. right. right.
      split; [done|]. exists text, b, p. eexists. split_and!; [done..|]. by apply (uploaded_asset _ _ _ _ _ _ _ _ _ Hf E).
    + pose proof (upload_keeps _ _ _ _ _ _ _ _ _ Hf E) as [? ?]. by split_and!.
Qed.

(** The identifiers of the two uploads are new, and the second is not part of
    the first key. *)
Definition fresh_calls (c1 c2 : call) (id code : string) o : Prop :=
  fresh_uuid (c_uuid c1) o ∧ fresh_uuid (c_uuid c2) o ∧ str_includes (asset_key c1 id (code +:+ ".html")) (c_uuid c2) = false.

Definition js_triple a : option string * option string * option string := (js_bucket a, js_path a, js_hash a).
Definition staged_from o o' a (html : option string) (js : content) (sg : staged) : Prop :=
  ∃ o1, keeps o o1 ∧ keeps o1 o' ∧
    html_staged o o1 a html (html_ref (new_assets sg)) (html_hash (new_assets sg)) (superseded_html sg) ∧
    js_staged o1 o' a js (js_triple (new_assets sg)) (superseded_js sg).

Lemma stage_html_fresh c id e rest html st u :
  fresh_uuid (c_uuid c) (objects st) → fresh_uuid u (objects st) →
  str_includes (asset_key c id (default (code (fields e)) (d_code rest) +:+ ".html")) u = false →
  fresh_uuid u (objects (stage_html c id e rest html st).2).
Proof.
  intros Hc Hu Hk. unfold PrintTemplates.stage_html. destruct html as [text|]; [|done]. destruct (bool_decide _); [done|].
  pose proof (upload_asset_fresh c id _ "text/html" text true st u Hc Hu Hk) as Hf. unfold eff_bind.
  destruct (upload_asset c id _ "text/html" text true st) as [[[b p]|x] st1]; exact Hf.
Qed.
Lemma stage_spec c1 c2 id r rest html js st res st' :
  fresh_calls c1 c2 id (default (code (fields (cols r))) (d_code rest)) (objects st) →
  stage c1 c2 id r rest html js st = (res, st') →
  templates st' = templates st ∧ keeps (objects st) (objects st') ∧
  ∀ sg, res = Ok sg → staged_from (objects st) (objects st') (assets (cols r)) html js sg.
Proof.
  intros (Hf1 & Hf2 & Hk). unfold PrintTemplates.stage. unfold eff_bind at 1.
  pose proof (stage_html_fresh c1 id (cols r) rest html st _ Hf1 Hf2 Hk) as Hf.
  destruct (stage_html c1 id (cols r) rest html st) as [[[[[hb hp] hh] sup]|x] st1] eqn:E1; cbn [snd] in Hf.
  2: { apply stage_html_spec in E1 as (Ht & Hkeep & _); [|done]. intros [= <- <-]. by split_and!. }
  apply stage_html_spec in E1 as (Ht1 & Hk1 & Hhtml); [|done]. unfold eff_bind at 1.
  destruct (stage_js c2 id (cols r) rest js st1) as [[[[[jb jp] jh] supj]|x] st2] eqn:E2.
  2: { apply stage_js_spec in E2 as (Ht & Hkeep & _); [|done]. intros [= <- <-].
       split_and!; [congruence|by eapply keeps_trans|done]. }
  apply stage_js_spec in E2 as (Ht2 & Hk2 & Hjs); [|done]. intros [= <- <-].
  split_and!; [congruence|by eapply keeps_trans|]. intros sg [= <-]. exists (objects st1).
  split_and!; [done|done|by apply Hhtml|by apply Hjs].
Qed.

Lemma js_asset_eq a a' : js_triple a = js_triple a' → js_asset a = js_asset a'.
Proof. unfold js_triple, js_asset. by intros [= -> ->]. Qed.
Lemma js_asset_uploaded a b p h : js_triple a = (Some b, Some p, h) → b ≠ "" → p ≠ "" → js_asset a = Some (b, p).
Proof. unfold js_triple, js_asset. intros [= -> -> _] Hb Hp. by destruct b, p. Qed.
Lemma js_asset_cleared a : js_triple a = (None, None, None) → js_asset a = None.
Proof. unfold js_triple, js_asset. by intros [= -> -> _]. Qed.

(** A staged asset is the old one or was not there before. *)
Lemma staged_refs o o' a html js sg p : assets_stored o a → staged_from o o' a html js sg →
  p ∈ refs (new_assets sg) → p ∈ refs a ∨ find_ref p o = None.
Proof.
  intros Ha (o1 & Hk1 & Hk2 & Hh & Hj) [->|Hp]%elem_of_cons.
  - destruct Hh as [(_ & -> & _)|(_ & text & _ & Hnone & _)]; [left; by left|by right].
  - destruct (js_asset (new_assets sg)) as [q|] eqn:E; [|by apply elem_of_nil in Hp].
    apply list_elem_of_singleton in Hp as ->.
    destruct Hj as [(_ & Heq & _)|[(_ & _ & Heq)|(_ & text & b & p & h & _ & Heq & Hnone & _ & Hp2 & _)]].
    + left. unfold refs. rewrite (js_asset_eq _ a Heq) in E. rewrite E. right. by left.
    + by rewrite (js_asset_cleared _ Heq) in E.
    + right. destruct (find_ref q o) as [x|] eqn:Eq; [|done].
      destruct (decide (b = "")) as [->|Hb].
      { unfold js_triple in Heq. unfold js_asset in E. injection Heq as Hb _ _. by rewrite Hb in E. }
      rewrite (js_asset_uploaded _ _ _ _ Heq) in E by done. injection E as <-.
      unfold find_ref in *. cbn in *. rewrite <- (Hk1 b p) in Eq by (rewrite Eq; eauto). congruence.
Qed.

Lemma js_triple_hash a b p h : js_triple a = (b, p, h) → js_hash a = h.
Proof. by intros [= _ _ ->]. Qed.
Lemma uploaded_stored o o' ref text hash : uploaded o o' ref text hash → stored o' ref hash.
Proof. intros (_ & _ & _ & -> & x & Hx & <-). exists x. split; [done|]. by intros h [= <-]. Qed.
(** The JavaScript of the new assets: the old object, or a new one. *)
Lemma js_staged_cases o o' a n js sup q : js_staged o o' a js (js_triple n) sup → js_asset n = Some q →
  (js_asset a = Some q ∧ sup = None ∧ js_hash n = js_hash a) ∨
  (find_ref q o = None ∧ sup = js_asset a ∧ stored o' q (js_hash n)).
Proof.
  intros Hj E. destruct Hj as [(-> & Heq & _)|[(_ & _ & Heq)|(-> & text & b & p & h & _ & Heq & Hup)]].
  - left. rewrite (js_asset_eq _ a Heq) in E. split_and!; [done..|]. by injection Heq.
  - by rewrite (js_asset_cleared _ Heq) in E.
  - right. pose proof (js_triple_hash _ _ _ _ Heq) as Hh. pose proof Hup as (Hnone & Hb & Hp & _).
    rewrite (js_asset_uploaded _ _ _ _ Heq) in E; [|cbn in Hb; congruence|done]. injection E as <-.
    split_and!; [done..|]. rewrite Hh. by eapply uploaded_stored.
Qed.
Lemma js_staged_sup o o' a js triple sup : js_staged o o' a js triple sup → sup = None ∨ sup = js_asset a.
Proof. intros [(? & _)|[(? & _)|(? & _)]]; auto. Qed.

Lemma absent_stored o ref ref' h : find_ref ref o = None → stored o ref' h → ref ≠ ref'.
Proof. intros Hn (x & Hx & _) ->. congruence. Qed.

Lemma staged_ok o o' a html js sg : assets_stored o a → NoDup (refs a) → staged_from o o' a html js sg →
  assets_stored o' (new_assets sg) ∧ NoDup (refs (new_assets sg)) ∧
  ∀ p, superseded_html sg = Some p ∨ superseded_js sg = Some p → p ∈ refs a ∧ p ∉ refs (new_assets sg).
Proof.
  intros [Hah Haj] Hnd (o1 & Hk1 & Hk2 & Hh & Hj). set (n := new_assets sg) in *.
  assert (∀ q, js_asset a = Some q → html_ref a ≠ q) as Hdist.
  { intros q Hq. unfold refs in Hnd. rewrite Hq in Hnd. inversion Hnd as [|? ? Hnin _]; subst. intros <-. apply Hnin. by left. }
  assert (stored o1 (html_ref n) (html_hash n)) as Hhtml.
  { destruct Hh as [(_ & -> & -> & _)|(_ & text & _ & Hup)]; [by eapply stored_keeps|by eapply uploaded_stored]. }
  pose proof (js_staged_cases o1 o' a n js) as Hcases.
  assert (∀ q, js_asset n = Some q → html_ref n ≠ q) as Hdist'.
  { intros q Hq. destruct (Hcases _ q Hj Hq) as [(Hold & _)|(Hnone & _)].
    - destruct Hh as [(_ & -> & _)|(_ & text & _ & Hnone & _)]; [by apply Hdist|].
      by apply (absent_stored o _ _ (js_hash a)), Haj.
    - apply not_eq_sym. by apply (absent_stored o1 _ _ (html_hash n)). }
  split_and!.
  - split; [by eapply stored_keeps|]. intros q Hq. destruct (Hcases _ q Hj Hq) as [(Hold & _ & ->)|(_ & _ & Hs)]; [|done].
    apply (stored_keeps o); [by eapply keeps_trans|]. by apply Haj.
  - unfold refs. apply NoDup_cons. destruct (js_asset n) as [q|]; [|split; [by intros ?%elem_of_nil|constructor]].
    split; [intros Heq%list_elem_of_singleton; by apply (Hdist' q)|apply NoDup_singleton].
  - intros p Hp.
    assert (p ∈ refs a) as Hin.
    { destruct Hp as [Hp|Hp].
      - destruct Hh as [(Hs & _)|(Hs & _)]; rewrite Hs in Hp; [done|]. injection Hp as <-. by left.
      - destruct (js_staged_sup _ _ _ _ _ _ Hj) as [Hs|Hs]; rewrite Hs in Hp; [done|]. unfold refs. rewrite Hp. right. by left. }
    split; [done|]. intros Hin'. destruct Hp as [Hp|Hp].
    + destruct Hh as [(Hs & _)|(Hs & text & _ & Hnone & _)]; rewrite Hs in Hp; [done|]. injection Hp as <-.
      apply elem_of_cons in Hin' as [Heq|Hin'].
      * rewrite <- Heq in Hnone. by apply (absent_stored o _ _ _ Hnone Hah).
      * destruct (js_asset n) as [q|] eqn:Eq; [|by apply elem_of_nil in Hin']. apply list_elem_of_singleton in Hin' as <-.
        destruct (Hcases _ _ Hj eq_refl) as [(Hold & _)|(Hnone' & _)]; [by apply (Hdist _ Hold)|].
        by apply (absent_stored o1 _ _ _ Hnone' (stored_keeps _ _ _ _ Hk1 Hah)).
    + apply elem_of_cons in Hin' as [Heq|Hin'].
      * destruct (js_staged_sup _ _ _ _ _ _ Hj) as [Hs|Hs]; rewrite Hs in Hp; [done|].
        destruct Hh as [(_ & Hr & _)|(_ & text & _ & Hnone & _)]; [apply (Hdist p Hp); congruence|].
        rewrite <- Heq in Hnone. by apply (absent_stored o _ _ _ Hnone (Haj p Hp)).
      * destruct (js_asset n) as [q|] eqn:Eq; [|by apply elem_of_nil in Hin']. apply list_elem_of_singleton in Hin' as <-.
        destruct (Hcases _ _ Hj eq_refl) as [(_ & Hs & _)|(Hnone' & Hs & _)]; [by rewrite Hs in Hp|]. rewrite Hs in Hp.
        by apply (absent_stored o1 _ _ _ Hnone' (stored_keeps _ _ _ _ Hk1 (Haj p Hp))).
Qed.

(** *** The invariant *)

Lemma remove_superseded_ok c sup st : templates_ok st →
  (∀ p r, sup = Some p → r ∈ rows (templates st) → p ∉ refs (assets (cols r))) →
  templates_ok (remove_superseded rethrow c sup st).2 ∧
  templates (remove_superseded rethrow c sup st).2 = templates st.
Proof.
  intros Hok Hsup. destruct sup as [[b k]|]; [|done]. split; [|done].
  assert (∀ b' k', (b', k') ≠ (b, k) → get_object b' k' (rpc rethrow (c_delivery c) (remove (c_net c) b k) (objects st)).2
                   = get_object b' k' (objects st)) as Hother.
  { intros b' k' Hne. unfold rpc, remove, eff_bind, send.
    destruct (c_delivery c), (c_net c); cbn; try destruct (rethrow _); cbn; try done;
      by rewrite get_delete, decide_False by congruence. }
  destruct Hok as [Hpk Hs Ho Hw Hx]. split; cbn; [done| |done..].
  intros r Hr. destruct (Hs r Hr) as [Hh Hj].
  assert (∀ ref h, ref ∈ refs (assets (cols r)) → stored (objects st) ref h →
    stored (rpc rethrow (c_delivery c) (remove (c_net c) b k) (objects st)).2 ref h) as Hst.
  { intros [b' k'] h Hin (x & Hx' & Hh'). exists x. split; [|done]. unfold find_ref in *. cbn in *. rewrite Hother; [done|].
    intros Heq. rewrite Heq in Hin. by apply (Hsup (b, k) r eq_refl Hr). }
  split; [apply Hst; [by left|done]|]. intros p Hp. apply Hst; [|by apply Hj]. unfold refs. rewrite Hp. right. by left.
Qed.

(** Writing assets over a row whose objects no other row has. *)
Lemma save_ok st e e' : templates_ok st → e ∈ rows (templates st) → pk e' = pk e →
  assets_stored (objects st) (assets (cols e')) → NoDup (refs (assets (cols e'))) → js_whole (assets (cols e')) →
  (∀ r p, r ∈ rows (templates st) → pk r ≠ pk e → p ∈ refs (assets (cols r)) → p ∉ refs (assets (cols e'))) →
  templates_ok (PtState (repo_save e' (templates st)) (objects st)).
Proof.
  intros [Hpk Hs Ho Hw Hx] He Hpke Has Hnd Hwh Hexcl.
  assert (∀ r, r ∈ rows (repo_save e' (templates st)) → (r ∈ rows (templates st) ∧ pk r ≠ pk e) ∨ r = e') as Hrows.
  { intros r [[? ?]|[-> _]]%elem_of_repo_save; [left|by right]. split; [done|]. by rewrite <- Hpke. }
  split; cbn.
  - change (NoDup (pk <$> rows (repo_save e' (templates st)))). by rewrite repo_save_pks.
  - intros r [[? _]| ->]%Hrows; [by apply Hs|done].
  - intros r [[? _]| ->]%Hrows; [by apply Ho|done].
  - intros r [[? _]| ->]%Hrows; [by apply Hw|done].
  - intros r r' p [[Hr Hn]| ->]%Hrows [[Hr' Hn']| ->]%Hrows Hp Hp'; [by apply (Hx r r' p)| | |done].
    + by destruct (Hexcl r p Hr Hn Hp).
    + by destruct (Hexcl r' p Hr' Hn' Hp').
Qed.

Lemma find_row st id : templates_ok st → ∀ e e', BaseService.findById TABLE id (templates st) = Ok e →
  repo_findById id (templates st) = Some e' → e' = e ∧ e ∈ rows (templates st) ∧ pk e = id.
Proof.
  intros Hok e e' (Hin & Hpk & _)%findById_Ok He'.
  apply repo_findOne_Some in He' as (Hin' & Hpk'%has_pk_true & _). split_and!; [|done|done].
  apply (NoDup_fmap_elem_inj pk (rows (templates st))); [apply Hok|done|done|cbn in *; congruence].
Qed.

Lemma stored_not_absent st p r : templates_ok st → r ∈ rows (templates st) → p ∈ refs (assets (cols r)) →
  find_ref p (objects st) ≠ None.
Proof. intros Hok Hr Hp Hn. destruct (refs_stored _ _ _ (ok_stored st Hok r Hr) Hp). congruence. Qed.

Lemma staged_whole o o' a html js sg : js_whole a → staged_from o o' a html js sg → js_whole (new_assets sg).
Proof.
  intros Ha (o1 & _ & _ & _ & Hj) Hn. destruct Hj as [(_ & Heq & _)|[(_ & _ & Heq)|(_ & text & b & p & h & _ & Heq & Hup)]].
  - rewrite (js_asset_eq _ _ Heq) in Hn. injection Heq as _ _ ->. by apply Ha.
  - by injection Heq.
  - destruct Hup as (_ & Hb & Hp & _). cbn in Hb. rewrite (js_asset_uploaded _ _ _ _ Heq) in Hn; [done|congruence|done].
Qed.
(** The state after the first half of an update. *)
Lemma staged_excl st st1 e html js sg r p : templates_ok st → e ∈ rows (templates st) →
  staged_from (objects st) (objects st1) (assets (cols e)) html js sg →
  r ∈ rows (templates st) → pk r ≠ pk e → p ∈ refs (assets (cols r)) → p ∉ refs (new_assets sg).
Proof.
  intros Hok He Hst Hr Hne Hp Hin. apply (staged_refs _ _ _ _ _ _ p (ok_stored st Hok e He) Hst) in Hin as [Hin|Hin].
  - apply Hne. by apply (ok_others st Hok r e p).
  - by apply (stored_not_absent st p r).
Qed.

Lemma template_update_ok (c1 c2 d1 d2 : call) id rest html js user st :
  templates_ok st →
  (∀ e, BaseService.findById TABLE id (templates st) = Ok e →
    fresh_calls c1 c2 id (default (code (fields (cols e))) (d_code rest)) (objects st)) →
  templates_ok (update c1 c2 d1 d2 id rest html js user st).2.
Proof.
  intros Hok Hfresh. unfold PrintTemplates.update, executeDb.
  enough (templates_ok ((do! existing := read_rows (BaseService.findById TABLE id) in
    do! sg := stage c1 c2 id existing rest html js in commit d1 d2 id rest user sg) st).2) as Hen.
  { destruct ((do! existing := _ in _) st) as [res st']. exact Hen. }
  unfold eff_bind at 1, read_rows at 1. destruct (BaseService.findById TABLE id (templates st)) as [e|x] eqn:He; [|done].
  specialize (Hfresh e eq_refl). unfold eff_bind at 1. destruct (stage c1 c2 id e rest html js st) as [[sg|x] st1] eqn:Est.
  2: { apply stage_spec in Est as (Ht & Hk & _); [|done]. destruct st1 as [t1 o1]. cbn in *. subst t1. by apply ok_keeps. }
  apply stage_spec in Est as (Ht & Hk & Hst); [|done]. specialize (Hst sg eq_refl).
  assert (templates_ok st1) as Hok1.
  { destruct st1 as [t1 o1]. cbn in *. subst t1. by apply ok_keeps. }
  unfold PrintTemplates.commit. unfold eff_bind at 1, on_rows. rewrite Ht.
  destruct (repo_findById id (templates st)) as [e'|] eqn:He'; [|done].
  destruct (find_row st id Hok e e' He He') as (-> & Hin & Hpk).
  set (saved := set_updater user _). assert (pk saved = pk e) as Hpks by by destruct user.
  assert (assets (cols saved) = new_assets sg) as Has by by destruct user.
  unfold write. destruct (violates _); [done|]. cbn [res_bind].
  destruct (staged_ok _ _ _ _ _ _ (ok_stored st Hok e Hin) (ok_own st Hok e Hin) Hst) as (Hs1 & Hs2 & Hs3).
  pose proof (staged_excl st st1 e html js sg) as Hexcl.
  assert (templates_ok (PtState (repo_save saved (templates st)) (objects st1))) as Hok2.
  { rewrite <- Ht. apply (save_ok st1 e); rewrite ?Has, ?Ht; try done.
    - by apply (staged_whole _ _ _ _ _ _ (ok_whole st Hok e Hin) Hst).
    - intros r p Hr Hne Hp. by apply (Hexcl r p). }
  assert (∀ p r, superseded_html sg = Some p ∨ superseded_js sg = Some p →
    r ∈ rows (repo_save saved (templates st)) → p ∉ refs (assets (cols r))) as Hgone.
  { intros p r Hp [[Hr Hne]|[-> _]]%elem_of_repo_save.
    - intros Hin'. apply Hne. rewrite Hpks. apply (ok_others st Hok r e p); [done..|]. by apply Hs3.
    - rewrite Has. by apply Hs3. }
  unfold eff_bind at 1. destruct (remove_superseded_ok d1 (superseded_html sg) _ Hok2) as [Hok3 Ht3].
  { intros p r Hp. apply Hgone. by left. }
  destruct (remove_superseded rethrow d1 (superseded_html sg) _) as [[[]|x] st3]; [|exact Hok3]. cbn [snd] in *.
  unfold eff_bind. destruct (remove_superseded_ok d2 (superseded_js sg) st3 Hok3) as [Hok4 _].
  { intros p r Hp. rewrite Ht3. apply Hgone. by right. }
  destruct (remove_superseded rethrow d2 (superseded_js sg) st3) as [[[]|x] st4]; exact Hok4.
Qed.

(** A text is what a content of a DTO sets, if it sets one. *)
Definition set_text (js : content) : option string :=
  match js with Content "" => None | Content text => Some text | _ => None end.
Lemma upload_js_spec c id filename js st res st' :
  fresh_uuid (c_uuid c) (objects st) → upload_js decodeOriginalName defaultBucket rethrow c id filename js st = (res, st') →
  templates st' = templates st ∧ keeps (objects st) (objects st') ∧
  ∀ up, res = Ok up → match set_text js with
                      | Some text => ∃ ref, up = Some (ref, text) ∧ uploaded (objects st) (objects st') ref text (Some (sha256_hex text))
                      | None => up = None
                      end.
Proof.
  intros Hf. unfold upload_js. destruct js as [| |text]; [by intros [= <- <-]; split_and!; [..|intros ? [= <-]]..|].
  destruct text as [|ch text]; [by intros [= <- <-]; split_and!; [..|intros ? [= <-]]|].
  cbn [set_text]. set (s := String ch text). unfold eff_bind.
  destruct (upload_asset c id filename "text/javascript" s false st) as [[up|x] st1] eqn:E; intros [= <- <-];
    pose proof (upload_keeps _ _ _ _ _ _ _ _ _ Hf E) as [? ?]; split_and!; try done.
  intros ? [= <-]. exists up. split; [done|]. by apply (uploaded_asset _ _ _ _ _ _ _ _ _ Hf E).
Qed.

(** What a successful creation leaves. *)
Record created st st' id html js r : Prop := {
  cr_rows : rows (templates st') ≡ₚ r :: rows (templates st);
  cr_pk : pk r = id;
  cr_live : is_deleted r = false ∧ row_deleted_at r = None;
  cr_assets : ∃ o1, keeps (objects st) o1 ∧ keeps o1 (objects st') ∧
    uploaded (objects st) o1 (html_ref (assets (cols r))) html (html_hash (assets (cols r))) ∧
    match set_text js with
    | Some text => ∃ p, js_asset (assets (cols r)) = Some p ∧ uploaded o1 (objects st') p text (js_hash (assets (cols r)))
    | None => js_asset (assets (cols r)) = None
    end;
  cr_whole : js_whole (assets (cols r));
}.
Lemma created_js_asset ref html ref' text : ref'.1 = defaultBucket → ref'.2 ≠ "" →
  js_asset (created_assets sha256_hex ref html (Some (ref', text))) = Some ref'.
Proof. destruct ref' as [b p]. cbn. intros -> Hp. by apply (js_asset_uploaded _ _ _ (Some (sha256_hex text))). Qed.
Lemma create_cases (c1 c2 : call) id rest html js user st res st' :
  fresh_calls c1 c2 id (default "undefined" (d_code rest)) (objects st) →
  create c1 c2 id rest html js user st = (res, st') →
  match res with
  | Ok r => created st st' id html js r
  | Throw _ => templates st' = templates st ∧ keeps (objects st) (objects st')
  end.
Proof.
  intros (Hf1 & Hf2 & Hkey). unfold PrintTemplates.create. unfold eff_bind at 1.
  pose proof (upload_asset_fresh c1 id _ "text/html" html true st (c_uuid c2) Hf1 Hf2 Hkey) as Hf.
  destruct (upload_asset c1 id _ "text/html" html true st) as [[ref|x] st1] eqn:E1; cbn [snd] in Hf.
  2: { intros [= <- <-]. by apply upload_keeps in E1. }
  pose proof (uploaded_asset _ _ _ _ _ _ _ _ _ Hf1 E1) as Hhtml. apply upload_keeps in E1 as [Ht1 Hk1]; [|done].
  unfold eff_bind at 1. destruct (upload_js _ _ _ c2 id _ js st1) as [[up|x] st2] eqn:E2;
    apply upload_js_spec in E2 as (Ht2 & Hk2 & Hup); try done.
  2: { intros [= <- <-]. split; [congruence|by eapply keeps_trans]. }
  specialize (Hup up eq_refl). unfold save_created, executeDb, on_rows, write. set (r := set_creator user _). cbn zeta.
  assert (assets (cols r) = created_assets sha256_hex ref html up) as Ha by by destruct user.
  destruct (violates _); [intros [= <- <-]; split; [congruence|by eapply keeps_trans]|]. cbn [res_bind].
  intros [= <- <-]. split; cbn [templates objects].
  - by rewrite insert_rows, Ht2, Ht1.
  - by destruct user.
  - by destruct user.
  - exists (objects st1). rewrite Ha. split_and!; [done|done|by destruct ref|].
    destruct (set_text js) as [text|]; [|by subst up]. destruct Hup as (ref' & -> & Hup). exists ref'.
    pose proof Hup as (_ & Hb & Hp & _). split; [by apply created_js_asset|done].
  - rewrite Ha. destruct (set_text js) as [text|]; [|by subst up]. destruct Hup as (ref' & -> & _ & Hb & Hp & _).
    unfold js_whole. by rewrite created_js_asset.
Qed.

Lemma created_ok st st' id html js r :
  templates_ok st → id ∉ pk <$> rows (templates st) → created st st' id html js r → templates_ok st'.
Proof.
  intros Hok Hid [Hrows Hpk _ (o1 & Hk1 & Hk2 & Hh & Hj) Hwn]. set (a := assets (cols r)) in *.
  pose proof (uploaded_stored _ _ _ _ _ Hh) as Hs. destruct Hh as (Hnone & _).
  assert (∀ q, js_asset a = Some q → find_ref q o1 = None ∧ stored (objects st') q (js_hash a)) as Hq.
  { intros q Hq. destruct (set_text js); [|by rewrite Hj in Hq]. destruct Hj as (p & Hp & Hup). rewrite Hp in Hq.
    injection Hq as <-. split; [apply Hup|by eapply uploaded_stored]. }
  assert (assets_stored (objects st') a) as Has.
  { split; [by apply (stored_keeps o1)|]. intros q Hq'. by apply Hq. }
  assert (∀ r' p, r' ∈ rows (templates st) → p ∈ refs (assets (cols r')) → p ∉ refs a) as Hex.
  { intros r' p Hr Hp. pose proof (stored_not_absent st p r' Hok Hr Hp) as Hthere.
    intros [->|Hin]%elem_of_cons; [done|]. destruct (js_asset a) as [q|]; [|by apply elem_of_nil in Hin].
    apply list_elem_of_singleton in Hin as ->. destruct (Hq q eq_refl) as [Hn _]. apply Hthere.
    unfold find_ref in *. destruct (get_object q.1 q.2 (objects st)) eqn:Eg; [|done]. rewrite (Hk1 q.1 q.2) in Hn by eauto. congruence. }
  assert (keeps (objects st) (objects st')) as Hkeep by by eapply keeps_trans.
  destruct Hok as [Hpks Hst Hown Hwh Hoth]. split; [by rewrite Hrows, fmap_cons, NoDup_cons, Hpk|..].
  - intros r'. rewrite Hrows. intros [->|Hr]%elem_of_cons; [done|]. by apply (assets_keeps (objects st)), Hst.
  - intros r'. rewrite Hrows. intros [->|Hr]%elem_of_cons; [|by apply Hown]. fold a. unfold refs.
    destruct (js_asset a) as [q|]; [|apply NoDup_singleton]. apply NoDup_cons. split; [|apply NoDup_singleton].
    intros Heq%list_elem_of_singleton. destruct (Hq q eq_refl) as [Hn _]. by apply (absent_stored _ _ _ _ Hn Hs).
  - intros r'. rewrite Hrows. intros [->|Hr]%elem_of_cons; [done|by apply Hwh].
  - intros r1 r2 p. rewrite !Hrows. intros [->|Hr]%elem_of_cons [->|Hr']%elem_of_cons Hp Hp'; [done| | |by apply (Hoth r1 r2 p)].
    + by destruct (Hex r2 p Hr' Hp').
    + by destruct (Hex r1 p Hr Hp).
Qed.
Lemma template_create_ok (c1 c2 : call) id rest html js user st :
  templates_ok st → id ∉ pk <$> rows (templates st) → fresh_calls c1 c2 id (default "undefined" (d_code rest)) (objects st) →
  templates_ok (create c1 c2 id rest html js user st).2.
Proof.
  intros Hok Hid Hf. pose proof (create_cases c1 c2 id rest html js user st _ _ Hf (surjective_pairing _)) as Hcase.
  destruct (create c1 c2 id rest html js user st) as [[r|x] [t' o']]; cbn [fst snd] in *.
  - by eapply created_ok.
  - cbn in Hcase. destruct Hcase as [-> Hk]. by apply ok_keeps.
Qed.

(** Rows whose assets and keys are those of old rows. *)
Lemma same_assets_ok st t' : templates_ok st → NoDup (pk <$> rows t') →
  (∀ r', r' ∈ rows t' → ∃ r, r ∈ rows (templates st) ∧ pk r' = pk r ∧ cols r' = cols r) →
  templates_ok (PtState t' (objects st)).
Proof.
  intros [Hpks Hs Ho Hw Hx] Hnd Hold. split; cbn -[pk]; [done| | | |].
  - intros r' (r & Hr & _ & ->)%Hold. by apply Hs.
  - intros r' (r & Hr & _ & ->)%Hold. by apply Ho.
  - intros r' (r & Hr & _ & ->)%Hold. by apply Hw.
  - intros r1 r2 p (q1 & Hq1 & -> & ->)%Hold (q2 & Hq2 & -> & ->)%Hold. by apply Hx.
Qed.
Lemma template_delete_ok now id softDelete user st : templates_ok st → templates_ok (delete violates now id softDelete user st).2.
Proof.
  intros Hok. unfold delete, on_rows, BaseService.delete, deleteEntity, ExecuteDb.executeDbOperation.
  assert (∀ t n, (if softDelete then db_update (has_pk id) (stamp_deleted now user None) (templates st)
                  else db_delete (has_pk id) (templates st)) = (t, n) → templates_ok (PtState t (objects st))) as Hdel.
  { intros t n Heq. assert (t = (if softDelete then (db_update (has_pk id) (stamp_deleted now user None) (templates st)).1
      else (db_delete (has_pk id) (templates st)).1)) as -> by (by destruct softDelete; rewrite Heq).
    apply same_assets_ok; [done| |]; destruct softDelete.
    - rewrite update_rows. change (List.map ?f ?l) with (f <$> l). rewrite <- list_fmap_compose.
      enough ((pk ∘ (λ r, if has_pk id r then stamp_deleted now user None r else r)) <$> rows (templates st) = pk <$> rows (templates st)) as -> by apply Hok.
      apply list_fmap_ext. intros i r _. unfold compose. by destruct (has_pk id r).
    - rewrite delete_rows. apply NoDup_pk_filter, Hok.
    - intros r'. rewrite update_rows. intros (r & Hr & ->)%elem_of_List_map. exists r. by destruct (has_pk id r).
    - intros r'. rewrite delete_rows. intros [Hr _]%elem_of_List_filter. by exists r'. }
  destruct (if softDelete then _ else _) as [t n] eqn:E. specialize (Hdel t n eq_refl). unfold write.
  destruct (violates t); cbn; [done|]. destruct (n =? 0)%nat; cbn; [done|]. exact Hdel.
Qed.

(** *** Reading back *)

Context (getSignedUrl : string → string → Z → option string → string + s3_error) (http_get : string → O → Z * string).
(** A signed URL answers a GET with the object it was signed for. *)
Definition url_serves : Prop := ∀ key, ∃ url,
  getSignedUrl defaultBucket key URL_LIFETIME None = inl url ∧ url ≠ "" ∧
  ∀ o, http_get url o = match get_object defaultBucket key o with Some x => (200%Z, body x) | None => (404%Z, "") end.
Context (Hurl : url_serves).
Abbreviation findById := (findById (T := T) defaultBucket getSignedUrl rethrow http_get).
Abbreviation fetch_asset := (fetchTemplateAsset (T := T) defaultBucket getSignedUrl rethrow http_get).

(** One of the five attempts gets through. *)
Definition gets_through (reached : nat → bool) : bool := existsb reached (seq 1 maxAttempts).

Lemma fetch_attempts_spec reached url o left n :
  (fetch_attempts http_get reached url o left n).1 =
    if existsb reached (seq n left) then try_fetch http_get true url o else None.
Proof.
  revert n. induction left as [|left IH]; intros n; [done|]. cbn [fetch_attempts seq existsb].
  specialize (IH (S n)). destruct (fetch_attempts http_get reached url o left (S n)) as [res slept]. cbn in IH.
  destruct (reached n); cbn [orb].
  - destruct (try_fetch http_get true url o) eqn:E; [done|]. cbn. rewrite IH. by destruct (existsb _ _).
  - exact IH.
Qed.
Lemma fetch_waits reached url o : ((fetch_attempts http_get reached url o maxAttempts 1).2 ≤ 3000)%nat.
Proof.
  unfold maxAttempts. cbn [fetch_attempts].
  repeat (destruct (try_fetch http_get _ url o); cbn; [lia|]). lia.
Qed.

(** What a fetch gives, whatever happens to the call; it changes nothing. *)
Lemma fetch_asset_spec c reached key html st :
  let '(res, st') := fetch_asset c reached key html st in
  st' = st ∧
  (∀ text, res = Ok text → ∃ x, get_object defaultBucket key (objects st) = Some x ∧ body x = text) ∧
  (∀ x, c_delivery c = Delivered → gets_through reached = true →
     get_object defaultBucket key (objects st) = Some x → res = Ok (body x)).
Proof.
  destruct (Hurl key) as (url & Hsign & Hne & Hget). destruct st as [t o]. unfold fetchTemplateAsset.
  assert (generateSignedUrls defaultBucket getSignedUrl [key] None = Ok [url]) as Hgen
    by (unfold generateSignedUrls, signed; cbn; by rewrite Hsign).
  unfold eff_bind at 1, on_objects, rpc, eff_run. rewrite Hgen.
  assert (∀ o, try_fetch http_get true url o = body <$> get_object defaultBucket key o) as Htry.
  { intros o'. unfold try_fetch. rewrite Hget. by destruct (get_object _ _ o'). }
  destruct url as [|ch url]; [done|].
  destruct (c_delivery c); cbn -[fetch_attempts maxAttempts]; [|by split_and!..].
  unfold eff_bind, eff_read. cbv beta iota. rewrite fetch_attempts_spec. cbn [objects]. rewrite Htry. unfold gets_through.
  destruct (existsb reached (seq 1 maxAttempts)).
  - destruct (get_object defaultBucket key o) as [x|]; cbn; split_and!; try done.
    + intros text [= <-]. by exists x.
    + by intros y _ _ [= ->].
  - by split_and!.
Qed.

Lemma findById_state c1 c2 reached id st : (findById c1 c2 reached id st).2 = st.
Proof.
  unfold PrintTemplates.findById. unfold eff_bind at 1, read_rows. destruct (BaseService.findById _ _ _) as [e|x]; [|done].
  unfold eff_bind at 1. pose proof (fetch_asset_spec c1 reached (html_path (assets (cols e))) true st) as H1'.
  destruct (fetch_asset c1 _ _ true st) as [[h|x] st1]; destruct H1' as [-> _]; [|done]. unfold eff_bind at 1.
  destruct (js_asset (assets (cols e))) as [[b p]|]; [|done]. unfold eff_bind at 1.
  pose proof (fetch_asset_spec c2 reached p false st) as H2'.
  destruct (fetch_asset c2 reached p false st) as [[j|x] st2]; destruct H2' as [-> _]; done.
Qed.

(** The assets of a row are in the bucket URLs are signed for. *)
Definition in_default_bucket a : Prop := ∀ p, p ∈ refs a → p.1 = defaultBucket.

(** A template whose objects are in the store is served, and what is served
    has the hashes of the row. *)
Lemma findById_found c1 c2 reached id e st :
  BaseService.findById TABLE id (templates st) = Ok e → assets_stored (objects st) (assets (cols e)) →
  in_default_bucket (assets (cols e)) → c_delivery c1 = Delivered → c_delivery c2 = Delivered → gets_through reached = true →
  ∃ x, find_ref (html_ref (assets (cols e))) (objects st) = Some x ∧
    findById c1 c2 reached id st =
      (Ok (Hydrated e (body x) (p ← js_asset (assets (cols e)); body <$> find_ref p (objects st))), st).
Proof.
  intros He [(x & Hx & _) Hj] Hin Hd1 Hd2 Hr. exists x. split; [done|].
  unfold PrintTemplates.findById. unfold eff_bind at 1, read_rows. rewrite He. unfold eff_bind at 1.
  pose proof (Hin (html_ref (assets (cols e))) ltac:(by left)) as Hb.
  pose proof (fetch_asset_spec c1 reached (html_path (assets (cols e))) true st) as Hf.
  destruct (fetch_asset c1 reached _ true st) as [res st']. destruct Hf as (-> & _ & Hf).
  unfold find_ref, html_ref in Hx, Hb. cbn in Hx, Hb. rewrite Hb in Hx. rewrite (Hf x Hd1 Hr Hx). unfold eff_bind at 1.
  destruct (js_asset (assets (cols e))) as [[b p]|] eqn:Ej; [|done].
  destruct (Hj _ eq_refl) as (y & Hy & _). unfold find_ref in Hy. cbn in Hy.
  assert (b = defaultBucket) as ->.
  { apply (Hin (b, p)). unfold refs. rewrite Ej. right. by left. }
  unfold eff_bind at 1. pose proof (fetch_asset_spec c2 reached p false st) as Hf2.
  destruct (fetch_asset c2 reached p false st) as [res2 st2]. destruct Hf2 as (-> & _ & Hf2). rewrite (Hf2 y Hd2 Hr Hy).
  cbn. unfold find_ref. cbn. by rewrite Hy.
Qed.

(** *** From write to read *)

(** A template just created is read back with the contents it was given, once
    the store answers. *)
Lemma create_then_find (c1 c2 d1 d2 : call) reached id rest html js user st e st' :
  templates_ok st → id ∉ pk <$> rows (templates st) →
  fresh_calls c1 c2 id (default "undefined" (d_code rest)) (objects st) →
  create c1 c2 id rest html js user st = (Ok e, st') →
  c_delivery d1 = Delivered → c_delivery d2 = Delivered → gets_through reached = true →
  findById d1 d2 reached id st' = (Ok (Hydrated e html (set_text js)), st').
Proof.
  intros Hok Hid Hfresh Hc%create_cases Hd1 Hd2 Hr; [|done]. pose proof (created_ok _ _ _ _ _ _ Hok Hid Hc) as Hok'.
  destruct Hc as [Hrows Hpk [Hdel Hda] (o1 & Hk1 & Hk2 & (_ & Hhb & _ & _ & x & Hx & Hbody) & Hjs) _].
  assert (e ∈ rows (templates st')) as Hin by (rewrite Hrows; by left).
  assert (BaseService.findById TABLE id (templates st') = Ok e) as He.
  { rewrite <- Hpk. apply findById_live; [apply Hok'|done..]. }
  assert (in_default_bucket (assets (cols e))) as Hdef.
  { intros p [->|Hp]%elem_of_cons; [done|]. destruct (js_asset (assets (cols e))) as [q|]; [|by apply elem_of_nil in Hp].
    apply list_elem_of_singleton in Hp as ->. destruct (set_text js); [|done]. by destruct Hjs as (p & [= ->] & _ & ? & _). }
  destruct (findById_found d1 d2 reached id e st' He (ok_stored st' Hok' e Hin) Hdef Hd1 Hd2 Hr) as (x' & Hx' & ->).
  unfold find_ref in Hx, Hx'. rewrite Hk2, Hx in Hx' by (rewrite Hx; eauto). injection Hx' as <-. do 2 f_equal. rewrite Hbody. f_equal.
  destruct (set_text js) as [text|]; [|by rewrite Hjs].
  destruct Hjs as (p & -> & _ & _ & _ & _ & y & Hy & Hyb). cbn. rewrite Hy. cbn. by rewrite Hyb.
Qed.

(** *** The second half of an update *)

Lemma remove_superseded_other c sup st ref : sup ≠ Some ref →
  find_ref ref (objects (remove_superseded rethrow c sup st).2) = find_ref ref (objects st).
Proof.
  intros Hne. destruct sup as [[b k]|]; [|done]. unfold remove_superseded, removeStorageObject, rpc, remove, eff_bind, send.
  assert (ref.1 ≠ b ∨ ref.2 ≠ k) as Hne'.
  { destruct ref as [b' k']. cbn. destruct (decide (b' = b)) as [->|]; [|by left]. right. by intros ->. }
  unfold find_ref. destruct (c_delivery c), (c_net c); cbn; try destruct (rethrow _); cbn; try done;
    (rewrite get_delete, decide_False; [done|]; intros [= ? ?]; naive_solver).
Qed.
Lemma remove_superseded_gone c ref st : c_delivery c = Delivered → c_net c = Sends →
  find_ref ref (objects (remove_superseded rethrow c (Some ref) st).2) = None.
Proof.
  intros Hd Hn. destruct ref as [b k]. unfold remove_superseded, removeStorageObject, rpc, remove, eff_bind, send, find_ref.
  rewrite Hd, Hn. cbn. by rewrite get_delete, decide_True.
Qed.
Lemma remove_superseded_run c sup st : ∃ o, remove_superseded rethrow c sup st = (Ok (), PtState (templates st) o) ∧
  ∀ ref, find_ref ref o = find_ref ref (objects st) ∨ find_ref ref o = None.
Proof.
  destruct sup as [[b k]|]; cbn.
  - eexists. split; [done|]. intros ref. destruct (decide (ref = (b, k))) as [->|Hne].
    + unfold rpc, remove, eff_bind, send, find_ref. destruct (c_delivery c), (c_net c); cbn; try destruct (rethrow _); cbn; auto;
        rewrite get_delete; case_decide; auto.
    + left. assert (Some (b, k) ≠ Some ref) as Hne' by congruence.
      exact (remove_superseded_other c (Some (b, k)) st ref Hne').
  - exists (objects st). split; [by destruct st|]. by left.
Qed.

Definition saved_row rest user sg e : template_row :=
  set_updater user (with_cols (λ p, Template (assign_rest rest (fields p)) (new_assets sg)) e).
Lemma saved_row_props rest user sg e : pk (saved_row rest user sg e) = pk e ∧ assets (cols (saved_row rest user sg e)) = new_assets sg ∧
  is_deleted (saved_row rest user sg e) = is_deleted e ∧ row_deleted_at (saved_row rest user sg e) = row_deleted_at e.
Proof. by destruct user. Qed.

Lemma commit_Ok (d1 d2 : call) id rest user sg st r st' :
  commit d1 d2 id rest user sg st = (Ok r, st') →
  ∃ e, repo_findById id (templates st) = Some e ∧ r = saved_row rest user sg e ∧
    templates st' = repo_save r (templates st) ∧
    (∀ ref, superseded_html sg ≠ Some ref → superseded_js sg ≠ Some ref → find_ref ref (objects st') = find_ref ref (objects st)) ∧
    (∀ ref, superseded_html sg = Some ref → c_delivery d1 = Delivered → c_net d1 = Sends → find_ref ref (objects st') = None).
Proof.
  unfold PrintTemplates.commit. unfold eff_bind at 1, on_rows.
  destruct (repo_findById id (templates st)) as [e|]; [|done]. fold (saved_row rest user sg e).
  unfold write. destruct (violates _); [done|]. cbn [res_bind]. set (st1 := PtState (repo_save _ _) (objects st)).
  unfold eff_bind. destruct (remove_superseded_run d1 (superseded_html sg) st1) as (o1 & E1 & H1'). rewrite E1.
  destruct (remove_superseded_run d2 (superseded_js sg) (PtState (templates st1) o1)) as (o2 & E2 & H2'). rewrite E2.
  intros [= <- <-]. exists e. split_and!; [done..| |].
  - intros ref Hh Hj. pose proof (remove_superseded_other d1 _ st1 ref Hh) as Ho1. rewrite E1 in Ho1.
    pose proof (remove_superseded_other d2 _ (PtState (templates st1) o1) ref Hj) as Ho2. rewrite E2 in Ho2. cbn in *. congruence.
  - intros ref Hh Hd Hn. pose proof (remove_superseded_gone d1 ref st1 Hd Hn) as Hg. rewrite <- Hh, E1 in Hg. cbn in *.
    destruct (H2' ref) as [->| ->]; [done|done].
Qed.

(** An update in one piece. *)
Lemma template_update_Ok (c1 c2 d1 d2 : call) id rest html js user st r st' :
  templates_ok st →
  (∀ e, BaseService.findById TABLE id (templates st) = Ok e →
    fresh_calls c1 c2 id (default (code (fields (cols e))) (d_code rest)) (objects st)) →
  update c1 c2 d1 d2 id rest html js user st = (Ok r, st') →
  ∃ e sg st1, BaseService.findById TABLE id (templates st) = Ok e ∧ e ∈ rows (templates st) ∧ pk e = id ∧
    templates st1 = templates st ∧ keeps (objects st) (objects st1) ∧
    staged_from (objects st) (objects st1) (assets (cols e)) html js sg ∧
    commit d1 d2 id rest user sg st1 = (Ok r, st') ∧ r = saved_row rest user sg e.
Proof.
  intros Hok Hfresh. unfold PrintTemplates.update, executeDb.
  destruct ((do! existing := read_rows (BaseService.findById TABLE id) in
    do! sg := stage c1 c2 id existing rest html js in commit d1 d2 id rest user sg) st) as [[r'|x] s'] eqn:E; [|done].
  cbn. intros [= -> ->]. apply eff_bind_Ok in E as (e & st0 & He & E). injection He as He <-.
  apply eff_bind_Ok in E as (sg & st1 & Hst & E). apply stage_spec in Hst as (Ht & Hk & Hst); [|by apply Hfresh].
  pose proof (commit_Ok _ _ _ _ _ _ _ _ _ E) as (e' & He' & Hr & _). rewrite Ht in He'.
  destruct (find_row st id Hok e e' He He') as (-> & Hin & Hpk). exists e, sg, st1. split_and!; try done. by apply Hst.
Qed.

(** *** What an update does to the contents *)

Lemma staged_bucket o o' a html js sg : in_default_bucket a → staged_from o o' a html js sg → in_default_bucket (new_assets sg).
Proof.
  intros Ha (o1 & _ & _ & Hh & Hj) p [->|Hp]%elem_of_cons.
  - destruct Hh as [(_ & -> & _)|(_ & text & _ & _ & Hb & _)]; [apply Ha; by left|done].
  - destruct (js_asset (new_assets sg)) as [q|] eqn:E; [|by apply elem_of_nil in Hp]. apply list_elem_of_singleton in Hp as ->.
    destruct Hj as [(_ & Heq & _)|[(_ & _ & Heq)|(_ & text & b & k & h & _ & Heq & _ & Hb & Hk & _)]].
    + apply Ha. unfold refs. rewrite <- (js_asset_eq _ _ Heq), E. right. by left.
    + by rewrite (js_asset_cleared _ Heq) in E.
    + cbn in Hb, Hk. rewrite (js_asset_uploaded _ _ _ _ Heq) in E; [|congruence|done]. by injection E as <-.
Qed.

(** The content under a reference; contents are told apart by their hash. *)
Definition text_at o (ref : string * string) : option string := body <$> find_ref ref o.
Definition same_hash (found : option string) (text : string) : Prop :=
  ∃ t, found = Some t ∧ sha256_hex t = sha256_hex text.

Lemma stored_hash o ref text : stored o ref (Some (sha256_hex text)) → same_hash (text_at o ref) text.
Proof. intros (x & Hx & Hh). exists (body x). unfold text_at. rewrite Hx. split; [done|]. symmetry. by apply Hh. Qed.
Lemma uploaded_text o o' ref text h : uploaded o o' ref text h → same_hash (text_at o' ref) text.
Proof. intros (_ & _ & _ & _ & x & Hx & Hb). exists text. unfold text_at. by rewrite Hx, <- Hb. Qed.
Lemma text_keeps o o' ref t : keeps o o' → text_at o ref = Some t → text_at o' ref = Some t.
Proof.
  unfold text_at, find_ref. intros Hk Ht. destruct (get_object ref.1 ref.2 o) as [x|] eqn:E; [|done].
  by rewrite Hk, E by (rewrite E; eauto).
Qed.
Lemma same_hash_keeps o o' ref text : keeps o o' → same_hash (text_at o ref) text → same_hash (text_at o' ref) text.
Proof. intros Hk (t & Ht & Hh). exists t. split; [|done]. by apply (text_keeps o). Qed.

(** Where the contents of the new assets come from. *)
Lemma staged_html_text o o' a html js sg : assets_stored o a → staged_from o o' a html js sg →
  match html with
  | Some text => same_hash (text_at o' (html_ref (new_assets sg))) text
  | None => text_at o' (html_ref (new_assets sg)) = text_at o (html_ref a)
  end.
Proof.
  intros [Hs _] (o1 & Hk1 & Hk2 & Hh & _). pose proof (keeps_trans _ _ _ Hk1 Hk2) as Hk.
  destruct Hh as [(_ & -> & _ & Hold)|(_ & text & -> & Hup)].
  - destruct html as [text|].
    + apply (same_hash_keeps o); [done|]. rewrite (Hold text eq_refl) in Hs. by apply stored_hash.
    + destruct Hs as (x & Hx & _). unfold text_at at 2. rewrite Hx. cbn. apply (text_keeps o); [done|]. unfold text_at. by rewrite Hx.
  - apply (same_hash_keeps o1); [done|]. by eapply uploaded_text.
Qed.
Lemma staged_js_text o o' a html js sg : assets_stored o a → js_whole a → staged_from o o' a html js sg →
  match js with
  | Absent => (p ← js_asset (new_assets sg); text_at o' p) = (p ← js_asset a; text_at o p)
  | Cleared => js_asset (new_assets sg) = None
  | Content text => same_hash (p ← js_asset (new_assets sg); text_at o' p) text
  end.
Proof.
  intros [_ Hs] Hw (o1 & Hk1 & Hk2 & _ & Hj). pose proof (keeps_trans _ _ _ Hk1 Hk2) as Hk.
  destruct Hj as [(_ & Heq & Hold)|[(_ & -> & Heq)|(_ & text & b & p & h & -> & Heq & Hup)]].
  - rewrite (js_asset_eq _ _ Heq). destruct Hold as [->|(text & -> & Hh)].
    + destruct (js_asset a) as [q|]; [|done]. destruct (Hs q eq_refl) as (x & Hx & _). cbn. unfold text_at at 2. rewrite Hx. cbn.
      apply (text_keeps o); [done|]. unfold text_at. by rewrite Hx.
    + unfold js_whole in Hw. rewrite Hh in Hw. destruct (js_asset a) as [q|]; [|by specialize (Hw eq_refl)]. specialize (Hs q eq_refl). rewrite Hh in Hs. cbn.
      apply (same_hash_keeps o); [done|]. by apply stored_hash.
  - by apply js_asset_cleared.
  - pose proof Hup as (_ & Hb & Hp & _). cbn in Hb. rewrite (js_asset_uploaded _ _ _ _ Heq); [|congruence|done].
    cbn. by eapply uploaded_text.
Qed.

(** A row just written with [repo_save] is the one found under its key. *)
Lemma find_saved st e rest user sg : templates_ok st → e ∈ rows (templates st) → is_deleted e = false → row_deleted_at e = None →
  BaseService.findById TABLE (pk e) (repo_save (saved_row rest user sg e) (templates st)) = Ok (saved_row rest user sg e).
Proof.
  intros Hok Hin Hd Hda. destruct (saved_row_props rest user sg e) as (Hpk & _ & Hdel & Hdat). rewrite <- Hpk at 1.
  apply findById_live; [|apply elem_of_repo_save; right; split; [done|rewrite Hpk; by apply list_elem_of_fmap_2]|congruence|congruence].
  change (NoDup (pk <$> rows (repo_save (saved_row rest user sg e) (templates st)))). rewrite repo_save_pks. apply Hok.
Qed.
Lemma found_live st id e : BaseService.findById TABLE id (templates st) = Ok e → is_deleted e = false ∧ row_deleted_at e = None.
Proof. by intros (_ & _ & ?)%findById_Ok. Qed.

(** Reading a template after an update: contents that were given are there up
    to a collision of the hash, the others are the old ones. *)
Lemma update_then_find (c1 c2 d1 d2 f1 f2 : call) reached id rest html js user st r st' :
  templates_ok st →
  (∀ e, BaseService.findById TABLE id (templates st) = Ok e →
    fresh_calls c1 c2 id (default (code (fields (cols e))) (d_code rest)) (objects st) ∧ in_default_bucket (assets (cols e))) →
  update c1 c2 d1 d2 id rest html js user st = (Ok r, st') →
  c_delivery f1 = Delivered → c_delivery f2 = Delivered → gets_through reached = true →
  ∃ e h, BaseService.findById TABLE id (templates st) = Ok e ∧ findById f1 f2 reached id st' = (Ok h, st') ∧ entity h = r ∧
    match html with
    | Some text => same_hash (Some (html_content h)) text
    | None => text_at (objects st) (html_ref (assets (cols e))) = Some (html_content h)
    end ∧
    match js with
    | Absent => js_content h = (p ← js_asset (assets (cols e)); text_at (objects st) p)
    | Cleared => js_content h = None
    | Content text => same_hash (js_content h) text
    end.
Proof.
  intros Hok Hpre Hup Hd1 Hd2 Hr.
  assert (templates_ok st') as Hok'.
  { pose proof (template_update_ok c1 c2 d1 d2 id rest html js user st Hok (λ e He, proj1 (Hpre e He))) as Hup'. by rewrite Hup in Hup'. }
  apply template_update_Ok in Hup as (e & sg & st1 & He & Hin & Hpk & Ht & Hk & Hst & Hc & ->); [|done|intros; by apply Hpre].
  destruct (Hpre e He) as [_ Hbkt]. destruct (found_live st id e He) as [Hdel Hda].
  pose proof (ok_stored st Hok e Hin) as Has. pose proof (ok_whole st Hok e Hin) as Hwh.
  destruct (staged_ok _ _ _ _ _ _ Has (ok_own st Hok e Hin) Hst) as (Has1 & _ & Hsup).
  apply commit_Ok in Hc as (e' & _ & _ & Ht' & Hsame & _). rewrite Ht in Ht'.
  destruct (saved_row_props rest user sg e) as (Hpk' & Ha' & _).
  assert (∀ p, p ∈ refs (new_assets sg) → find_ref p (objects st') = find_ref p (objects st1)) as Hobj.
  { intros p Hp. apply Hsame; intros Hs; by apply (Hsup p); auto. }
  assert (BaseService.findById TABLE id (templates st') = Ok (saved_row rest user sg e)) as Hfound.
  { rewrite Ht', <- Hpk. by apply find_saved. }
  destruct (findById_found f1 f2 reached id _ st' Hfound) as (x & Hx & Hres); try done.
  { apply (ok_stored st' Hok'). rewrite Ht'. apply elem_of_repo_save. right. split; [done|]. rewrite Hpk'. by apply list_elem_of_fmap_2. }
  { rewrite Ha'. by apply (staged_bucket _ _ _ _ _ _ Hbkt Hst). }
  rewrite Ha' in Hx, Hres. rewrite Hobj in Hx by by left.
  eexists e, _. split_and!; [done|exact Hres|done| |]; cbn [html_content js_content].
  - pose proof (staged_html_text _ _ _ _ _ _ Has Hst) as Htext.
    assert (text_at (objects st1) (html_ref (new_assets sg)) = Some (body x)) as Hbody by (unfold text_at; by rewrite Hx).
    rewrite Hbody in Htext. destruct html; [exact Htext|done].
  - pose proof (staged_js_text _ _ _ _ _ _ Has Hwh Hst) as Htext.
    assert ((p ← js_asset (new_assets sg); body <$> find_ref p (objects st')) = (p ← js_asset (new_assets sg); text_at (objects st1) p)) as ->.
    { destruct (js_asset (new_assets sg)) as [q|] eqn:Eq; [|done]. cbn. unfold text_at. rewrite Hobj; [done|].
      unfold refs. rewrite Eq. right. by left. }
    destruct js; [exact Htext|by rewrite Htext|exact Htext].
Qed.

(** *** Two updates of one template that overlap *)

(** The second request read the row before the first wrote it, and changes no
    content.  It writes back the path of the object the first has removed: the
    template cannot be read any more, whatever the network does. *)
Lemma stale_update (c1 c2 d1 d2 g1 g2 b1 b2 : call) id rest rest' text user user' st e sg r st1 r' st2 :
  templates_ok st → BaseService.findById TABLE id (templates st) = Ok e →
  fresh_calls c1 c2 id (default (code (fields (cols e))) (d_code rest)) (objects st) →
  stage b1 b2 id e rest' None Absent st = (Ok sg, st) →
  update c1 c2 d1 d2 id rest (Some text) Absent user st = (Ok r, st1) →
  html_hash (assets (cols e)) ≠ Some (sha256_hex text) → c_delivery d1 = Delivered → c_net d1 = Sends →
  commit g1 g2 id rest' user' sg st1 = (Ok r', st2) →
  html_ref (assets (cols r')) = html_ref (assets (cols e)) ∧ find_ref (html_ref (assets (cols r'))) (objects st2) = None ∧
  BaseService.findById TABLE id (templates st2) = Ok r'.
Proof.
  intros Hok He Hfresh Hb Ha Hne Hd Hn Hc. cbn in Hb. injection Hb as <-.
  assert (templates_ok st1) as Hok1.
  { pose proof (template_update_ok c1 c2 d1 d2 id rest (Some text) Absent user st Hok) as Hup. rewrite Ha in Hup. apply Hup.
    intros e' He'. rewrite He in He'. by injection He' as <-. }
  apply template_update_Ok in Ha as (e' & sg & st' & He' & Hin & Hpk & Ht & Hk & Hst & Hca & ->); [|done|].
  2: { intros e' He'. rewrite He in He'. by injection He' as <-. }
  rewrite He in He'. injection He' as <-. destruct (found_live st id e He) as [Hdel Hda].
  destruct Hst as (o1 & _ & _ & Hh & _).
  destruct Hh as [(_ & _ & _ & Hold)|(Hsup & _)]; [by destruct (Hne (Hold text eq_refl))|].
  apply commit_Ok in Hca as (_ & _ & _ & Ht1 & _ & Hgone). rewrite Ht in Ht1. specialize (Hgone _ Hsup Hd Hn).
  destruct (saved_row_props rest user sg e) as (Hpk1 & _ & Hdel1 & Hda1).
  assert (BaseService.findById TABLE id (templates st1) = Ok (saved_row rest user sg e)) as Hf1 by (rewrite Ht1, <- Hpk; by apply find_saved).
  assert (saved_row rest user sg e ∈ rows (templates st1)) as Hin1.
  { rewrite Ht1. apply elem_of_repo_save. right. split; [done|]. rewrite Hpk1. by apply list_elem_of_fmap_2. }
  apply commit_Ok in Hc as (e1 & He1 & -> & Ht2 & Hsame & _).
  destruct (find_row st1 id Hok1 _ _ Hf1 He1) as (-> & _ & _).
  destruct (saved_row_props rest' user' (Staged (TemplateAssets (html_bucket (assets (cols e))) (html_path (assets (cols e)))
    (html_hash (assets (cols e))) (js_bucket (assets (cols e))) (js_path (assets (cols e))) (js_hash (assets (cols e)))) None None)
    (saved_row rest user sg e)) as (_ & -> & _).
  cbn [new_assets]. split_and!; [done| |].
  - rewrite Hsame by done. exact Hgone.
  - rewrite Ht2, <- Hpk, <- Hpk1. apply find_saved; [done|done|congruence|congruence].
Qed.
Lemma dangling_unreadable c1 c2 reached id r st : BaseService.findById TABLE id (templates st) = Ok r →
  html_bucket (assets (cols r)) = defaultBucket → find_ref (html_ref (assets (cols r))) (objects st) = None →
  ∃ x, findById c1 c2 reached id st = (Throw x, st).
Proof.
  intros Hf Hb Hnone. unfold PrintTemplates.findById. unfold eff_bind at 1, read_rows. rewrite Hf. unfold eff_bind at 1.
  pose proof (fetch_asset_spec c1 reached (html_path (assets (cols r))) true st) as Hspec.
  destruct (fetch_asset c1 reached _ true st) as [[text|x] st']; destruct Hspec as (-> & Hok & _); [|by eexists].
  destruct (Hok text eq_refl) as (y & Hy & _). unfold find_ref, html_ref in Hnone. cbn in Hnone. rewrite Hb in Hnone. congruence.
Qed.

(** *** Rendering only adds objects *)

Context (convertHtmlToPdf : string → paper → pdf_options → result string)
        (paginatorScript : string) (stringify_params : list (string * jsv) → string).
Abbreviation render := (render (T := T) decodeOriginalName defaultBucket getSignedUrl rethrow http_get convertHtmlToPdf paginatorScript stringify_params).

Lemma rpc_run_state {A} d (res : result A) o : (rpc rethrow d (eff_run res) o).2 = o.
Proof. by destruct d, res. Qed.
Lemma upload_call_keeps c key file o : fresh_uuid (c_uuid c) o →
  keeps o (rpc rethrow (c_delivery c) (uploadWithMeta decodeOriginalName (c_net c) (c_uuid c) defaultBucket key file) o).2.
Proof.
  intros Hf. pose proof (upload_store decodeOriginalName (c_net c) (c_uuid c) defaultBucket key file o Hf) as Hup.
  unfold rpc, uploadWithMeta, eff_bind. destruct (upload _ _ _ _ _ _ _) as [res o']. destruct Hup as (_ & Hk & _).
  destruct (c_delivery c), res; cbn; try apply keeps_refl; by intros b k Hs; apply Hk.
Qed.
Lemma render_ok (c1 c2 c3 c4 : call) reached file_uuid id params st :
  templates_ok st → fresh_uuid (c_uuid c3) (objects st) →
  templates_ok (render c1 c2 c3 c4 reached file_uuid id params st).2.
Proof.
  intros Hok Hf. unfold PrintTemplates.render. unfold eff_bind at 1. pose proof (findById_state c1 c2 reached id st) as Hst.
  destruct (findById c1 c2 reached id st) as [[t|x] st']; cbn in Hst; subst st'; [|done].
  unfold eff_bind at 1, eff_run. destruct (convertHtmlToPdf _ _ _) as [pdf|x]; [|done].
  unfold eff_bind at 1, on_objects at 1. set (f := FilePayload _ _ _).
  pose proof (upload_call_keeps c3 RENDER_STORAGE_KEY_PREFIX f (objects st) Hf) as Hk.
  destruct (rpc rethrow (c_delivery c3) _ (objects st)) as [[[up|]|x] o']; cbn [snd] in Hk; [|by apply ok_keeps..].
  unfold eff_bind, on_objects. cbn [objects templates].
  pose proof (rpc_run_state (c_delivery c4) (generateSignedUrls defaultBucket getSignedUrl [path up] None) o') as Hrun.
  destruct (rpc rethrow (c_delivery c4) _ o') as [[urls|x] o2]; cbn in Hrun; subst o2; by apply ok_keeps.
Qed.

(** *** Every sequence of requests *)

(** A request, however its calls fare. *)
Inductive template_step : pt_state T O → pt_state T O → Prop :=
  | step_create (c1 c2 : call) id rest html js user st :
      id ∉ pk <$> rows (templates st) → fresh_calls c1 c2 id (default "undefined" (d_code rest)) (objects st) →
      template_step st (create c1 c2 id rest html js user st).2
  | step_update (c1 c2 d1 d2 : call) id rest html js user st :
      (∀ e, BaseService.findById TABLE id (templates st) = Ok e →
        fresh_calls c1 c2 id (default (code (fields (cols e))) (d_code rest)) (objects st)) →
      template_step st (update c1 c2 d1 d2 id rest html js user st).2
  | step_delete now id softDelete user st : template_step st (delete violates now id softDelete user st).2
  | step_find (c1 c2 : call) reached id st : template_step st (findById c1 c2 reached id st).2
  | step_render (c1 c2 c3 c4 : call) reached file_uuid id params st : fresh_uuid (c_uuid c3) (objects st) →
      template_step st (render c1 c2 c3 c4 reached file_uuid id params st).2.

Lemma template_step_ok st st' : template_step st st' → templates_ok st → templates_ok st'.
Proof.
  destruct 1; intros Hok; [by apply template_create_ok|by apply template_update_ok|by apply template_delete_ok|by rewrite findById_state|by apply render_ok].
Qed.

(** As long as requests do not overlap, and whatever calls are lost on the way,
    every template refers to objects that exist and have the hash it records,
    and no two templates share one: a template can always be read. *)
Theorem templates_reachable_ok st0 st : rtc template_step st0 st → templates_ok st0 → templates_ok st.
Proof. induction 1; eauto using template_step_ok. Qed.

(** A created template is read back with the contents it was given. *)
Theorem create_read_back (c1 c2 d1 d2 : call) reached id rest html js user st e st'
    (Hok : templates_ok st) (Hid : id ∉ pk <$> rows (templates st))
    (Hfresh : fresh_calls c1 c2 id (default "undefined" (d_code rest)) (objects st))
    (Hc : create c1 c2 id rest html js user st = (Ok e, st'))
    (Hd1 : c_delivery d1 = Delivered) (Hd2 : c_delivery d2 = Delivered) (Hr : gets_through reached = true) :
  findById d1 d2 reached id st' = (Ok (Hydrated e html (set_text js)), st').
Proof. by apply (create_then_find c1 c2 d1 d2 reached id rest html js user st e st'). Qed.

(** C34: an updated template is read back with the contents it was given, up to a
    collision of the hash, and with its other contents. *)
Theorem update_read_back (c1 c2 d1 d2 f1 f2 : call) reached id rest html js user st r st'
    (Hok : templates_ok st)
    (Hpre : ∀ e, BaseService.findById TABLE id (templates st) = Ok e →
      fresh_calls c1 c2 id (default (code (fields (cols e))) (d_code rest)) (objects st) ∧ in_default_bucket (assets (cols e)))
    (Hup : update c1 c2 d1 d2 id rest html js user st = (Ok r, st'))
    (Hd1 : c_delivery f1 = Delivered) (Hd2 : c_delivery f2 = Delivered) (Hr : gets_through reached = true) :
  ∃ e h, BaseService.findById TABLE id (templates st) = Ok e ∧ findById f1 f2 reached id st' = (Ok h, st') ∧ entity h = r ∧
    match html with
    | Some text => same_hash (Some (html_content h)) text
    | None => text_at (objects st) (html_ref (assets (cols e))) = Some (html_content h)
    end ∧
    match js with
    | Absent => js_content h = (p ← js_asset (assets (cols e)); text_at (objects st) p)
    | Cleared => js_content h = None
    | Content text => same_hash (js_content h) text
    end.
Proof. by apply (update_then_find c1 c2 d1 d2 f1 f2 reached id rest html js user st r st'). Qed.

(** C35: two updates of one template that overlap: the second changes no content but
    read the row before the first replaced the HTML.  It writes the old path
    back after the object was removed, and from then on every read fails; an
    update with the old HTML finds its hash unchanged and uploads nothing. *)
Theorem overlapping_updates_lose_html (c1 c2 d1 d2 g1 g2 b1 b2 : call) id rest rest' text user user' st e sg r st1 r' st2
    (Hok : templates_ok st) (He : BaseService.findById TABLE id (templates st) = Ok e)
    (Hbucket_e : html_bucket (assets (cols e)) = defaultBucket)
    (Hfresh : fresh_calls c1 c2 id (default (code (fields (cols e))) (d_code rest)) (objects st))
    (Hread : stage b1 b2 id e rest' None Absent st = (Ok sg, st))
    (Hfirst : update c1 c2 d1 d2 id rest (Some text) Absent user st = (Ok r, st1))
    (Hnew : html_hash (assets (cols e)) ≠ Some (sha256_hex text)) (Hd : c_delivery d1 = Delivered) (Hn : c_net d1 = Sends)
    (Hsecond : commit g1 g2 id rest' user' sg st1 = (Ok r', st2)) :
  (∀ f1 f2 reached, ∃ x, findById f1 f2 reached id st2 = (Throw x, st2)) ∧
  (∀ f rest'' old, html_hash (assets (cols e)) = Some (sha256_hex old) →
     ∃ staged, stage_html f id (cols r') rest'' (Some old) st2 = (Ok staged, st2)).
Proof.
  destruct (stale_update c1 c2 d1 d2 g1 g2 b1 b2 id rest rest' text user user' st e sg r st1 r' st2) as (Href & Hnone & Hf); try done.
  injection Href as Hb Hp. split.
  - intros f1 f2 reached. apply (dangling_unreadable f1 f2 reached id r' st2); [done|congruence|done].
  - intros f rest'' old Hold. apply commit_Ok in Hsecond as (e1 & _ & -> & _). unfold PrintTemplates.stage_html.
    destruct (saved_row_props rest' user' sg e1) as (_ & Ha & _).
    assert (html_hash (assets (cols (saved_row rest' user' sg e1))) = html_hash (assets (cols e))) as Hh.
    { rewrite Ha. cbn in Hread. by injection Hread as <-. }
    rewrite Hh, Hold. rewrite bool_decide_eq_true_2 by done. by eexists.
Qed.
End staging.
End laws.

(** ** Witnesses *)

Module Sample.
Abbreviation store := (gmap (string * string) object).
Definition no_violation : list template_row → option driver_error := λ _, None.
Definition sha : string → string := λ text, "sha:" +:+ text.
Definition decode : string → string := λ s, s.
Definition BUCKET : string := "erp-storage".
Definition sign (b k : string) (lifetime : Z) (disposition : option string) : string + s3_error := inl (String "/" k).
Definition GET (url : string) (o : store) : Z * string :=
  match url with
  | "" => (404%Z, "")
  | String _ k => match o !! (BUCKET, k) with Some x => (200%Z, body x) | None => (404%Z, "") end
  end.
Definition rethrow : exn → option exn := Some.
Lemma sign_serves : url_serves (O := store) BUCKET sign GET.
Proof. intros k. exists (String "/" k). split_and!; [done..|]. intros o. cbn. by destruct (o !! (BUCKET, k)). Qed.

Lemma fresh_from_list (m : store) u :
  forallb (λ kv, negb (str_includes kv.1.2 u)) (map_to_list m) = true → fresh_uuid u m.
Proof.
  intros Hall b k [x Hx]. cbn in Hx. apply elem_of_map_to_list in Hx.
  rewrite forallb_true in Hall. apply negb_true_iff. exact (Hall ((b, k), x) Hx).
Qed.

Definition good (u : string) : call := Call Delivered Sends u.
Definition no_change : template_rest := TemplateRest None None None None None None None None None None None None None.
Definition named (c : string) : template_rest :=
  TemplateRest (Some c) (Some c) (Some c) None None None None None None None None None None.
Definition st0 : pt_state list store := PtState [] ∅.
Definition creation := create no_violation sha decode BUCKET rethrow (good "U1") (good "U2") "t1" (named "invoice") "<p>one</p>"
  (Content "paginate()") None st0.
Definition st1 : pt_state list store := creation.2.
Definition row1 : template_row := match creation.1 with Ok r => r | Throw _ => make_row "" (Template blank_fields no_assets) end.
Definition first_update := update no_violation sha decode BUCKET rethrow (good "U3") (good "U4") (good "") (good "") "t1" no_change
  (Some "<p>two</p>") Absent None st1.
Definition st2 : pt_state list store := first_update.2.
Definition row2 : template_row := match first_update.1 with Ok r => r | Throw _ => row1 end.
Definition stale : staged := Staged (assets (cols row1)) None None.
Definition second_update := commit no_violation rethrow (good "") (good "") "t1" (named "receipt") None stale st2.
Definition st3 : pt_state list store := second_update.2.
Definition row3 : template_row := match second_update.1 with Ok r => r | Throw _ => row1 end.

Lemma run_ok {A} (m : result A * pt_state list store) d : res_ok m.1 = true →
  m = (Ok (match m.1 with Ok r => r | Throw _ => d end), m.2).
Proof. by destruct m as [[r|x] s]. Qed.
Lemma creation_eq : creation = (Ok row1, st1).
Proof. apply run_ok. vm_compute. reflexivity. Qed.
Lemma update_eq : first_update = (Ok row2, st2).
Proof. apply run_ok. vm_compute. reflexivity. Qed.
Lemma second_eq : second_update = (Ok row3, st3).
Proof. apply run_ok. vm_compute. reflexivity. Qed.
Lemma st0_ok : templates_ok sha st0.
Proof. split; [constructor|by intros ? ?%elem_of_nil..|by intros ? ? ? ?%elem_of_nil]. Qed.
Lemma fresh0 : fresh_calls decode (good "U1") (good "U2") "t1" "invoice" (objects st0).
Proof. split_and!; [by intros b k [? ?]..|by vm_compute]. Qed.
Lemma st1_ok : templates_ok sha st1.
Proof.
  apply (template_create_ok no_violation sha decode BUCKET rethrow ltac:(done) (good "U1") (good "U2") "t1" (named "invoice") "<p>one</p>"
    (Content "paginate()") None st0 st0_ok); [by intros ?%elem_of_nil|exact fresh0].
Qed.
Lemma fresh1 : fresh_calls decode (good "U3") (good "U4") "t1" "invoice" (objects st1).
Proof. split_and!; [apply fresh_from_list; by vm_compute..|by vm_compute]. Qed.
Lemma found1 : BaseService.findById TABLE "t1" (templates st1) = Ok row1.
Proof. vm_compute. reflexivity. Qed.
Lemma pre1 e : BaseService.findById TABLE "t1" (templates st1) = Ok e →
  fresh_calls decode (good "U3") (good "U4") "t1" (default (code (fields (cols e))) (d_code no_change)) (objects st1) ∧
  in_default_bucket BUCKET (assets (cols e)).
Proof.
  rewrite found1. intros [= <-]. split; [exact fresh1|].
  refine (proj1 (Forall_forall (λ p, p.1 = BUCKET) (refs (assets (cols row1)))) _).
  apply (bool_decide_unpack _). vm_compute. exact I.
Qed.
Lemma bucket1 : html_bucket (assets (cols row1)) = BUCKET.
Proof. vm_compute. reflexivity. Qed.
Lemma read1 : stage (T := list) (O := store) sha decode BUCKET rethrow (good "") (good "") "t1" row1 (named "receipt") None Absent st1 = (Ok stale, st1).
Proof. unfold stage, stage_html, stage_js, eff_bind, eff_ret, stale. by destruct (assets (cols row1)). Qed.
Lemma new_text : html_hash (assets (cols row1)) ≠ Some (sha "<p>two</p>").
Proof. vm_compute. discriminate. Qed.
End Sample.

Lemma templates_reachable_ok_witness : templates_ok Sample.sha Sample.st2 ∧ rows (templates Sample.st2) = [Sample.row2].
Proof.
  split; [|vm_compute; reflexivity].
  apply (templates_reachable_ok Sample.no_violation Sample.sha Sample.decode Sample.BUCKET Sample.rethrow ltac:(done)
    Sample.sign Sample.GET Sample.sign_serves (λ html _ _, Ok html) "" (λ _, "{}") Sample.st0 Sample.st2); [|exact Sample.st0_ok].
  eapply rtc_l; [|eapply rtc_l; [|apply rtc_refl]].
  - apply (step_create _ _ _ _ _ _ _ _ _ _ (Sample.good "U1") (Sample.good "U2") "t1" (Sample.named "invoice") "<p>one</p>"
      (Content "paginate()") None Sample.st0); [by intros ?%elem_of_nil|exact Sample.fresh0].
  - apply (step_update _ _ _ _ _ _ _ _ _ _ (Sample.good "U3") (Sample.good "U4") (Sample.good "") (Sample.good "") "t1" Sample.no_change
      (Some "<p>two</p>") Absent None Sample.st1). intros e He. by apply Sample.pre1.
Defined.

Lemma create_read_back_witness :
  findById (T := list) Sample.BUCKET Sample.sign Sample.rethrow Sample.GET (Sample.good "") (Sample.good "") (λ n, (n =? 5)%nat) "t1" Sample.st1
  = (Ok (Hydrated Sample.row1 "<p>one</p>" (Some "paginate()")), Sample.st1).
Proof.
  apply (create_read_back Sample.no_violation Sample.sha Sample.decode Sample.BUCKET Sample.rethrow ltac:(done) Sample.sign Sample.GET
    Sample.sign_serves (Sample.good "U1") (Sample.good "U2") (Sample.good "") (Sample.good "") (λ n, (n =? 5)%nat) "t1" (Sample.named "invoice")
    "<p>one</p>" (Content "paginate()") None Sample.st0 Sample.row1 Sample.st1 Sample.st0_ok).
  - by intros ?%elem_of_nil.
  - exact Sample.fresh0.
  - exact Sample.creation_eq.
  - reflexivity.
  - reflexivity.
  - reflexivity.
Defined.

Lemma update_read_back_witness :
  ∃ h, findById (T := list) Sample.BUCKET Sample.sign Sample.rethrow Sample.GET (Sample.good "") (Sample.good "") (λ _, true) "t1" Sample.st2
    = (Ok h, Sample.st2) ∧ same_hash Sample.sha (Some (html_content h)) "<p>two</p>" ∧ js_content h = Some "paginate()".
Proof.
  destruct (update_read_back Sample.no_violation Sample.sha Sample.decode Sample.BUCKET Sample.rethrow ltac:(done) Sample.sign Sample.GET
    Sample.sign_serves (Sample.good "U3") (Sample.good "U4") (Sample.good "") (Sample.good "") (Sample.good "") (Sample.good "") (λ _, true)
    "t1" Sample.no_change (Some "<p>two</p>") Absent None Sample.st1 Sample.row2 Sample.st2 Sample.st1_ok Sample.pre1 Sample.update_eq
    eq_refl eq_refl eq_refl) as (e & h & He & Hh & _ & Hhtml & Hjs).
  exists h. split; [exact Hh|split; [exact Hhtml|]]. rewrite Hjs. rewrite Sample.found1 in He. injection He as <-. vm_compute. reflexivity.
Defined.

Lemma overlapping_updates_lose_html_witness :
  ∃ x, findById (T := list) Sample.BUCKET Sample.sign Sample.rethrow Sample.GET (Sample.good "") (Sample.good "") (λ _, true) "t1" Sample.st3
    = (Throw x, Sample.st3).
Proof.
  exact (proj1 (overlapping_updates_lose_html Sample.no_violation Sample.sha Sample.decode Sample.BUCKET Sample.rethrow ltac:(done) Sample.sign Sample.GET
    Sample.sign_serves (Sample.good "U3") (Sample.good "U4") (Sample.good "") (Sample.good "") (Sample.good "") (Sample.good "")
    (Sample.good "") (Sample.good "") "t1" Sample.no_change (Sample.named "receipt") "<p>two</p>" None None Sample.st1 Sample.row1 Sample.stale
    Sample.row2 Sample.st2 Sample.row3 Sample.st3 Sample.st1_ok Sample.found1 Sample.bucket1 (proj1 (Sample.pre1 Sample.row1 Sample.found1))
    Sample.read1 Sample.update_eq Sample.new_text eq_refl eq_refl Sample.second_eq) (Sample.good "") (Sample.good "") (λ _, true)).
Defined.
