(* ===== verification/Catalogue.v ===== *)
(** * The product catalogue

    The services of inventory-bc (src/apps/inventory-bc/src/modules): products
    and their variants, unit-of-measure conversion factors, and the listings of
    the tables that belong to a product or an attribute.  The services for
    brands, units of measure and item attributes, and the suppliers of
    supplier-bc, are the base service without any change.

    A request has been validated: its required fields are there, an optional
    field of an update is absent or has a value.  A null in a column that does
    not allow it is refused by the table.  The supplier of a product is looked up
    by a call of supplier-bc ([rpc], Storage.v). *)

From S2P Require Import Prelude JsString JsValues Repo DbErrors QueryBuilder QueryMeaning QueryLaws BaseService Listing Storage.
#[local] Open Scope string_scope.
#[local] Open Scope list_scope.

(** ** Listings of the rows of one parent

    [findPaginatedByProductId], [findPaginatedByVariantProductId] and
    [findPaginatedByAttributeId]: a filter on the parent column is appended to
    the filters of the request. *)

Definition filters_of (p : jsv) : list jsv :=
  match p with JUndefined | JNull => [] | JArr l => l | v => [v] end.
Definition scoped (column k : string) (q : QueryParamsDTO) : QueryParamsDTO :=
  Query (q_page q) (q_limit q) (q_offset q) (q_sort q) (q_s q)
    (JArr (filters_of (q_filter q) ++ [JStr (column +:+ "||$eq||" +:+ k)])%list)
    (q_or q) (q_relations q) (q_fields q) (q_timezone q) (q_exclude_ids q).

Lemma trimEnd_blank s : trimEnd s = "" → str_forall is_space s = true.
Proof.
  induction s as [|c s IH]; [done|]. cbn [trimEnd str_forall]. destruct (trimEnd s) eqn:E; [|done].
  destruct (is_space c); [|done]. intros _. by apply IH.
Qed.
Lemma trim_blank s : trim s = "" → str_forall is_space s = true.
Proof.
  intros H%trimEnd_blank. rewrite (span_eq is_space s), str_forall_app, span_forall. exact H.
Qed.

Section scoped.
Context {T : Type → Type} `{DatabaseLaws T} {F : Type} `{QueryEngine (base_row F)}.
Context (holds : base_row F → list string → wval → Prop) (properties : list string).
Context `{!QueryEngineLaws holds properties}.
Context (entities : string → entity_metadata) (root : string)
        (JSON_parse : string → option jsv)
        (dayjs_isValid : string → bool) (dayjs_toISOString : string → result string)
        (tz_toISOString tz_startOfDay tz_endOfDay : string → string → result string).
Context (QUERY_MAX_LIMIT : jsv) (tableName : string).
Abbreviation row := (base_row F).

Definition findPaginatedBy (column k : string) (q : QueryParamsDTO) (t : T row) : result (list row * IPagination) :=
  findPaginated entities root JSON_parse dayjs_isValid dayjs_toISOString tz_toISOString tz_startOfDay tz_endOfDay
    QUERY_MAX_LIMIT tableName [] None Page (scoped column k q) t.

Definition factors_by_product : string → QueryParamsDTO → T row → result (list row * IPagination) :=
  findPaginatedBy "product_id".
Definition levels_by_product : string → QueryParamsDTO → T row → result (list row * IPagination) :=
  findPaginatedBy "product_id".
Definition attributes_by_variant : string → QueryParamsDTO → T row → result (list row * IPagination) :=
  findPaginatedBy "variant_product_id".
Definition values_by_attribute : string → QueryParamsDTO → T row → result (list row * IPagination) :=
  findPaginatedBy "attribute_id".

(** What the request asks of the rows besides the parent. *)
Abbreviation reads := (reads entities root JSON_parse dayjs_isValid dayjs_toISOString
  tz_toISOString tz_startOfDay tz_endOfDay).
Abbreviation filter_constraint := (filter_constraint entities root dayjs_isValid dayjs_toISOString
  tz_toISOString tz_startOfDay tz_endOfDay).

(** A column of identifiers: no JSON, no enum, no date, its name without bars,
    dots or blanks around it. *)
Record key_column (column : string) : Prop := {
  kc_plain : isJsonbPath entities root column = false;
  kc_enum : getEnumValuesRecursive entities root column = None;
  kc_date : isDateColumnRecursive entities root column = false;
  kc_name : no_bar column ∧ trim column = column ∧ column ≠ "" ∧ split "." column = [column];
}.

Lemma scope_parsed column k : key_column column →
  parseFilterString (column +:+ "||$eq||" +:+ k) = Ok (Some (Filter column F_eq k)).
Proof.
  intros [_ _ _ (Hb & Ht & Hne & _)]. apply String.eqb_neq in Hne.
  change (column +:+ "||$eq||" +:+ k) with (column +:+ "||" +:+ "$eq" +:+ "||" +:+ k).
  rewrite parse_three by done. by rewrite Ht, Hne.
Qed.

Lemma scope_normalized column k q :
  normalizeInput (q_filter (scoped column k q)) =
    (normalizeInput (JArr (filters_of (q_filter q))) ++ [column +:+ "||$eq||" +:+ k])%list.
Proof.
  cbn [q_filter scoped normalizeInput]. rewrite omap_app. f_equal. cbn [omap list_omap].
  destruct (String.eqb_spec (trim (column +:+ "||$eq||" +:+ k)) "") as [Hb|]; [|done].
  apply trim_blank in Hb. rewrite str_forall_app, andb_true_iff in Hb. by destruct Hb.
Qed.

Lemma map_b_snoc {A B} (f : A → builder B) l a n bs n' :
  map_b f (l ++ [a]) n = Ok (bs, n') → ∃ b m m', b ∈ bs ∧ f a m = Ok (b, m').
Proof.
  revert n bs. induction l as [|x l IH]; intros n bs; cbn [app map_b]; unfold bind, ret.
  - destruct (f a n) as [[b m]|e] eqn:E; [|done]. cbn. intros [= <- <-]. exists b, n, m. by split; [left|].
  - destruct (f x n) as [[b m]|e]; [|done]. cbn [res_bind].
    destruct (map_b f (l ++ [a]) m) as [[bs0 m1]|e] eqn:E; [|done]. cbn. intros [= <- <-].
    destruct (IH _ _ E) as (b' & m' & m'' & Hb & Hf). exists b', m', m''. by split; [right|].
Qed.

Lemma scope_read column k q rd : key_column column → isNullishLiteral k = false →
  reads (scoped column k q) rd → Some ([column], WVal (JStr k)) ∈ rd_fcs rd.
Proof.
  intros Hc Hk (_ & Hf & _ & n1 & n2 & n3 & _ & Hm & _). rewrite scope_normalized in Hf.
  assert (∃ l, rd_filter rd = (l ++ [Filter column F_eq k])%list) as [l Hl].
  { revert Hf. generalize (normalizeInput (JArr (filters_of (q_filter q)))). intros fs. unfold parseFilterStrings.
    intros (l & Hl & Hr)%res_bind_Ok. injection Hr as <-. apply res_map_Ok, Forall2_app_inv_l in Hl as (l1 & l2 & _ & Hl2 & ->).
    apply Forall2_cons_inv_l in Hl2 as (x & l3 & Hx & Hl3 & ->). apply Forall2_nil_inv_l in Hl3 as ->.
    rewrite scope_parsed in Hx by done. injection Hx as <-. rewrite omap_app. by eexists. }
  rewrite Hl in Hm. apply map_b_snoc in Hm as (b & m & m' & Hb & Hx).
  destruct Hc as [Hp He Hd (_ & _ & _ & Hs)]. revert Hx. unfold QueryMeaning.filter_constraint. rewrite Hp.
  unfold bind, lift, ret, validateEnumValueForFilter. rewrite He, Hd.
  cbn. rewrite Hk. unfold field_path. rewrite Hp, Hs. by intros [= <- _].
Qed.

(** A listing of the rows of a parent returns live rows of that parent only,
    whatever filters, searches and alternatives the request has. *)
Theorem scoped_listing column k q t data pg rd
    (Hc : key_column column) (Hk : isNullishLiteral k = false) (Hne : k ≠ "")
    (Hrd : reads (scoped column k q) rd) (Hreg : regular entities root rd)
    (Hsoft : ∀ p c, p ∈ constrained_paths entities root rd → head p = Some c → c ∉ soft_columns)
    (Hpage : findPaginatedBy column k q t = Ok (data, pg)) :
  ∀ r, r ∈ data → r ∈ rows t ∧ live_row r = true ∧ holds r [column] (WVal (JStr k)).
Proof.
  intros r Hr. pose proof Hpage as (opts & Hb & Hd)%(paginated_elem holds properties).
  destruct (Hd r Hr) as [Hin Hm].
  apply (selection_meaning holds properties _ _ _ _ _ _ _ _ _ _ _ _ _ _ Hb Hrd Hreg Hsoft) in Hm as (Hlive & Hall & _).
  split_and!; [done..|].
  specialize (Hall (Some ([column], WVal (JStr k))) ltac:(apply elem_of_app; right; by apply (scope_read column k q))).
  cbn in Hall. unfold sat_t in Hall. cbn [transform_value] in Hall. rewrite Hk in Hall. by destruct k.
Qed.
End scoped.

(** ** Data *)

Inductive ProductType := SINGLE | BUNDLE.
Record product := Product {
  sku : string; name_th : string; name_en : string; type_ : ProductType;
  item_group_id : string; brand_id : option string; stock_uom_id : string;
  has_variants : bool; template_product_id : option string; supplier_id : option string;
}.
(** A request: the columns it gives, of which some may be given as null. *)
Record product_dto := ProductDTO {
  d_sku : option string; d_name_th : option string; d_name_en : option string; d_type : option ProductType;
  d_item_group_id : option string; d_brand_id : option (option string); d_stock_uom_id : option string;
  d_has_variants : option bool; d_template_product_id : option (option string);
  d_supplier_id : option (option string);
}.
Definition assign_product (d : product_dto) (p : product) : product :=
  Product (default (sku p) (d_sku d)) (default (name_th p) (d_name_th d)) (default (name_en p) (d_name_en d))
    (default (type_ p) (d_type d)) (default (item_group_id p) (d_item_group_id d))
    (default (brand_id p) (d_brand_id d)) (default (stock_uom_id p) (d_stock_uom_id d))
    (default (has_variants p) (d_has_variants d)) (default (template_product_id p) (d_template_product_id d))
    (default (supplier_id p) (d_supplier_id d)).
(** The columns of a new row before those of the request: the defaults of the
    table. *)
Definition blank_product : product := Product "" "" "" SINGLE "" None "" false None None.

Record item_attribute_value := AttributeValue { av_attribute_id : string; value : string; abbr : option string }.
Record item_variant_attribute := VariantAttribute {
  variant_product_id : string; va_attribute_id : string; va_attribute_value_id : string }.
Record uom := Uom { uom_name : string; is_whole_number : bool }.
Inductive UomConversionType := PURCHASE | SALES.
(** The factor is the text JavaScript has for the number. *)
Record uom_conversion_factor := ConversionFactor {
  product_id : string; uom_id : string; conversion_factor : string; uom_type : UomConversionType }.
Record factor_dto := FactorDTO {
  d_product_id : option string; d_uom_id : option string; d_conversion_factor : option string;
  d_uom_type : option UomConversionType }.
Definition assign_factor (d : factor_dto) (f : uom_conversion_factor) : uom_conversion_factor :=
  ConversionFactor (default (product_id f) (d_product_id d)) (default (uom_id f) (d_uom_id d))
    (default (conversion_factor f) (d_conversion_factor d)) (default (uom_type f) (d_uom_type d)).
Definition blank_factor : uom_conversion_factor := ConversionFactor "" "" "" PURCHASE.

(** ** Variant combinations *)

Record VariantAttributeSelection := Selection { attribute_id : string; value_ids : list string }.
Record VariantCombinationEntry := Entry { e_attribute_id : string; e_attribute_value_id : string }.
Abbreviation VariantCombination := (list VariantCombinationEntry).

Definition generateVariantCombinations (selections : list VariantAttributeSelection) : list VariantCombination :=
  foldl (λ accumulatedCombinations selection,
    flat_map (λ combination,
      List.map (λ valueId, combination ++ [Entry (attribute_id selection) valueId]) (value_ids selection))
      accumulatedCombinations) [[]] selections.

Example two_dimensions :
  generateVariantCombinations [Selection "color" ["red"; "black"]; Selection "size" ["S"; "M"]] =
    [[Entry "color" "red"; Entry "size" "S"]; [Entry "color" "red"; Entry "size" "M"];
     [Entry "color" "black"; Entry "size" "S"]; [Entry "color" "black"; Entry "size" "M"]].
Proof. reflexivity. Qed.

(** The product of sets in lexicographic order. *)
Fixpoint cartesian (selections : list VariantAttributeSelection) : list VariantCombination :=
  match selections with
  | [] => [[]]
  | s :: ss => flat_map (λ v, List.map (cons (Entry (attribute_id s) v)) (cartesian ss)) (value_ids s)
  end.

Lemma flat_map_nil {A B} (l : list A) : flat_map (λ _, @nil B) l = [].
Proof. by induction l. Qed.
Lemma map_flat_map {A B C} (f : B → C) (g : A → list B) l :
  List.map f (flat_map g l) = flat_map (λ a, List.map f (g a)) l.
Proof. induction l as [|a l IH]; [done|]. cbn. by rewrite List.map_app, IH. Qed.

Lemma combinations_from acc ss :
  foldl (λ acc s, flat_map (λ c, List.map (λ v, c ++ [Entry (attribute_id s) v]) (value_ids s)) acc) acc ss
  = flat_map (λ c, List.map (app c) (cartesian ss)) acc.
Proof.
  revert acc. induction ss as [|s ss IH]; intros acc; cbn [foldl cartesian].
  - induction acc as [|c acc IHacc]; [done|]. cbn in *. by rewrite app_nil_r, <- IHacc.
  - rewrite IH, flat_map_flat_map. apply flat_map_ext. intros c.
    rewrite flat_map_map, map_flat_map. apply flat_map_ext. intros v.
    rewrite List.map_map. apply List.map_ext. intros l. by rewrite <- app_assoc.
Qed.
Lemma combinations_cartesian ss : generateVariantCombinations ss = cartesian ss.
Proof. unfold generateVariantCombinations. rewrite combinations_from. cbn. by rewrite app_nil_r, List.map_id. Qed.

(** One value is chosen for each selection. *)
Definition chooses (s : VariantAttributeSelection) (e : VariantCombinationEntry) : Prop :=
  e_attribute_id e = attribute_id s ∧ e_attribute_value_id e ∈ value_ids s.

Lemma elem_of_cartesian ss c : c ∈ cartesian ss ↔ Forall2 chooses ss c.
Proof.
  revert c. induction ss as [|s ss IH]; intros c; cbn [cartesian].
  - rewrite list_elem_of_singleton. split; [by intros ->|]. by intros ->%Forall2_nil_inv_l.
  - rewrite elem_of_flat_map. setoid_rewrite elem_of_List_map. setoid_rewrite IH. split.
    + intros (v & Hv & c' & Hc' & ->). by constructor.
    + intros (e & c' & [Ha Hv] & Hc' & ->)%Forall2_cons_inv_l. exists (e_attribute_value_id e). split; [done|].
      exists c'. split; [done|]. by rewrite <- Ha; destruct e.
Qed.
Lemma length_cartesian ss : length (cartesian ss) = foldr (λ s n, length (value_ids s) * n)%nat 1%nat ss.
Proof.
  induction ss as [|s ss IH]; [done|]. cbn [cartesian foldr]. rewrite <- IH. clear IH.
  induction (value_ids s) as [|v vs IHv]; [done|]. cbn. by rewrite length_app, length_map, IHv.
Qed.
Lemma NoDup_cartesian ss : Forall (λ s, NoDup (value_ids s)) ss → NoDup (cartesian ss).
Proof.
  induction 1 as [|s ss Hs _ IH]; cbn [cartesian]; [apply NoDup_singleton|].
  induction Hs as [|v vs Hv _ IHv]; cbn; [constructor|]. apply NoDup_app. split_and!; [|setoid_rewrite elem_of_flat_map|done].
  - apply (NoDup_fmap_2 (cons _)), IH. 
  - setoid_rewrite elem_of_List_map. intros c (c' & _ & ->) (v' & Hv' & c2 & _ & [= -> _]). done.
Qed.

(** C23: the combinations are exactly the choices of one value for each selected
    attribute, in lexicographic order, as many as the product of the numbers
    of values, and distinct when no value is selected twice. *)
Theorem combinations_exact ss :
  generateVariantCombinations ss = cartesian ss ∧
  (∀ c, c ∈ generateVariantCombinations ss ↔ Forall2 chooses ss c) ∧
  length (generateVariantCombinations ss) = foldr (λ s n, length (value_ids s) * n)%nat 1%nat ss ∧
  (Forall (λ s, NoDup (value_ids s)) ss → NoDup (generateVariantCombinations ss)).
Proof.
  rewrite combinations_cartesian. split_and!; [done|apply elem_of_cartesian|apply length_cartesian|apply NoDup_cartesian].
Qed.

(** ** The services *)

Section services.
Context {T : Type → Type} `{Database T} {S : Type}.
(** The tables of inventory-bc the services touch. *)
Record inventory := Inventory {
  products : T (base_row product);
  variant_attributes : T (base_row item_variant_attribute);
  attribute_values : T (base_row item_attribute_value);
  uoms : T (base_row uom);
  conversion_factors : T (base_row uom_conversion_factor);
}.
Context (violates_products : T (base_row product) → option driver_error)
        (violates_attributes : T (base_row item_variant_attribute) → option driver_error)
        (violates_factors : T (base_row uom_conversion_factor) → option driver_error).
Context (rethrow : exn → option exn).
Abbreviation product_row := (base_row product).

Definition set_products (t : T product_row) (db : inventory) : inventory :=
  Inventory t (variant_attributes db) (attribute_values db) (uoms db) (conversion_factors db).
Definition set_factors (t : T (base_row uom_conversion_factor)) (db : inventory) : inventory :=
  Inventory (products db) (variant_attributes db) (attribute_values db) (uoms db) t.

(** *** Products *)

(** [handleGetSupplierById] of supplier-bc, behind [SuppliersProxyService]: the
    columns of a supplier are not looked at. *)
Definition handleGetSupplierById (k : string) : eff (T (base_row S)) (base_row S) :=
  λ suppliers, (BaseService.findById "suppliers" k suppliers, suppliers).
Definition getSupplierById (d : delivery) (k : string) (suppliers : T (base_row S)) : result (option (base_row S)) :=
  (rpc rethrow d (handleGetSupplierById k) suppliers).1.

Definition assertValidSupplier (d : delivery) (supplierId : string) (suppliers : T (base_row S)) : result unit :=
  let! supplier := getSupplierById d supplierId suppliers in
  match supplier with
  | None => Throw (BadRequestException ("Supplier '" +:+ supplierId +:+ "' not found."))
  | Some _ => Ok ()
  end.

Definition not_a_template (templateId : string) : exn :=
  BadRequestException ("Product '" +:+ templateId +:+ "' is not a variant template (has_variants=false).").
Definition assertValidTemplate (templateId : string) (t : T product_row) : result unit :=
  match findEntityById templateId t with
  | None => Throw (BadRequestException ("Template product '" +:+ templateId +:+ "' not found."))
  | Some template => if has_variants (cols template) then Ok () else Throw (not_a_template templateId)
  end.

(** The two checks of [create] and [update]. *)
Definition check_product (d : delivery) (data : product_dto) (suppliers : T (base_row S)) (t : T product_row) :
    result unit :=
  let! _ := match truthy (mjoin (d_supplier_id data)) with
            | Some s => assertValidSupplier d s suppliers
            | None => Ok ()
            end in
  match truthy (mjoin (d_template_product_id data)) with
  | Some k => assertValidTemplate k t
  | None => Ok ()
  end.

Definition create_product (d : delivery) (user : option current_user) (data : string * product_dto)
    (suppliers : T (base_row S)) (db : inventory) : result (product_row * inventory) :=
  let! _ := check_product d data.2 suppliers (products db) in
  let! (r, t) := BaseService.create "products" blank_product assign_product violates_products user data (products db) in
  Ok (r, set_products t db).

Definition update_product (d : delivery) (user : option current_user) (k : string) (data : product_dto)
    (suppliers : T (base_row S)) (db : inventory) : result (product_row * inventory) :=
  let! _ := check_product d data suppliers (products db) in
  let! (r, t) := updateColumns "products" assign_product violates_products user k data (products db) in
  Ok (r, set_products t db).

Definition delete_product (now : Z) (k : string) (softDelete : bool) (user : option current_user) (db : inventory) :
    result inventory :=
  let! t := BaseService.delete "products" violates_products now k softDelete user (products db) in
  Ok (set_products t db).

(** *** Generating the variants of a template *)

(** [valueById.get(id)]: the map keeps the last of several rows. *)
Definition value_by_id (values : list (base_row item_attribute_value)) (k : string) :
    option (base_row item_attribute_value) := List.find (has_pk k) (rev values).

Definition attribute_value (values : list (base_row item_attribute_value)) (entry : VariantCombinationEntry) :
    result (base_row item_attribute_value) :=
  match value_by_id values (e_attribute_value_id entry) with
  | Some v => Ok v
  | None => Throw (BadRequestException ("Attribute value '" +:+ e_attribute_value_id entry +:+ "' not found."))
  end.

Definition skuSuffix (combinationValues : list (base_row item_attribute_value)) : string :=
  join "-" (List.map (λ v, default (value (cols v)) (abbr (cols v))) combinationValues).
Definition nameSuffix (combinationValues : list (base_row item_attribute_value)) : string :=
  join " " (List.map (λ v, value (cols v)) combinationValues).

Definition variant_of (template : product_row) (combinationValues : list (base_row item_attribute_value)) : product :=
  let p := cols template in
  Product (sku p +:+ "-" +:+ skuSuffix combinationValues) (name_th p +:+ " " +:+ nameSuffix combinationValues)
    (name_en p +:+ " " +:+ nameSuffix combinationValues) (type_ p) (item_group_id p) (brand_id p) (stock_uom_id p)
    false (Some (id template)) (supplier_id p).

Definition variantAttributes (user : option current_user) (variantId : string) (fresh : nat → string)
    (combination : VariantCombination) : list (base_row item_variant_attribute) :=
  imap (λ i entry, set_creator user (make_row (fresh i)
    (VariantAttribute variantId (e_attribute_id entry) (e_attribute_value_id entry)))) combination.

(** The tables the transaction writes. *)
Abbreviation written := (T product_row * T (base_row item_variant_attribute))%type.
(** The ids the database gives the [n]-th variant and the attributes of it. *)
Context (fresh_variant : nat → string) (fresh_attribute : nat → nat → string).

Definition create_variant (user : option current_user) (template : product_row)
    (values : list (base_row item_attribute_value)) (n : nat) (combination : VariantCombination) (w : written) :
    result (product_row * written) :=
  let! combinationValues := res_map (attribute_value values) combination in
  let variant := set_creator user (make_row (fresh_variant n) (variant_of template combinationValues)) in
  let! t := write violates_products (db_insert variant w.1) in
  let! va := write violates_attributes
    (insert_all (variantAttributes user (id variant) (fresh_attribute n) combination) w.2) in
  Ok (variant, (t, va)).
Fixpoint create_variants (user : option current_user) (template : product_row)
    (values : list (base_row item_attribute_value)) (n : nat) (combinations : list VariantCombination) (w : written) :
    result (list product_row * written) :=
  match combinations with
  | [] => Ok ([], w)
  | combination :: rest =>
      let! (variant, w1) := create_variant user template values n combination w in
      let! (created, w2) := create_variants user template values (Datatypes.S n) rest w1 in
      Ok (variant :: created, w2)
  end.

Definition NO_VALUE : exn :=
  BadRequestException "Every attribute dimension must have at least one selected value.".
(** A transaction: when it throws, no table has changed. *)
Definition generateVariants (user : option current_user) (templateId : string)
    (attributes : list VariantAttributeSelection) (db : inventory) : result (list product_row * inventory) :=
  ExecuteDb.executeDbOperation "products"
    match findEntityById templateId (products db) with
    | None => Throw (not_found "Product" templateId)
    | Some template =>
        if negb (has_variants (cols template)) then Throw (not_a_template templateId)
        else
          match generateVariantCombinations attributes with
          | [] => Throw NO_VALUE
          | combinations =>
              let allValueIds := js_set (List.map e_attribute_value_id (List.concat combinations)) in
              let values := repo_find (id_in allValueIds) (attribute_values db) in
              let! (created, w) := create_variants user template values 0 combinations
                (products db, variant_attributes db) in
              Ok (created, Inventory w.1 w.2 (attribute_values db) (uoms db) (conversion_factors db))
          end
    end.

(** *** Conversion factors *)

(** [Number.isInteger] of the number with this text. *)
Definition isInteger (n : string) : bool :=
  if str_includes n "e+" then true
  else negb (str_includes n "e-" || str_includes n "." || includes ["NaN"; "Infinity"; "-Infinity"] n).

Definition quoted (s : string) : string := "'" +:+ s +:+ "'".
Definition assertWholeNumberRoundCheck (productId conversionFactor : string) (db : inventory) : result unit :=
  match findEntityById productId (products db) with
  | None => Throw (BadRequestException ("Product " +:+ quoted productId +:+ " not found."))
  | Some p =>
      match findEntityById (stock_uom_id (cols p)) (uoms db) with
      | Some stockUom =>
          if is_whole_number (cols stockUom) && negb (isInteger conversionFactor)
          then Throw (BadRequestException ("Stock UOM " +:+ quoted (uom_name (cols stockUom))
            +:+ " is whole-number-only; conversion_factor (" +:+ conversionFactor +:+ ") must be a whole number."))
          else Ok ()
      | None => Ok ()
      end
  end.

Definition create_factor (user : option current_user) (data : string * factor_dto) (db : inventory) :
    result (base_row uom_conversion_factor * inventory) :=
  let d := data.2 in
  let! _ := assertWholeNumberRoundCheck (default "" (d_product_id d)) (default "" (d_conversion_factor d)) db in
  let! (r, t) := BaseService.create "uom_conversion_factors" blank_factor assign_factor violates_factors user data
    (conversion_factors db) in
  Ok (r, set_factors t db).

Definition update_factor (user : option current_user) (k : string) (data : factor_dto) (db : inventory) :
    result (base_row uom_conversion_factor * inventory) :=
  let! _ := match d_conversion_factor data with
            | None => Ok ()
            | Some n =>
                let! productId := match d_product_id data with
                                  | Some p => Ok p
                                  | None => let! f := BaseService.findById "uom_conversion_factors" k (conversion_factors db) in
                                            Ok (product_id (cols f))
                                  end in
                assertWholeNumberRoundCheck productId n db
            end in
  let! (r, t) := updateColumns "uom_conversion_factors" assign_factor violates_factors user k data
    (conversion_factors db) in
  Ok (r, set_factors t db).
End services.

(** ** What generation does *)
Section generation.
Context {T : Type → Type} `{DatabaseLaws T}.
Context (violates_products : T (base_row product) → option driver_error)
        (violates_attributes : T (base_row item_variant_attribute) → option driver_error).
Context (fresh_variant : nat → string) (fresh_attribute : nat → nat → string).
Abbreviation generateVariants := (generateVariants violates_products violates_attributes fresh_variant fresh_attribute).
Abbreviation create_variants := (create_variants violates_products violates_attributes fresh_variant fresh_attribute).
Implicit Types (db : inventory (T := T)) (user : option current_user) (template : base_row product).

(** The variant made of a combination. *)
Definition made_of (values : list (base_row item_attribute_value)) user template (n : nat)
    (combination : VariantCombination) (variant : base_row product) : Prop :=
  ∃ vs, Forall2 (λ e v, v ∈ values ∧ id v = e_attribute_value_id e) combination vs ∧
    variant = set_creator user (make_row (fresh_variant n) (variant_of template vs)).
Fixpoint attributes_from user (n : nat) (combinations : list VariantCombination) : list (base_row item_variant_attribute) :=
  match combinations with
  | [] => []
  | c :: cs => variantAttributes user (fresh_variant n) (fresh_attribute n) c ++ attributes_from user (Datatypes.S n) cs
  end.
(** The combination recorded for a variant. *)
Definition attributes_of (variantId : string) (l : list (base_row item_variant_attribute)) : list VariantCombinationEntry :=
  List.map (λ r, Entry (va_attribute_id (cols r)) (va_attribute_value_id (cols r)))
    (List.filter (λ r, String.eqb (variant_product_id (cols r)) variantId) l).

Lemma value_by_id_Some values k v : value_by_id values k = Some v → v ∈ values ∧ id v = k.
Proof.
  unfold value_by_id. intros [Hin Hk%has_pk_true]%List.find_some. split; [|done].
  by apply list_elem_of_In, List.in_rev.
Qed.
Lemma id_created {F} user (r : base_row F) : id (set_creator user r) = id r.
Proof. by destruct user. Qed.
Lemma cols_created {F} user (r : base_row F) : cols (set_creator user r) = cols r.
Proof. by destruct user. Qed.

Lemma create_variants_Ok user template values n combinations t va created t' va' :
  create_variants user template values n combinations (t, va) = Ok (created, (t', va')) →
  rows t' ≡ₚ created ++ rows t ∧ rows va' ≡ₚ attributes_from user n combinations ++ rows va ∧
  length created = length combinations ∧
  (violates_products t = None ∨ combinations ≠ [] → violates_products t' = None) ∧
  ∀ i c, combinations !! i = Some c → ∃ v, created !! i = Some v ∧ made_of values user template (n + i) c v.
Proof.
  revert n t va created. induction combinations as [|c cs IH]; intros n t va created; cbn [Catalogue.create_variants].
  { intros [= <- <- <-]. split_and!; try done. by intros [?|?]. }
  intros Hc. res_inv Hc. destruct a as [v [t1 va1]]. res_inv Hc. destruct a as [vs [t2 va2]]. injection Hc as <- <- <-.
  unfold create_variant in Ha. res_inv Ha. injection Ha as <- <- <-. cbn [fst snd] in *.
  apply write_accepted in Ha2 as [-> Hv]. apply write_accepted in Ha3 as [-> _].
  apply IH in Ha0 as (Ht & Hva & Hl & Hok & Hmade). split_and!.
  - rewrite Ht, insert_rows. cbn. by rewrite Permutation_middle.
  - rewrite Hva, insert_all_rows, id_created. cbn [attributes_from].
    rewrite app_assoc. apply Permutation_app_tail, Permutation_app_comm.
  - cbn. by rewrite Hl.
  - intros _. apply Hok. by left.
  - intros [|i] c'; cbn.
    + intros [= <-]. eexists. split; [done|]. rewrite Nat.add_0_r. eexists. split; [|done].
      apply res_map_Ok in Ha1. eapply Forall2_impl; [exact Ha1|]. intros e v. unfold attribute_value.
      destruct (value_by_id _ _) eqn:E; [|done]. intros [= ->]. by apply value_by_id_Some.
    + intros Hi. rewrite Nat.add_succ_r. by apply (Hmade i c').
Qed.

(** The attributes found for one of the variants. *)
Lemma attributes_of_app k l l' : attributes_of k (l ++ l') = attributes_of k l ++ attributes_of k l'.
Proof. unfold attributes_of. by rewrite List.filter_app, List.map_app. Qed.
Lemma attributes_of_none k l : (∀ r, r ∈ l → variant_product_id (cols r) ≠ k) → attributes_of k l = [].
Proof.
  intros Hl. unfold attributes_of. rewrite List_filter_none; [done|]. intros r Hr. by apply String.eqb_neq, Hl.
Qed.
Lemma variantAttributes_variant user v fresh c r :
  r ∈ variantAttributes user v fresh c → variant_product_id (cols r) = v.
Proof.
  intros (i & e & -> & _)%elem_of_lookup_imap. by rewrite cols_created.
Qed.
Lemma attributes_of_own user v fresh c : attributes_of v (variantAttributes user v fresh c) = c.
Proof.
  unfold attributes_of. rewrite List_filter_all.
  - unfold variantAttributes. revert fresh. induction c as [|e c IH]; intros fresh; [done|].
    rewrite imap_cons. cbn [List.map]. rewrite cols_created. cbn. f_equal; [by destruct e|]. apply (IH (fresh ∘ Datatypes.S)).
  - intros r Hr%variantAttributes_variant. by apply String.eqb_eq.
Qed.
Lemma attributes_from_variant user n cs r : r ∈ attributes_from user n cs →
  ∃ m, (n ≤ m)%nat ∧ variant_product_id (cols r) = fresh_variant m.
Proof.
  revert n. induction cs as [|c cs IH]; intros n; cbn [attributes_from]; [by intros ?%elem_of_nil|].
  intros [Hr%variantAttributes_variant|Hr]%elem_of_app; [by exists n|].
  destruct (IH _ Hr) as (m & Hm & ?). exists m. split; [lia|done].
Qed.
Lemma attributes_of_from user n cs i c (Hinj : Inj (=) (=) fresh_variant) : cs !! i = Some c →
  attributes_of (fresh_variant (n + i)) (attributes_from user n cs) = c.
Proof.
  revert n i. induction cs as [|c' cs IH]; intros n [|i]; cbn [attributes_from]; try done.
  - intros [= ->]. rewrite Nat.add_0_r, attributes_of_app, attributes_of_own, attributes_of_none; [by rewrite app_nil_r|].
    intros r (m & Hm & ->)%attributes_from_variant ?%(inj _). lia.
  - intros Hi. rewrite attributes_of_app, attributes_of_none.
    + rewrite Nat.add_succ_r. by apply (IH (Datatypes.S n) i).
    + intros r ->%variantAttributes_variant ?%(inj _). lia.
Qed.
Lemma attributes_of_perm k l l' : l ≡ₚ l' → attributes_of k l ≡ₚ attributes_of k l'.
Proof. intros Hl. unfold attributes_of. by rewrite Hl. Qed.

Lemma generateVariants_Ok user templateId attributes db created db' :
  generateVariants user templateId attributes db = Ok (created, db') →
  ∃ template w, findEntityById templateId (products db) = Some template ∧ has_variants (cols template) = true ∧
    generateVariantCombinations attributes ≠ [] ∧
    create_variants user template
      (repo_find (id_in (js_set (List.map e_attribute_value_id (List.concat (generateVariantCombinations attributes)))))
         (attribute_values db)) 0 (generateVariantCombinations attributes) (products db, variant_attributes db) = Ok (created, w) ∧
    db' = Inventory w.1 w.2 (attribute_values db) (uoms db) (conversion_factors db).
Proof.
  unfold Catalogue.generateVariants. intros Hg%executed. destruct (findEntityById _ _) as [template|]; [|done].
  destruct (has_variants _) eqn:Hh; [|done]. cbn [negb] in Hg. exists template.
  destruct (generateVariantCombinations attributes) as [|c cs]; [done|]. res_inv Hg. destruct a as [vs w].
  injection Hg as <- <-. by exists w.
Qed.

(** A generation adds, for each combination of the selected values, one variant
    of the template, named after the values, and records the combination
    for it; no two products have the same SKU afterwards, and nothing
    else changes. *)
Theorem variants_generated user templateId attributes db created db'
    (Hunique : ∀ t, violates_products t = None → NoDup ((λ r, sku (cols r)) <$> rows t))
    (Hinj : Inj (=) (=) fresh_variant)
    (Hfresh : ∀ r n, r ∈ rows (variant_attributes db) → variant_product_id (cols r) ≠ fresh_variant n)
    (Hok : generateVariants user templateId attributes db = Ok (created, db')) :
  ∃ template, template ∈ rows (products db) ∧ id template = templateId ∧ has_variants (cols template) = true ∧
    length created = length (generateVariantCombinations attributes) ∧
    (∀ i c, generateVariantCombinations attributes !! i = Some c → ∃ v vs,
       created !! i = Some v ∧ cols v = variant_of template vs ∧
       Forall2 (λ e r, r ∈ rows (attribute_values db) ∧ id r = e_attribute_value_id e) c vs ∧
       attributes_of (id v) (rows (variant_attributes db')) ≡ₚ c) ∧
    rows (products db') ≡ₚ created ++ rows (products db) ∧ NoDup ((λ r, sku (cols r)) <$> rows (products db')) ∧
    attribute_values db' = attribute_values db ∧ uoms db' = uoms db ∧ conversion_factors db' = conversion_factors db.
Proof.
  apply generateVariants_Ok in Hok as (template & [t va] & Htpl & Hh & Hne & Hc & ->). cbn [fst snd] in *.
  apply findEntityById_Some in Htpl as (Hin & Hid & _). exists template.
  apply create_variants_Ok in Hc as (Ht & Hva & Hl & Hv & Hmade).
  split_and!; [done|done|done|done| |done|by apply Hunique, Hv; right|done..].
  intros i c Hi. destruct (Hmade i c Hi) as (v & Hlook & vs & Hvs & ->). eexists _, vs.
  split_and!; [exact Hlook|by rewrite cols_created| |].
  - eapply Forall2_impl; [exact Hvs|]. intros e r [Hr He]. split; [|done]. by apply elem_of_repo_find in Hr as [Hr _].
  - rewrite id_created. change (id (make_row ?k ?p)) with k. rewrite (attributes_of_perm _ _ _ Hva), attributes_of_app.
    rewrite (attributes_of_none _ (rows (variant_attributes db))) by eauto.
    rewrite app_nil_r. by rewrite (attributes_of_from user 0 _ i c Hinj Hi).
Qed.

Lemma choice_exists ss : (∀ s, s ∈ ss → value_ids s ≠ []) → ∃ c, Forall2 chooses ss c.
Proof.
  induction ss as [|s ss IH]; intros Hss; [by exists []|].
  destruct IH as [c Hc]; [intros s' Hs'; apply Hss; by right|].
  destruct (value_ids s) as [|v vs] eqn:E; [by destruct (Hss s ltac:(by left))|].
  exists (Entry (attribute_id s) v :: c). constructor; [|done]. split; [done|]. rewrite E. by left.
Qed.
Lemma value_chosen ss s v : (∀ s, s ∈ ss → value_ids s ≠ []) → s ∈ ss → v ∈ value_ids s →
  ∃ c, Forall2 chooses ss c ∧ Entry (attribute_id s) v ∈ c.
Proof.
  induction ss as [|s' ss IH]; intros Hss; [by intros ?%elem_of_nil|].
  assert (∀ s0, s0 ∈ ss → value_ids s0 ≠ []) as Hrest by (intros s0 ?; apply Hss; by right).
  intros [->|Hs]%elem_of_cons Hv.
  - destruct (choice_exists ss Hrest) as [c Hc]. exists (Entry (attribute_id s') v :: c). split; [by constructor|by left].
  - destruct (IH Hrest Hs Hv) as (c & Hc & Hin).
    destruct (choice_exists [s']) as [h Hh]; [intros s0 Hs0%list_elem_of_singleton; rewrite Hs0; apply Hss; by left|].
    exists (h ++ c). split; [exact (Forall2_app Hh Hc)|]. apply elem_of_app. by right.
Qed.

Lemma attribute_value_found values e :
  (∃ v, v ∈ values ∧ id v = e_attribute_value_id e) → ∃ v, attribute_value values e = Ok v.
Proof.
  intros (v & Hv & Hk). unfold attribute_value, value_by_id.
  destruct (List.find _ _) as [r|] eqn:E; [by exists r|].
  pose proof (List.find_none _ _ E v ltac:(rewrite <- List.in_rev; by apply list_elem_of_In)) as Hno.
  apply not_true_iff_false in Hno. by destruct Hno; apply has_pk_true.
Qed.

(** When no constraint refuses a row, every variant can be created if every
    value is found. *)
Lemma create_variants_total user template values n combinations w
    (Hp : ∀ t, violates_products t = None) (Ha : ∀ t, violates_attributes t = None) :
  (∀ c e, c ∈ combinations → e ∈ c → ∃ v, v ∈ values ∧ id v = e_attribute_value_id e) →
  ∃ r, create_variants user template values n combinations w = Ok r.
Proof.
  revert n w. induction combinations as [|c cs IH]; intros n w Hall; cbn [Catalogue.create_variants]; [by eexists|].
  assert (∃ vs, res_map (attribute_value values) c = Ok vs) as [vs Hvs].
  { assert (∀ e, e ∈ c → ∃ v, attribute_value values e = Ok v) as Hc.
    { intros e He. apply attribute_value_found, (Hall c); [by left|done]. }
    clear -Hc. induction c as [|e c IH]; [by exists []|]. destruct (Hc e ltac:(by left)) as [v Hv].
    destruct IH as [vs Hvs]; [intros e' ?; apply Hc; by right|]. exists (v :: vs). cbn. by rewrite Hv, Hvs. }
  unfold create_variant, write. rewrite Hvs. cbn [res_bind]. rewrite Hp. cbn [res_bind]. rewrite Ha. cbn [res_bind].
  edestruct (IH (Datatypes.S n)) as [[vs' w'] Hr]; [intros c' e Hc'; apply Hall; by right|]. rewrite Hr. by eexists.
Qed.

(** When no constraint refuses a row, a generation succeeds exactly when the
    product is a live template, every attribute has a selected value, and
    every selected value is a row of the values table. *)
Theorem generation_succeeds_iff user templateId attributes db
    (Hp : ∀ t, violates_products t = None) (Ha : ∀ t, violates_attributes t = None) :
  (∃ r, generateVariants user templateId attributes db = Ok r) ↔
  (∃ template, findEntityById templateId (products db) = Some template ∧ has_variants (cols template) = true) ∧
  ∀ s, s ∈ attributes → value_ids s ≠ [] ∧
    ∀ v, v ∈ value_ids s → ∃ r, r ∈ rows (attribute_values db) ∧ id r = v ∧ row_deleted_at r = None.
Proof.
  set (values := repo_find (id_in (js_set (List.map e_attribute_value_id
    (List.concat (generateVariantCombinations attributes))))) (attribute_values db)).
  split.
  - intros [[created db'] Hok]. apply generateVariants_Ok in Hok as (template & [t va] & Htpl & Hh & Hne & Hc & _).
    split; [by exists template|]. apply create_variants_Ok in Hc as (_ & _ & _ & _ & Hmade).
    rewrite combinations_cartesian in Hne.
    assert (∀ s, s ∈ attributes → value_ids s ≠ []) as Hall.
    { destruct (cartesian attributes) as [|c cs] eqn:E; [done|]. assert (Forall2 chooses attributes c) as Hc.
      { apply elem_of_cartesian. rewrite E. by left. }
      intros s Hs He. apply list_elem_of_lookup in Hs as [i Hi].
      destruct (Forall2_lookup_l _ _ _ _ _ Hc Hi) as (e & _ & _ & Hv). rewrite He in Hv. by apply elem_of_nil in Hv. }
    intros s Hs. split; [by apply Hall|]. intros v Hv. destruct (value_chosen _ _ _ Hall Hs Hv) as (c & Hc & He).
    apply elem_of_cartesian in Hc. rewrite <- combinations_cartesian in Hc. apply list_elem_of_lookup in Hc as [i Hi].
    destruct (Hmade i c Hi) as (_ & _ & vs & Hvs & _). apply list_elem_of_lookup in He as [j Hj].
    destruct (Forall2_lookup_l _ _ _ _ _ Hvs Hj) as (r & _ & Hr & Hk). exists r.
    by apply elem_of_repo_find in Hr as (Hr & _ & Hd).
  - intros [(template & Htpl & Hh) Hall]. unfold Catalogue.generateVariants. rewrite Htpl, Hh. cbn [negb].
    destruct (choice_exists attributes) as [c0 Hc0]; [intros s Hs; by apply Hall|].
    apply elem_of_cartesian in Hc0. rewrite <- combinations_cartesian in Hc0.
    assert (∀ c e, c ∈ generateVariantCombinations attributes → e ∈ c →
      ∃ v, v ∈ values ∧ id v = e_attribute_value_id e) as Hfound.
    { intros c e Hc He. pose proof Hc as Hch. rewrite combinations_cartesian in Hch. apply elem_of_cartesian in Hch.
      pose proof He as He'. apply list_elem_of_lookup in He' as [j Hj].
      destruct (Forall2_lookup_r _ _ _ _ _ Hch Hj) as (s & Hs & _ & Hv).
      apply list_elem_of_lookup_2 in Hs. destruct (Hall s Hs) as [_ Hval]. destruct (Hval _ Hv) as (r & Hr & Hid & Hd).
      exists r. split; [|done]. apply elem_of_repo_find. split_and!; [done| |done].
      apply includes_true, elem_of_js_set, elem_of_List_map. exists e. split; [|done].
      apply list_elem_of_In, List.in_concat. exists c. by rewrite <- !list_elem_of_In. }
    destruct (create_variants_total user template values 0 (generateVariantCombinations attributes)
      (products db, variant_attributes db) Hp Ha Hfound) as [[vs w] Hr].
    subst values. destruct (generateVariantCombinations attributes) as [|c cs]; [by apply elem_of_nil in Hc0|].
    rewrite Hr. by eexists.
Qed.

(** The attribute a value is selected under is not compared with the attribute
    the value belongs to: any other attributes do as well. *)
Theorem attribute_not_checked user templateId attributes attributes' db
    (Hp : ∀ t, violates_products t = None) (Ha : ∀ t, violates_attributes t = None)
    (Hsame : value_ids <$> attributes = value_ids <$> attributes') :
  (∃ r, generateVariants user templateId attributes db = Ok r) →
  ∃ r, generateVariants user templateId attributes' db = Ok r.
Proof.
  rewrite !generation_succeeds_iff by done. intros [Htpl Hall]. split; [done|]. intros s Hs.
  apply (list_elem_of_fmap_2 value_ids) in Hs. rewrite <- Hsame in Hs. apply list_elem_of_fmap in Hs as (s' & -> & Hs).
  by apply Hall.
Qed.
End generation.

(** ** Conversion factors of whole-number units *)
Section factors.
Context {T : Type → Type} `{DatabaseLaws T}.
Context (violates_factors : T (base_row uom_conversion_factor) → option driver_error).
Implicit Types (db : inventory (T := T)) (f : base_row uom_conversion_factor).

(** The factor fits the unit its product is stocked in. *)
Definition fits db (productId factor : string) : Prop :=
  ∀ p u, findEntityById productId (products db) = Some p →
    findEntityById (stock_uom_id (cols p)) (uoms db) = Some u →
    is_whole_number (cols u) = true → isInteger factor = true.
Definition factors_whole db : Prop := ∀ f, f ∈ rows (conversion_factors db) → live_row f = true →
  fits db (product_id (cols f)) (conversion_factor (cols f)).

Lemma check_fits productId factor db : assertWholeNumberRoundCheck productId factor db = Ok () ↔
  is_Some (findEntityById productId (products db)) ∧ fits db productId factor.
Proof.
  unfold assertWholeNumberRoundCheck, fits. destruct (findEntityById productId _) as [p|]; [|split; [done|by intros [[? ?] _]]].
  split.
  - intros Hc. split; [done|]. intros p' u [= <-] Hu Hw. rewrite Hu, Hw in Hc. by destruct (isInteger factor).
  - intros [_ Hf]. destruct (findEntityById _ (uoms db)) as [u|] eqn:Hu; [|done].
    destruct (is_whole_number (cols u)) eqn:Hw; [|done]. by rewrite (Hf p u eq_refl Hu Hw).
Qed.

(** A request that could make a factor not fit gives the factor. *)
Definition gives_factor (d : factor_dto) : Prop := d_product_id d ≠ None → d_conversion_factor d ≠ None.

Inductive factor_step db : inventory (T := T) → Prop :=
  | step_create_factor user data r db' (Hgiven : d_product_id data.2 ≠ None ∧ d_conversion_factor data.2 ≠ None) :
      create_factor violates_factors user data db = Ok (r, db') → factor_step db db'
  | step_update_factor user k data r db' (Hgiven : gives_factor data) :
      update_factor violates_factors user k data db = Ok (r, db') → factor_step db db'
  | step_delete_factor now k soft user t :
      BaseService.delete "uom_conversion_factors" violates_factors now k soft user (conversion_factors db) = Ok t →
      factor_step db (set_factors t db).

Lemma created_factor_whole user data r db db' : factors_whole db → d_product_id data.2 ≠ None →
  d_conversion_factor data.2 ≠ None → create_factor violates_factors user data db = Ok (r, db') → factors_whole db'.
Proof.
  intros Hw Hp Hf Hc. unfold create_factor in Hc. res_inv Hc. destruct a, a0 as [r' t]. injection Hc as <- <-.
  apply check_fits in Ha as [_ Hfits]. apply create_wrote in Ha0 as (-> & -> & _).
  intros f Hin Hlive. cbn in Hin. rewrite insert_rows in Hin. apply elem_of_cons in Hin as [->|Hin]; [|by apply Hw].
  destruct data as [k d], (d_product_id d) eqn:Ep, (d_conversion_factor d) eqn:Ef; cbn in *; try done.
  rewrite ?Ep, ?Ef in *. rewrite cols_created. unfold assign_factor. cbn. by rewrite Ep, Ef.
Qed.

Lemma live_updated {F} user (r : base_row F) : live_row (set_updater user r) = live_row r.
Proof. by destruct user. Qed.
Lemma cols_updated {F} user (r : base_row F) : cols (set_updater user r) = cols r.
Proof. by destruct user. Qed.

Lemma updated_factor_whole user k data r db db' : NoDup (id <$> rows (conversion_factors db)) →
  factors_whole db → gives_factor data → update_factor violates_factors user k data db = Ok (r, db') → factors_whole db'.
Proof.
  intros Hids Hw Hg Hu. unfold update_factor in Hu. res_inv Hu. rename Ha into Hcheck. destruct a, a0 as [r' t]. injection Hu as <- <-.
  apply update_wrote in Ha0 as (e & He & -> & -> & _). apply repo_findOne_Some in He as (He & Hk%has_pk_true & Hd).
  intros f Hin Hlive. cbn in Hin. apply elem_of_repo_save in Hin as [[Hin _]|[-> _]]; [by apply Hw|].
  rewrite live_updated in Hlive. rewrite cols_updated. change (live_row e = true) in Hlive. cbn [cols with_cols assign_factor product_id conversion_factor].
  destruct (d_conversion_factor data) as [n|] eqn:Ef.
  - res_inv Hcheck. apply check_fits in Hcheck as [_ Hfits]. destruct (d_product_id data) as [p|].
    + injection Ha as <-. exact Hfits.
    + res_inv Ha. injection Ha as <-. apply findById_Ok in Ha0 as (Hf & Hid & _).
      assert (a0 = e) as -> by (apply (NoDup_fmap_elem_inj id (rows (conversion_factors db))); [done..|]; cbn in *; congruence).
      exact Hfits.
  - destruct (d_product_id data) eqn:Ep; [unfold gives_factor in Hg; rewrite Ep, Ef in Hg; by destruct Hg|]. by apply Hw.
Qed.

(** Creating, correcting and deleting factors keeps the rule that the factors of
    a product stocked in a whole-number unit are whole, provided an update that
    moves a factor to another product gives the factor. *)
Theorem factors_stay_whole db db' (Hids : NoDup (id <$> rows (conversion_factors db)))
    (Hw : factors_whole db) (Hstep : factor_step db db') : factors_whole db'.
Proof.
  destruct Hstep as [user data r db' [Hp Hf] Hc|user k data r db' Hg Hu|now k soft user t Hd].
  - by apply (created_factor_whole user data r db).
  - by apply (updated_factor_whole user k data r db).
  - apply delete_wrote in Hd as (_ & Hrows & _). intros f Hin Hlive. cbn in Hin. rewrite Hrows in Hin. unfold deleted_rows in Hin.
    destruct soft.
    + apply elem_of_List_map in Hin as (q & Hq & ->). destruct (has_pk k q); [|by apply Hw].
      by rewrite live_stamped in Hlive.
    + apply elem_of_List_filter in Hin as [Hin _]. by apply Hw.
Qed.

(** An update that moves a factor to another product without giving the factor
    is not checked: it succeeds for every product id. *)
Theorem moved_factor_unchecked user k p db e
    (Hv : ∀ t, violates_factors t = None) (He : repo_findById k (conversion_factors db) = Some e) :
  ∃ r db', update_factor violates_factors user k (FactorDTO (Some p) None None None) db = Ok (r, db') ∧
    r ∈ rows (conversion_factors db') ∧ product_id (cols r) = p ∧
    conversion_factor (cols r) = conversion_factor (cols e) ∧ live_row r = live_row e.
Proof.
  unfold update_factor, updateColumns, write. cbn [d_conversion_factor res_bind]. rewrite He, Hv. cbn [res_bind ExecuteDb.executeDbOperation].
  do 2 eexists. split; [reflexivity|]. rewrite cols_updated, live_updated. split_and!; [|done..].
  cbn. apply elem_of_repo_save. right. split; [done|]. apply repo_findOne_Some in He as (He & _).
  apply list_elem_of_fmap. exists e. split; [|done]. by destruct user.
Qed.
End factors.

(** ** References to suppliers *)

(** A supplier is accepted exactly when supplier-bc answers that it is live; a
    missing one is answered with the error of supplier-bc when the caller
    recognises it, and when no answer arrives every supplier is refused as not
    found. *)
Theorem supplier_checked {T : Type → Type} `{DatabaseLaws T} {S : Type} (rethrow : exn → option exn) d k (suppliers : T (base_row S)) :
  let missing := BadRequestException ("Supplier '" +:+ k +:+ "' not found.") in
  match findEntityById k suppliers, d with
  | Some _, Delivered => assertValidSupplier rethrow d k suppliers = Ok ()
  | None, Delivered => assertValidSupplier rethrow d k suppliers =
      Throw (default missing (rethrow (not_found "suppliers" k)))
  | _, _ => assertValidSupplier rethrow d k suppliers = Throw missing
  end.
Proof.
  unfold assertValidSupplier, getSupplierById, handleGetSupplierById, rpc, BaseService.findById.
  destruct (findEntityById k suppliers), d; cbn; try done. by destruct (rethrow _).
Qed.

(** ** Samples and witnesses *)
Module Sample.
Definition no_violation {X} (_ : X) : option driver_error := None.
Definition duplicate : driver_error := DriverError (Some "23505") None None None None None None.
(** The unique index on [sku]. *)
Definition unique_sku (t : list (base_row product)) : option driver_error :=
  if bool_decide (NoDup ((λ r, sku (cols r)) <$> t)) then None else Some duplicate.
Definition shirt : base_row product :=
  make_row "p1" (Product "SHIRT" "shirt" "Shirt" SINGLE "g1" None "pcs" true None (Some "s1")).
Definition values : list (base_row item_attribute_value) :=
  [make_row "red" (AttributeValue "color" "Red" (Some "R")); make_row "black" (AttributeValue "color" "Black" None);
   make_row "small" (AttributeValue "size" "S" None)].
Definition units : list (base_row uom) := [make_row "pcs" (Uom "piece" true); make_row "kg" (Uom "kilogram" false)].
Definition flour : base_row product := make_row "p2" (Product "FLOUR" "flour" "Flour" SINGLE "g1" None "kg" false None None).
Definition box : base_row uom_conversion_factor := make_row "f1" (ConversionFactor "p2" "box" "12.5" PURCHASE).
Definition db : inventory (T := list) := Inventory [shirt; flour] [] values units [box].
Definition fresh_variant (n : nat) : string := "v" +:+ str_repeat n "'".
Definition fresh_attribute (n m : nat) : string := fresh_variant n +:+ str_repeat m "-".
Definition two_colors : list VariantAttributeSelection := [Selection "color" ["red"; "black"]; Selection "size" ["small"]].
Definition generate : list VariantAttributeSelection → result (list (base_row product) * inventory) :=
  λ attributes, generateVariants (T := list) unique_sku no_violation fresh_variant fresh_attribute (Some (UserId "u1")) "p1" attributes db.

Example two_variants :
  match generate two_colors with
  | Ok (created, db') => List.map (λ v, (id v, sku (cols v), name_en (cols v))) created =
      [("v", "SHIRT-R-S", "Shirt Red S"); ("v'", "SHIRT-Black-S", "Shirt Black S")] ∧
      length (variant_attributes db') = 4%nat
  | Throw _ => False
  end.
Proof. by vm_compute. Qed.
(** A value selected twice makes two variants with one SKU: nothing is created. *)
Example value_twice : generate [Selection "color" ["red"; "red"]]
  = Throw (with_code 409 "23505" "A record with the provided details already exists.").
Proof. by vm_compute. Qed.
(** A size recorded as a color. *)
Example wrong_attribute :
  match generate [Selection "color" ["small"]] with
  | Ok (_, db') => List.map cols (variant_attributes db') = [VariantAttribute "v" "color" "small"]
  | Throw _ => False
  end.
Proof. by vm_compute. Qed.
Example fractional_refused : update_factor (T := list) no_violation None "f1" (FactorDTO (Some "p1") None (Some "12.5") None) db
  = Throw (BadRequestException "Stock UOM 'piece' is whole-number-only; conversion_factor (12.5) must be a whole number.").
Proof. by vm_compute. Qed.

Lemma fresh_inj : Inj (=) (=) fresh_variant.
Proof.
  intros n m. unfold fresh_variant. cbn. intros [= Hs]. revert m Hs. induction n as [|n IH]; intros [|m]; try done.
  cbn. intros [= Hs]. f_equal. by apply IH.
Qed.
End Sample.

Lemma variants_generated_witness :
  ∃ created db', Sample.generate Sample.two_colors = Ok (created, db') ∧ length created = 2%nat ∧
    NoDup ((λ r, sku (cols r)) <$> products db').
Proof.
  destruct (Sample.generate Sample.two_colors) as [[created db']|e] eqn:E; [|vm_compute in E; discriminate E].
  exists created, db'. split; [reflexivity|].
  destruct (variants_generated (T := list) Sample.unique_sku Sample.no_violation Sample.fresh_variant Sample.fresh_attribute
    (Some (UserId "u1")) "p1" Sample.two_colors Sample.db created db') as (t & _ & _ & _ & Hl & _ & _ & Hnd & _).
  - intros t. unfold Sample.unique_sku. by case_bool_decide.
  - exact Sample.fresh_inj.
  - intros r n Hr. by apply elem_of_nil in Hr.
  - exact E.
  - by split.
Defined.

Lemma factors_stay_whole_witness :
  ∃ db', factor_step (T := list) Sample.no_violation Sample.db db' ∧ factors_whole db'.
Proof.
  set (data := FactorDTO (Some "p1") None (Some "12") None).
  destruct (update_factor (T := list) Sample.no_violation None "f1" data Sample.db) as [[r db']|e] eqn:E;
    [|vm_compute in E; discriminate E].
  assert (factor_step (T := list) Sample.no_violation Sample.db db') as Hs.
  { apply (step_update_factor _ _ None "f1" data r db'); [|exact E]. by intros _. }
  exists db'. split; [exact Hs|]. apply (factors_stay_whole Sample.no_violation Sample.db db'); [| |exact Hs].
  - apply (bool_decide_eq_true_1 _). by vm_compute.
  - intros f Hf _ p u Hp Hu Hw. apply list_elem_of_singleton in Hf as ->.
    vm_compute in Hp. injection Hp as <-. vm_compute in Hu. injection Hu as <-. by vm_compute in Hw.
Defined.

Lemma moved_factor_unchecked_witness :
  ∃ r db', update_factor (T := list) Sample.no_violation None "f1" (FactorDTO (Some "p1") None None None) Sample.db = Ok (r, db') ∧
    product_id (cols r) = "p1" ∧ conversion_factor (cols r) = "12.5".
Proof.
  destruct (moved_factor_unchecked (T := list) Sample.no_violation None "f1" "p1" Sample.db Sample.box) as (r & db' & Hu & _ & Hp & Hf & _).
  - done.
  - reflexivity.
  - by exists r, db'.
Defined.

#[local] Existing Instance Listing.Sample.engine.
#[local] Existing Instance Listing.Sample.engine_laws.
Lemma scoped_listing_witness :
  ∃ data pg, findPaginatedBy (T := list) sample_entities "task" no_json (λ _, false) Ok (λ _ s, Ok s) (λ _ s, Ok s) (λ _ s, Ok s)
      JUndefined "tasks" "name" "a" (Listing.Sample.query (JNum "5") JUndefined (JStr "id||$eq||4")) Listing.Sample.tasks = Ok (data, pg) ∧
    List.map id data = ["4"] ∧ ∀ r, r ∈ data → Listing.Sample.holds r ["name"] (WVal (JStr "a")).
Proof.
  set (q := Listing.Sample.query (JNum "5") JUndefined (JStr "id||$eq||4")).
  destruct (findPaginatedBy (T := list) sample_entities "task" no_json (λ _, false) Ok (λ _ s, Ok s) (λ _ s, Ok s) (λ _ s, Ok s)
      JUndefined "tasks" "name" "a" q Listing.Sample.tasks) as [[data pg]|e] eqn:E; [|vm_compute in E; discriminate E].
  exists data, pg. split; [reflexivity|]. split; [vm_compute in E; by injection E as <- _|]. intros r Hr.
  apply (scoped_listing (T := list) Listing.Sample.holds Listing.Sample.properties sample_entities "task" no_json (λ _, false) Ok
    (λ _ s, Ok s) (λ _ s, Ok s) (λ _ s, Ok s) JUndefined "tasks" "name" "a" q Listing.Sample.tasks data pg
    (Reading [] [Filter "name" F_eq "a"] [Filter "id" F_eq "4"] [] [Some (["name"], WVal (JStr "a"))] [Some (["id"], WVal (JStr "4"))])).
  - by split.
  - reflexivity.
  - done.
  - unfold reads. split; [reflexivity|]. split; [by vm_compute|]. split; [by vm_compute|].
    exists 0%nat, 0%nat, 0%nat. split; [reflexivity|]. split; by vm_compute.
  - split.
    + constructor.
    + apply unambiguous_check. by vm_compute.
    + apply separated_once. apply (bool_decide_eq_true_1 _). by vm_compute.
    + intros p Hin. cbn in Hin. by apply elem_of_nil in Hin.
  - intros p c Hp Hc. change (p ∈ [["name"]; ["id"]; ["id"]]) in Hp. rewrite !elem_of_cons, elem_of_nil in Hp.
    destruct Hp as [->|[->|[->|[]]]]; injection Hc as <-; apply (bool_decide_eq_true_1 _); by vm_compute.
  - exact E.
  - exact Hr.
Defined.
