(* ===== verification/UserAdmin.v ===== *)
(** * User administration

    [UsersService] of iam-bc (src/apps/iam/src/modules/users): creating a user
    with a temporary password and resetting a password, with the handlers of
    auth-bc they call (credential-events.controller.ts) and the handler auth-bc
    calls at login (access-events.controller.ts).

    iam-bc keeps the users, auth-bc the credentials; a call between them may be
    lost, or answered too late ([delivery], Storage.v).  [randomInt] is an
    argument, numbered by its calls; the assignment of roles is in
    SessionSync.v. *)

From S2P Require Import Prelude JsString Repo DbErrors BaseService SessionStore Storage AuthService.
#[local] Open Scope string_scope.
#[local] Open Scope list_scope.

(** ** Temporary passwords *)
Module TempPassword.
Definition chars_of : string → list ascii := String.list_ascii_of_string.
Definition UPPER : list ascii := chars_of "ABCDEFGHJKLMNPQRSTUVWXYZ".
Definition LOWER : list ascii := chars_of "abcdefghijkmnpqrstuvwxyz".
Definition DIGITS : list ascii := chars_of "23456789".
Definition SYMBOLS : list ascii := chars_of "!@#$%^&*".
Definition ALL : list ascii := UPPER ++ LOWER ++ DIGITS ++ SYMBOLS.

Section generate.
(** The [k]-th call of [randomInt], with its bound. *)
Context (randomInt : nat → nat → nat).

Definition pick (k : nat) (charset : list ascii) : ascii := nth (randomInt k (length charset)) charset "000"%char.
Definition swap (i j : nat) (chars : list ascii) : list ascii :=
  match chars !! i, chars !! j with
  | Some a, Some b => <[j := a]> (<[i := b]> chars)
  | _, _ => chars
  end.
(** The loop from [i] down to 1, its first call of [randomInt] numbered [k]. *)
Fixpoint shuffle (i k : nat) (chars : list ascii) : list ascii :=
  match i with
  | O => chars
  | S i' => shuffle i' (S k) (swap i (randomInt k (S i)) chars)
  end.
Definition generateTempPassword (length : nat) : string :=
  let required := [pick 0 UPPER; pick 1 LOWER; pick 2 DIGITS; pick 3 SYMBOLS] in
  let rest := List.map (λ n, pick (4 + n) ALL) (seq 0 (length - List.length required)) in
  let chars := required ++ rest in
  String.string_of_list_ascii (shuffle (List.length chars - 1) (List.length chars) chars).

Lemma swap_permutes i j l : swap i j l ≡ₚ l.
Proof.
  unfold swap. destruct (l !! i) as [a|] eqn:Ei; [|done]. destruct (l !! j) as [b|] eqn:Ej; [|done].
  by apply Permutation_insert_swap.
Qed.
Lemma shuffle_permutes i k l : shuffle i k l ≡ₚ l.
Proof. revert k l. induction i as [|i IH]; intros k l; cbn [shuffle]; [done|]. by rewrite IH, swap_permutes. Qed.

Hypothesis randomInt_bound : ∀ k n, (0 < n)%nat → (randomInt k n < n)%nat.
Lemma pick_elem k charset : charset ≠ [] → pick k charset ∈ charset.
Proof.
  intros Hne. unfold pick. rewrite list_elem_of_In. apply nth_In, randomInt_bound. by destruct charset; [|cbn; lia].
Qed.

(** A temporary password has the length asked for (at least four), one character
    of each class, no character of another class and none of the five that are
    easily misread. *)
Theorem temp_password_ok n :
  let p := chars_of (generateTempPassword n) in
  length p = Nat.max 4 n ∧
  (∃ u l d s, p ≡ₚ [u; l; d; s] ++ List.map (λ i, pick (4 + i) ALL) (seq 0 (n - 4)) ∧
     u ∈ UPPER ∧ l ∈ LOWER ∧ d ∈ DIGITS ∧ s ∈ SYMBOLS) ∧
  ∀ c, c ∈ p → c ∈ ALL ∧ c ∉ chars_of "0O1lI".
Proof.
  intros p. set (rest := List.map (λ i, pick (4 + i) ALL) (seq 0 (n - 4))).
  assert (p ≡ₚ [pick 0 UPPER; pick 1 LOWER; pick 2 DIGITS; pick 3 SYMBOLS] ++ rest) as Hp.
  { unfold p, chars_of, generateTempPassword. rewrite String.list_ascii_of_string_of_list_ascii. apply shuffle_permutes. }
  split_and!.
  - rewrite Hp, length_app. unfold rest. rewrite length_map, length_seq. cbn. lia.
  - do 4 eexists. split; [exact Hp|]. by split_and!; apply pick_elem.
  - intros c Hc. rewrite Hp in Hc. assert (c ∈ ALL) as Hall.
    { unfold ALL. rewrite !elem_of_app. apply elem_of_app in Hc as [Hc|Hc].
      - rewrite !elem_of_cons, elem_of_nil in Hc.
        destruct Hc as [->|[->|[->|[->|[]]]]]; [left|right; left|right; right; left|right; right; right]; by apply pick_elem.
      - unfold rest in Hc. apply elem_of_List_map in Hc as (i & _ & ->). rewrite <- !elem_of_app. by apply pick_elem. }
    split; [done|]. assert (Forall (λ c, c ∉ chars_of "0O1lI") ALL) as Hno.
    { apply (bool_decide_eq_true_1 _). by vm_compute. }
    by rewrite Forall_forall in Hno; apply Hno.
Qed.
End generate.

Example some_password : generateTempPassword (λ k n, (k * 7 + 3) mod n) 12 = "3h$qCK6SDkx!".
Proof. vm_compute. reflexivity. Qed.
End TempPassword.

(** ** Users and credentials *)

Record user_cols := UserCols {
  username : string; employee_id : string; full_name : string; email : option string; department : option string;
  user_status : string; user_expired_at : option string;
}.
(** [CreateUserDTO] and [UpdateUserDTO]. *)
Record user_dto := UserDTO {
  d_username : option string; d_employee_id : option string; d_full_name : option string;
  d_email : option (option string); d_department : option (option string); d_status : option string;
  d_expired_at : option (option string);
}.
Definition assign_user (d : user_dto) (u : user_cols) : user_cols :=
  UserCols (default (username u) (d_username d)) (default (employee_id u) (d_employee_id d))
    (default (full_name u) (d_full_name d)) (default (email u) (d_email d)) (default (department u) (d_department d))
    (default (user_status u) (d_status d)) (default (user_expired_at u) (d_expired_at d)).
Definition blank_user : user_cols := UserCols "" "" "" None None "pending" None.

Section service.
Context {T : Type → Type} `{Database T} {S V : Type} `{Redis S V} `{!Json ISessionData V}.
Context (bcrypt_hash : nat → string → string) (uuid : nat → string).
Context (violates : T (base_row user_cols) → option driver_error).
Context (rethrow : exn → option exn) (randomInt : nat → nat → nat).
Abbreviation user_row := (base_row user_cols).

(** The tables of iam-bc and auth-bc. *)
Record directory := Directory { users : T user_row; auth : auth_state T S }.
Definition on_users {A} (f : T user_row → result (A * T user_row)) : eff directory A := λ s,
  match f (users s) with
  | Ok (a, t) => (Ok a, Directory t (auth s))
  | Throw e => (Throw e, s)
  end.
Definition on_auth {A} (m : eff (auth_state T S) A) : eff directory A := λ s,
  let '(r, a) := m (auth s) in (r, Directory (users s) a).
#[local] Open Scope eff_scope.

(** *** The handlers *)

(** Of auth-bc, [{ success: true }] being [true]. *)
Definition handleCreateInitialCredential (userId username password : string) (created_by : option string) :
    eff (auth_state T S) bool :=
  do! _ := createInitialCredential (T := T) (S := S) bcrypt_hash uuid userId username password created_by in eff_ret true.
Definition handleResetPassword (userId username password : string) (reset_by : option string) :
    eff (auth_state T S) bool :=
  do! _ := resetPassword (T := T) (S := S) (V := V) bcrypt_hash uuid userId username password reset_by in eff_ret true.

(** Of iam-bc. *)
Definition handleFindById (k : string) (t : T user_row) : result IIamUser :=
  match findEntityById k t with
  | None => Throw (NotFoundException ("User '" +:+ k +:+ "' not found."))
  | Some u => Ok (IamUser (id u) (username (cols u)) (email (cols u)) (Some (full_name (cols u)))
                    (user_status (cols u)) (user_expired_at (cols u)))
  end.
(** What auth-bc gets of it. *)
Definition iam_user (d : delivery) (t : T user_row) (k : string) : result (option IIamUser) :=
  (rpc rethrow d (eff_run (handleFindById k t)) tt).1.

(** *** The service *)

Definition PASSWORD_LENGTH : nat := 12.
Definition acting (user : option current_user) : option string := user ≫= user_id.

(** The user and the temporary password. A failed call is only logged. *)
Definition create_user (d : delivery) (user : option current_user) (data : string * user_dto) :
    eff directory (user_row * string) :=
  do! u := on_users (BaseService.create "users" blank_user assign_user violates user data) in
  let tempPassword := TempPassword.generateTempPassword randomInt PASSWORD_LENGTH in
  do! _ := on_auth (rpc rethrow d (handleCreateInitialCredential (id u) (username (cols u)) tempPassword (acting user))) in
  eff_ret (u, tempPassword).

Definition reset_user_password (d : delivery) (user : option current_user) (userId : string) : eff directory string :=
  do! u := on_users (λ t, let! u := BaseService.findById "users" userId t in Ok (u, t)) in
  let tempPassword := TempPassword.generateTempPassword randomInt PASSWORD_LENGTH in
  do! reply := on_auth (rpc rethrow d (handleResetPassword (id u) (username (cols u)) tempPassword (acting user))) in
  if default false reply then eff_ret tempPassword
  else eff_throw (InternalServerErrorException "Failed to reset password — please try again.").
End service.

(** ** From administration to login *)
Section laws.
Context {T : Type → Type} `{DatabaseLaws T} {S V : Type} `{Redis S V} `{!Json ISessionData V}.
Context (bcrypt_hash : nat → string → string) (bcrypt_compare : string → string → bool)
        (sha256_hex : string → string) (uuid random_hex : nat → string) (jwt_sign : jwt_payload → Z → string).
Context (ResolvePermissions : string → result (option IResolvedPermissions)).
Context (access_expires_in refresh_expires_in : option string).
Context (violates : T (base_row user_cols) → option driver_error).
Context (rethrow : exn → option exn) (randomInt : nat → nat → nat).
Hypothesis compare_hash : ∀ n pw, bcrypt_compare pw (bcrypt_hash n pw) = true.
Implicit Types (st : directory (T := T) (S := S)) (s : auth_state T S) (c : base_row credential) (u : base_row user_cols).
Abbreviation create_user := (create_user bcrypt_hash uuid violates rethrow randomInt).
Abbreviation reset_user_password := (reset_user_password (V := V) bcrypt_hash uuid rethrow randomInt).
(** A login, auth-bc asking iam-bc for the user. *)
Abbreviation login t := (login (T := T) (V := V) bcrypt_compare sha256_hex uuid random_hex jwt_sign
  (iam_user rethrow Delivered t) ResolvePermissions access_expires_in refresh_expires_in).

(** The services a login needs besides the credential: iam-bc resolves the
    permissions and the lifetimes are well written. *)
Definition services_up (userId : string) : Prop :=
  (∃ perms, ResolvePermissions userId = Ok perms) ∧
  res_ok (access_ttl access_expires_in) && res_ok (refresh_ttl refresh_expires_in) = true.
(** The user may log in today. *)
Definition may_log_in (today : string) (u : base_row user_cols) : Prop :=
  user_status (cols u) = "active" ∧ isExpired today (user_expired_at (cols u)) = false.

Lemma iam_user_found t u : NoDup (id <$> rows t) → u ∈ rows t → is_deleted u = false → row_deleted_at u = None →
  iam_user rethrow Delivered t (id u) = Ok (Some (IamUser (id u) (username (cols u)) (email (cols u))
    (Some (full_name (cols u))) (user_status (cols u)) (user_expired_at (cols u)))).
Proof.
  intros Hids Hu Hdel Hd. unfold iam_user, rpc, eff_run, handleFindById.
  pose proof (findById_live "users" t u Hids Hu Hdel Hd) as Hf. unfold BaseService.findById in Hf.
  destruct (findEntityById (id u) t) as [u'|]; [|done]. by injection Hf as ->.
Qed.

Lemma login_with now today uname pw ip ua t s c u n (Hids : NoDup (id <$> rows t)) (Hu : u ∈ rows t)
    (Hdel : is_deleted u = false) (Hd : row_deleted_at u = None)
    (Hc : repo_findOne (credential_of uname) (credentials s) = Some c)
    (Hcols : cols c = Credential (id u) uname (bcrypt_hash n pw) true true)
    (Hb : repo_findOne (blocks now (id u)) (blockedUsers s) = None) (Hup : services_up (id u)) :
  (∃ res s', login t now today uname pw ip ua s = (Ok res, s') ∧ lr_must_change_password res = true ∧ may_log_in today u) ∨
  (∃ e s', login t now today uname pw ip ua s = (Throw e, s') ∧ ¬ may_log_in today u).
Proof.
  pose proof (login_opens bcrypt_compare sha256_hex uuid random_hex jwt_sign (iam_user rethrow Delivered t) ResolvePermissions
    access_expires_in refresh_expires_in now today uname pw ip ua s) as Ho.
  pose proof (iam_user_found t u Hids Hu Hdel Hd) as Hf.
  destruct (AuthService.login _ _ _ _ _ _ _ _ _ _ _ _ _ _ _ _) as [[res|e] s'].
  - left. destruct Ho as (c' & u' & perms & s1 & [Hc' _ _ _ Hu' Hst Hex] & _ & Hi & _). exists res, s'.
    rewrite Hc in Hc'. injection Hc' as <-. rewrite Hcols in *. cbn in Hu'. rewrite Hf in Hu'. injection Hu' as <-.
    cbn in *. split; [done|]. split; [by destruct Hi|done].
  - right. destruct Ho as [_ Hno]. exists e, s'. split; [done|]. intros [Hst Hex]. apply Hno.
    destruct Hup as [[perms Hp] Httl]. eexists c, _, perms. rewrite Hcols. cbn. split_and!; [|done|done].
    split; rewrite ?Hcols; cbn; done.
Qed.

Lemma created_user d user data st u pw st' : create_user d user data st = (Ok (u, pw), st') →
  u = set_creator user (make_row data.1 (assign_user data.2 blank_user)) ∧ users st' = db_insert u (users st) ∧
  auth st' = match d with
             | NotDelivered => auth st
             | _ => (handleCreateInitialCredential (T := T) (S := S) bcrypt_hash uuid (id u) (username (cols u)) pw
                       (acting user) (auth st)).2
             end.
Proof.
  unfold UserAdmin.create_user. generalize (TempPassword.generateTempPassword randomInt PASSWORD_LENGTH). intros p0.
  intros (u' & st1 & Hu & Hc)%eff_bind_Ok.
  unfold on_users in Hu. destruct (BaseService.create _ _ _ _ _ _ _) as [[r t]|e] eqn:E; [|done].
  injection Hu as -> <-. apply create_wrote in E as (-> & -> & _).
  apply eff_bind_Ok in Hc as (reply & st2 & Ha & Hret). injection Hret as <- <- <-.
  revert Ha. unfold on_auth, rpc. destruct d; cbn; try (intros [= _ <-]; done).
Qed.

Lemma initial_credential s k uname pw by_ (Hno : ∀ c, c ∈ rows (credentials s) → row_deleted_at c = None →
    credential_of uname c = false) :
  let s' := (handleCreateInitialCredential (T := T) (S := S) bcrypt_hash uuid k uname pw by_ s).2 in
  blockedUsers s' = blockedUsers s ∧
  ∃ c, repo_findOne (credential_of uname) (credentials s') = Some c ∧
    cols c = Credential k uname (bcrypt_hash (drawn s) pw) true true.
Proof.
  intros s'. split; [done|].
  set (c := set_creator (Some (UserSession by_)) (make_row (uuid (Datatypes.S (drawn s)))
              (Credential k uname (bcrypt_hash (drawn s) pw) true true))).
  assert (credentials s' = db_insert c (credentials s)) as Hs' by done.
  exists c. split; [|done]. rewrite Hs'. destruct (repo_findOne _ _) as [c'|] eqn:E.
  - apply repo_findOne_Some in E as (Hin & Hc' & Hd). rewrite insert_rows in Hin. apply elem_of_cons in Hin as [->|Hin]; [done|].
    by rewrite (Hno c' Hin Hd) in Hc'.
  - exfalso. apply (repo_findOne_None _ _ E c); [rewrite insert_rows; by left| |done].
    unfold credential_of. cbn. by rewrite String.eqb_refl.
Qed.

(** C10: A created user whose credential request reached auth-bc can log in with the
    temporary password exactly when active and not expired, and must then
    change it; when the request was lost, no password lets the user in. *)
Theorem onboarding d user k data st u pw st'
    (Hids : NoDup (id <$> rows (users st))) (Hk : k ∉ id <$> rows (users st))
    (Hno : ∀ c, c ∈ rows (credentials (auth st)) → row_deleted_at c = None → credential_of (username (cols u)) c = false)
    (Hcreate : create_user d user (k, data) st = (Ok (u, pw), st')) :
  u ∈ rows (users st') ∧ id u = k ∧ ∀ now today ip ua,
    match d with
    | NotDelivered => ∀ pw', ∃ e s',
        login (users st') now today (username (cols u)) pw' ip ua (auth st') = (Throw e, s')
    | _ => repo_findOne (blocks now k) (blockedUsers (auth st)) = None → services_up k →
        (∃ res s', login (users st') now today (username (cols u)) pw ip ua (auth st') = (Ok res, s') ∧
           lr_must_change_password res = true ∧ may_log_in today u) ∨
        (∃ e s', login (users st') now today (username (cols u)) pw ip ua (auth st') = (Throw e, s') ∧ ¬ may_log_in today u)
    end.
Proof.
  pose proof (created_user _ _ _ _ _ _ _ Hcreate) as (Hu & Hus & Hau). cbn [fst snd] in Hu.
  assert (u ∈ rows (users st')) as Hin by (rewrite Hus, insert_rows; by left).
  assert (id u = k) as Hid by (rewrite Hu; by destruct user).
  assert (NoDup (id <$> rows (users st'))) as Hids'.
  { rewrite Hus, insert_rows. cbn. rewrite Hid. by constructor. }
  assert (is_deleted u = false ∧ row_deleted_at u = None) as [Hdel Hd] by (rewrite Hu; by destruct user).
  split; [done|]. split; [done|]. intros now today ip ua.
  assert (d ≠ NotDelivered → repo_findOne (blocks now k) (blockedUsers (auth st)) = None → services_up k →
    (∃ res s', login (users st') now today (username (cols u)) pw ip ua (auth st') = (Ok res, s') ∧
       lr_must_change_password res = true ∧ may_log_in today u) ∨
    (∃ e s', login (users st') now today (username (cols u)) pw ip ua (auth st') = (Throw e, s') ∧ ¬ may_log_in today u)) as Hlogin.
  { intros Hne Hb Hup. destruct (initial_credential (auth st) (id u) (username (cols u)) pw (acting user) Hno) as (Hbl & c & Hc & Hcols).
    assert (auth st' = (handleCreateInitialCredential (T := T) (S := S) bcrypt_hash uuid (id u) (username (cols u)) pw
                       (acting user) (auth st)).2) as Ha by by destruct d.
    rewrite <- Ha in Hbl, Hc. rewrite <- Hid in Hb, Hup.
    eapply login_with; [done..| |exact Hup]. by rewrite Hbl. }
  destruct d; [by apply Hlogin| |by apply Hlogin].
  intros pw'. clear Hlogin. pose proof (login_opens bcrypt_compare sha256_hex uuid random_hex jwt_sign (iam_user rethrow Delivered (users st'))
    ResolvePermissions access_expires_in refresh_expires_in now today (username (cols u)) pw' ip ua (auth st')) as Ho.
  destruct (AuthService.login _ _ _ _ _ _ _ _ _ _ _ _ _ _ _ _) as [[res|e] s']; [|by exists e, s'].
  exfalso. destruct Ho as (c & _ & _ & _ & [Hc _ _ _ _ _ _] & _). rewrite Hau in Hc.
  apply repo_findOne_Some in Hc as (Hc & Hcu & Hcd). by rewrite (Hno c Hc Hcd) in Hcu.
Qed.

(** *** Resets *)

(** The state of auth-bc when the credential of a user can be reset. *)
Record resettable (k uname : string) s (row : base_row credential) : Prop := {
  rs_one : one_credential k s;
  rs_row : repo_findOne (λ c, String.eqb (c_user_id (cols c)) k) (credentials s) = Some row;
  rs_live : is_deleted row = false;
  rs_name : ∀ c, c ∈ rows (credentials s) → row_deleted_at c = None → credential_of uname c = true → c_user_id (cols c) = k;
}.

Lemma reset_auth s k uname pw by_ row (Hrow : resettable k uname s row) :
  let '(r, s') := handleResetPassword (T := T) (S := S) (V := V) bcrypt_hash uuid k uname pw by_ s in
  r = Ok true ∧ blockedUsers s' = blockedUsers s ∧ ∃ c, repo_findOne (credential_of uname) (credentials s') = Some c ∧
    cols c = Credential k uname (bcrypt_hash (drawn s) pw) true true.
Proof.
  destruct Hrow as [Hone E Hlive Hname]. pose proof E as (Hr & Hu%String.eqb_eq & Hd)%repo_findOne_Some.
  set (x := Credential (c_user_id (cols row)) uname (bcrypt_hash (drawn s) pw) true true).
  set (c := set_updater (Some (UserSession by_)) (with_cols (λ _, x) row)).
  assert (∃ s', handleResetPassword (T := T) (S := S) (V := V) bcrypt_hash uuid k uname pw by_ s = (Ok true, s') ∧
    blockedUsers s' = blockedUsers s ∧ credentials s' = repo_save c (credentials s)) as (s' & -> & Hb & Hs').
  { unfold handleResetPassword, resetPassword, eff_bind, eff_ret, then_, hashed, found_credential, read. cbn [credentials].
    rewrite E. eexists. split; [reflexivity|done]. }
  split; [done|]. split; [done|]. exists c. split; [|unfold c, x; cbn; by rewrite Hu]. rewrite Hs'.
  assert (c ∈ rows (repo_save c (credentials s))) as Hin.
  { apply elem_of_repo_save. right. split; [done|]. apply list_elem_of_fmap. by exists row. }
  destruct (repo_findOne (credential_of uname) (repo_save c (credentials s))) as [c'|] eqn:Ec.
  - apply repo_findOne_Some in Ec as (Hc' & Hcr & Hcd). apply elem_of_repo_save in Hc' as [[Hc' Hne]|[-> _]]; [|done].
    destruct Hne. rewrite (Hone c' row); [done|done..|by apply Hname|done].
  - exfalso. apply (repo_findOne_None _ _ Ec c Hin); [|done]. unfold credential_of. cbn. by rewrite String.eqb_refl, Hlive.
Qed.

(** A reset that is answered gives the user a password to log in with, to be
    changed at once; one that is not answered shows an error, although when only
    the answer was lost the old password is gone. *)
Theorem reset_gives_password d user k st u row
    (Hids : NoDup (id <$> rows (users st))) (Hu : BaseService.findById "users" k (users st) = Ok u)
    (Hrow : resettable k (username (cols u)) (auth st) row) :
  let pw := TempPassword.generateTempPassword randomInt PASSWORD_LENGTH in
  let '(r, st') := reset_user_password d user k st in
  users st' = users st ∧ (d = NotDelivered → auth st' = auth st) ∧
  match d with Delivered => r = Ok pw | _ => r = Throw (InternalServerErrorException "Failed to reset password — please try again.") end ∧
  (d ≠ NotDelivered → ∀ now today ip ua,
     (repo_findOne (blocks now k) (blockedUsers (auth st)) = None → services_up k →
        (∃ res s', login (users st') now today (username (cols u)) pw ip ua (auth st') = (Ok res, s') ∧
           lr_must_change_password res = true ∧ may_log_in today u) ∨
        (∃ e s', login (users st') now today (username (cols u)) pw ip ua (auth st') = (Throw e, s') ∧ ¬ may_log_in today u)) ∧
     ∀ old, bcrypt_compare old (bcrypt_hash (drawn (auth st)) pw) = false →
       ∃ e s', login (users st') now today (username (cols u)) old ip ua (auth st') = (Throw e, s')).
Proof.
  pose proof Hu as (Hin & Hid & Hdel & Hd)%findById_Ok. subst k.
  unfold UserAdmin.reset_user_password. generalize (TempPassword.generateTempPassword randomInt PASSWORD_LENGTH). intros pw. cbv zeta.
  unfold eff_bind at 1, on_users. rewrite Hu. cbn [res_bind]. unfold eff_bind, on_auth, rpc. cbn [auth users].
  pose proof (reset_auth (auth st) (id u) (username (cols u)) pw (acting user) row Hrow) as Ha.
  destruct (handleResetPassword _ _ _ _ _ _ _) as [r a]. destruct Ha as (-> & Hb & c & Hc & Hcols).
  assert (∀ now today ip ua,
    (repo_findOne (blocks now (id u)) (blockedUsers (auth st)) = None → services_up (id u) →
        (∃ res s', login (users st) now today (username (cols u)) pw ip ua a = (Ok res, s') ∧
           lr_must_change_password res = true ∧ may_log_in today u) ∨
        (∃ e s', login (users st) now today (username (cols u)) pw ip ua a = (Throw e, s') ∧ ¬ may_log_in today u)) ∧
     ∀ old, bcrypt_compare old (bcrypt_hash (drawn (auth st)) pw) = false →
       ∃ e s', login (users st) now today (username (cols u)) old ip ua a = (Throw e, s')) as Hlogin.
  { intros now today ip ua. split.
    - intros Hblk Hup. rewrite <- Hb in Hblk. by eapply login_with.
    - intros old Hold.
      pose proof (login_opens bcrypt_compare sha256_hex uuid random_hex jwt_sign (iam_user rethrow Delivered (users st))
        ResolvePermissions access_expires_in refresh_expires_in now today (username (cols u)) old ip ua a) as Ho.
      destruct (AuthService.login _ _ _ _ _ _ _ _ _ _ _ _ _ _ _ _) as [[res|e] s']; [|by exists e, s'].
      exfalso. destruct Ho as (c' & _ & _ & _ & [Hc' _ _ Hpw _ _ _] & _). rewrite Hc in Hc'. injection Hc' as <-.
      rewrite Hcols in Hpw. cbn in Hpw. congruence. }
  destruct d; cbn [default users auth]; split_and!; try done; intros _; exact Hlogin.
Qed.
End laws.

(** ** Samples and witnesses *)
Module Sample.
Definition no_violation (_ : list (base_row user_cols)) : option driver_error := None.
Definition no_rethrow (_ : exn) : option exn := None.
Definition rand (k n : nat) : nat := (k * 7 + 3) mod n.
Lemma rand_bound k n : (0 < n)%nat → (rand k n < n)%nat.
Proof. intros Hn. apply Nat.mod_upper_bound. lia. Qed.
Lemma compare_hash n pw : AuthService.Sample.compare pw (AuthService.Sample.hash n pw) = true.
Proof. apply String.eqb_eq. reflexivity. Qed.

Definition start : directory (T := list) (S := mem ISessionData) := Directory [] (AuthState [] [] [] [] [] empty_store 0).
Definition bob (status : string) : string * user_dto :=
  ("bob-id", UserDTO (Some "bob") (Some "E2") (Some "Bob") None None (Some status) None).
Definition admin : option current_user := Some (UserId "admin-id").
Definition create (d : delivery) (status : string) : result (base_row user_cols * string) * directory :=
  create_user (T := list) (S := mem ISessionData) AuthService.Sample.hash AuthService.Sample.uuid no_violation no_rethrow rand
    d admin (bob status) start.
Definition after (d : delivery) (status : string) : directory := (create d status).2.
Definition bob_login (st : directory) (pw : string) :=
  AuthService.login (T := list) (S := mem ISessionData) (V := ISessionData) AuthService.Sample.compare
    AuthService.Sample.digest AuthService.Sample.uuid AuthService.Sample.random_hex AuthService.Sample.sign
    (iam_user no_rethrow Delivered (users st)) AuthService.Sample.resolve None None 0 "2024-06-01" "bob" pw None None (auth st).

Example first_login : match (bob_login (after Delivered "active") "3h$qCK6SDkx!").1 with
  | Ok res => lr_must_change_password res = true | Throw _ => False end.
Proof. by vm_compute. Qed.
Example pending_refused : res_ok (bob_login (after Delivered "pending") "3h$qCK6SDkx!").1 = false.
Proof. by vm_compute. Qed.
End Sample.

Lemma temp_password_ok_witness :
  let p := TempPassword.chars_of (TempPassword.generateTempPassword Sample.rand 12) in
  length p = 12%nat ∧ ∀ c, c ∈ p → c ∉ TempPassword.chars_of "0O1lI".
Proof.
  destruct (TempPassword.temp_password_ok Sample.rand Sample.rand_bound 12) as (Hl & _ & Hc).
  split; [exact Hl|]. intros c Hin. by apply Hc.
Defined.

Lemma onboarding_witness :
  ∃ u pw st', Sample.create Delivered "active" = (Ok (u, pw), st') ∧
    ((∃ res s', Sample.bob_login st' pw = (Ok res, s') ∧ lr_must_change_password res = true ∧ may_log_in "2024-06-01" u) ∨
     (∃ e s', Sample.bob_login st' pw = (Throw e, s') ∧ ¬ may_log_in "2024-06-01" u)).
Proof.
  destruct (Sample.create Delivered "active") as [[[u pw]|e] st'] eqn:E; [|vm_compute in E; discriminate E].
  exists u, pw, st'. split; [reflexivity|].
  destruct (onboarding (T := list) (S := mem ISessionData) (V := ISessionData) AuthService.Sample.hash AuthService.Sample.compare
    AuthService.Sample.digest AuthService.Sample.uuid AuthService.Sample.random_hex AuthService.Sample.sign AuthService.Sample.resolve
    None None Sample.no_violation Sample.no_rethrow Sample.rand Sample.compare_hash Delivered Sample.admin "bob-id"
    (Sample.bob "active").2 Sample.start u pw st') as (_ & _ & Hl).
  - constructor.
  - intros Hin. by apply elem_of_nil in Hin.
  - intros c Hc. exfalso. change (c ∈ []) in Hc. revert Hc. apply not_elem_of_nil.
  - exact E.
  - assert (username (cols u) = "bob") as Hn by (vm_compute in E; by injection E as <- _ _).
    specialize (Hl 0%Z "2024-06-01" None None). rewrite Hn in Hl. apply Hl; [reflexivity|].
    split; [eexists; reflexivity|reflexivity].
Defined.

Lemma reset_gives_password_witness :
  ∃ pw st', reset_user_password (T := list) (S := mem ISessionData) (V := ISessionData) AuthService.Sample.hash AuthService.Sample.uuid
      Sample.no_rethrow Sample.rand Delivered Sample.admin "bob-id" (Sample.after Delivered "active") = (Ok pw, st') ∧
    users st' = users (Sample.after Delivered "active").
Proof.
  destruct (users (Sample.after Delivered "active")) as [|u l] eqn:Eu; [vm_compute in Eu; discriminate Eu|].
  destruct (credentials (auth (Sample.after Delivered "active"))) as [|row m] eqn:Er; [vm_compute in Er; discriminate Er|].
  pose proof (reset_gives_password (T := list) (S := mem ISessionData) (V := ISessionData) AuthService.Sample.hash AuthService.Sample.compare
    AuthService.Sample.digest AuthService.Sample.uuid AuthService.Sample.random_hex AuthService.Sample.sign AuthService.Sample.resolve
    None None Sample.no_rethrow Sample.rand Sample.compare_hash Delivered Sample.admin "bob-id" (Sample.after Delivered "active") u row) as Hr.
  cbv zeta in Hr. rewrite Eu in Hr.
  destruct (reset_user_password _ _ _ _ _ _ _ _) as [r st'].
  destruct Hr as (Hu & _ & Hok & _).
  - apply (bool_decide_eq_true_1 _). rewrite <- Eu. by vm_compute.
  - rewrite <- Eu. vm_compute in Eu. injection Eu as <- _. by vm_compute.
  - vm_compute in Eu. injection Eu as <- _. pose proof Er as Er'. vm_compute in Er'. injection Er' as Hrow Hm. subst row m. split.
    + intros c c' Hc Hc' _ _ _ _. rewrite Er in Hc, Hc'. apply list_elem_of_singleton in Hc as ->.
      by apply list_elem_of_singleton in Hc' as ->.
    + unfold repo_findOne, repo_find. rewrite Er. by vm_compute.
    + reflexivity.
    + intros c Hc _ _. rewrite Er in Hc. by apply list_elem_of_singleton in Hc as ->.
  - exists (TempPassword.generateTempPassword Sample.rand PASSWORD_LENGTH), st'. by rewrite Hok.
Defined.
