(* ===== verification/PermissionAdmin.v ===== *)
(** * Permissions added by hand

    [PermissionsService] of iam-bc
    (src/apps/iam/src/modules/permissions/services/permissions.service.ts): the
    rows an administrator adds, changes and removes, next to those the
    synchronisation writes (PermissionSync.v).  [to_catalog] reads a row as
    PermissionSync.v has it.  A request has been validated by its DTO
    ([valid_service], [valid_permission]); a field of an update is absent or a
    string. *)

From S2P Require Import Prelude JsString Repo DbErrors BaseService PermissionScan PermissionSync.
#[local] Open Scope string_scope.
#[local] Open Scope list_scope.

(** ** Rows and requests *)

Record permission_cols := PermissionCols {
  p_service : string; p_permission : string; p_resource : string; p_action : string; p_plane : permission_plane;
  p_name_th : string; p_name_en : string; p_is_manual : bool;
}.
Abbreviation permission_row := (base_row permission_cols).

(** [Partial<Permission>] *)
Record permission_patch := Patch {
  pt_service : option string; pt_permission : option string; pt_resource : option string; pt_action : option string;
  pt_plane : option permission_plane; pt_name_th : option string; pt_name_en : option string; pt_is_manual : option bool;
}.
Definition assign_permission (d : permission_patch) (p : permission_cols) : permission_cols :=
  PermissionCols (default (p_service p) (pt_service d)) (default (p_permission p) (pt_permission d))
    (default (p_resource p) (pt_resource d)) (default (p_action p) (pt_action d)) (default (p_plane p) (pt_plane d))
    (default (p_name_th p) (pt_name_th d)) (default (p_name_en p) (pt_name_en d)) (default (p_is_manual p) (pt_is_manual d)).
Definition blank_permission : permission_cols := PermissionCols "" "" "" "" ui "" "" false.

Record CreatePermissionDTO := CreatePermission {
  cp_service : string; cp_permission : string; cp_name_th : string; cp_name_en : string }.
Record UpdatePermissionDTO := UpdatePermission {
  up_service : option string; up_permission : option string; up_name_th : option string; up_name_en : option string }.

(** [/^[a-z][a-z0-9-]*$/] *)
Definition valid_service (s : string) : bool :=
  match s with
  | String c s' => is_lower c && str_forall (λ c, is_lower c || is_digit c || Ascii.eqb c "-") s'
  | "" => false
  end.
(** [/^(page|component):[a-zA-Z0-9_]+$/] *)
Definition valid_permission (s : string) : bool :=
  match match_permission s with
  | Some (prefix, _) => String.eqb prefix "page" || String.eqb prefix "component"
  | None => false
  end.

(** ** The service *)
Section service.
Context {T : Type → Type} `{Database T}.
Context (violates : T permission_row → option driver_error).

(** [const [resource, action] = permission.split(':')] *)
Definition manual_parts (permission : string) : option string * option string :=
  let parts := split ":" permission in (parts !! 0%nat, parts !! 1%nat).

Definition createManual (user : option current_user) (fresh : string) (dto : CreatePermissionDTO) (t : T permission_row) :
    result (permission_row * T permission_row) :=
  let '(resource, action) := manual_parts (cp_permission dto) in
  BaseService.create "permissions" blank_permission assign_permission violates user
    (fresh, Patch (Some (cp_service dto)) (Some (cp_permission dto)) resource action (Some ui)
              (Some (cp_name_th dto)) (Some (cp_name_en dto)) (Some true)) t.

Definition SYNCED_UPDATE : exn := ForbiddenException
  "This permission is synced from code — edit the @RequirePermission()/data-permission source and run permissions:sync instead of changing service/permission here.".
Definition changesIdentity (dto : UpdatePermissionDTO) : bool :=
  match up_service dto, up_permission dto with None, None => false | _, _ => true end.
Definition update_patch (dto : UpdatePermissionDTO) : permission_patch :=
  let '(resource, action) := match up_permission dto with Some p => manual_parts p | None => (None, None) end in
  Patch (up_service dto) (up_permission dto) resource action None (up_name_th dto) (up_name_en dto) None.
Definition updateManual (user : option current_user) (k : string) (dto : UpdatePermissionDTO) (t : T permission_row) :
    result (permission_row * T permission_row) :=
  let! existing := BaseService.findById "permissions" k t in
  if changesIdentity dto && negb (p_is_manual (cols existing)) then Throw SYNCED_UPDATE
  else updateColumns "permissions" assign_permission violates user k (update_patch dto) t.

Definition SYNCED_DELETE : exn := BadRequestException
  "This permission is synced from code and cannot be deleted here — remove the @RequirePermission()/data-permission usage from source and run permissions:sync.".
Definition removeManual (now : Z) (user : option current_user) (k : string) (t : T permission_row) : result (T permission_row) :=
  let! existing := BaseService.findById "permissions" k t in
  if negb (p_is_manual (cols existing)) then Throw SYNCED_DELETE
  else BaseService.delete "permissions" violates now k true user t.
End service.

(** ** What administration keeps *)
Section laws.
Context {T : Type → Type} `{DatabaseLaws T}.
Context (violates : T permission_row → option driver_error).
Implicit Types (t : T permission_row) (r : permission_row).

(** The row as the synchronisation sees it. *)
Definition to_catalog r : catalog_row :=
  let p := cols r in
  CatalogRow (id r) (p_service p) (p_permission p)
    (PermissionSync.Entry (p_resource p) (p_action p) (p_plane p) (p_name_th p) (p_name_en p) (p_is_manual p)
       (is_deleted r) (row_deleted_at r) (deleted_reason r)).

(** The part of a row that comes from the code. *)
Definition identity r : string * (string * string) * (string * string) * permission_plane * bool * option Z :=
  let p := cols r in (id r, (p_service p, p_permission p), (p_resource p, p_action p), p_plane p, is_deleted r, row_deleted_at r).
Definition synced t : list (string * (string * string) * (string * string) * permission_plane * bool * option Z) :=
  identity <$> List.filter (λ r, negb (p_is_manual (cols r))) (rows t).

Inductive admin_step t : T permission_row → Prop :=
  | step_create user fresh dto r t' : createManual violates user fresh dto t = Ok (r, t') → admin_step t t'
  | step_update user k dto r t' : updateManual violates user k dto t = Ok (r, t') → admin_step t t'
  | step_remove now user k t' : removeManual violates now user k t = Ok t' → admin_step t t'.

Definition trace r : list (string * (string * string) * (string * string) * permission_plane * bool * option Z) :=
  if p_is_manual (cols r) then [] else [identity r].

Lemma synced_flat t : synced t = flat_map trace (rows t).
Proof.
  unfold synced, trace. induction (rows t) as [|r l IH]; [done|]. cbn. destruct (p_is_manual (cols r)); cbn; by rewrite <- IH.
Qed.
(** Rewriting rows in a way that keeps the synced part. *)
Lemma synced_map (p : permission_row → bool) (f : permission_row → permission_row) t :
  (∀ r, r ∈ rows t → p r = true → trace (f r) = trace r) → synced (db_update p f t).1 ≡ₚ synced t.
Proof.
  intros Hf. rewrite !synced_flat, update_rows, flat_map_map.
  enough (flat_map (λ r, trace (if p r then f r else r)) (rows t) = flat_map trace (rows t)) as -> by done.
  induction (rows t) as [|r l IH]; [done|]. cbn. rewrite IH by (intros; apply Hf; [by right|done]). f_equal.
  destruct (p r) eqn:Hp; [|done]. apply Hf; [by left|done].
Qed.
Lemma trace_manual r : p_is_manual (cols r) = true → trace r = [].
Proof. unfold trace. by intros ->. Qed.

Lemma trace_patched dto r : changesIdentity dto && negb (p_is_manual (cols r)) = false →
  trace (with_cols (assign_permission (update_patch dto)) r) = trace r.
Proof.
  destruct dto as [[sv|] [pm|] th en]; unfold changesIdentity, update_patch, trace, identity; cbn; try done;
    rewrite ?andb_true_l; intros Hm; destruct (p_is_manual (cols r)) eqn:E; try done; try (destruct (manual_parts pm); cbn; by rewrite E);
    cbn; by rewrite ?E.
Qed.

(** The routes for manual permissions change nothing of a synced row but its
    names and the record of who changed it, and remove none. *)
Theorem synced_rows_kept t t' (Hids : NoDup (id <$> rows t)) (Hstep : admin_step t t') : synced t' ≡ₚ synced t.
Proof.
  destruct Hstep as [user fresh dto r t' Hc|user k dto r t' Hu|now user k t' Hr].
  - unfold createManual in Hc. destruct (manual_parts _) as [res act]. apply create_wrote in Hc as (-> & -> & _).
    rewrite !synced_flat, insert_rows. cbn. rewrite trace_manual; [done|]. by destruct user.
  - unfold updateManual in Hu. res_inv Hu. apply findById_Ok in Ha as (Hr & Hid & _).
    destruct (changesIdentity dto && _) eqn:Hch; [done|]. apply update_wrote in Hu as (e & He & -> & -> & _).
    apply repo_findOne_Some in He as (He & Hk%has_pk_true & _).
    assert (e = a) as -> by (apply (same_row t); [done..|]; cbn in *; congruence).
    apply synced_map. intros q Hq Hqk%has_pk_true.
    assert (q = a) as -> by (apply (same_row t); [done..|]; cbn in *; destruct user; cbn in *; congruence).
    assert (∀ q, trace (set_updater user q) = trace q) as -> by by destruct user.
    by apply trace_patched.
  - unfold removeManual in Hr. res_inv Hr. apply findById_Ok in Ha as (Hr0 & Hid & _).
    destruct (p_is_manual (cols a)) eqn:Hm; [|done]. cbn [negb] in Hr. apply delete_wrote in Hr as (_ & Hrows & _).
    rewrite !synced_flat, Hrows. unfold deleted_rows. rewrite flat_map_map.
    enough (flat_map (λ r, trace (if has_pk k r then stamp_deleted now user None r else r)) (rows t) = flat_map trace (rows t)) as -> by done.
    assert (∀ r, r ∈ rows t → has_pk k r = true → r = a) as Hone.
    { intros r Hr Hk%has_pk_true. apply (same_row t); [done..|]. cbn in *. congruence. }
    clear -Hone Hm. induction (rows t) as [|r l IH]; [done|]. cbn [flat_map]. rewrite IH by (intros; apply Hone; [by right|done]). f_equal.
    destruct (has_pk k r) eqn:Hk; [|done]. rewrite (Hone r); [by rewrite !trace_manual|by left|done].
Qed.

Lemma word_no_colon s : str_forall is_word s = true → str_forall (λ d, negb (Ascii.eqb d ":")) s = true.
Proof.
  induction s as [|c s IH]; [done|]. cbn [str_forall]. rewrite !andb_true_iff. intros [Hc Hs]. split; [|by apply IH].
  apply negb_true_iff, Ascii.eqb_neq. by intros ->.
Qed.

(** A valid permission is split into the prefix and the action the
    synchronisation finds in it; the resource is the prefix, where the
    synchronisation has [page_<slug>] for a page. *)
Theorem manual_resource user fresh dto t r t' (Hvalid : valid_permission (cp_permission dto) = true)
    (Hc : createManual violates user fresh dto t = Ok (r, t')) :
  ∃ prefix action, (prefix = "page" ∨ prefix = "component") ∧ cp_permission dto = prefix +:+ ":" +:+ action ∧
    p_resource (cols r) = prefix ∧ p_action (cols r) = action ∧ p_plane (cols r) = ui ∧ p_is_manual (cols r) = true ∧
    derivePermissionParts (cp_permission dto) =
      Some (if String.eqb prefix "page" then "page_" +:+ page_slug action else prefix, action).
Proof.
  unfold valid_permission in Hvalid. destruct (match_permission (cp_permission dto)) as [[prefix action]|] eqn:Hm; [|done].
  exists prefix, action. split; [apply orb_true_iff in Hvalid; by rewrite !String.eqb_eq in Hvalid|].
  pose proof Hm as (Hp & _ & _ & Hwp & Hwa)%match_permission_Some.
  unfold createManual, manual_parts in Hc. rewrite Hp in Hc.
  change (prefix +:+ ":" +:+ action) with (prefix +:+ String ":" action) in Hc.
  rewrite split_char_app in Hc by by apply word_no_colon. rewrite split_char_none in Hc by by apply word_no_colon.
  cbn in Hc. apply create_wrote in Hc as (-> & _ & _).
  assert (∀ q : permission_row, cols (set_creator user q) = cols q) as -> by by destruct user.
  split_and!; [done|done|done|done|done|]. unfold derivePermissionParts. rewrite Hm. by destruct (String.eqb prefix "page").
Qed.
End laws.

(** ** Sample and witnesses *)
Module Sample.
Definition no_violation (_ : list permission_row) : option driver_error := None.
Definition synced_row : permission_row :=
  make_row "1" (PermissionCols "iam" "role:create" "role" "create" api "x" "Create roles" false).
Definition table : list permission_row := [synced_row].
Definition reports : CreatePermissionDTO := CreatePermission "iam" "page:view_reports" "x" "View reports".
Example renamed : match updateManual (T := list) no_violation None "1" (UpdatePermission None None None (Some "New roles")) table with
  | Ok (r, _) => p_name_en (cols r) = "New roles" | Throw _ => False end.
Proof. by vm_compute. Qed.
Example moved_refused :
  updateManual (T := list) no_violation None "1" (UpdatePermission (Some "auth") None None None) table = Throw SYNCED_UPDATE.
Proof. by vm_compute. Qed.
End Sample.

Lemma synced_rows_kept_witness :
  ∃ r t', createManual (T := list) Sample.no_violation None "2" Sample.reports Sample.table = Ok (r, t') ∧
    synced (T := list) t' ≡ₚ synced (T := list) Sample.table.
Proof.
  destruct (createManual (T := list) Sample.no_violation None "2" Sample.reports Sample.table) as [[r t']|e] eqn:E;
    [|vm_compute in E; discriminate E].
  exists r, t'. split; [reflexivity|]. apply (synced_rows_kept (T := list) Sample.no_violation).
  - apply (bool_decide_eq_true_1 _). by vm_compute.
  - by apply (step_create _ _ None "2" Sample.reports r).
Defined.
Lemma manual_resource_witness :
  ∃ r t', createManual (T := list) Sample.no_violation None "2" Sample.reports Sample.table = Ok (r, t') ∧
    p_resource (cols r) = "page" ∧ derivePermissionParts "page:view_reports" = Some ("page_reports", "view_reports").
Proof.
  destruct (createManual (T := list) Sample.no_violation None "2" Sample.reports Sample.table) as [[r t']|e] eqn:E;
    [|vm_compute in E; discriminate E].
  exists r, t'. split; [reflexivity|].
  destruct (manual_resource (T := list) Sample.no_violation None "2" Sample.reports Sample.table r t' eq_refl E)
    as (prefix & action & _ & Hp & Hr & _ & _ & _ & Hd).
  split; [|reflexivity]. vm_compute in E. by injection E as <- _.
Defined.
