(* ===== verification/CookieAuth.v ===== *)
(** * Cookies

    The browser's side of authentication: AuthController
    (src/apps/auth/src/modules/auth/controllers/auth.controller.ts) and
    auth-cookie.util.ts, composed with the guards that read the cookies back
    (Guards.v) and the service behind the handlers (AuthService.v).

    The browser's cookie jar is the class [CookieJar]; its laws are those of
    cookies that are always set with the same domain and path ([respects]).
    Times are in seconds for the jar, in milliseconds for the service. *)

From S2P Require Import Prelude JsString JsValues SessionStore Guards Repo BaseService AuthService AuthFlow.
#[local] Open Scope string_scope.
#[local] Open Scope Z_scope.
#[local] Open Scope list_scope.

(** ** Cookies of a reply *)

Record cookie_options := CookieOptions {
  httpOnly : bool; secure : bool; sameSite : string; domain : option string; path : string; maxAge : option Z;
}.
Inductive reply_cookie :=
  | SetCookie (name value : string) (options : cookie_options)
  | ClearCookie (name : string) (options : cookie_options).
Definition cookie_name (c : reply_cookie) : string := match c with SetCookie n _ _ | ClearCookie n _ => n end.
Definition options_of (c : reply_cookie) : cookie_options := match c with SetCookie _ _ o | ClearCookie _ o => o end.

(** ** The browser *)

(** Where a cookie belongs: its [Domain] and its [Path]. *)
Definition cookie_scope (o : cookie_options) : option string * string := (domain o, path o).

(** One connection, encrypted or not, to a host of the cookies' domain.
    [receive https t c j]: the jar after a reply at time [t]; [sent https t p j n]:
    the value of the cookie [n] in a same-site request at time [t] to the path
    [p]; [readable]: the value a script of the page at [p] reads. *)
Class CookieJar (J : Type) := {
  receive : bool → Z → reply_cookie → J → J;
  sent : bool → Z → string → J → string → option string;
  readable : bool → Z → string → J → string → option string;
  path_matches : string → string → bool;
  max_lifetime : Z;
}.
Class CookieJarLaws (J : Type) `{CookieJar J} := {
  (** Every cookie of the jar has the scope the application uses for its name. *)
  respects : (string → option string * string) → J → Prop;
  receive_respects home https now c j : respects home j → cookie_scope (options_of c) = home (cookie_name c) →
    respects home (receive https now c j);
  sent_set home https now n v o j t p : respects home j → cookie_scope o = home n → now ≤ t → implb (secure o) https = true →
    sent https t p (receive https now (SetCookie n v o) j) n =
      if path_matches (path o) p && match maxAge o with Some a => t <? now + Z.min a max_lifetime | None => true end
      then Some v else None;
  sent_clear home https now n o j t p : respects home j → cookie_scope o = home n → now ≤ t → implb (secure o) https = true →
    sent https t p (receive https now (ClearCookie n o) j) n = None;
  sent_other https now c j t p n : cookie_name c ≠ n →
    sent https t p (receive https now c j) n = sent https t p j n;
  readable_set home https now n v o j t p : respects home j → cookie_scope o = home n → now ≤ t →
    implb (secure o) https = true →
    readable https t p (receive https now (SetCookie n v o) j) n =
      if httpOnly o then None else sent https t p (receive https now (SetCookie n v o) j) n;
  readable_other https now c j t p n : cookie_name c ≠ n →
    readable https t p (receive https now c j) n = readable https t p j n;
  root_matches p : path_matches "/" p = true;
}.
Definition receive_all {J} `{CookieJar J} (https : bool) (now : Z) (cs : list reply_cookie) (j : J) : J :=
  foldl (λ j c, receive https now c j) j cs.

(** ** auth-cookie.util.ts *)

Definition ACCESS_TOKEN_COOKIE : string := "access_token".
Definition REFRESH_TOKEN_COOKIE : string := "refresh_token".
Definition CSRF_TOKEN_COOKIE : string := "csrf_token".

Record IAuthCookiesToSet := AuthCookies {
  ac_access_token : string; ac_refresh_token : string; ac_csrf_token : string;
  accessTtlSeconds : Z; refreshTtlSeconds : Z; ac_refreshCookiePath : string;
}.

Section cookies.
Context (COOKIE_SECURE : option bool) (COOKIE_DOMAIN : option string).

(** [{ ...base, httpOnly, path, maxAge }] *)
Definition with_base (httpOnly : bool) (path : string) (maxAge : option Z) : cookie_options :=
  CookieOptions httpOnly (default true COOKIE_SECURE) "lax" (truthy COOKIE_DOMAIN) path maxAge.

Definition setAuthCookies (c : IAuthCookiesToSet) : list reply_cookie :=
  [SetCookie ACCESS_TOKEN_COOKIE (ac_access_token c) (with_base true "/" (Some (accessTtlSeconds c)));
   SetCookie REFRESH_TOKEN_COOKIE (ac_refresh_token c) (with_base true (ac_refreshCookiePath c) (Some (refreshTtlSeconds c)));
   SetCookie CSRF_TOKEN_COOKIE (ac_csrf_token c) (with_base false "/" (Some (accessTtlSeconds c)))].
Definition clearAuthCookies (refreshCookiePath : string) : list reply_cookie :=
  [ClearCookie ACCESS_TOKEN_COOKIE (with_base true "/" None);
   ClearCookie REFRESH_TOKEN_COOKIE (with_base true refreshCookiePath None);
   ClearCookie CSRF_TOKEN_COOKIE (with_base false "/" None)].
End cookies.

(** ** The controller *)
Section controller.
Context {T : Type → Type} `{Database T} {S V : Type} `{Redis S V} `{!Json ISessionData V}.
Context (bcrypt_hash : nat → string → string) (bcrypt_compare : string → string → bool)
        (sha256_hex : string → string) (uuid random_hex : nat → string) (jwt_sign : jwt_payload → Z → string).
Context (FindById : string → result (option IIamUser))
        (ResolvePermissions : string → result (option IResolvedPermissions)).
Context (access_expires_in refresh_expires_in : option string).
Context (COOKIE_SECURE : option bool) (COOKIE_DOMAIN AUTH_PREFIX_NAME AUTH_PREFIX_VERSION : option string).
Abbreviation handler A := (svc (T := T) (S := S) (A * list reply_cookie)).
Notation "'let*' x ':=' m 'in' k" := (then_ m (λ x, k)) (at level 10, x pattern, m at level 100, k at level 200).

Definition refreshCookiePath : string :=
  "/" +:+ default "undefined" AUTH_PREFIX_NAME +:+ "/" +:+ default "undefined" AUTH_PREFIX_VERSION.
Definition setCookies (result : ILoginResult) : Prelude.result (list reply_cookie) :=
  let! refreshTtl := parseDurationToSeconds (default "7d" refresh_expires_in) in
  Ok (setAuthCookies COOKIE_SECURE COOKIE_DOMAIN
        (AuthCookies (access_token result) (refresh_token_raw result) (csrf_token result) (expires_in result) refreshTtl
           refreshCookiePath)).

Definition login_handler (now : Z) (today username password : string) (request : http_request) : handler ILoginResult :=
  let* result := login (T := T) (V := V) bcrypt_compare sha256_hex uuid random_hex jwt_sign FindById ResolvePermissions
    access_expires_in refresh_expires_in now today username password (rq_ip request) (header_string request "user-agent") in
  let* cookies := run (setCookies result) in
  done_ (result, cookies).

(** [dto.refresh_token ?? request.cookies?.refresh_token] *)
Definition presented_token (dto_token : option string) (request : http_request) : option string :=
  match dto_token with Some t => Some t | None => cookie request REFRESH_TOKEN_COOKIE end.

Definition refresh_handler (now : Z) (today : string) (dto_token : option string) (request : http_request) :
    handler ILoginResult :=
  match truthy (presented_token dto_token request) with
  | None => raise (BadRequestException "Refresh token is required.")
  | Some refreshTokenRaw =>
      let* result := refresh (T := T) (V := V) sha256_hex uuid random_hex jwt_sign FindById ResolvePermissions
        access_expires_in refresh_expires_in now today refreshTokenRaw in
      let* cookies := run (setCookies result) in
      done_ (result, cookies)
  end.

Definition logout_handler (now : Z) (currentUser : IUserSession) (dto_token : option string) (request : http_request) :
    handler unit :=
  let* _ := logout (T := T) (V := V) sha256_hex uuid now (us_jti currentUser) (Some (us_id currentUser))
    (presented_token dto_token request) in
  done_ (tt, clearAuthCookies COOKIE_SECURE COOKIE_DOMAIN refreshCookiePath).

Definition me_handler (currentUser : IUserSession) : IUserSession := currentUser.
Definition changePassword_handler (currentUser : IUserSession) (current new confirm : string) :
    svc (T := T) (S := S) unit :=
  match truthy (Some (us_id currentUser)) with
  | None => raise (UnauthorizedException "Invalid session.")
  | Some k => changePassword (T := T) (V := V) bcrypt_hash bcrypt_compare uuid k current new confirm
  end.
Definition setCredential_handler (currentUser : IUserSession) (userId username password : string) :
    svc (T := T) (S := S) unit :=
  setCredential (T := T) (S := S) bcrypt_hash uuid userId username password (Some (us_id currentUser)).
End controller.

(** ** What the browser holds *)
Section browser.
Context {J : Type} `{CookieJarLaws J}.
Context (COOKIE_SECURE : option bool) (COOKIE_DOMAIN AUTH_PREFIX_NAME AUTH_PREFIX_VERSION : option string).
Context (https : bool).
Hypothesis scheme_suits : implb (default true COOKIE_SECURE) https = true.
Abbreviation refreshCookiePath := (refreshCookiePath AUTH_PREFIX_NAME AUTH_PREFIX_VERSION).
Abbreviation setAuthCookies := (setAuthCookies COOKIE_SECURE COOKIE_DOMAIN).
Abbreviation clearAuthCookies := (clearAuthCookies COOKIE_SECURE COOKIE_DOMAIN).

(** The scopes the application uses. *)
Definition home (n : string) : option string * string :=
  (truthy COOKIE_DOMAIN, if String.eqb n REFRESH_TOKEN_COOKIE then refreshCookiePath else "/").

Lemma respects_after_set now c j : respects home j → ac_refreshCookiePath c = refreshCookiePath →
  respects home (receive_all https now (setAuthCookies c) j).
Proof.
  intros Hj Hp. unfold receive_all, CookieAuth.setAuthCookies. cbn [foldl].
  repeat apply receive_respects; try done. cbn. unfold home. by rewrite Hp.
Qed.
Lemma sent_after_set now t p c j : respects home j → now ≤ t → ac_refreshCookiePath c = refreshCookiePath →
  let live ttl := t <? now + Z.min ttl max_lifetime in
  let j' := receive_all https now (setAuthCookies c) j in
  sent https t p j' ACCESS_TOKEN_COOKIE = (if live (accessTtlSeconds c) then Some (ac_access_token c) else None) ∧
  sent https t p j' REFRESH_TOKEN_COOKIE = (if path_matches refreshCookiePath p && live (refreshTtlSeconds c)
                                            then Some (ac_refresh_token c) else None) ∧
  sent https t p j' CSRF_TOKEN_COOKIE = (if live (accessTtlSeconds c) then Some (ac_csrf_token c) else None).
Proof.
  intros Hj Ht Hp live j'. unfold j', receive_all, CookieAuth.setAuthCookies. cbn [foldl].
  assert (∀ c o, respects home o → cookie_scope (options_of c) = home (cookie_name c) → respects home (receive https now c o)) as Hr
    by (intros; by apply receive_respects).
  repeat split.
  - rewrite !sent_other by done. rewrite (sent_set home) by done. cbn. by rewrite root_matches.
  - rewrite sent_other by done. rewrite (sent_set home); [cbn; by rewrite Hp|by apply Hr| |done..].
    cbn. unfold home. by rewrite Hp.
  - rewrite (sent_set home); [cbn; by rewrite root_matches| |done..]. apply Hr; [by apply Hr|].
    cbn. unfold home. by rewrite Hp.
Qed.

Lemma sent_after_clear now t p j n : respects home j → now ≤ t →
  n ∈ [ACCESS_TOKEN_COOKIE; REFRESH_TOKEN_COOKIE; CSRF_TOKEN_COOKIE] →
  sent https t p (receive_all https now (clearAuthCookies refreshCookiePath) j) n = None.
Proof.
  intros Hj Ht Hn. unfold receive_all, CookieAuth.clearAuthCookies. cbn [foldl].
  assert (∀ c o, respects home o → cookie_scope (options_of c) = home (cookie_name c) → respects home (receive https now c o)) as Hr
    by (intros; by apply receive_respects).
  repeat (apply elem_of_cons in Hn as [->|Hn]); [rewrite !sent_other by done|rewrite sent_other by done| |by apply elem_of_nil in Hn].
  - by rewrite (sent_clear home).
  - rewrite (sent_clear home); [done|by apply Hr|done..].
  - rewrite (sent_clear home); [done|by apply Hr; [apply Hr|]|done..].
Qed.
Lemma readable_after_set now t p c j : respects home j → now ≤ t → ac_refreshCookiePath c = refreshCookiePath →
  let j' := receive_all https now (setAuthCookies c) j in
  readable https t p j' ACCESS_TOKEN_COOKIE = None ∧ readable https t p j' REFRESH_TOKEN_COOKIE = None ∧
  readable https t p j' CSRF_TOKEN_COOKIE = sent https t p j' CSRF_TOKEN_COOKIE.
Proof.
  intros Hj Ht Hp j'. unfold j', receive_all, CookieAuth.setAuthCookies. cbn [foldl].
  assert (∀ c o, respects home o → cookie_scope (options_of c) = home (cookie_name c) → respects home (receive https now c o)) as Hr
    by (intros; by apply receive_respects).
  repeat split.
  - rewrite !readable_other by done. by rewrite (readable_set home).
  - rewrite readable_other by done. rewrite (readable_set home); [done|by apply Hr| |done..].
    cbn. unfold home. by rewrite Hp.
  - rewrite (readable_set home); [done| |done..]. apply Hr; [by apply Hr|]. cbn. unfold home. by rewrite Hp.
Qed.
End browser.

(** ** From login to logout *)
Section flow.
Context {T : Type → Type} `{DatabaseLaws T} {S V : Type} `{RedisLaws S V} `{!Json ISessionData V}.
Context {J : Type} `{CookieJarLaws J}.
Context (bcrypt_compare : string → string → bool) (sha256_hex : string → string) (uuid random_hex : nat → string)
        (jwt_sign : jwt_payload → Z → string) (jwt_verify : string → option token_payload).
Context (FindById : string → result (option IIamUser))
        (ResolvePermissions : string → result (option IResolvedPermissions)).
Context (access_expires_in refresh_expires_in : option string).
Context (COOKIE_SECURE : option bool) (COOKIE_DOMAIN AUTH_PREFIX_NAME AUTH_PREFIX_VERSION : option string).
Context (https : bool).
Hypothesis scheme_suits : implb (default true COOKIE_SECURE) https = true.
Hypothesis jwt_round_trip : ∀ p n, jwt_verify (jwt_sign p n) = Some (TokenPayload (p_sub p) (p_jti p)).
Hypothesis jwt_nonempty : ∀ p n, jwt_sign p n ≠ "".
Hypothesis random_nonempty : ∀ n, random_hex n ≠ "".
Hypothesis access_lives : ∀ n, access_ttl access_expires_in = Ok n → 0 < n.
Implicit Types (s : auth_state T S) (r : http_request).
Abbreviation refreshCookiePath := (refreshCookiePath AUTH_PREFIX_NAME AUTH_PREFIX_VERSION).
Abbreviation home := (home COOKIE_DOMAIN AUTH_PREFIX_NAME AUTH_PREFIX_VERSION).
Abbreviation login_handler := (login_handler (T := T) (V := V) bcrypt_compare sha256_hex uuid random_hex jwt_sign FindById
  ResolvePermissions access_expires_in refresh_expires_in COOKIE_SECURE COOKIE_DOMAIN AUTH_PREFIX_NAME AUTH_PREFIX_VERSION).
Abbreviation login := (login (T := T) (V := V) bcrypt_compare sha256_hex uuid random_hex jwt_sign FindById
  ResolvePermissions access_expires_in refresh_expires_in).
Abbreviation refresh_handler := (refresh_handler (T := T) (V := V) sha256_hex uuid random_hex jwt_sign FindById
  ResolvePermissions access_expires_in refresh_expires_in COOKIE_SECURE COOKIE_DOMAIN AUTH_PREFIX_NAME AUTH_PREFIX_VERSION).
Abbreviation refresh := (refresh (T := T) (V := V) sha256_hex uuid random_hex jwt_sign FindById
  ResolvePermissions access_expires_in refresh_expires_in).
Abbreviation logout_handler := (logout_handler (T := T) (V := V) sha256_hex uuid COOKIE_SECURE COOKIE_DOMAIN
  AUTH_PREFIX_NAME AUTH_PREFIX_VERSION).
Abbreviation auth_guard := (auth_guard (V := V) jwt_verify).

(** A request a browser makes by itself: its cookies are those of the jar, and
    it carries no [Authorization] header. *)
Record browser_request (t : Z) (p : string) (j : J) r : Prop := {
  br_cookies : ∀ n, cookie r n = sent https t p j n;
  br_bearer : header_string r "authorization" = None;
}.

(** The cookies of a login are those of its result. *)
Lemma login_cookies now today username password request s res cs s' :
  login_handler now today username password request s = (Ok (res, cs), s') →
  login now today username password (rq_ip request) (header_string request "user-agent") s = (Ok res, s') ∧
  ∃ ttl, parseDurationToSeconds (default "7d" refresh_expires_in) = Ok ttl ∧
    cs = setAuthCookies COOKIE_SECURE COOKIE_DOMAIN
           (AuthCookies (access_token res) (refresh_token_raw res) (csrf_token res) (expires_in res) ttl refreshCookiePath).
Proof.
  unfold CookieAuth.login_handler, then_ at 1.
  destruct (login _ _ _ _ _ _ s) as [[res0|e] s0] eqn:E; [|discriminate].
  unfold then_, run, setCookies. destruct (parseDurationToSeconds _) as [ttl|e]; [|discriminate].
  cbn. intros [= <- <- <-]. split; [done|]. by exists ttl.
Qed.

Lemma csrf_decides rt r token : is_http rt = true → isAccessKeyRoute rt = false → skipCsrfCheck rt = false →
  ¬ includes ["GET"; "HEAD"; "OPTIONS"] (rq_method r) → token ≠ "" → cookie r CSRF_TOKEN_COOKIE = Some token →
  csrf_guard rt r = if decide (header_string r "x-csrf-token" = Some token) then Ok tt
                    else Throw (ForbiddenException "Missing or invalid CSRF token.").
Proof.
  intros Hh Hk Hs Hm Hne Hc. unfold csrf_guard. rewrite Hh, Hk, Hs. cbn [negb].
  destruct (includes _ _); [by destruct Hm|]. change "csrf_token" with CSRF_TOKEN_COOKIE. rewrite Hc. cbn.
  rewrite (proj2 (String.eqb_neq _ _) Hne). destruct (header_string r "x-csrf-token") as [h|]; [|done].
  unfold tokensMatch. destruct (String.eqb_spec token h) as [<-|Hd].
  - by rewrite Nat.eqb_refl, decide_True.
  - rewrite andb_false_r, decide_False; [done|congruence].
Qed.

Lemma login_tokens now today username password ip ua s res s' :
  login now today username password ip ua s = (Ok res, s') → access_token res ≠ "" ∧ refresh_token_raw res ≠ "" ∧ csrf_token res ≠ "".
Proof.
  intros E. pose proof (login_opens bcrypt_compare sha256_hex uuid random_hex jwt_sign FindById ResolvePermissions
    access_expires_in refresh_expires_in now today username password ip ua s) as Ho.
  rewrite E in Ho. destruct Ho as (c & u & perms & s1 & _ & _ & [_ _ _ _ (i & n & _ & _ & _ & -> & _)
    (k & l & a & _ & -> & _) (m & ->)] & _).
  repeat split; auto.
Qed.

(** The CSRF cookie expires with the access token, a refresh token outlives
    both: from then on a browser still sends the refresh token to the auth
    service's routes, its request is a refresh with that token, and the CSRF
    guard lets it pass whatever headers it has. *)
Theorem refresh_without_csrf now today username password request s res cs s' j t0 t p rt r :
  login_handler now today username password request s = (Ok (res, cs), s') →
  respects home j → t0 ≤ t → expires_in res ≤ t - t0 →
  (∀ ttl, parseDurationToSeconds (default "7d" refresh_expires_in) = Ok ttl → t - t0 < Z.min ttl max_lifetime) →
  path_matches refreshCookiePath p = true →
  browser_request t p (receive_all https t0 cs j) r →
  csrf_guard rt r = Ok tt ∧
  (is_http rt = true → isPublic rt = false → isAccessKeyRoute rt = false →
    auth_guard today rt r (sessions s') = Throw (UnauthorizedException "Missing access token.")) ∧
  (∀ now' today', refresh_handler now' today' None r s' =
    then_ (refresh now' today' (refresh_token_raw res))
      (λ result, then_ (run (setCookies refresh_expires_in COOKIE_SECURE COOKIE_DOMAIN AUTH_PREFIX_NAME
                               AUTH_PREFIX_VERSION result)) (λ cookies, done_ (result, cookies))) s').
Proof.
  intros Hl Hj Ht Hdead Hlive Hp [Hc Hb]. apply login_cookies in Hl as (Hl & ttl & Httl & ->).
  destruct (login_tokens _ _ _ _ _ _ _ _ _ Hl) as (_ & Hraw & _).
  specialize (Hlive ttl Httl).
  destruct (sent_after_set COOKIE_SECURE COOKIE_DOMAIN AUTH_PREFIX_NAME AUTH_PREFIX_VERSION https scheme_suits t0 t p
    (AuthCookies (access_token res) (refresh_token_raw res) (csrf_token res) (expires_in res) ttl refreshCookiePath) j
    Hj Ht eq_refl) as (Ha & Hr & Hx). rewrite <- Hc in Ha, Hr, Hx. cbn in Ha, Hr, Hx.
  assert ((t <? t0 + Z.min (expires_in res) max_lifetime) = false) as Hl1 by (apply Z.ltb_ge; lia).
  assert ((t <? t0 + Z.min ttl max_lifetime) = true) as Hl2 by (apply Z.ltb_lt; lia).
  rewrite Hl1 in Ha, Hx. rewrite Hp, Hl2 in Hr. cbn in Hr. repeat split.
  - unfold csrf_guard. change "csrf_token" with CSRF_TOKEN_COOKIE. rewrite Hx. by repeat case_match.
  - intros Hh Hpub Hk. unfold Guards.auth_guard. rewrite Hh, Hpub, Hk. unfold extractToken. rewrite Hb.
    change "access_token" with ACCESS_TOKEN_COOKIE. by rewrite Ha.
  - intros now' today'. unfold CookieAuth.refresh_handler, presented_token. rewrite Hr.
    destruct (refresh_token_raw res) eqn:E; [done|]. reflexivity.
Qed.

(** Of the cookies of a login, a script reads the CSRF token and no other. *)
Theorem scripts_read_csrf_only now today username password request s res cs s' j t0 t p :
  login_handler now today username password request s = (Ok (res, cs), s') → respects home j → t0 ≤ t →
  let j' := receive_all https t0 cs j in
  readable https t p j' ACCESS_TOKEN_COOKIE = None ∧ readable https t p j' REFRESH_TOKEN_COOKIE = None ∧
  readable https t p j' CSRF_TOKEN_COOKIE =
    if t <? t0 + Z.min (expires_in res) max_lifetime then Some (csrf_token res) else None.
Proof.
  intros Hl Hj Ht. apply login_cookies in Hl as (_ & ttl & _ & ->). cbv zeta.
  set (c := AuthCookies _ _ _ _ _ _).
  pose proof (readable_after_set COOKIE_SECURE COOKIE_DOMAIN AUTH_PREFIX_NAME AUTH_PREFIX_VERSION https scheme_suits
    t0 t p c j Hj Ht eq_refl) as (Ha & Hr & ->).
  pose proof (sent_after_set COOKIE_SECURE COOKIE_DOMAIN AUTH_PREFIX_NAME AUTH_PREFIX_VERSION https scheme_suits
    t0 t p c j Hj Ht eq_refl) as (_ & _ & ->). done.
Qed.

(** C25: logging out from a browser ends the session on both sides: the browser
    sends none of the three cookies any more, its next request to a protected
    route is refused for want of a token, and the session's token and the refresh
    token are refused wherever else they were kept. *)
Theorem browser_signed_out now user jt raw r s j t0 :
  us_jti user = Some jt → jt ≠ "" → presented_token None r = Some raw → raw ≠ "" → respects home j →
  ∃ s' cs, logout_handler now user None r s = (Ok (tt, cs), s') ∧
    (∀ t p n, t0 ≤ t → n ∈ [ACCESS_TOKEN_COOKIE; REFRESH_TOKEN_COOKIE; CSRF_TOKEN_COOKIE] →
      sent https t p (receive_all https t0 cs j) n = None) ∧
    (∀ t p rt r' today, t0 ≤ t → browser_request t p (receive_all https t0 cs j) r' →
      is_http rt = true → isPublic rt = false → isAccessKeyRoute rt = false →
      auth_guard today rt r' (sessions s') = Throw (UnauthorizedException "Missing access token.")) ∧
    (∀ rt r' token pl today, carries rt r' token → jwt_verify token = Some pl → jti pl = jt →
      auth_guard today rt r' (sessions s')
        = Throw (UnauthorizedException "Session has been revoked. Please log in again.")) ∧
    (∀ now' today', now ≤ now' → refresh now' today' raw s' = (Throw invalid_refresh, s')).
Proof.
  intros Hjt Hj Hr Hraw Hres.
  destruct (logout_spec sha256_hex uuid now jt (Some (us_id user)) raw s Hj Hraw) as (s' & Hl & Hs & Hsp).
  exists s', (clearAuthCookies COOKIE_SECURE COOKIE_DOMAIN refreshCookiePath).
  assert (∀ t p n, t0 ≤ t → n ∈ [ACCESS_TOKEN_COOKIE; REFRESH_TOKEN_COOKIE; CSRF_TOKEN_COOKIE] →
    sent https t p (receive_all https t0 (clearAuthCookies COOKIE_SECURE COOKIE_DOMAIN refreshCookiePath) j) n = None)
    as Hnone by (intros; by apply sent_after_clear).
  repeat split.
  - unfold CookieAuth.logout_handler, then_. by rewrite Hjt, Hr, Hl.
  - done.
  - intros t p rt r' today Ht [Hc Hb] Hh Hp Hk. unfold Guards.auth_guard. rewrite Hh, Hp, Hk.
    unfold extractToken. rewrite Hb, Hc, Hnone; [done..|left].
  - intros rt r' token pl today Hca Hv <-. apply (guard_no_session jwt_verify today rt r' token pl); [done..|].
    rewrite Hs. apply revoked_session.
  - intros now' today' Hle. apply refresh_invalid. by apply Hsp.
Qed.

End flow.

(** ** A cookie jar as a list *)
Module ListJar.
Record entry := Entry { e_name : string; e_value : string; e_options : cookie_options; e_set : Z }.
Definition jar := list entry.
Definition cap : Z := 400 * 86400.

(** RFC 6265, 5.1.4 *)
Definition matches (cookie_path p : string) : bool :=
  let p := if startsWith p "/" then p else "/" in
  String.eqb cookie_path p ||
  startsWith p cookie_path &&
    (endsWith cookie_path "/" || startsWith (String.substring (String.length cookie_path) 1 p) "/").
Definition same_cookie (n : string) (o : cookie_options) (e : entry) : bool :=
  String.eqb (e_name e) n && bool_decide (cookie_scope (e_options e) = cookie_scope o).
(** A [Secure] cookie is taken over an encrypted connection only. *)
Definition jar_receive (https : bool) (now : Z) (c : reply_cookie) (j : jar) : jar :=
  if implb (secure (options_of c)) https then
    let kept := List.filter (λ e, negb (same_cookie (cookie_name c) (options_of c) e)) j in
    match c with SetCookie n v o => Entry n v o now :: kept | ClearCookie _ _ => kept end
  else j.
Definition goes (https : bool) (t : Z) (p n : string) (e : entry) : bool :=
  String.eqb (e_name e) n && implb (secure (e_options e)) https && matches (path (e_options e)) p &&
  match maxAge (e_options e) with Some a => t <? e_set e + Z.min a cap | None => true end.
#[global] Instance jar_ops : CookieJar jar := {
  receive := jar_receive;
  sent https t p j n := e_value <$> List.find (goes https t p n) j;
  readable https t p j n := List.find (goes https t p n) j ≫= λ e, if httpOnly (e_options e) then None else Some (e_value e);
  path_matches := matches;
  max_lifetime := cap;
}.

Lemma find_filter {A} (P Q : A → bool) l : (∀ x, P x = true → Q x = true) → List.find P (List.filter Q l) = List.find P l.
Proof.
  intros HPQ. induction l as [|x l IH]; [done|]. cbn. destruct (P x) eqn:HP.
  - rewrite HPQ by done. cbn. by rewrite HP.
  - destruct (Q x); cbn; rewrite ?HP; done.
Qed.
Definition well_scoped (home : string → option string * string) (j : jar) : Prop :=
  ∀ e, e ∈ j → cookie_scope (e_options e) = home (e_name e).
Lemma replaced home https t p n o j : well_scoped home j → cookie_scope o = home n →
  List.find (goes https t p n) (List.filter (λ e, negb (same_cookie n o e)) j) = None.
Proof.
  intros Hj Ho. destruct (List.find _ _) as [e|] eqn:E; [|done]. exfalso.
  apply find_some in E as [[Hin Hs]%filter_In Hg]. apply list_elem_of_In in Hin.
  unfold goes in Hg. unfold same_cookie in Hs. destruct (String.eqb_spec (e_name e) n) as [Hn|]; [|done].
  rewrite bool_decide_true in Hs; [done|]. by rewrite (Hj e Hin), Hn.
Qed.
Lemma unaffected https now c j t p n : cookie_name c ≠ n →
  List.find (goes https t p n) (jar_receive https now c j) = List.find (goes https t p n) j.
Proof.
  intros Hn. unfold jar_receive. destruct (implb _ _); [|done].
  assert (∀ e, goes https t p n e = true → negb (same_cookie (cookie_name c) (options_of c) e) = true) as HQ.
  { intros e. unfold goes, same_cookie. destruct (String.eqb_spec (e_name e) n) as [->|]; [|done].
    by rewrite (proj2 (String.eqb_neq _ _) (not_eq_sym Hn)). }
  destruct c as [m v o|m o]; cbn; [|by apply find_filter].
  unfold goes at 1. cbn in *. rewrite (proj2 (String.eqb_neq _ _) Hn). by apply find_filter.
Qed.
Lemma just_set home https now n v o j t p : well_scoped home j → cookie_scope o = home n → implb (secure o) https = true →
  List.find (goes https t p n) (jar_receive https now (SetCookie n v o) j) =
    if matches (path o) p && match maxAge o with Some a => t <? now + Z.min a cap | None => true end
    then Some (Entry n v o now) else None.
Proof.
  intros Hj Ho Hs. unfold jar_receive. cbn. rewrite Hs. cbn. unfold goes at 1. cbn. rewrite String.eqb_refl, Hs. cbn.
  rewrite (replaced home) by done. by destruct (_ && _).
Qed.
#[global] Instance jar_laws : CookieJarLaws jar.
Proof.
  refine {| respects := well_scoped |}.
  - intros home https now c j Hj Hc e He. cbn in He. unfold jar_receive in He. destruct (implb _ _); [|by apply Hj].
    destruct c as [n v o|n o]; [apply elem_of_cons in He as [->|He]; [done|]|];
      (apply list_elem_of_In, filter_In in He as [He _]; apply list_elem_of_In in He; by apply Hj).
  - intros home https now n v o j t p Hj Ho _ Hs. cbn. rewrite (just_set home) by done. by destruct (_ && _).
  - intros home https now n o j t p Hj Ho _ Hs. cbn. unfold jar_receive. cbn. rewrite Hs. by rewrite (replaced home).
  - intros https now c j t p n Hn. cbn. by rewrite unaffected.
  - intros home https now n v o j t p Hj Ho _ Hs. cbn. rewrite (just_set home) by done.
    destruct (_ && _); cbn; by destruct (httpOnly o).
  - intros https now c j t p n Hn. cbn. by rewrite unaffected.
  - intros p. cbn. unfold matches. destruct (startsWith p "/") eqn:E; [|done]. by rewrite E, orb_true_r.
Defined.

(** The [Cookie] header as the server parses it. *)
Definition cookies_of (https : bool) (t : Z) (p : string) (j : jar) : gmap string string :=
  foldr (λ e m, if goes https t p (e_name e) e then <[e_name e := e_value e]> m else m) ∅ j.
Lemma cookies_sent https t p j n : cookies_of https t p j !! n = sent https t p j n.
Proof.
  induction j as [|e j IH]; [done|]. cbn in *. destruct (String.eqb_spec (e_name e) n) as [<-|Hn].
  - destruct (goes https t p (e_name e) e); [|done]. by rewrite lookup_insert_eq.
  - replace (goes https t p n e) with false by (unfold goes; by rewrite (proj2 (String.eqb_neq _ _) Hn)).
    destruct (goes https t p (e_name e) e); [|done]. by rewrite lookup_insert_ne.
Qed.
Definition browser_post (https : bool) (t : Z) (p : string) (j : jar) (csrf : option string) : http_request :=
  HttpRequest "POST" p None "" (match csrf with Some c => {["x-csrf-token" := HString c]} | None => ∅ end)
    (Some (cookies_of https t p j)) None None None.
Lemma browser_posts https t p j csrf : browser_request https t p j (browser_post https t p j csrf).
Proof.
  split; [intros n; apply cookies_sent|]. unfold header_string. by destruct csrf.
Qed.
End ListJar.

(** ** How long a login lasts

    Three lifetimes have to agree: the cookies', the signed token's and the
    session's.  Time passes between the login, the arrival of its reply and the
    request; the token is checked at the time of the request. *)
Section lifetime.
Context {T : Type → Type} `{DatabaseLaws T} {S V : Type} `{RedisLaws S V} `{!RedisClock S V} `{!RedisClockLaws S V}
        `{!Json ISessionData V} {J : Type} `{CookieJarLaws J}.
Context (bcrypt_compare : string → string → bool) (sha256_hex : string → string) (uuid random_hex : nat → string).
(** A token signed, and checked, in the given second. *)
Context (jwt_sign_at : Z → jwt_payload → Z → string) (jwt_verify_at : Z → string → option token_payload).
Context (FindById : string → result (option IIamUser))
        (ResolvePermissions : string → result (option IResolvedPermissions)).
Context (access_expires_in refresh_expires_in : option string).
Context (COOKIE_SECURE : option bool) (COOKIE_DOMAIN AUTH_PREFIX_NAME AUTH_PREFIX_VERSION : option string).
Context (https : bool).
Hypothesis scheme_suits : implb (default true COOKIE_SECURE) https = true.
(** A token verifies until it expires, [n] seconds after it was signed. *)
Hypothesis jwt_lifetime : ∀ t0 t p n, 0 ≤ t0 → 0 < n →
  jwt_verify_at t (jwt_sign_at t0 p n) = if t <? t0 + n then Some (TokenPayload (p_sub p) (p_jti p)) else None.
Hypothesis jwt_nonempty : ∀ t0 p n, jwt_sign_at t0 p n ≠ "".
Hypothesis random_nonempty : ∀ n, random_hex n ≠ "".
Hypothesis access_lives : ∀ n, access_ttl access_expires_in = Ok n → 0 < n.
Implicit Types (s : auth_state T S) (r : http_request).

(** The second an instant in milliseconds falls in. *)
Definition second (now : Z) : Z := now / 1000.
Abbreviation login_handler now := (login_handler (T := T) (V := V) bcrypt_compare sha256_hex uuid random_hex
  (jwt_sign_at (second now)) FindById ResolvePermissions access_expires_in refresh_expires_in COOKIE_SECURE
  COOKIE_DOMAIN AUTH_PREFIX_NAME AUTH_PREFIX_VERSION now).

(** What a login leaves behind, [d] seconds later. *)
Lemma login_leaves now today username password ip ua s res s' :
  login (T := T) (V := V) bcrypt_compare sha256_hex uuid random_hex (jwt_sign_at (second now)) FindById
    ResolvePermissions access_expires_in refresh_expires_in now today username password ip ua s = (Ok res, s') →
  0 ≤ now →
  ∃ c u perms jti, admitted bcrypt_compare FindById now today username password s c u ∧
    ResolvePermissions (c_user_id (cols c)) = Ok perms ∧ 0 < expires_in res ∧
    lr_must_change_password res = must_change_password (cols c) ∧
    (∀ t, jwt_verify_at t (access_token res) =
       if t <? second now + expires_in res then Some (TokenPayload (i_user_id u) jti) else None) ∧
    (∀ d, 0 ≤ d → get_session (V := V) jti (age d (sessions s')) =
       if d <? expires_in res
       then Some (SessionData (i_user_id u) (i_username u) (i_full_name u) (i_email u)
         (r_roles (default no_permissions perms)) (r_permissions (default no_permissions perms))
         (r_conditional (default no_permissions perms)) (i_expired_at u) (must_change_password (cols c)))
       else None).
Proof.
  intros Hlogin Hnow. pose proof (login_opens bcrypt_compare sha256_hex uuid random_hex (jwt_sign_at (second now)) FindById
    ResolvePermissions access_expires_in refresh_expires_in now today username password ip ua s) as Ho.
  rewrite Hlogin in Ho. destruct Ho as (c & u & perms & s1 & Ha & Hp & [_ _ _ Hm (jti & n & _ & Hn & -> & Htok & Hs1) _ _]
    & [_ _ Hsess]). pose proof (access_lives n Hn) as Hpos. exists c, u, perms, jti. split_and!; try done.
  - intros t. rewrite Htok, jwt_lifetime; [done| |done]. apply Z.div_pos; lia.
  - intros d Hd. rewrite Hsess, Hs1. by apply created_session_aged.
Qed.

(** C7: A browser that logged in is let in by its cookies alone until the access
    token expires, as the user who logged in: its request is answered 401 if
    the account's last day has passed since, 403 if the password must be changed
    first and the route is not for that, and admitted otherwise.  A request that
    changes something passes the CSRF check exactly when it echoes the
    [csrf_token] cookie, and is refused with 403 otherwise.  Once the token has
    expired every request is answered 401, whatever the browser still sends. *)
Theorem browser_admitted now today username password request s res cs s' j t1 t p rt r day
    (Hlogin : login_handler now today username password request s = (Ok (res, cs), s'))
    (Hjar : respects (home COOKIE_DOMAIN AUTH_PREFIX_NAME AUTH_PREFIX_VERSION) j)
    (Hnow : 0 ≤ now) (Hreply : second now ≤ t1) (Hrequest : t1 ≤ t)
    (Hb : browser_request https t p (receive_all https t1 cs j) r)
    (Hhttp : is_http rt = true) (Hprotected : isPublic rt = false) (Hkey : isAccessKeyRoute rt = false) :
  let expiry := second now + expires_in res in
  let answer := auth_guard (V := V) (jwt_verify_at t) day rt r (age (t - second now) (sessions s')) in
  (t < Z.min expiry (t1 + max_lifetime) →
    (∃ c u perms jti, admitted bcrypt_compare FindById now today username password s c u ∧
      ResolvePermissions (c_user_id (cols c)) = Ok perms ∧
      answer = if isExpired day (i_expired_at u) then Throw ACCOUNT_EXPIRED
               else if lr_must_change_password res && negb (skipPasswordChangeCheck rt) then Throw MUST_CHANGE_PASSWORD
               else Ok (Some (RequestUser
                 (Guards.UserSession (i_user_id u) (i_username u) (i_full_name u) (i_email u)
                    (r_roles (default no_permissions perms)) (r_permissions (default no_permissions perms))
                    (Some jti) (lr_must_change_password res))
                 (r_conditional (default no_permissions perms))))) ∧
    (skipCsrfCheck rt = false → ¬ includes ["GET"; "HEAD"; "OPTIONS"] (rq_method r) →
      csrf_guard rt r = if decide (header_string r "x-csrf-token" = Some (csrf_token res)) then Ok tt
                        else Throw (ForbiddenException "Missing or invalid CSRF token."))) ∧
  (expiry ≤ t → ∃ m, answer = Throw (UnauthorizedException m)).
Proof.
  intros expiry answer. destruct Hb as [Hc Hb]. apply login_cookies in Hlogin as (Hl & ttl & _ & ->).
  destruct (sent_after_set COOKIE_SECURE COOKIE_DOMAIN AUTH_PREFIX_NAME AUTH_PREFIX_VERSION https scheme_suits t1 t p
    (AuthCookies (access_token res) (refresh_token_raw res) (csrf_token res) (expires_in res) ttl
      (refreshCookiePath AUTH_PREFIX_NAME AUTH_PREFIX_VERSION)) j Hjar Hrequest eq_refl) as (Ha & _ & Hx).
  rewrite <- Hc in Ha, Hx. cbn in Ha, Hx.
  assert (extractToken r = cookie r ACCESS_TOKEN_COOKIE) as Htoken by (unfold extractToken; by rewrite Hb).
  destruct (login_tokens bcrypt_compare sha256_hex uuid random_hex (jwt_sign_at (second now)) FindById ResolvePermissions
    access_expires_in refresh_expires_in (jwt_nonempty _) random_nonempty _ _ _ _ _ _ _ _ _ Hl) as (Hna & _ & Hnx).
  destruct (login_leaves _ _ _ _ _ _ _ _ _ Hl Hnow) as (c & u & perms & jti & Hadm & Hperm & Hpos & Hmust & Hverify & Hsess).
  split; intros Htime.
  - assert ((t <? t1 + Z.min (expires_in res) max_lifetime) = true) as Hlive by (apply Z.ltb_lt; lia).
    rewrite Hlive in Ha, Hx. split; [|intros; by apply csrf_decides].
    exists c, u, perms, jti. split_and!; [done..|]. unfold answer.
    rewrite (guard_answers (jwt_verify_at t) day rt r (access_token res) (TokenPayload (i_user_id u) jti) _
      (SessionData (i_user_id u) (i_username u) (i_full_name u) (i_email u)
         (r_roles (default no_permissions perms)) (r_permissions (default no_permissions perms))
         (r_conditional (default no_permissions perms)) (i_expired_at u) (must_change_password (cols c)))).
    + by rewrite Hmust.
    + split; [done..| |done]. by rewrite Htoken.
    + rewrite Hverify. by rewrite (proj2 (Z.ltb_lt _ _)) by lia.
    + rewrite Hsess by lia. by rewrite (proj2 (Z.ltb_lt _ _)) by lia.
  - unfold answer, Guards.auth_guard. rewrite Hhttp, Hprotected, Hkey, Htoken, Ha. cbn [negb].
    destruct (t <? _); cbn; [|by eexists]. rewrite (proj2 (String.eqb_neq _ _) Hna).
    rewrite Hverify, (proj2 (Z.ltb_ge _ _)) by lia. by eexists.
Qed.
End lifetime.

(** ** Sample and witnesses *)
Module CookieSample.
Import AuthService.Sample.
Abbreviation S := (mem ISessionData).
Definition login_request : http_request := HttpRequest "POST" "/auth/v1/auth/login" None "" ∅ None None None None.
Abbreviation sign_in := (login_handler (T := list) (S := S) (V := ISessionData) compare digest uuid random_hex FlowSample.sign
  find_user resolve None None None None (Some "auth") (Some "v1") 0 "2024-06-01" "ann" "secret" login_request start).
Abbreviation sign_in_at := (login_handler (T := list) (S := S) (V := ISessionData) compare digest uuid random_hex
  (FlowSample.sign_at (second 5000)) find_user resolve None None None None (Some "auth") (Some "v1") 5000 "2024-06-01" "ann"
  "secret" login_request start).
Lemma signed_in_at : ∃ res cs s', sign_in_at = (Ok (res, cs), s') ∧ lr_must_change_password res = false ∧
  csrf_token res = "r3" ∧ expires_in res = 900.
Proof.
  destruct sign_in_at as [[[res cs]|e] s'] eqn:E; vm_compute in E; [|discriminate E].
  exists res, cs, s'. injection E as <- <- <-. by repeat split.
Qed.
Lemma signs_at t0 p n : FlowSample.sign_at t0 p n ≠ "".
Proof. unfold FlowSample.sign_at. by destruct (p_sub p). Qed.
Definition my_home := home None (Some "auth") (Some "v1").
Lemma signed_in : ∃ res cs s', sign_in = (Ok (res, cs), s') ∧ lr_must_change_password res = false ∧
  csrf_token res = "r3" ∧ refresh_token_raw res = "r1" ∧ expires_in res = 900.
Proof.
  destruct sign_in as [[[res cs]|e] s'] eqn:E; vm_compute in E; [|discriminate E].
  exists res, cs, s'. injection E as <- <- <-. by repeat split.
Qed.
Lemma signs p n : FlowSample.sign p n ≠ "".
Proof. unfold FlowSample.sign. by destruct (p_sub p). Qed.
Lemma randoms n : random_hex n ≠ "".
Proof. done. Qed.
Lemma empty_respects h : respects (J := ListJar.jar) h [].
Proof. change (ListJar.well_scoped h []). intros e He. by apply elem_of_nil in He. Qed.
Lemma who now c u : admitted compare find_user now "2024-06-01" "ann" "secret" start c u →
  i_user_id u = "ann-id" ∧ i_expired_at u = None.
Proof.
  intros [Hc _ _ _ Hu _ _]. vm_compute in Hc. injection Hc as <-. vm_compute in Hu. injection Hu as <-. by split.
Qed.
Lemma refresh_goes ttl : parseDurationToSeconds (default "7d" None) = Ok ttl → 1000 - 0 < Z.min ttl ListJar.cap.
Proof. intros Ht. vm_compute in Ht. by injection Ht as <-. Qed.
Definition sales_route : route := Route true false false false false true None.
Definition me : IUserSession := Guards.UserSession "ann-id" "ann" None None [] [] (Some "u0") false.
End CookieSample.

Lemma browser_admitted_witness : ∃ res cs s', CookieSample.sign_in_at = (Ok (res, cs), s') ∧
  let j := receive_all (J := ListJar.jar) true 6 cs [] in
  (∃ u, auth_guard (V := ISessionData) (FlowSample.verify_at 904) "2024-06-02" CookieSample.sales_route
     (ListJar.browser_post true 904 "/sales" j None) (age 899 (sessions s')) = Ok (Some u) ∧
     us_id (user_session u) = "ann-id") ∧
  csrf_guard CookieSample.sales_route (ListJar.browser_post true 904 "/sales" j (Some "r3")) = Ok tt ∧
  csrf_guard CookieSample.sales_route (ListJar.browser_post true 904 "/sales" j None)
    = Throw (ForbiddenException "Missing or invalid CSRF token.") ∧
  (∃ m, auth_guard (V := ISessionData) (FlowSample.verify_at 905) "2024-06-02" CookieSample.sales_route
     (ListJar.browser_post true 905 "/sales" j None) (age 900 (sessions s')) = Throw (UnauthorizedException m)).
Proof.
  destruct CookieSample.signed_in_at as (res & cs & s' & E & Hm & Hx & He). exists res, cs, s'. split; [exact E|]. cbv zeta.
  pose proof (λ (t : Z) (csrf : option string) (Ht : 6 <= t), browser_admitted (T := list) (S := CookieSample.S) (V := ISessionData) (J := ListJar.jar)
    Sample.compare Sample.digest Sample.uuid Sample.random_hex FlowSample.sign_at FlowSample.verify_at Sample.find_user
    Sample.resolve None None None None (Some "auth") (Some "v1") true eq_refl FlowSample.lifetime CookieSample.signs_at
    CookieSample.randoms FlowSample.lives 5000 "2024-06-01" "ann" "secret" CookieSample.login_request Sample.start res cs s' []
    6 t "/sales" CookieSample.sales_route
    (ListJar.browser_post true t "/sales" (receive_all (J := ListJar.jar) true 6 cs []) csrf) "2024-06-02"
    E (CookieSample.empty_respects _) ltac:(done) ltac:(done) Ht (ListJar.browser_posts _ _ _ _ _) eq_refl eq_refl eq_refl) as Hb.
  cbv zeta in Hb. rewrite He in Hb.
  split; [|split; [|split]].
  - destruct (Hb 904 None ltac:(done)) as [Hlive _].
    destruct (Hlive ltac:(by vm_compute)) as [(c & u & perms & j & Ha & _ & Hg) _].
    destruct (CookieSample.who _ c u Ha) as [Hu Hexp]. rewrite Hexp, Hm in Hg. eexists. split; [exact Hg|]. exact Hu.
  - destruct (Hb 904 (Some "r3") ltac:(done)) as [Hlive _].
    destruct (Hlive ltac:(by vm_compute)) as [_ Hg]. rewrite Hg, Hx; [|done|intros []]. by rewrite decide_True.
  - destruct (Hb 904 None ltac:(done)) as [Hlive _].
    destruct (Hlive ltac:(by vm_compute)) as [_ Hg]. rewrite Hg; [|done|intros []]. by rewrite decide_False.
  - destruct (Hb 905 None ltac:(done)) as [_ Hdead]. apply Hdead. by vm_compute.
Defined.

Lemma refresh_without_csrf_witness : ∃ res cs s', CookieSample.sign_in = (Ok (res, cs), s') ∧
  let r := ListJar.browser_post true 1000 "/auth/v1/auth/refresh" (receive_all (J := ListJar.jar) true 0 cs []) None in
  csrf_guard (Route true true false false false false None) r = Ok tt ∧
  match refresh_handler (T := list) (S := CookieSample.S) (V := ISessionData) Sample.digest Sample.uuid Sample.random_hex
    FlowSample.sign Sample.find_user Sample.resolve None None None None (Some "auth") (Some "v1")
    1000000 "2024-06-01" None r s' with (Ok _, _) => True | _ => False end.
Proof.
  destruct CookieSample.signed_in as (res & cs & s' & E & _ & _ & Hr & He). exists res, cs, s'. split; [exact E|]. cbv zeta.
  destruct (refresh_without_csrf (T := list) (S := CookieSample.S) (V := ISessionData) (J := ListJar.jar) Sample.compare Sample.digest
    Sample.uuid Sample.random_hex FlowSample.sign FlowSample.verify Sample.find_user Sample.resolve None None None None
    (Some "auth") (Some "v1") true eq_refl CookieSample.signs CookieSample.randoms
    0 "2024-06-01" "ann" "secret" CookieSample.login_request Sample.start res cs s' [] 0 1000 "/auth/v1/auth/refresh"
    (Route true true false false false false None)
    (ListJar.browser_post true 1000 "/auth/v1/auth/refresh" (receive_all (J := ListJar.jar) true 0 cs []) None)
    E (CookieSample.empty_respects _)) as (Hc & _ & Hh).
  - done.
  - by rewrite He.
  - exact CookieSample.refresh_goes.
  - by vm_compute.
  - apply ListJar.browser_posts.
  - split; [exact Hc|]. rewrite Hh, Hr. vm_compute in E. injection E as <- <- <-. by vm_compute.
Defined.

Lemma scripts_read_csrf_only_witness : ∃ res cs s', CookieSample.sign_in = (Ok (res, cs), s') ∧
  readable true 60 "/" (receive_all (J := ListJar.jar) true 0 cs []) CSRF_TOKEN_COOKIE = Some "r3".
Proof.
  destruct CookieSample.signed_in as (res & cs & s' & E & _ & Hx & _ & He). exists res, cs, s'. split; [exact E|].
  destruct (scripts_read_csrf_only (T := list) (S := CookieSample.S) (V := ISessionData) (J := ListJar.jar) Sample.compare Sample.digest
    Sample.uuid Sample.random_hex FlowSample.sign Sample.find_user Sample.resolve None None None None
    (Some "auth") (Some "v1") true eq_refl
    0 "2024-06-01" "ann" "secret" CookieSample.login_request Sample.start res cs s' [] 0 60 "/"
    E (CookieSample.empty_respects _)) as (_ & _ & Hr); [done|].
  rewrite Hr, He, Hx. reflexivity.
Defined.

Lemma browser_signed_out_witness : ∃ res cs s', CookieSample.sign_in = (Ok (res, cs), s') ∧
  let j := receive_all (J := ListJar.jar) true 0 cs [] in
  ∃ s2 cs2, logout_handler (T := list) (S := CookieSample.S) (V := ISessionData) Sample.digest Sample.uuid
    None None (Some "auth") (Some "v1") 5000 CookieSample.me None (ListJar.browser_post true 5 "/auth/v1/auth/logout" j (Some "r3")) s'
    = (Ok (tt, cs2), s2) ∧
  sent true 6 "/auth/v1/auth/refresh" (receive_all (J := ListJar.jar) true 5 cs2 j) REFRESH_TOKEN_COOKIE = None.
Proof.
  destruct CookieSample.signed_in as (res & cs & s' & E & _). exists res, cs, s'. split; [exact E|]. cbv zeta.
  destruct (browser_signed_out (T := list) (S := CookieSample.S) (V := ISessionData) (J := ListJar.jar) Sample.digest
    Sample.uuid Sample.random_hex FlowSample.sign FlowSample.verify Sample.find_user Sample.resolve None None None None
    (Some "auth") (Some "v1") true eq_refl 5000 CookieSample.me "u0" "r1"
    (ListJar.browser_post true 5 "/auth/v1/auth/logout" (receive_all (J := ListJar.jar) true 0 cs []) (Some "r3")) s'
    (receive_all (J := ListJar.jar) true 0 cs []) 5) as (s2 & cs2 & Hl & Hn & _).
  - done.
  - done.
  - vm_compute in E. injection E as <- <- <-. by vm_compute.
  - done.
  - apply login_cookies in E as (_ & ttl & _ & ->).
    apply respects_after_set; [apply CookieSample.empty_respects|done].
  - exists s2, cs2. split; [exact Hl|]. apply Hn; [done|right; left].
Defined.
