(* ===== verification/HttpLogging.v ===== *)
(** * The HTTP access log

    Model of pino-http.config.ts (src/libs/common/src/utils/logger): which
    requests are logged, at which level, what the entry of a request and of a
    response holds, the redaction of secrets, and the capture of response
    bodies.  [JSON.parse], the trace id of the active span and fresh ids are
    arguments.  Strings are byte strings, so a byte length is a length. *)

From S2P Require Import Prelude JsString JsValues RpcErrors JsonApi.
#[local] Open Scope string_scope.
#[local] Open Scope list_scope.

(** ** Levels *)

Definition PINO_LEVELS : list string := ["trace"; "debug"; "info"; "warn"; "error"; "fatal"; "silent"].
Definition resolveLogLevel (LOG_LEVEL explicit : option string) : string :=
  let candidate := toLowerCase (match explicit with Some l => l | None => default "info" LOG_LEVEL end) in
  if includes PINO_LEVELS candidate then candidate else "info".
Definition customLogLevel (statusCode : Z) (err : bool) : string :=
  if err then "error" else if (500 <=? statusCode)%Z then "error" else if (400 <=? statusCode)%Z then "warn" else "info".

(** pino's numbers for its levels; [silent] is above every one of them.  A logger
    writes the entries of its own level and above. *)
Definition level_number (l : string) : option Z :=
  if String.eqb l "trace" then Some 10%Z else if String.eqb l "debug" then Some 20%Z else if String.eqb l "info" then Some 30%Z
  else if String.eqb l "warn" then Some 40%Z else if String.eqb l "error" then Some 50%Z
  else if String.eqb l "fatal" then Some 60%Z else None.
Definition level_enabled (logLevel entry : string) : bool :=
  match level_number logLevel, level_number entry with Some m, Some n => (m <=? n)%Z | _, _ => false end.

(** ** Redaction *)

Definition SENSITIVE_KEYS : list string :=
  ["password"; "token"; "access_token"; "refresh_token"; "secret"; "authorization"; "cookie"; "csrf_token";
   "x-csrf-token"; "x-access-token"].
Definition sensitive (k : string) : bool := includes SENSITIVE_KEYS (toLowerCase k).
(** [result[k] = v]: [__proto__] is not a property of its own. *)
Definition assign (result : list (string * jsv)) (kv : string * jsv) : list (string * jsv) :=
  if String.eqb kv.1 "__proto__" then result else obj_set kv.1 kv.2 result.
Definition REDACTED : jsv := JStr "[Redacted]".
Fixpoint redactDeep (depth : nat) (value : jsv) : jsv :=
  if (10 <? depth)%nat then value else
  match value with
  | JArr l => JArr (List.map (redactDeep (S depth)) l)
  | JObj fields =>
      JObj (foldl assign []
              (List.map (λ kv, (kv.1, if sensitive kv.1 then REDACTED else redactDeep (S depth) kv.2)) fields))
  | _ => value
  end.

(** ** Requests that are not logged *)

Definition IGNORE_SUFFIXES : list string := ["/health"; "/api-docs"; "/json-docs"; "/classic-docs"].
Definition shouldIgnore (url : string) : bool :=
  if str_includes url "/socket.io/" then true
  else let base := default "" (head (split "?" url)) in
       List.existsb (λ suffix, endsWith base suffix) IGNORE_SUFFIXES.

(** ** The log directory *)

(** [s.replace(/Module$/, '')] *)
Definition without_module (s : string) : string :=
  if endsWith s "Module" then String.substring 0 (String.length s - 6) s else s.
(** [s.replace(/([a-z0-9])([A-Z])/g, '$1-$2')] *)
Fixpoint hyphenate (s : string) : string :=
  match s with
  | String a (String b _ as s') =>
      if (is_lower a || is_digit a) && is_upper b then String a (String "-" (hyphenate s')) else String a (hyphenate s')
  | _ => s
  end.
Definition serviceSlug (moduleName : string) : string := toLowerCase (hyphenate (without_module moduleName)).

(** ** The body of a response *)

(** What [write] and [end] are given: bytes, a string, or nothing to log. *)
Inductive chunk := Bytes (s : string) | Text (s : string) | Other.
Definition buffer_of (c : chunk) : option string := match c with Bytes s | Text s => Some s | Other => None end.
Record capture := Capture { chunks : list string; totalBytes : Z; truncated : bool }.
Definition nothing_captured : capture := Capture [] 0 false.

(** A header of the response at the time of the call, with the chunk. *)
Definition collectChunk (maxBytes : Z) (st : capture) (call : option string * chunk) : capture :=
  if truncated st then st
  else if negb (str_includes (default "" call.1) "application/json") then st
  else match buffer_of call.2 with
       | None => st
       | Some buf =>
           let total := (totalBytes st + Z.of_nat (String.length buf))%Z in
           if (maxBytes <? total)%Z then Capture (chunks st) total true
           else Capture (chunks st ++ [buf]) total false
       end.

Section parsing.
Context (parse : string → option jsv).
(** [res.locals.responseBody] after [end], [None] if it is not set. *)
Definition storeBody (st : capture) : option jsv :=
  (λ parsed, if truncated st then JObj [("truncated", JBool true)] else parsed) <$> parse (String.concat "" (chunks st)).
(** The calls of [write], and the last one, of [end], with or without a chunk. *)
Definition captureResponseBody (isAttachment : bool) (maxBytes : Z) (writes : list (option string * chunk))
    (last : option (option string * chunk)) : option jsv :=
  if isAttachment then None
  else storeBody (foldl (collectChunk maxBytes) nothing_captured (writes ++ option_list last)).
End parsing.

(** ** Log entries *)

Record log_session := LogSession { ls_id : string; ls_username : string; ls_roles : list string }.
Record logged_request := LoggedRequest {
  lr_method : string; lr_url : string;
  (** [headers], a repeated one as an array *)
  lr_headers : list (string * jsv);
  lr_remoteAddress : option string;
  (** [raw.body] and [raw.user.user_session] at the end of the request *)
  lr_body : option jsv; lr_session : option log_session;
}.

Definition genReqId (traceId : option string) (randomUUID : string) (req : logged_request) : string :=
  match traceId, obj_get "x-trace-id" (lr_headers req) with
  | Some t, _ => t
  | None, Some (JStr h) => h
  | None, _ => randomUUID
  end.
(** [forwardedFor[0]], or the first part of the list, or the peer. *)
Definition client_ip (req : logged_request) : jsv :=
  let peer := JStr (default "N/A" (lr_remoteAddress req)) in
  match obj_get "x-forwarded-for" (lr_headers req) with
  | Some (JArr (first :: _)) => first
  | Some (JStr s) => match head (split "," s) with Some p => JStr (trim p) | None => peer end
  | _ => peer
  end.
Definition header_or_na (k : string) (req : logged_request) : jsv := default (JStr "N/A") (obj_get k (lr_headers req)).
Definition serialize_req (req : logged_request) : jsv :=
  JObj [("method", JStr (lr_method req)); ("url", JStr (lr_url req));
        ("headers", redactDeep 0 (JObj (lr_headers req)));
        ("correlation_id", header_or_na "x-correlation-id" req);
        ("client_ip", client_ip req); ("user_agent", header_or_na "user-agent" req)].
(** The entry's fields without the response body. *)
Definition res_base (includeReqBody : bool) (statusCode : jsv) (req : logged_request) : list (string * jsv) :=
  [("statusCode", statusCode)] ++
  (if includeReqBody then optional_field "req_body" (redactDeep 0) (lr_body req) else []) ++
  optional_field "user" (λ u, JObj [("id", JStr (ls_id u)); ("username", JStr (ls_username u));
                                    ("roles", JArr (List.map JStr (ls_roles u)))]) (lr_session req).
Definition serialize_res (includeReqBody includeResBody : bool) (statusCode : jsv) (req : logged_request)
    (responseBody : option jsv) : jsv :=
  let base := res_base includeReqBody statusCode req in
  if includeResBody
  then JObj (base ++ [("body", match responseBody with Some b => redactDeep 0 b | None => JUndefined end)])
  else JObj base.

(** [HttpLoggingOptions], as far as the entries depend on it. *)
Record HttpLoggingOptions := LoggingOptions {
  enabled : option bool; level : option string; opt_includeReqBody : option bool; opt_includeResBody : option bool;
  bodyMaxBytes : option Z; logDir : option string;
}.
Definition not_false (o : option bool) : bool := match o with Some false => false | _ => true end.
(** The directory and the level of a service's log, and the entries of one
    request; nothing when logging is off. *)
Record log_line := LogLine { ll_level : string; ll_trace_id : string; ll_req : jsv; ll_res : jsv }.
Definition log_settings (LOG_LEVEL : option string) (moduleName : string) (opts : HttpLoggingOptions) : string * string :=
  (resolveLogLevel LOG_LEVEL (level opts), default (join "/" (List.filter (λ p, negb (String.eqb p "")) ["logs"; serviceSlug moduleName; "http"])) (logDir opts)).
Definition access_log (parse : string → option jsv) (LOG_LEVEL : option string) (opts : HttpLoggingOptions) (traceId : option string)
    (randomUUID : string) (req : logged_request) (statusCode : Z) (err : bool) (isAttachment : bool)
    (writes : list (option string * chunk)) (last : option (option string * chunk)) : option log_line :=
  if negb (not_false (enabled opts)) then None
  else if shouldIgnore (lr_url req) then None
  else if negb (level_enabled (resolveLogLevel LOG_LEVEL (level opts)) (customLogLevel statusCode err)) then None
  else
    let includeResBody := not_false (opt_includeResBody opts) in
    let responseBody :=
      if includeResBody
      then captureResponseBody parse isAttachment (default 32768%Z (bodyMaxBytes opts)) writes last else None in
    Some (LogLine (customLogLevel statusCode err) (genReqId traceId randomUUID req) (serialize_req req)
            (serialize_res (not_false (opt_includeReqBody opts)) includeResBody (js_Z statusCode) req responseBody)).

Example slugs : List.map serviceSlug ["IamModule"; "FinanceBcModule"; "report"] = ["iam"; "finance-bc"; "report"].
Proof. by vm_compute. Qed.
Example redacts : redactDeep 0 (JObj [("user", JStr "ann"); ("Password", JStr "x"); ("a", JObj [("token", JNull)])])
  = JObj [("user", JStr "ann"); ("Password", REDACTED); ("a", JObj [("token", REDACTED)])].
Proof. by vm_compute. Qed.

(** ** Redaction *)

(** A value inside another. *)
Inductive step := Key (k : string) | Index (i : nat).
Definition child (st : step) (v : jsv) : option jsv :=
  match st, v with
  | Key k, JObj fields => obj_get k fields
  | Index i, JArr l => l !! i
  | _, _ => None
  end.
Fixpoint value_at (p : list step) (v : jsv) : option jsv :=
  match p with [] => Some v | st :: p' => child st v ≫= value_at p' end.
(** An object has a property once, at every depth. *)
Fixpoint distinct_keys (v : jsv) : Prop :=
  match v with
  | JArr l => foldr (λ x P, distinct_keys x ∧ P) True l
  | JObj fields => NoDup (obj_keys fields) ∧ foldr (λ kv P, distinct_keys kv.2 ∧ P) True fields
  | _ => True
  end.

Lemma assigned_source k w l acc : obj_get k (foldl assign acc l) = Some w → obj_get k acc = Some w ∨ (k, w) ∈ l.
Proof.
  revert acc. induction l as [|[k' w'] l IH]; intros acc Hw; [by left|]. cbn [foldl] in Hw.
  apply IH in Hw as [Hw|Hw]; [|right; by right]. unfold assign in Hw. cbn [fst snd] in Hw.
  destruct (String.eqb k' "__proto__"); [by left|]. rewrite obj_get_set in Hw.
  destruct (String.eqb_spec k k') as [->|]; [injection Hw as ->; right; left|by left].
Qed.
Lemma assigned_other k l acc : k ∉ l.*1 → obj_get k (foldl assign acc l) = obj_get k acc.
Proof.
  revert acc. induction l as [|[k' w'] l IH]; intros acc Hk; [done|]. cbn in Hk. apply not_elem_of_cons in Hk as [Hne Hk].
  cbn [foldl]. rewrite IH by done. unfold assign. cbn [fst snd]. destruct (String.eqb k' "__proto__"); [done|].
  rewrite obj_get_set. by rewrite (proj2 (String.eqb_neq _ _) Hne).
Qed.
Lemma assigned k w l acc : NoDup l.*1 → k ≠ "__proto__" → (k, w) ∈ l → obj_get k (foldl assign acc l) = Some w.
Proof.
  revert acc. induction l as [|[k' w'] l IH]; intros acc Hnd Hk Hin; [by apply elem_of_nil in Hin|].
  cbn in Hnd. apply NoDup_cons in Hnd as [Hk' Hnd]. cbn [foldl]. apply elem_of_cons in Hin as [[= -> ->]|Hin]; [|by apply IH].
  rewrite assigned_other by done. unfold assign. cbn [fst snd]. rewrite (proj2 (String.eqb_neq _ _) Hk), obj_get_set.
  by rewrite String.eqb_refl.
Qed.
Lemma redact_obj d fields : (d ≤ 10)%nat → redactDeep d (JObj fields) =
  JObj (foldl assign [] (List.map (λ kv, (kv.1, if sensitive kv.1 then REDACTED else redactDeep (S d) kv.2)) fields)).
Proof. intros Hd. cbn [redactDeep]. by rewrite (proj2 (Nat.ltb_ge _ _) Hd). Qed.
Lemma redact_arr d l : (d ≤ 10)%nat → redactDeep d (JArr l) = JArr (List.map (redactDeep (S d)) l).
Proof. intros Hd. cbn [redactDeep]. by rewrite (proj2 (Nat.ltb_ge _ _) Hd). Qed.
Lemma redact_deep d v : (10 < d)%nat → redactDeep d v = v.
Proof. intros Hd. destruct v; cbn [redactDeep]; by rewrite (proj2 (Nat.ltb_lt _ _) Hd). Qed.

(** A step into a redacted value: a sensitive property, or a step into the value. *)
Lemma redacted_child d v st w : (d ≤ 10)%nat → child st (redactDeep d v) = Some w →
  (∃ k, st = Key k ∧ sensitive k = true ∧ w = REDACTED) ∨
  (∃ u, w = redactDeep (S d) u ∧ ∀ k, st = Key k → sensitive k = false).
Proof.
  intros Hd Hw. destruct st as [k|i], v as [| |b|n|s|l|fields];
    try (rewrite redact_arr in Hw by done); try (rewrite redact_obj in Hw by done);
    try (cbn [redactDeep] in Hw; destruct (_ <? _)%nat in Hw); try discriminate Hw.
  - cbn [child] in Hw. apply assigned_source in Hw as [Hw|Hw]; [done|].
    apply elem_of_List_map in Hw as ([k' v'] & _ & [= -> ->]). cbn.
    destruct (sensitive k') eqn:Hs; [left; by exists k'|right; exists v'; split; [done|]]. by intros ? [= <-].
  - cbn [child] in Hw. apply list_elem_of_lookup_2 in Hw. apply elem_of_List_map in Hw as (u & _ & ->).
    right. by exists u.
Qed.

Lemma lookup_List_map {A B} (f : A → B) l i : List.map f l !! i = f <$> l !! i.
Proof. revert i. induction l as [|x l IH]; [done|]. intros [|i]; [done|]. apply IH. Qed.

(** No secret is logged: whatever the redacted value holds under a sensitive
    key, up to ten levels down, is the text [[Redacted]]. *)
Theorem redaction_hides v p k w : (length p ≤ 10)%nat → toLowerCase k ∈ SENSITIVE_KEYS →
  value_at (p ++ [Key k]) (redactDeep 0 v) = Some w → w = REDACTED.
Proof.
  intros Hp Hk%includes_true. change (sensitive k = true) in Hk. assert (∀ d v, (d + length p ≤ 10)%nat → value_at (p ++ [Key k]) (redactDeep d v) = Some w → w = REDACTED)
    as Hg; [|by apply Hg].
  clear v Hp. induction p as [|st p IH]; intros d v Hd Hw; cbn [app value_at length] in *.
  - apply bind_Some in Hw as (u & Hu & [= <-]). apply redacted_child in Hu; [|lia].
    destruct Hu as [(? & _ & _ & ->)|(? & _ & Hn)]; [done|]. by rewrite (Hn k eq_refl) in Hk.
  - apply bind_Some in Hw as (u & Hu & Hw). apply redacted_child in Hu; [|lia].
    destruct Hu as [(? & -> & _ & ->)|(u' & -> & _)]; [|apply (IH (S d) u'); [lia|done]].
    by destruct p as [|[|] ?].
Qed.

Lemma redaction_at v p w d : distinct_keys v → (∀ k, Key k ∈ p → sensitive k = false ∧ k ≠ "__proto__") →
  value_at p v = Some w → value_at p (redactDeep d v) = Some (redactDeep (d + length p) w).
Proof.
  intros Hv Hp Hw. revert v Hv Hw d.
  induction p as [|st p IH]; intros v Hv Hw d; cbn [value_at length] in *.
  - injection Hw as ->. by rewrite Nat.add_0_r.
  - apply bind_Some in Hw as (u & Hu & Hw). replace (d + S (length p))%nat with (S d + length p)%nat by lia.
    destruct (decide (d ≤ 10)%nat) as [Hd|Hd].
    2:{ rewrite redact_deep by lia. rewrite Hu. cbn [mbind option_bind]. rewrite Hw. f_equal. rewrite redact_deep by lia. done. }
    assert (∀ k, Key k ∈ p → sensitive k = false ∧ k ≠ "__proto__") as Hp' by (intros k Hk; apply Hp; by right).
    destruct st as [k|i], v as [| |b|n|s|l|fields]; try discriminate Hu; cbn [child] in Hu.
    + rewrite redact_obj by done. cbn [child]. destruct (Hp k) as [Hs Hpr]; [left|]. destruct Hv as [Hnd Hall].
      assert ((k, u) ∈ fields) as Hin by by apply obj_get_Some.
      erewrite assigned; [cbn [mbind option_bind]; apply IH; [done| |exact Hw]| |done|].
      * clear -Hall Hin. induction fields as [|kv f IHf]; [by apply elem_of_nil in Hin|].
        apply elem_of_cons in Hin as [<-|Hin]; [by destruct Hall|by apply IHf; destruct Hall].
      * clear -Hnd. unfold obj_keys in Hnd. induction fields as [|kv f IHf]; [constructor|]. cbn in *.
        apply NoDup_cons in Hnd as [Hn Hnd]. apply NoDup_cons. split; [|by apply IHf]. contradict Hn.
        apply list_elem_of_fmap in Hn as (x & -> & Hx). apply elem_of_List_map in Hx as (y & Hy & ->).
        exact (list_elem_of_fmap_2 fst f y Hy).
      * apply elem_of_List_map. exists (k, u). cbn. by rewrite Hs.
    + rewrite redact_arr by done. cbn [child]. rewrite lookup_List_map, Hu. cbn.
      apply IH; [done| |exact Hw]. apply list_elem_of_lookup_2 in Hu. clear -Hv Hu.
      induction l as [|x l IHl]; [by apply elem_of_nil in Hu|].
      apply elem_of_cons in Hu as [<-|Hu]; [by destruct Hv|by apply IHl; destruct Hv].
Qed.

(** Nothing else is lost: a value reached without a sensitive key is logged
    (redacted itself), and below ten levels it is logged as it is, whatever keys
    it has. *)
Theorem redaction_keeps v p w : distinct_keys v → (∀ k, Key k ∈ p → sensitive k = false ∧ k ≠ "__proto__") →
  value_at p v = Some w →
  value_at p (redactDeep 0 v) = Some (redactDeep (length p) w) ∧ ((10 < length p)%nat → value_at p (redactDeep 0 v) = Some w).
Proof.
  intros Hv Hp Hw. pose proof (redaction_at v p w 0 Hv Hp Hw) as E.
  split; [done|]. intros Hl. rewrite E. by rewrite redact_deep.
Qed.

(** ** Captured bodies *)

Lemma concat_app (l1 l2 : list string) : String.concat "" (l1 ++ l2) = String.concat "" l1 +:+ String.concat "" l2.
Proof.
  assert (∀ x l, String.concat "" (x :: l) = x +:+ String.concat "" l) as Hc.
  { intros x [|y l]; cbn; [by rewrite append_nil_r|done]. }
  induction l1 as [|x l1 IH]; [done|]. cbn [app]. by rewrite !Hc, IH, append_assoc.
Qed.
Definition json_call (call : option string * chunk) (buf : string) : Prop :=
  str_includes (default "" call.1) "application/json" = true ∧ buffer_of call.2 = Some buf.
Definition size (bufs : list string) : Z := Z.of_nat (String.length (String.concat "" bufs)).
Lemma size_nonneg bufs : (0 ≤ size bufs)%Z.
Proof. unfold size. lia. Qed.
Lemma size_app l1 l2 : size (l1 ++ l2) = (size l1 + size l2)%Z.
Proof. unfold size. rewrite concat_app, append_length. lia. Qed.

(** What the calls leave: every chunk while they fit, else those before the
    first that does not. *)
Lemma collected maxBytes calls bufs : Forall2 json_call calls bufs → (0 ≤ maxBytes)%Z →
  let st := foldl (collectChunk maxBytes) nothing_captured calls in
  if (size bufs <=? maxBytes)%Z then chunks st = bufs ∧ truncated st = false
  else truncated st = true ∧ ∃ rest, bufs = chunks st ++ rest ∧ (0 < size rest)%Z.
Proof.
  intros Hc Hm. cbv zeta.
  enough (∀ st, truncated st = false → totalBytes st = size (chunks st) → (totalBytes st ≤ maxBytes)%Z →
    let st' := foldl (collectChunk maxBytes) st calls in
    if (size (chunks st ++ bufs) <=? maxBytes)%Z then chunks st' = chunks st ++ bufs ∧ truncated st' = false
    else truncated st' = true ∧ ∃ rest, chunks st ++ bufs = chunks st' ++ rest ∧ (0 < size rest)%Z) as Hg
    by by apply (Hg nothing_captured).
  induction Hc as [|call buf calls bufs [Hj Hb] Hc IH]; intros st Ht Hs Hle; cbv zeta.
  { rewrite app_nil_r, <- Hs. by rewrite (proj2 (Z.leb_le _ _) Hle). }
  cbn [foldl]. assert (size [buf] = Z.of_nat (String.length buf)) as Hsz by (unfold size; cbn; done).
  unfold collectChunk at 2 4 6 8. rewrite Ht, Hj, Hb. cbn [negb]. rewrite cons_middle, app_assoc.
  pose proof (size_app (chunks st) [buf]) as Hone. rewrite Hsz in Hone.
  destruct (Z.ltb_spec maxBytes (totalBytes st + Z.of_nat (String.length buf))) as [Hlt|Hge].
  - assert (∀ cs t, truncated t = true → foldl (collectChunk maxBytes) t cs = t) as Hstop.
    { intros cs. induction cs as [|c cs IHc]; intros t Htr; [done|]. cbn [foldl].
      replace (collectChunk maxBytes t c) with t by (unfold collectChunk; by rewrite Htr). by apply IHc. }
    rewrite !Hstop by done. cbn [chunks truncated]. rewrite size_app.
    assert (0 ≤ size bufs)%Z by (unfold size; lia).
    rewrite (proj2 (Z.leb_gt _ _)) by lia. split; [done|]. exists ([buf] ++ bufs). rewrite app_assoc.
    split; [done|]. rewrite size_app, Hsz. lia.
  - apply (IH (Capture (chunks st ++ [buf]) (totalBytes st + Z.of_nat (String.length buf)) false)); cbn; [done|lia..].
Qed.

(** A JSON body that fits is logged as parsed; one that does not fit is not
    logged at all, not even the note that it was truncated, because what was
    collected of it does not parse. *)
Theorem body_captured parse isAttachment maxBytes writes last bufs : Forall2 json_call (writes ++ option_list last) bufs →
  (0 ≤ maxBytes)%Z → is_Some (parse (String.concat "" bufs)) →
  (∀ a b, b ≠ "" → String.concat "" bufs = a +:+ b → parse a = None) →
  captureResponseBody parse isAttachment maxBytes writes last =
    if negb isAttachment && (size bufs <=? maxBytes)%Z then parse (String.concat "" bufs) else None.
Proof.
  intros Hc Hm [v Hv] Hp. unfold captureResponseBody. destruct isAttachment; [done|]. cbn [negb andb].
  pose proof (collected maxBytes _ _ Hc Hm) as Hg. cbv zeta in Hg.
  set (st := foldl _ _ _) in *. unfold storeBody. destruct (size bufs <=? maxBytes)%Z.
  - destruct Hg as [-> ->]. by rewrite Hv.
  - destruct Hg as (_ & rest & E & Hr). rewrite (Hp (String.concat "" (chunks st)) (String.concat "" rest)); [done| |].
    + intros E0. unfold size in Hr. rewrite E0 in Hr. cbn in Hr. lia.
    + by rewrite E, concat_app.
Qed.

(** ** What reaches the log *)

(** The level of the log is one pino knows, whatever the configuration says. *)
Theorem level_known LOG_LEVEL moduleName opts : (log_settings LOG_LEVEL moduleName opts).1 ∈ PINO_LEVELS.
Proof.
  cbn. unfold resolveLogLevel. destruct (includes _ _) eqn:E; [by apply includes_true in E|]. right; right; left.
Qed.

(** A request whose URL has [/socket.io/] anywhere, the query included, is
    not logged: a client keeps any request out of the access log. *)
Theorem query_hides_request parse LOG_LEVEL opts traceId uuid req sc err att writes last path before after :
  lr_url req = path +:+ "?" +:+ before +:+ "/socket.io/" +:+ after →
  access_log parse LOG_LEVEL opts traceId uuid req sc err att writes last = None.
Proof.
  intros Hu. unfold access_log. destruct (negb _); [done|].
  assert (shouldIgnore (lr_url req) = true) as ->; [|done]. unfold shouldIgnore.
  rewrite (proj2 (str_includes_true _ _)); [done|]. exists (path +:+ "?" +:+ before), after.
  rewrite Hu, !append_assoc. done.
Qed.

(** The entry of a request that is logged. *)
Lemma logged parse LOG_LEVEL opts traceId uuid req sc err att writes last :
  not_false (enabled opts) = true → shouldIgnore (lr_url req) = false →
  level_enabled (resolveLogLevel LOG_LEVEL (level opts)) (customLogLevel sc err) = true →
  ∃ line, access_log parse LOG_LEVEL opts traceId uuid req sc err att writes last = Some line ∧
    ll_res line = serialize_res (not_false (opt_includeReqBody opts)) (not_false (opt_includeResBody opts)) (js_Z sc) req
      (if not_false (opt_includeResBody opts)
       then captureResponseBody parse att (default 32768%Z (bodyMaxBytes opts)) writes last else None).
Proof. intros He Hi Hl. unfold access_log. rewrite He, Hi, Hl. cbn. by eexists. Qed.

Lemma res_body_at includeReqBody sc req body :
  value_at [Key "body"] (serialize_res includeReqBody true sc req (Some body)) = Some (redactDeep 0 body).
Proof.
  unfold serialize_res, res_base. cbn [value_at child mbind option_bind].
  destruct includeReqBody, (lr_body req), (lr_session req); reflexivity.
Qed.
Lemma res_request_at includeResBody sc req body rb : lr_body req = Some body →
  value_at [Key "req_body"] (serialize_res true includeResBody sc req rb) = Some (redactDeep 0 body).
Proof.
  intros Hb. unfold serialize_res, res_base. rewrite Hb. cbn [optional_field].
  destruct includeResBody, (lr_session req); reflexivity.
Qed.
Lemma value_at_app p q v : value_at (p ++ q) v = value_at p v ≫= value_at q.
Proof. revert v. induction p as [|st p IH]; intros v; [done|]. cbn. destruct (child st v); cbn; [apply IH|done]. Qed.

Lemma obj_get_attributes k data : k ≠ "id" → obj_get k (attributesWithoutId data) = obj_get k data.
Proof.
  intros Hk. induction data as [|[k' v] data IH]; [done|]. cbn. destruct (String.eqb_spec k' "id") as [->|]; cbn [negb].
  - rewrite (proj2 (String.eqb_neq _ _) Hk). exact IH.
  - cbn. destruct (String.eqb k k'); [done|exact IH].
Qed.

(** The passwords of a change-password request are written to the log in clear,
    when its entry is above the log's level: their keys are not in the list. *)
Theorem request_secret_logged parse LOG_LEVEL opts traceId uuid req sc err att writes last body k secret :
  not_false (enabled opts) = true → shouldIgnore (lr_url req) = false →
  level_enabled (resolveLogLevel LOG_LEVEL (level opts)) (customLogLevel sc err) = true → not_false (opt_includeReqBody opts) = true →
  lr_body req = Some body → distinct_keys body → value_at [Key k] body = Some (JStr secret) →
  k ∈ ["current_password"; "new_password"; "confirm_password"] →
  ∃ line, access_log parse LOG_LEVEL opts traceId uuid req sc err att writes last = Some line ∧
    value_at [Key "req_body"; Key k] (ll_res line) = Some (JStr secret).
Proof.
  intros He Hi Hlev Hr Hb Hd Hv Hin.
  assert (sensitive k = false ∧ k ≠ "__proto__") as [Hs Hp]
    by (repeat (apply elem_of_cons in Hin as [->|Hin]; [done|]); by apply elem_of_nil in Hin).
  destruct (logged parse LOG_LEVEL opts traceId uuid req sc err att writes last He Hi Hlev) as (line & E & Hl).
  exists line. split; [done|]. rewrite Hl, Hr, (value_at_app [Key "req_body"] [Key k]), (res_request_at _ _ _ body) by done.
  cbn [mbind option_bind]. rewrite (redaction_at body [Key k] (JStr secret) 0); [done..| |done].
  by intros k' [= ->]%list_elem_of_singleton.
Qed.

(** The attributes of a single object, as they leave the service. *)
Lemma sent_attribute now type sc target data b k secret :
  type ≠ "" → no_clash data → is_pair data "id" = false → k ≠ "id" → pair_of data k = None →
  obj_get k data = Some (JStr secret) →
  global_interceptors now (Some type) sc target (Value (JObj data)) = Body b →
  value_at [Key "data"; Key "attributes"; Key k] b = Some (JStr secret).
Proof.
  intros Hty Hclash Hpid Hid Hpair Hk Hb.
  assert (obj_get k (attributesWithoutId (members (collapseLocalizedFields (JObj data)))) = Some (JStr secret)) as Hattr.
  { rewrite obj_get_attributes by done. destruct (collapse_fields data Hclash) as (o & -> & Hf). cbn [members].
    rewrite Hf, Hpair, Hk. destruct (is_pair data k) eqn:E; [|done]. apply Hclash in E. destruct E.
    apply has_elem. unfold has. by rewrite Hk. }
  destruct type as [|c type]; [done|]. unfold global_interceptors, transform in Hb.
  destruct (sc =? 201)%Z; cbn [localize_body] in Hb.
  - rewrite localize_created in Hb by done. revert Hattr Hb. generalize (members (collapseLocalizedFields (JObj data))).
    intros o Hattr [= <-]. cbn -[attributesWithoutId]. by rewrite Hattr.
  - rewrite localize_wrap_commute in Hb by done. revert Hattr Hb. generalize (members (collapseLocalizedFields (JObj data))).
    intros o Hattr [= <-]. cbn -[attributesWithoutId]. by rewrite Hattr.
Qed.

(** C18: when responses are logged at their level, the [temp_password] of a user
    and the [secret_key] of an access key, the one time they are sent, are written
    to the log in clear with the JSON response that carries them. *)
Theorem response_secret_logged parse LOG_LEVEL opts traceId uuid req sc err writes last now type target data b bufs k secret :
  not_false (enabled opts) = true → shouldIgnore (lr_url req) = false →
  level_enabled (resolveLogLevel LOG_LEVEL (level opts)) (customLogLevel sc err) = true →
  not_false (opt_includeResBody opts) = true →
  k ∈ ["temp_password"; "secret_key"] → obj_get k data = Some (JStr secret) →
  type ≠ "" → no_clash data → is_pair data "id" = false →
  global_interceptors now (Some type) sc target (Value (JObj data)) = Body b → distinct_keys b →
  Forall2 json_call (writes ++ option_list last) bufs → parse (String.concat "" bufs) = Some b →
  (size bufs ≤ default 32768 (bodyMaxBytes opts))%Z →
  ∃ line, access_log parse LOG_LEVEL opts traceId uuid req sc err false writes last = Some line ∧
    value_at [Key "body"; Key "data"; Key "attributes"; Key k] (ll_res line) = Some (JStr secret).
Proof.
  intros He Hi Hlev Hr Hin Hk Hty Hclash Hpid Hb Hd Hcalls Hparse Hsize.
  assert (sensitive k = false ∧ k ≠ "__proto__" ∧ k ≠ "id" ∧ pair_of data k = None) as (Hs & Hp & Hid & Hpair)
    by (repeat (apply elem_of_cons in Hin as [->|Hin]; [done|]); by apply elem_of_nil in Hin).
  assert (captureResponseBody parse false (default 32768%Z (bodyMaxBytes opts)) writes last = Some b) as Hc.
  { assert (0 ≤ default 32768 (bodyMaxBytes opts))%Z as Hm by (pose proof (size_nonneg bufs); lia).
    pose proof (collected _ _ _ Hcalls Hm) as Hg. cbv zeta in Hg. rewrite (proj2 (Z.leb_le _ _) Hsize) in Hg.
    destruct Hg as [Hchunks Htr]. unfold captureResponseBody, storeBody. rewrite Hchunks, Htr. cbn. by rewrite Hparse. }
  destruct (logged parse LOG_LEVEL opts traceId uuid req sc err false writes last He Hi Hlev) as (line & E & Hl).
  exists line. split; [done|].
  rewrite Hl, Hr, Hc, (value_at_app [Key "body"] [Key "data"; Key "attributes"; Key k]), res_body_at. cbn [mbind option_bind].
  rewrite (redaction_at b _ (JStr secret) 0); [done..| |].
  - intros k' Hk'. repeat (apply elem_of_cons in Hk' as [[= ->]|Hk']; [by split|]). by apply elem_of_nil in Hk'.
  - by apply (sent_attribute now type sc target data).
Qed.

(** ** Samples and witnesses *)
Module LogSample.
(** Two texts and what they parse to. *)
Definition reset_target : http_target := Target (Some "https") (Some "erp") (Some "/iam/v1/users/u1/reset-password").
Definition user_secret : list (string * jsv) := [("id", JStr "u1"); ("temp_password", JStr "Xk4!pQ9#mZ2w")].
Definition reset_body : jsv :=
  match global_interceptors "now" (Some "users") 200 reset_target (Value (JObj user_secret)) with Body v => v | _ => JNull end.
Lemma secret_no_clash : no_clash user_secret.
Proof.
  intros base Hpair Hin. repeat (apply elem_of_cons in Hin as [->|Hin]; [discriminate Hpair|]). by apply elem_of_nil in Hin.
Qed.
Definition parse (text : string) : option jsv :=
  if String.eqb text "<reset>" then Some reset_body else if String.eqb text "{}" then Some (JObj []) else None.
Definition options : HttpLoggingOptions := LoggingOptions None None None None None None.
Definition request (url : string) (body : option jsv) : logged_request :=
  LoggedRequest "POST" url [("authorization", JStr "Bearer x")] None body None.
Definition json_write (s : string) : option string * chunk := (Some "application/json; charset=utf-8", Text s).
Lemma proper_prefix a b : b ≠ "" → "{}" = a +:+ b → parse a = None.
Proof.
  intros Hb. destruct a as [|c [|d a]]; [done| |].
  - rewrite append_cons. by intros [= <- _].
  - rewrite !append_cons. intros [= _ _ E]. destruct a; [by destruct b|discriminate E].
Qed.
End LogSample.

Lemma redaction_hides_witness :
  value_at [Index 0; Key "Token"] (redactDeep 0 (JArr [JObj [("Token", JStr "x")]])) = Some REDACTED.
Proof.
  destruct (value_at [Index 0; Key "Token"] (redactDeep 0 (JArr [JObj [("Token", JStr "x")]]))) as [w|] eqn:E.
  - f_equal. apply (redaction_hides (JArr [JObj [("Token", JStr "x")]]) [Index 0] "Token" w); [cbn; lia|right; left|exact E].
  - discriminate E.
Defined.

Lemma redaction_keeps_witness :
  value_at [Key "a"; Index 0] (redactDeep 0 (JObj [("a", JArr [JObj [("secret", JNull)]])]))
  = Some (JObj [("secret", REDACTED)]).
Proof.
  destruct (redaction_keeps (JObj [("a", JArr [JObj [("secret", JNull)]])]) [Key "a"; Index 0] (JObj [("secret", JNull)]))
    as [E _].
  - repeat split; try exact I; (apply (bool_decide_unpack _); exact I).
  - intros k Hk. repeat (apply elem_of_cons in Hk as [Hk|Hk]; [injection Hk as -> || discriminate Hk; by split|]).
    by apply elem_of_nil in Hk.
  - reflexivity.
  - rewrite E. reflexivity.
Defined.

Lemma body_captured_witness :
  captureResponseBody LogSample.parse false 10 [LogSample.json_write "{"] (Some (LogSample.json_write "}")) = Some (JObj []) ∧
  captureResponseBody LogSample.parse false 1 [LogSample.json_write "{"] (Some (LogSample.json_write "}")) = None.
Proof.
  split.
  - rewrite (body_captured LogSample.parse false 10 [LogSample.json_write "{"] (Some (LogSample.json_write "}")) ["{"; "}"]);
      [reflexivity|repeat constructor|lia|by eexists|exact LogSample.proper_prefix].
  - rewrite (body_captured LogSample.parse false 1 [LogSample.json_write "{"] (Some (LogSample.json_write "}")) ["{"; "}"]);
      [reflexivity|repeat constructor|lia|by eexists|exact LogSample.proper_prefix].
Defined.

Lemma query_hides_request_witness :
  access_log LogSample.parse None LogSample.options None "id" (LogSample.request "/auth/v1/auth/login?x=/socket.io/" None)
    401 false false [] None = None.
Proof.
  exact (query_hides_request LogSample.parse None LogSample.options None "id"
    (LogSample.request "/auth/v1/auth/login?x=/socket.io/" None) 401 false false [] None
    "/auth/v1/auth/login" "x=" "" eq_refl).
Defined.

Lemma request_secret_logged_witness : ∃ line,
  access_log LogSample.parse None LogSample.options None "id" (LogSample.request "/auth/v1/auth/change-password"
    (Some (JObj [("current_password", JStr "old-secret"); ("new_password", JStr "new-secret")]))) 204 false false [] None
  = Some line ∧
  value_at [Key "req_body"; Key "new_password"] (ll_res line) = Some (JStr "new-secret").
Proof.
  apply (request_secret_logged LogSample.parse None LogSample.options None "id" (LogSample.request "/auth/v1/auth/change-password"
    (Some (JObj [("current_password", JStr "old-secret"); ("new_password", JStr "new-secret")]))) 204 false false [] None
    (JObj [("current_password", JStr "old-secret"); ("new_password", JStr "new-secret")]) "new_password" "new-secret").
  all: try reflexivity.
  - repeat split; try exact I; (apply (bool_decide_unpack _); exact I).
  - apply (bool_decide_unpack _); exact I.
Defined.

Lemma response_secret_logged_witness : ∃ line,
  access_log LogSample.parse None LogSample.options None "id" (LogSample.request "/iam/v1/users/u1/reset-password" None)
    200 false false [] (Some (LogSample.json_write "<reset>")) = Some line ∧
  value_at [Key "body"; Key "data"; Key "attributes"; Key "temp_password"] (ll_res line) = Some (JStr "Xk4!pQ9#mZ2w").
Proof.
  apply (response_secret_logged LogSample.parse None LogSample.options None "id"
    (LogSample.request "/iam/v1/users/u1/reset-password" None) 200 false [] (Some (LogSample.json_write "<reset>"))
    "now" "users" LogSample.reset_target LogSample.user_secret LogSample.reset_body ["<reset>"] "temp_password" "Xk4!pQ9#mZ2w").
  all: try reflexivity; try done.
  - apply (bool_decide_unpack _); exact I.
  - exact LogSample.secret_no_clash.
  - repeat split; try exact I; (apply (bool_decide_unpack _); exact I).
  - repeat constructor.
Defined.
