(* ===== verification/Shutdown.v ===== *)
(** * Graceful shutdown

    The process of one service as a state machine: GracefulShutdownService
    (src/libs/common/src/services/graceful-shutdown.service.ts) with the health
    routes of bootstrap.util.ts that read its flag.  Its handlers are functions
    on the state; the steps around them are those of Node's http server (a
    connection is kept alive between requests, [close] ends the idle ones and
    waits for the others, a signal without listener ends the process) and of
    Nest's shutdown sequence, as documented.  Times are in milliseconds. *)

From S2P Require Import Prelude JsString JsValues RpcErrors.
#[local] Open Scope string_scope.
#[local] Open Scope Z_scope.
#[local] Open Scope list_scope.

(** ** State *)

Inductive signal := SIGTERM | SIGINT.
#[export] Instance signal_eq : EqDecision signal.
Proof. solve_decision. Defined.
(** [app.close()]: the destroy hooks run while requests are still accepted, then
    the http server closes, then the last hooks run, then Nest sends the signal
    again. *)
Inductive phase := Serving | Destroying (s : signal) | HttpClosing (s : signal) | Disposed (s : signal) | Rekill (s : signal)
  | Exited (code : option Z).
#[export] Instance phase_eq : EqDecision phase.
Proof. solve_decision. Defined.
Record process := Process {
  shuttingDown : bool; forceExitTimer : option Z; clock : Z;
  (** the signals for which [process.once] listens *)
  once : list signal;
  phase_of : phase;
  (** the open connections, and whether a request is being served on them *)
  connections : gmap nat bool;
}.
Implicit Types (p : process).

Definition DEFAULT_SHUTDOWN_TIMEOUT_MS : Z := 30000.

(** ** The service *)

Definition isShuttingDown p : bool := shuttingDown p.
Definition registerSignalHandlers : process := Process false None 0 [SIGTERM; SIGINT] Serving ∅.
(** [beginShutdown]; the timer is due [shutdownTimeoutMs] later. *)
Definition beginShutdown (shutdownTimeoutMs : option Z) p : process :=
  if shuttingDown p then p
  else Process true (Some (clock p + default DEFAULT_SHUTDOWN_TIMEOUT_MS shutdownTimeoutMs)) (clock p) (once p)
         (phase_of p) (connections p).
(** A signal: the once-listener, if it is still there, and Nest's listener, which
    starts [app.close()] the first time. *)
Definition on_signal (shutdownTimeoutMs : option Z) (s : signal) p : process :=
  let p1 := if decide (s ∈ once p) then
              beginShutdown shutdownTimeoutMs
                (Process (shuttingDown p) (forceExitTimer p) (clock p) (List.filter (λ x, negb (bool_decide (x = s))) (once p))
                   (phase_of p) (connections p))
            else p in
  match phase_of p1 with
  | Serving => Process (shuttingDown p1) (forceExitTimer p1) (clock p1) (once p1) (Destroying s) (connections p1)
  | _ => p1
  end.
Definition with_connections p (cs : gmap nat bool) : process :=
  Process (shuttingDown p) (forceExitTimer p) (clock p) (once p) (phase_of p) cs.
(** The ['finish'] listener of a response: its socket is destroyed during a
    shutdown, and kept alive otherwise. *)
Definition on_finish (c : nat) p : process :=
  with_connections p (if shuttingDown p then delete c (connections p) else <[c := false]> (connections p)).
(** [onApplicationShutdown]: the tracing is flushed, the timer cleared. *)
Definition onApplicationShutdown (s : signal) p : process :=
  Process (shuttingDown p) None (clock p) (once p) (Rekill s) (connections p).
Definition force_exit p : process :=
  Process (shuttingDown p) (forceExitTimer p) (clock p) (once p) (Exited (Some 1)) (connections p).

(** ** The health routes *)

Definition resolveAppVersion (APP_VERSION : option string) : string :=
  match truthy APP_VERSION with Some v => v | None => "local" end.
Definition health (moduleName version environment now : string) : Z * jsv :=
  (200, JObj [("status", JStr "ok"); ("message", JStr ("Service " +:+ moduleName +:+ " is running"));
              ("version", JStr version); ("environment", JStr environment); ("timestamp", JStr now)]).
Definition ready (moduleName now : string) p : Z * jsv :=
  if isShuttingDown p
  then (503, JObj [("status", JStr "shutting_down");
                   ("message", JStr ("Service " +:+ moduleName +:+ " is draining connections")); ("timestamp", JStr now)])
  else (200, JObj [("status", JStr "ready"); ("message", JStr ("Service " +:+ moduleName +:+ " is ready"));
                   ("timestamp", JStr now)]).

(** ** Closing the http server *)

(** Fastify's option, as [bootstrapApplication] sets it for every service.  With
    its default, ['idle'], and no server factory of the application's own,
    Fastify destroys every connection, as with [true]; with [false] that is left
    to Node's server, which ends the idle ones and waits for the others. *)
Inductive force_close := CloseAll | CloseIdle | CloseNone.
Definition forceCloseConnections : force_close := CloseNone.
Definition kept_on_close (setting : force_close) (cs : gmap nat bool) : gmap nat bool :=
  match setting with
  | CloseAll | CloseIdle => ∅
  | CloseNone => filter (λ x : nat * bool, x.2 = true) cs
  end.

(** ** Steps *)

Definition to_phase (ph : phase) p : process :=
  Process (shuttingDown p) (forceExitTimer p) (clock p) (once p) ph (connections p).
Definition accepting p : Prop := match phase_of p with Serving | Destroying _ => True | _ => False end.
Definition running p : Prop := match phase_of p with Exited _ => False | _ => True end.

Section steps.
Context (shutdownTimeoutMs : option Z).

Inductive event :=
  | Connect (c : nat) | Request (c : nat) | Finish (c : nat) | Leave (c : nat) | Signal (s : signal) | Wait (n : Z)
  | CloseHttp | HttpClosed | Shutdown | Kill | Timeout.

(** [Leave c]: the client closes an idle connection. *)
Inductive step : process → event → process → Prop :=
  | step_connect p c : accepting p → connections p !! c = None → step p (Connect c) (with_connections p (<[c := false]> (connections p)))
  | step_request p c : running p → connections p !! c = Some false →
      step p (Request c) (with_connections p (<[c := true]> (connections p)))
  | step_finish p c : running p → connections p !! c = Some true → step p (Finish c) (on_finish c p)
  | step_leave p c : running p → connections p !! c = Some false → step p (Leave c) (with_connections p (delete c (connections p)))
  | step_signal p s : running p → (∀ k, phase_of p ≠ Rekill k) → step p (Signal s) (on_signal shutdownTimeoutMs s p)
  | step_wait p n : running p → 0 < n →
      step p (Wait n) (Process (shuttingDown p) (forceExitTimer p) (clock p + n) (once p) (phase_of p) (connections p))
  | step_close p s : phase_of p = Destroying s →
      step p CloseHttp (to_phase (HttpClosing s) (with_connections p (kept_on_close forceCloseConnections (connections p))))
  | step_closed p s : phase_of p = HttpClosing s → connections p = ∅ → step p HttpClosed (to_phase (Disposed s) p)
  | step_shutdown p s : phase_of p = Disposed s → step p Shutdown (onApplicationShutdown s p)
  | step_kill p s : phase_of p = Rekill s → s ∉ once p → step p Kill (to_phase (Exited None) p)
  | step_timeout p d : running p → forceExitTimer p = Some d → d ≤ clock p → step p Timeout (force_exit p).

Inductive steps : process → list event → process → Prop :=
  | steps_nil p : steps p [] p
  | steps_cons p e p1 es p2 : step p e p1 → steps p1 es p2 → steps p (e :: es) p2.
Definition reachable p : Prop := ∃ es, steps registerSignalHandlers es p.
End steps.

(** ** Properties *)
Section laws.
Context (shutdownTimeoutMs : option Z).
Abbreviation step := (step shutdownTimeoutMs).
Abbreviation steps := (steps shutdownTimeoutMs).
Abbreviation reachable := (reachable shutdownTimeoutMs).

Definition draining (s : signal) p : Prop := shuttingDown p = true ∧ (s ∉ once p) ∧ is_Some (forceExitTimer p).
Definition shutdown_ok p : Prop :=
  match phase_of p with
  | Serving => shuttingDown p = false ∧ forceExitTimer p = None ∧ once p = [SIGTERM; SIGINT]
  | Destroying s => draining s p
  | HttpClosing s => draining s p ∧ ∀ c b, connections p !! c = Some b → b = true
  | Disposed s => draining s p ∧ connections p = ∅
  | Rekill s => shuttingDown p = true ∧ (s ∉ once p) ∧ forceExitTimer p = None ∧ connections p = ∅
  | Exited (Some n) => shuttingDown p = true ∧ n = 1 ∧ ∃ d, forceExitTimer p = Some d ∧ d ≤ clock p
  | Exited None => shuttingDown p = true ∧ connections p = ∅
  end.

Lemma kept_once (s k : signal) (l : list signal) : k ∉ l → k ∉ List.filter (λ x, negb (bool_decide (x = s))) l.
Proof. intros Hk Hin. apply list_elem_of_In, filter_In in Hin as [Hin _]. by apply list_elem_of_In in Hin. Qed.
Lemma removed_once (s : signal) (l : list signal) : s ∉ List.filter (λ x, negb (bool_decide (x = s))) l.
Proof. intros Hin. apply list_elem_of_In, filter_In in Hin as [_ Hs]. by rewrite bool_decide_true in Hs. Qed.

(** The first signal starts the shutdown; a later one changes only what listens. *)
Lemma first_signal s p : phase_of p = Serving → shutdown_ok p →
  on_signal shutdownTimeoutMs s p =
    Process true (Some (clock p + default DEFAULT_SHUTDOWN_TIMEOUT_MS shutdownTimeoutMs)) (clock p)
      (List.filter (λ x, negb (bool_decide (x = s))) (once p)) (Destroying s) (connections p).
Proof.
  intros Hp Hok. unfold shutdown_ok in Hok. rewrite Hp in Hok. destruct Hok as (Hs & Ht & Ho). unfold on_signal.
  rewrite Ho, decide_True by (destruct s; [left|right; left]). unfold beginShutdown. cbn. by rewrite Hs, Hp.
Qed.
Lemma later_signal s p : phase_of p ≠ Serving → shuttingDown p = true →
  ∃ l, (∀ k, k ∉ once p → k ∉ l) ∧
    on_signal shutdownTimeoutMs s p = Process true (forceExitTimer p) (clock p) l (phase_of p) (connections p).
Proof.
  intros Hp Hs. unfold on_signal, beginShutdown. destruct (decide (s ∈ once p)) as [Hin|Hin]; cbn; rewrite ?Hs; cbn.
  - exists (List.filter (λ x, negb (bool_decide (x = s))) (once p)). split; [intros k; apply kept_once|].
    by destruct (phase_of p).
  - exists (once p). split; [done|]. destruct p as [f t c o ph cs]; cbn in *. subst f. by destruct ph.
Qed.

Lemma shutdown_ok_flag p : shutdown_ok p → phase_of p ≠ Serving → shuttingDown p = true.
Proof.
  unfold shutdown_ok, draining. destruct (phase_of p) as [|s|s|s|s|[n|]]; intros Hok Hp; try done; tauto.
Qed.

(** No connection is left, so the given one is not open. *)
Ltac none_open :=
  exfalso; destruct_and?;
  match goal with He : connections ?p = ∅, Hc : connections ?p !! _ = Some _ |- _ => by rewrite He in Hc end.
Lemma step_ok p e p' : shutdown_ok p → step p e p' → shutdown_ok p'.
Proof.
  intros Hok Hst. destruct Hst as [p c Ha Hc|p c Hr Hc|p c Hr Hc|p c Hr Hc|p s Hr Hk|p n Hr Hn|p s Hp|p s Hp He|p s Hp|p s Hp Ho|p d Hr Ht Hd];
    unfold accepting, running in *.
  - unfold shutdown_ok, draining in *. cbn. by destruct (phase_of p).
  - unfold shutdown_ok, draining in *. cbn. destruct (phase_of p) as [|s|s|s|s|]; try done; [|none_open..].
    destruct Hok as [Hd Hb]. by specialize (Hb _ _ Hc).
  - unfold shutdown_ok, draining, on_finish in *. cbn. destruct (phase_of p) as [|s|s|s|s|]; try done; [|none_open..].
    destruct Hok as [Hd Hb]. split; [done|]. rewrite (proj1 Hd). intros c' b [_ Hl]%lookup_delete_Some. by apply (Hb c').
  - unfold shutdown_ok, draining in *. cbn. destruct (phase_of p) as [|s|s|s|s|]; try done; [|none_open..].
    destruct Hok as [Hd Hb]. by specialize (Hb _ _ Hc).
  - destruct (decide (phase_of p = Serving)) as [Hp|Hp].
    + rewrite first_signal by done. unfold shutdown_ok, draining. cbn. split; [done|]. split; [apply removed_once|by eexists].
    + destruct (later_signal s p Hp (shutdown_ok_flag _ Hok Hp)) as (l & Hl & ->). unfold shutdown_ok, draining in *. cbn.
      destruct (phase_of p); naive_solver.
  - unfold shutdown_ok, draining in *. cbn. by destruct (phase_of p).
  - unfold shutdown_ok, draining in *. rewrite Hp in Hok. cbn. split; [done|].
    intros c b Hl. by apply map_lookup_filter_Some in Hl as [_ ?].
  - unfold shutdown_ok, draining in *. rewrite Hp in Hok. cbn. naive_solver.
  - unfold shutdown_ok, draining in *. rewrite Hp in Hok. cbn. naive_solver.
  - unfold shutdown_ok, draining in *. rewrite Hp in Hok. cbn. naive_solver.
  - assert (phase_of p ≠ Serving) as Hp by (intros Hp; unfold shutdown_ok in Hok; rewrite Hp, Ht in Hok; by destruct Hok as (_ & ? & _)).
    pose proof (shutdown_ok_flag _ Hok Hp). unfold shutdown_ok. cbn. split; [done|]. split; [done|]. by exists d.
Qed.
Lemma steps_ok p es p' : shutdown_ok p → steps p es p' → shutdown_ok p'.
Proof. intros Hok Hs. induction Hs as [p|p e p1 es p2 Hst Hs IH]; [done|]. apply IH. by apply (step_ok p e). Qed.

(** Whatever the order of requests, signals and the steps of the shutdown:
    once the http server closes only connections with a request in flight are
    left; the process ends itself only when none is left, with the signal's
    default disposition; and it is forced to exit only by the timer. *)
Theorem shutdown_invariant p : reachable p → shutdown_ok p.
Proof. intros [es Hs]. by apply (steps_ok registerSignalHandlers es). Qed.

(** *** Draining *)

Lemma steps_app p es1 p1 es2 p2 : steps p es1 p1 → steps p1 es2 p2 → steps p (es1 ++ es2) p2.
Proof. induction 1 as [p|p e p1 es p1' Hst Hs IH]; [done|]. intros H2. apply (steps_cons _ p e p1); auto. Qed.
Lemma steps_one p e p' : step p e p' → steps p [e] p'.
Proof. intros Hst. apply (steps_cons _ p e p'); [done|constructor]. Qed.

(** The requests in flight. *)
Definition in_flight p : gset nat := dom (filter (λ x : nat * bool, x.2 = true) (connections p)).
Lemma in_flight_spec p c : c ∈ in_flight p ↔ connections p !! c = Some true.
Proof.
  unfold in_flight. rewrite elem_of_dom. split.
  - intros [b Hb]. apply map_lookup_filter_Some in Hb as [Hb Ht]. cbn in Ht. by subst.
  - intros Hc. exists true. by apply map_lookup_filter_Some.
Qed.

(** The http server closes when every request in flight has finished. *)
Lemma finish_all s p : shutdown_ok p → phase_of p = HttpClosing s →
  ∃ es p', steps p es p' ∧ phase_of p' = Disposed s ∧ shutdown_ok p' ∧ (length es ≤ size (connections p) + 1)%nat ∧
    ∀ e, e ∈ es → e = HttpClosed ∨ ∃ c, e = Finish c.
Proof.
  remember (size (connections p)) as n eqn:Hn. revert p Hn. induction n as [|n IH]; intros p Hn Hok Hp.
  - exists [HttpClosed], (to_phase (Disposed s) p). assert (step p HttpClosed (to_phase (Disposed s) p)) as Hst
      by (constructor; [done|by apply map_size_empty_inv]).
    split; [by apply steps_one|]. split; [done|]. split; [by apply (step_ok p HttpClosed)|]. split; [cbn; lia|].
    intros e ->%list_elem_of_singleton. by left.
  - destruct (map_choose (connections p)) as (c & b & Hc); [intros E; by rewrite E, map_size_empty in Hn|].
    assert (b = true) as -> by (unfold shutdown_ok in Hok; rewrite Hp in Hok; destruct Hok as [_ Hb]; by apply (Hb c)).
    assert (step p (Finish c) (on_finish c p)) as Hst by (constructor; [unfold running; by rewrite Hp|done]).
    assert (shuttingDown p = true) as Hs by (apply shutdown_ok_flag; [done|by rewrite Hp]).
    destruct (IH (on_finish c p)) as (es & p' & Hes & Hp' & Hok' & Hlen & Hev); [|by apply (step_ok p (Finish c))|done|].
    + unfold on_finish. cbn. rewrite Hs, map_size_delete_Some by by eexists. lia.
    + exists (Finish c :: es), p'. split; [by apply (steps_cons _ p _ (on_finish c p))|]. repeat (split; [done|]).
      split; [cbn; lia|]. intros e [->|He]%elem_of_cons; [right; by exists c|by apply Hev].
Qed.
Lemma exit_disposed s p : shutdown_ok p → phase_of p = Disposed s →
  ∃ p', steps p [Shutdown; Kill] p' ∧ phase_of p' = Exited None.
Proof.
  intros Hok Hp. unfold shutdown_ok, draining in Hok. rewrite Hp in Hok. destruct Hok as [(_ & Ho & _) _].
  exists (to_phase (Exited None) (onApplicationShutdown s p)). split; [|done].
  apply (steps_cons _ p _ (onApplicationShutdown s p)); [by constructor|]. apply steps_one. by apply (step_kill _ _ s).
Qed.

Definition shutdown_event (e : event) : Prop :=
  match e with CloseHttp | HttpClosed | Shutdown | Kill | Finish _ => True | _ => False end.

(** C22: A shutdown never hangs: from every state it can be in, the responses of
    the requests in flight and the steps of the shutdown itself, at most as many
    as there are connections and four, bring the process to its end by the signal. *)
Theorem shutdown_drains p : reachable p → phase_of p ≠ Serving → running p →
  ∃ es p', steps p es p' ∧ phase_of p' = Exited None ∧ (length es ≤ size (connections p) + 4)%nat ∧
    ∀ e, e ∈ es → shutdown_event e.
Proof.
  intros [es0 Hr] Hp Hrun. pose proof (steps_ok _ _ _ (conj eq_refl (conj eq_refl eq_refl) : shutdown_ok registerSignalHandlers) Hr) as Hok.
  assert (∀ s p, shutdown_ok p → phase_of p = HttpClosing s → ∃ es p', steps p es p' ∧ phase_of p' = Exited None ∧
    (length es ≤ size (connections p) + 3)%nat ∧ ∀ e, e ∈ es → shutdown_event e) as Hclosing.
  { clear. intros s p Hok Hp. destruct (finish_all s p Hok Hp) as (es & p1 & Hs & Hp1 & Hok1 & Hlen & Hev).
    destruct (exit_disposed s p1 Hok1 Hp1) as (p2 & Hs2 & Hp2). exists (es ++ [Shutdown; Kill]), p2.
    split; [by apply (steps_app _ _ p1)|]. split; [done|]. split; [rewrite length_app; cbn; lia|].
    intros e [He|He]%elem_of_app; [by destruct (Hev e He) as [->|[c ->]]|].
    by repeat (apply elem_of_cons in He as [->|He]; [done|]); apply elem_of_nil in He. }
  unfold running in Hrun. destruct (phase_of p) as [|s|s|s|s|] eqn:E; try done.
  - pose (p1 := to_phase (HttpClosing s) (with_connections p (filter (λ x : nat * bool, x.2 = true) (connections p)))).
    assert (step p CloseHttp p1) as Hst by by constructor.
    destruct (Hclosing s p1) as (es & p2 & Hs & Hp2 & Hlen & Hev); [by apply (step_ok p CloseHttp)|done|].
    exists (CloseHttp :: es), p2. split; [by apply (steps_cons _ p _ p1)|]. split; [done|]. split.
    + cbn. pose proof (map_size_filter (λ x : nat * bool, x.2 = true) (connections p)) as Hsz. cbn in Hlen. lia.
    + intros e [->|He]%elem_of_cons; [done|by apply Hev].
  - destruct (Hclosing s p Hok E) as (es & p2 & Hs & Hp2 & Hlen & Hev). exists es, p2. repeat (split; [done|]). split; [lia|done].
  - destruct (exit_disposed s p Hok E) as (p2 & Hs & Hp2). exists [Shutdown; Kill], p2. split; [done|]. split; [done|].
    split; [cbn; lia|]. intros e He. by repeat (apply elem_of_cons in He as [->|He]; [done|]); apply elem_of_nil in He.
  - exists [Kill], (to_phase (Exited None) p). unfold shutdown_ok in Hok. rewrite E in Hok.
    split; [apply steps_one; apply (step_kill _ _ s); tauto|]. split; [done|]. split; [cbn; lia|].
    intros e ->%list_elem_of_singleton. done.
Qed.

(** *** Requests *)

(** A request in flight goes on until its response finishes or the process ends. *)
Lemma in_flight_step p e p' c : step p e p' → c ∈ in_flight p → e = Finish c ∨ c ∈ in_flight p'.
Proof.
  rewrite !in_flight_spec. intros Hst Hc.
  destruct Hst as [p k Ha Hk|p k Hr Hk|p k Hr Hk|p k Hr Hk|p s Hr Hk|p n Hr Hn|p s Hp|p s Hp He|p s Hp|p s Hp Ho|p d Hr Ht Hd];
    try (by right); cbn.
  - right. rewrite lookup_insert_ne; [done|]. intros ->. by rewrite Hk in Hc.
  - right. destruct (decide (k = c)) as [->|Hne]; [by rewrite lookup_insert_eq|by rewrite lookup_insert_ne].
  - destruct (decide (k = c)) as [->|Hne]; [by left|]. right. destruct (shuttingDown p);
      [by rewrite lookup_delete_ne|by rewrite lookup_insert_ne].
  - right. rewrite lookup_delete_ne; [done|]. intros ->. by rewrite Hk in Hc.
  - right. unfold on_signal, beginShutdown. destruct (decide _); cbn; [destruct (shuttingDown p); cbn|]; by destruct (phase_of p).
  - right. by apply map_lookup_filter_Some.
Qed.

(** Only the timer ends the process with a code of its own. *)
Lemma exit_step p e p' n : running p → step p e p' → phase_of p' = Exited (Some n) → e = Timeout.
Proof.
  intros Hrun Hst Hp'.
  destruct Hst as [p k Ha Hk|p k Hr Hk|p k Hr Hk|p k Hr Hk|p s Hr Hk|p n' Hr Hn|p s Hp|p s Hp He|p s Hp|p s Hp Ho|p d Hr Ht Hd];
    cbn in Hp'; unfold running in *; try (by rewrite Hp' in *); try done.
  exfalso. unfold on_signal, beginShutdown in Hp'.
  destruct (decide (s ∈ once p)); [destruct (shuttingDown p) eqn:Es; cbn in Hp'; rewrite ?Es in Hp'; cbn in Hp'|];
    destruct (phase_of p) eqn:E; cbn in Hp'; try rewrite E in Hp'; done.
Qed.
Lemma running_before p e p' : step p e p' → running p.
Proof.
  intros Hst. unfold running. destruct Hst as [p k Ha Hk|p k Hr Hk|p k Hr Hk|p k Hr Hk|p s Hr Hk|p n' Hr Hn|p s Hp|p s Hp He|p s Hp|p s Hp Ho|p d Hr Ht Hd];
    try done; try (by rewrite Hp). unfold accepting in Ha. by destruct (phase_of p).
Qed.
Lemma ended_by p es p' n : steps p es p' → running p → phase_of p' = Exited (Some n) → Timeout ∈ es.
Proof.
  intros Hs. induction Hs as [p|p e p1 es p2 Hst Hs IH]; intros Hrun Hp'; [by unfold running in Hrun; rewrite Hp' in Hrun|].
  apply elem_of_cons. destruct (phase_of p1) as [|s|s|s|s|[m|]] eqn:E;
    try (right; apply IH; [unfold running; by rewrite E|done]).
  - left. symmetry. by apply (exit_step p e p1 m).
  - exfalso. destruct Hs as [p1|p1 e1 p3 es p2 Hst1 _]; [congruence|].
    apply running_before in Hst1. unfold running in Hst1. by rewrite E in Hst1.
Qed.

(** C29: the setting [forceCloseConnections] of the adapter and the handlers of
    the signals together: however a process ends, unless the timer ends it, it
    has cut no request off.  Every request that was in flight has got its whole
    response before the end. *)
Theorem no_request_cut p es p' c : reachable p → running p → steps p es p' → ¬ running p' → Timeout ∉ es →
  c ∈ in_flight p → Finish c ∈ es.
Proof.
  intros [es0 Hr] Hrun Hs Hend Hno Hc. pose proof (steps_ok _ _ _ (conj eq_refl (conj eq_refl eq_refl) : shutdown_ok registerSignalHandlers) Hr) as Hok.
  pose proof (steps_ok _ _ _ Hok Hs) as Hok'.
  assert (phase_of p' = Exited None) as Hp'.
  { unfold running in Hend. destruct (phase_of p') as [|s|s|s|s|[n|]] eqn:E; try done.
    destruct Hno. by apply (ended_by p es p' n). }
  clear Hr es0 Hok Hrun Hend Hno. induction Hs as [p|p e p1 es p2 Hst Hs IH].
  - unfold shutdown_ok in Hok'. rewrite Hp' in Hok'. apply in_flight_spec in Hc. destruct Hok' as [_ E]. by rewrite E in Hc.
  - destruct (in_flight_step p e p1 c Hst Hc) as [->|Hc1]; [left|right; by apply IH].
Qed.

(** Once the http server closes nothing new starts: a step finishes a request in
    flight or leaves the connections as they are. *)
Theorem closing_only_drains p s e p' : reachable p → phase_of p = HttpClosing s → step p e p' →
  (∃ c, e = Finish c ∧ connections p' = delete c (connections p)) ∨
  ((∀ c, e ≠ Request c ∧ e ≠ Connect c ∧ e ≠ Leave c) ∧ connections p' = connections p).
Proof.
  intros [es0 Hr] Hp Hst. pose proof (steps_ok _ _ _ (conj eq_refl (conj eq_refl eq_refl) : shutdown_ok registerSignalHandlers) Hr) as Hok.
  pose proof (shutdown_ok_flag _ Hok ltac:(by rewrite Hp)) as Hflag.
  unfold shutdown_ok in Hok. rewrite Hp in Hok. destruct Hok as [_ Hb].
  destruct Hst as [p k Ha Hk|p k Hr' Hk|p k Hr' Hk|p k Hr' Hk|p k Hr' Hk|p n Hr' Hn|p k Hk|p k Hk He|p k Hk|p k Hk Ho|p d Hr' Ht Hd];
    try (by rewrite Hp in Hk); try (right; by split).
  - unfold accepting in Ha. by rewrite Hp in Ha.
  - by specialize (Hb _ _ Hk).
  - left. exists k. split; [done|]. cbn. by rewrite Hflag.
  - by specialize (Hb _ _ Hk).
  - right. split; [done|]. destruct (later_signal k p) as (l & _ & ->); [by rewrite Hp|done|done].
Qed.

(** *** The timer and the readiness route *)

Lemma timer_step p e p' d0 : shutdown_ok p → step p e p' → d0 ≤ clock p + default DEFAULT_SHUTDOWN_TIMEOUT_MS shutdownTimeoutMs →
  (∀ d, forceExitTimer p = Some d → d0 ≤ d) → clock p ≤ clock p' ∧ ∀ d, forceExitTimer p' = Some d → d0 ≤ d.
Proof.
  intros Hok Hst Hd0 Ht.
  destruct Hst as [p k Ha Hk|p k Hr' Hk|p k Hr' Hk|p k Hr' Hk|p s Hr' Hk|p n Hr' Hn|p k Hk|p k Hk He|p k Hk|p k Hk Ho|p d Hr' Ht' Hd];
    try (by split; [cbn; lia|]).
  destruct (decide (phase_of p = Serving)) as [Hp|Hp].
  - rewrite first_signal by done. cbn. split; [lia|]. by intros d [= <-].
  - destruct (later_signal s p Hp (shutdown_ok_flag _ Hok Hp)) as (l & _ & ->). by split; [cbn; lia|].
Qed.

(** The process is forced to exit, with code 1, no earlier than the timeout
    after the signal; from then on it can be. *)
Theorem forced_exit_late p es p' n : reachable p → phase_of p = Serving → steps p es p' → phase_of p' = Exited (Some n) →
  n = 1 ∧ clock p + default DEFAULT_SHUTDOWN_TIMEOUT_MS shutdownTimeoutMs ≤ clock p'.
Proof.
  intros [es0 Hr] Hp Hs Hp'. pose proof (steps_ok _ _ _ (conj eq_refl (conj eq_refl eq_refl) : shutdown_ok registerSignalHandlers) Hr) as Hok.
  assert (∀ d, forceExitTimer p = Some d → clock p + default DEFAULT_SHUTDOWN_TIMEOUT_MS shutdownTimeoutMs ≤ d) as Ht.
  { unfold shutdown_ok in Hok. rewrite Hp in Hok. destruct Hok as (_ & -> & _). done. }
  pose proof (steps_ok _ _ _ Hok Hs) as Hok'. unfold shutdown_ok in Hok'. rewrite Hp' in Hok'.
  destruct Hok' as (_ & -> & d & Hd & Hle). split; [done|]. enough (clock p + default DEFAULT_SHUTDOWN_TIMEOUT_MS shutdownTimeoutMs ≤ d) by lia.
  assert (clock p + default DEFAULT_SHUTDOWN_TIMEOUT_MS shutdownTimeoutMs ≤ clock p + default DEFAULT_SHUTDOWN_TIMEOUT_MS shutdownTimeoutMs) as Hc by lia.
  clear Hr Hp Hp' Hle. revert Ht Hc. generalize (clock p + default DEFAULT_SHUTDOWN_TIMEOUT_MS shutdownTimeoutMs) at 1 2 4 as d0.
  revert d Hd. induction Hs as [p|p e p1 es p2 Hst Hs IH]; intros d Hd d0 Ht Hc; [by apply Ht|].
  destruct (timer_step p e p1 d0 Hok Hst Hc Ht) as [Hcl Ht1]. apply (IH (step_ok p e p1 Hok Hst) d Hd d0 Ht1). lia.
Qed.

Lemma serving_step p e p' : shutdown_ok p → step p e p' →
  phase_of p' = Serving ↔ phase_of p = Serving ∧ ∀ s, e ≠ Signal s.
Proof.
  intros Hok Hst.
  destruct Hst as [p k Ha Hk|p k Hr' Hk|p k Hr' Hk|p k Hr' Hk|p s Hr' Hk|p n Hr' Hn|p k Hk|p k Hk He|p k Hk|p k Hk Ho|p d Hr' Ht' Hd];
    cbn; try (split; [done|]; intros [Hp _]; by rewrite Hp in Hk); try naive_solver.
  - split; [|by intros [_ Hn]; destruct (Hn s)]. destruct (decide (phase_of p = Serving)) as [Hp|Hp].
    + by rewrite first_signal.
    + destruct (later_signal s p Hp (shutdown_ok_flag _ Hok Hp)) as (l & _ & ->). done.
  - split; [done|]. intros [Hp _]. unfold shutdown_ok in Hok. rewrite Hp, Ht' in Hok. by destruct Hok as (_ & ? & _).
Qed.

(** The readiness route answers 503 from the first signal on, and only then;
    the liveness route answers 200 throughout. *)
Theorem readiness es p moduleName version environment now : steps registerSignalHandlers es p →
  (ready moduleName now p).1 = (if decide (phase_of p = Serving) then 200 else 503) ∧
  (phase_of p = Serving ↔ ¬ ∃ s, Signal s ∈ es) ∧
  (health moduleName version environment now).1 = 200.
Proof.
  intros Hs. pose proof (steps_ok _ _ _ (conj eq_refl (conj eq_refl eq_refl) : shutdown_ok registerSignalHandlers) Hs) as Hok.
  split; [|split; [|done]].
  - unfold ready, isShuttingDown. case_decide as Hp; [|by rewrite (shutdown_ok_flag _ Hok Hp)].
    unfold shutdown_ok in Hok. rewrite Hp in Hok. by destruct Hok as (-> & _).
  - clear Hok. assert (∀ p0, shutdown_ok p0 → steps p0 es p →
      phase_of p = Serving ↔ phase_of p0 = Serving ∧ ¬ ∃ s, Signal s ∈ es) as E; [|rewrite (E registerSignalHandlers); [cbn; tauto|done|done]].
    clear. intros p0 Hok Hs. induction Hs as [p|p e p1 es p2 Hst Hs IH].
    { split; [intros Hp; split; [done|by intros [s ?%elem_of_nil]]|by intros [? _]]. }
    rewrite (IH (step_ok p e p1 Hok Hst)), (serving_step p e p1 Hok Hst). setoid_rewrite elem_of_cons. naive_solver.
Qed.
End laws.

(** ** Samples and witnesses *)
Module ShutdownSample.
Abbreviation start := registerSignalHandlers.
(** A request is in flight when SIGTERM arrives. *)
Definition serving : process := with_connections start {[1%nat := true]}.
Definition stopping : process := on_signal None SIGTERM serving.
Definition closing : process := to_phase (HttpClosing SIGTERM) stopping.
Definition drained : process := to_phase (HttpClosing SIGTERM) (with_connections stopping ∅).
Lemma serves : steps None start [Connect 1; Request 1] serving.
Proof.
  apply (steps_cons _ _ _ (with_connections start {[1%nat := false]})); [by constructor|].
  apply (steps_cons _ _ _ serving); [|constructor].
  exact (step_request None (with_connections start {[1%nat := false]}) 1 I eq_refl).
Qed.
Lemma serving_ok : reachable None serving.
Proof. exists [Connect 1; Request 1]. exact serves. Qed.
Lemma stops : steps None start [Connect 1; Request 1; Signal SIGTERM] stopping.
Proof.
  apply (steps_app None _ [Connect 1; Request 1] serving); [exact serves|]. apply steps_one. by constructor.
Qed.
Lemma stopping_ok : reachable None stopping.
Proof. eexists. exact stops. Qed.
Lemma closes : step None stopping CloseHttp closing.
Proof. exact (step_close None stopping SIGTERM eq_refl). Qed.
Lemma closing_ok : reachable None closing.
Proof. eexists. apply (steps_app None _ [Connect 1; Request 1; Signal SIGTERM] stopping); [exact stops|]. apply steps_one, closes. Qed.
Lemma finishes : step None closing (Finish 1) drained.
Proof. exact (step_finish None closing 1 I eq_refl). Qed.
Definition last_events : list event := [CloseHttp; Finish 1; HttpClosed; Shutdown; Kill].
Definition ended : process := to_phase (Exited None) (onApplicationShutdown SIGTERM drained).
Lemma ends : steps None stopping last_events ended.
Proof.
  apply (steps_cons _ _ _ closing); [exact closes|]. apply (steps_cons _ _ _ drained); [exact finishes|].
  apply (steps_cons _ _ _ (to_phase (Disposed SIGTERM) drained)); [by apply (step_closed None drained SIGTERM)|].
  apply (steps_cons _ _ _ (onApplicationShutdown SIGTERM drained));
    [exact (step_shutdown None (to_phase (Disposed SIGTERM) drained) SIGTERM eq_refl)|].
  apply steps_one. apply (step_kill None _ SIGTERM); [done|]. apply (bool_decide_unpack _). by vm_compute.
Qed.
Definition waited : process := Process true (Some 30000) 30000 (once stopping) (Destroying SIGTERM) (connections stopping).
Lemma times_out : steps None serving [Signal SIGTERM; Wait 30000; Timeout] (force_exit waited).
Proof.
  apply (steps_cons _ _ _ stopping); [by constructor|].
  apply (steps_cons _ _ _ waited); [exact (step_wait None stopping 30000 I eq_refl)|].
  apply steps_one. apply (step_timeout None waited 30000); [done|done|cbn; lia].
Qed.
End ShutdownSample.

Lemma shutdown_invariant_witness : shutdown_ok ShutdownSample.closing.
Proof. exact (shutdown_invariant None ShutdownSample.closing ShutdownSample.closing_ok). Defined.
Lemma shutdown_drains_witness : ∃ es p', steps None ShutdownSample.stopping es p' ∧ phase_of p' = Exited None ∧
  (length es ≤ 5)%nat.
Proof.
  destruct (shutdown_drains None ShutdownSample.stopping ShutdownSample.stopping_ok) as (es & p' & Hs & Hp & Hl & _).
  - discriminate.
  - exact I.
  - exists es, p'. split; [exact Hs|]. split; [exact Hp|exact Hl].
Defined.
Lemma no_request_cut_witness : Finish 1 ∈ ShutdownSample.last_events.
Proof.
  apply (no_request_cut None ShutdownSample.stopping ShutdownSample.last_events ShutdownSample.ended 1
    ShutdownSample.stopping_ok I ShutdownSample.ends).
  - intros Hf. exact Hf.
  - unfold ShutdownSample.last_events. rewrite !elem_of_cons, elem_of_nil. intros Ht. by repeat destruct Ht as [Ht|Ht].
  - apply in_flight_spec. reflexivity.
Defined.
Lemma closing_only_drains_witness : ∃ c, connections ShutdownSample.drained = delete c (connections ShutdownSample.closing).
Proof.
  destruct (closing_only_drains None ShutdownSample.closing SIGTERM (Finish 1) ShutdownSample.drained
    ShutdownSample.closing_ok eq_refl ShutdownSample.finishes) as [(c & _ & E)|[_ E]].
  - exists c. exact E.
  - discriminate E.
Defined.
Lemma forced_exit_late_witness : 0 + 30000 ≤ clock (force_exit ShutdownSample.waited).
Proof.
  destruct (forced_exit_late None ShutdownSample.serving [Signal SIGTERM; Wait 30000; Timeout]
    (force_exit ShutdownSample.waited) 1 ShutdownSample.serving_ok eq_refl ShutdownSample.times_out eq_refl) as [_ H].
  exact H.
Defined.
Lemma readiness_witness : (ready "IamModule" "now" ShutdownSample.stopping).1 = 503.
Proof.
  destruct (readiness None [Connect 1; Request 1; Signal SIGTERM] ShutdownSample.stopping "IamModule" "1" "local" "now"
    ShutdownSample.stops) as [E _].
  rewrite E. reflexivity.
Defined.
