(* ===== verification/Routes.v ===== *)
(** * The routes

    The HTTP endpoints of every service (src/apps/*/src, the controllers) with
    the metadata their decorators set, and what the guards (Guards.v) make of
    them: which requests each endpoint lets through.  One definition per handler,
    under the names of its class and method; the handlers' bodies forward to the
    services modelled in the other files. *)

From S2P Require Import Prelude JsString JsValues SessionStore Guards AuthService AuthFlow CookieAuth.
#[local] Open Scope string_scope.
#[local] Open Scope list_scope.

(** The path is relative to the global prefix of the service. *)
Record endpoint := Endpoint { e_service : string; e_verb : string; e_path : string; e_route : route }.
#[export] Instance route_eq : EqDecision route.
Proof. solve_decision. Defined.
#[export] Instance endpoint_eq : EqDecision endpoint.
Proof. solve_decision. Defined.

(** [@Public()], [@SkipCsrfCheck()], [@SkipPermissionCheck()],
    [@SkipPasswordChangeCheck()] and [@RequirePermission(...)]. *)
Definition decorated (public skipCsrf skipPermission skipPasswordChange : bool) (required : option string) : route :=
  Route true public false skipPasswordChange skipCsrf skipPermission required.
Definition requires (permission : string) : route := decorated false false false false (Some permission).
Definition public_ : route := decorated true false false false None.

(** ** The endpoints *)

Definition AuthController_login : endpoint := Endpoint "auth" "POST" "auth/login" (decorated true true false false None).
Definition AuthController_refresh : endpoint := Endpoint "auth" "POST" "auth/refresh" public_.
Definition AuthController_logout : endpoint := Endpoint "auth" "POST" "auth/logout" (decorated false false true true None).
Definition AuthController_me : endpoint := Endpoint "auth" "GET" "auth/me" (decorated false false true true None).
Definition AuthController_changePassword : endpoint := Endpoint "auth" "POST" "auth/change-password" (decorated false false true true None).
Definition AuthController_setCredential : endpoint := Endpoint "auth" "POST" "auth/credentials" (requires "user_account:set_password").
Definition LoginHistoriesController_findPaginated : endpoint := Endpoint "auth" "GET" "auth/login-histories" (requires "login_history:read").
Definition SessionsController_findActive : endpoint := Endpoint "auth" "GET" "auth/sessions" (requires "session:read").
Definition SessionsController_findActiveForUser : endpoint := Endpoint "auth" "GET" "auth/sessions/users/:user_id" (requires "session:read").
Definition SessionsController_revoke : endpoint := Endpoint "auth" "DELETE" "auth/sessions/:jti" (requires "session:revoke").
Definition AccessKeysController_issue : endpoint := Endpoint "iam" "POST" "access-keys" (requires "access_key:create").
Definition AccessKeysController_findPaginated : endpoint := Endpoint "iam" "GET" "access-keys" (requires "access_key:read").
Definition AccessKeysController_findOne : endpoint := Endpoint "iam" "GET" "access-keys/:id" (requires "access_key:read").
Definition AccessKeysController_update : endpoint := Endpoint "iam" "PUT" "access-keys/:id" (requires "access_key:update").
Definition AccessKeysController_findPolicies : endpoint := Endpoint "iam" "GET" "access-keys/:id/policies" (requires "access_key:read").
Definition AccessKeysController_attachPolicies : endpoint := Endpoint "iam" "PUT" "access-keys/:id/policies" (requires "access_key:update").
Definition AccessKeysController_revoke : endpoint := Endpoint "iam" "DELETE" "access-keys/:id/revoke" (requires "access_key:revoke").
Definition AccessKeysController_softDelete : endpoint := Endpoint "iam" "DELETE" "access-keys/:id" (requires "access_key:delete").
Definition PermissionSyncsController_findPaginated : endpoint := Endpoint "iam" "GET" "permission-syncs" (requires "permission_sync:read").
Definition PermissionSyncsController_findOne : endpoint := Endpoint "iam" "GET" "permission-syncs/:id" (requires "permission_sync:read").
Definition PermissionSyncsController_create : endpoint := Endpoint "iam" "POST" "permission-syncs" (requires "permission_sync:create").
Definition PermissionsController_findPaginated : endpoint := Endpoint "iam" "GET" "permissions" (requires "permission:read").
Definition PermissionsController_findOne : endpoint := Endpoint "iam" "GET" "permissions/:id" (requires "permission:read").
Definition PermissionsController_create : endpoint := Endpoint "iam" "POST" "permissions" (requires "permission:create").
Definition PermissionsController_update : endpoint := Endpoint "iam" "PUT" "permissions/:id" (requires "permission:update").
Definition PermissionsController_remove : endpoint := Endpoint "iam" "DELETE" "permissions/:id" (requires "permission:delete").
Definition PoliciesController_create : endpoint := Endpoint "iam" "POST" "policies" (requires "policy:create").
Definition PoliciesController_findPaginated : endpoint := Endpoint "iam" "GET" "policies" (requires "policy:read").
Definition PoliciesController_findOne : endpoint := Endpoint "iam" "GET" "policies/:id" (requires "policy:read").
Definition PoliciesController_update : endpoint := Endpoint "iam" "PUT" "policies/:id" (requires "policy:create").
Definition PoliciesController_getStatements : endpoint := Endpoint "iam" "GET" "policies/:id/statements" (requires "policy:read").
Definition PoliciesController_setStatements : endpoint := Endpoint "iam" "PUT" "policies/:id/statements" (requires "policy:create").
Definition PoliciesController_softDelete : endpoint := Endpoint "iam" "DELETE" "policies/:id" (requires "policy:create").
Definition RolesController_create : endpoint := Endpoint "iam" "POST" "roles" (requires "role:create").
Definition RolesController_findPaginated : endpoint := Endpoint "iam" "GET" "roles" (requires "role:read").
Definition RolesController_findOne : endpoint := Endpoint "iam" "GET" "roles/:id" (requires "role:read").
Definition RolesController_update : endpoint := Endpoint "iam" "PUT" "roles/:id" (requires "role:update").
Definition RolesController_findPolicies : endpoint := Endpoint "iam" "GET" "roles/:id/policies" (requires "role:read").
Definition RolesController_attachPolicies : endpoint := Endpoint "iam" "PUT" "roles/:id/policies" (requires "role:update").
Definition RolesController_softDelete : endpoint := Endpoint "iam" "DELETE" "roles/:id" (requires "role:update").
Definition UsersController_testGracefulShutdown : endpoint := Endpoint "iam" "GET" "users/test-graceful-shutdown" public_.
Definition UsersController_create : endpoint := Endpoint "iam" "POST" "users" (requires "user_account:create").
Definition UsersController_findPaginated : endpoint := Endpoint "iam" "GET" "users" (requires "user_account:read").
Definition UsersController_findOne : endpoint := Endpoint "iam" "GET" "users/:id" (requires "user_account:read").
Definition UsersController_update : endpoint := Endpoint "iam" "PUT" "users/:id" (requires "user_account:create").
Definition UsersController_findRoles : endpoint := Endpoint "iam" "GET" "users/:id/roles" (requires "user_account:read").
Definition UsersController_assignRoles : endpoint := Endpoint "iam" "PUT" "users/:id/roles" (requires "user_account:assign_role").
Definition UsersController_resetPassword : endpoint := Endpoint "iam" "POST" "users/:id/reset-password" (requires "user_account:reset_password").
Definition UsersController_softDelete : endpoint := Endpoint "iam" "DELETE" "users/:id" (requires "user_account:create").
Definition AccessKeysViewController_page : endpoint := Endpoint "iam" "GET" "views/access-keys" public_.
Definition AccessKeysViewController_newPage : endpoint := Endpoint "iam" "GET" "views/access-keys/new" public_.
Definition AccessKeysViewController_editPage : endpoint := Endpoint "iam" "GET" "views/access-keys/:id/edit" public_.
Definition AuditLogsViewController_page : endpoint := Endpoint "iam" "GET" "views/audit-logs" public_.
Definition DashboardViewController_page : endpoint := Endpoint "iam" "GET" "views/dashboard" public_.
Definition DocumentTypesViewController_page : endpoint := Endpoint "iam" "GET" "views/document-types" public_.
Definition DocumentTypesViewController_newPage : endpoint := Endpoint "iam" "GET" "views/document-types/new" public_.
Definition DocumentTypesViewController_editPage : endpoint := Endpoint "iam" "GET" "views/document-types/:id/edit" public_.
Definition PermissionSyncLogsViewController_page : endpoint := Endpoint "iam" "GET" "views/permission-sync-logs" public_.
Definition PermissionsViewController_page : endpoint := Endpoint "iam" "GET" "views/permissions" public_.
Definition PoliciesViewController_page : endpoint := Endpoint "iam" "GET" "views/policies" public_.
Definition PoliciesViewController_newPage : endpoint := Endpoint "iam" "GET" "views/policies/new" public_.
Definition PoliciesViewController_editPage : endpoint := Endpoint "iam" "GET" "views/policies/:id/edit" public_.
Definition PrintTemplatesViewController_page : endpoint := Endpoint "iam" "GET" "views/print-templates" public_.
Definition PrintTemplatesViewController_newPage : endpoint := Endpoint "iam" "GET" "views/print-templates/new" public_.
Definition PrintTemplatesViewController_editPage : endpoint := Endpoint "iam" "GET" "views/print-templates/:id/edit" public_.
Definition RolesViewController_page : endpoint := Endpoint "iam" "GET" "views/roles" public_.
Definition RolesViewController_newPage : endpoint := Endpoint "iam" "GET" "views/roles/new" public_.
Definition RolesViewController_editPage : endpoint := Endpoint "iam" "GET" "views/roles/:id/edit" public_.
Definition SessionsViewController_page : endpoint := Endpoint "iam" "GET" "views/sessions" public_.
Definition SystemSettingViewController_page : endpoint := Endpoint "iam" "GET" "views/system-setting" public_.
Definition UsersViewController_page : endpoint := Endpoint "iam" "GET" "views/users" public_.
Definition UsersViewController_newPage : endpoint := Endpoint "iam" "GET" "views/users/new" public_.
Definition UsersViewController_editPage : endpoint := Endpoint "iam" "GET" "views/users/:id/edit" public_.
Definition ViewsIndexController_index : endpoint := Endpoint "iam" "GET" "views" public_.
Definition BrandsController_create : endpoint := Endpoint "inventory-bc" "POST" "brands" (requires "brand:create").
Definition BrandsController_findPaginated : endpoint := Endpoint "inventory-bc" "GET" "brands" (requires "brand:view").
Definition BrandsController_findOne : endpoint := Endpoint "inventory-bc" "GET" "brands/:id" (requires "brand:view").
Definition BrandsController_update : endpoint := Endpoint "inventory-bc" "PUT" "brands/:id" (requires "brand:update").
Definition BrandsController_softDelete : endpoint := Endpoint "inventory-bc" "DELETE" "brands/:id" (requires "brand:update").
Definition ItemAttributeValuesController_create : endpoint := Endpoint "inventory-bc" "POST" "item-attributes/:attribute_id/values" (requires "item-attribute:update").
Definition ItemAttributeValuesController_findPaginated : endpoint := Endpoint "inventory-bc" "GET" "item-attributes/:attribute_id/values" (requires "item-attribute:view").
Definition ItemAttributeValuesController_findOne : endpoint := Endpoint "inventory-bc" "GET" "item-attributes/:attribute_id/values/:value_id" (requires "item-attribute:view").
Definition ItemAttributeValuesController_update : endpoint := Endpoint "inventory-bc" "PUT" "item-attributes/:attribute_id/values/:value_id" (requires "item-attribute:update").
Definition ItemAttributeValuesController_softDelete : endpoint := Endpoint "inventory-bc" "DELETE" "item-attributes/:attribute_id/values/:value_id" (requires "item-attribute:update").
Definition ItemAttributesController_create : endpoint := Endpoint "inventory-bc" "POST" "item-attributes" (requires "item-attribute:create").
Definition ItemAttributesController_findPaginated : endpoint := Endpoint "inventory-bc" "GET" "item-attributes" (requires "item-attribute:view").
Definition ItemAttributesController_findOne : endpoint := Endpoint "inventory-bc" "GET" "item-attributes/:id" (requires "item-attribute:view").
Definition ItemAttributesController_update : endpoint := Endpoint "inventory-bc" "PUT" "item-attributes/:id" (requires "item-attribute:update").
Definition ItemAttributesController_softDelete : endpoint := Endpoint "inventory-bc" "DELETE" "item-attributes/:id" (requires "item-attribute:update").
Definition ItemGroupsController_create : endpoint := Endpoint "inventory-bc" "POST" "item-groups" (requires "item-group:create").
Definition ItemGroupsController_findPaginated : endpoint := Endpoint "inventory-bc" "GET" "item-groups" (requires "item-group:view").
Definition ItemGroupsController_findOne : endpoint := Endpoint "inventory-bc" "GET" "item-groups/:id" (requires "item-group:view").
Definition ItemGroupsController_update : endpoint := Endpoint "inventory-bc" "PUT" "item-groups/:id" (requires "item-group:update").
Definition ItemGroupsController_softDelete : endpoint := Endpoint "inventory-bc" "DELETE" "item-groups/:id" (requires "item-group:update").
Definition ItemVariantAttributesController_findPaginated : endpoint := Endpoint "inventory-bc" "GET" "products/:product_id/variant-attributes" (requires "product:view").
Definition ProductsController_create : endpoint := Endpoint "inventory-bc" "POST" "products" (requires "product:create").
Definition ProductsController_findPaginated : endpoint := Endpoint "inventory-bc" "GET" "products" (requires "product:view").
Definition ProductsController_findOne : endpoint := Endpoint "inventory-bc" "GET" "products/:id" (requires "product:view").
Definition ProductsController_update : endpoint := Endpoint "inventory-bc" "PUT" "products/:id" (requires "product:update").
Definition ProductsController_softDelete : endpoint := Endpoint "inventory-bc" "DELETE" "products/:id" (requires "product:update").
Definition ProductsController_generateVariants : endpoint := Endpoint "inventory-bc" "POST" "products/:id/generate-variants" (requires "product:update").
Definition ReorderLevelsController_create : endpoint := Endpoint "inventory-bc" "POST" "products/:product_id/reorder-levels" (requires "product:update").
Definition ReorderLevelsController_findPaginated : endpoint := Endpoint "inventory-bc" "GET" "products/:product_id/reorder-levels" (requires "product:view").
Definition ReorderLevelsController_findOne : endpoint := Endpoint "inventory-bc" "GET" "products/:product_id/reorder-levels/:reorder_level_id" (requires "product:view").
Definition ReorderLevelsController_update : endpoint := Endpoint "inventory-bc" "PUT" "products/:product_id/reorder-levels/:reorder_level_id" (requires "product:update").
Definition ReorderLevelsController_softDelete : endpoint := Endpoint "inventory-bc" "DELETE" "products/:product_id/reorder-levels/:reorder_level_id" (requires "product:update").
Definition UomConversionFactorsController_create : endpoint := Endpoint "inventory-bc" "POST" "products/:product_id/uom-conversions" (requires "product:update").
Definition UomConversionFactorsController_findPaginated : endpoint := Endpoint "inventory-bc" "GET" "products/:product_id/uom-conversions" (requires "product:view").
Definition UomConversionFactorsController_findOne : endpoint := Endpoint "inventory-bc" "GET" "products/:product_id/uom-conversions/:conversion_id" (requires "product:view").
Definition UomConversionFactorsController_update : endpoint := Endpoint "inventory-bc" "PUT" "products/:product_id/uom-conversions/:conversion_id" (requires "product:update").
Definition UomConversionFactorsController_softDelete : endpoint := Endpoint "inventory-bc" "DELETE" "products/:product_id/uom-conversions/:conversion_id" (requires "product:update").
Definition UomsController_create : endpoint := Endpoint "inventory-bc" "POST" "uoms" (requires "uom:create").
Definition UomsController_findPaginated : endpoint := Endpoint "inventory-bc" "GET" "uoms" (requires "uom:view").
Definition UomsController_findOne : endpoint := Endpoint "inventory-bc" "GET" "uoms/:id" (requires "uom:view").
Definition UomsController_update : endpoint := Endpoint "inventory-bc" "PUT" "uoms/:id" (requires "uom:update").
Definition UomsController_softDelete : endpoint := Endpoint "inventory-bc" "DELETE" "uoms/:id" (requires "uom:update").
Definition WarehousesController_create : endpoint := Endpoint "inventory-bc" "POST" "warehouses" (requires "warehouse:create").
Definition WarehousesController_findPaginated : endpoint := Endpoint "inventory-bc" "GET" "warehouses" (requires "warehouse:view").
Definition WarehousesController_findOne : endpoint := Endpoint "inventory-bc" "GET" "warehouses/:id" (requires "warehouse:view").
Definition WarehousesController_update : endpoint := Endpoint "inventory-bc" "PUT" "warehouses/:id" (requires "warehouse:update").
Definition WarehousesController_softDelete : endpoint := Endpoint "inventory-bc" "DELETE" "warehouses/:id" (requires "warehouse:update").
Definition DocumentTypesController_create : endpoint := Endpoint "report-bc" "POST" "document-types" (requires "report:document_type_create").
Definition DocumentTypesController_findPaginated : endpoint := Endpoint "report-bc" "GET" "document-types" (requires "report:document_type_read").
Definition DocumentTypesController_findOne : endpoint := Endpoint "report-bc" "GET" "document-types/:id" (requires "report:document_type_read").
Definition DocumentTypesController_update : endpoint := Endpoint "report-bc" "PUT" "document-types/:id" (requires "report:document_type_update").
Definition DocumentTypesController_softDelete : endpoint := Endpoint "report-bc" "DELETE" "document-types/:id" (requires "report:document_type_delete").
Definition DocumentTypesController_getRunningNumberStatus : endpoint := Endpoint "report-bc" "GET" "document-types/:id/running-number" (requires "report:document_type_running_number_read").
Definition DocumentTypesController_generateNextRunningNumber : endpoint := Endpoint "report-bc" "POST" "document-types/:id/running-number/next" (requires "report:document_type_running_number_generate").
Definition PrintTemplatesController_create : endpoint := Endpoint "report-bc" "POST" "print-templates" (requires "report:print_template_create").
Definition PrintTemplatesController_findPaginated : endpoint := Endpoint "report-bc" "GET" "print-templates" (requires "report:print_template_read").
Definition PrintTemplatesController_findOne : endpoint := Endpoint "report-bc" "GET" "print-templates/:id" (requires "report:print_template_read").
Definition PrintTemplatesController_update : endpoint := Endpoint "report-bc" "PUT" "print-templates/:id" (requires "report:print_template_update").
Definition PrintTemplatesController_softDelete : endpoint := Endpoint "report-bc" "DELETE" "print-templates/:id" (requires "report:print_template_delete").
Definition PrintTemplatesController_preview : endpoint := Endpoint "report-bc" "POST" "print-templates/preview" (requires "report:print_template_render").
Definition PrintTemplatesController_render : endpoint := Endpoint "report-bc" "POST" "print-templates/:id/render" (requires "report:print_template_render").
Definition PrintController_printMockInvoice : endpoint := Endpoint "report-bc" "POST" "invoices/mock-pdf" (requires "report:print_invoice").
Definition SuppliersController_create : endpoint := Endpoint "supplier-bc" "POST" "suppliers" (requires "supplier:create").
Definition SuppliersController_findPaginated : endpoint := Endpoint "supplier-bc" "GET" "suppliers" (requires "supplier:view").
Definition SuppliersController_findOne : endpoint := Endpoint "supplier-bc" "GET" "suppliers/:id" (requires "supplier:view").
Definition SuppliersController_update : endpoint := Endpoint "supplier-bc" "PUT" "suppliers/:id" (requires "supplier:update").
Definition SuppliersController_softDelete : endpoint := Endpoint "supplier-bc" "DELETE" "suppliers/:id" (requires "supplier:update").

Definition AuthController_routes : list endpoint :=
  [AuthController_login; AuthController_refresh; AuthController_logout; AuthController_me;
   AuthController_changePassword; AuthController_setCredential].
Definition LoginHistoriesController_routes : list endpoint :=
  [LoginHistoriesController_findPaginated].
Definition SessionsController_routes : list endpoint :=
  [SessionsController_findActive; SessionsController_findActiveForUser; SessionsController_revoke].
Definition AccessKeysController_routes : list endpoint :=
  [AccessKeysController_issue; AccessKeysController_findPaginated; AccessKeysController_findOne;
   AccessKeysController_update; AccessKeysController_findPolicies; AccessKeysController_attachPolicies;
   AccessKeysController_revoke; AccessKeysController_softDelete].
Definition PermissionSyncsController_routes : list endpoint :=
  [PermissionSyncsController_findPaginated; PermissionSyncsController_findOne; PermissionSyncsController_create].
Definition PermissionsController_routes : list endpoint :=
  [PermissionsController_findPaginated; PermissionsController_findOne; PermissionsController_create;
   PermissionsController_update; PermissionsController_remove].
Definition PoliciesController_routes : list endpoint :=
  [PoliciesController_create; PoliciesController_findPaginated; PoliciesController_findOne;
   PoliciesController_update; PoliciesController_getStatements; PoliciesController_setStatements;
   PoliciesController_softDelete].
Definition RolesController_routes : list endpoint :=
  [RolesController_create; RolesController_findPaginated; RolesController_findOne; RolesController_update;
   RolesController_findPolicies; RolesController_attachPolicies; RolesController_softDelete].
Definition UsersController_routes : list endpoint :=
  [UsersController_testGracefulShutdown; UsersController_create; UsersController_findPaginated;
   UsersController_findOne; UsersController_update; UsersController_findRoles; UsersController_assignRoles;
   UsersController_resetPassword; UsersController_softDelete].
Definition AccessKeysViewController_routes : list endpoint :=
  [AccessKeysViewController_page; AccessKeysViewController_newPage; AccessKeysViewController_editPage].
Definition AuditLogsViewController_routes : list endpoint :=
  [AuditLogsViewController_page].
Definition DashboardViewController_routes : list endpoint :=
  [DashboardViewController_page].
Definition DocumentTypesViewController_routes : list endpoint :=
  [DocumentTypesViewController_page; DocumentTypesViewController_newPage; DocumentTypesViewController_editPage].
Definition PermissionSyncLogsViewController_routes : list endpoint :=
  [PermissionSyncLogsViewController_page].
Definition PermissionsViewController_routes : list endpoint :=
  [PermissionsViewController_page].
Definition PoliciesViewController_routes : list endpoint :=
  [PoliciesViewController_page; PoliciesViewController_newPage; PoliciesViewController_editPage].
Definition PrintTemplatesViewController_routes : list endpoint :=
  [PrintTemplatesViewController_page; PrintTemplatesViewController_newPage;
   PrintTemplatesViewController_editPage].
Definition RolesViewController_routes : list endpoint :=
  [RolesViewController_page; RolesViewController_newPage; RolesViewController_editPage].
Definition SessionsViewController_routes : list endpoint :=
  [SessionsViewController_page].
Definition SystemSettingViewController_routes : list endpoint :=
  [SystemSettingViewController_page].
Definition UsersViewController_routes : list endpoint :=
  [UsersViewController_page; UsersViewController_newPage; UsersViewController_editPage].
Definition ViewsIndexController_routes : list endpoint :=
  [ViewsIndexController_index].
Definition BrandsController_routes : list endpoint :=
  [BrandsController_create; BrandsController_findPaginated; BrandsController_findOne; BrandsController_update;
   BrandsController_softDelete].
Definition ItemAttributeValuesController_routes : list endpoint :=
  [ItemAttributeValuesController_create; ItemAttributeValuesController_findPaginated;
   ItemAttributeValuesController_findOne; ItemAttributeValuesController_update;
   ItemAttributeValuesController_softDelete].
Definition ItemAttributesController_routes : list endpoint :=
  [ItemAttributesController_create; ItemAttributesController_findPaginated; ItemAttributesController_findOne;
   ItemAttributesController_update; ItemAttributesController_softDelete].
Definition ItemGroupsController_routes : list endpoint :=
  [ItemGroupsController_create; ItemGroupsController_findPaginated; ItemGroupsController_findOne;
   ItemGroupsController_update; ItemGroupsController_softDelete].
Definition ItemVariantAttributesController_routes : list endpoint :=
  [ItemVariantAttributesController_findPaginated].
Definition ProductsController_routes : list endpoint :=
  [ProductsController_create; ProductsController_findPaginated; ProductsController_findOne;
   ProductsController_update; ProductsController_softDelete; ProductsController_generateVariants].
Definition ReorderLevelsController_routes : list endpoint :=
  [ReorderLevelsController_create; ReorderLevelsController_findPaginated; ReorderLevelsController_findOne;
   ReorderLevelsController_update; ReorderLevelsController_softDelete].
Definition UomConversionFactorsController_routes : list endpoint :=
  [UomConversionFactorsController_create; UomConversionFactorsController_findPaginated;
   UomConversionFactorsController_findOne; UomConversionFactorsController_update;
   UomConversionFactorsController_softDelete].
Definition UomsController_routes : list endpoint :=
  [UomsController_create; UomsController_findPaginated; UomsController_findOne; UomsController_update;
   UomsController_softDelete].
Definition WarehousesController_routes : list endpoint :=
  [WarehousesController_create; WarehousesController_findPaginated; WarehousesController_findOne;
   WarehousesController_update; WarehousesController_softDelete].
Definition DocumentTypesController_routes : list endpoint :=
  [DocumentTypesController_create; DocumentTypesController_findPaginated; DocumentTypesController_findOne;
   DocumentTypesController_update; DocumentTypesController_softDelete;
   DocumentTypesController_getRunningNumberStatus; DocumentTypesController_generateNextRunningNumber].
Definition PrintTemplatesController_routes : list endpoint :=
  [PrintTemplatesController_create; PrintTemplatesController_findPaginated; PrintTemplatesController_findOne;
   PrintTemplatesController_update; PrintTemplatesController_softDelete; PrintTemplatesController_preview;
   PrintTemplatesController_render].
Definition PrintController_routes : list endpoint :=
  [PrintController_printMockInvoice].
Definition SuppliersController_routes : list endpoint :=
  [SuppliersController_create; SuppliersController_findPaginated; SuppliersController_findOne;
   SuppliersController_update; SuppliersController_softDelete].

Definition all_endpoints : list endpoint :=
  AuthController_routes ++ LoginHistoriesController_routes ++ SessionsController_routes ++
  AccessKeysController_routes ++ PermissionSyncsController_routes ++ PermissionsController_routes ++ PoliciesController_routes ++ RolesController_routes ++ UsersController_routes ++ AccessKeysViewController_routes ++ AuditLogsViewController_routes ++ DashboardViewController_routes ++ DocumentTypesViewController_routes ++ PermissionSyncLogsViewController_routes ++ PermissionsViewController_routes ++ PoliciesViewController_routes ++ PrintTemplatesViewController_routes ++ RolesViewController_routes ++ SessionsViewController_routes ++ SystemSettingViewController_routes ++ UsersViewController_routes ++ ViewsIndexController_routes ++
  BrandsController_routes ++ ItemAttributeValuesController_routes ++ ItemAttributesController_routes ++ ItemGroupsController_routes ++ ItemVariantAttributesController_routes ++ ProductsController_routes ++ ReorderLevelsController_routes ++ UomConversionFactorsController_routes ++ UomsController_routes ++ WarehousesController_routes ++
  DocumentTypesController_routes ++ PrintTemplatesController_routes ++ PrintController_routes ++
  SuppliersController_routes.

(** ** What is open *)

(** Without a session: login and refresh, the pages of the admin site, and a
    route for testing the shutdown. *)
Definition view_pages : list endpoint := List.filter (λ e, startsWith (e_path e) "views") all_endpoints.
Definition public_endpoints : list endpoint :=
  [AuthController_login; AuthController_refresh; UsersController_testGracefulShutdown] ++ view_pages.
(** With a session but no permission. *)
Definition self_service : list endpoint := [AuthController_logout; AuthController_me; AuthController_changePassword].

Definition safe_verb (verb : string) : bool := includes ["GET"; "HEAD"; "OPTIONS"] verb.
Definition permission_of (e : endpoint) : list string := option_list (requiredPermission (e_route e)).

(** Every endpoint is open, for any session, or requires a permission the
    evaluation can split into a resource and an action. *)
Definition declared (e : endpoint) : bool :=
  bool_decide (e ∈ public_endpoints) || bool_decide (e ∈ self_service) ||
  negb (isPublic (e_route e)) && negb (skipPermissionCheck (e_route e)) &&
  match requiredPermission (e_route e) with
  | Some p => match split ":" p with [r; a] => negb (String.eqb r "") && negb (String.eqb a "") | _ => false end
  | None => false
  end.

(** ** The table *)

Lemma all_declared : List.forallb declared all_endpoints = true.
Proof. by vm_compute. Qed.
Lemma all_http : List.forallb (λ e, is_http (e_route e) && negb (isAccessKeyRoute (e_route e))) all_endpoints = true.
Proof. by vm_compute. Qed.
Lemma declared_of e : e ∈ all_endpoints → declared e = true.
Proof. intros He. by apply (proj1 (forallb_forall _ _) all_declared), list_elem_of_In. Qed.
Lemma http_of e : e ∈ all_endpoints → is_http (e_route e) = true ∧ isAccessKeyRoute (e_route e) = false.
Proof.
  intros He. apply list_elem_of_In in He. pose proof (proj1 (forallb_forall _ _) all_http e He) as Hb.
  apply andb_true_iff in Hb as [-> Hk]. by apply negb_true_iff in Hk.
Qed.
Lemma public_of e : e ∈ all_endpoints → isPublic (e_route e) = true → e ∈ public_endpoints.
Proof.
  intros He Hp. pose proof (declared_of e He) as Hd. unfold declared in Hd. rewrite Hp in Hd.
  cbn [negb andb] in Hd. rewrite orb_false_r in Hd. apply orb_true_iff in Hd as [Hd|Hd].
  - by apply bool_decide_eq_true in Hd.
  - apply bool_decide_eq_true in Hd. exfalso.
    repeat (apply elem_of_cons in Hd as [->|Hd]; [discriminate Hp|]). by apply elem_of_nil in Hd.
Qed.

(** The pages are read-only: what is open without a session and changes
    something is login and refresh. *)
Theorem public_surface e : e ∈ all_endpoints → isPublic (e_route e) = true → safe_verb (e_verb e) = false →
  e = AuthController_login ∨ e = AuthController_refresh.
Proof.
  assert (List.forallb (λ e, implb (isPublic (e_route e) && negb (safe_verb (e_verb e)))
    (bool_decide (e = AuthController_login) || bool_decide (e = AuthController_refresh))) all_endpoints = true) as Ht by by vm_compute.
  intros He Hp Hv. apply list_elem_of_In in He. pose proof (proj1 (forallb_forall _ _) Ht e He) as Hb. cbv beta in Hb.
  rewrite Hp, Hv in Hb. cbn in Hb. apply orb_true_iff in Hb as [Hb|Hb]; apply bool_decide_eq_true in Hb; auto.
Qed.

(** No two handlers of a service answer the same verb and path. *)
Theorem endpoints_distinct : NoDup (List.map (λ e, (e_service e, e_verb e, e_path e)) all_endpoints).
Proof. apply (bool_decide_unpack _). by vm_compute. Qed.

(** A permission that opens an endpoint for reading opens none that changes
    anything: who was granted only what the GET endpoints require changes nothing. *)
Theorem reading_permissions_read p e : p ∈ flat_map permission_of (List.filter (λ e, safe_verb (e_verb e)) all_endpoints) →
  e ∈ all_endpoints → p ∈ permission_of e → safe_verb (e_verb e) = true.
Proof.
  assert (List.forallb (λ e, implb (negb (safe_verb (e_verb e)))
    (List.forallb (λ p, negb (includes (flat_map permission_of (List.filter (λ e, safe_verb (e_verb e)) all_endpoints)) p))
       (permission_of e))) all_endpoints = true) as Ht by by vm_compute.
  intros Hp He Hpe. apply list_elem_of_In in He. pose proof (proj1 (forallb_forall _ _) Ht e He) as Hb. cbv beta in Hb.
  destruct (safe_verb (e_verb e)); [done|]. cbn [negb implb] in Hb.
  apply list_elem_of_In in Hpe. pose proof (proj1 (forallb_forall _ _) Hb p Hpe) as Hn. cbv beta in Hn.
  apply negb_true_iff in Hn. by apply includes_true in Hp; rewrite Hp in Hn.
Qed.

(** ** Requests *)
Section requests.
Context {S V : Type} `{RedisCounters S V} `{!Json ISessionData V}.
Context (jwt_verify : string → option token_payload)
        (engine_date : string → option Z) (sha256_hex : string → string)
        (verify_rpc : verify_payload → result (option verify_response))
        (evaluate_rpc : string → string → string → string → context → result bool).
Abbreviation chain_of := (guards (V := V) jwt_verify engine_date sha256_hex verify_rpc evaluate_rpc).

(** C13: what every endpoint of the system demands.  A request its guards let
    through is one to the public endpoints, or carries a live session; then the
    endpoint is one of the user's own (logout, me, change of password) or the
    session holds the permission the endpoint declares, or iam-bc granted that
    permission for this request. *)
Theorem endpoints_guarded e t r (s s' : S) user : e ∈ all_endpoints → chain_of t (e_route e) r s = (Ok user, s') →
  e ∈ public_endpoints ∨
  ∃ u, user = Some u ∧ authenticated (V := V) jwt_verify verify_rpc t (e_route e) r s u ∧
    (e ∈ self_service ∨
     ∃ p resource action, requiredPermission (e_route e) = Some p ∧ split ":" p = [resource; action] ∧
       (p ∈ us_permissions (user_session u) ∨
        p ∈ conditional_permissions u ∧
        evaluate_rpc (us_id (user_session u)) "*" resource action (buildEvaluationContext (hours t) (minutes t) r) = Ok true)).
Proof.
  intros He Hpass. destruct (http_of e He) as [Hh _]. destruct (isPublic (e_route e)) eqn:Hp; [left; by apply public_of|].
  destruct (guards_mediate jwt_verify engine_date sha256_hex verify_rpc evaluate_rpc t (e_route e) r s s' user Hpass Hh Hp)
    as (u & -> & _ & Ha & Hauth).
  pose proof (declared_of e He) as Hd. unfold declared in Hd. rewrite Hp in Hd. cbn [negb andb] in Hd.
  apply orb_true_iff in Hd as [Hd|Hd]; [apply orb_true_iff in Hd as [Hd|Hd]; apply bool_decide_eq_true in Hd; [by left|]|].
  { right. exists u. split; [done|]. split; [done|]. by left. }
  right. exists u. split; [done|]. split; [done|]. right.
  apply andb_true_iff in Hd as [Hskip Hd]. apply negb_true_iff in Hskip.
  destruct Hauth as [Hsk|(p & Hreq & _ & Hgrant)]; [by rewrite Hsk in Hskip|]. rewrite Hreq in Hd.
  destruct (split ":" p) as [|resource [|action [|? ?]]] eqn:Es; try done.
  exists p, resource, action. split; [done|]. split; [done|].
  destruct Hgrant as [Hin|(Hin & r0 & rest & E & Hev)]; [by left|right]. by injection E as <- <-.
Qed.

(** A request without a token, whatever access key it presents, passes on the
    public endpoints only: no endpoint takes access keys. *)
Theorem no_token_refused e t r (s : S) : e ∈ all_endpoints → e ∉ public_endpoints → extractToken r = None →
  chain_of t (e_route e) r s = (Throw (UnauthorizedException "Missing access token."), s).
Proof.
  intros He Hn Ht. destruct (http_of e He) as [Hh Hk]. unfold guards, auth_guard.
  destruct (isPublic (e_route e)) eqn:Hp; [by apply public_of in Hp|]. by rewrite Hh, Hk, Ht.
Qed.

(** No endpoint that changes something can be reached by a forged request
    from another site: with the session's [csrf_token] cookie and without its
    echo in the header, every one but login answers 403, before the permission
    is looked at and whatever the session. *)
Theorem endpoints_csrf_checked e t r (s : S) token : e ∈ all_endpoints → e ≠ AuthController_login →
  rq_method r = e_verb e → safe_verb (e_verb e) = false → token ≠ "" → cookie r "csrf_token" = Some token →
  header_string r "x-csrf-token" ≠ Some token →
  ∃ err, (chain_of t (e_route e) r s).1 = Throw err ∧
    (res_ok (auth_guard (V := V) jwt_verify (today t) (e_route e) r s) = true →
      err = ForbiddenException "Missing or invalid CSRF token.").
Proof.
  assert (List.forallb (λ e, bool_decide (e = AuthController_login) || negb (skipCsrfCheck (e_route e))) all_endpoints = true)
    as Htab by by vm_compute.
  intros He Hl Hm Hv Htok Hc Hh. destruct (http_of e He) as [Hhttp Hk].
  pose proof (proj1 (forallb_forall _ _) Htab e (proj1 (list_elem_of_In _ _) He)) as Hs. cbv beta in Hs.
  rewrite bool_decide_false in Hs by done. apply negb_true_iff in Hs.
  unfold guards. destruct (auth_guard _ _ _ _ _) as [u1|err] eqn:Ha; [|by exists err].
  unfold access_key_guard. rewrite Hhttp, Hk. cbn [negb res_bind].
  assert (¬ includes ["GET"; "HEAD"; "OPTIONS"] (rq_method r)) as Hunsafe by (unfold safe_verb in Hv; rewrite Hm, Hv; tauto).
  rewrite (csrf_decides (e_route e) r token Hhttp Hk Hs Hunsafe Htok Hc), decide_False by done. cbn. by eexists.
Qed.

(** A public page answers anybody: there is no check but the CSRF check. *)
Theorem public_open e t r (s : S) : e ∈ all_endpoints → isPublic (e_route e) = true → rq_method r = e_verb e →
  safe_verb (e_verb e) = true → chain_of t (e_route e) r s = (Ok None, s).
Proof.
  intros He Hp Hm Hv. destruct (http_of e He) as [Hh Hk]. unfold guards, auth_guard, access_key_guard, csrf_guard, permission_guard.
  unfold safe_verb in Hv. rewrite Hh, Hp, Hk, Hm, Hv. done.
Qed.
End requests.

(** ** Samples and witnesses *)
Module RouteSample.
Definition viewer : mem ISessionData :=
  create_session (V := ISessionData) "j1"
    (SessionData "u1" "ann" None None ["STAFF"] ["brand:view"] [] None false) 900 empty_store.
Definition chain := guards (V := ISessionData) sample_jwt (λ _, None) (λ s, s) no_verify never sample_clock.
Definition request (verb url : string) (csrf : option string) : http_request :=
  HttpRequest verb url None ""
    (match csrf with
     | Some c => {["authorization" := HString "Bearer t1"; "x-csrf-token" := HString c]}
     | None => {["authorization" := HString "Bearer t1"]}
     end) (Some {["csrf_token" := "c1"]}) None None None.
Definition anonymous : http_request := HttpRequest "GET" "/inventory/v1/brands" None "" ∅ None None None None.
Lemma brands_listed : BrandsController_findPaginated ∈ all_endpoints.
Proof. apply (bool_decide_unpack _). by vm_compute. Qed.
Lemma brands_created : BrandsController_create ∈ all_endpoints.
Proof. apply (bool_decide_unpack _). by vm_compute. Qed.
Lemma test_listed : UsersController_testGracefulShutdown ∈ all_endpoints.
Proof. apply (bool_decide_unpack _). by vm_compute. Qed.
Lemma brands_protected : BrandsController_findPaginated ∉ public_endpoints.
Proof. apply (bool_decide_unpack _). by vm_compute. Qed.
Lemma login_listed : AuthController_login ∈ all_endpoints.
Proof. apply (bool_decide_unpack _). by vm_compute. Qed.
Lemma passes : ∃ user s', chain (e_route BrandsController_findPaginated) (request "GET" "/inventory/v1/brands" None) viewer
  = (Ok user, s').
Proof.
  destruct (chain _ _ _) as [[user|e] s'] eqn:E; [by exists user, s'|]. vm_compute in E. discriminate E.
Qed.
End RouteSample.

Lemma public_surface_witness : AuthController_login = AuthController_login ∨ AuthController_login = AuthController_refresh.
Proof. exact (public_surface AuthController_login RouteSample.login_listed eq_refl eq_refl). Defined.
Lemma reading_permissions_read_witness : safe_verb (e_verb BrandsController_findPaginated) = true.
Proof.
  apply (reading_permissions_read "brand:view" BrandsController_findPaginated).
  - apply (bool_decide_unpack _). vm_compute. exact I.
  - exact RouteSample.brands_listed.
  - left.
Defined.
Lemma endpoints_guarded_witness : ∃ u : request_user, "brand:view" ∈ us_permissions (user_session u) ∨
  "brand:view" ∈ conditional_permissions u ∨ BrandsController_findPaginated ∈ self_service.
Proof.
  destruct RouteSample.passes as (user & s' & E).
  destruct (endpoints_guarded sample_jwt (λ _, None) (λ s, s) no_verify never BrandsController_findPaginated sample_clock
    (RouteSample.request "GET" "/inventory/v1/brands" None) RouteSample.viewer s' user RouteSample.brands_listed E)
    as [Hp|(u & _ & _ & [Hs|(p & resource & action & Hr & _ & Hg)])].
  - destruct (RouteSample.brands_protected Hp).
  - exists u. right. right. exact Hs.
  - injection Hr as <-. exists u. destruct Hg as [Hg|[Hg _]]; [left|right; left]; exact Hg.
Defined.
Lemma no_token_refused_witness :
  RouteSample.chain (e_route BrandsController_findPaginated) RouteSample.anonymous RouteSample.viewer
  = (Throw (UnauthorizedException "Missing access token."), RouteSample.viewer).
Proof.
  exact (no_token_refused sample_jwt (λ _, None) (λ s, s) no_verify never BrandsController_findPaginated sample_clock
    RouteSample.anonymous RouteSample.viewer RouteSample.brands_listed RouteSample.brands_protected eq_refl).
Defined.
Lemma endpoints_csrf_checked_witness : ∃ err,
  (RouteSample.chain (e_route BrandsController_create) (RouteSample.request "POST" "/inventory/v1/brands" None)
     RouteSample.viewer).1 = Throw err.
Proof.
  destruct (endpoints_csrf_checked sample_jwt (λ _, None) (λ s, s) no_verify never BrandsController_create sample_clock
    (RouteSample.request "POST" "/inventory/v1/brands" None) RouteSample.viewer "c1" RouteSample.brands_created)
    as (err & E & _).
  - discriminate.
  - reflexivity.
  - reflexivity.
  - discriminate.
  - reflexivity.
  - vm_compute. discriminate.
  - exists err. exact E.
Defined.
Lemma public_open_witness :
  RouteSample.chain (e_route UsersController_testGracefulShutdown) RouteSample.anonymous RouteSample.viewer
  = (Ok None, RouteSample.viewer).
Proof.
  exact (public_open sample_jwt (λ _, None) (λ s, s) no_verify never UsersController_testGracefulShutdown sample_clock
    RouteSample.anonymous RouteSample.viewer RouteSample.test_listed eq_refl eq_refl eq_refl).
Defined.
