(* ===== verification/QueryParams.v ===== *)
(** * Query parameters

    The way of a list request's query string into the query builder
    (QueryBuilder.v): the decorator [ValidatedQuery]
    (src/libs/common/src/decorators/validated-query.decorator.ts) with its error
    format, the transforms and rules of QueryParamsDTO
    (src/libs/common/src/dto/query-params.dto.ts) and the shared transforms of
    dto-transforms.util.ts.  class-transformer and class-validator are arguments,
    used for what they document. *)

From S2P Require Import Prelude JsString JsValues RpcErrors JsonApi.
#[local] Open Scope string_scope.
#[local] Open Scope list_scope.

(** ** dto-transforms.util.ts *)

Definition toTrimString (value : jsv) : jsv := match value with JStr s => JStr (trim s) | _ => value end.
Definition toTrimOrUndefined (value : jsv) : jsv :=
  match value with
  | JStr s => let trimmed := trim s in if String.eqb trimmed "" then JUndefined else JStr trimmed
  | _ => value
  end.
Definition toNumber (fallback : number) (value : jsv) : number :=
  match value with
  | JNull | JUndefined | JStr "" => fallback
  | _ => let num := js_Number value in if isNaN num then fallback else num
  end.
Definition toBoolean (value : jsv) : bool :=
  match value with
  | JStr s => String.eqb s "true"
  | JBool b => b
  | JNum r => num_eq (Number r) (Number "1")
  | _ => false
  end.
Definition toString_ (value : jsv) : option string :=
  match value with JNull | JUndefined => None | _ => Some (js_String value) end.
Section search.
Context (JSON_parse : string → option jsv).
Definition is_empty_object (v : jsv) : bool := match v with JObj [] => true | _ => false end.
Definition toJsonSearchOrUndefined (value : jsv) : jsv :=
  match value with
  | JNull | JUndefined | JStr "" => JUndefined
  | JStr s =>
      let trimmed := trim s in
      if String.eqb trimmed "" || String.eqb trimmed "{}" then JUndefined
      else match JSON_parse trimmed with
           | Some parsed => if is_empty_object parsed then JUndefined else JStr trimmed
           | None => JStr trimmed
           end
  | _ => if is_empty_object value then JUndefined else value
  end.
End search.

(** ** The error format *)

Fixpoint format_error (error : ValidationError) : list (string * string) :=
  match error with
  | VError prop constraints children =>
      match children with
      | Some ((_ :: _) as l) => List.map (λ e, (prop +:+ "." +:+ e.1, e.2)) (flat_map format_error l)
      | _ => [(prop, join ", " (match constraints with Some c => c.*2 | None => ["Validation failed"] end))]
      end
  end.
Definition formatValidationErrors (errors : list ValidationError) : list (string * string) := flat_map format_error errors.

(** ** The decorator *)

(** [{ ...defaults, ...queryParams }] without what is [undefined]. *)
Definition mergedParams (defaults queryParams : list (string * jsv)) : list (string * jsv) :=
  List.filter (λ kv, match kv.2 with JUndefined => false | _ => true end) (obj_spread defaults queryParams).
Definition queryParams (query : jsv) : list (string * jsv) := match query with JObj o => o | _ => [] end.
Section decorator.
(** The instance of the DTO class, and the validator's report on it. *)
Context {Instance_ : Type} (plainToInstance : list (string * jsv) → Instance_) (validate : Instance_ → list ValidationError).
Definition ValidatedQuery (defaults : option (list (string * jsv))) (query : jsv) : result Instance_ :=
  let dtoInstance := plainToInstance (mergedParams (default [] defaults) (queryParams query)) in
  match validate dtoInstance with
  | [] => Ok dtoInstance
  | errors => Throw (InvalidParameterException (formatValidationErrors errors))
  end.
End decorator.

(** ** QueryParamsDTO *)

(** A property of the instance: a number made by [@Type(() => Number)], or what
    the transform left. *)
Inductive dto_value := DNumber (n : number) | DValue (v : jsv).
Definition to_list_param (value : jsv) : jsv :=
  match value with
  | JArr l => JArr l
  | JStr s => if String.eqb (trim s) "" then JArr [] else JArr [JStr s]
  | _ => JArr []
  end.
Definition to_flag (value : jsv) : jsv :=
  match value with JStr s => JBool (String.eqb (toLowerCase s) "true") | JBool b => JBool b | _ => JBool false end.
Definition NUMBERS : list string := ["page"; "offset"; "limit"].
Definition TEXTS : list string := ["sort"; "relations"; "fields"; "timezone"; "exclude_ids"].
Definition LISTS : list string := ["filter"; "or"].
Definition FLAGS : list string := ["ignore_limit"; "get_count_only"; "is_hard_delete"].
Section dto.
Context (JSON_parse : string → option jsv).
(** A number parameter given twice stays an array, which the rule refuses. *)
Definition transform_property (k : string) (v : jsv) : dto_value :=
  if includes NUMBERS k then match v with JNull | JUndefined | JArr _ | JObj _ => DValue v | _ => DNumber (js_Number v) end
  else if String.eqb k "s" then DValue (toJsonSearchOrUndefined JSON_parse v)
  else if includes LISTS k then DValue (to_list_param v)
  else if includes FLAGS k then DValue (to_flag v)
  else DValue v.
(** The initial values of the class. *)
Definition initial_value (k : string) : option dto_value :=
  if includes LISTS k then Some (DValue (JArr []))
  else if includes FLAGS k then Some (DValue (JBool false))
  else if String.eqb k "timezone" then Some (DValue (JStr "Asia/Bangkok"))
  else None.
Definition is_optional (v : dto_value) : bool := match v with DValue JUndefined | DValue JNull => true | _ => false end.
Definition is_finite (n : number) : bool :=
  match n with SpecFloat.S754_nan | SpecFloat.S754_infinity _ => false | _ => true end.
(** [@IsOptional()] with [@IsNumber()], [@IsString()], [@IsJSON()] or
    [@IsBoolean()]; [false] for a property without decorators. *)
Definition rule (k : string) (v : dto_value) : bool :=
  if includes NUMBERS k then is_optional v || match v with DNumber n => is_finite n | _ => false end
  else if includes TEXTS k then is_optional v || match v with DValue (JStr _) => true | _ => false end
  else if String.eqb k "s" then
    is_optional v || match v with
                     | DValue (JStr s) => match JSON_parse s with Some (JObj _) | Some (JArr _) => true | _ => false end
                     | _ => false
                     end
  else if includes LISTS k then true
  else if includes FLAGS k then is_optional v || match v with DValue (JBool _) => true | _ => false end
  else false.
End dto.

(** ** The transforms *)

Lemma trimEnd_idem s : trimEnd (trimEnd s) = trimEnd s.
Proof.
  induction s as [|c s IH]; [done|]. cbn. destruct (trimEnd s) as [|d t] eqn:E.
  - destruct (is_space c) eqn:Hc; [done|]. cbn. by rewrite Hc.
  - cbn [trimEnd] in *. rewrite IH. done.
Qed.
Lemma trimStart_end s : trimStart (trimEnd (trimStart s)) = trimEnd (trimStart s).
Proof.
  unfold trimStart. induction s as [|c s IH]; [done|]. cbn [span]. destruct (is_space c) eqn:Hc.
  - destruct (span is_space s) as [a b]. exact IH.
  - cbn [snd trimEnd]. destruct (trimEnd s); rewrite ?Hc; cbn; by rewrite Hc.
Qed.
Lemma trim_idem s : trim (trim s) = trim s.
Proof. unfold trim. rewrite trimStart_end. apply trimEnd_idem. Qed.

(** A text that was required is trimmed, one that was optional is trimmed or
    absent, never blank; both transforms change nothing the second time. *)
Theorem trimmed v : toTrimString (toTrimString v) = toTrimString v ∧
  toTrimOrUndefined (toTrimOrUndefined v) = toTrimOrUndefined v ∧
  ∀ s, toTrimOrUndefined v = JStr s → s ≠ "" ∧ trim s = s.
Proof.
  destruct v as [| |b|n|s|l|o]; try (split_and!; [done|done|discriminate]). cbn. rewrite trim_idem. split; [done|].
  destruct (String.eqb_spec (trim s) "") as [E|E]; cbn.
  - split; [done|discriminate].
  - rewrite trim_idem, (proj2 (String.eqb_neq _ _) E). split; [done|]. intros t [= <-]. by rewrite trim_idem.
Qed.
(** The result is a number whatever is sent, if the fallback is one. *)
Theorem toNumber_number fallback v : isNaN fallback = false → isNaN (toNumber fallback v) = false.
Proof.
  intros Hf. unfold toNumber. assert (isNaN (if isNaN (js_Number v) then fallback else js_Number v) = false) as Hn
    by (destruct (isNaN (js_Number v)) eqn:E; [done|exact E]).
  by destruct v as [| |b|n|[|c s]|l|o].
Qed.
(** A search is absent or not empty, and the transform changes it only once. *)
Theorem search_normal JSON_parse v : let w := toJsonSearchOrUndefined JSON_parse v in
  toJsonSearchOrUndefined JSON_parse w = w ∧
  (w = JUndefined ∨ (∃ s, w = JStr s ∧ s ≠ "" ∧ ∀ u, JSON_parse s = Some u → is_empty_object u = false) ∨
   (∀ s, w ≠ JStr s) ∧ is_empty_object w = false ∧ w = v).
Proof.
  cbv zeta. destruct v as [| |b|n|s|l|o]; cbn; try (by auto).
  - split; [done|]. right; right. by split_and!.
  - split; [done|]. right; right. by split_and!.
  - destruct s as [|c s]; [by auto|]. set (t := trim (String c s)). destruct (String.eqb_spec t "") as [E|E]; cbn [orb]; [by auto|].
    destruct (String.eqb_spec t "{}") as [E2|E2]; [by auto|].
    assert (∀ u, JSON_parse t = u → match u with Some u => is_empty_object u = false | None => True end →
      toJsonSearchOrUndefined JSON_parse (JStr t) = JStr t) as Hid.
    { intros u Hu Hne. destruct t as [|d t'] eqn:Et; [done|]. cbn [toJsonSearchOrUndefined].
      replace (trim (String d t')) with (String d t') by (rewrite <- Et; unfold t; symmetry; apply trim_idem).
      rewrite (proj2 (String.eqb_neq _ _) E), (proj2 (String.eqb_neq _ _) E2). cbn [orb]. rewrite Hu.
      destruct u as [u|]; [by rewrite Hne|done]. }
    destruct (JSON_parse t) as [u|] eqn:Hu.
    + destruct (is_empty_object u) eqn:He; [by auto|]. split; [by apply (Hid (Some u))|]. right; left.
      exists t. split_and!; [done|done|]. intros u' Hu'. rewrite Hu in Hu'. by injection Hu' as <-.
    + split; [by apply (Hid None)|]. right; left. exists t. split_and!; [done|done|]. by rewrite Hu.
  - split; [done|]. right; right. by split_and!.
  - destruct o as [|kv o]; cbn; [by auto|]. split; [done|]. right; right. by split_and!.
Qed.

(** ** The error format *)

(** A node of the report has constraints, or children below a named property. *)
Fixpoint plain_error (error : ValidationError) : Prop :=
  match error with
  | VError prop constraints children =>
      prop ≠ "" ∧
      match constraints, children with
      | Some _, (None | Some []) => True
      | None, Some (e :: l) => foldr (λ e P, plain_error e ∧ P) True (e :: l)
      | _, _ => False
      end
  end.
Lemma error_ind (P : ValidationError → Prop) :
  (∀ p cs ch, match ch with Some l => Forall P l | None => True end → P (VError p cs ch)) → ∀ e, P e.
Proof.
  intros HP. fix IH 1. intros [p cs [l|]]; apply HP; [|exact I].
  induction l as [|e l IHl]; constructor; [apply IH|exact IHl].
Qed.
Definition shown (e : IValidationError) : string * string := (iv_field e, join ", " (iv_messages e)).
Lemma append_ne a b : a ≠ "" → a +:+ b ≠ "".
Proof. by destruct a. Qed.
Lemma flatten_shown error parent : plain_error error →
  List.map shown (flatten_error parent error) =
    List.map (λ e, (if String.eqb parent "" then e.1 else parent +:+ "." +:+ e.1, e.2)) (format_error error).
Proof.
  revert parent. induction error as [prop constraints children IH] using error_ind. intros parent [Hp Hc].
  set (path := if String.eqb parent "" then prop else parent +:+ "." +:+ prop).
  assert (path ≠ "") as Hpath by (unfold path; destruct (String.eqb_spec parent ""); [done|by apply append_ne]).
  destruct constraints as [cs|], children as [[|e l]|]; try done; cbn [flatten_error format_error];
    [by cbn; destruct (String.eqb parent "")..|].
  assert (∀ l, (∀ e, e ∈ l → ∀ parent, plain_error e → List.map shown (flatten_error parent e) =
      List.map (λ e, (if String.eqb parent "" then e.1 else parent +:+ "." +:+ e.1, e.2)) (format_error e)) →
    foldr (λ e P, plain_error e ∧ P) True l →
    List.map shown (flat_map (flatten_error path) l) =
    List.map (λ e, (path +:+ "." +:+ e.1, e.2)) (flat_map format_error l)) as Hl.
  { clear -Hpath. intros l Hl0 Hl. induction l as [|e l IHl]; [done|]. destruct Hl as [He Hl]. cbn [flat_map].
    rewrite !List.map_app, (IHl (λ e0 He0, Hl0 e0 (list_elem_of_further _ _ _ He0)) Hl). f_equal.
    rewrite (Hl0 e ltac:(left) path He). by rewrite (proj2 (String.eqb_neq _ _) Hpath). }
  cbn [app]. fold path. rewrite (Hl (e :: l) (proj1 (Forall_forall _ _) IH) Hc), List.map_map. apply List.map_ext. intros [f m]. cbn. unfold path.
  destruct (String.eqb parent ""); [done|]. by rewrite !append_assoc.
Qed.
(** The two formats of a validation report, that of query parameters and that
    of bodies (flattenValidationErrors), name the same fields with the same
    messages. *)
Theorem error_formats_agree errors : (∀ e, e ∈ errors → plain_error e) →
  formatValidationErrors errors = List.map shown (flattenValidationErrors errors "").
Proof.
  intros He. unfold formatValidationErrors, flattenValidationErrors.
  induction errors as [|e l IH]; [done|]. cbn [flat_map]. rewrite List.map_app, <- IH by (intros; apply He; by right).
  f_equal. rewrite flatten_shown by (apply He; left). cbn. rewrite <- (List.map_id (format_error e)) at 1.
  apply List.map_ext. by intros [].
Qed.

(** ** Validated queries *)

Lemma obj_get_filter (P : jsv → bool) k o : NoDup (obj_keys o) →
  obj_get k (List.filter (λ kv, P kv.2) o) = match obj_get k o with Some v => if P v then Some v else None | None => None end.
Proof.
  induction o as [|[k' v'] o IH]; intros Hnd; [done|]. cbn in Hnd. apply NoDup_cons in Hnd as [Hk Hnd].
  cbn [List.filter obj_get snd]. destruct (P v') eqn:HP; cbn [obj_get]; destruct (String.eqb_spec k k') as [->|Hne].
  - by rewrite HP.
  - by apply IH.
  - rewrite IH, HP by done. by rewrite (proj2 (obj_get_None _ _) Hk).
  - by apply IH.
Qed.

(** A parameter of the request overrides its default, and one given as
    [undefined] removes it: the default does not come back. *)
Theorem merged_spec defaults query k : NoDup (obj_keys defaults) → NoDup (obj_keys query) →
  obj_get k (mergedParams defaults query) =
    match (match obj_get k query with Some v => Some v | None => obj_get k defaults end) with
    | None | Some JUndefined => None
    | Some v => Some v
    end.
Proof.
  intros Hd Hq. unfold mergedParams.
  rewrite (obj_get_filter (λ v, match v with JUndefined => false | _ => true end)) by by apply spread_keys.
  rewrite obj_get_spread by done. by destruct (match obj_get k query with Some v => Some v | None => _ end) as [[]|].
Qed.

Section validated.
Context {Instance_ : Type} (plainToInstance : list (string * jsv) → Instance_) (validate : Instance_ → list ValidationError).
Context (JSON_parse : string → option jsv) (prop_of : Instance_ → string → option dto_value).
(** The instance has the transformed properties of the plain object over the
    initial ones of the class; the validator reports nothing exactly when every
    property of the instance satisfies its rules. *)
Hypothesis instance_props : ∀ o k, NoDup (obj_keys o) → prop_of (plainToInstance o) k =
  match obj_get k o with Some v => Some (transform_property JSON_parse k v) | None => initial_value k end.
Hypothesis validate_spec : ∀ i, validate i = [] ↔ ∀ k v, prop_of i k = Some v → rule JSON_parse k v = true.

(** The type of a property of an accepted query. *)
Definition typed (k : string) (v : dto_value) : Prop :=
  if includes NUMBERS k then v = DValue JNull ∨ ∃ n, v = DNumber n ∧ is_finite n = true
  else if includes FLAGS k then ∃ b, v = DValue (JBool b)
  else if includes LISTS k then ∃ l, v = DValue (JArr l)
  else if includes TEXTS k then v = DValue JNull ∨ ∃ s, v = DValue (JStr s)
  else k = "s" ∧ (v = DValue JUndefined ∨
                  ∃ text, v = DValue (JStr text) ∧ ((∃ l, JSON_parse text = Some (JArr l)) ∨
                                                   ∃ f, JSON_parse text = Some (JObj f) ∧ f ≠ [])).

Lemma typed_value k v : rule JSON_parse k (transform_property JSON_parse k v) = true → v ≠ JUndefined →
  typed k (transform_property JSON_parse k v).
Proof.
  unfold rule, transform_property, typed. intros Hr Hv. destruct (includes NUMBERS k) eqn:Hn.
  { destruct v as [| |b|n|s|l|o]; try done; [by left|right; eexists; split; [done|exact Hr]..]. }
  destruct (String.eqb_spec k "s") as [->|Hs].
  { change (includes FLAGS "s") with false. change (includes LISTS "s") with false. change (includes TEXTS "s") with false in *.
    cbv iota in *. split; [done|].
    destruct (search_normal JSON_parse v) as [_ Hw]. cbv zeta in Hw. destruct Hw as [Hw|[(text & Hw & _ & Hne)|(Hns & He & Hw)]];
      [by left; rewrite Hw|right|].
    - exists text. split; [by rewrite Hw|]. rewrite Hw in Hr. cbn [is_optional orb] in Hr.
      destruct (JSON_parse text) as [u|] eqn:Hu; [|done]. destruct u as [| | | | |l|f]; try done; [left; by exists l|right].
      exists f. split; [done|]. intros ->. specialize (Hne (JObj []) eq_refl). done.
    - rewrite Hw in Hr. rewrite Hw in Hns, He. destruct v as [| |b|n|s|l|o]; try done.
      by destruct (Hns s). }
  destruct (includes FLAGS k) eqn:Hf; [|destruct (includes LISTS k) eqn:Hl].
  - assert (includes LISTS k = false) as -> by (apply includes_true in Hf;
      repeat (apply elem_of_cons in Hf as [->|Hf]; [done|]); by apply elem_of_nil in Hf).
    unfold to_flag. destruct v; by eexists.
  - unfold to_list_param. destruct v as [| |b|n|s|l|o]; try by eexists. destruct (String.eqb (trim s) ""); by eexists.
  - destruct (includes TEXTS k) eqn:Ht; [|done]. destruct v as [| |b|n|s|l|o]; try done; [by left|right; by eexists].
Qed.

Lemma initial_typed k v : initial_value k = Some v → typed k v.
Proof.
  unfold initial_value. intros Hi. destruct (includes LISTS k) eqn:Hl; [|destruct (includes FLAGS k) eqn:Hf; [|]].
  - injection Hi as <-. apply includes_true in Hl.
    repeat (apply elem_of_cons in Hl as [->|Hl]; [by eexists|]); by apply elem_of_nil in Hl.
  - injection Hi as <-. apply includes_true in Hf.
    repeat (apply elem_of_cons in Hf as [->|Hf]; [by eexists|]); by apply elem_of_nil in Hf.
  - destruct (String.eqb_spec k "timezone") as [->|]; [|done]. injection Hi as <-. right. by eexists.
Qed.

(** C14: A list request reaches the service with well-typed parameters, whatever
    the client sends: the page numbers are finite numbers, the flags booleans,
    the filters lists, the texts strings, the search the text of a non-empty
    object or of an array, and there is nothing else; otherwise the answer is the
    error for invalid parameters. *)
Theorem accepted_query_typed defaults query : NoDup (obj_keys (default [] defaults)) → NoDup (obj_keys (queryParams query)) →
  match ValidatedQuery plainToInstance validate defaults query with
  | Ok i => ∀ k v, prop_of i k = Some v → typed k v
  | Throw e => ∃ errors, errors ≠ [] ∧ e = InvalidParameterException (formatValidationErrors errors)
  end.
Proof.
  intros Hd Hq. unfold ValidatedQuery.
  set (o := mergedParams (default [] defaults) (queryParams query)).
  destruct (validate (plainToInstance o)) as [|e l] eqn:Hv; [|by exists (e :: l)].
  intros k v Hk. pose proof (proj1 (validate_spec _) Hv k v Hk) as Hr.
  assert (NoDup (obj_keys o)) as Ho.
  { unfold o, mergedParams, obj_keys. pose proof (spread_keys (default [] defaults) (queryParams query) Hd) as Hs.
    unfold obj_keys in Hs. clear -Hs. induction (obj_spread _ _) as [|kv l IH]; [done|]. cbn in *.
    apply NoDup_cons in Hs as [Hn Hs]. destruct (match kv.2 with JUndefined => false | _ => true end); [|by apply IH].
    cbn. apply NoDup_cons. split; [|by apply IH]. contradict Hn. apply list_elem_of_fmap in Hn as (x & -> & Hx).
    apply elem_of_List_filter in Hx as [Hx _]. by apply list_elem_of_fmap_2. }
  rewrite instance_props in Hk by done. unfold o in Hk at 1. rewrite merged_spec in Hk by done.
  destruct (match obj_get k (queryParams query) with Some v => Some v | None => _ end) as [w|].
  - assert (w ≠ JUndefined → Some (transform_property JSON_parse k w) = Some v → typed k v) as Hw
      by (intros Hu [= <-]; by apply typed_value).
    destruct w; try (by apply Hw). clear Hw. by apply initial_typed.
  - by apply initial_typed.
Qed.
End validated.

(** ** Samples and witnesses *)
Module QueryParamsSample.
Definition JSON_parse (s : string) : option jsv :=
  if String.eqb s "{}" then Some (JObj [])
  else if String.eqb s "[1]" then Some (JArr [JNum "1"]) else None.
(** An instance is the plain object; its properties are computed on demand. *)
Definition declared_keys : list string := NUMBERS ++ TEXTS ++ LISTS ++ FLAGS ++ ["s"].
Definition prop_of (i : list (string * jsv)) (k : string) : option dto_value :=
  match obj_get k i with Some v => Some (transform_property JSON_parse k v) | None => initial_value k end.
Definition bad (i : list (string * jsv)) (k : string) : bool :=
  match prop_of i k with Some v => negb (rule JSON_parse k v) | None => false end.
Definition validate (i : list (string * jsv)) : list ValidationError :=
  List.map (λ k, VError k (Some [("rule", k +:+ " is not valid")]) None) (List.filter (bad i) (obj_keys i)).
Lemma props o k : NoDup (obj_keys o) →
  prop_of o k = match obj_get k o with Some v => Some (transform_property JSON_parse k v) | None => initial_value k end.
Proof. done. Qed.
Lemma initial_ok k v : initial_value k = Some v → rule JSON_parse k v = true.
Proof.
  unfold initial_value, rule. intros Hi. destruct (includes LISTS k) eqn:Hl; [|destruct (includes FLAGS k) eqn:Hf].
  - injection Hi as <-. apply includes_true in Hl.
    repeat (apply elem_of_cons in Hl as [->|Hl]; [done|]); by apply elem_of_nil in Hl.
  - injection Hi as <-. apply includes_true in Hf.
    repeat (apply elem_of_cons in Hf as [->|Hf]; [done|]); by apply elem_of_nil in Hf.
  - destruct (String.eqb_spec k "timezone") as [->|]; [|done]. by injection Hi as <-.
Qed.
Lemma validates i : validate i = [] ↔ ∀ k v, prop_of i k = Some v → rule JSON_parse k v = true.
Proof.
  unfold validate. split.
  - intros Hv k v Hk. apply List.map_eq_nil in Hv. unfold prop_of in Hk.
    destruct (obj_get k i) as [w|] eqn:E; [|by apply initial_ok].
    destruct (rule JSON_parse k v) eqn:Hr; [done|]. exfalso.
    assert (k ∈ List.filter (bad i) (obj_keys i)) as Hin; [|rewrite Hv in Hin; by apply elem_of_nil in Hin].
    apply elem_of_List_filter. apply obj_get_Some in E as Hki. split; [exact (list_elem_of_fmap_2 fst i (k, w) Hki)|].
    unfold bad, prop_of. rewrite E. injection Hk as ->. by rewrite Hr.
  - intros Hr. assert (List.filter (bad i) (obj_keys i) = []) as ->; [|done].
    apply List_filter_none. intros k _. unfold bad. destruct (prop_of i k) as [v|] eqn:E; [|done]. by rewrite (Hr k v E).
Qed.
Definition request : jsv := JObj [("page", JStr "2"); ("filter", JStr "status||$eq||a"); ("get_count_only", JStr "TRUE")].
Definition nested : ValidationError :=
  VError "address" None (Some [VError "zip" (Some [("isNumber", "zip must be a number"); ("min", "too small")]) None]).
End QueryParamsSample.

Lemma toNumber_number_witness : isNaN (toNumber (Number "1") (JStr "x")) = false.
Proof. exact (toNumber_number (Number "1") (JStr "x") eq_refl). Defined.
Lemma error_formats_agree_witness :
  formatValidationErrors [QueryParamsSample.nested] = [("address.zip", "zip must be a number, too small")].
Proof.
  rewrite (error_formats_agree [QueryParamsSample.nested]); [reflexivity|].
  intros e ->%list_elem_of_singleton. cbn. repeat split; discriminate.
Defined.
Lemma merged_spec_witness : obj_get "limit" (mergedParams [("limit", JNum "10")] [("limit", JUndefined)]) = None.
Proof.
  rewrite (merged_spec [("limit", JNum "10")] [("limit", JUndefined)] "limit");
    [reflexivity|apply (bool_decide_unpack _); exact I|apply (bool_decide_unpack _); exact I].
Defined.
Lemma accepted_query_typed_witness : ∃ i,
  ValidatedQuery (λ o, o) QueryParamsSample.validate None QueryParamsSample.request = Ok i ∧
  ∃ n, QueryParamsSample.prop_of i "page" = Some (DNumber n) ∧ is_finite n = true.
Proof.
  pose proof (accepted_query_typed (λ o, o) QueryParamsSample.validate QueryParamsSample.JSON_parse QueryParamsSample.prop_of
    QueryParamsSample.props QueryParamsSample.validates None QueryParamsSample.request
    ltac:(constructor) ltac:(apply (bool_decide_unpack _); exact I)) as Ht.
  exists [("page", JStr "2"); ("filter", JStr "status||$eq||a"); ("get_count_only", JStr "TRUE")].
  split; [reflexivity|].
  destruct (Ht "page" _ eq_refl) as [E|(n & E & Hn)]; [discriminate E|]. exists n. split; [|exact Hn]. rewrite <- E. reflexivity.
Defined.
