(* ===== verification/Messaging.v ===== *)
(** * Messages between services

    The transports (src/libs/common/src/utils/microservice-transport.util.ts,
    enum/app-microservice.enum.ts): which client reaches which server; the guard
    against channel errors; and the acknowledgement of RabbitMQ messages
    (rmq-ack-interceptor.util.ts) with the consumption of a queue by a server
    that takes one message at a time. *)

From S2P Require Import Prelude JsString JsValues RpcErrors MicroserviceClient SessionStore Guards Repo BaseService AuthService.
#[local] Open Scope string_scope.
#[local] Open Scope Z_scope.
#[local] Open Scope list_scope.

(** ** The services *)

Inductive AppMicroserviceKey := Auth | Iam | Inventory | Supplier | Sales | Finance | Report | StorageService.
#[export] Instance key_eq : EqDecision AppMicroserviceKey.
Proof. solve_decision. Defined.
Definition all_services : list AppMicroserviceKey := [Auth; Iam; Inventory; Supplier; Sales; Finance; Report; StorageService].
Record service_entry := ServiceEntry { se_name : string; se_queue : string; hostEnv : string; portEnv : string }.
Definition AppMicroservice (k : AppMicroserviceKey) : service_entry :=
  match k with
  | Auth => ServiceEntry "AUTH_SERVICE" "erp_auth_queue" "AUTH_MODULE_MICROSERVICE_HOST" "AUTH_MODULE_MICROSERVICE_PORT"
  | Iam => ServiceEntry "IAM_SERVICE" "erp_iam_queue" "IAM_MODULE_MICROSERVICE_HOST" "IAM_MODULE_MICROSERVICE_PORT"
  | Inventory => ServiceEntry "INVENTORY_SERVICE" "erp_inventory_queue" "INVENTORY_BC_MODULE_MICROSERVICE_HOST"
                   "INVENTORY_BC_MODULE_MICROSERVICE_PORT"
  | Supplier => ServiceEntry "SUPPLIER_SERVICE" "erp_supplier_queue" "SUPPLIER_BC_MODULE_MICROSERVICE_HOST"
                  "SUPPLIER_BC_MODULE_MICROSERVICE_PORT"
  | Sales => ServiceEntry "SALES_SERVICE" "erp_sales_queue" "SALES_BC_MODULE_MICROSERVICE_HOST"
               "SALES_BC_MODULE_MICROSERVICE_PORT"
  | Finance => ServiceEntry "FINANCE_SERVICE" "erp_finance_queue" "FINANCE_BC_MODULE_MICROSERVICE_HOST"
                 "FINANCE_BC_MODULE_MICROSERVICE_PORT"
  | Report => ServiceEntry "REPORT_SERVICE" "erp_report_queue" "REPORT_BC_MODULE_MICROSERVICE_HOST"
                "REPORT_BC_MODULE_MICROSERVICE_PORT"
  | StorageService => ServiceEntry "STORAGE_SERVICE" "erp_storage_queue" "STORAGE_MODULE_MICROSERVICE_HOST"
                        "STORAGE_MODULE_MICROSERVICE_PORT"
  end.

(** ** Transports *)

Record rmq_url := RmqUrl { hostname : string; rmq_port : string; username_ : string; password_ : string; vhost : string }.
Record socket_options := SocketOptions { heartbeatIntervalInSeconds : string; reconnectTimeInSeconds : string }.
Inductive transport_options :=
  | TCP (host : string) (port : option string)
  | RMQ (urls : list rmq_url) (queue : string) (durable : bool) (sockets : socket_options)
      (noAck : option bool) (prefetchCount : option Z).

Section transports.
(** The configuration every service reads. *)
Context (env : string → option string).
Inductive MicroserviceTransport := rmq | tcp.
Definition resolveTransport : MicroserviceTransport :=
  match env "TRANSPORT" with Some "tcp" => tcp | _ => rmq end.
Definition buildRmqUrls : list rmq_url :=
  [RmqUrl (default "localhost" (env "RABBITMQ_HOST")) (default "5672" (env "RABBITMQ_PORT"))
     (default "guest" (env "RABBITMQ_USER")) (default "guest" (env "RABBITMQ_PASS")) (default "/" (env "RABBITMQ_VHOST"))].
Definition buildRmqSocketOptions : socket_options :=
  SocketOptions (default "20" (env "RABBITMQ_HEARTBEAT")) (default "5" (env "RABBITMQ_RECONNECT_DELAY")).
Definition buildClientProvider (service : service_entry) : transport_options :=
  match resolveTransport with
  | tcp => TCP (default "localhost" (env (hostEnv service))) (env (portEnv service))
  | rmq => RMQ buildRmqUrls (se_queue service) true buildRmqSocketOptions None None
  end.
Definition buildServerOptions (k : AppMicroserviceKey) : transport_options :=
  let service := AppMicroservice k in
  match resolveTransport with
  | tcp => TCP "0.0.0.0" (env (portEnv service))
  | rmq => RMQ buildRmqUrls (se_queue service) true buildRmqSocketOptions (Some false) (Some 1)
  end.
End transports.

(** ** The channel error guard *)

(** [AmqpConnectionManagerClass.prototype.createChannel]: whether it is the guarded
    one, and the error listeners a channel it makes has. *)
Record create_channel := CreateChannel { is_channel_error_guard_installed : bool; error_listeners : nat }.
Definition installRmqChannelErrorGuard (original : create_channel) : create_channel :=
  if is_channel_error_guard_installed original then original else CreateChannel true (Datatypes.S (error_listeners original)).
(** An [error] event without a listener is thrown. *)
Definition emit_error (c : create_channel) (e : exn) : result unit := match error_listeners c with O => Throw e | _ => Ok tt end.

(** ** Acknowledgement *)

(** The context of a message; [None] for a method the context does not have. *)
Record rpc_context (M : Type) := RpcContext { is_rpc : bool; has_channel : bool; getMessage : option M }.
Arguments RpcContext {M} _ _ _.
Arguments is_rpc {M} _.
Arguments has_channel {M} _.
Arguments getMessage {M} _.
Section ack.
Context {M V : Type}.
Definition NOT_A_FUNCTION : exn := PlainError "rmqContext.getChannelRef is not a function".
(** The messages acknowledged. *)
Definition ackMessage (c : rpc_context M) : result (list M) :=
  if is_rpc c then if has_channel c then Ok (option_list (getMessage c)) else Throw NOT_A_FUNCTION else Ok [].
(** [tap], then [catchError] on what the handler or [tap] threw; the handler's
    result is one value or an error. *)
Definition intercept (c : rpc_context M) (handled : result V) : result V * list M :=
  let '(tapped, acked) :=
    match handled with
    | Ok v => match ackMessage c with Ok a => (Ok v, a) | Throw e => (Throw e, []) end
    | Throw e => (Throw e, [])
    end in
  match tapped with
  | Ok v => (Ok v, acked)
  | Throw err => match ackMessage c with Ok a => (Throw err, acked ++ a) | Throw e => (Throw e, acked) end
  end.

(** A server with [noAck: false] and [prefetchCount: 1]: the next message comes
    when the one before is acknowledged; [None] for a handler that never settles.
    The messages acknowledged, and those left. *)
Context `{EqDecision M}.
Fixpoint consume (handler : M → option (result V)) (queue : list M) : list M * list M :=
  match queue with
  | [] => ([], [])
  | m :: queue' =>
      match handler m with
      | None => ([], queue)
      | Some handled =>
          if decide (m ∈ (intercept (RpcContext true true (Some m)) handled).2)
          then let '(acked, rest) := consume handler queue' in (m :: acked, rest) else ([], queue)
      end
  end.
End ack.

(** ** The answer to a request *)

(** The context a server makes of a message: a [TcpContext] has neither
    [getChannelRef] nor [getMessage]. *)
Definition context_of {M} (server : transport_options) (m : M) : rpc_context M :=
  match server with
  | TCP _ _ => RpcContext true false None
  | RMQ _ _ _ _ _ _ => RpcContext true true (Some m)
  end.

Section answer.
(** What [RpcExceptionsFilter] makes of an exception. *)
Context (filtered : exn → jsv).
(** [connectMicroservice(options)]: without this option the filters of the
    application do not see the exceptions of the microservice, *)
Definition inheritAppConfig : bool := false.
(** and Nest answers whatever a handler throws in this way. *)
Definition unknown_exception : jsv := JObj [("status", JStr "error"); ("message", JStr "Internal server error")].
Definition answer_of {V} (to_json : V → jsv) (r : result V) : MicroserviceClient.answer :=
  match r with
  | Ok v => Emits (to_json v)
  | Throw e => Rejects (RValue (if inheritAppConfig then filtered e else unknown_exception))
  end.
End answer.

(** [IIamUser] on the wire, and as auth-bc reads it. *)
Definition optional (v : option string) : jsv := match v with Some t => JStr t | None => JNull end.
Definition iam_user_json (u : IIamUser) : jsv :=
  JObj [("id", JStr (i_user_id u)); ("username", JStr (i_username u)); ("email", optional (i_email u));
        ("full_name", optional (i_full_name u)); ("status", JStr (i_status u)); ("expired_at", optional (i_expired_at u))].
Definition text_of (v : jsv) : option string := match v with JStr t => Some t | _ => None end.
Definition iam_user_of (v : jsv) : option IIamUser :=
  if nullish v then None
  else let f k := text_of (chain v k) in
    Some (IamUser (default "" (f "id")) (default "" (f "username")) (f "email") (f "full_name")
            (default "" (f "status")) (f "expired_at")).

(** [sendWithContext] of auth-bc to the handler of iam-bc, both configured by
    [env]. *)
Section fetch_iam_user.
Context (env : string → option string) (filtered : exn → jsv) (http_exn : http_exception → exn).
Context {D : Type} `{JsonText D} (digest : D → string) `{Nest} {C : Type} `{Redis C D} (site : call_site) (cache : C).
Context (findById : string → result IIamUser).

Definition fetch_iam_user (userId : string) : result (option IIamUser) :=
  let handled := (intercept (context_of (buildServerOptions env Iam) userId) (findById userId)).1 in
  match (sendWithContext digest site "iam.users.find-by-id" (JObj [("user_id", JStr userId)]) JUndefined None
           (answer_of filtered iam_user_json handled) cache).1.1 with
  | Returns v => Ok (iam_user_of v)
  | Throws h => Throw (http_exn h)
  end.
End fetch_iam_user.

(** ** Properties *)

(** A client sends to where the server listens. *)
Definition meets (client server : transport_options) : Prop :=
  match client, server with
  | TCP _ p, TCP h' p' => p = p' ∧ h' = "0.0.0.0"
  | RMQ u q d _ _ _, RMQ u' q' d' _ noAck prefetch => u = u' ∧ q = q' ∧ d = d' ∧ noAck = Some false ∧ prefetch = Some 1
  | _, _ => False
  end.
Lemma queues_differ j k : se_queue (AppMicroservice j) = se_queue (AppMicroservice k) → j = k.
Proof. by destruct j, k. Qed.

(** With one configuration for all services a client reaches the server it is
    for, and no other: on RabbitMQ always, on TCP when the ports differ. *)
Theorem client_meets_server env j k :
  meets (buildClientProvider env (AppMicroservice j)) (buildServerOptions env k) ↔
    match resolveTransport env with
    | rmq => j = k
    | tcp => env (portEnv (AppMicroservice j)) = env (portEnv (AppMicroservice k))
    end.
Proof.
  unfold buildClientProvider, buildServerOptions. destruct (resolveTransport env); cbn.
  - split; [by intros (_ & Hq & _); apply queues_differ|by intros ->].
  - split; [by intros [? _]|done].
Qed.

(** The guard is installed once, whatever the number of calls, and then no
    channel error ends the process. *)
Theorem guard_installed c e : let c' := installRmqChannelErrorGuard c in
  installRmqChannelErrorGuard c' = c' ∧
  (is_channel_error_guard_installed c = false → emit_error c' e = Ok tt ∧ error_listeners c' = Datatypes.S (error_listeners c)).
Proof. unfold installRmqChannelErrorGuard. destruct (is_channel_error_guard_installed c) eqn:E; cbn; rewrite ?E; by split. Qed.

Section acknowledged.
Context {M V : Type} `{EqDecision M}.

(** On RabbitMQ a message is acknowledged exactly once, whether its handler
    succeeds or fails, and the answer is the handler's; on a transport whose
    contexts have no channel every message is answered with a TypeError, whatever
    the handler did. *)
Theorem acknowledged_once (c : rpc_context M) (m : M) (handled : result V) : is_rpc c = true → getMessage c = Some m →
  intercept c handled = if has_channel c then (handled, [m]) else (Throw NOT_A_FUNCTION, []).
Proof.
  intros Hr Hm. unfold intercept, ackMessage. rewrite Hr, Hm. by destruct (has_channel c), handled.
Qed.

(** The queue is consumed in order, failures included, up to the first message
    whose handler never settles, which blocks it. *)
Theorem queue_consumed (handler : M → option (result V)) queue :
  let '(acked, rest) := consume handler queue in
  queue = acked ++ rest ∧ (∀ m, m ∈ acked → is_Some (handler m)) ∧
  match rest with [] => True | m :: _ => handler m = None end.
Proof.
  induction queue as [|m queue IH]; cbn; [split_and!; [done|by intros m ?%elem_of_nil|done]|].
  destruct (handler m) as [handled|] eqn:Hm; [|by split_and!; [|intros ? ?%elem_of_nil|]].
  rewrite decide_True by (destruct handled; cbn; left). destruct (consume handler queue) as [acked rest].
  destruct IH as (-> & Ha & Hl). split_and!; [done| |done]. intros m' [->|?]%elem_of_cons; [by eexists|by apply Ha].
Qed.
End acknowledged.

(** *** The TCP fallback *)

Lemma iam_user_round_trip u : iam_user_of (iam_user_json u) = Some u.
Proof. destruct u as [i n e f st x]. by destruct e, f, x. Qed.

Section fallback.
Context {T : Type → Type} `{DatabaseLaws T} {S V : Type} `{Redis S V} `{!Json ISessionData V}.
Context (bcrypt_compare : string → string → bool) (sha256_hex : string → string) (uuid random_hex : nat → string)
        (jwt_sign : jwt_payload → Z → string).
Context (ResolvePermissions : string → result (option IResolvedPermissions)).
Context (access_expires_in refresh_expires_in : option string).
Context (filtered : exn → jsv) (http_exn : http_exception → exn).
Context {D : Type} `{JsonText D} (digest : D → string) `{Nest} {C : Type} `{Redis C D} (site : call_site) (cache : C).
Abbreviation fetch_iam_user := (λ env, fetch_iam_user env filtered http_exn digest site cache).

(** The call of auth-bc, by transport. *)
Lemma user_found env (findById : string → result IIamUser) k u :
  findById k = Ok u → fetch_iam_user env findById k = Ok (match resolveTransport env with rmq => Some u | tcp => None end).
Proof.
  intros Hu. unfold Messaging.fetch_iam_user, buildServerOptions. rewrite Hu. destruct (resolveTransport env); [|done].
  cbn. by destruct u as [i n [e|] [f|] st [x|]].
Qed.
Lemma user_lost env (findById : string → result IIamUser) k : resolveTransport env = tcp → fetch_iam_user env findById k = Ok None.
Proof. intros Ht. unfold Messaging.fetch_iam_user, buildServerOptions. rewrite Ht. by destruct (findById k). Qed.

(** C37: with [TRANSPORT=tcp] nobody can log in.  The call of auth-bc for the
    user is answered by a controller behind the acknowledging interceptor, which
    throws on a TCP context, whatever the handler found; the microservice is
    connected without the filters of the application, so the answer is Nest's
    "Internal server error", for which the caller falls back on [null].  Correct
    credentials are refused with 403 "This user account is not active."; every
    login leaves accounts, tokens and sessions as they were.  With any other
    value the caller gets the user the handler found. *)
Theorem tcp_refuses_logins env (findById : string → result IIamUser) now today username password ip ua
    (s : auth_state T S) :
  (∀ k u, findById k = Ok u → fetch_iam_user env findById k = Ok (if decide (env "TRANSPORT" = Some "tcp") then None else Some u)) ∧
  (env "TRANSPORT" = Some "tcp" →
   match login (T := T) (V := V) bcrypt_compare sha256_hex uuid random_hex jwt_sign (fetch_iam_user env findById)
           ResolvePermissions access_expires_in refresh_expires_in now today username password ip ua s with
   | (Ok _, _) => False
   | (Throw e, s') => same_access s s' ∧
       ∀ c, repo_findOne (credential_of username) (credentials s) = Some c →
         repo_findOne (blocks now (c_user_id (cols c))) (blockedUsers s) = None → is_active (cols c) = true →
         bcrypt_compare password (password_hash (cols c)) = true →
         e = ForbiddenException "This user account is not active."
   end).
Proof.
  split.
  - intros k u Hu. rewrite (user_found env findById k u Hu). unfold resolveTransport.
    case_decide as Ht; [by rewrite Ht|]. destruct (env "TRANSPORT") as [t|]; [|done].
    destruct (String.eqb_spec t "tcp") as [->|Hne]; [done|]. clear Hu.
    do 3 (destruct t as [|[[] [] [] [] [] [] [] []] t]; try done). by destruct t.
  - intros Ht. assert (resolveTransport env = tcp) as Htcp by (unfold resolveTransport; by rewrite Ht).
    pose proof (login_opens (V := V) bcrypt_compare sha256_hex uuid random_hex jwt_sign (fetch_iam_user env findById)
      ResolvePermissions access_expires_in refresh_expires_in now today username password ip ua s) as Ho.
    pose proof (login_unknown_user (V := V) bcrypt_compare sha256_hex uuid random_hex jwt_sign (fetch_iam_user env findById)
      ResolvePermissions access_expires_in refresh_expires_in now today username password ip ua s) as Hf.
    destruct (login _ _ _ _ _ _ _ _ _ _ _ _ _ _ _ _) as [[res|e] s'].
    + destruct Ho as (cr & u & perms & s1 & [_ _ _ _ Hu _ _] & _). by rewrite user_lost in Hu.
    + split; [apply Ho|]. intros c Hc Hb Ha Hp. specialize (Hf c Hc Hb Ha Hp (user_lost env findById _ Htcp)).
      cbn in Hf. congruence.
Qed.
End fallback.

(** ** Witnesses *)

Lemma acknowledged_once_witness :
  intercept (V := nat) (RpcContext true true (Some "m1")) (Throw (PlainError "x")) = (Throw (PlainError "x"), ["m1"]) ∧
  intercept (V := nat) (RpcContext true false (Some "m1")) (Ok 7%nat) = (Throw NOT_A_FUNCTION, []).
Proof.
  split.
  - rewrite (acknowledged_once (RpcContext true true (Some "m1")) "m1" (Throw (PlainError "x")) eq_refl eq_refl). reflexivity.
  - rewrite (acknowledged_once (RpcContext true false (Some "m1")) "m1" (Ok 7%nat) eq_refl eq_refl). reflexivity.
Defined.
#[local] Existing Instance MicroserviceClient.Sample.text.
#[local] Existing Instance MicroserviceClient.Sample.nest.
Definition tcp_env (k : string) : option string := if String.eqb k "TRANSPORT" then Some "tcp" else None.
Definition sample_handler (k : string) : result IIamUser :=
  match AuthService.Sample.find_user k with Ok (Some u) => Ok u | _ => Throw (NotFoundException k) end.
Abbreviation sample_login env := (login (T := list) (S := mem ISessionData) (V := ISessionData) AuthService.Sample.compare
  AuthService.Sample.digest AuthService.Sample.uuid AuthService.Sample.random_hex AuthService.Sample.sign
  (fetch_iam_user env (λ _, JNull) (λ _, PlainError "") MicroserviceClient.Sample.digest MicroserviceClient.Sample.site
     MicroserviceClient.Sample.store sample_handler)
  AuthService.Sample.resolve None None 0 "2024-06-01" "ann" "secret" None None AuthService.Sample.start).
(** The same login succeeds on RabbitMQ. *)
Example rmq_login : res_ok (sample_login (λ _, None)).1 = true.
Proof. by vm_compute. Qed.
Lemma tcp_refuses_logins_witness : (sample_login tcp_env).1 = Throw (ForbiddenException "This user account is not active.").
Proof.
  pose proof (proj2 (tcp_refuses_logins (T := list) (S := mem ISessionData) (V := ISessionData) AuthService.Sample.compare
    AuthService.Sample.digest AuthService.Sample.uuid AuthService.Sample.random_hex AuthService.Sample.sign
    AuthService.Sample.resolve None None (λ _, JNull) (λ _, PlainError "") MicroserviceClient.Sample.digest
    MicroserviceClient.Sample.site MicroserviceClient.Sample.store tcp_env sample_handler
    0 "2024-06-01" "ann" "secret" None None AuthService.Sample.start) eq_refl) as Hw.
  cbv beta in Hw. destruct (sample_login tcp_env) as [[res|e] s'] eqn:E; [destruct Hw|]. destruct Hw as [_ Hw].
  destruct (repo_findOne (credential_of "ann") (credentials AuthService.Sample.start)) as [c|] eqn:Ec;
    [|vm_compute in Ec; discriminate Ec].
  cbn [fst]. f_equal. apply (Hw c eq_refl); vm_compute in Ec; injection Ec as <-; reflexivity.
Defined.
