(* ===== verification/Bootstrap.v ===== *)
(** * Starting a service

    The decisions of bootstrap.util.ts (src/libs/common/src/utils): which proxies
    are trusted, which origins may call, how many requests a client may make,
    where the service listens, and who sees its documentation.  [of_base64] and
    the path a router finds in a URL are arguments. *)

From S2P Require Import Prelude JsString JsValues.
#[local] Open Scope string_scope.
#[local] Open Scope list_scope.

(** ** Configuration values *)

(** [raw.split(',')], trimmed, without the empty parts. *)
Definition comma_parts (raw : string) : list string :=
  List.filter (λ part, negb (String.eqb part "")) (List.map trim (split "," raw)).
Inductive trust_proxy := Trust (all : bool) | Hops (n : N) | Proxies (l : list string).
Definition resolveTrustProxy (raw : option string) : trust_proxy :=
  match raw with
  | None => Proxies ["127.0.0.1"; "100.64.0.0/10"]
  | Some raw =>
      if String.eqb (trim raw) "" then Proxies ["127.0.0.1"; "100.64.0.0/10"]
      else if String.eqb raw "true" then Trust true
      else if String.eqb raw "false" then Trust false
      else if str_forall is_digit raw then Hops (N_of_digits 0 raw)
      else Proxies (comma_parts raw)
  end.
Inductive cors_origin := Origin (s : string) | Origins (l : list string).
Definition resolveCorsOrigin (raw : string) : cors_origin :=
  if negb (str_includes raw ",") then Origin raw else Origins (comma_parts raw).

Record cors_options := CorsOptions {
  co_origin : cors_origin; co_exposedHeaders : list string; co_methods : list string; co_credentials : bool;
}.
Record SecurityCors := SecurityCorsOptions {
  sc_origin : option cors_origin; sc_exposedHeaders : option (list string); sc_methods : option (list string);
}.
Record rate_limit := RateLimit { rl_max : Z; rl_timeWindow : Z }.
Record RateLimitOptions := RateLimitOpts { ro_windowMs : option Z; ro_max : option Z }.
(** [security.rateLimit]: absent, [false] or options. *)
Inductive rate_setting := RateDefault | RateOff | RateSet (o : RateLimitOptions).
Record security_options := SecurityOptions { so_helmet : option bool; so_rateLimit : rate_setting; so_cors : option SecurityCors }.
Section security.
Context (CORS_ORIGIN : option string) (RATE_LIMIT_MAX RATE_LIMIT_WINDOW_MS : option Z).
Definition cors_of (security : option security_options) : cors_options :=
  let cors := security ≫= so_cors in
  CorsOptions (default (resolveCorsOrigin (default "*" CORS_ORIGIN)) (cors ≫= sc_origin))
    (default ["X-Trace-Id"] (cors ≫= sc_exposedHeaders))
    (default ["GET"; "HEAD"; "PUT"; "PATCH"; "POST"; "DELETE"] (cors ≫= sc_methods)) true.
Definition helmet_of (security : option security_options) : bool :=
  match security ≫= so_helmet with Some false => false | _ => true end.
Definition rate_of (security : option security_options) : option rate_limit :=
  match (match security with Some s => so_rateLimit s | None => RateDefault end) with
  | RateOff => None
  | r =>
      let opts := match r with RateSet o => o | _ => RateLimitOpts None None end in
      Some (RateLimit (default (default 10000%Z (ro_max opts)) RATE_LIMIT_MAX)
              (default (default 900000%Z (ro_windowMs opts)) RATE_LIMIT_WINDOW_MS))
  end.
End security.

(** [Number(configService.get(httpPortEnv))] *)
Definition resolveHttpPort (httpPortEnv : string) (value : option string) : result number :=
  let port := match value with Some v => Number v | None => Number "NaN" end in
  if isNaN port then Throw (PlainError ("HTTP port env '" +:+ httpPortEnv +:+ "' is not defined.")) else Ok port.

(** ** The documentation *)

Record docs_config := DocsConfig {
  pathURI : string; docs_endpoint : option string; json_endpoint : option string; classic_endpoint : option string;
  docsUsername : option string; docsPassword : option string;
}.
Section docs.
Context (of_base64 : string → string).
Definition docs_path (c : docs_config) (endpoint : option string) (fallback : string) : string :=
  "/" +:+ pathURI c +:+ "/" +:+ default fallback endpoint.
Definition docs_paths (c : docs_config) : list string :=
  [docs_path c (docs_endpoint c) "api-docs"; docs_path c (json_endpoint c) "json-docs";
   docs_path c (classic_endpoint c) "classic-docs"].
(** [length] and [timingSafeEqual] on the bytes *)
Definition same_bytes (a b : string) : bool := Nat.eqb (String.length a) (String.length b) && String.eqb a b.
(** The hook: [true] lets the request on, [false] answers 401; no hook without
    both credentials. *)
Definition docs_hook (c : docs_config) (url : string) (authorization : option string) : bool :=
  match truthy (docsUsername c), truthy (docsPassword c) with
  | Some user, Some pass =>
      let expected := user +:+ ":" +:+ pass in
      if List.existsb (startsWith url) (docs_paths c) then
        match truthy authorization with
        | Some h => if startsWith h "Basic " then same_bytes (of_base64 (slice_from 6 h)) expected else false
        | None => false
        end
      else true
  | _, _ => true
  end.

(** ** Properties *)

Lemma same_bytes_true a b : same_bytes a b = true ↔ a = b.
Proof.
  unfold same_bytes. rewrite andb_true_iff, Nat.eqb_eq, String.eqb_eq. split; [by intros [_ ?]|by intros ->].
Qed.

(** With both credentials configured the documentation is shown to who sends
    them and to nobody else; every other path is left alone; with one of them
    missing the documentation is public. *)
Theorem docs_shown c url authorization : docs_hook c url authorization = true ↔
  (∀ user pass, truthy (docsUsername c) = Some user → truthy (docsPassword c) = Some pass →
    (∃ p, p ∈ docs_paths c ∧ startsWith url p = true) →
    ∃ encoded, authorization = Some ("Basic " +:+ encoded) ∧ of_base64 encoded = user +:+ ":" +:+ pass).
Proof.
  unfold docs_hook. destruct (truthy (docsUsername c)) as [user|]; [|by split; [intros _|]].
  destruct (truthy (docsPassword c)) as [pass|]; [|by split; [intros _|]].
  destruct (List.existsb (startsWith url) (docs_paths c)) eqn:E.
  - apply existsb_exists in E as (p & Hp & Hs). apply list_elem_of_In in Hp. split.
    + intros H u w [= <-] [= <-] _. destruct authorization as [[|a h]|]; try done. cbn [truthy] in H.
      destruct (startsWith (String a h) "Basic ") eqn:Hb; [|done]. apply startsWith_true in Hb as [t Ht].
      rewrite Ht in H |- *. exists t. split; [done|]. apply same_bytes_true in H. rewrite <- H.
      symmetry. apply f_equal. exact (slice_from_app "Basic " t).
    + intros H. destruct (H user pass eq_refl eq_refl (ex_intro _ p (conj Hp Hs))) as (encoded & -> & He).
      change (truthy (Some ("Basic " +:+ encoded))) with (Some ("Basic " +:+ encoded)). cbv iota beta.
      rewrite (proj2 (startsWith_true _ _)) by by eexists. apply same_bytes_true. rewrite <- He. apply f_equal.
      exact (slice_from_app "Basic " encoded).
  - split; [|done]. intros _ u w _ _ (p & Hp & Hs). exfalso. apply list_elem_of_In in Hp.
    enough (List.existsb (startsWith url) (docs_paths c) = true) as E' by by rewrite E in E'.
    apply existsb_exists. by exists p.
Qed.

End docs.

(** The parts of a list are trimmed and not empty, whatever the configuration. *)
Theorem parts_clean raw p : p ∈ comma_parts raw → p ≠ "" ∧ ∃ q, q ∈ split "," raw ∧ p = trim q.
Proof.
  unfold comma_parts. intros (Hp & Hn)%elem_of_List_filter. apply negb_true_iff, String.eqb_neq in Hn.
  split; [done|]. by apply elem_of_List_map in Hp.
Qed.
(** A service without a numeric port does not start. *)
Theorem port_required httpPortEnv value :
  match resolveHttpPort httpPortEnv value with
  | Ok n => isNaN n = false
  | Throw e => e = PlainError ("HTTP port env '" +:+ httpPortEnv +:+ "' is not defined.")
  end.
Proof. unfold resolveHttpPort. by destruct (isNaN _) eqn:E. Qed.
