(* ===== verification/DocumentTypes.v ===== *)
(** * Document types

    [DocumentTypesService]
    (src/apps/report-bc/src/modules/document-type/services): the base service
    with the running-number format checked before a write, and the numbers of
    RunningNumber.v issued for the types of the table.  The inherited reads and
    the deletion are those of BaseService.v.

    A field of a request is absent, [null] or a value; a column that holds
    [null] is [None], which the table may refuse ([violates]).  A request has
    been validated by its DTO. *)

From S2P Require Import Prelude JsString Repo DbErrors BaseService RunningNumber.
#[local] Open Scope string_scope.
#[local] Open Scope list_scope.

(** ** Data *)

Inductive field (A : Type) := Absent | Null | Given (a : A).
Arguments Absent {A}. Arguments Null {A}. Arguments Given {A}.

(** [DocumentType], its own columns. *)
Record document_columns := DocumentColumns {
  code : string; name_th : string; name_en : string; print_template_id : string;
  has_number : option bool; number_format : option string; is_active : option bool;
}.
(** [UpdateDocumentTypeDTO]; in a [CreateDocumentTypeDTO] the first four are
    given. *)
Record document_dto := DocumentDTO {
  d_code : option string; d_name_th : option string; d_name_en : option string; d_print_template_id : option string;
  d_has_running_number : field bool; d_running_number_format : field string; d_is_active : field bool;
}.

Definition assign_field {A} (d : field A) (v : option A) : option A :=
  match d with Absent => v | Null => None | Given a => Some a end.
(** [value ?? undefined]: what the checks see of a field. *)
Definition given {A} (d : field A) : option A := assign_field d None.
Definition is_absent {A} (d : field A) : bool := match d with Absent => true | _ => false end.

Definition blank_document : document_columns := DocumentColumns "" "" "" "" (Some false) None (Some true).
Definition assign_document (d : document_dto) (c : document_columns) : document_columns :=
  DocumentColumns (default (code c) (d_code d)) (default (name_th c) (d_name_th d)) (default (name_en c) (d_name_en d))
    (default (print_template_id c) (d_print_template_id d))
    (assign_field (d_has_running_number d) (has_number c)) (assign_field (d_running_number_format d) (number_format c))
    (assign_field (d_is_active d) (is_active c)).

(** The part of a type that issues numbers (RunningNumber.v). *)
Definition numbering (r : base_row document_columns) : document_type :=
  DocumentType (id r) (default false (has_number (cols r))) (number_format (cols r)).

Definition TABLE : string := "document_types".

(** ** The service *)
Section service.
Context {T : Type → Type} `{Database T} (violates : T (base_row document_columns) → option driver_error).
Abbreviation types := (T (base_row document_columns)).
Abbreviation counter_rows := (gmap string running_number).

Definition create (now : date) (user : option current_user) (dto : string * document_dto) (t : types) :
    result (base_row document_columns * types) :=
  let! _ := validateRunningNumberFormat (given (d_has_running_number dto.2)) (given (d_running_number_format dto.2)) now in
  BaseService.create TABLE blank_document assign_document violates user dto t.

(** What [update] checks, with the row it reads for it. *)
Definition check_update (now : date) (k : string) (dto : document_dto) (t : types) : result unit :=
  if is_absent (d_has_running_number dto) && is_absent (d_running_number_format dto) then Ok ()
  else
    let! existing := findById TABLE k t in
    let hasRunningNumber :=
      match given (d_has_running_number dto) with Some h => Some h | None => has_number (cols existing) end in
    let format := assign_field (d_running_number_format dto) (number_format (cols existing)) in
    validateRunningNumberFormat hasRunningNumber format now.
(** [super.update], which reads the row again. *)
Definition write_update (user : option current_user) (k : string) (dto : document_dto) (t : types) :
    result (base_row document_columns * types) :=
  updateColumns TABLE assign_document violates user k dto t.
Definition update (now : date) (user : option current_user) (k : string) (dto : document_dto) (t : types) :
    result (base_row document_columns * types) :=
  let! _ := check_update now k dto t in
  write_update user k dto t.

(** The handlers on the numbers, which load the type first. *)
Definition generateNext (k : string) (now : date) (t : types) (counters : counter_rows) : result (issued * counter_rows) :=
  let! docType := findById TABLE k t in
  generateNextRunningNumber (numbering docType) now counters.
Definition runningNumberStatus (k : string) (t : types) (counters : counter_rows) :
    result (N * option string * option date) :=
  let! docType := findById TABLE k t in
  Ok (getRunningNumberStatus (numbering docType) counters).
End service.

(** ** Types that can issue *)

(** On every day and from every counter a call gets as far as the write of the
    next number, which succeeds when the counter row has room for it. *)
Definition can_issue (d : document_type) : Prop := ∀ now counters, issues d now counters.
Definition type_ok (r : base_row document_columns) : Prop :=
  live_row r = true → has_number (cols r) = Some true → can_issue (numbering r).

(** Whether numbers can be issued depends neither on the day nor on the counters,
    so that the day of the check does not matter. *)
Lemma validated_can_issue k has format now : validateRunningNumberFormat has format now = Ok () ↔
  (has = Some true → can_issue (DocumentType k true format)).
Proof.
  destruct (decide (has = Some true)) as [->|Hn]; last first.
  { split; [by intros _ ?|]. intros _. unfold validateRunningNumberFormat. by destruct has as [[]|]. }
  destruct format as [f|]; last first.
  { split; [done|]. intros Hc. by destruct (Hc eq_refl now ∅) as (f & p & Hf & _). }
  split.
  - intros Hv _ now' counters. destruct (validated_format_issues k f now now' counters) as (Ha & Hi & _). by apply Hi, Ha.
  - intros Hc. destruct (validated_format_issues k f now now ∅) as (Ha & Hi & _). apply Ha, Hi. by apply Hc.
Qed.

Lemma rejected_400 has format now e : validateRunningNumberFormat has format now = Throw e → status_of e = Some 400%Z.
Proof.
  destruct has as [[]|]; [|done|done]. destruct format as [f|]; [|by intros [= <-]].
  destruct (validated_format_issues "" f now now ∅) as (_ & _ & Hs & _). apply Hs.
Qed.

Section rows.
Context {T : Type → Type} `{DatabaseLaws T} (violates : T (base_row document_columns) → option driver_error).
Implicit Types (t : T (base_row document_columns)) (k : string).

Lemma numbering_updated user r : numbering (set_updater user r) = numbering r.
Proof. by destruct user. Qed.
Lemma type_live_updated user r : live_row (set_updater (F := document_columns) user r) = live_row r.
Proof. by destruct user. Qed.
Lemma has_updated user r : has_number (cols (set_updater user r)) = has_number (cols r).
Proof. by destruct user. Qed.

Lemma numbering_created user r : numbering (set_creator user r) = numbering r.
Proof. by destruct user. Qed.
Lemma has_created user r : has_number (cols (set_creator user r)) = has_number (cols r).
Proof. by destruct user. Qed.
Lemma created_has k d : has_number (cols (make_row k (assign_document d blank_document))) = Some true →
  given (d_has_running_number d) = Some true.
Proof. cbn. by destruct (d_has_running_number d). Qed.

Lemma type_created_ok now user dto t r t' : create violates now user dto t = Ok (r, t') → type_ok r.
Proof.
  unfold create. intros Hc. res_inv Hc. destruct a. pose proof (proj1 (validated_can_issue dto.1 _ _ _) Ha) as Hi.
  apply create_wrote in Hc as (-> & _ & _). unfold type_ok. rewrite numbering_created, has_created. intros _ Hhas.
  apply created_has in Hhas. unfold numbering. cbn. fold (given (d_running_number_format dto.2)).
  destruct (d_has_running_number dto.2) as [| |[]]; try done. by apply Hi.
Qed.

(** The row the check read is the row that is written. *)
Lemma type_updated_ok now user k dto t r t' : NoDup (id <$> rows t) → (∀ e, e ∈ rows t → type_ok e) →
  update violates now user k dto t = Ok (r, t') → type_ok r.
Proof.
  intros Hids Hok Hu. unfold update in Hu. res_inv Hu. destruct a. rename Ha into Hcheck.
  apply update_wrote in Hu as (e & He & -> & _). apply repo_findOne_Some in He as (He & Hk%has_pk_true & Hd).
  unfold type_ok. rewrite numbering_updated, type_live_updated, has_updated. intros Hlive Hhas.
  unfold check_update in Hcheck. destruct (is_absent _ && is_absent _) eqn:Ea.
  - apply andb_true_iff in Ea as [E1 E2]. unfold numbering in *. cbn in *.
    destruct (d_has_running_number dto), (d_running_number_format dto); try done. by apply (Hok e).
  - res_inv Hcheck. rename a into e', Ha into Hf. apply findById_Ok in Hf as (He' & Hk' & _).
    assert (e' = e) as -> by (apply (NoDup_fmap_elem_inj id (rows t)); [done..|]; cbn in *; congruence).
    assert (Hi := proj1 (validated_can_issue (id e) _ _ _) Hcheck). clear Hcheck.
    assert (can_issue (DocumentType (id e) true (assign_field (d_running_number_format dto) (number_format (cols e))))).
    { apply Hi. unfold given in *. cbn in *. by destruct (d_has_running_number dto). }
    unfold numbering. cbn [id with_cols cols assign_document has_number number_format] in *. by rewrite Hhas.
Qed.
End rows.

(** ** The table over time *)
Section reachable.
Context {T : Type → Type} `{DatabaseLaws T} (violates : T (base_row document_columns) → option driver_error).
Implicit Types (t : T (base_row document_columns)) (k : string).

(** A request that succeeded. *)
Inductive type_step t : T (base_row document_columns) → Prop :=
  | step_create now user dto r t' : dto.1 ∉ id <$> rows t → create violates now user dto t = Ok (r, t') → type_step t t'
  | step_update now user k dto r t' : update violates now user k dto t = Ok (r, t') → type_step t t'
  | step_delete now k softDelete user t' :
      BaseService.delete TABLE violates now k softDelete user t = Ok t' → type_step t t'.

Definition types_ok t : Prop := NoDup (id <$> rows t) ∧ ∀ r, r ∈ rows t → type_ok r.

Lemma type_deleted_ok now softDelete user k t t' : types_ok t →
  BaseService.delete TABLE violates now k softDelete user t = Ok t' → types_ok t'.
Proof.
  intros [Hids Hok] (_ & Hrows & _)%delete_wrote. unfold types_ok, deleted_rows in *.
  setoid_rewrite Hrows. destruct softDelete.
  - change (List.map ?f ?l) with (f <$> l). rewrite <- list_fmap_compose. split.
    + rewrite (list_fmap_ext _ id); [exact Hids|]. intros i r _. unfold compose. by destruct (has_pk k r).
    + intros r (q & -> & Hq)%list_elem_of_fmap. destruct (has_pk k q); [|by apply Hok].
      intros Hl. by rewrite live_stamped in Hl.
  - split.
    + exact (NoDup_pk_filter _ _ Hids).
    + intros r Hr. apply elem_of_List_filter in Hr as [Hr _]. by apply Hok.
Qed.

Lemma type_step_ok t t' : type_step t t' → types_ok t → types_ok t'.
Proof.
  intros Hstep Hok. pose proof Hok as [Hids Hall].
  destruct Hstep as [now user dto r t' Hfresh Hc|now user k dto r t' Hu|now k softDelete user t' Hd].
  - pose proof (type_created_ok _ _ _ _ _ _ _ Hc) as Hr. unfold create in Hc. res_inv Hc. apply create_wrote in Hc as (-> & -> & _).
    split.
    + rewrite insert_rows, fmap_cons. apply NoDup_cons. split; [by destruct user|done].
    + intros q Hq. rewrite insert_rows in Hq. apply elem_of_cons in Hq as [->|Hq]; [done|by apply Hall].
  - pose proof (type_updated_ok _ _ _ _ _ _ _ _ Hids Hall Hu) as Hr. unfold update in Hu. res_inv Hu.
    apply update_wrote in Hu as (e & _ & _ & -> & _). split.
    + change (NoDup (pk <$> rows (repo_save r t))). by rewrite repo_save_pks.
    + intros q [[Hq _]|[-> _]]%elem_of_repo_save; [by apply Hall|done].
  - by apply (type_deleted_ok now softDelete user k t).
Qed.

(** C27: A document type that is switched to running numbers always has a format
    to issue them by, whatever requests brought the table about, as long as they
    do not overlap: on every day and from every counter a call computes the next
    number and its text, and returns and stores them if the counter row has room
    for them ([writable]: an integer below 2^31 and a text that fits
    [varchar(255)], no string over V8's limit).  If it has not, the call fails
    with the error of the column ([refusal]): nothing bounds the digits of a
    sequence on save (see [long_sequence_never_issues]). *)
Theorem types_can_issue t0 t k e now counters (Hok : types_ok t0) (Hreach : rtc type_step t0 t)
    (He : findById TABLE k t = Ok e) (Hhas : has_number (cols e) = Some true) :
  ∃ f p, number_format (cols e) = Some f ∧ parseRunningNumberFormat f now = Ok p ∧
    let n := next_seq p (default (RunningNumber.RunningNumber 0 None None) (counters !! k)) in
    let v := number_text f now n (seqDigits p) in
    generateNext k now t counters =
    if decide (writable (seqDigits p) n v) then
      Ok (Issued k n v now,
          <[k := RunningNumber.RunningNumber n (Some (String.substring 0 VALUE_LENGTH v)) (Some now)]> counters)
    else Throw (refusal (seqDigits p) n v).
Proof.
  assert (types_ok t) as [_ Hall] by (induction Hreach; eauto using type_step_ok).
  unfold generateNext. rewrite He. cbn [res_bind]. apply findById_Ok in He as (He & Hk & Hdel & Hd).
  assert (live_row e = true) as Hlive by (unfold live_row, not_deleted; cbn; by rewrite Hdel, Hd).
  destruct (Hall e He Hlive Hhas now counters) as (f & p & Hf & Hp & Hg). subst k. by exists f, p.
Qed.

(** A type is created exactly when, if it is to have numbers, they can be issued;
    otherwise the answer is a 400 and nothing is written. *)
Theorem created_iff_issuable now user dto t (Hv : ∀ t, violates t = None) :
  match create violates now user dto t with
  | Ok (r, t') => t' = db_insert r t ∧ (given (d_has_running_number dto.2) = Some true → can_issue (numbering r))
  | Throw e => status_of e = Some 400%Z ∧ given (d_has_running_number dto.2) = Some true ∧
      ¬ can_issue (DocumentType dto.1 true (given (d_running_number_format dto.2)))
  end.
Proof.
  unfold create. destruct (validateRunningNumberFormat _ _ _) as [[]|e] eqn:Ev; cbn [res_bind].
  - unfold BaseService.create, createEntity, BaseService.write. rewrite Hv. cbn [ExecuteDb.executeDbOperation res_bind].
    split; [done|]. intros Hg. pose proof (proj1 (validated_can_issue dto.1 _ _ _) Ev Hg).
    destruct dto as [k d], user; unfold numbering; cbn in *; unfold given in *; destruct (d_has_running_number d); naive_solver.
  - split; [by apply rejected_400 in Ev|]. split.
    + unfold validateRunningNumberFormat in Ev. by destruct (given _) as [[]|].
    + intros Hc. assert (validateRunningNumberFormat (given (d_has_running_number dto.2))
        (given (d_running_number_format dto.2)) now = Ok ()) as Hn by (apply (validated_can_issue dto.1); by intros _).
      congruence.
Qed.
End reachable.

(** ** What the checks do not see *)
Section unchecked.
Context {T : Type → Type} `{DatabaseLaws T} (violates : T (base_row document_columns) → option driver_error).
Implicit Types (t : T (base_row document_columns)) (k : string).

(** Two updates of one type, both checked before either writes: one switches the
    numbers on, the other removes the format of a type that had none switched
    on.  Both succeed, and from then on every number is refused. *)
Theorem overlapping_updates_stop_issuing now now' user user' k dto dto' t r1 t1 r2 t2
    (Hids : NoDup (id <$> rows t))
    (Hcheck : check_update now k dto t = Ok ()) (Hcheck' : check_update now' k dto' t = Ok ())
    (Hon : d_has_running_number dto = Given true)
    (Hsame : d_has_running_number dto' = Absent) (Hclear : d_running_number_format dto' = Null)
    (Hfirst : write_update violates user k dto t = Ok (r1, t1))
    (Hsecond : write_update violates user' k dto' t1 = Ok (r2, t2)) :
  ∀ day counters, ∃ e, generateNext k day t2 counters = Throw e.
Proof.
  intros day counters. apply update_wrote in Hfirst as (e & He & -> & -> & _).
  apply update_wrote in Hsecond as (e1 & He1 & -> & -> & _). unfold generateNext.
  destruct (findById _ _ _) as [r|x] eqn:Hf; [|by exists x]. cbn [res_bind].
  apply findById_Ok in Hf as (Hr & Hk & _). apply repo_findOne_Some in He1 as (_ & Hk1%has_pk_true & _).
  apply elem_of_repo_save in Hr as [[_ Hne]|[-> _]].
  - destruct Hne. cbn in *. rewrite Hk, <- Hk1. by destruct user'.
  - unfold generateNextRunningNumber. cbn. rewrite orb_comm.
    replace (number_format _) with (@None string); [by eexists|]. destruct user'; cbn; by rewrite Hclear.
Qed.

Lemma issued_by k f now p counters : parseRunningNumberFormat f now = Ok p → f ≠ "" →
  generateNextRunningNumber (DocumentType k true (Some f)) now counters =
  let n := next_seq p (default (RunningNumber.RunningNumber 0 None None) (counters !! k)) in
  let v := number_text f now n (seqDigits p) in
  if decide (writable (seqDigits p) n v) then
    Ok (Issued k n v now,
        <[k := RunningNumber.RunningNumber n (Some (String.substring 0 VALUE_LENGTH v)) (Some now)]> counters)
  else Throw (refusal (seqDigits p) n v).
Proof. intros Hp Hne. exact (generate_parsed (DocumentType k true (Some f)) f p now counters eq_refl eq_refl Hne Hp). Qed.

(** Changing the format and changing it back restarts the sequence: the number
    first issued with a format is issued again, when the number issued in
    between does not have its shape. *)
Theorem format_switch_reissues k f g now p v w counters1 counters2
    (Hf : parseRunningNumberFormat f now = Ok p)
    (Hfirst : generateNextRunningNumber (DocumentType k true (Some f)) now ∅ = Ok (v, counters1))
    (Hbetween : generateNextRunningNumber (DocumentType k true (Some g)) now counters1 = Ok (w, counters2))
    (Hlength : (String.length (value w) ≤ VALUE_LENGTH)%nat) (Hshape : rx_exec (regex p) "" (value w) = None) :
  ∃ counters3, generateNextRunningNumber (DocumentType k true (Some f)) now counters2 = Ok (v, counters3).
Proof.
  pose proof Hfirst as Hf1. rewrite (issued_by _ _ _ _ _ Hf) in Hf1 by (intros ->; discriminate Hfirst).
  destruct (parseRunningNumberFormat g now) as [pg|x] eqn:Hg; last first.
  { unfold generateNextRunningNumber in Hbetween. destruct (_ || _); [done|]. apply executed in Hbetween.
    cbn [running_number_format default from_option Datatypes.id] in Hbetween. by rewrite Hg in Hbetween. }
  rewrite (issued_by _ _ _ _ _ Hg) in Hbetween by (intros ->; discriminate Hbetween).
  rewrite (issued_by _ _ _ _ _ Hf) by (intros ->; discriminate Hfirst).
  cbv zeta in *. destruct (decide (writable _ _ _)) as [Hw|] in Hf1; [|done]. injection Hf1 as <- <-.
  destruct (decide (writable _ _ _)) in Hbetween; [|done]. injection Hbetween as <- <-. cbn [value] in Hlength, Hshape.
  rewrite !lookup_insert_eq in *. rewrite (substring_all _ _ Hlength). rewrite lookup_empty in *.
  cbn [default from_option Datatypes.id next_seq last_value] in *.
  destruct (number_text g _ _ _) as [|c s]; [|rewrite Hshape]; rewrite decide_True by done; by eexists.
Qed.
End unchecked.

(** ** Samples and witnesses *)
Module Sample.
Definition no_violation {X} (_ : X) : option driver_error := None.
(** The column [has_running_number] is not nullable. *)
Definition not_null (t : list (base_row document_columns)) : option driver_error :=
  if forallb (λ r, bool_decide (is_Some (has_number (cols r)))) t then None
  else Some (DriverError (Some "23502") None None None None None None).
Definition invoice_dto : document_dto :=
  DocumentDTO (Some "invoice") (Some "inv") (Some "Invoice") (Some "tpl") (Given true) (Given "INV-{YYYY}{MM}-{SEQ:5}") Absent.
Definition no_change : document_dto := DocumentDTO None None None None Absent Absent Absent.
Definition switch_on : document_dto := DocumentDTO None None None None (Given true) Absent Absent.
Definition clear_format : document_dto := DocumentDTO None None None None Absent Null Absent.
Definition receipt : base_row document_columns :=
  make_row "rec" (DocumentColumns "receipt" "rec" "Receipt" "tpl" (Some false) (Some "R-{SEQ:3}") (Some true)).
Definition day : date := Date 2026 6 9.

Definition invoice : base_row document_columns := make_row "inv" (assign_document invoice_dto blank_document).
Example created : create (T := list) not_null day None ("inv", invoice_dto) [receipt] = Ok (invoice, [receipt; invoice]).
Proof. by vm_compute. Qed.
Example null_refused : update (T := list) not_null day None "rec" (DocumentDTO None None None None Null Absent Absent) [receipt]
  = Throw (with_code 400 "23502" "A required field was left empty. Please check your input.").
Proof. vm_compute. reflexivity. Qed.
Example check_refuses : check_update (T := list) day "inv" clear_format [invoice]
  = Throw (BadRequestException "running_number_format is required when has_running_number is true.").
Proof. by vm_compute. Qed.
Example missing : check_update (T := list) day "x" switch_on [receipt] = Throw (not_found TABLE "x").
Proof. by vm_compute. Qed.

Lemma start_ok : types_ok (T := list) [].
Proof. split; [apply NoDup_nil_2|by intros r ?%elem_of_nil]. Qed.
Lemma reached : rtc (type_step (T := list) not_null) [] [invoice].
Proof.
  eapply rtc_once, (step_create not_null [] day None ("inv", invoice_dto) invoice).
  - apply not_elem_of_nil.
  - by vm_compute.
Qed.
End Sample.

Lemma types_can_issue_witness : ∃ counters', generateNext (T := list) "inv" Sample.day [Sample.invoice] ∅
  = Ok (Issued "inv" 1 "INV-202607-00001" Sample.day, counters').
Proof.
  destruct (types_can_issue (T := list) Sample.not_null [] [Sample.invoice] "inv" Sample.invoice Sample.day ∅
    Sample.start_ok Sample.reached eq_refl eq_refl) as (f & p & Hf & Hp & Hg).
  vm_compute in Hf. injection Hf as <-. vm_compute in Hp. injection Hp as <-. rewrite Hg. eexists. vm_compute. reflexivity.
Defined.
Lemma created_iff_issuable_witness : can_issue (numbering Sample.invoice).
Proof.
  pose proof (created_iff_issuable (T := list) Sample.no_violation Sample.day None ("inv", Sample.invoice_dto) []
    (λ _, eq_refl)) as Hc.
  exact (proj2 Hc eq_refl).
Defined.
Lemma overlapping_updates_stop_issuing_witness :
  let on := with_cols (assign_document Sample.switch_on) Sample.receipt in
  ∃ e, generateNext (T := list) "rec" Sample.day [with_cols (assign_document Sample.clear_format) on] ∅ = Throw e.
Proof.
  intros on.
  exact (overlapping_updates_stop_issuing (T := list) Sample.no_violation Sample.day Sample.day None None "rec"
    Sample.switch_on Sample.clear_format [Sample.receipt] on [on] _ _ (NoDup_singleton _)
    eq_refl eq_refl eq_refl eq_refl eq_refl eq_refl eq_refl Sample.day ∅).
Defined.
Lemma format_switch_reissues_witness : ∃ v counters1 w counters2 counters3,
  generateNextRunningNumber (DocumentType "inv" true (Some "A-{SEQ:3}")) Sample.day ∅ = Ok (v, counters1) ∧
  generateNextRunningNumber (DocumentType "inv" true (Some "B-{SEQ:3}")) Sample.day counters1 = Ok (w, counters2) ∧
  generateNextRunningNumber (DocumentType "inv" true (Some "A-{SEQ:3}")) Sample.day counters2 = Ok (v, counters3) ∧
  value v = "A-001".
Proof.
  destruct (generateNextRunningNumber (DocumentType "inv" true (Some "A-{SEQ:3}")) Sample.day ∅) as [[v counters1]|e] eqn:Ev;
    [|vm_compute in Ev; discriminate Ev].
  destruct (generateNextRunningNumber (DocumentType "inv" true (Some "B-{SEQ:3}")) Sample.day counters1) as [[w counters2]|e] eqn:Ew;
    [|vm_compute in Ev; injection Ev as <- <-; vm_compute in Ew; discriminate Ew].
  exists v, counters1, w, counters2.
  destruct (format_switch_reissues "inv" "A-{SEQ:3}" "B-{SEQ:3}" Sample.day
    (ParsedFormat [RChar "A"; RChar "-"; RDigits 3] 3) v w counters1 counters2 eq_refl Ev Ew) as [c Hc].
  - vm_compute in Ev. injection Ev as <- <-. vm_compute in Ew. injection Ew as <- _. apply (bool_decide_unpack _). exact I.
  - vm_compute in Ev. injection Ev as <- <-. vm_compute in Ew. injection Ew as <- _. reflexivity.
  - exists c. split; [reflexivity|]. split; [exact Ew|]. split; [exact Hc|]. vm_compute in Ev. by injection Ev as <- _.
Defined.
