(* ===== verification/AdminSession.v ===== *)
(** * The session of the admin pages

    The browser code every authenticated call of the admin pages goes through
    (src/apps/iam/public/js): login.service.js keeps the CSRF token and the
    user's profile, auth-guard.service.js sends a request, refreshes the tokens
    once on a 401 and sends it again.  A page is a state machine: the code
    between two awaits is a function on its state, and replies arrive in any
    order.  The cookies and the guards at the other end are those of
    CookieAuth.v and Guards.v.

    A reply is its status; the JSON of the stored session is an argument. *)

From S2P Require Import Prelude JsString JsValues SessionStore Guards Repo DbErrors BaseService AuthService AuthFlow CookieAuth.
#[local] Open Scope string_scope.
#[local] Open Scope list_scope.

(** ** login.service.js *)

Definition CLIENT_APP_NAME : string := "iam-admin-ui".
Record session := Session { s_csrf_token : option string; s_user : option IUserSession }.
Definition signed_off : session := Session None None.

(** The profile a token belongs to is not changed by a new token. *)
Definition with_csrf (token : string) (s : session) : session := Session (Some token) (s_user s).
Definition with_user (u : IUserSession) (s : session) : session := Session (s_csrf_token s) (Some u).
Definition isAuthenticated (s : session) : bool :=
  match truthy (s_csrf_token s), s_user s with Some _, Some _ => true | _, _ => false end.
Definition hasPermission (permission : string) (s : session) : bool :=
  match s_user s with Some u => includes (us_permissions u) permission | None => false end.

(** [loadState]: what [JSON.parse] refuses counts as nothing stored. *)
Definition loadState (parse : string → option session) (raw : option string) : session :=
  match truthy raw with Some text => default signed_off (parse text) | None => signed_off end.

(** ** auth-guard.service.js *)

Abbreviation headers := (gmap string header).
Definition SAFE_METHODS : list string := ["GET"; "HEAD"; "OPTIONS"].
Definition is_safe (method : option string) : bool := includes SAFE_METHODS (toUpperCase (default "GET" (truthy method))).

Definition withCsrfHeader (s : session) (hs : headers) (method : option string) : headers :=
  let merged := <["x-client-app" := HString CLIENT_APP_NAME]> hs in
  match truthy (s_csrf_token s) with
  | Some token => if is_safe method then merged else <["x-csrf-token" := HString token]> merged
  | None => merged
  end.
(** The headers of [refreshAccessToken]. *)
Definition refresh_headers (s : session) : headers :=
  let base := <["content-type" := HString "application/json"]> (<["x-client-app" := HString CLIENT_APP_NAME]> ∅) in
  match truthy (s_csrf_token s) with Some token => <["x-csrf-token" := HString token]> base | None => base end.

(** A call of [fetchWithAuth], where it stands, and what became of it. *)
Record call := Call { c_method : option string; c_headers : headers }.
Inductive outcome := Response (status : Z) | SessionExpired | NetworkError.
Inductive phase := First | Waiting | Second | Settled (o : outcome).

(** What the page sent and the answers to its refreshes, the last one first. *)
Inductive message := Api (i : nat) (hs : headers) | RefreshSent (hs : headers) | RefreshAnswered (renewed : bool).

(** [pending] is [pendingRefresh] with the calls that await it, in their order;
    [stored] the content of localStorage. *)
Record page := Page {
  state : session; stored : option session; modal : bool; pending : option (list nat);
  calls : gmap nat (call * phase); log : list message;
}.
Definition set_state (s : session) (p : page) : page := Page s (Some s) (modal p) (pending p) (calls p) (log p).
Definition setCsrfToken (token : string) (p : page) : page := set_state (with_csrf token (state p)) p.
Definition setUser (u : IUserSession) (p : page) : page := set_state (with_user u (state p)) p.
Definition clearSession (p : page) : page := Page signed_off None (modal p) (pending p) (calls p) (log p).
Definition showAuthModal (p : page) : page := Page (state p) (stored p) true (pending p) (calls p) (log p).
Definition set_pending (ws : option (list nat)) (p : page) : page :=
  Page (state p) (stored p) (modal p) ws (calls p) (log p).
Definition send (m : message) (p : page) : page :=
  Page (state p) (stored p) (modal p) (pending p) (calls p) (m :: log p).
Definition set_call (i : nat) (c : call) (ph : phase) (p : page) : page :=
  Page (state p) (stored p) (modal p) (pending p) (<[i := (c, ph)]> (calls p)) (log p).

(** The first request, and the second: both with the headers of the moment. *)
Definition fetch_as (ph : phase) (i : nat) (c : call) (p : page) : page :=
  send (Api i (withCsrfHeader (state p) (c_headers c) (c_method c))) (set_call i c ph p).
Definition begin (i : nat) (c : call) (p : page) : page := fetch_as First i c p.
(** [pendingRefresh ??= refreshAccessToken()] and the wait for it. *)
Definition join_refresh (i : nat) (c : call) (p : page) : page :=
  let p := set_call i c Waiting p in
  match pending p with
  | Some ws => set_pending (Some (ws ++ [i])) p
  | None => send (RefreshSent (refresh_headers (state p))) (set_pending (Some [i]) p)
  end.
Definition on_first_reply (i : nat) (c : call) (reply : option Z) (p : page) : page :=
  match reply with
  | None => set_call i c (Settled NetworkError) p
  | Some status => if (status =? 401)%Z then join_refresh i c p else set_call i c (Settled (Response status)) p
  end.
Definition on_second_reply (i : nat) (c : call) (reply : option Z) (p : page) : page :=
  set_call i c (Settled match reply with Some status => Response status | None => NetworkError end) p.

(** A waiting call goes on: again to the server, or out. *)
Definition on_renewed (p : page) (i : nat) : page :=
  match calls p !! i with Some (c, _) => fetch_as Second i c p | None => p end.
Definition on_expired (p : page) (i : nat) : page :=
  match calls p !! i with
  | Some (c, _) => set_call i c (Settled SessionExpired) (showAuthModal (clearSession p))
  | None => p
  end.
(** The answer to a refresh: the new CSRF token, or a failure.  The calls that
    wait for it go on before any other reply is handled. *)
Definition on_refresh_reply (answer : option string) (p : page) : page :=
  let ws := default [] (pending p) in
  let p := send (RefreshAnswered (bool_decide (is_Some answer))) (set_pending None p) in
  match answer with
  | Some token => foldl on_renewed (setCsrfToken token p) ws
  | None => foldl on_expired p ws
  end.

(** ** The page over time *)

Inductive event :=
  | Begin (i : nat) (c : call) | FirstReply (i : nat) (reply : option Z) | SecondReply (i : nat) (reply : option Z)
  | RefreshReply (answer : option string) | SignedIn (token : string) | Profile (u : IUserSession).
Inductive page_step (p : page) : event → page → Prop :=
  | step_begin i c : calls p !! i = None → page_step p (Begin i c) (begin i c p)
  | step_first i c reply : calls p !! i = Some (c, First) → page_step p (FirstReply i reply) (on_first_reply i c reply p)
  | step_second i c reply : calls p !! i = Some (c, Second) → page_step p (SecondReply i reply) (on_second_reply i c reply p)
  | step_refresh ws answer : pending p = Some ws → page_step p (RefreshReply answer) (on_refresh_reply answer p)
  (** The login form of the page: the answer to the login, then that to [/auth/me]. *)
  | step_login token : page_step p (SignedIn token) (setCsrfToken token p)
  | step_profile u : page_step p (Profile u) (setUser u p).
Inductive page_steps (p : page) : list event → page → Prop :=
  | steps_none : page_steps p [] p
  | steps_more e p1 es p2 : page_step p e p1 → page_steps p1 es p2 → page_steps p (e :: es) p2.
Definition opened (stored : option session) : page := Page (default signed_off stored) stored false None ∅ [].
Definition reachable (p : page) : Prop := ∃ stored es, page_steps (opened stored) es p.

(** ** Requests and refreshes *)

Fixpoint sends (i : nat) (l : list message) : nat :=
  match l with
  | [] => 0
  | Api j _ :: l => (if Nat.eqb i j then 1 else 0) + sends i l
  | _ :: l => sends i l
  end.
(** The last refresh has not been answered, and has been answered with a token. *)
Fixpoint refreshing (l : list message) : bool :=
  match l with [] => false | RefreshSent _ :: _ => true | RefreshAnswered _ :: _ => false | Api _ _ :: l => refreshing l end.
Fixpoint renewed (l : list message) : bool :=
  match l with [] => false | RefreshSent _ :: _ => false | RefreshAnswered b :: _ => b | Api _ _ :: l => renewed l end.
(** A refresh is sent only when the one before has been answered. *)
Fixpoint in_turn (l : list message) : Prop :=
  match l with
  | [] => True
  | RefreshSent _ :: l => refreshing l = false ∧ in_turn l
  | RefreshAnswered _ :: l => refreshing l = true ∧ in_turn l
  | Api _ _ :: l => in_turn l
  end.
(** A call is sent again at most once, and right after a refresh that succeeded. *)
Fixpoint sent_again_once (l : list message) : Prop :=
  match l with
  | [] => True
  | Api i _ :: l => (sends i l = 0 ∨ sends i l = 1 ∧ renewed l = true) ∧ sent_again_once l
  | _ :: l => sent_again_once l
  end%nat.

Definition sends_fit (ph : option phase) (n : nat) : Prop :=
  match ph with
  | None => n = 0 | Some First | Some Waiting => n = 1 | Some Second => n = 2 | Some (Settled _) => n <= 2
  end%nat.
(** [ws]: the calls that wait for a refresh. *)
Record page_inv (ws : list nat) (p : page) : Prop := {
  inv_sends i : sends_fit (snd <$> calls p !! i) (sends i (log p));
  inv_waiting i : i ∈ ws ↔ ∃ c, calls p !! i = Some (c, Waiting);
  inv_nodup : NoDup ws;
  inv_turn : in_turn (log p);
  inv_again : sent_again_once (log p);
}.
Definition page_ok (p : page) : Prop :=
  page_inv (default [] (pending p)) p ∧ refreshing (log p) = bool_decide (is_Some (pending p)) ∧ pending p ≠ Some [].

Lemma inv_same ws p q : calls p = calls q → log p = log q → page_inv ws p → page_inv ws q.
Proof. intros Hc Hl []. split; try by rewrite <- ?Hc, <- ?Hl. Qed.

(** A call settles, whatever it was doing. *)
Lemma settle_inv ws i c ph o p : calls p !! i = Some (c, ph) →
  page_inv ws p → page_inv (List.filter (λ j, negb (Nat.eqb i j)) ws) (set_call i c (Settled o) p).
Proof.
  intros Hi [Hs Hw Hn Ht Ha]. split; cbn; [| |by apply NoDup_ListNoDup, List.NoDup_filter, NoDup_ListNoDup|done..].
  - intros j. specialize (Hs j). destruct (decide (i = j)) as [<-|Hne]; [|by rewrite lookup_insert_ne].
    rewrite Hi in Hs. rewrite lookup_insert_eq. cbn in *. destruct ph; cbn in *; lia.
  - intros j. rewrite elem_of_List_filter, Hw, negb_true_iff, Nat.eqb_neq. destruct (decide (i = j)) as [<-|Hne].
    + rewrite lookup_insert_eq. naive_solver.
    + rewrite lookup_insert_ne by done. naive_solver.
Qed.

Lemma not_waiting ws i c ph p : calls p !! i = Some (c, ph) → ph ≠ Waiting → page_inv ws p →
  List.filter (λ j, negb (Nat.eqb i j)) ws = ws.
Proof.
  intros Hi Hph Hp. apply List_filter_all. intros j Hj%(inv_waiting _ _ Hp). apply negb_true_iff, Nat.eqb_neq. intros <-.
  destruct Hj as [c' Hj]. congruence.
Qed.

Lemma begin_inv ws i c p : calls p !! i = None → page_inv ws p → page_inv ws (begin i c p).
Proof.
  intros Hi [Hs Hw Hn Ht Ha]. pose proof (Hs i) as Hi0. rewrite Hi in Hi0. cbn in Hi0. split; cbn; [| |done|done|by split; [left|]].
  - intros j. destruct (Nat.eqb_spec j i) as [->|Hne]; [by rewrite lookup_insert_eq, Hi0|].
    by rewrite lookup_insert_ne.
  - intros j. rewrite Hw. destruct (decide (i = j)) as [<-|Hne]; [|by rewrite lookup_insert_ne].
    rewrite lookup_insert_eq, Hi. naive_solver.
Qed.

Lemma join_inv i c p : calls p !! i = Some (c, First) → page_ok p → page_ok (join_refresh i c p).
Proof.
  intros Hi ([Hs Hw Hn Ht Ha] & Hr & Hne). assert (i ∉ default [] (pending p)) as Hni.
  { rewrite Hw. intros [c' Hc']. congruence. }
  assert (∀ ws, (∀ j, j ∈ ws ↔ j = i ∨ j ∈ default [] (pending p)) → NoDup ws →
    page_inv ws (set_call i c Waiting p)) as Hinv.
  { intros ws Hws Hnd. split; cbn; [| |done..].
    - intros j. specialize (Hs j). destruct (decide (i = j)) as [<-|Hij]; [|by rewrite lookup_insert_ne].
      rewrite Hi in Hs. by rewrite lookup_insert_eq.
    - intros j. rewrite Hws, Hw. destruct (decide (i = j)) as [<-|Hij].
      + rewrite lookup_insert_eq. naive_solver.
      + rewrite lookup_insert_ne by done. naive_solver. }
  unfold join_refresh. cbn [pending set_call]. destruct (pending p) as [ws|]; cbn [default] in *; (split; [|split]).
  - eapply (inv_same _ (set_call i c Waiting p)); [reflexivity..|]. apply Hinv.
    + intros j. cbn. rewrite elem_of_app, list_elem_of_singleton. naive_solver.
    + apply NoDup_app. split_and!; [done| |apply NoDup_singleton]. cbn. set_solver.
  - done.
  - cbn. by intros [= [_ ?]%app_eq_nil].
  - destruct (Hinv [i]) as [Hs' Hw' Hn' Ht' Ha']; [set_solver|apply NoDup_singleton|]. by split.
  - done.
  - done.
Qed.

(** *** The work left *)

Definition weight (cp : call * phase) : nat := match cp.2 with First => 3 | Waiting => 2 | Second => 1 | Settled _ => 0 end.
(** The replies that can still arrive. *)
Definition open_work (p : page) : nat := sum_list_with weight (map_to_list (calls p)).*2.

Lemma sum_weights_Permutation l l' : l ≡ₚ l' → sum_list_with weight l = sum_list_with weight l'.
Proof. induction 1; cbn; lia. Qed.
Lemma open_work_set i c ph p x : calls p !! i = Some x →
  (open_work (set_call i c ph p) + weight x = open_work p + weight (c, ph))%nat.
Proof.
  intros Hi. unfold open_work. cbn. rewrite <- (insert_delete_id (calls p) i x Hi) at 2. rewrite <- insert_delete_eq.
  set (m := base.delete i (calls p) : gmap nat (call * phase)). assert (∀ y, sum_list_with weight (map_to_list (<[i:=y]> m)).*2 =
    weight y + sum_list_with weight (map_to_list m).*2)%nat as Hw.
  { intros y. change (weight y + _)%nat with (sum_list_with weight ((i, y) :: map_to_list m).*2).
    apply sum_weights_Permutation, fmap_Permutation, map_to_list_insert, lookup_delete_eq. }
  rewrite !Hw. lia.
Qed.

(** *** A refresh is answered *)
Lemma on_renewed_inv i ws p : page_inv (i :: ws) p → renewed (log p) = true →
  page_inv ws (on_renewed p i) ∧ renewed (log (on_renewed p i)) = true ∧ refreshing (log (on_renewed p i)) = refreshing (log p) ∧
  pending (on_renewed p i) = pending p ∧ (open_work (on_renewed p i) < open_work p)%nat.
Proof.
  intros [Hs Hw Hn Ht Ha] Hr. apply NoDup_cons in Hn as [Hni Hn].
  destruct (proj1 (Hw i) ltac:(left)) as [c Hi]. unfold on_renewed. rewrite Hi. split_and!; try done.
  2:{ pose proof (open_work_set i c Second p _ Hi) as Hl. unfold fetch_as, open_work in *. cbn in *. lia. }
  pose proof (Hs i) as Hi1. rewrite Hi in Hi1. cbn in Hi1. split; cbn; [| |done|done|split; [by right|done]].
  - intros j. destruct (Nat.eqb_spec j i) as [->|Hne]; [by rewrite lookup_insert_eq, Hi1|by rewrite lookup_insert_ne].
  - intros j. destruct (decide (i = j)) as [<-|Hne].
    + rewrite lookup_insert_eq. naive_solver.
    + rewrite lookup_insert_ne, <- Hw by done. set_solver.
Qed.
Lemma on_expired_inv i ws p : page_inv (i :: ws) p →
  page_inv ws (on_expired p i) ∧ log (on_expired p i) = log p ∧ pending (on_expired p i) = pending p ∧
  (open_work (on_expired p i) < open_work p)%nat.
Proof.
  intros Hp. destruct (proj1 (inv_waiting _ _ Hp i) ltac:(left)) as [c Hi]. unfold on_expired. rewrite Hi. split_and!; try done.
  2:{ pose proof (open_work_set i c (Settled SessionExpired) p _ Hi) as Hw. unfold open_work in *. cbn in *. lia. }
  pose proof (inv_nodup _ _ Hp) as [Hni Hn]%NoDup_cons. apply (settle_inv _ i c Waiting SessionExpired) in Hp; [|done].
  eapply (inv_same _ (set_call i c (Settled SessionExpired) p)); [done..|]. cbn in Hp. rewrite Nat.eqb_refl in Hp. cbn in Hp.
  rewrite List_filter_all in Hp; [done|]. intros j Hj. apply negb_true_iff, Nat.eqb_neq. by intros <-.
Qed.
Lemma renewed_all ws p : page_inv ws p → renewed (log p) = true → let p' := foldl on_renewed p ws in
  page_inv [] p' ∧ refreshing (log p') = refreshing (log p) ∧ pending p' = pending p ∧ (open_work p' + length ws ≤ open_work p)%nat.
Proof.
  revert p. induction ws as [|i ws IH]; intros p Hp Hr; [cbn; split_and!; [done..|lia]|].
  destruct (on_renewed_inv i ws p Hp Hr) as (Hp' & Hr' & Hf & Hn & Hl).
  destruct (IH _ Hp' Hr') as (Hq & Hf' & Hn' & Hl'). cbn. split_and!; [done|congruence|congruence|lia].
Qed.
Lemma expired_all ws p : page_inv ws p → let p' := foldl on_expired p ws in
  page_inv [] p' ∧ refreshing (log p') = refreshing (log p) ∧ pending p' = pending p ∧ (open_work p' + length ws ≤ open_work p)%nat.
Proof.
  revert p. induction ws as [|i ws IH]; intros p Hp; [cbn; split_and!; [done..|lia]|].
  destruct (on_expired_inv i ws p Hp) as (Hp' & Hf & Hn & Hl).
  destruct (IH _ Hp') as (Hq & Hf' & Hn' & Hl'). cbn. split_and!; [done|congruence|congruence|lia].
Qed.
Lemma on_refresh_ok ws answer p : pending p = Some ws → page_ok p →
  page_ok (on_refresh_reply answer p) ∧ (open_work (on_refresh_reply answer p) < open_work p)%nat.
Proof.
  intros Hws (Hp & Hr & Hne). unfold on_refresh_reply. rewrite Hws in *.
  cbn [default from_option Datatypes.id] in *. assert (0 < length ws)%nat as Hlen by (destruct ws; [done|cbn; lia]).
  set (q := send _ _). assert (page_inv ws q) as Hq by (destruct Hp; by split).
  change (open_work p) with (open_work q). destruct answer as [token|].
  - apply (inv_same _ _ (setCsrfToken token q)) in Hq; [|done..].
    destruct (renewed_all ws _ Hq eq_refl) as (Hi & Hf & Hn & Hl). change (open_work q) with (open_work (setCsrfToken token q)).
    split; [|lia]. split; [by rewrite Hn|]. by rewrite Hf, Hn.
  - destruct (expired_all ws _ Hq) as (Hi & Hf & Hn & Hl).
    split; [|lia]. split; [by rewrite Hn|]. by rewrite Hf, Hn.
Qed.

Lemma page_step_ok p e p' : page_step p e p' → page_ok p → page_ok p'.
Proof.
  intros Hstep Hok. pose proof Hok as (Hp & Hr & Hne).
  assert (∀ i c ph o, calls p !! i = Some (c, ph) → ph ≠ Waiting → page_ok (set_call i c (Settled o) p)) as Hsettle.
  { intros i c ph o Hi Hph. split; [|done]. cbn. rewrite <- (not_waiting _ i c ph p Hi Hph Hp). by apply (settle_inv _ i c ph). }
  destruct Hstep as [i c Hi|i c reply Hi|i c reply Hi|ws answer Hws|token|u].
  - split; [|done]. by apply begin_inv.
  - unfold on_first_reply. destruct reply as [status|]; [destruct (status =? 401)%Z|]; [by apply join_inv|by eapply Hsettle..].
  - by eapply Hsettle.
  - by apply (on_refresh_ok ws).
  - split; [|done]. by apply (inv_same _ p).
  - split; [|done]. by apply (inv_same _ p).
Qed.
Lemma page_reachable_ok p : reachable p → page_ok p.
Proof.
  intros (stored & es & Hs). assert (page_ok (opened stored)) as H0.
  { split; [|done]. split; [done|intros j| |done..]; cbn; [|apply NoDup_nil_2].
    rewrite elem_of_nil. split; [done|]. by intros [c Hc]. }
  revert H0. induction Hs; eauto using page_step_ok.
Qed.

(** C16: on a page at most one refresh is on its way at any time, however many calls
    are answered with 401 together, and a call is sent again at most once, after
    a refresh that succeeded. *)
Theorem one_refresh_at_a_time p i : reachable p →
  in_turn (log p) ∧ sent_again_once (log p) ∧ (sends i (log p) ≤ 2)%nat ∧
  (is_Some (pending p) ↔ refreshing (log p) = true).
Proof.
  intros ([Hs _ _ Ht Ha] & Hr & _)%page_reachable_ok. split_and!; [done..| |].
  - specialize (Hs i). destruct (calls p !! i) as [[c []]|]; cbn in Hs; lia.
  - by rewrite Hr, bool_decide_eq_true.
Qed.

(** *** Every call comes to an end *)

Definition is_reply (e : event) : bool := match e with FirstReply _ _ | SecondReply _ _ | RefreshReply _ => true | _ => false end.

Lemma reply_shrinks p e p' : page_ok p → page_step p e p' → is_reply e = true → (open_work p' < open_work p)%nat.
Proof.
  intros Hok Hstep He. assert (∀ i c ph o, calls p !! i = Some (c, ph) → 0 < weight (c, ph) →
    open_work (set_call i c (Settled o) p) < open_work p)%nat as Hsettle.
  { intros i c ph o Hi Hw. pose proof (open_work_set i c (Settled o) p _ Hi) as Hl. cbn in *. lia. }
  destruct Hstep as [i c Hi|i c reply Hi|i c reply Hi|ws answer Hws|token|u]; try discriminate He.
  - unfold on_first_reply. destruct reply as [status|]; [destruct (status =? 401)%Z|]; [|eapply Hsettle; [done|cbn; lia]..].
    pose proof (open_work_set i c Waiting p _ Hi) as Hl. unfold join_refresh, open_work in *. cbn in *.
    destruct (pending p); cbn; lia.
  - eapply Hsettle; [done|cbn; lia].
  - by apply (on_refresh_ok ws).
Qed.

(** Every call of a page comes to an end: the replies to the calls under way are
    at most three for each, and as long as a call is not settled some reply is
    awaited, whichever it will be. *)
Theorem every_call_settles p : reachable p →
  (∀ es p', page_steps p es p' → Forall (λ e, is_reply e = true) es → length es ≤ open_work p)%nat ∧
  ∀ i c ph, calls p !! i = Some (c, ph) → (∀ o, ph ≠ Settled o) →
    (∀ reply, ∃ p', page_step p (FirstReply i reply) p') ∨ (∀ reply, ∃ p', page_step p (SecondReply i reply) p') ∨
    (∀ answer, ∃ p', page_step p (RefreshReply answer) p').
Proof.
  intros Hok%page_reachable_ok. split.
  - intros es p' Hs Hes. induction Hs as [p|p e p1 es p2 Hstep Hs IH]; [cbn; lia|].
    apply Forall_cons in Hes as [He Hes]. pose proof (reply_shrinks _ _ _ Hok Hstep He).
    specialize (IH (page_step_ok _ _ _ Hstep Hok) Hes). cbn. lia.
  - intros i c ph Hi Hph. destruct ph as [| | |o].
    + left. intros reply. eexists. by apply step_first.
    + right. right. destruct Hok as ([_ Hw _ _ _] & _ & _). assert (i ∈ default [] (pending p)) as Hin by (apply Hw; by exists c).
      destruct (pending p) as [ws|] eqn:E; [|by apply elem_of_nil in Hin]. intros answer. eexists. by apply (step_refresh p ws).
    + right. left. intros reply. eexists. by apply step_second.
    + by destruct (Hph o).
Qed.

(** ** Two pages of one browser

    The cookies belong to the browser, the CSRF token a page sends to the page:
    a page that loaded the token keeps it until it signs in or refreshes
    itself. *)
Section pages.
Context {T : Type → Type} `{DatabaseLaws T} {S V : Type} `{RedisLaws S V} `{!Json ISessionData V}.
Context {J : Type} `{CookieJarLaws J}.
Context (sha256_hex : string → string) (uuid random_hex : nat → string) (jwt_sign : jwt_payload → Z → string).
Context (FindById : string → result (option IIamUser))
        (ResolvePermissions : string → result (option IResolvedPermissions)).
Context (access_expires_in refresh_expires_in : option string).
Context (COOKIE_SECURE : option bool) (COOKIE_DOMAIN AUTH_PREFIX_NAME AUTH_PREFIX_VERSION : option string).
Context (https : bool).
Hypothesis scheme_suits : implb (default true COOKIE_SECURE) https = true.
Hypothesis random_nonempty : ∀ n, random_hex n ≠ "".
Implicit Types (s : auth_state T S) (r : http_request) (p : page).
Abbreviation refreshCookiePath := (refreshCookiePath AUTH_PREFIX_NAME AUTH_PREFIX_VERSION).
Abbreviation home := (home COOKIE_DOMAIN AUTH_PREFIX_NAME AUTH_PREFIX_VERSION).
Abbreviation refresh_handler := (refresh_handler (T := T) (V := V) sha256_hex uuid random_hex jwt_sign FindById
  ResolvePermissions access_expires_in refresh_expires_in COOKIE_SECURE COOKIE_DOMAIN AUTH_PREFIX_NAME AUTH_PREFIX_VERSION).

(** The cookies of a refresh are those of its result. *)
Lemma refresh_cookies now today dto request s res cs s' :
  refresh_handler now today dto request s = (Ok (res, cs), s') →
  csrf_token res ≠ "" ∧ ∃ ttl, cs = setAuthCookies COOKIE_SECURE COOKIE_DOMAIN
    (AuthCookies (access_token res) (refresh_token_raw res) (csrf_token res) (expires_in res) ttl refreshCookiePath).
Proof.
  unfold CookieAuth.refresh_handler. destruct (truthy _) as [raw|]; [|done]. unfold then_ at 1, refresh. unfold then_ at 1.
  destruct (refresh_lookup _ _ _ _) as [[found|e] s1]; [|done].
  destruct found as [row|]; [|done].
  pose proof (refresh_with_spec sha256_hex uuid random_hex jwt_sign FindById ResolvePermissions
    access_expires_in refresh_expires_in now today row s1) as Hspec. cbv zeta in Hspec.
  destruct (refresh_with _ _ _ _ _ _ _ _ _ _ _ _) as [[res0|e] s2]; [|done].
  destruct Hspec as (c & u & perms & _ & Hi). unfold then_, run, setCookies.
  destruct (parseDurationToSeconds _) as [ttl|e]; [|done]. cbn. intros [= <- <- <-].
  destruct (ti_csrf _ _ _ _ _ _ _ _ _ _ _ _ _ Hi) as [m ->]. split; [done|]. by exists ttl.
Qed.

(** A request that [fetchWithAuth] makes on the page, with the cookies of the
    browser at time [t]. *)
Record page_request (t : Z) (path : string) (j : J) (c : call) p r : Prop := {
  pr_method : rq_method r = default "GET" (c_method c);
  pr_headers : rq_headers r = withCsrfHeader (state p) (c_headers c) (c_method c);
  pr_cookies : ∀ n, cookie r n = sent https t path j n;
}.
(** Its method is written in capitals and is not one of the safe ones. *)
Definition changes (c : call) : Prop :=
  ∃ m, c_method c = Some m ∧ m ≠ "" ∧ toUpperCase m = m ∧ ¬ includes SAFE_METHODS m.

Lemma page_csrf_header t path j c p r token : page_request t path j c p r → changes c →
  s_csrf_token (state p) = Some token → token ≠ "" → header_string r "x-csrf-token" = Some token.
Proof.
  intros [_ Hh _] (m & Hm & Hne & Hup & Hun) Hs Ht. unfold header_string. rewrite Hh. unfold withCsrfHeader, is_safe.
  rewrite Hs, Hm. destruct token as [|ch token]; [done|]. destruct m as [|ch' m]; [done|].
  cbn [truthy default from_option Datatypes.id]. rewrite Hup. destruct (includes _ _); [by destruct Hun|]. by rewrite lookup_insert_eq.
Qed.

Lemma renewed_state ws p : state (foldl on_renewed p ws) = state p.
Proof.
  revert p. induction ws as [|i ws IH]; intros p; [done|]. cbn. rewrite IH. unfold on_renewed.
  by destruct (calls p !! i) as [[? ?]|].
Qed.
Lemma renewed_token answer p : s_csrf_token (state (on_refresh_reply (Some answer) p)) = Some answer.
Proof. unfold on_refresh_reply. by rewrite renewed_state. Qed.

Section renewed.
Context (now : Z) (today : string) (dto : option string) (request : http_request) (s s' : auth_state T S)
        (res : ILoginResult) (cs : list reply_cookie) (j : J) (t0 t : Z) (path : string) (rt : route) (r : http_request)
        (c : call) (p : page).
Hypothesis Hrefresh : refresh_handler now today dto request s = (Ok (res, cs), s').
Hypothesis Hjar : respects home j.
Hypothesis Htime : (t0 ≤ t < t0 + Z.min (expires_in res) max_lifetime)%Z.
Hypothesis Hrequest : page_request t path (receive_all https t0 cs j) c p r.
Hypothesis Hchanges : changes c.
Hypothesis Hroute : is_http rt = true ∧ isAccessKeyRoute rt = false ∧ skipCsrfCheck rt = false.

Lemma after_refresh token : s_csrf_token (state p) = Some token → token ≠ "" →
  csrf_guard rt r = if decide (token = csrf_token res) then Ok tt
                    else Throw (ForbiddenException "Missing or invalid CSRF token.").
Proof.
  intros Hs Ht. destruct Hroute as (Hh & Hk & Hskip). apply refresh_cookies in Hrefresh as (Hne & ttl & ->).
  destruct (sent_after_set COOKIE_SECURE COOKIE_DOMAIN AUTH_PREFIX_NAME AUTH_PREFIX_VERSION https scheme_suits t0 t path
    (AuthCookies (access_token res) (refresh_token_raw res) (csrf_token res) (expires_in res) ttl refreshCookiePath) j
    Hjar (proj1 Htime) eq_refl) as (_ & _ & Hx). cbn in Hx. rewrite (proj2 (Z.ltb_lt _ _) (proj2 Htime)) in Hx.
  rewrite <- (pr_cookies _ _ _ _ _ _ Hrequest) in Hx. pose proof (pr_method _ _ _ _ _ _ Hrequest) as Hm.
  pose proof (page_csrf_header _ _ _ _ _ _ _ Hrequest Hchanges Hs Ht) as Hhd.
  destruct Hchanges as (m & Hcm & _ & _ & Hun). rewrite Hcm in Hm.
  rewrite (csrf_decides rt r (csrf_token res)); [|done..|by rewrite Hm|done|done].
  rewrite Hhd. destruct (decide (token = csrf_token res)) as [->|Hd]; [by rewrite decide_True|].
  rewrite decide_False; [done|congruence].
Qed.

(** C24: after the tokens were renewed by another page of the browser, every call of
    this page that changes something is refused with 403; the refusal neither
    starts a refresh nor brings the page the new token, so the next ones are
    refused as well, until the access token expires or the page is loaded again. *)
Theorem other_page_refused token i : s_csrf_token (state p) = Some token → token ≠ "" → token ≠ csrf_token res →
  calls p !! i = Some (c, First) →
  ∃ e, csrf_guard rt r = Throw e ∧ status_of e = Some 403%Z ∧
    let p' := on_first_reply i c (status_of e) p in
    calls p' !! i = Some (c, Settled (Response 403)) ∧ state p' = state p ∧ log p' = log p.
Proof.
  intros Hs Ht Hne Hi. exists (ForbiddenException "Missing or invalid CSRF token."). split_and!; try done.
  - rewrite (after_refresh token) by done. by rewrite decide_False.
  - cbn. by rewrite lookup_insert_eq.
Qed.

(** The page that asked for the refresh goes on with its answer: what it sends
    from then on passes the check. *)
Theorem renewing_page_admitted p0 : state p = state (on_refresh_reply (Some (csrf_token res)) p0) → csrf_guard rt r = Ok tt.
Proof.
  intros Hp. rewrite (after_refresh (csrf_token res)); [by rewrite decide_True|by rewrite Hp, renewed_token|].
  by apply refresh_cookies in Hrefresh as [? _].
Qed.
End renewed.
End pages.

(** ** Samples and witnesses *)
Module PageSample.
Import AuthService.Sample CookieSample.
Definition me_user : IUserSession := me.
Definition post : call := Call (Some "POST") ∅.
Definition get : call := Call None ∅.
(** Two calls are answered with 401, one refresh, both are sent again. *)
Definition both_waiting : list event :=
  [SignedIn "r3"; Profile me_user; Begin 0 get; Begin 1 post; FirstReply 1 (Some 401%Z); FirstReply 0 (Some 401%Z)].
Fixpoint run (es : list event) (p : page) : page :=
  match es with
  | [] => p
  | e :: es => run es
      match e with
      | Begin i c => begin i c p
      | FirstReply i reply => match calls p !! i with Some (c, First) => on_first_reply i c reply p | _ => p end
      | SecondReply i reply => match calls p !! i with Some (c, Second) => on_second_reply i c reply p | _ => p end
      | RefreshReply answer => on_refresh_reply answer p
      | SignedIn token => setCsrfToken token p
      | Profile u => setUser u p
      end
  end.
Definition waiting : page := run both_waiting (opened None).
Definition resent : page := run [RefreshReply (Some "r7")] waiting.
Example sent_first : List.map (λ m, match m with Api i _ => Some i | _ => None end) (log waiting) = [None; Some 1; Some 0]%nat.
Proof. by vm_compute. Qed.
Example sent_then : List.map (λ m, match m with Api i hs => Some (i, hs !! "x-csrf-token") | _ => None end) (firstn 2 (log resent))
  = [Some (0, None); Some (1, Some (HString "r7"))]%nat.
Proof. by vm_compute. Qed.
Example expired : let p := run [RefreshReply None] waiting in
  (modal p, isAuthenticated (state p), calls p !! 0) = (true, false, Some (get, Settled SessionExpired)).
Proof. by vm_compute. Qed.
Example authenticated : isAuthenticated (state resent) = true.
Proof. by vm_compute. Qed.

Lemma waiting_reachable : reachable waiting.
Proof.
  exists None, both_waiting. unfold waiting, both_waiting. cbn [run].
  repeat (eapply steps_more; [first [by constructor|eapply step_first; vm_compute; reflexivity]|]).
  vm_compute. constructor.
Qed.

Definition page_post (t : Z) (path : string) (j : ListJar.jar) (c : call) (p : page) : http_request :=
  HttpRequest (default "GET" (c_method c)) path None "" (withCsrfHeader (state p) (c_headers c) (c_method c))
    (Some (ListJar.cookies_of true t path j)) None None None.
Lemma page_posts t path j c p : page_request true t path j c p (page_post t path j c p).
Proof. split; [done|done|]. intros n. apply ListJar.cookies_sent. Qed.
Lemma post_changes : changes post.
Proof. exists "POST". split_and!; [done..|]. by intros H. Qed.

(** The browser after a login, and one refresh a minute later. *)
Definition jar (cs : list reply_cookie) : ListJar.jar := receive_all (J := ListJar.jar) true 0 cs [].
Abbreviation refreshes cs := (refresh_handler (T := list) (S := S) (V := ISessionData) digest uuid random_hex FlowSample.sign
  find_user resolve None None None None (Some "auth") (Some "v1") 60000 "2024-06-01" None
  (ListJar.browser_post true 60 "/auth/v1/auth/refresh" (jar cs) (Some "r3"))).
Lemma renewed_tokens : ∃ cs s res2 cs2 s2, refreshes cs s = (Ok (res2, cs2), s2) ∧ respects (J := ListJar.jar) my_home (jar cs) ∧
  csrf_token res2 ≠ "r3" ∧ csrf_token res2 ≠ "" ∧ expires_in res2 = 900%Z.
Proof.
  destruct sign_in as [[[res cs]|e] s'] eqn:E; [|by vm_compute in E].
  assert (respects (J := ListJar.jar) my_home (jar cs)) as Hr.
  { pose proof E as E'. apply login_cookies in E' as (_ & ttl & _ & ->). apply respects_after_set; [apply empty_respects|done]. }
  exists cs, s'. destruct (refreshes cs s') as [[[res2 cs2]|e] s2] eqn:E2.
  - exists res2, cs2, s2. split; [done|]. split; [done|]. clear Hr. vm_compute in E. injection E as <- <- <-.
    vm_compute in E2. injection E2 as <- _ _. by vm_compute.
  - exfalso. clear Hr. vm_compute in E. injection E as <- <- <-. by vm_compute in E2.
Qed.
Definition old_page : page := run [SignedIn "r3"; Profile me_user; Begin 0 post] (opened None).
End PageSample.

Lemma one_refresh_at_a_time_witness : in_turn (log PageSample.waiting) ∧ (sends 1 (log PageSample.waiting) ≤ 2)%nat.
Proof.
  destruct (one_refresh_at_a_time PageSample.waiting 1 PageSample.waiting_reachable) as (Ht & _ & Hs & _).
  split; [exact Ht|exact Hs].
Defined.
Lemma every_call_settles_witness : ∃ p', page_step PageSample.waiting (RefreshReply None) p'.
Proof.
  destruct (every_call_settles PageSample.waiting PageSample.waiting_reachable) as [_ Hs].
  destruct (Hs 0%nat PageSample.get Waiting ltac:(vm_compute; reflexivity) ltac:(discriminate)) as [H|[H|H]].
  - exfalso. destruct (H None) as [p' Hp]. inversion Hp as [|i c reply Hi| | | |]. vm_compute in Hi. discriminate Hi.
  - exfalso. destruct (H None) as [p' Hp]. inversion Hp as [| |i c reply Hi| | |]. vm_compute in Hi. discriminate Hi.
  - exact (H None).
Defined.
Lemma other_page_refused_witness : ∃ cs2 rt e, csrf_guard rt (PageSample.page_post 61 "/users" cs2 PageSample.post PageSample.old_page) = Throw e.
Proof.
  destruct PageSample.renewed_tokens as (cs & s & res2 & cs2 & s2 & E & Hr & Hne & _ & He).
  exists (receive_all (J := ListJar.jar) true 60 cs2 (PageSample.jar cs)), CookieSample.sales_route.
  destruct (other_page_refused (T := list) (S := CookieSample.S) (V := ISessionData) (J := ListJar.jar) Sample.digest Sample.uuid
    Sample.random_hex FlowSample.sign Sample.find_user Sample.resolve None None None None (Some "auth") (Some "v1") true eq_refl
    CookieSample.randoms 60000 "2024-06-01" None _ s s2 res2 cs2 (PageSample.jar cs) 60 61 "/users" CookieSample.sales_route
    _ PageSample.post PageSample.old_page E Hr ltac:(rewrite He; split; [done|by vm_compute])
    (PageSample.page_posts 61 "/users" _ PageSample.post PageSample.old_page) PageSample.post_changes
    (conj eq_refl (conj eq_refl eq_refl)) "r3" 0 eq_refl ltac:(discriminate) (not_eq_sym Hne) ltac:(vm_compute; reflexivity))
    as (e & Hg & _).
  exists e. exact Hg.
Defined.
Lemma renewing_page_admitted_witness : ∃ token cs2, csrf_guard CookieSample.sales_route
  (PageSample.page_post 61 "/users" cs2 PageSample.post (on_refresh_reply (Some token) PageSample.waiting)) = Ok tt.
Proof.
  destruct PageSample.renewed_tokens as (cs & s & res2 & cs2 & s2 & E & Hr & _ & _ & He).
  exists (csrf_token res2), (receive_all (J := ListJar.jar) true 60 cs2 (PageSample.jar cs)).
  exact (renewing_page_admitted (T := list) (S := CookieSample.S) (V := ISessionData) (J := ListJar.jar) Sample.digest Sample.uuid
    Sample.random_hex FlowSample.sign Sample.find_user Sample.resolve None None None None (Some "auth") (Some "v1") true eq_refl
    CookieSample.randoms 60000 "2024-06-01" None _ s s2 res2 cs2 (PageSample.jar cs) 60 61 "/users" CookieSample.sales_route
    _ PageSample.post _ E Hr ltac:(rewrite He; split; [done|by vm_compute])
    (PageSample.page_posts 61 "/users" _ PageSample.post (on_refresh_reply (Some (csrf_token res2)) PageSample.waiting))
    PageSample.post_changes (conj eq_refl (conj eq_refl eq_refl)) PageSample.waiting eq_refl).
Defined.
