(* ===== verification/AdminPages.v ===== *)
(** * The admin pages

    The parts the admin pages share
    (src/apps/iam/public/pages/user-management/js): the reading of JSON:API
    responses (json-api-client.js), escaping (utils.js), the pager
    (paginated-list.js), sorting (sortable-table.js), the choice of policies
    (policy-checkbox-picker.js) and what a page shows when it is opened
    (shell.service.js).  The responses are those of JsonApi.v and RpcErrors.v,
    the session is that of AdminSession.v.  The DOM is left out: an element's
    state is the value the code gives it. *)

From S2P Require Import Prelude JsString JsValues RpcErrors JsonApi Guards AdminSession.
#[local] Open Scope string_scope.
#[local] Open Scope list_scope.

(** ** Escaping *)

(** [s.replace(/c/g, r)] for one character [c]. *)
Fixpoint replace_char (c : ascii) (r s : string) : string :=
  match s with
  | "" => ""
  | String d s => if Ascii.eqb d c then r +:+ replace_char c r s else String d (replace_char c r s)
  end.
Definition quote : ascii := "'".
Definition quotation : ascii := ascii_of_nat 34.
Definition escape_text (s : string) : string :=
  replace_char quote "&#39;" (replace_char quotation "&quot;" (replace_char ">" "&gt;" (replace_char "<" "&lt;"
    (replace_char "&" "&amp;" s)))).
Definition escapeHtml (value : jsv) : string :=
  match value with JNull | JUndefined => "" | _ => escape_text (js_String value) end.

(** The browser's side: character references are replaced, in text and in the
    values of attributes alike. *)
Fixpoint decode_html (fuel : nat) (s : string) : string :=
  match fuel, s with
  | S fuel, String c s' =>
      match drop_prefix "&amp;" s, drop_prefix "&lt;" s, drop_prefix "&gt;" s, drop_prefix "&quot;" s, drop_prefix "&#39;" s with
      | Some t, _, _, _, _ => String "&" (decode_html fuel t)
      | _, Some t, _, _, _ => String "<" (decode_html fuel t)
      | _, _, Some t, _, _ => String ">" (decode_html fuel t)
      | _, _, _, Some t, _ => String quotation (decode_html fuel t)
      | _, _, _, _, Some t => String quote (decode_html fuel t)
      | _, _, _, _, _ => String c (decode_html fuel s')
      end
  | _, _ => ""
  end.
Definition shown (s : string) : string := decode_html (String.length s) s.

(** The [onclick] of the button that ends a session (sessions-admin.service.js):
    [label] is the user's name, or the id. *)
Definition revoke_onclick (jti label : string) : string :=
  "revokeSession('" +:+ jti +:+ "', '" +:+ replace_char quote "\'" (escapeHtml (JStr label)) +:+ "')".

(** ** json-api-client.js *)


(** [toApiError] of a reply with a JSON body. *)
Record api_error := ApiError { ae_message : jsv; ae_status : jsv; ae_errors : jsv }.
Definition first_error (json : jsv) : jsv :=
  match chain json "errors" with JArr (e :: _) => e | _ => JUndefined end.
Definition toApiError (statusText : string) (status json : jsv) : api_error :=
  let first := first_error json in
  ApiError (coalesce (chain first "detail") (coalesce (chain first "title") (JStr statusText))) status
    (coalesce (chain json "errors") (JArr [])).
(** change-password.service.js *)
Definition isMustChangePasswordError (e : api_error) : bool :=
  match ae_errors e with
  | JArr errors => List.existsb (λ x, match chain x "code" with JStr s => String.eqb s "MUST_CHANGE_PASSWORD" | _ => false end) errors
  | _ => false
  end.

(** [buildUrl]: the parameters that are sent. *)
Definition query_value (v : jsv) : list string :=
  match v with
  | JUndefined | JNull | JStr "" => []
  | JArr items => List.map js_String items
  | _ => [js_String v]
  end.
Definition url_params (query : list (string * jsv)) : list (string * string) :=
  flat_map (λ kv, List.map (pair kv.1) (query_value kv.2)) query.

(** ** paginated-list.js *)

(** [fetchPage] gives the pagination of the answer, or [undefined] when the
    request failed; of the pagination the pager reads the number of pages. *)
Record pager := Pager { currentPage : Z; pageSize : Z; pagination : option page_info }.
Definition new_pager (defaultPageSize : Z) : pager := Pager 1 defaultPageSize None.
(** [load] up to the request, and after the answer. *)
Definition load_begin (page : Z) (p : pager) : pager := Pager page (pageSize p) (pagination p).
Definition load_end (result : option page_info) (p : pager) : pager :=
  Pager (currentPage p) (pageSize p) match result with Some r => Some r | None => pagination p end.
(** The page that is loaded, if any. *)
Definition goToPage (direction : Z) (p : pager) : option Z :=
  let nextPage := (currentPage p + direction)%Z in
  if (nextPage <? 1)%Z then None
  else match pagination p with
       | Some i => if (pi_total_pages i <? nextPage)%Z then None else Some nextPage
       | None => Some nextPage
       end.
Definition setPageSize (defaultPageSize : Z) (size : option Z) (p : pager) : pager :=
  Pager (currentPage p) match size with Some n => if (n =? 0)%Z then defaultPageSize else n | None => defaultPageSize end (pagination p).
(** [renderPager]: whether the buttons are disabled, once there is an answer. *)
Definition renderPager (p : pager) : option (bool * bool) :=
  i ← pagination p; Some (bool_decide (currentPage p ≤ 1)%Z, bool_decide (pi_total_pages i ≤ currentPage p)%Z).

(** ** sortable-table.js *)

Record sorting := Sorting { sortKey : option string; descending : bool }.
Definition new_sorting (defaultSort : string) : sorting :=
  match split ":" defaultSort with
  | k :: rest => Sorting (truthy (Some k)) match rest with d :: _ => String.eqb d "desc" | [] => false end
  | [] => Sorting None false
  end.
Definition click (key : string) (s : sorting) : sorting :=
  Sorting (Some key) (bool_decide (sortKey s = Some key) && negb (descending s)).
Definition getSort (s : sorting) : option string :=
  k ← sortKey s; Some (k +:+ ":" +:+ if descending s then "desc" else "asc").

(** ** policy-checkbox-picker.js *)

Definition toggleSelected (policyId : string) (isChecked : bool) (selectedIds : list string) : list string :=
  if isChecked then if includes selectedIds policyId then selectedIds else selectedIds ++ [policyId]
  else match list_find (eq policyId) selectedIds with
       | Some (index, _) => take index selectedIds ++ drop (S index) selectedIds
       | None => selectedIds
       end.
Record policy_row := PolicyRow { pr_id : string; pr_name_th : string; pr_name_en : string; pr_code : string }.
Definition contains (s term : string) : bool := match find_sub term s with Some _ => true | None => false end.
Definition matchesSearch (term : string) (policy : policy_row) : bool :=
  contains (toLowerCase (pr_name_th policy)) term || contains (toLowerCase (pr_name_en policy)) term ||
  contains (toLowerCase (pr_code policy)) term.
(** The boxes that are drawn, and which of them are checked. *)
Definition drawn (searchTerm : string) (policies : list policy_row) (selectedIds : list string) : list (policy_row * bool) :=
  let term := toLowerCase (trim searchTerm) in
  let filtered := if String.eqb term "" then policies else List.filter (matchesSearch term) policies in
  List.map (λ policy, (policy, includes selectedIds (pr_id policy))) filtered.

(** ** shell.service.js *)

Inductive screen := LoginScreen | ChangePassword | Redirect (path : string) | NoAccess | Loaded.
Definition dashboard (viewsBase : string) : string := viewsBase +:+ "/dashboard".
Definition bootAdminPage (viewsBase pathname : string) (pagePermission : option string) (s : session) : screen :=
  if negb (isAuthenticated s) then LoginScreen
  else if match s_user s with Some u => us_must_change_password u | None => false end then ChangePassword
  else
    match truthy pagePermission with
    | Some permission =>
        if hasPermission permission s then Loaded
        else if String.eqb pathname (dashboard viewsBase) then NoAccess
        else Redirect (dashboard viewsBase)
    | None => Loaded
    end.

(** ** Escaped text *)

Lemma replace_char_app c r a b : replace_char c r (a +:+ b) = replace_char c r a +:+ replace_char c r b.
Proof.
  induction a as [|d a IH]; [done|]. rewrite append_cons. cbn. rewrite IH. destruct (Ascii.eqb d c); [|done].
  by rewrite append_assoc.
Qed.
Lemma replace_char_none c r s : str_forall (λ d, negb (Ascii.eqb d c)) s = true → replace_char c r s = s.
Proof.
  induction s as [|d s IH]; [done|]. cbn. intros [Hd Hs]%andb_true_iff. apply negb_true_iff in Hd. by rewrite Hd, IH.
Qed.
Definition escape_char (c : ascii) : string := escape_text (String c "").
Lemma escape_cons c s : escape_text (String c s) = escape_char c +:+ escape_text s.
Proof.
  change (String c s) with (String c "" +:+ s). unfold escape_char, escape_text. by rewrite !replace_char_app.
Qed.

Definition specials : list ascii := ["&"%char; "<"%char; ">"%char; quotation; quote].
Lemma escape_plain c : c ∉ specials → escape_char c = String c "".
Proof.
  unfold specials. rewrite !not_elem_of_cons. intros (H1 & H2 & H3 & H4 & H5 & _). unfold escape_char, escape_text.
  cbn [replace_char]. rewrite (proj2 (Ascii.eqb_neq _ _) H1). cbn [replace_char]. rewrite (proj2 (Ascii.eqb_neq _ _) H2).
  cbn [replace_char]. rewrite (proj2 (Ascii.eqb_neq _ _) H3). cbn [replace_char]. rewrite (proj2 (Ascii.eqb_neq _ _) H4).
  cbn [replace_char]. by rewrite (proj2 (Ascii.eqb_neq _ _) H5).
Qed.
Lemma decode_step n c t : decode_html (S n) (escape_char c +:+ t) = String c (decode_html n t).
Proof.
  destruct (decide (c ∈ specials)) as [Hc|Hc].
  - unfold specials in Hc. repeat (apply elem_of_cons in Hc as [->|Hc]; [reflexivity|]). by apply elem_of_nil in Hc.
  - rewrite escape_plain by done. rewrite append_cons, append_nil_l. unfold specials in Hc. rewrite !not_elem_of_cons in Hc.
    destruct Hc as (H1 & _). cbn [decode_html]. cbn [drop_prefix].
    replace (Ascii.eqb "&" c) with false by (symmetry; apply Ascii.eqb_neq; congruence). done.
Qed.
Lemma decode_escaped s n t : (String.length s ≤ n)%nat →
  decode_html n (escape_text s +:+ t) = s +:+ decode_html (n - String.length s) t.
Proof.
  revert n. induction s as [|c s IH]; intros n Hn; [by rewrite append_nil_l, Nat.sub_0_r|].
  rewrite escape_cons, append_assoc. cbn in Hn. destruct n as [|n]; [lia|]. rewrite decode_step, IH by lia.
  by rewrite append_cons.
Qed.
Definition no_reference (s : string) : bool := str_forall (λ c, negb (Ascii.eqb c "&")) s.
Lemma decode_plain s n t : no_reference s = true → (String.length s ≤ n)%nat →
  decode_html n (s +:+ t) = s +:+ decode_html (n - String.length s) t.
Proof.
  revert n. induction s as [|c s IH]; intros n Hs Hn; [by rewrite append_nil_l, Nat.sub_0_r|].
  cbn in Hs, Hn. apply andb_true_iff in Hs as [Hc Hs]. apply negb_true_iff in Hc. rewrite Ascii.eqb_sym in Hc.
  destruct n as [|n]; [lia|]. rewrite append_cons. cbn [decode_html drop_prefix]. rewrite Hc, IH by (done || lia). done.
Qed.
Lemma escape_length s : (String.length s ≤ String.length (escape_text s))%nat.
Proof.
  induction s as [|c s IH]; [done|]. rewrite escape_cons, append_length. cbn [String.length].
  assert (1 ≤ String.length (escape_char c))%nat; [|lia]. destruct (decide (c ∈ specials)) as [Hc|Hc]; [|by rewrite escape_plain].
  unfold specials in Hc. repeat (apply elem_of_cons in Hc as [->|Hc]; [vm_compute; lia|]). by apply elem_of_nil in Hc.
Qed.
Definition inert (c : ascii) : bool := negb (bool_decide (c ∈ ["<"%char; ">"%char; quotation; quote])).
Lemma escape_inert s : str_forall inert (escape_text s) = true.
Proof.
  induction s as [|c s IH]; [done|]. rewrite escape_cons, str_forall_app, IH, andb_true_r.
  destruct (decide (c ∈ specials)) as [Hc|Hc].
  - unfold specials in Hc. repeat (apply elem_of_cons in Hc as [->|Hc]; [by vm_compute|]). by apply elem_of_nil in Hc.
  - rewrite escape_plain by done. cbn. rewrite andb_true_r. unfold inert. apply negb_true_iff, bool_decide_eq_false.
    unfold specials in Hc. by apply not_elem_of_cons in Hc as [_ Hc].
Qed.

(** Escaped text contains nothing that ends a text or a quoted attribute, and is
    shown as it was. *)
Theorem escaped_shown s : str_forall inert (escape_text s) = true ∧ shown (escape_text s) = s.
Proof.
  split; [apply escape_inert|]. unfold shown. rewrite <- (append_nil_r (escape_text s)) at 2.
  rewrite decode_escaped by apply escape_length. destruct (_ - _)%nat; apply append_nil_r.
Qed.

(** The handler of the button that ends a session is run with the user's name
    as part of its code: escaping for HTML leaves no quote for the second
    replacement to escape, and the browser undoes it before the code is run. *)
Theorem label_becomes_code jti label : no_reference jti = true →
  shown (revoke_onclick jti label) = "revokeSession('" +:+ jti +:+ "', '" +:+ label +:+ "')".
Proof.
  intros Hj. unfold revoke_onclick. rewrite replace_char_none.
  2:{ pose proof (escape_inert label) as Hi. revert Hi. change (escapeHtml (JStr label)) with (escape_text label).
      generalize (escape_text label). clear. intros s. induction s as [|c s IH]; [done|]. cbn. intros [Hc Hs]%andb_true_iff.
      rewrite IH by done. rewrite andb_true_r. apply negb_true_iff, Ascii.eqb_neq. intros ->. by vm_compute in Hc. }
  change (escapeHtml (JStr label)) with (escape_text label). pose proof (escape_length label) as Hl. unfold shown.
  rewrite (decode_plain "revokeSession('"); [|done|rewrite append_length; lia]. f_equal.
  rewrite decode_plain; [|done|rewrite !append_length; lia]. f_equal.
  rewrite (decode_plain "', '"); [|done|rewrite !append_length; cbn; lia]. f_equal.
  rewrite decode_escaped; [|rewrite !append_length; cbn; lia]. f_equal.
  rewrite <- (append_nil_r "')") at 2. rewrite (decode_plain "')"); [|done|rewrite !append_length; cbn; lia].
  by destruct (_ - _)%nat.
Qed.

(** ** Responses *)








(** An exception's text is what the page shows, with its status, and the code of a
    mandatory password change is recognised. *)
Theorem client_reads_errors now statusText h o detail : getResponse h = JObj o →
  property "detail" o = JUndefined → property "message" o = JStr detail →
  let '(status, body) := AllExceptionsFilter now (EHttp h) in
  let e := toApiError statusText status body in
  ae_message e = JStr detail ∧ ae_status e = getStatus h ∧
  (property "code" o = JStr "MUST_CHANGE_PASSWORD" → isMustChangePasswordError e = true).
Proof.
  intros Hr Hd Hm. unfold AllExceptionsFilter, http_error. rewrite Hr. cbn [members]. rewrite Hd, Hm.
  cbn [coalesce nullish]. split_and!; [done|done|]. intros Hc. by rewrite Hc.
Qed.

(** ** Paging *)

(** The page a step leads to exists, as far as the last answer tells, and a
    button is enabled exactly when its step leads to a page. *)
Theorem pager_buttons p i : pagination p = Some i → (1 ≤ currentPage p ≤ pi_total_pages i + 1)%Z →
  ∃ prev next, renderPager p = Some (prev, next) ∧
    (prev = false ↔ is_Some (goToPage (-1) p)) ∧ (next = false ↔ is_Some (goToPage 1 p)) ∧
    ∀ d n, goToPage d p = Some n → (n = currentPage p + d ∧ 1 ≤ n ≤ pi_total_pages i)%Z.
Proof.
  intros Hi Hp. unfold renderPager, goToPage. rewrite Hi. cbn. do 2 eexists. split; [reflexivity|].
  rewrite !bool_decide_eq_false. split_and!.
  - destruct (Z.ltb_spec (currentPage p + -1) 1); [split; [lia|by intros [? ?]]|].
    destruct (Z.ltb_spec (pi_total_pages i) (currentPage p + -1)); [lia|]. split; [by eexists|lia].
  - destruct (Z.ltb_spec (currentPage p + 1) 1); [lia|].
    destruct (Z.ltb_spec (pi_total_pages i) (currentPage p + 1)); [split; [lia|by intros [? ?]]|]. split; [by eexists|lia].
  - intros d n. destruct (Z.ltb_spec (currentPage p + d) 1); [done|].
    destruct (Z.ltb_spec (pi_total_pages i) (currentPage p + d)); [done|]. intros [= <-]. lia.
Qed.

(** When the request for the next page fails, the rows of the old page stay, but
    the pager has moved on: the next step leaves that page out. *)
Theorem failed_load_moves p i : pagination p = Some i → (0 ≤ currentPage p)%Z → (currentPage p + 2 ≤ pi_total_pages i)%Z →
  goToPage 1 p = Some (currentPage p + 1)%Z ∧
  goToPage 1 (load_end None (load_begin (currentPage p + 1) p)) = Some (currentPage p + 2)%Z.
Proof.
  intros Hi H0 Hp. unfold goToPage. cbn. rewrite Hi. split.
  - destruct (Z.ltb_spec (currentPage p + 1) 1); [lia|]. by destruct (Z.ltb_spec (pi_total_pages i) (currentPage p + 1)); [lia|].
  - destruct (Z.ltb_spec (currentPage p + 1 + 1) 1); [lia|].
    destruct (Z.ltb_spec (pi_total_pages i) (currentPage p + 1 + 1)); [lia|]. f_equal. lia.
Qed.

(** ** Sorting *)

(** A header sorts its column upwards, a second click downwards, a third upwards
    again; a click on another header starts over. *)
Theorem clicks_alternate key s n : sortKey s ≠ Some key →
  getSort (Nat.iter (S n) (click key) s) = Some (key +:+ ":" +:+ if Nat.even n then "asc" else "desc").
Proof.
  intros Hk. assert (Nat.iter (S n) (click key) s = Sorting (Some key) (negb (Nat.even n))) as ->.
  { induction n as [|n IH].
    - cbn. unfold click. by rewrite bool_decide_false.
    - change (Nat.iter (S (S n)) (click key) s) with (click key (Nat.iter (S n) (click key) s)). rewrite IH. unfold click. cbn [sortKey descending].
      rewrite bool_decide_true by done. rewrite Nat.even_succ, <- Nat.negb_even. by destruct (Nat.even n). }
  unfold getSort. cbn. by destruct (Nat.even n).
Qed.

(** ** Choosing policies *)

(** Whatever the search leaves visible, a box changes its own policy and no other,
    and a choice without repetitions stays one. *)
Theorem toggle_exact policyId isChecked ids : NoDup ids →
  NoDup (toggleSelected policyId isChecked ids) ∧
  ∀ x, x ∈ toggleSelected policyId isChecked ids ↔ (x = policyId ∧ isChecked = true) ∨ (x ≠ policyId ∧ x ∈ ids).
Proof.
  intros Hnd. unfold toggleSelected. destruct isChecked.
  - destruct (includes ids policyId) eqn:E.
    + apply includes_true in E. split; [done|]. intros x. destruct (decide (x = policyId)) as [->|]; naive_solver.
    + assert (policyId ∉ ids) as Hn by (intros Hi%includes_true; congruence). split.
      * apply NoDup_app. split_and!; [done|set_solver|apply NoDup_singleton].
      * intros x. rewrite elem_of_app, list_elem_of_singleton. destruct (decide (x = policyId)) as [->|]; naive_solver.
  - destruct (list_find (eq policyId) ids) as [[k y]|] eqn:E.
    + apply list_find_Some in E as (Hy & <- & _). rewrite <- delete_take_drop.
      rewrite (delete_Permutation _ _ _ Hy) in Hnd. apply NoDup_cons in Hnd as [Hn Hnd]. split; [done|].
      intros x. assert (x ∈ ids ↔ x ∈ policyId :: delete k ids) as -> by by rewrite <- (delete_Permutation ids k policyId Hy).
      rewrite elem_of_cons. destruct (decide (x = policyId)) as [->|]; naive_solver.
    + apply list_find_None in E. rewrite Forall_forall in E. split; [done|]. intros x.
      destruct (decide (x = policyId)) as [->|]; [|naive_solver]. split; [|naive_solver]. intros Hx. by destruct (E _ Hx).
Qed.

(** ** Opening a page *)

(** A page that is opened settles after at most one redirect, whatever the
    permissions: it is loaded exactly for a signed-in user who holds its
    permission and need not change the password, and the change of the password
    comes before everything else. *)
Theorem boot_settles viewsBase pathname pagePermission s :
  let first := bootAdminPage viewsBase pathname pagePermission s in
  (∀ path, first = Redirect path → path = dashboard viewsBase ∧
     ∀ permission path', bootAdminPage viewsBase path permission s ≠ Redirect path') ∧
  (first = Loaded ↔ isAuthenticated s = true ∧ (∀ u, s_user s = Some u → us_must_change_password u = false) ∧
     ∀ permission, truthy pagePermission = Some permission → hasPermission permission s = true) ∧
  (first = ChangePassword ↔ isAuthenticated s = true ∧ ∃ u, s_user s = Some u ∧ us_must_change_password u = true).
Proof.
  cbv zeta. unfold bootAdminPage. destruct (isAuthenticated s) eqn:Ea; cbn [negb]; [|by split_and!; [|split; [|intros [? _]]..]].
  assert (is_Some (s_user s)) as [u Hu]; [|rewrite Hu].
  { unfold isAuthenticated in Ea. destruct (truthy (s_csrf_token s)), (s_user s); [by eexists|done..]. }
  destruct (us_must_change_password u) eqn:Em.
  { split_and!; [done| |by split; [intros _; eauto|]]. split; [done|]. intros (_ & Hn & _). specialize (Hn u eq_refl). congruence. }
  split_and!.
  - intros path. destruct (truthy pagePermission) as [permission|]; [|done]. destruct (hasPermission permission s); [done|].
    destruct (String.eqb _ _); [done|]. intros [= <-]. split; [done|]. intros permission' path'.
    destruct (truthy permission') as [perm|]; [|done]. destruct (hasPermission perm s); [done|].
    by rewrite String.eqb_refl.
  - destruct (truthy pagePermission) as [permission|]; [|by split; [intros _; split_and!; [done|by intros ? [= <-]|]|]].
    destruct (hasPermission permission s) eqn:Eh; [by split; [intros _; split_and!; [done|by intros ? [= <-]|by intros ? [= <-]]|]|].
    split; [by destruct (String.eqb _ _)|]. intros (_ & _ & Hp). specialize (Hp permission eq_refl). congruence.
  - split; [|intros (_ & u' & [= <-] & ?); congruence]. destruct (truthy pagePermission) as [permission|]; [|done].
    destruct (hasPermission permission s); [done|]. by destruct (String.eqb _ _).
Qed.

(** ** Samples and witnesses *)
Module PagesSample.
Definition attack : string := "');steal();//".
Example attack_shown : shown (revoke_onclick "j1" attack) = "revokeSession('j1', '');steal();//')".
Proof. by vm_compute. Qed.
Example escaped : escapeHtml (JStr "a<b & 'c'") = "a&lt;b &amp; &#39;c&#39;".
Proof. by vm_compute. Qed.
Definition info : page_info := PageInfo 1 20 2 42 3.
Definition must_change : http_exception :=
  Http (js_Z 403) (JObj [("code", JStr "MUST_CHANGE_PASSWORD"); ("message", JStr "Password change is required before continuing.")])
    "Password change is required before continuing.".
Definition at_page (n : Z) : pager := Pager n 20 (Some info).
Example params : url_params [("page", js_Z 2); ("s", JStr ""); ("or", JArr [JStr "a"; JStr "b"]); ("filter", JNull)]
  = [("page", "2"); ("or", "a"); ("or", "b")].
Proof. by vm_compute. Qed.
Example sorted_back : getSort (new_sorting "created_at:desc") = Some "created_at:desc".
Proof. by vm_compute. Qed.
Example found : drawn " Adm " [PolicyRow "p1" "x" "Admin" "A"; PolicyRow "p2" "y" "Sales" "S"] ["p1"; "p2"]
  = [(PolicyRow "p1" "x" "Admin" "A", true)].
Proof. by vm_compute. Qed.
Example no_role : bootAdminPage "/iam" "/iam/dashboard" (Some "page:view_dashboard")
  (Session (Some "t") (Some (Guards.UserSession "u" "u" None None [] [] None false))) = NoAccess.
Proof. by vm_compute. Qed.
End PagesSample.

Lemma label_becomes_code_witness : shown (revoke_onclick "j1" PagesSample.attack) = "revokeSession('j1', '" +:+ PagesSample.attack +:+ "')".
Proof. exact (label_becomes_code "j1" PagesSample.attack eq_refl). Defined.
Lemma client_reads_errors_witness : let '(status, body) := AllExceptionsFilter "now" (EHttp PagesSample.must_change) in
  isMustChangePasswordError (toApiError "Forbidden" status body) = true.
Proof.
  pose proof (client_reads_errors "now" "Forbidden" PagesSample.must_change _ "Password change is required before continuing."
    eq_refl eq_refl eq_refl) as (_ & _ & Hm).
  exact (Hm eq_refl).
Defined.
Lemma pager_buttons_witness : is_Some (goToPage 1 (PagesSample.at_page 2)).
Proof.
  destruct (pager_buttons (PagesSample.at_page 2) PagesSample.info eq_refl) as (prev & next & Hr & _ & Hn & _); [by cbn|].
  apply Hn. vm_compute in Hr. by injection Hr.
Defined.
Lemma failed_load_moves_witness : goToPage 1 (load_end None (load_begin 2 (PagesSample.at_page 1))) = Some 3%Z.
Proof. exact (proj2 (failed_load_moves (PagesSample.at_page 1) PagesSample.info eq_refl ltac:(by cbn) ltac:(by cbn))). Defined.
Lemma clicks_alternate_witness : getSort (Nat.iter 2 (click "code") (new_sorting "created_at:desc")) = Some "code:desc".
Proof. exact (clicks_alternate "code" (new_sorting "created_at:desc") 1 ltac:(discriminate)). Defined.
Lemma toggle_exact_witness : "p2" ∈ toggleSelected "p1" false ["p1"; "p2"].
Proof.
  destruct (toggle_exact "p1" false ["p1"; "p2"]) as [_ Ht]; [apply (bool_decide_unpack _); exact I|].
  apply Ht. right. split; [discriminate|]. right. left.
Defined.
